(* ===== verification/_CoqProject ===== *)
-Q . S2P
Prelude.v
TimeUtils.v
Protocol.v
Packet.v
SeqGen.v
SeqRecov.v
SeqRecovSpec.v
SeqRecovRace.v
SeqRecovTimer.v
SeqSeamless.v
HeaderField.v
Checksum.v
ParseTree.v
Pof.v
Delay.v
Action.v
Octets.v
Object.v
Pipeline.v
PipelineRun.v
Replication.v
CString.v
HashMap.v
Double.v
Json.v
JsonText.v
IniFile.v
JsonParse.v
JsonRound.v
JsonObject.v
OamSession.v
ConfUtils.v
ConfActions.v
ConfPipeline.v
ConfTyping.v
ConfSound.v
ConfPacket.v
Assemble.v
ActionSafe.v
RunSafe.v
Interface.v
ConfSafe.v
OamMp.v
OamCodec.v
OamWire.v
ObjState.v
Notification.v
UdpOut.v
OamRequest.v
ConfObject.v
ConfInterface.v
ConfFile.v
Commit.v
StreamNames.v
OamMask.v
OamMessage.v
OamPing.v
OamMaskNet.v
