(* ===== verification/Prelude.v ===== *)
(** * DNT verification library

    DNT is a user-space switch and router for deterministic networks: it
    receives packets on interfaces, identifies the stream a packet belongs to,
    runs the pipeline of the stream on it (editing of headers, sequence numbers,
    replication and elimination, ordering, delay, sending), and monitors the
    streams with OAM messages.  Pipelines come from a configuration text.  The
    library models the C code of the repository function by function and proves
    that it does what it is meant to.

    ** How the code is modelled

    A C integer is a [Z]; an operation that may leave the range of its type is
    followed by the wrap function of the type ([u8], [u16], [u32], [u64],
    [i32]).  Memory is a list of octets, and an access outside of a buffer, a
    NULL pointer, a conversion that is out of range, or a dangling handle makes
    the result [None] (or [Fault] in the pipelines), so that a theorem that a
    result exists is a theorem of memory safety.  A struct is a record, an enum
    or a tagged union an inductive type, a function that changes state a
    function from state to state.  An error that the code reports is a value.
    A pointer to a shared object is a handle into a finite map.  A thread is a
    function that makes one round, and its interleavings are lists of steps or
    a step relation.  Calls to the operating system are arguments: the messages
    that a socket delivers, the answers of system calls, clocks.

    ** Files

    Foundations.  [Prelude]: integers, memory, record updates, shared lemmas and
    tactics.  [TimeUtils]: time_utils.h.  [Protocol]: the header tables of
    protocol.c.  [Octets]: block writes.  [CString]: the C library functions on
    text that the program uses ([strtoull], [sscanf] conversions, [inet_pton]).
    [Double]: double precision numbers with printing and reading.  [HashMap]:
    lib/parsers/hashmap.c; a table refines a finite map.  [Json], [JsonText],
    [JsonParse], [JsonRound], [JsonObject]: lib/parsers/json.c, the parser and
    both printers; a printed value is read back, a truncated one is rejected,
    the parser ends on every text.  [IniFile]: lib/parsers/inifile.c; a file
    that is written is read back.

    Packets.  [Packet]: packet.c, the buffer with its scratch space and header
    list.  [HeaderField]: header.c, bit fields of headers.  [Checksum]:
    csum_partial and checksum.c.  [ParseTree]: headerdesc.c and parsetree.c, the
    identification of streams.

    Pipelines.  [SeqGen], [SeqRecov], [SeqRecovSpec], [SeqRecovTimer],
    [SeqSeamless]: seq_gen.c and seq_recov.c, with the refinement of vector
    recovery to a specification on unbounded numbers and exactly-once delivery.
    [SeqRecovRace]: the writes of a packet under the mutex interleaved one by one
    with those of the timer reset, which takes no lock.  [Pof]: pof.c; the test
    of the queue length is a step of its own in front of the lock.  [Delay]:
    delay.c, the queue and, as a timed step relation, the protocol of its
    threads, which relies on a sender being faster than the grace period of the
    worker.  [Action], [Object], [Pipeline]: action.c,
    object.c, replicate.c, pipeline.c; the class [PipelineObject] of Object.v is
    what pipelines need of an object.  [PipelineRun]: runs end, lose nothing and
    free nothing twice.  [Replication]: every branch, whatever
    its actions, runs on a copy of its own.

    Configuration.  [ConfUtils]: conf_utils.c.
    [ConfPacket]: conf_packet.c.  [ConfActions], [ConfPipeline], [Assemble]:
    conf_actions.c, from the text of an action line to pipelines.  [ConfTyping],
    [ConfSound]: every action of an accepted line fits the header stack at its
    position.  [ActionSafe], [RunSafe], [ConfSafe]: typed actions stay inside
    the packet, so that streams of an accepted configuration process arbitrary
    received frames without an access outside of a buffer.  [ConfObject]:
    conf_object.c.  [ConfInterface]: conf_interface.c and the constructors of
    the interfaces.  [ConfFile]: conf_streams.c, conf_oam.c and configfile.c; an
    accepted file gives exactly the objects, streams and stream lists of its
    lines.  [Commit]: state.c; the transaction of an accepted file, once it is
    committed, gives a system in which the reception of arbitrary frames by
    Ethernet, IP and UDP interfaces accesses no memory outside of its buffers, the
    composition of the configuration, the pipelines and the interfaces.

    Interfaces.  [Interface]: interface.c, if_utils.c and the receiving threads
    of if_eth.c, if_ip.c and if_udp_in.c.  [UdpOut]: if_udp_out.c.

    OAM.  [OamSession]: oam_session.c.  [OamMp]: the table of maintenance points
    of oam_maintenance.c, with the release of a reference in two steps, the second
    of which holds the lock; it is an instance of the class [MaintenancePoints]
    that [Assemble] is written against.  [OamCodec], [OamWire]: messages in
    packets of the three encapsulations; what is packed is what every receiver
    of the octets unpacks.  [ObjState]: the states that objects report.
    [Notification]: notification.c, events and reports in numbered fragments.
    [OamRequest]: oam_request.c and oam_core.c.  [StreamNames]: compound streams
    of state.c.  [OamMask]: mask signals.  [OamMessage]: oam_message.c.
    [OamPing]: a ping is answered and counted, the composition of request,
    codec, table, JSON and sessions.  [OamMaskNet]: mask signals pass a
    recovery.

    ** Fuel and bounds

    Recursion of the code that is not structural has fuel.  The JSON parser, the
    reader of configuration files and the option and line scanners take the
    length of the text plus one, and each round consumes a character
    ([json_parse_total], [ini_read_write]).  The references that are dropped one
    after the other in [Commit] have the fuel as an argument: every round drops
    a reference.  [pipe_iterator_run] takes
    the depth of nested replications plus the number of actions;
    [run_balanced] proves that enough fuel gives a result.  Loops over packets,
    headers and tables are folds over their lists.  Serial numbers are compared
    as the code does, in 16 bits; the refinement theorems state the window in
    which that agrees with unbounded numbers.

    ** What is not modelled

    Sockets, netlink and threads themselves (most of if_udp_in.c, if_oam.c,
    if_oam_eth.c, if_oam_cmd.c and if_internal.c, the opening of interfaces,
    thread_utils.c), the output of texts to the command line and to logs
    (oam_command.c, log.c, the print functions of all components), the monitor of the system (sysmon.c), the start of the
    program (main.c), and tests and tools.  They are input and output around the
    modelled functions, or they compose them in a fixed order. *)

From Stdlib Require Export ZArith Lia.
From stdpp Require Export base tactics option list numbers fin_maps gmap strings.

#[global] Open Scope Z_scope.

(** [lia] also decides goals with division and remainder. *)
Ltac Zify.zify_post_hook ::= Z.to_euclidean_division_equations.

(** ** Fixed-width integers

    C integers are modelled by [Z]; an operation whose result may leave the
    range of its type is followed by the wrap function of that type. *)

Definition u8 (z : Z) : Z := z mod 256.
Definition u16 (z : Z) : Z := z mod 65536.
Definition u32 (z : Z) : Z := z mod 4294967296.
Definition u64 (z : Z) : Z := z mod 18446744073709551616.
Definition i32 (z : Z) : Z := (z + 2147483648) mod 4294967296 - 2147483648.

Definition is_u8 (z : Z) : Prop := 0 <= z < 256.
Definition is_u16 (z : Z) : Prop := 0 <= z < 65536.
Definition is_u32 (z : Z) : Prop := 0 <= z < 4294967296.
Definition is_i32 (z : Z) : Prop := -2147483648 <= z < 2147483648.

(** Conversion of a C [bool] to the integer it is promoted to. *)
Definition b2z (b : bool) : Z := if b then 1 else 0.

(** Case analysis on the integer comparisons of the goal; branches whose
    conditions contradict the hypotheses are closed. *)
Ltac zcase_with b :=
  match b with
  | ?a <? ?b => destruct (Z.ltb_spec a b)
  | ?a <=? ?b => destruct (Z.leb_spec a b)
  | ?a >? ?b => destruct (Z.gtb_spec a b)
  | ?a >=? ?b => destruct (Z.geb_spec a b)
  | ?a =? ?b => destruct (Z.eqb_spec a b)
  end.
Ltac zcase :=
  match goal with
  | |- context [?a <? ?b] => zcase_with (a <? b)
  | |- context [?a <=? ?b] => zcase_with (a <=? b)
  | |- context [?a >? ?b] => zcase_with (a >? b)
  | |- context [?a >=? ?b] => zcase_with (a >=? b)
  | |- context [?a =? ?b] => zcase_with (a =? b)
  end.
Ltac zcases := repeat (zcase; try (exfalso; lia)).

(** [decide_now] proves a closed decidable proposition by evaluation. *)
Ltac decide_now := refine (bool_decide_unpack _ _); vm_compute; exact I.

Create HintDb dnt.
Create Rewrite HintDb dnt_rw.

Lemma u8_range z : is_u8 (u8 z).
Proof. unfold is_u8, u8. lia. Qed.
Lemma u16_range z : is_u16 (u16 z).
Proof. unfold is_u16, u16. lia. Qed.
Lemma u32_range z : is_u32 (u32 z).
Proof. unfold is_u32, u32. lia. Qed.
Lemma i32_range z : is_i32 (i32 z).
Proof. unfold is_i32, i32. lia. Qed.

Lemma u8_small z : is_u8 z → u8 z = z.
Proof. unfold is_u8, u8. intros. lia. Qed.
Lemma u16_small z : is_u16 z → u16 z = z.
Proof. unfold is_u16, u16. intros. lia. Qed.
Lemma u32_small z : is_u32 z → u32 z = z.
Proof. unfold is_u32, u32. intros. lia. Qed.
Lemma i32_small z : is_i32 z → i32 z = z.
Proof. unfold is_i32, i32. intros. lia. Qed.

(** Signed wrap-around is compatible with addition: a counter that is
    incremented step by step is the wrapped sum of its increments. *)
Lemma i32_add_l a b : i32 (i32 a + b) = i32 (a + b).
Proof. unfold i32. lia. Qed.
Lemma i32_add_r a b : i32 (a + i32 b) = i32 (a + b).
Proof. unfold i32. lia. Qed.
Lemma i32_idemp a : i32 (i32 a) = i32 a.
Proof. unfold i32. lia. Qed.

#[export] Hint Resolve u8_range u16_range u32_range i32_range : dnt.
#[export] Hint Rewrite i32_add_l i32_add_r i32_idemp : dnt_rw.

Lemma land_ones_mod x k : 0 <= k → Z.land x (2 ^ k - 1) = x mod 2 ^ k.
Proof. intros. rewrite <- Z.land_ones by lia. f_equal. rewrite Z.ones_equiv. lia. Qed.

Lemma land_ffff x : Z.land x 65535 = x mod 65536.
Proof. apply (land_ones_mod x 16). lia. Qed.
Lemma land_ff x : Z.land x 255 = x mod 256.
Proof. apply (land_ones_mod x 8). lia. Qed.

(** Or-ing fields that do not overlap is adding them. *)
Lemma lor_disjoint a c k :
  0 <= k → 0 <= a < 2 ^ k → Z.lor a (c * 2 ^ k) = a + c * 2 ^ k.
Proof.
  intros Hk Ha. apply Z.bits_inj'. intros i Hi. rewrite Z.lor_spec.
  destruct (Z.lt_ge_cases i k).
  - rewrite Z.mul_pow2_bits_low, orb_false_r by done.
    rewrite <- (Z.mod_pow2_bits_low (a + c * 2 ^ k) k) by done.
    rewrite Z_mod_plus_full, Z.mod_small by done. done.
  - rewrite Z.mul_pow2_bits by done.
    replace (Z.testbit a i) with false.
    2: { rewrite <- (Z.mod_small a (2 ^ k)) by done. by rewrite Z.mod_pow2_bits_high by lia. }
    simpl. replace i with (i - k + k) at 2 by lia.
    rewrite <- Z.div_pow2_bits by lia. rewrite Z_div_plus_full by lia.
    rewrite Z.div_small by done. done.
Qed.

(** ** Byte order

    The model fixes a little-endian host, where [htonl]/[ntohl] reverse the
    four bytes of a 32-bit word and [htole16] is the identity. *)

Definition byte_of (x k : Z) : Z := (x / 2 ^ (8 * k)) mod 256.

Definition bswap_16 (x : Z) : Z := byte_of x 0 * 256 + byte_of x 1.
Definition bswap_32 (x : Z) : Z :=
  byte_of x 0 * 16777216 + byte_of x 1 * 65536 + byte_of x 2 * 256 + byte_of x 3.
Definition htonl (x : Z) : Z := bswap_32 x.
Definition ntohl (x : Z) : Z := bswap_32 x.
Definition ntohs (x : Z) : Z := bswap_16 x.
Definition htole16 (x : Z) : Z := x.

Lemma bswap_16_range x : is_u16 (bswap_16 x).
Proof. unfold bswap_16, byte_of, is_u16. lia. Qed.
Lemma bswap_32_range x : is_u32 (bswap_32 x).
Proof. unfold bswap_32, byte_of, is_u32. lia. Qed.

Lemma byte_of_word32 b0 b1 b2 b3 :
  is_u8 b0 → is_u8 b1 → is_u8 b2 → is_u8 b3 →
  let x := b0 + 256 * b1 + 65536 * b2 + 16777216 * b3 in
  byte_of x 0 = b0 ∧ byte_of x 1 = b1 ∧ byte_of x 2 = b2 ∧ byte_of x 3 = b3.
Proof.
  unfold is_u8, byte_of. intros H0 H1 H2 H3. cbv zeta.
  change (2 ^ (8 * 0)) with 1. change (2 ^ (8 * 1)) with 256.
  change (2 ^ (8 * 2)) with 65536. change (2 ^ (8 * 3)) with 16777216.
  repeat split; lia.
Qed.

Lemma bswap_32_involutive x : is_u32 x → bswap_32 (bswap_32 x) = x.
Proof.
  intros Hx. unfold bswap_32 at 1.
  destruct (byte_of_word32 (byte_of x 3) (byte_of x 2) (byte_of x 1) (byte_of x 0))
    as (E0 & E1 & E2 & E3); [unfold is_u8, byte_of; lia..|].
  replace (byte_of x 3 + _ + _ + _) with (bswap_32 x) in * by (unfold bswap_32; lia).
  rewrite E0, E1, E2, E3. unfold byte_of, is_u32 in *.
  change (2 ^ (8 * 0)) with 1. change (2 ^ (8 * 1)) with 256.
  change (2 ^ (8 * 2)) with 65536. change (2 ^ (8 * 3)) with 16777216. lia.
Qed.

Lemma ntohl_htonl x : is_u32 x → ntohl (htonl x) = x.
Proof. apply bswap_32_involutive. Qed.

(** ** Byte memory

    A buffer is a list of octets; addresses are offsets from its start.  An
    access outside the buffer is undefined behaviour in C: it is [None]. *)

Abbreviation mem := (list Z).

Definition load (m : mem) (a : Z) : option Z :=
  if 0 <=? a then m !! Z.to_nat a else None.

Definition store (m : mem) (a v : Z) : option mem :=
  if (0 <=? a) && (a <? Z.of_nat (length m)) then Some (<[Z.to_nat a := v]> m) else None.

Definition in_range (m : mem) (a : Z) : Prop := 0 <= a < Z.of_nat (length m).

Definition bytes_ok (m : mem) : Prop := Forall is_u8 m.

Section memory.
Implicit Types (m : mem) (a v : Z).

Lemma load_is_Some m a : is_Some (load m a) ↔ in_range m a.
Proof.
  unfold load, in_range. destruct (Z.leb_spec 0 a).
  - rewrite lookup_lt_is_Some. lia.
  - split; [intros [? ?]; congruence | lia].
Qed.

Lemma load_in_range m a : in_range m a → ∃ v, load m a = Some v.
Proof. rewrite <- load_is_Some. intros [v ?]. eauto. Qed.

Lemma load_Some_range m a v : load m a = Some v → in_range m a.
Proof. intros H. apply load_is_Some. eauto. Qed.

Lemma load_byte m a v : bytes_ok m → load m a = Some v → is_u8 v.
Proof.
  unfold load. intros Hm H. destruct (0 <=? a); [|done].
  eapply Forall_lookup_1; eauto.
Qed.

Lemma store_in_range m a v : in_range m a → store m a v = Some (<[Z.to_nat a := v]> m).
Proof.
  unfold store, in_range. intros.
  destruct (Z.leb_spec 0 a), (Z.ltb_spec a (Z.of_nat (length m))); try lia. done.
Qed.

Lemma store_Some m a v m' :
  store m a v = Some m' → in_range m a ∧ m' = <[Z.to_nat a := v]> m.
Proof.
  unfold store, in_range.
  destruct (Z.leb_spec 0 a), (Z.ltb_spec a (Z.of_nat (length m))); simpl; intros;
    simplify_eq; split; auto; lia.
Qed.

Lemma store_length m a v m' : store m a v = Some m' → length m' = length m.
Proof. intros [_ ->]%store_Some. apply length_insert. Qed.

Lemma load_store_eq m a v m' : store m a v = Some m' → load m' a = Some v.
Proof.
  intros [Ha ->]%store_Some. unfold load, in_range in *.
  destruct (Z.leb_spec 0 a); [|lia]. apply list_lookup_insert_eq. lia.
Qed.

Lemma load_store_ne m a v m' b : store m a v = Some m' → a ≠ b → load m' b = load m b.
Proof.
  intros [Ha ->]%store_Some Hne. unfold load, in_range in *.
  destruct (Z.leb_spec 0 b); [|done]. apply list_lookup_insert_ne. lia.
Qed.

Lemma in_range_store m a v m' b : store m a v = Some m' → in_range m' b ↔ in_range m b.
Proof. intros H%store_length. unfold in_range. rewrite H. done. Qed.

Lemma store_bytes_ok m a v m' : bytes_ok m → is_u8 v → store m a v = Some m' → bytes_ok m'.
Proof. intros Hm Hv [_ ->]%store_Some. by apply Forall_insert. Qed.

Lemma mem_ext m1 m2 : length m1 = length m2 → (∀ a, load m1 a = load m2 a) → m1 = m2.
Proof.
  intros _ H. apply list_eq. intros i. specialize (H (Z.of_nat i)).
  unfold load in H. rewrite Nat2Z.id in H.
  destruct (Z.leb_spec 0 (Z.of_nat i)); [done | lia].
Qed.
End memory.

(** ** Sums over finite maps *)

Section map_sums.
Context {K A : Type} `{Countable K}.
Implicit Types (f : A → Z) (m : gmap K A).

Definition map_sum (f : A → Z) (m : gmap K A) : Z := map_fold (λ _ x acc, f x + acc) 0 m.

Lemma map_sum_empty f : map_sum f ∅ = 0.
Proof. apply map_fold_empty. Qed.

Lemma map_sum_insert f m k x : m !! k = None → map_sum f (<[k := x]> m) = f x + map_sum f m.
Proof. intros Hk. unfold map_sum. rewrite map_fold_insert_L; [done | intros; lia | done]. Qed.

Lemma map_sum_delete f m k x : m !! k = Some x → map_sum f m = f x + map_sum f (delete k m).
Proof.
  intros Hk. rewrite <- (insert_delete_id m k x Hk) at 1. apply map_sum_insert, lookup_delete_eq.
Qed.

Lemma map_sum_update f m k x y : m !! k = Some x → map_sum f (<[k := y]> m) = map_sum f m - f x + f y.
Proof.
  intros Hk. rewrite <- insert_delete_eq, map_sum_insert by apply lookup_delete_eq.
  rewrite (map_sum_delete f m k x Hk). lia.
Qed.

Lemma map_sum_bound f m : (∀ x, 0 <= f x <= 1) → 0 <= map_sum f m <= Z.of_nat (size m).
Proof.
  intros Hf. induction m as [|k x m Hk IH] using map_ind; [by rewrite map_sum_empty, map_size_empty|].
  rewrite map_sum_insert, map_size_insert_None by done. specialize (Hf x). lia.
Qed.
End map_sums.

(** The concatenation of a list for every entry, up to order. *)
Section map_concats.
Context {K A B : Type} `{Countable K}.
Implicit Types (f : A → list B) (m : gmap K A).

Definition map_concat (f : A → list B) (m : gmap K A) : list B := map_to_list m ≫= λ kv, f kv.2.

Lemma map_concat_insert f m k x : m !! k = None → map_concat f (<[k := x]> m) ≡ₚ f x ++ map_concat f m.
Proof. intros Hk. unfold map_concat. by rewrite (map_to_list_insert _ _ _ Hk). Qed.

Lemma map_concat_update f m k x :
  m !! k = Some x → ∃ r, map_concat f m ≡ₚ f x ++ r ∧ ∀ y, map_concat f (<[k := y]> m) ≡ₚ f y ++ r.
Proof.
  intros Hk. exists (map_concat f (delete k m)). split.
  - unfold map_concat. by rewrite <- (map_to_list_delete m k x Hk).
  - intros y. rewrite <- insert_delete_eq. apply map_concat_insert, lookup_delete_eq.
Qed.
End map_concats.

(** ** Record update

    [r <| p := v |>] is the record [r] with the field projected by [p]
    replaced.  A record type declares its eta expansion once; the setter of
    each field is derived from it. *)

Class Eta (R : Type) := eta_expand : R → R.

Class Setter {R T : Type} (p : R → T) := modify : (T → T) → R → R.
Arguments modify {R T} p {Setter} / g r.

Ltac derive_setter :=
  match goal with
  | |- @Setter ?R ?T ?p =>
      let g := fresh "g" in let r := fresh "r" in
      unfold Setter; intros g r;
      let e := constr:(eta_expand r) in
      let e := eval hnf in e in
      lazymatch e with context [p r] => idtac end;
      match eval pattern (p r) in e with
      | ?F _ => let t := eval cbv beta in (F (g (p r))) in exact t
      end
  end.

#[export] Hint Extern 1 (Setter _) => derive_setter : typeclass_instances.

Notation "r <| p := v |>" := (modify p (λ _, v) r)
  (at level 1, left associativity, format "r  <| p  :=  v |>").
