(* ===== verification/TimeUtils.v ===== *)
(** * Time arithmetic (time_utils.h)

    The [timespec] macros and inline functions, the 21-bit TSN time stamp
    carried in a TTAG/TCW, and their meaning as a count of nanoseconds.
    [time_t] and [long] are 64 bits wide; times are kept as unbounded [Z]. *)

From S2P Require Import Prelude.

Module Time.

Record timespec := mk_timespec { tv_sec : Z; tv_nsec : Z }.

#[global] Instance timespec_eq_dec : EqDecision timespec.
Proof. solve_decision. Defined.

#[global] Instance eta_timespec : Eta timespec := λ t, mk_timespec (tv_sec t) (tv_nsec t).

Definition NSEC_PER_SEC : Z := 1000000000.

Definition timespeccmp (cmp : Z → Z → bool) (t u : timespec) : bool :=
  if tv_sec t =? tv_sec u then cmp (tv_nsec t) (tv_nsec u) else cmp (tv_sec t) (tv_sec u).

Definition timespecadd (t u : timespec) : timespec :=
  let v := mk_timespec (tv_sec t + tv_sec u) (tv_nsec t + tv_nsec u) in
  if tv_nsec v >=? NSEC_PER_SEC
  then mk_timespec (tv_sec v + 1) (tv_nsec v - NSEC_PER_SEC) else v.

Definition timespecsub (t u : timespec) : timespec :=
  let v := mk_timespec (tv_sec t - tv_sec u) (tv_nsec t - tv_nsec u) in
  if tv_nsec v <? 0
  then mk_timespec (tv_sec v - 1) (tv_nsec v + NSEC_PER_SEC) else v.

Definition timespec_from_msec (msec : Z) : timespec :=
  mk_timespec (Z.quot msec 1000) (Z.rem msec 1000 * 1000000).

(** The TSN time stamp: 20 bits of microseconds, one bit of seconds and the
    TTAG indicator, stored in network byte order. *)
Definition timespec_to_tsntstamp (t : timespec) : Z :=
  htonl (u32 (134217728 + Z.shiftl (Z.rem (tv_sec t) 2) 20
              + Z.land (Z.quot (tv_nsec t) 1000) 1048575)).

Definition timespec_from_tsntstamp (tsnts : Z) (now : timespec) : timespec :=
  let _ts := ntohl tsnts in
  let sec := Z.land (Z.shiftr _ts 20) 1 in
  let nsec := u32 (Z.land _ts 1048575 * 1000) in
  let sec' :=
    if Z.land (tv_sec now) 1 =? sec then
      if tv_nsec now >=? nsec then tv_sec now else tv_sec now - 2
    else tv_sec now - 1 in
  mk_timespec sec' nsec.

Definition time_diff_us (t1 t2 : timespec) : Z :=
  Z.quot (tv_nsec t1 - tv_nsec t2) 1000 + (tv_sec t1 - tv_sec t2) * 1000000.

Definition time_add_us (t : timespec) (increase_us : Z) : timespec :=
  let sec := tv_sec t + increase_us / 1000000 in
  let nsec := tv_nsec t + (increase_us mod 1000000) * 1000 in
  mk_timespec (sec + Z.quot nsec NSEC_PER_SEC) (Z.rem nsec NSEC_PER_SEC).

(** ** Meaning *)

Definition to_ns (t : timespec) : Z := tv_sec t * NSEC_PER_SEC + tv_nsec t.

Definition normalised (t : timespec) : Prop := 0 <= tv_nsec t < NSEC_PER_SEC.

(** The time stamp keeps whole microseconds. *)
Definition trunc_us (t : timespec) : timespec :=
  mk_timespec (tv_sec t) (tv_nsec t / 1000 * 1000).

Ltac unfold_time :=
  unfold to_ns, normalised, trunc_us, NSEC_PER_SEC in *; simpl in *.

Lemma to_ns_inj t u : normalised t → normalised u → to_ns t = to_ns u → t = u.
Proof. destruct t, u. unfold_time. intros. f_equal; lia. Qed.

Lemma timespecadd_ns t u : to_ns (timespecadd t u) = to_ns t + to_ns u.
Proof. unfold timespecadd. unfold_time. destruct (Z.geb_spec (tv_nsec t + tv_nsec u) 1000000000); simpl; lia. Qed.

Lemma timespecadd_normalised t u :
  normalised t → normalised u → normalised (timespecadd t u).
Proof. unfold timespecadd. unfold_time. intros. destruct (Z.geb_spec (tv_nsec t + tv_nsec u) 1000000000); simpl; lia. Qed.

Lemma timespecsub_ns t u : to_ns (timespecsub t u) = to_ns t - to_ns u.
Proof. unfold timespecsub. unfold_time. destruct (Z.ltb_spec (tv_nsec t - tv_nsec u) 0); simpl; lia. Qed.

Lemma timespecsub_normalised t u :
  normalised t → normalised u → normalised (timespecsub t u).
Proof. unfold timespecsub. unfold_time. intros. destruct (Z.ltb_spec (tv_nsec t - tv_nsec u) 0); simpl; lia. Qed.

Lemma timespec_from_msec_spec msec :
  0 <= msec → to_ns (timespec_from_msec msec) = msec * 1000000 ∧ normalised (timespec_from_msec msec).
Proof. unfold timespec_from_msec. unfold_time. lia. Qed.

Lemma timespeccmp_gt_spec t u :
  normalised t → normalised u → timespeccmp Z.gtb t u = true ↔ to_ns u < to_ns t.
Proof.
  unfold timespeccmp. unfold_time. intros.
  destruct (Z.eqb_spec (tv_sec t) (tv_sec u)); rewrite Z.gtb_lt; lia.
Qed.

Lemma timespeccmp_lt_spec t u :
  normalised t → normalised u → timespeccmp Z.ltb t u = true ↔ to_ns t < to_ns u.
Proof.
  unfold timespeccmp. unfold_time. intros.
  destruct (Z.eqb_spec (tv_sec t) (tv_sec u)); rewrite Z.ltb_lt; lia.
Qed.

(** [time_diff_us] is the difference in microseconds up to less than one. *)
Lemma time_diff_us_close t u :
  let d := to_ns t - to_ns u in
  d - 1000 < time_diff_us t u * 1000 < d + 1000.
Proof. unfold time_diff_us. unfold_time. lia. Qed.

Lemma time_add_us_spec t us :
  normalised t → 0 <= us →
  to_ns (time_add_us t us) = to_ns t + us * 1000 ∧ normalised (time_add_us t us).
Proof. unfold time_add_us. unfold_time. intros. split; lia. Qed.

(** The stamp of a normalised time, as a number in host byte order. *)
Lemma tsntstamp_value t :
  normalised t → 0 <= tv_sec t →
  ntohl (timespec_to_tsntstamp t) =
    134217728 + (tv_sec t mod 2) * 1048576 + tv_nsec t / 1000.
Proof.
  unfold_time. intros Hn Hs. unfold timespec_to_tsntstamp.
  rewrite (land_ones_mod _ 20) by lia. rewrite Z.shiftl_mul_pow2 by lia.
  change (2 ^ 20) with 1048576.
  rewrite u32_small by (unfold is_u32; lia).
  rewrite ntohl_htonl by (unfold is_u32; lia). lia.
Qed.

Lemma tsntstamp_fields x us :
  0 <= us < 1048576 → 0 <= x < 2 →
  let s := 134217728 + x * 1048576 + us in
  Z.land (Z.shiftr s 20) 1 = x ∧ Z.land s 1048575 = us.
Proof.
  intros Hus Hx. cbv zeta.
  rewrite (land_ones_mod _ 1), (land_ones_mod _ 20), Z.shiftr_div_pow2 by lia.
  change (2 ^ 20) with 1048576. change (2 ^ 1) with 2. lia.
Qed.

(** TSN time stamp round trip.  A receiver whose clock is not before the
    stamped time (in whole microseconds) and less than two seconds after it
    recovers the stamped time to the microsecond from the 21 bits the stamp
    carries. *)
Theorem tsntstamp_roundtrip t now :
  normalised t → normalised now → 0 <= tv_sec t →
  to_ns (trunc_us t) <= to_ns now < to_ns (trunc_us t) + 2 * NSEC_PER_SEC →
  timespec_from_tsntstamp (timespec_to_tsntstamp t) now = trunc_us t.
Proof.
  intros Ht Hnow Hs Hclose. unfold timespec_from_tsntstamp. cbv zeta.
  rewrite tsntstamp_value by done. revert Ht Hnow Hclose. unfold_time. intros Ht Hnow Hclose.
  destruct (tsntstamp_fields (tv_sec t mod 2) (tv_nsec t / 1000)) as [E1 E2]; [lia..|].
  assert (Z.land (tv_sec now) 1 = tv_sec now mod 2) as E3 by (apply (land_ones_mod _ 1); lia).
  rewrite E1, E2, E3.
  rewrite u32_small by (unfold is_u32; lia).
  zcases; f_equal; lia.
Qed.

(** A stamp taken 1.5 seconds before it is read. *)
Lemma tsntstamp_roundtrip_witness :
  timespec_from_tsntstamp (timespec_to_tsntstamp (mk_timespec 1001 900000123)) (mk_timespec 1003 400000000)
  = mk_timespec 1001 900000000.
Proof.
  apply (tsntstamp_roundtrip (mk_timespec 1001 900000123) (mk_timespec 1003 400000000));
    unfold normalised, to_ns, trunc_us, NSEC_PER_SEC; cbn; lia.
Defined.

End Time.
