(* ===== verification/Protocol.v ===== *)
(** * Protocol tables (protocol.h, protocol.c)

    The descriptors of every header DNT can identify or edit, the
    next-header translations, and the look-ups the configuration compiler and
    the classifier make in them. *)

From S2P Require Import Prelude.

Module Proto.

#[local] Open Scope string_scope.
#[local] Open Scope Z_scope.

Inductive ProtocolFieldType :=
  | PFTYPE_UNKNOWN | PFTYPE_NUMBER | PFTYPE_MACADDRESS | PFTYPE_IPV4ADDRESS
  | PFTYPE_IPV6ADDRESS | PFTYPE_TSNSEQ | PFTYPE_SRV6SEQ | PFTYPE_TSNTSTAMP
  | PFTYPE_TTL | PFTYPE_CHECKSUM | PFTYPE_NEXTHEADER.

Inductive ProtocolID :=
  | PROTO_ID_PAYLOAD | PROTO_ID_ETH | PROTO_ID_SVLAN | PROTO_ID_CVLAN
  | PROTO_ID_RTAG | PROTO_ID_TTAG | PROTO_ID_MPLS | PROTO_ID_DCW | PROTO_ID_TCW
  | PROTO_ID_IPv4 | PROTO_ID_IPv6 | PROTO_ID_ARP | PROTO_ID_UDP | PROTO_ID_TCP
  | PROTO_ID_OAM | PROTO_ID_OAMRTAG | PROTO_ID_CFM | PROTO_ID_ICMPv4 | PROTO_ID_ICMPv6.

#[global] Instance ProtocolFieldType_eq_dec : EqDecision ProtocolFieldType.
Proof. solve_decision. Defined.
#[global] Instance ProtocolID_eq_dec : EqDecision ProtocolID.
Proof. solve_decision. Defined.

(** The enumeration in declaration order; the value of a constant is its index. *)
Definition all_ids : list ProtocolID :=
  [PROTO_ID_PAYLOAD; PROTO_ID_ETH; PROTO_ID_SVLAN; PROTO_ID_CVLAN; PROTO_ID_RTAG;
   PROTO_ID_TTAG; PROTO_ID_MPLS; PROTO_ID_DCW; PROTO_ID_TCW; PROTO_ID_IPv4;
   PROTO_ID_IPv6; PROTO_ID_ARP; PROTO_ID_UDP; PROTO_ID_TCP; PROTO_ID_OAM;
   PROTO_ID_OAMRTAG; PROTO_ID_CFM; PROTO_ID_ICMPv4; PROTO_ID_ICMPv6].

Definition id_index (id : ProtocolID) : nat :=
  match id with
  | PROTO_ID_PAYLOAD => 0 | PROTO_ID_ETH => 1 | PROTO_ID_SVLAN => 2 | PROTO_ID_CVLAN => 3
  | PROTO_ID_RTAG => 4 | PROTO_ID_TTAG => 5 | PROTO_ID_MPLS => 6 | PROTO_ID_DCW => 7
  | PROTO_ID_TCW => 8 | PROTO_ID_IPv4 => 9 | PROTO_ID_IPv6 => 10 | PROTO_ID_ARP => 11
  | PROTO_ID_UDP => 12 | PROTO_ID_TCP => 13 | PROTO_ID_OAM => 14 | PROTO_ID_OAMRTAG => 15
  | PROTO_ID_CFM => 16 | PROTO_ID_ICMPv4 => 17 | PROTO_ID_ICMPv6 => 18
  end%nat.

Record ProtocolField := mk_field {
  pf_name : string;
  pf_bitoffset : Z;
  pf_bitcount : Z;
  pf_type : ProtocolFieldType
}.

#[global] Instance ProtocolField_eq_dec : EqDecision ProtocolField.
Proof. solve_decision. Defined.

(** A function pointer that may be [NULL] is an [option]; the [bool] result
    with an output argument of the translations is an [option]. *)
Record Protocol := mk_protocol {
  pr_name : string;
  header_fields : list ProtocolField;
  bytelength : Z;
  get_id : option (Z → option ProtocolID);
  get_nexthdr : option (ProtocolID → option Z);
  default_value : list Z   (* the first octets of a newly created header *)
}.

(** ** Next-header values *)

Definition ETH_P_IP : Z := 0x0800.
Definition ETH_P_ARP : Z := 0x0806.
Definition ETH_P_8021Q : Z := 0x8100.
Definition ETH_P_IPV6 : Z := 0x86DD.
Definition ETH_P_MPLS_UC : Z := 0x8847.
Definition ETH_P_8021AD : Z := 0x88A8.
Definition ETH_P_CFM : Z := 0x8902.
Definition ETH_P_FRER : Z := 0xf1c1.

Definition IPPROTO_ICMP : Z := 1.
Definition IPPROTO_IPIP : Z := 4.
Definition IPPROTO_TCP : Z := 6.
Definition IPPROTO_UDP : Z := 17.
Definition IPPROTO_IPV6 : Z := 41.
Definition IPPROTO_ICMPV6 : Z := 58.
Definition IPPROTO_MPLS : Z := 137.
Definition IPPROTO_ETHERNET : Z := 143.

Definition id_from_ethertype (nexthdr : Z) : option ProtocolID :=
  if nexthdr =? ETH_P_8021Q then Some PROTO_ID_CVLAN
  else if nexthdr =? ETH_P_8021AD then Some PROTO_ID_SVLAN
  else if nexthdr =? ETH_P_FRER then Some PROTO_ID_RTAG
  else if nexthdr =? ETH_P_MPLS_UC then Some PROTO_ID_MPLS
  else if nexthdr =? ETH_P_IP then Some PROTO_ID_IPv4
  else if nexthdr =? ETH_P_IPV6 then Some PROTO_ID_IPv6
  else if nexthdr =? ETH_P_ARP then Some PROTO_ID_ARP
  else if nexthdr =? ETH_P_CFM then Some PROTO_ID_CFM
  else None.

Definition ethertype_from_id (id : ProtocolID) : option Z :=
  match id with
  | PROTO_ID_SVLAN => Some ETH_P_8021AD
  | PROTO_ID_CVLAN => Some ETH_P_8021Q
  | PROTO_ID_RTAG | PROTO_ID_TTAG | PROTO_ID_OAMRTAG => Some ETH_P_FRER
  | PROTO_ID_MPLS => Some ETH_P_MPLS_UC
  | PROTO_ID_IPv4 => Some ETH_P_IP
  | PROTO_ID_IPv6 => Some ETH_P_IPV6
  | PROTO_ID_ARP => Some ETH_P_ARP
  | PROTO_ID_CFM => Some ETH_P_CFM
  | PROTO_ID_PAYLOAD | PROTO_ID_ETH | PROTO_ID_DCW | PROTO_ID_TCW | PROTO_ID_UDP
  | PROTO_ID_TCP | PROTO_ID_OAM | PROTO_ID_ICMPv4 | PROTO_ID_ICMPv6 => None
  end.

Definition id_from_ipproto (proto : Z) : option ProtocolID :=
  if proto =? IPPROTO_IPIP then Some PROTO_ID_IPv4
  else if proto =? IPPROTO_IPV6 then Some PROTO_ID_IPv6
  else if proto =? IPPROTO_UDP then Some PROTO_ID_UDP
  else if proto =? IPPROTO_TCP then Some PROTO_ID_TCP
  else if proto =? IPPROTO_MPLS then Some PROTO_ID_MPLS
  else if proto =? IPPROTO_ETHERNET then Some PROTO_ID_ETH
  else if proto =? IPPROTO_ICMP then Some PROTO_ID_ICMPv4
  else if proto =? IPPROTO_ICMPV6 then Some PROTO_ID_ICMPv6
  else None.

Definition ipproto_from_id (id : ProtocolID) : option Z :=
  match id with
  | PROTO_ID_ETH => Some IPPROTO_ETHERNET
  | PROTO_ID_IPv4 => Some IPPROTO_IPIP
  | PROTO_ID_IPv6 => Some IPPROTO_IPV6
  | PROTO_ID_UDP => Some IPPROTO_UDP
  | PROTO_ID_TCP => Some IPPROTO_TCP
  | PROTO_ID_MPLS => Some IPPROTO_MPLS
  | PROTO_ID_ICMPv4 => Some IPPROTO_ICMP
  | PROTO_ID_ICMPv6 => Some IPPROTO_ICMPV6
  | PROTO_ID_PAYLOAD | PROTO_ID_CVLAN | PROTO_ID_SVLAN | PROTO_ID_RTAG | PROTO_ID_TTAG
  | PROTO_ID_DCW | PROTO_ID_TCW | PROTO_ID_OAM | PROTO_ID_ARP | PROTO_ID_OAMRTAG
  | PROTO_ID_CFM => None
  end.

(** ** Header fields *)

Definition payload_fields : list ProtocolField :=
  [].

Definition eth_fields : list ProtocolField :=
 [ mk_field "dmac" 0 48 PFTYPE_MACADDRESS;
   mk_field "smac" 48 48 PFTYPE_MACADDRESS;
   mk_field "ethertype" 96 16 PFTYPE_NEXTHEADER ].

Definition vlan_fields : list ProtocolField :=
 [ mk_field "pcp" 0 3 PFTYPE_NUMBER;
   mk_field "dei" 3 1 PFTYPE_NUMBER;
   mk_field "vid" 4 12 PFTYPE_NUMBER;
   mk_field "tpid" 16 16 PFTYPE_NEXTHEADER;
   mk_field "vlan" 0 16 PFTYPE_NUMBER ].

Definition rtag_fields : list ProtocolField :=
 [ mk_field "rt_flag" 4 1 PFTYPE_NUMBER;
   mk_field "reset_flag" 5 1 PFTYPE_NUMBER;
   mk_field "initseq_flag" 6 1 PFTYPE_NUMBER;
   mk_field "resv" 0 16 PFTYPE_NUMBER;
   mk_field "seqnum" 16 16 PFTYPE_NUMBER;
   mk_field "tpid" 32 16 PFTYPE_NEXTHEADER;
   mk_field "seq" 0 32 PFTYPE_TSNSEQ ].

Definition ttag_fields : list ProtocolField :=
 [ mk_field "rt_flag" 4 1 PFTYPE_NUMBER;
   mk_field "reset_flag" 5 1 PFTYPE_NUMBER;
   mk_field "initseq_flag" 6 1 PFTYPE_NUMBER;
   mk_field "resv" 0 16 PFTYPE_NUMBER;
   mk_field "tstampnum" 11 21 PFTYPE_NUMBER;
   mk_field "tpid" 32 16 PFTYPE_NEXTHEADER;
   mk_field "tstamp" 0 32 PFTYPE_TSNTSTAMP ].

Definition mpls_fields : list ProtocolField :=
 [ mk_field "label" 0 20 PFTYPE_NUMBER;
   mk_field "class" 20 3 PFTYPE_NUMBER;
   mk_field "bos" 23 1 PFTYPE_NUMBER;
   mk_field "ttl" 24 8 PFTYPE_TTL ].

Definition dcw_fields : list ProtocolField :=
 [ mk_field "rt_flag" 4 1 PFTYPE_NUMBER;
   mk_field "reset_flag" 5 1 PFTYPE_NUMBER;
   mk_field "initseq_flag" 6 1 PFTYPE_NUMBER;
   mk_field "resv" 0 16 PFTYPE_NUMBER;
   mk_field "seqnum" 16 16 PFTYPE_NUMBER;
   mk_field "seq" 0 32 PFTYPE_TSNSEQ ].

Definition tcw_fields : list ProtocolField :=
 [ mk_field "rt_flag" 4 1 PFTYPE_NUMBER;
   mk_field "reset_flag" 5 1 PFTYPE_NUMBER;
   mk_field "initseq_flag" 6 1 PFTYPE_NUMBER;
   mk_field "resv" 0 16 PFTYPE_NUMBER;
   mk_field "tstampnum" 11 21 PFTYPE_NUMBER;
   mk_field "tstamp" 0 32 PFTYPE_TSNTSTAMP ].

Definition ipv4_fields : list ProtocolField :=
 [ mk_field "version" 0 4 PFTYPE_NUMBER;
   mk_field "ihl" 4 4 PFTYPE_NUMBER;
   mk_field "verihl" 0 8 PFTYPE_NUMBER;
   mk_field "dscp" 8 6 PFTYPE_NUMBER;
   mk_field "ecn" 14 2 PFTYPE_NUMBER;
   mk_field "tos" 8 8 PFTYPE_NUMBER;
   mk_field "length" 16 16 PFTYPE_NUMBER;
   mk_field "id" 32 16 PFTYPE_NUMBER;
   mk_field "flags" 48 3 PFTYPE_NUMBER;
   mk_field "evil" 48 1 PFTYPE_NUMBER;
   mk_field "dontfragment" 49 1 PFTYPE_NUMBER;
   mk_field "morefragments" 50 1 PFTYPE_NUMBER;
   mk_field "fragoffset" 51 13 PFTYPE_NUMBER;
   mk_field "ttl" 64 8 PFTYPE_TTL;
   mk_field "protocol" 72 8 PFTYPE_NEXTHEADER;
   mk_field "checksum" 80 16 PFTYPE_CHECKSUM;
   mk_field "src" 96 32 PFTYPE_IPV4ADDRESS;
   mk_field "dst" 128 32 PFTYPE_IPV4ADDRESS ].

Definition ipv6_fields : list ProtocolField :=
 [ mk_field "version" 0 4 PFTYPE_NUMBER;
   mk_field "class" 4 8 PFTYPE_NUMBER;
   mk_field "label" 12 20 PFTYPE_NUMBER;
   mk_field "length" 32 16 PFTYPE_NUMBER;
   mk_field "nextheader" 48 8 PFTYPE_NEXTHEADER;
   mk_field "hoplimit" 56 8 PFTYPE_TTL;
   mk_field "src" 64 128 PFTYPE_IPV6ADDRESS;
   mk_field "dst" 192 128 PFTYPE_IPV6ADDRESS;
   mk_field "loc" 192 64 PFTYPE_NUMBER;
   mk_field "func" 256 16 PFTYPE_NUMBER;
   mk_field "flowid" 272 20 PFTYPE_NUMBER;
   mk_field "seq" 292 28 PFTYPE_SRV6SEQ ].

Definition arp_fields : list ProtocolField :=
 [ mk_field "hwtype" 0 16 PFTYPE_NUMBER;
   mk_field "prtype" 16 16 PFTYPE_NUMBER;
   mk_field "hwsize" 32 8 PFTYPE_NUMBER;
   mk_field "prsize" 40 8 PFTYPE_NUMBER;
   mk_field "opcode" 48 16 PFTYPE_NUMBER;
   mk_field "srcmac" 64 48 PFTYPE_MACADDRESS;
   mk_field "srcip" 112 32 PFTYPE_IPV4ADDRESS;
   mk_field "dstmac" 144 48 PFTYPE_MACADDRESS;
   mk_field "dstip" 192 32 PFTYPE_IPV4ADDRESS ].

Definition udp_fields : list ProtocolField :=
 [ mk_field "srcport" 0 16 PFTYPE_NUMBER;
   mk_field "dstport" 16 16 PFTYPE_NUMBER;
   mk_field "length" 32 16 PFTYPE_NUMBER;
   mk_field "checksum" 48 16 PFTYPE_CHECKSUM ].

Definition tcp_fields : list ProtocolField :=
 [ mk_field "srcport" 0 16 PFTYPE_NUMBER;
   mk_field "dstport" 16 16 PFTYPE_NUMBER;
   mk_field "seq" 32 32 PFTYPE_NUMBER;
   mk_field "ack" 64 32 PFTYPE_NUMBER;
   mk_field "dataoffs" 96 4 PFTYPE_NUMBER;
   mk_field "reserved" 100 4 PFTYPE_NUMBER;
   mk_field "flags" 104 8 PFTYPE_NUMBER;
   mk_field "cwr" 104 1 PFTYPE_NUMBER;
   mk_field "ece" 105 1 PFTYPE_NUMBER;
   mk_field "urg" 106 1 PFTYPE_NUMBER;
   mk_field "ack" 107 1 PFTYPE_NUMBER;
   mk_field "psh" 108 1 PFTYPE_NUMBER;
   mk_field "rst" 109 1 PFTYPE_NUMBER;
   mk_field "syn" 110 1 PFTYPE_NUMBER;
   mk_field "fin" 111 1 PFTYPE_NUMBER;
   mk_field "windowsize" 112 16 PFTYPE_NUMBER;
   mk_field "checksum" 128 16 PFTYPE_CHECKSUM;
   mk_field "urgentp" 144 16 PFTYPE_NUMBER ].

Definition oam_fields : list ProtocolField :=
 [ mk_field "oam_nibble" 0 4 PFTYPE_NUMBER;
   mk_field "version" 4 4 PFTYPE_NUMBER;
   mk_field "sequence" 8 8 PFTYPE_NUMBER;
   mk_field "channel" 16 16 PFTYPE_NUMBER;
   mk_field "nodeid" 32 20 PFTYPE_NUMBER;
   mk_field "level" 52 3 PFTYPE_NUMBER;
   mk_field "flags" 55 5 PFTYPE_NUMBER;
   mk_field "session" 60 4 PFTYPE_NUMBER ].

Definition oamrtag_fields : list ProtocolField :=
 [ mk_field "oam_nibble" 0 4 PFTYPE_NUMBER;
   mk_field "reserved" 4 4 PFTYPE_NUMBER;
   mk_field "sequence" 8 8 PFTYPE_NUMBER;
   mk_field "flags" 16 8 PFTYPE_NUMBER;
   mk_field "version" 24 4 PFTYPE_NUMBER;
   mk_field "session" 28 4 PFTYPE_NUMBER ].

Definition cfm_fields : list ProtocolField :=
 [ mk_field "mel" 0 3 PFTYPE_NUMBER;
   mk_field "version" 3 5 PFTYPE_NUMBER;
   mk_field "opcode" 8 8 PFTYPE_NUMBER;
   mk_field "flags" 16 8 PFTYPE_NUMBER;
   mk_field "tlvoffset" 24 8 PFTYPE_NUMBER ].

Definition icmpv4_fields : list ProtocolField :=
 [ mk_field "type" 0 8 PFTYPE_NUMBER;
   mk_field "code" 8 8 PFTYPE_NUMBER;
   mk_field "checksum" 16 16 PFTYPE_CHECKSUM;
   mk_field "identifier" 32 16 PFTYPE_NUMBER;
   mk_field "sequence" 48 16 PFTYPE_NUMBER;
   mk_field "unused" 32 32 PFTYPE_NUMBER;
   mk_field "gateway" 32 32 PFTYPE_IPV4ADDRESS;
   mk_field "pointer" 32 8 PFTYPE_NUMBER ].

Definition icmpv6_fields : list ProtocolField :=
 [ mk_field "type" 0 8 PFTYPE_NUMBER;
   mk_field "code" 8 8 PFTYPE_NUMBER;
   mk_field "checksum" 16 16 PFTYPE_CHECKSUM;
   mk_field "identifier" 32 16 PFTYPE_NUMBER;
   mk_field "sequence" 48 16 PFTYPE_NUMBER;
   mk_field "unused" 32 32 PFTYPE_NUMBER;
   mk_field "mtu" 32 32 PFTYPE_NUMBER;
   mk_field "pointer" 32 32 PFTYPE_NUMBER ].

Definition ipv4_default : list Z :=
  [0x45; 0; 0; 0;  0; 0; 0; 0;  0x40; 0; 0; 0].
Definition ipv6_default : list Z :=
  [0x60; 0; 0; 0;  0; 0; 0; 0x40].
Definition arp_default : list Z :=
  [0; 1; 8; 0;  6; 4; 0; 1].

(** ** The protocol list *)

Definition protocol_list : list Protocol :=
  let eth n f b := mk_protocol n f b (Some id_from_ethertype) (Some ethertype_from_id) [] in
  let ip n f b d := mk_protocol n f b (Some id_from_ipproto) (Some ipproto_from_id) d in
  let plain n f b d := mk_protocol n f b None None d in
  [ plain "payload" payload_fields 0 [];
    eth "eth" eth_fields (6 + 6 + 2);
    eth "svlan" vlan_fields 4;
    eth "cvlan" vlan_fields 4;
    eth "rtag" rtag_fields 6;
    eth "ttag" ttag_fields 6;
    plain "mpls" mpls_fields 4 [];
    plain "dcw" dcw_fields 4 [];
    plain "tcw" tcw_fields 4 [];
    ip "ipv4" ipv4_fields 20 ipv4_default;
    ip "ipv6" ipv6_fields 40 ipv6_default;
    plain "arp" arp_fields 28 arp_default;
    plain "udp" udp_fields 8 [];
    plain "tcp" tcp_fields 20 [];
    plain "oam" oam_fields 8 [];
    plain "oamrtag" oamrtag_fields 4 [];
    plain "cfm" cfm_fields 4 [];
    plain "icmpv4" icmpv4_fields 8 [];
    plain "icmpv6" icmpv6_fields 8 [] ].

Definition protocol_from_id (id : ProtocolID) : Protocol :=
  nth (id_index id) protocol_list (mk_protocol "" [] 0 None None []).

Definition fieldtype_name_from_type (t : ProtocolFieldType) : string :=
  match t with
  | PFTYPE_UNKNOWN => "Unknown"
  | PFTYPE_NUMBER => "Number"
  | PFTYPE_MACADDRESS => "MAC"
  | PFTYPE_IPV4ADDRESS => "IPv4"
  | PFTYPE_IPV6ADDRESS => "IPv6"
  | PFTYPE_TSNSEQ => "TSNSeq"
  | PFTYPE_SRV6SEQ => "SRv6Seq"
  | PFTYPE_TSNTSTAMP => "TSNTstamp"
  | PFTYPE_TTL => "TTL"
  | PFTYPE_CHECKSUM => "Checksum"
  | PFTYPE_NEXTHEADER => "NextHeader"
  end.

(** The first entry of a table accepted by [P], with its index: the loops of
    the look-up functions. *)
Fixpoint find_from {A} (P : A → bool) (i : nat) (l : list A) : option (nat * A) :=
  match l with
  | [] => None
  | x :: l => if P x then Some (i, x) else find_from P (S i) l
  end.

Definition protocol_type_valid (type : option string) : bool :=
  match type with
  | None => false
  | Some t => match find_from (λ p, String.eqb t (pr_name p)) 0 protocol_list with
              | Some _ => true
              | None => false
              end
  end.

Definition protocol_id_from_type (type : option string) : ProtocolID :=
  match type with
  | None => PROTO_ID_PAYLOAD
  | Some t => match find_from (λ p, String.eqb t (pr_name p)) 0 protocol_list with
              | Some (i, _) => nth i all_ids PROTO_ID_PAYLOAD
              | None => PROTO_ID_PAYLOAD
              end
  end.

Definition protocol_type_from_id (id : ProtocolID) : string := pr_name (protocol_from_id id).

Definition protocol_get_field_by_name (id : ProtocolID) (fieldname : string) : option ProtocolField :=
  snd <$> find_from (λ f, String.eqb fieldname (pf_name f)) 0 (header_fields (protocol_from_id id)).

Definition protocol_fieldname_valid (id : ProtocolID) (fieldname : string) : bool :=
  match protocol_get_field_by_name id fieldname with Some _ => true | None => false end.

Definition protocol_get_field_by_type (id : ProtocolID) (type : ProtocolFieldType) : option ProtocolField :=
  snd <$> find_from (λ f, bool_decide (pf_type f = type)) 0 (header_fields (protocol_from_id id)).

Definition protocol_get_field_idx_by_type (id : ProtocolID) (type : ProtocolFieldType) : Z :=
  match find_from (λ f, bool_decide (pf_type f = type)) 0 (header_fields (protocol_from_id id)) with
  | Some (i, _) => Z.of_nat i
  | None => -1
  end.

(** ** Properties *)

Lemma all_ids_complete id : all_ids !! id_index id = Some id.
Proof. by destruct id. Qed.

Lemma find_from_spec {A} (P : A → bool) l i j x :
  find_from P i l = Some (j, x) →
  (i <= j)%nat ∧ l !! (j - i)%nat = Some x ∧ P x = true ∧
  ∀ k y, (i <= k < j)%nat → l !! (k - i)%nat = Some y → P y = false.
Proof.
  revert i. induction l as [|y l IH]; simpl; intros i H; [done|].
  destruct (P y) eqn:Hy; simplify_eq.
  - rewrite Nat.sub_diag. repeat split; auto with lia.
  - apply IH in H as (Hle & Hl & HP & Hmin).
    assert (j - i = S (j - S i))%nat as -> by lia.
    repeat split; auto with lia. intros k z Hk Hz.
    destruct (decide (k = i)) as [->|]; [rewrite Nat.sub_diag in Hz; by simplify_eq/=|].
    apply (Hmin k); [lia|]. by assert (k - i = S (k - S i))%nat as E by lia; rewrite E in Hz.
Qed.

(** A field descriptor is usable when its bits lie inside the header. *)
Definition field_in_header (p : Protocol) (f : ProtocolField) : bool :=
  (0 <=? pf_bitoffset f) && (0 <? pf_bitcount f)
  && (pf_bitoffset f + pf_bitcount f <=? 8 * bytelength p).

Definition table_ok (p : Protocol) : bool :=
  forallb (field_in_header p) (header_fields p)
  && (Z.of_nat (length (default_value p)) <=? bytelength p).

Lemma protocol_list_ok : forallb table_ok protocol_list = true.
Proof. vm_compute. reflexivity. Qed.

Lemma protocol_from_id_ok id : table_ok (protocol_from_id id) = true.
Proof. by destruct id; vm_compute. Qed.

Lemma field_by_name_in_header id name f :
  protocol_get_field_by_name id name = Some f →
  pf_name f = name ∧ 0 <= pf_bitoffset f ∧ 0 < pf_bitcount f ∧
  pf_bitoffset f + pf_bitcount f <= 8 * bytelength (protocol_from_id id).
Proof.
  unfold protocol_get_field_by_name. intros H.
  destruct (find_from _ _ _) as [[j g]|] eqn:E; simplify_eq/=.
  apply find_from_spec in E as (_ & Hl & HP & _).
  apply String.eqb_eq in HP. pose proof (protocol_from_id_ok id) as Hok.
  unfold table_ok in Hok. apply andb_prop in Hok as [Hok _].
  rewrite forallb_forall in Hok. specialize (Hok f).
  rewrite <- list_elem_of_In in Hok. specialize (Hok (list_elem_of_lookup_2 _ _ _ Hl)).
  unfold field_in_header in Hok. rewrite !andb_true_iff, !Z.leb_le, Z.ltb_lt in Hok.
  repeat split; [congruence|lia..].
Qed.

Lemma protocol_name_roundtrip id :
  protocol_type_valid (Some (protocol_type_from_id id)) = true ∧
  protocol_id_from_type (Some (protocol_type_from_id id)) = id.
Proof. by destruct id. Qed.

(** The protocol identified by an Ethernet type value shares it with the
    protocols that have no identifier of their own (TTAG, OAM RTAG). *)
Definition ethertype_class (id : ProtocolID) : ProtocolID :=
  match id with PROTO_ID_TTAG | PROTO_ID_OAMRTAG => PROTO_ID_RTAG | _ => id end.

Lemma ethertype_roundtrip id v :
  ethertype_from_id id = Some v → id_from_ethertype v = Some (ethertype_class id) ∧ is_u16 v.
Proof. destruct id; simpl; intros; simplify_eq; by vm_compute. Qed.

Lemma ethertype_roundtrip_inv v id :
  id_from_ethertype v = Some id → ethertype_from_id id = Some v.
Proof.
  unfold id_from_ethertype. intros H.
  repeat match type of H with
         | (if ?a =? ?b then _ else _) = _ => destruct (Z.eqb_spec a b); [simplify_eq; done|]
         end. done.
Qed.

Lemma ipproto_roundtrip id v :
  ipproto_from_id id = Some v ↔ id_from_ipproto v = Some id.
Proof.
  split.
  - destruct id; simpl; intros; simplify_eq; by vm_compute.
  - unfold id_from_ipproto. intros H.
    repeat match type of H with
           | (if ?a =? ?b then _ else _) = _ => destruct (Z.eqb_spec a b); [simplify_eq; done|]
           end. done.
Qed.

(** the next-header codes.  A protocol with an Ethernet type is found from
    that type (the variants that share a type map to the common one), every
    Ethernet type the lookup knows is the type of the protocol found, and the IP
    protocol numbers and protocols determine each other. *)
Theorem nexthdr_roundtrip id v :
  (ethertype_from_id id = Some v → id_from_ethertype v = Some (ethertype_class id) ∧ is_u16 v) ∧
  (id_from_ethertype v = Some id → ethertype_from_id id = Some v) ∧
  (ipproto_from_id id = Some v ↔ id_from_ipproto v = Some id).
Proof. split_and!; [apply ethertype_roundtrip | apply ethertype_roundtrip_inv | apply ipproto_roundtrip]. Qed.

(** The protocol tables.  The index of a protocol in the table is its
    identifier, its name leads back to it, and a field found by name has that
    name and lies inside the header. *)
Theorem protocol_tables id name f :
  protocol_list !! id_index id = Some (protocol_from_id id) ∧
  protocol_id_from_type (Some (protocol_type_from_id id)) = id ∧
  (protocol_get_field_by_name id name = Some f →
   pf_name f = name ∧ 0 <= pf_bitoffset f ∧ 0 < pf_bitcount f ∧
   pf_bitoffset f + pf_bitcount f <= 8 * bytelength (protocol_from_id id)).
Proof.
  split_and!; [by destruct id | apply protocol_name_roundtrip | apply field_by_name_in_header].
Qed.

End Proto.
