(* ===== verification/Packet.v ===== *)
(** * Packets (packet.h, packet.c)

    A packet owns one buffer of [PACKET_BUF_LEN] octets.  Received data lie at
    [start .. start+len); headers that the pipeline adds are carved from the
    scratch space at the beginning of the buffer.  The header list is an array
    of [PACKET_MAX_HEADER_NUM] entries of which the first [header_count] are
    in use. *)

From S2P Require Import Prelude TimeUtils Protocol.
Import Time Proto.

Module Pkt.

Definition PACKET_BUF_LEN : Z := 10000.
Definition PACKET_MAX_HEADER_NUM : Z := 20.
Definition PACKET_COUNT_LIMIT : Z := 200.
Definition PACKET_START_OFFSET : Z := 1024.

Record PacketHeader := mk_header {
  h_type : ProtocolID;
  h_start : Z;   (* from beginning of buf *)
  h_len : Z
}.

#[global] Instance PacketHeader_eq_dec : EqDecision PacketHeader.
Proof. solve_decision. Defined.

(** [dummy] records that [buf] is the shared [dummybuf], which packets get when
    there are too many of them.  In the model each of these packets has a zeroed
    buffer of its own; in the code they share one, so that what one packet writes
    is seen by the others, which the model leaves out.  A received packet that is
    a dummy is discarded before it is read.  [from] names the
    receiving interface.  The log buffer is not part of the model. *)
Record Packet := mk_packet {
  buf : mem;
  dummy : bool;
  start : Z;
  len : Z;
  scratch_len : Z;
  headers : list PacketHeader;
  header_count : Z;
  from : option string;
  recv_time : timespec;
  id : Z;
  original_id : Z;
  timestamp : Z;
  sequence : Z;
  ttl : Z;
  offload : bool;
  delay : timespec
}.

#[global] Instance eta_packet : Eta Packet := λ p,
  mk_packet (buf p) (dummy p) (start p) (len p) (scratch_len p) (headers p) (header_count p)
    (from p) (recv_time p) (id p) (original_id p) (timestamp p) (sequence p) (ttl p)
    (offload p) (delay p).

(** The static variables of packet.c. *)
Record PacketPool := mk_pool { packet_count : Z; next_packet_id : Z }.

#[global] Instance eta_pool : Eta PacketPool := λ s, mk_pool (packet_count s) (next_packet_id s).

Definition no_header : PacketHeader := mk_header PROTO_ID_PAYLOAD 0 0.
Definition no_time : timespec := mk_timespec 0 0.

(** A [calloc]ed structure whose buffer holds [b]. *)
Definition blank_packet (b : mem) (is_dummy : bool) : Packet :=
  mk_packet b is_dummy 0 0 0 (replicate (Z.to_nat PACKET_MAX_HEADER_NUM) no_header) 0
    None no_time 0 0 0 0 0 false no_time.

Definition zero_buf : mem := replicate (Z.to_nat PACKET_BUF_LEN) 0.

(** [fresh] is the memory [malloc] or [calloc] hands out. *)
Definition alloc_packet (fresh : mem) (ifc : option string) (s : PacketPool) : Packet * PacketPool :=
  let '(p, s) :=
    if packet_count s >=? PACKET_COUNT_LIMIT then (blank_packet zero_buf true, s)
    else (blank_packet fresh false, s <| packet_count := u32 (packet_count s + 1) |>) in
  let pid := next_packet_id s in
  (p <| start := PACKET_START_OFFSET |> <| from := ifc |> <| id := pid |> <| original_id := pid |>,
   s <| next_packet_id := u32 (pid + 1) |>).

Definition new_packet (ifc : option string) (s : PacketPool) : Packet * PacketPool :=
  alloc_packet zero_buf ifc s.

(** [malloc] does not clear: [junk] is the previous content of the block. *)
Definition new_packet_fast (junk : mem) (ifc : option string) (s : PacketPool) : Packet * PacketPool :=
  alloc_packet junk ifc s.

Definition delete_packet (p : Packet) (s : PacketPool) : PacketPool :=
  if dummy p then s else s <| packet_count := u32 (packet_count s - 1) |>.

(** [memcpy] of [n] octets between two buffers. *)
Definition memcpy (dst : mem) (d : Z) (src : mem) (a n : Z) : option mem :=
  if (0 <=? a) && (0 <=? d) && (0 <=? n) && (a + n <=? Z.of_nat (length src))
     && (d + n <=? Z.of_nat (length dst))
  then Some (take (Z.to_nat d) dst ++ take (Z.to_nat n) (drop (Z.to_nat a) src)
             ++ drop (Z.to_nat (d + n)) dst)
  else None.

Definition copy_packet (junk : mem) (p : Packet) (s : PacketPool) : option (Packet * PacketPool) :=
  let pid := next_packet_id s in
  let s := s <| next_packet_id := u32 (pid + 1) |> in
  b ← memcpy junk 0 (buf p) 0 (u32 (start p + len p));
  Some (p <| id := pid |> <| buf := b |> <| dummy := false |>,
        s <| packet_count := u32 (packet_count s + 1) |>).

(** The entries of the header array in use. *)
Definition active (p : Packet) : list PacketHeader := take (Z.to_nat (header_count p)) (headers p).

Definition packet_length (p : Packet) : Z :=
  foldl (λ acc h, u32 (acc + h_len h)) 0 (active p).

(** The copying loop of [serialize_packet]. *)
Fixpoint serialize_headers (src dst : mem) (dstlen : Z) (hs : list PacketHeader) : option (mem * Z) :=
  match hs with
  | [] => Some (dst, dstlen)
  | h :: hs =>
      dst' ← memcpy dst (PACKET_START_OFFSET + dstlen) src (h_start h) (h_len h);
      serialize_headers src dst' (u32 (dstlen + h_len h)) hs
  end.

Definition serialize_packet (p : Packet) (s : PacketPool) : option (Packet * PacketPool) :=
  '(b, dstlen) ← serialize_headers (buf p) zero_buf 0 (active p);
  let pid := next_packet_id s in
  Some (p <| buf := b |> <| dummy := false |> <| start := PACKET_START_OFFSET |>
          <| len := dstlen |> <| scratch_len := 0 |> <| header_count := 0 |> <| id := pid |>,
        mk_pool (u32 (packet_count s + 1)) (u32 (pid + 1))).

Definition packet_dummy (p : Packet) : bool := dummy p.

(** The previous header starts at or after the new one. *)
Definition prev_not_before (p : Packet) (st : Z) : bool :=
  (header_count p >? 0) &&
  match headers p !! Z.to_nat (header_count p - 1) with
  | Some h => h_start h >=? st
  | None => false
  end.

Definition packet_identify_header (p : Packet) (type : ProtocolID) (offset hlen : Z) : bool * Packet :=
  if header_count p =? PACKET_MAX_HEADER_NUM then (false, p)
  else if prev_not_before p (u32 (start p + offset)) then (false, p)
  else if u32 (offset + hlen) >? len p then (false, p)
  else (true,
        p <| headers := <[Z.to_nat (header_count p) := mk_header type (u32 (start p + offset)) hlen]> (headers p) |>
          <| header_count := header_count p + 1 |>).

(** The start offset of the allocated space, or [-1]. *)
Definition scratch_alloc (p : Packet) (n : Z) : Z * Packet :=
  if u32 (scratch_len p + n) >=? start p then (-1, p)
  else (scratch_len p, p <| scratch_len := u32 (scratch_len p + n) |>).

(** [memmove] of [n] array entries from index [src] to index [dst]. *)
Definition arr_move {A} (a : list A) (dst src n : nat) : list A :=
  take dst a ++ take n (drop src a) ++ drop (dst + n) a.

Definition packet_add_header (p : Packet) (idx : Z) (type : ProtocolID) (hlen : Z) : bool * Packet :=
  if header_count p =? PACKET_MAX_HEADER_NUM then (false, p)
  else if idx >? header_count p then (false, p)
  else
    let '(st, p) := scratch_alloc p hlen in
    if st <? 0 then (false, p)
    else
      let i := Z.to_nat idx in
      let hs := if idx <? header_count p
                then arr_move (headers p) (i + 1) i (Z.to_nat (header_count p - idx))
                else headers p in
      (true, p <| headers := <[i := mk_header type st hlen]> hs |>
               <| header_count := header_count p + 1 |>).

Definition packet_del_header (p : Packet) (idx : Z) : Packet :=
  if idx >=? header_count p then p
  else
    let i := Z.to_nat idx in
    p <| headers := arr_move (headers p) i (i + 1) (Z.to_nat (header_count p - idx - 1)) |>
      <| header_count := header_count p - 1 |>.

Definition packet_clear_headers (p : Packet) : Packet :=
  p <| header_count := 0 |> <| scratch_len := 0 |>.

Definition packet_enlarge_scratch (p : Packet) : Packet :=
  if len p =? 0 then p <| start := PACKET_BUF_LEN |> else p.

(** The loop [for (unsigned i=1; i<p->header_count-1; i++)]; an access past
    the array is [None].  [fuel] bounds the number of entries. *)
Fixpoint linear_from (fuel : nat) (hs : list PacketHeader) (last : Z) (i : nat) : option bool :=
  if Z.of_nat i <? last then
    match fuel with
    | O => None
    | S fuel =>
        h1 ← hs !! (i + 1)%nat;
        h0 ← hs !! i;
        if h_start h1 =? u32 (h_start h0 + h_len h0) then linear_from fuel hs last (i + 1)
        else Some false
    end
  else Some true.

Definition packet_is_linear (p : Packet) : option bool :=
  linear_from (Z.to_nat PACKET_MAX_HEADER_NUM) (headers p) (u32 (header_count p - 1)) 1.

(** The severity reported by [packets_check_performance]. *)
Inductive PerfWarning := PERF_NONE | PERF_MEDIUM | PERF_HIGH.

Definition packets_check_performance (s : PacketPool) : PerfWarning :=
  if 10 * packet_count s >? 9 * PACKET_COUNT_LIMIT then PERF_HIGH
  else if 10 * packet_count s >? 5 * PACKET_COUNT_LIMIT then PERF_MEDIUM
  else PERF_NONE.

(** ** Invariant *)

(** A header lies in the allocated scratch space or in the received data; one
    without octets may lie anywhere in the buffer. *)
Definition hdr_ok (p : Packet) (h : PacketHeader) : Prop :=
  0 <= h_start h ∧ 0 <= h_len h ∧
  (h_start h + h_len h <= scratch_len p ∨
   start p <= h_start h ∧ h_start h + h_len h <= start p + len p ∨
   h_len h = 0 ∧ h_start h <= PACKET_BUF_LEN).

Record packet_wf (p : Packet) : Prop := {
  wf_buf : length (buf p) = Z.to_nat PACKET_BUF_LEN;
  wf_arr : length (headers p) = Z.to_nat PACKET_MAX_HEADER_NUM;
  wf_count : 0 <= header_count p <= PACKET_MAX_HEADER_NUM;
  wf_scratch : 0 <= scratch_len p < start p;
  wf_recv : 0 <= len p ∧ start p + len p <= PACKET_BUF_LEN;
  wf_hdrs : Forall (hdr_ok p) (active p)
}.

Ltac unfold_limits :=
  unfold PACKET_BUF_LEN, PACKET_MAX_HEADER_NUM, PACKET_START_OFFSET, PACKET_COUNT_LIMIT in *.

Lemma length_active p :
  packet_wf p → length (active p) = Z.to_nat (header_count p).
Proof. intros []. unfold active. rewrite length_take. unfold_limits. lia. Qed.

(** ** The header list as a list *)

Lemma take_insert_snoc {A} (l : list A) n x :
  (n < length l)%nat → take (S n) (<[n := x]> l) = take n l ++ [x].
Proof.
  intros H. rewrite (take_S_r _ _ x) by (by apply list_lookup_insert_eq).
  by rewrite take_insert_ge by lia.
Qed.

Lemma insert_take_S {A} (l r : list A) i x :
  (i < length l)%nat → <[i := x]> (take (i + 1) l ++ r) = take i l ++ x :: r.
Proof.
  intros Hi. destruct (lookup_lt_is_Some_2 l i Hi) as [y Hy].
  rewrite Nat.add_1_r, (take_S_r _ _ y), <- app_assoc by done. simpl.
  rewrite insert_app_r_alt by (rewrite length_take; lia).
  rewrite length_take, Nat.min_l, Nat.sub_diag by lia. done.
Qed.

Lemma arr_move_up {A} (l : list A) i c x :
  (i < c)%nat → (c < length l)%nat →
  take (S c) (<[i := x]> (arr_move l (i + 1) i (c - i))) = take i l ++ x :: drop i (take c l).
Proof.
  intros Hi Hc. unfold arr_move. rewrite insert_take_S by lia.
  rewrite take_app_ge by (rewrite length_take; lia).
  rewrite length_take, Nat.min_l by lia.
  assert (S c - i = S (c - i))%nat as -> by lia. simpl.
  rewrite take_app_le by (rewrite length_take, length_drop; lia).
  rewrite take_take, Nat.min_id, take_drop_commute. do 4 f_equal. lia.
Qed.

Lemma arr_move_down {A} (l : list A) i c :
  (i < c)%nat → (c <= length l)%nat →
  take (c - 1) (arr_move l i (i + 1) (c - i - 1)) = take i l ++ drop (i + 1) (take c l).
Proof.
  intros Hi Hc. unfold arr_move.
  rewrite take_app_ge by (rewrite length_take; lia).
  rewrite length_take, Nat.min_l by lia.
  rewrite take_app_le by (rewrite length_take, length_drop; lia).
  rewrite take_take, Nat.min_l by lia. rewrite take_drop_commute. do 3 f_equal. lia.
Qed.

Lemma length_arr_move {A} (l : list A) dst src n :
  (dst + n <= length l)%nat → (src + n <= length l)%nat →
  length (arr_move l dst src n) = length l.
Proof. intros. unfold arr_move. rewrite !length_app, !length_take, !length_drop. lia. Qed.

(** A successful identification appends one entry. *)
Lemma active_identify p type offset hlen p' :
  packet_wf p → packet_identify_header p type offset hlen = (true, p') →
  active p' = active p ++ [mk_header type (u32 (start p + offset)) hlen] ∧
  u32 (offset + hlen) <= len p ∧ header_count p < PACKET_MAX_HEADER_NUM.
Proof.
  intros Hwf. unfold packet_identify_header.
  destruct (Z.eqb_spec (header_count p) PACKET_MAX_HEADER_NUM) as [|Hc]; [done|].
  destruct (prev_not_before _ _); [done|].
  destruct (Z.gtb_spec (u32 (offset + hlen)) (len p)) as [|Hl]; [done|].
  intros [= <-]. destruct Hwf. unfold active; simpl. unfold_limits.
  assert (Z.to_nat (header_count p + 1) = S (Z.to_nat (header_count p))) as -> by lia.
  rewrite take_insert_snoc by lia. auto with lia.
Qed.

(** A successful addition inserts one entry in the scratch space at [idx]. *)
Lemma active_add p idx type hlen p' :
  packet_wf p → 0 <= idx → packet_add_header p idx type hlen = (true, p') →
  active p' = take (Z.to_nat idx) (active p)
              ++ mk_header type (scratch_len p) hlen :: drop (Z.to_nat idx) (active p) ∧
  idx <= header_count p < PACKET_MAX_HEADER_NUM ∧
  u32 (scratch_len p + hlen) < start p.
Proof.
  intros Hwf Hidx. unfold packet_add_header.
  destruct (Z.eqb_spec (header_count p) PACKET_MAX_HEADER_NUM) as [|Hc]; [done|].
  destruct (Z.gtb_spec idx (header_count p)) as [|Hi]; [done|].
  unfold scratch_alloc. destruct (Z.geb_spec (u32 (scratch_len p + hlen)) (start p)) as [|Hs]; [done|].
  destruct Hwf. simpl. destruct (Z.ltb_spec (scratch_len p) 0); [lia|].
  intros [= <-]. unfold active; simpl. unfold_limits.
  split; [|lia].
  assert (Z.to_nat (header_count p + 1) = S (Z.to_nat (header_count p))) as -> by lia.
  destruct (Z.ltb_spec idx (header_count p)).
  - assert (Z.to_nat (header_count p - idx) = Z.to_nat (header_count p) - Z.to_nat idx)%nat as -> by lia.
    rewrite arr_move_up by lia. by rewrite take_take, Nat.min_l by lia.
  - assert (idx = header_count p) as -> by lia.
    rewrite take_insert_snoc by lia. rewrite take_take, Nat.min_id, drop_ge; [done|].
    rewrite length_take. lia.
Qed.

Lemma active_del p idx :
  packet_wf p → 0 <= idx < header_count p →
  active (packet_del_header p idx) =
    take (Z.to_nat idx) (active p) ++ drop (Z.to_nat idx + 1) (active p).
Proof.
  intros [] Hidx. unfold packet_del_header, active.
  destruct (Z.geb_spec idx (header_count p)); [lia|]. simpl. unfold_limits.
  assert (Z.to_nat (header_count p - 1) = Z.to_nat (header_count p) - 1)%nat as -> by lia.
  assert (Z.to_nat (header_count p - idx - 1) = Z.to_nat (header_count p) - Z.to_nat idx - 1)%nat as -> by lia.
  rewrite arr_move_down by lia. by rewrite take_take, Nat.min_l by lia.
Qed.

(** ** Preservation *)

Lemma hdr_ok_mono p p' h :
  scratch_len p <= scratch_len p' → start p' = start p → len p' = len p →
  hdr_ok p h → hdr_ok p' h.
Proof. unfold hdr_ok. intros ? -> -> (? & ? & [?|[?|?]]); auto with lia. Qed.

Lemma identify_wf p type offset hlen :
  packet_wf p → 0 <= offset → 0 <= hlen → offset + hlen < 2 ^ 31 →
  packet_wf (packet_identify_header p type offset hlen).2.
Proof.
  intros Hwf Ho Hl Hol.
  destruct (packet_identify_header p type offset hlen) as [[] p'] eqn:E; simpl.
  2: { unfold packet_identify_header in E. repeat case_match; by simplify_eq. }
  pose proof (active_identify _ _ _ _ _ Hwf E) as (Hact & Hlen & Hc).
  unfold packet_identify_header in E. repeat case_match; simplify_eq/=.
  destruct Hwf. split; simpl; try done.
  - by rewrite length_insert.
  - unfold_limits; lia.
  - rewrite Hact. unfold u32 in *. unfold_limits. apply Forall_app. split; [done|].
    constructor; [|done]. unfold hdr_ok; simpl. lia.
Qed.

Lemma add_wf p idx type hlen :
  packet_wf p → 0 <= idx → 0 <= hlen < 2 ^ 31 →
  packet_wf (packet_add_header p idx type hlen).2.
Proof.
  intros Hwf Hi Hl.
  destruct (packet_add_header p idx type hlen) as [[] p'] eqn:E; simpl.
  2: { unfold packet_add_header, scratch_alloc in E. repeat (case_match; simplify_eq/=); try done.
       destruct Hwf; lia. }
  pose proof (active_add _ _ _ _ _ Hwf Hi E) as (Hact & Hc & Hs).
  unfold packet_add_header, scratch_alloc in E.
  repeat (case_match; simplify_eq/=); destruct Hwf; unfold u32 in *; unfold_limits;
    (split; simpl; try done; unfold_limits; try lia;
     [rewrite length_insert; try done; rewrite length_arr_move; lia
     |rewrite Hact; rewrite <- (take_drop (Z.to_nat idx) (active p)) in wf_hdrs0;
      apply Forall_app in wf_hdrs0 as [Hf1 Hf2];
      apply Forall_app; split; [|constructor];
      [eapply Forall_impl; [exact Hf1|] | |eapply Forall_impl; [exact Hf2|]];
      simpl; intros; try (eapply hdr_ok_mono; [..|done]; simpl; unfold u32; lia);
      unfold hdr_ok; simpl; lia]).
Qed.

Lemma del_wf p idx : packet_wf p → 0 <= idx → packet_wf (packet_del_header p idx).
Proof.
  intros Hwf Hi. destruct (decide (idx < header_count p)).
  - pose proof (active_del p idx Hwf ltac:(lia)) as Hact.
    destruct Hwf. unfold packet_del_header in *.
    destruct (Z.geb_spec idx (header_count p)); [lia|]. simpl in Hact.
    split; simpl; try done; unfold_limits; try lia.
    + rewrite length_arr_move; lia.
    + rewrite Hact. apply Forall_app. split.
      * by apply Forall_take.
      * by apply Forall_drop.
  - unfold packet_del_header. destruct (Z.geb_spec idx (header_count p)); [done|lia].
Qed.

Lemma clear_wf p : packet_wf p → packet_wf (packet_clear_headers p).
Proof. intros []. split; simpl; unfold_limits; try done; lia. Qed.

Lemma enlarge_wf p : packet_wf p → packet_wf (packet_enlarge_scratch p).
Proof.
  intros [B A C S R H]. unfold packet_enlarge_scratch. destruct (Z.eqb_spec (len p) 0); [|done].
  split; simpl; unfold_limits; try done; try lia. eapply Forall_impl; [exact H|].
  intros h (? & ? & [?|[?|?]]); unfold hdr_ok; simpl; unfold_limits; lia.
Qed.

Lemma alloc_wf fresh ifc s :
  length fresh = Z.to_nat PACKET_BUF_LEN → packet_wf (alloc_packet fresh ifc s).1.
Proof.
  intros Hf. unfold alloc_packet, blank_packet.
  destruct (packet_count s >=? PACKET_COUNT_LIMIT); simpl;
    (split; cbn -[zero_buf]; unfold_limits; rewrite ?length_replicate; try done; try lia;
     apply length_replicate).
Qed.

(** The receiving interface sets the length of the data it stored. *)
Lemma set_len_wf p n :
  packet_wf p → header_count p = 0 → 0 <= n → start p + n <= PACKET_BUF_LEN → packet_wf (p <| len := n |>).
Proof.
  intros [] Hc Hn Hfit. split; simpl; try done. unfold active. simpl. rewrite Hc. constructor.
Qed.

(** What interfaces do with a packet before its headers are identified: they
    store the data they received ([n] octets, as many as fit), make room for a
    VLAN tag in front of it, or skip its Ethernet header. *)
Definition stored (p : Packet) (n : Z) : Packet := p <| len := n |>.
Definition tag_room (p : Packet) : Packet := p <| start := u32 (start p - 4) |> <| len := u32 (len p + 4) |>.
Definition skip_ethernet (p : Packet) : Packet := p <| start := u32 (start p + 14) |> <| len := u32 (len p - 14) |>.

Lemma stored_wf p n : packet_wf p → header_count p = 0 → 0 <= n <= PACKET_BUF_LEN - start p → packet_wf (stored p n).
Proof. intros Hwf Hc Hn. apply set_len_wf; try done; lia. Qed.

Lemma tag_room_wf p : packet_wf p → header_count p = 0 → scratch_len p + 4 < start p → packet_wf (tag_room p).
Proof.
  intros [] Hc Hs. unfold_limits. split; simpl; unfold u32; unfold_limits; try done; try lia.
  unfold active. simpl. rewrite Hc. constructor.
Qed.

Lemma skip_ethernet_wf p : packet_wf p → header_count p = 0 → 14 <= len p → packet_wf (skip_ethernet p).
Proof.
  intros [] Hc Hs. unfold_limits. split; simpl; unfold u32; unfold_limits; try done; try lia.
  unfold active. simpl. rewrite Hc. constructor.
Qed.

(** The operations on a packet, from its reception on, with the ranges that the
    interfaces and the configuration guarantee for their arguments. *)
Inductive packet_step : Packet → Packet → Prop :=
  | step_identify p type offset hlen :
      0 <= offset → 0 <= hlen → offset + hlen < 2 ^ 31 →
      packet_step p (packet_identify_header p type offset hlen).2
  | step_add p idx type hlen :
      0 <= idx → 0 <= hlen < 2 ^ 31 →
      packet_step p (packet_add_header p idx type hlen).2
  | step_del p idx : 0 <= idx → packet_step p (packet_del_header p idx)
  | step_clear p : packet_step p (packet_clear_headers p)
  | step_enlarge p : packet_step p (packet_enlarge_scratch p)
  | step_receive p n :
      header_count p = 0 → 0 < n <= PACKET_BUF_LEN - start p → packet_step p (stored p n)
  | step_tag p : header_count p = 0 → scratch_len p + 4 < start p → packet_step p (tag_room p)
  | step_skip p : header_count p = 0 → 14 <= len p → packet_step p (skip_ethernet p)
  | step_buf p b : length b = length (buf p) → packet_step p (p <| buf := b |>).

Lemma packet_step_wf p p' : packet_step p p' → packet_wf p → packet_wf p'.
Proof.
  destruct 1; intros Hwf; auto using identify_wf, add_wf, del_wf, clear_wf, enlarge_wf, tag_room_wf, skip_ethernet_wf.
  { apply stored_wf; try done; lia. }
  destruct Hwf. split; simpl; auto. congruence.
Qed.

(** ** Serialisation *)

Definition slice (m : mem) (a n : Z) : mem := take (Z.to_nat n) (drop (Z.to_nat a) m).

(** The octets of the header list, in list order. *)
Definition wire_bytes (p : Packet) : mem :=
  concat ((λ h, slice (buf p) (h_start h) (h_len h)) <$> active p).

Definition total_len (hs : list PacketHeader) : Z := foldr (λ h acc, h_len h + acc) 0 hs.

(** A header that can be read from a buffer of [n] octets. *)
Definition readable (n : Z) (h : PacketHeader) : Prop :=
  0 <= h_start h ∧ 0 <= h_len h ∧ h_start h + h_len h <= n.

Lemma hdr_ok_readable p h : packet_wf p → hdr_ok p h → readable PACKET_BUF_LEN h.
Proof. intros [] (? & ? & [?|[?|?]]); unfold readable; unfold_limits; lia. Qed.

Lemma wf_readable p : packet_wf p → Forall (readable PACKET_BUF_LEN) (active p).
Proof.
  intros Hwf. pose proof (wf_hdrs p Hwf) as Hh.
  eapply Forall_impl; [exact Hh|]. intros h. by apply hdr_ok_readable.
Qed.

Lemma total_len_nonneg n hs : Forall (readable n) hs → 0 <= total_len hs.
Proof. induction 1 as [|h hs [? ?] _ IH]; simpl; lia. Qed.

Lemma length_slice m a n :
  0 <= a → 0 <= n → a + n <= Z.of_nat (length m) → length (slice m a n) = Z.to_nat n.
Proof. intros. unfold slice. rewrite length_take, length_drop. lia. Qed.

Lemma memcpy_Some dst d src a n :
  0 <= a → 0 <= d → 0 <= n → a + n <= Z.of_nat (length src) → d + n <= Z.of_nat (length dst) →
  memcpy dst d src a n =
    Some (take (Z.to_nat d) dst ++ slice src a n ++ drop (Z.to_nat (d + n)) dst).
Proof.
  intros. unfold memcpy.
  destruct (Z.leb_spec 0 a), (Z.leb_spec 0 d), (Z.leb_spec 0 n),
    (Z.leb_spec (a + n) (Z.of_nat (length src))), (Z.leb_spec (d + n) (Z.of_nat (length dst))); try lia.
  done.
Qed.

Lemma memcpy_overflow dst d src a n :
  Z.of_nat (length dst) < d + n → memcpy dst d src a n = None.
Proof.
  intros. unfold memcpy. destruct (Z.leb_spec (d + n) (Z.of_nat (length dst))); [lia|].
  by rewrite !andb_false_r.
Qed.

Lemma serialize_headers_overflow src n hs dst dl :
  Forall (readable n) hs → 0 <= dl → n <= PACKET_BUF_LEN → Z.of_nat (length src) = n →
  length dst = Z.to_nat PACKET_BUF_LEN → PACKET_START_OFFSET + dl <= PACKET_BUF_LEN →
  PACKET_BUF_LEN < PACKET_START_OFFSET + dl + total_len hs →
  serialize_headers src dst dl hs = None.
Proof.
  intros Hr. revert dst dl.
  induction Hr as [|h hs (? & ? & ?) Hr IH]; simpl; intros dst dl Hdl Hn Hsrc Hdst Hlo Hov; [lia|].
  destruct (decide (PACKET_BUF_LEN < PACKET_START_OFFSET + dl + h_len h)).
  - rewrite memcpy_overflow; [done|]. unfold_limits. lia.
  - rewrite memcpy_Some by (unfold_limits; lia). simpl.
    rewrite u32_small by (unfold is_u32; unfold_limits; lia).
    apply IH; unfold_limits; try lia.
    rewrite !length_app, length_slice, length_take, length_drop by lia. lia.
Qed.

Lemma serialize_headers_spec src n hs dst dl :
  Forall (readable n) hs → 0 <= dl → Z.of_nat (length src) = n →
  length dst = Z.to_nat PACKET_BUF_LEN →
  PACKET_START_OFFSET + dl + total_len hs <= PACKET_BUF_LEN →
  serialize_headers src dst dl hs =
    Some (take (Z.to_nat (PACKET_START_OFFSET + dl)) dst
          ++ concat ((λ h, slice src (h_start h) (h_len h)) <$> hs)
          ++ drop (Z.to_nat (PACKET_START_OFFSET + dl + total_len hs)) dst, dl + total_len hs).
Proof.
  intros Hr. revert dst dl.
  induction Hr as [|h hs (? & ? & ?) Hr IH]; intros dst dl Hdl Hsrc Hdst Hfit; simpl.
  { rewrite !Z.add_0_r, take_drop. done. }
  simpl in Hfit. pose proof (total_len_nonneg _ _ Hr).
  rewrite memcpy_Some by (unfold_limits; lia). simpl.
  rewrite u32_small by (unfold is_u32; unfold_limits; lia).
  rewrite IH; [|unfold_limits; try lia..].
  2: { rewrite !length_app, length_slice, length_take, length_drop by lia. lia. }
  f_equal. f_equal; [|lia]. unfold_limits.
  assert (length (take (Z.to_nat (1024 + dl)) dst) = Z.to_nat (1024 + dl)) as Hl1
    by (rewrite length_take; lia).
  assert (length (slice src (h_start h) (h_len h)) = Z.to_nat (h_len h)) as Hl2
    by (apply length_slice; lia).
  rewrite <- !app_assoc. rewrite (app_assoc (take _ dst)).
  rewrite take_app_length' by (rewrite length_app; lia).
  rewrite drop_app_ge by (rewrite length_app; lia).
  rewrite length_app, Hl1, Hl2, drop_drop, <- !app_assoc.
  do 4 f_equal. lia.
Qed.

Lemma foldl_len_sum hs acc n :
  Forall (readable n) hs → 0 <= acc → acc + total_len hs < 4294967296 →
  foldl (λ acc h, u32 (acc + h_len h)) acc hs = acc + total_len hs.
Proof.
  intros Hr. revert acc. induction Hr as [|h hs (? & ? & ?) Hr IH]; simpl; intros acc Ha Hs; [lia|].
  pose proof (total_len_nonneg _ _ Hr).
  rewrite u32_small by (unfold is_u32; lia). rewrite IH; lia.
Qed.

Lemma total_len_bound n hs :
  0 <= n → Forall (readable n) hs → total_len hs <= n * Z.of_nat (length hs).
Proof.
  intros Hn. induction 1 as [|h hs (? & ? & ?) _ IH]; [simpl; lia|].
  change (total_len (h :: hs)) with (h_len h + total_len hs).
  rewrite length_cons, Nat2Z.inj_succ, Z.mul_succ_r. lia.
Qed.

(** [packet_length] is the exact sum of the header lengths. *)
Lemma packet_length_total p : packet_wf p → packet_length p = total_len (active p).
Proof.
  intros Hwf. pose proof (wf_readable p Hwf) as Hr.
  pose proof (total_len_bound PACKET_BUF_LEN _ ltac:(done) Hr) as Hb.
  rewrite length_active in Hb by done. pose proof (wf_count p Hwf).
  unfold packet_length. unfold_limits. rewrite (foldl_len_sum _ _ _ Hr); lia.
Qed.

Lemma concat_slices_length m hs :
  Forall (readable (Z.of_nat (length m))) hs →
  Z.of_nat (length (concat ((λ h, slice m (h_start h) (h_len h)) <$> hs))) = total_len hs.
Proof.
  induction 1 as [|h hs (? & ? & ?) _ IH]; [done|].
  rewrite fmap_cons. simpl. rewrite length_app, length_slice by lia.
  rewrite Nat2Z.inj_add, IH. unfold total_len. lia.
Qed.

Lemma wire_bytes_length p : packet_wf p → Z.of_nat (length (wire_bytes p)) = total_len (active p).
Proof.
  intros Hwf. apply concat_slices_length. rewrite (wf_buf p Hwf). by apply wf_readable.
Qed.

(** Serialisation of a packet that fits writes the octets of its header list,
    in order, to the receive space of a fresh packet. *)
Lemma serialize_packet_fits p s :
  packet_wf p → total_len (active p) <= PACKET_BUF_LEN - PACKET_START_OFFSET →
  ∃ p' s', serialize_packet p s = Some (p', s') ∧
    slice (buf p') (start p') (len p') = wire_bytes p ∧
    len p' = packet_length p ∧ start p' = PACKET_START_OFFSET ∧ header_count p' = 0 ∧
    packet_wf p' ∧ id p' = next_packet_id s ∧ original_id p' = original_id p ∧
    packet_count s' = u32 (packet_count s + 1).
Proof.
  intros Hwf Hfit. pose proof (wf_readable p Hwf) as Hr.
  pose proof (total_len_nonneg _ _ Hr) as Hnn.
  pose proof (wire_bytes_length p Hwf) as Hwl.
  unfold serialize_packet.
  erewrite serialize_headers_spec; [|exact Hr|..]; try (unfold_limits; lia).
  2: { rewrite (wf_buf p Hwf). unfold_limits. lia. }
  2: { apply length_replicate. }
  rewrite packet_length_total by done. fold (wire_bytes p). cbn [mbind option_bind].
  rewrite Z.add_0_r, Z.add_0_l.
  set (pre := take _ zero_buf). set (post := drop _ zero_buf).
  assert (length pre = Z.to_nat PACKET_START_OFFSET) as Hpre.
  { subst pre. rewrite length_take. unfold zero_buf. rewrite length_replicate. unfold_limits. lia. }
  assert (length post = Z.to_nat (PACKET_BUF_LEN - PACKET_START_OFFSET - total_len (active p))) as Hpost.
  { subst post. rewrite length_drop. unfold zero_buf. rewrite length_replicate. unfold_limits. lia. }
  clearbody pre post.
  eexists _, _. split; [reflexivity|]. cbn -[Z.to_nat]. split.
  { unfold slice. rewrite drop_app_length' by done.
    apply take_app_length'. lia. }
  split; [done|]. split; [done|]. split; [done|]. split; [|done].
  destruct Hwf. split; simpl; try done; unfold_limits; try lia.
  rewrite !length_app, Hpre, Hpost. lia.
Qed.

(** A packet too long for the receive space makes the copying loop write past
    the end of the new buffer. *)
Lemma serialize_packet_overflow p s :
  packet_wf p → PACKET_BUF_LEN - PACKET_START_OFFSET < total_len (active p) →
  serialize_packet p s = None.
Proof.
  intros Hwf Hov. unfold serialize_packet.
  erewrite serialize_headers_overflow; [done|by apply wf_readable|..];
    try (rewrite ?(wf_buf p Hwf); unfold_limits; lia).
  apply length_replicate.
Qed.

(** ** Properties *)

Definition edited : Packet → Packet → Prop := rtc packet_step.

Lemma edited_wf p p' : edited p p' → packet_wf p → packet_wf p'.
Proof. induction 1; eauto using packet_step_wf. Qed.

(** C10: the header list invariant.  From an allocated packet on, any sequence
    of reception of data, restoring of VLAN tags, skipping of the Ethernet
    header, enlarging of the scratch space, identification, addition, deletion
    and clearing of headers and writes to the buffer keeps the header list
    within its array and every header in use inside the allocated scratch space
    or the received data (a header without octets inside the buffer), so that
    it can be read.  The length of an OAM message that is packed again is not
    among the operations. *)
Theorem packet_invariant fresh ifc s p :
  length fresh = Z.to_nat PACKET_BUF_LEN →
  edited (alloc_packet fresh ifc s).1 p → packet_wf p ∧ Forall (readable PACKET_BUF_LEN) (active p).
Proof.
  intros Hf He. assert (packet_wf p) as Hwf by (eapply edited_wf; [exact He | by apply alloc_wf]).
  split; [done | by apply wf_readable].
Qed.

(** A frame of 64 octets is received, gets a tag, and its Ethernet header is
    identified and another header added. *)
Definition received_frame : Packet :=
  let p := tag_room (stored (new_packet None (mk_pool 0 0)).1 64) in
  (packet_add_header (packet_identify_header p PROTO_ID_ETH 0 14).2 1 PROTO_ID_RTAG 6).2.

Lemma packet_invariant_witness :
  active received_frame = [mk_header PROTO_ID_ETH 1020 14; mk_header PROTO_ID_RTAG 0 6] ∧
  len received_frame = 68 ∧ packet_wf received_frame ∧ Forall (readable PACKET_BUF_LEN) (active received_frame).
Proof.
  split; [reflexivity|]. split; [reflexivity|].
  apply (packet_invariant zero_buf None (mk_pool 0 0)).
  - unfold zero_buf. by rewrite length_replicate.
  - eapply rtc_l; [apply (step_receive _ 64); [reflexivity | cbn; unfold_limits; lia]|].
    eapply rtc_l; [apply step_tag; [reflexivity | cbn; unfold_limits; lia]|].
    eapply rtc_l; [apply (step_identify _ PROTO_ID_ETH 0 14); lia|].
    apply rtc_once. apply (step_add _ 1 PROTO_ID_RTAG 6); lia.
Defined.

(** Editing is list editing.  A successful [packet_add_header] inserts one
    header of the requested type and length at the requested index, and
    [packet_del_header] removes the one at its index; all other headers keep
    their order, type, place and length.  Deleting what was added gives back
    the header list. *)
Theorem add_del_header p idx type hlen p' :
  packet_wf p → 0 <= idx → 0 <= hlen < 2 ^ 31 →
  packet_add_header p idx type hlen = (true, p') →
  active p' = take (Z.to_nat idx) (active p)
              ++ mk_header type (scratch_len p) hlen :: drop (Z.to_nat idx) (active p) ∧
  active (packet_del_header p' idx) = active p.
Proof.
  intros Hwf Hi Hl E. pose proof (active_add _ _ _ _ _ Hwf Hi E) as (Ha & Hc & _).
  pose proof (add_wf p idx type hlen Hwf Hi Hl) as W. rewrite E in W. cbn [snd] in W.
  pose proof (length_active p Hwf) as L. pose proof (length_active p' W) as L'.
  rewrite Ha, length_app, length_take in L'. cbn [length] in L'. rewrite length_drop in L'.
  split; [done|]. pose proof (wf_count p' W). rewrite active_del by (done || lia). rewrite Ha.
  rewrite take_app_length' by (rewrite length_take; lia).
  rewrite drop_app_ge by (rewrite length_take; lia).
  rewrite length_take, Nat.min_l by lia.
  replace (Z.to_nat idx + 1 - Z.to_nat idx)%nat with 1%nat by lia. cbn [drop]. rewrite drop_0. apply take_drop.
Qed.

Lemma add_del_header_witness :
  active (packet_del_header (packet_add_header (new_packet None (mk_pool 0 0)).1 0 PROTO_ID_RTAG 6).2 0) = [].
Proof.
  apply (add_del_header (new_packet None (mk_pool 0 0)).1 0 PROTO_ID_RTAG 6).
  - apply alloc_wf. unfold zero_buf. by rewrite length_replicate.
  - lia.
  - lia.
  - vm_compute. reflexivity.
Defined.

(** serialisation.  A well-formed packet whose headers fit the receive
    space is copied, header by header in list order, to the receive space of a
    new packet of exactly that length. *)
Theorem serialize_packet_spec p s :
  packet_wf p → packet_length p <= PACKET_BUF_LEN - PACKET_START_OFFSET →
  ∃ p' s', serialize_packet p s = Some (p', s') ∧
    slice (buf p') (start p') (len p') = wire_bytes p ∧ len p' = packet_length p ∧
    header_count p' = 0 ∧ packet_wf p' ∧ packet_count s' = u32 (packet_count s + 1).
Proof.
  intros Hwf Hfit. rewrite packet_length_total in Hfit by done.
  destruct (serialize_packet_fits p s Hwf Hfit) as (p' & s' & ?). exists p', s'. tauto.
Qed.

Lemma serialize_packet_spec_witness :
  ∃ p' s', serialize_packet (new_packet None (mk_pool 0 0)).1 (mk_pool 1 1) = Some (p', s') ∧
    slice (buf p') (start p') (len p') = wire_bytes (new_packet None (mk_pool 0 0)).1 ∧
    len p' = packet_length (new_packet None (mk_pool 0 0)).1 ∧
    header_count p' = 0 ∧ packet_wf p' ∧ packet_count s' = u32 (1 + 1).
Proof.
  apply (serialize_packet_spec (new_packet None (mk_pool 0 0)).1 (mk_pool 1 1)).
  - apply alloc_wf. unfold zero_buf. by rewrite length_replicate.
  - vm_compute. discriminate.
Defined.

(** Finding: serialisation does not check the length.  A well-formed packet longer
    than the receive space makes the copying loop write past the end of the new
    buffer. *)
Theorem serialize_packet_unchecked p s :
  packet_wf p → PACKET_BUF_LEN - PACKET_START_OFFSET < packet_length p → serialize_packet p s = None.
Proof.
  intros Hwf Hov. rewrite packet_length_total in Hov by done. by apply serialize_packet_overflow.
Qed.

(** A received packet of 8970 octets with a 10 octet header in front. *)
Definition long_packet : Packet :=
  (packet_add_header
    (packet_identify_header ((new_packet None (mk_pool 0 0)).1 <| len := 8970 |>)
       PROTO_ID_PAYLOAD 0 8970).2 0 PROTO_ID_PAYLOAD 10).2.

Lemma serialize_packet_unchecked_witness : serialize_packet long_packet (mk_pool 1 1) = None.
Proof.
  apply serialize_packet_unchecked.
  - apply (edited_wf ((new_packet None (mk_pool 0 0)).1 <| len := 8970 |>)).
    + eapply rtc_l; [apply (step_identify _ PROTO_ID_PAYLOAD 0 8970); lia|].
      apply rtc_once. apply (step_add _ 0 PROTO_ID_PAYLOAD 10); lia.
    + apply set_len_wf; [apply alloc_wf; apply length_replicate | done | lia | vm_compute; discriminate].
  - vm_compute. reflexivity.
Defined.

End Pkt.
