(* ===== verification/SeqGen.v ===== *)
(** * Sequence generation (seq_gen.h, seq_gen.c)

    The FRER sequence generator with the reset flag and the initial sequence
    space of the seamless-reset proposal, and a closed form of the stream of
    sequence numbers it produces after a reset. *)

From S2P Require Import Prelude Packet.

Module Gen.

Definition FRER_RCVY_SEQ_SPACE : Z := 65536.
Definition FRER_TTAG_FLAG : Z := Z.shiftl 1 (32 - 5).
Definition FRER_RESET_FLAG : Z := Z.shiftl 1 (32 - 6).
Definition FRER_INIT_FLAG : Z := Z.shiftl 1 (32 - 7).
Definition FRER_SEQ_GEN_RESET_FLAG_COUNT : Z := 3.

Record SequenceGenerator := mk_gen {
  name : string;
  use_reset_flag : bool;
  use_init_flag : bool;
  init_seq_start : Z;
  gen_seq_num : Z;
  init_gen_seq_num : Z;
  reset_flag : bool;
  use_init_seq_space : bool;
  resets : Z
}.

#[global] Instance eta_gen : Eta SequenceGenerator := λ g,
  mk_gen (name g) (use_reset_flag g) (use_init_flag g) (init_seq_start g) (gen_seq_num g)
    (init_gen_seq_num g) (reset_flag g) (use_init_seq_space g) (resets g).

Definition new_seq_gen (nm : string) (use_reset use_init : bool) (init_seq : Z) : SequenceGenerator :=
  mk_gen nm use_reset use_init init_seq 0 init_seq use_reset use_init 0.

Definition sequence_generation_reset (g : SequenceGenerator) : SequenceGenerator :=
  g <| reset_flag := use_reset_flag g |>
    <| use_init_seq_space := use_init_flag g |>
    <| gen_seq_num := 0 |>
    <| init_gen_seq_num := init_seq_start g |>
    <| resets := u32 (resets g + 1) |>.

(** The flag bits are or-ed in after the state update. *)
Definition add_flags (seq : Z) (g : SequenceGenerator) : Z :=
  Z.lor (Z.lor seq (FRER_RESET_FLAG * b2z (reset_flag g)))
        (FRER_INIT_FLAG * b2z (use_init_seq_space g)).

Definition sequence_generation (g : SequenceGenerator) : Z * SequenceGenerator :=
  if use_init_seq_space g then
    let seq := Z.land (init_gen_seq_num g) 65535 in
    let g' :=
      if init_gen_seq_num g >? FRER_RCVY_SEQ_SPACE - 1 then
        g <| gen_seq_num := 1 |> <| use_init_seq_space := false |>
          <| init_gen_seq_num := init_seq_start g |>
      else
        let g := g <| init_gen_seq_num := u32 (init_gen_seq_num g + 1) |> in
        if init_gen_seq_num g >? u32 (init_seq_start g + FRER_SEQ_GEN_RESET_FLAG_COUNT)
        then g <| reset_flag := false |> else g in
    (add_flags seq g', g')
  else
    let seq := Z.land (gen_seq_num g) 65535 in
    let g' :=
      if gen_seq_num g >=? FRER_RCVY_SEQ_SPACE - 1 then g <| gen_seq_num := 0 |>
      else
        let g := g <| gen_seq_num := u32 (gen_seq_num g + 1) |> in
        if gen_seq_num g >? FRER_SEQ_GEN_RESET_FLAG_COUNT
        then g <| reset_flag := false |> else g in
    (add_flags seq g', g').

(** The pipeline action: the new number goes to the packet metadata. *)
Definition seq_generator (g : SequenceGenerator) (p : Pkt.Packet) : Pkt.Packet * SequenceGenerator :=
  let '(new_seq, g) := sequence_generation g in
  (p <| Pkt.sequence := htonl new_seq |>, g).

(** ** The stream of sequence numbers *)

(** The state after [n] packets and the word given to packet [n]. *)
Fixpoint gen_after (n : nat) (g : SequenceGenerator) : SequenceGenerator :=
  match n with
  | O => g
  | S n => (sequence_generation (gen_after n g)).2
  end.

Definition gen_nth (n : nat) (g : SequenceGenerator) : Z := (sequence_generation (gen_after n g)).1.

(** The number of packets that are numbered in the initial sequence space. *)
Definition init_packets (g : SequenceGenerator) : Z :=
  if use_init_flag g then FRER_RCVY_SEQ_SPACE - init_seq_start g else 0.

(** The specification of packet [n] after a reset: its number, whether it
    carries the INIT flag, and whether it carries the RESET flag. *)
Definition spec_number (g : SequenceGenerator) (n : Z) : Z :=
  if n <? init_packets g then init_seq_start g + n
  else (n - init_packets g) mod FRER_RCVY_SEQ_SPACE.
Definition spec_init (g : SequenceGenerator) (n : Z) : bool := n <? init_packets g.
Definition spec_reset (g : SequenceGenerator) (n : Z) : bool :=
  use_reset_flag g && (n <? FRER_SEQ_GEN_RESET_FLAG_COUNT).

Definition seq_word (number : Z) (init reset : bool) : Z :=
  number + FRER_RESET_FLAG * b2z reset + FRER_INIT_FLAG * b2z init.

(** The parameters for which the reset flag lasts exactly three packets: the
    initial sequence space is unused or holds more than three numbers. *)
Definition gen_params_ok (g : SequenceGenerator) : Prop :=
  use_init_flag g = true → 0 <= init_seq_start g <= 65532.

(** The state the generator has after [n] packets from a reset. *)
Definition spec_state (g : SequenceGenerator) (n : Z) : SequenceGenerator :=
  let k := init_packets g in
  mk_gen (name g) (use_reset_flag g) (use_init_flag g) (init_seq_start g)
    (if n <=? k then 0 else (n - k) mod FRER_RCVY_SEQ_SPACE)
    (if use_init_flag g && (n <=? k) then init_seq_start g + n else init_seq_start g)
    (use_reset_flag g && (n <=? FRER_SEQ_GEN_RESET_FLAG_COUNT))
    (use_init_flag g && (n <=? k))
    (u32 (resets g + 1)).

Lemma add_flags_word seq g :
  is_u16 seq → add_flags seq g = seq_word seq (use_init_seq_space g) (reset_flag g).
Proof.
  unfold is_u16. intros Hs. unfold add_flags, seq_word, FRER_RESET_FLAG, FRER_INIT_FLAG.
  change (Z.shiftl 1 (32 - 6)) with (2 * 2 ^ 25). change (Z.shiftl 1 (32 - 7)) with (1 * 2 ^ 25).
  rewrite <- Z.lor_assoc.
  assert (Z.lor (2 * 2 ^ 25 * b2z (reset_flag g)) (1 * 2 ^ 25 * b2z (use_init_seq_space g))
          = (2 * b2z (reset_flag g) + b2z (use_init_seq_space g)) * 2 ^ 25) as ->
    by (by destruct (reset_flag g), (use_init_seq_space g)).
  rewrite lor_disjoint by lia. lia.
Qed.

Lemma reset_is_spec_state g :
  gen_params_ok g → sequence_generation_reset g = spec_state g 0.
Proof.
  intros Hok. unfold spec_state, sequence_generation_reset, init_packets, gen_params_ok, FRER_RCVY_SEQ_SPACE in *.
  destruct g as [nm ur ui st gn ign rf us rs]; simpl in *.
  destruct ui, ur; simpl; try (specialize (Hok eq_refl); destruct (Z.leb_spec 0 (65536 - st)); [|lia]);
    simpl; f_equal; lia.
Qed.

(** One packet: the word produced and the next state. *)
Lemma spec_step g n :
  gen_params_ok g → 0 <= n →
  sequence_generation (spec_state g n) =
    (seq_word (spec_number g n) (spec_init g n) (spec_reset g n), spec_state g (n + 1)).
Proof.
  intros Hok Hn.
  unfold sequence_generation, gen_params_ok in *. cbv zeta.
  rewrite !add_flags_word by (rewrite land_ffff; unfold is_u16; lia). rewrite !land_ffff.
  unfold spec_number, spec_init, spec_reset, spec_state, init_packets, u32,
    FRER_RCVY_SEQ_SPACE, FRER_SEQ_GEN_RESET_FLAG_COUNT in *.
  destruct g as [nm ur ui st gn ign rf us rs]; simpl in *.
  destruct ui; simpl; [specialize (Hok eq_refl)|clear Hok].
  - zcases; simpl; zcases; simpl; rewrite ?andb_true_r, ?andb_false_r; repeat (f_equal; try lia).
  - zcases; simpl; zcases; simpl; rewrite ?andb_true_r, ?andb_false_r; repeat (f_equal; try lia).
Qed.

Lemma gen_after_reset g n :
  gen_params_ok g → gen_after n (sequence_generation_reset g) = spec_state g (Z.of_nat n).
Proof.
  intros Hok. induction n as [|n IH]; simpl; [by rewrite reset_is_spec_state|].
  rewrite IH, spec_step by auto with lia. simpl. f_equal. lia.
Qed.

(** The number of resets is only counted. *)
Lemma gen_step_resets g r :
  sequence_generation (g <| resets := r |>) =
    ((sequence_generation g).1, (sequence_generation g).2 <| resets := r |>).
Proof. unfold sequence_generation. destruct g; simpl. repeat case_match; done. Qed.

Lemma gen_after_resets g r n :
  gen_after n (g <| resets := r |>) = (gen_after n g) <| resets := r |>.
Proof. induction n as [|n IH]; [done|]. cbn [gen_after]. rewrite IH, gen_step_resets. done. Qed.

Lemma gen_nth_resets g r n : gen_nth n (g <| resets := r |>) = gen_nth n g.
Proof. unfold gen_nth. by rewrite gen_after_resets, gen_step_resets. Qed.

(** C8: the stream of sequence words after a reset (and from a new
    generator).  Packet [n] gets number [init_seq_start + n] with the INIT flag
    while the initial space lasts, then the numbers 0, 1, 2, ... modulo 2^16
    without it; the RESET flag is on exactly the first three packets. *)
Theorem gen_stream g n :
  gen_params_ok g →
  gen_nth n (sequence_generation_reset g) =
    seq_word (spec_number g (Z.of_nat n)) (spec_init g (Z.of_nat n)) (spec_reset g (Z.of_nat n)) ∧
  gen_nth n (new_seq_gen (name g) (use_reset_flag g) (use_init_flag g) (init_seq_start g)) =
    gen_nth n (sequence_generation_reset g).
Proof.
  intros Hok. split.
  - unfold gen_nth. by rewrite gen_after_reset, spec_step by auto with lia.
  - rewrite <- (gen_nth_resets _ (u32 (resets g + 1))). done.
Qed.

Lemma gen_stream_witness :
  gen_nth 2 (new_seq_gen "g" true true 32768) = 32770 + 67108864 + 33554432.
Proof.
  destruct (gen_stream (new_seq_gen "g" true true 32768) 2) as [E1 E2];
    [intros _; split; discriminate |].
  etransitivity; [exact E2|]. rewrite E1. reflexivity.
Defined.

End Gen.
