(* ===== verification/SeqRecov.v ===== *)
(** * Sequence recovery (seq_recov.h, seq_recov.c)

    The FRER elimination function: match, vector and seamless-vector recovery,
    the timer that resets it, the latent error diagnostics, the masking of
    recovery paths and the recovery instances of OAM sessions.

    [struct SequenceRecovery] is split into the parts its functions work on:
    the configuration, the two windows that [recover] selects by pointer
    ([recv_seq]/[take_any]/[history] and their [init_] twins), the packet
    counters and the diagnostic counters.  Locks and log output are left out:
    packets are processed under the object's mutex, one function call at a time.
    The timer thread resets the windows without the mutex; the file SeqRecovRace
    interleaves its single writes with those of the packets. *)

From S2P Require Import Prelude SeqGen Packet.
Import Gen(FRER_RCVY_SEQ_SPACE, FRER_RESET_FLAG, FRER_INIT_FLAG).

Module Rcvy.

Definition FRER_TICKS_PER_SEC : Z := 1000.
Definition OAM_RCVY_RESET_MS : Z := 5000.

Inductive SequenceRecoveryAlgorithm := RCVY_Match | RCVY_Vector | RCVY_SeamlessVector.

Record RecoveryDiagnosticConf := mk_diag {
  admin_latent_error_paths : Z;
  latent_error_period : Z;
  latent_reset_period : Z;
  latent_error_difference : Z;
  outage_threshold : Z
}.

Record Conf := mk_conf {
  algorithm : SequenceRecoveryAlgorithm;
  diag : RecoveryDiagnosticConf;
  use_reset_flag : bool;
  use_init_flag : bool;
  individual_recovery : bool;
  history_length : Z;
  reset_msec : Z
}.

(** [recv_seq]/[init_recv_seq], [take_any]/[init_take_any], [history]/[init_history]. *)
Record Window := mk_win { recv_seq : Z; take_any : bool; history : mem }.

Record Counters := mk_cnt {
  lost_packets : Z;
  out_of_order_packets : Z;
  passed_packets : Z;
  rogue_packets : Z;
  discarded_packets : Z;
  consecutive_loss : Z;
  consecutive_loss_max : Z;
  skip_loss_after_reset_guard : Z
}.

Record Latent := mk_lat {
  cur_base_difference : Z;
  passed_packets_last : Z;
  rogue_packets_last : Z;
  discarded_packets_last : Z;
  latent_error_paths : Z;
  latent_errors : Z;
  latent_reset_counter : Z;
  latent_error_counter : Z;
  latent_error_resets : Z
}.

Record SequenceRecovery := mk_rec {
  name : string;
  conf : Conf;
  win : Window;
  init_win : Window;
  cnt : Counters;
  lat : Latent;
  remaining_ticks : Z;
  seq_recovery_resets : Z;
  oam_session_id : option string;
  preAutoMIP : option (gmap string bool);   (* name -> masked *)
  postAutoMIP : option string
}.

#[global] Instance eta_win : Eta Window := λ w, mk_win (recv_seq w) (take_any w) (history w).
#[global] Instance eta_cnt : Eta Counters := λ c,
  mk_cnt (lost_packets c) (out_of_order_packets c) (passed_packets c) (rogue_packets c)
    (discarded_packets c) (consecutive_loss c) (consecutive_loss_max c)
    (skip_loss_after_reset_guard c).
#[global] Instance eta_lat : Eta Latent := λ l,
  mk_lat (cur_base_difference l) (passed_packets_last l) (rogue_packets_last l)
    (discarded_packets_last l) (latent_error_paths l) (latent_errors l)
    (latent_reset_counter l) (latent_error_counter l) (latent_error_resets l).
#[global] Instance eta_rec : Eta SequenceRecovery := λ r,
  mk_rec (name r) (conf r) (win r) (init_win r) (cnt r) (lat r) (remaining_ticks r)
    (seq_recovery_resets r) (oam_session_id r) (preAutoMIP r) (postAutoMIP r).

(** ** Construction *)

Definition no_counters : Counters := mk_cnt 0 0 0 0 0 0 0 0.

(** [calloc] of the object and its two history arrays; the timer thread that
    the constructor launches starts with [reset_ticks]. *)
Definition new_seq_rec (nm : string) (algo : SequenceRecoveryAlgorithm)
    (use_reset use_init : bool) (hist_length reset_ms : Z) (d : RecoveryDiagnosticConf)
    : SequenceRecovery :=
  let hl := i32 hist_length in
  let hist := replicate (Z.to_nat hist_length) 0 in
  mk_rec nm (mk_conf algo d use_reset use_init false hl reset_ms)
    (mk_win 0 true hist) (mk_win 0 true hist) no_counters
    (mk_lat 0 0 0 0 (admin_latent_error_paths d) 0 0 0 0) 0 0 None None None.

Definition reset_ticks (r : SequenceRecovery) : SequenceRecovery :=
  r <| remaining_ticks :=
         i32 (u32 (u32 (reset_msec (conf r) * FRER_TICKS_PER_SEC) + 999) / 1000) |>.

(** ** The recovery window *)

(** [for (int i = history_length - 1; i != 0; --i) history[i] = history[i-1];] *)
Fixpoint shift_loop (i : nat) (h : mem) : option mem :=
  match i with
  | O => Some h
  | S j => v ← load h (Z.of_nat j); h' ← store h (Z.of_nat i) v; shift_loop j h'
  end.

Definition shift_seq_history (hl : Z) (c : Counters) (h : mem) (new_zero : Z)
    : option (Counters * mem) :=
  oldest ← load h (hl - 1);
  let c :=
    if oldest =? 0 then
      if skip_loss_after_reset_guard c =? 0 then
        let c := c <| lost_packets := i32 (lost_packets c + 1) |>
                   <| consecutive_loss := i32 (consecutive_loss c + 1) |> in
        if consecutive_loss c >? consecutive_loss_max c
        then c <| consecutive_loss_max := consecutive_loss c |> else c
      else c <| skip_loss_after_reset_guard := i32 (skip_loss_after_reset_guard c - 1) |>
    else c <| consecutive_loss := 0 |> in
  h ← shift_loop (Z.to_nat (hl - 1)) h;
  h ← store h 0 new_zero;
  Some (c, h).

Definition calc_delta (seq1 seq2 : Z) : Z :=
  let delta := Z.land (seq1 - seq2) (FRER_RCVY_SEQ_SPACE - 1) in
  if negb (Z.land delta (FRER_RCVY_SEQ_SPACE / 2) =? 0) then delta - FRER_RCVY_SEQ_SPACE else delta.

(** [while ((delta -= 1) != 0) shift_seq_history(rec, history, 0);] for [delta >= 1]. *)
Fixpoint shift_zeros (n : nat) (hl : Z) (c : Counters) (h : mem) : option (Counters * mem) :=
  match n with
  | O => Some (c, h)
  | S n => '(c, h) ← shift_seq_history hl c h 0; shift_zeros n hl c h
  end.

Definition get_win (init : bool) (r : SequenceRecovery) : Window := if init then init_win r else win r.
Definition set_win (init : bool) (w : Window) (r : SequenceRecovery) : SequenceRecovery :=
  if init then r <| init_win := w |> else r <| win := w |>.

Definition recover (r : SequenceRecovery) (packet_seq : Z) (init : bool)
    : option (bool * SequenceRecovery) :=
  let w := get_win init r in
  let hl := history_length (conf r) in
  let c := cnt r in
  let delta := calc_delta packet_seq (recv_seq w) in
  if take_any w then
    h ← store (history w) 0 1;
    Some (true, reset_ticks
      (set_win init (mk_win packet_seq false h)
        (r <| cnt := c <| passed_packets := i32 (passed_packets c + 1) |> |>)))
  else if (delta >? hl) || (delta <=? - hl) then
    let r := r <| cnt := c <| rogue_packets := i32 (rogue_packets c + 1) |>
                           <| discarded_packets := i32 (discarded_packets c + 1) |> |> in
    Some (false, if individual_recovery (conf r) then reset_ticks r else r)
  else if delta <=? 0 then
    seen ← load (history w) (- delta);
    if seen =? 0 then
      h ← store (history w) (- delta) 1;
      Some (true, reset_ticks
        (set_win init (w <| history := h |>)
          (r <| cnt := c <| out_of_order_packets := i32 (out_of_order_packets c + 1) |>
                         <| passed_packets := i32 (passed_packets c + 1) |> |>)))
    else
      let r := r <| cnt := c <| discarded_packets := i32 (discarded_packets c + 1) |> |> in
      Some (false, if individual_recovery (conf r) then reset_ticks r else r)
  else
    let c := if negb (delta =? 1)
             then c <| out_of_order_packets := i32 (out_of_order_packets c + 1) |> else c in
    '(c, h) ← shift_zeros (Z.to_nat (delta - 1)) hl c (history w);
    '(c, h) ← shift_seq_history hl c h 1;
    Some (true, reset_ticks
      (set_win init (mk_win packet_seq false h)
        (r <| cnt := c <| passed_packets := i32 (passed_packets c + 1) |> |>))).

(** ** The three algorithms *)

Definition match_seq_recovery (r : SequenceRecovery) (s : Z) : bool * SequenceRecovery :=
  let s := Z.land s 65535 in
  let c := cnt r in
  let w := win r in
  if take_any w then
    (true, reset_ticks (r <| win := mk_win s false (history w) |>
                          <| cnt := c <| passed_packets := i32 (passed_packets c + 1) |> |>))
  else
    let delta := Z.land (s - recv_seq w) (FRER_RCVY_SEQ_SPACE - 1) in
    if delta =? 0 then
      let r := r <| cnt := c <| discarded_packets := i32 (discarded_packets c + 1) |> |> in
      (false, if individual_recovery (conf r) then reset_ticks r else r)
    else
      let c := if negb (delta =? 1)
               then c <| out_of_order_packets := i32 (out_of_order_packets c + 1) |> else c in
      (true, reset_ticks (r <| win := w <| recv_seq := s |> |>
                            <| cnt := c <| passed_packets := i32 (passed_packets c + 1) |> |>)).

Definition vector_seq_recovery (r : SequenceRecovery) (s : Z) : option (bool * SequenceRecovery) :=
  recover r (Z.land s 65535) false.

Definition seamless_seq_recovery (r : SequenceRecovery) (s : Z) : option (bool * SequenceRecovery) :=
  let flags := Z.land s 4294901760 in
  let s := Z.land s 65535 in
  let hl := history_length (conf r) in
  let far seq0 := let delta := calc_delta s seq0 in (delta >? hl) || (delta <=? - hl * 2) in
  let init_pkt := negb (Z.land flags FRER_INIT_FLAG =? 0) in
  let reset_pkt := negb (Z.land flags FRER_RESET_FLAG =? 0) in
  if use_reset_flag (conf r) && use_init_flag (conf r) && init_pkt then
    let r := if reset_pkt && far (recv_seq (init_win r))
             then r <| init_win := (init_win r) <| take_any := true |> |> else r in
    let high := FRER_RCVY_SEQ_SPACE - 3 * hl in
    let low := FRER_RCVY_SEQ_SPACE - hl in
    let r := if (s >=? high) && (s <? low)
             then r <| win := (win r) <| take_any := true |> |> else r in
    recover r s true
  else
    let r := if use_reset_flag (conf r) && reset_pkt && far (recv_seq (win r))
             then r <| win := (win r) <| take_any := true |> |> else r in
    recover r s false.

(** [seq_recovery]: the elimination decision for a data packet; [true] is
    [ACR_CONTINUE], [false] is [ACR_DONE]. *)
Definition seq_recovery (r : SequenceRecovery) (p : Pkt.Packet) : option (bool * SequenceRecovery) :=
  let s := ntohl (Pkt.sequence p) in
  match algorithm (conf r) with
  | RCVY_Vector => vector_seq_recovery r s
  | RCVY_SeamlessVector => seamless_seq_recovery r s
  | RCVY_Match => Some (match_seq_recovery r s)
  end.

(** ** Reset *)

Definition clear_history (hl : Z) : mem := replicate (Z.to_nat hl) 0.

Definition vector_seq_recovery_reset (r : SequenceRecovery) : SequenceRecovery :=
  r <| win := mk_win (FRER_RCVY_SEQ_SPACE - 1) (take_any (win r))
                (clear_history (history_length (conf r))) |>.

Definition seamless_seq_recovery_reset (r : SequenceRecovery) : SequenceRecovery :=
  (vector_seq_recovery_reset r)
    <| init_win := mk_win (FRER_RCVY_SEQ_SPACE - 1) true
                     (clear_history (history_length (conf r))) |>.

Definition seq_recovery_reset (r : SequenceRecovery) : SequenceRecovery :=
  let r := r <| seq_recovery_resets := i32 (seq_recovery_resets r + 1) |>
             <| win := (win r) <| take_any := true |> |> in
  match algorithm (conf r) with
  | RCVY_Match => r
  | RCVY_Vector => vector_seq_recovery_reset r
  | RCVY_SeamlessVector => seamless_seq_recovery_reset r
  end.

(** ** Latent error diagnostics *)

(** The alerts that [recovery_diagnostic] raises. *)
Inductive DiagAlert :=
  | MORE_PACKETS_THAN_EXPECTED (percent : Z)
  | PACKET_ABSENT
  | DISFUNCTIONING_PATHS (paths : Z)
  | DISFUNCTIONING_PATHS_AND_ABSENT (paths : Z)
  | OUTOFWINDOW_PACKETS (rogue : Z)
  | PACKET_LOSS (consecutive aggregate : Z).

(** Signed division: undefined for a zero divisor and for [INT_MIN / -1]. *)
Definition int_div (a b : Z) : option Z :=
  if (b =? 0) || ((a =? -2147483648) && (b =? -1)) then None else Some (Z.quot a b).

Definition diag_update (r : SequenceRecovery) : SequenceRecovery :=
  r <| lat := (lat r) <| discarded_packets_last := discarded_packets (cnt r) |>
                      <| passed_packets_last := passed_packets (cnt r) |> |>.

(** The window and outage alerts that end the diagnosis of missing packets. *)
Definition diag_window_alerts (r : SequenceRecovery) : list DiagAlert * SequenceRecovery :=
  let '(a1, r) :=
    if negb (rogue_packets (cnt r) =? rogue_packets_last (lat r)) then
      ([OUTOFWINDOW_PACKETS (rogue_packets (cnt r))],
       r <| lat := (lat r) <| rogue_packets_last := rogue_packets (cnt r) |> |>)
    else ([], r) in
  if consecutive_loss_max (cnt r) >? outage_threshold (diag (conf r)) then
    (a1 ++ [PACKET_LOSS (consecutive_loss_max (cnt r)) (lost_packets (cnt r))],
     r <| cnt := (cnt r) <| consecutive_loss_max := 0 |> |>)
  else (a1, r).

Definition recovery_diagnostic (r : SequenceRecovery) : option (list DiagAlert * SequenceRecovery) :=
  let led := latent_error_difference (diag (conf r)) in
  let paths := latent_error_paths (lat r) in
  if take_any (win r) then Some ([], r)
  else
    let discarded_diff := i32 (discarded_packets (cnt r) - discarded_packets_last (lat r)) in
    let passed_diff := i32 (passed_packets (cnt r) - passed_packets_last (lat r)) in
    if passed_diff =? 0 then Some ([], r)
    else
      let expected := i32 (i32 (paths - 1) * passed_diff) in
      let diff := i32 (discarded_diff - expected) in
      ceil ← int_div (i32 (i32 (discarded_diff + led) - 1)) passed_diff;
      floor ← int_div (i32 (discarded_diff - led)) passed_diff;
      let working_ceil := u32 ceil in
      let working_floor := u32 floor in
      if (diff >? i32 (- led)) && (diff <? led) then Some ([], diag_update r)
      else if diff >=? led then
        more_percent ← int_div (i32 (discarded_diff * 100)) expected;
        Some ([MORE_PACKETS_THAN_EXPECTED more_percent], diag_update r)
      else
        let a :=
          if discarded_diff <? led then DISFUNCTIONING_PATHS (i32 (paths - 1))
          else if working_ceil =? working_floor then
            let disfunctioning_paths := i32 (u32 (paths - 2) - working_ceil) in
            if disfunctioning_paths >? 0 then DISFUNCTIONING_PATHS_AND_ABSENT disfunctioning_paths
            else PACKET_ABSENT
          else DISFUNCTIONING_PATHS (i32 (u32 (paths - 1) - working_ceil)) in
        let '(more, r) := diag_window_alerts r in
        Some (a :: more, diag_update r).

Definition base_difference (r : SequenceRecovery) : Z :=
  i32 (i32 (passed_packets (cnt r) * i32 (latent_error_paths (lat r) - 1)) - discarded_packets (cnt r)).

Definition latent_error_test (r : SequenceRecovery) : option (list DiagAlert * SequenceRecovery) :=
  let diff := i32 (cur_base_difference (lat r) - base_difference r) in
  if (latent_error_paths (lat r) >? 1) && (latent_error_period (diag (conf r)) >? 0) then
    let diff := if diff <? 0 then i32 (- diff) else diff in
    let r := if diff >? latent_error_difference (diag (conf r))
             then r <| lat := (lat r) <| latent_errors := i32 (latent_errors (lat r) + 1) |> |>
             else r in
    recovery_diagnostic r
  else Some ([], r).

Definition latent_error_reset (r : SequenceRecovery) : SequenceRecovery :=
  r <| lat := (lat r) <| cur_base_difference := base_difference r |>
                      <| latent_error_resets := i32 (latent_error_resets (lat r) + 1) |> |>
    <| cnt := (cnt r) <| skip_loss_after_reset_guard := i32 (history_length (conf r) - 1) |> |>.

(** ** The timer thread *)

Definition decrement_ticks (r : SequenceRecovery) : bool * SequenceRecovery :=
  if remaining_ticks r =? 0 then (false, r)
  else
    let r := r <| remaining_ticks := i32 (remaining_ticks r - 1) |> in
    (remaining_ticks r =? 0, r).

(** The outcome of one iteration of [reset_thread]: an OAM instance removes
    itself from its parent's table when its timer expires. *)
Inductive TickResult :=
  | TICK_EXIT
  | TICK_RUN (alerts : list DiagAlert) (r : SequenceRecovery).

(** The latent error part of an iteration. *)
Definition tick_latent (r : SequenceRecovery) : option (list DiagAlert * SequenceRecovery) :=
  let tick := 1000 / FRER_TICKS_PER_SEC in
  let d := diag (conf r) in
  let r := r <| lat := (lat r) <| latent_reset_counter := i32 (latent_reset_counter (lat r) + tick) |> |> in
  let r := if negb (latent_reset_period d =? 0) && (latent_reset_counter (lat r) >=? latent_reset_period d)
           then let r := latent_error_reset r in r <| lat := (lat r) <| latent_reset_counter := 0 |> |>
           else r in
  let r := r <| lat := (lat r) <| latent_error_counter := i32 (latent_error_counter (lat r) + tick) |> |> in
  if latent_error_counter (lat r) >=? latent_error_period d then
    '(alerts, r) ← latent_error_test r;
    Some (alerts, r <| lat := (lat r) <| latent_error_counter := 0 |> |>)
  else Some ([], r).

Definition reset_thread_tick (r : SequenceRecovery) : option TickResult :=
  let '(expired, r) := decrement_ticks r in
  if expired && match oam_session_id r with Some _ => true | None => false end then Some TICK_EXIT
  else
    '(alerts, r) ← tick_latent (if expired then seq_recovery_reset r else r);
    Some (TICK_RUN alerts r).

(** ** Masking of recovery paths *)

(** Calls into the OAM module made by the masking operations. *)
Inductive MaskEvent :=
  | START_MASK_SESSION (post : option string)
  | STOP_MASK_SESSION (post : option string).

Definition seq_rec_register_preAutoMIP (r : SequenceRecovery) (mip : string) : SequenceRecovery :=
  r <| preAutoMIP := Some (<[mip := false]> (default ∅ (preAutoMIP r))) |>.

Definition seq_rec_register_postAutoMIP (r : SequenceRecovery) (mip : string) : SequenceRecovery :=
  match postAutoMIP r with
  | Some _ => r
  | None => r <| postAutoMIP := Some mip |>
  end.

Definition seq_rec_path_masked (r : SequenceRecovery) (mip : string)
    : bool * list MaskEvent * SequenceRecovery :=
  match preAutoMIP r with
  | None => (false, [], r)
  | Some mips =>
      match mips !! mip with
      | None => (false, [], r)
      | Some true => (false, [], r)
      | Some false =>
          if latent_error_paths (lat r) <=? 0 then (false, [], r)
          else
            let r := latent_error_reset
              (r <| preAutoMIP := Some (<[mip := true]> mips) |>
                 <| lat := (lat r) <| latent_error_paths := i32 (latent_error_paths (lat r) - 1) |> |>) in
            (true, if latent_error_paths (lat r) =? 0 then [START_MASK_SESSION (postAutoMIP r)] else [], r)
      end
  end.

Definition seq_rec_path_unmasked (r : SequenceRecovery) (mip : string)
    : bool * list MaskEvent * SequenceRecovery :=
  match preAutoMIP r with
  | None => (false, [], r)
  | Some mips =>
      match mips !! mip with
      | None => (false, [], r)
      | Some false => (false, [], r)
      | Some true =>
          if latent_error_paths (lat r) >=? admin_latent_error_paths (diag (conf r)) then (false, [], r)
          else
            let r := latent_error_reset
              (r <| preAutoMIP := Some (<[mip := false]> mips) |>
                 <| lat := (lat r) <| latent_error_paths := i32 (latent_error_paths (lat r) + 1) |> |>) in
            (true, if latent_error_paths (lat r) =? 1 then [STOP_MASK_SESSION (postAutoMIP r)] else [], r)
      end
  end.

(** ** Recovery of OAM sessions

    A recovery object with the table of its OAM instances. *)
Record RecoveryObject := mk_obj {
  main_rec : SequenceRecovery;
  oam_seq_recoveries : option (gmap string SequenceRecovery)
}.

Definition no_diag : RecoveryDiagnosticConf := mk_diag 0 0 0 0 0.

Definition new_oam_rcvy (session_id : string) : SequenceRecovery :=
  (reset_ticks (new_seq_rec session_id RCVY_Match false false 0 OAM_RCVY_RESET_MS no_diag))
    <| oam_session_id := Some session_id |>.

(** The table is created on first use, the instance on the first message of a
    session.  [launched] is false when the timer thread cannot be started. *)
Definition get_oam_rcvy (launched : bool) (o : RecoveryObject) (session_id : string)
    : option SequenceRecovery * RecoveryObject :=
  let tbl := default ∅ (oam_seq_recoveries o) in
  match tbl !! session_id with
  | Some r => (Some r, mk_obj (main_rec o) (Some tbl))
  | None =>
      if launched then
        let r := new_oam_rcvy session_id in
        (Some r, mk_obj (main_rec o) (Some (<[session_id := r]> tbl)))
      else (None, mk_obj (main_rec o) (Some tbl))
  end.

Definition oam_recovery (launched : bool) (o : RecoveryObject) (session_id : string) (s : Z)
    : bool * RecoveryObject :=
  match get_oam_rcvy launched o session_id with
  | (Some r, o) =>
      let '(accept, r) := match_seq_recovery r s in
      (accept, mk_obj (main_rec o)
                 (Some (<[session_id := r]> (default ∅ (oam_seq_recoveries o)))))
  | (None, o) => (true, o)
  end.

End Rcvy.
