(* ===== verification/SeqRecovSpec.v ===== *)
(** * Correctness of sequence recovery

    Properties of the model in [SeqRecov]: the serial-number distance, memory
    safety of the history windows, the refinement of vector recovery to a
    specification on unbounded sequence numbers, and the exactly-once delivery
    that follows from it. *)

From S2P Require Import Prelude SeqGen Packet SeqRecov.
Import Gen(FRER_RCVY_SEQ_SPACE, FRER_RESET_FLAG, FRER_INIT_FLAG).
Import Rcvy.

Module RcvyWindow.

(** ** Serial-number distance *)

Lemma land_pow2 x k : 0 <= k → Z.land x (2 ^ k) = b2z (Z.testbit x k) * 2 ^ k.
Proof.
  intros Hk. apply Z.bits_inj'. intros i Hi.
  rewrite Z.land_spec, Z.pow2_bits_eqb by done.
  destruct (Z.eqb_spec k i) as [->|Hne].
  - rewrite andb_true_r. destruct (Z.testbit x i); simpl b2z.
    + by rewrite Z.mul_1_l, Z.pow2_bits_true.
    + by rewrite Z.mul_0_l, Z.bits_0.
  - rewrite andb_false_r. destruct (Z.testbit x k); simpl b2z.
    + by rewrite Z.mul_1_l, Z.pow2_bits_false.
    + by rewrite Z.mul_0_l, Z.bits_0.
Qed.

(** [calc_delta] is the representative of the difference modulo 2^16 that is
    closest to zero. *)
Lemma calc_delta_spec a b :
  calc_delta a b = (a - b + 32768) mod 65536 - 32768.
Proof.
  unfold calc_delta, FRER_RCVY_SEQ_SPACE. change (65536 - 1) with 65535. rewrite land_ffff.
  change (65536 / 2) with (2 ^ 15). rewrite land_pow2 by lia.
  rewrite Z.testbit_odd, Z.shiftr_div_pow2 by lia.
  set (d := (a - b) mod 65536). change (2 ^ 15) with 32768.
  assert (d / 32768 = 0 ∨ d / 32768 = 1) as [E|E] by lia; rewrite E; simpl; lia.
Qed.

Lemma calc_delta_near n H :
  -32768 <= n - H < 32768 → calc_delta (n mod 65536) (H mod 65536) = n - H.
Proof. intros. rewrite calc_delta_spec. lia. Qed.

(** ** The history shift *)

Lemma shift_loop_spec i h :
  (i < length h)%nat → shift_loop i h = Some (take 1 h ++ take i h ++ drop (S i) h).
Proof.
  revert h. induction i as [|j IH]; intros h Hi; cbn [shift_loop].
  - destruct h; done.
  - destruct (load_in_range h (Z.of_nat j)) as [v Hv]; [unfold in_range; lia|].
    rewrite Hv. cbn [mbind option_bind].
    rewrite store_in_range by (unfold in_range; lia). cbn [mbind option_bind].
    rewrite Nat2Z.id. rewrite IH by (rewrite length_insert; lia). f_equal.
    unfold load in Hv. rewrite Nat2Z.id in Hv.
    destruct (Z.leb_spec 0 (Z.of_nat j)); [|lia].
    rewrite (take_insert_ge _ 1), (take_insert_ge _ j) by lia.
    rewrite (take_S_r h j v) by done. rewrite <- !app_assoc. simpl.
    do 2 f_equal.
    rewrite (drop_S _ v) by (rewrite list_lookup_insert_eq by lia; done).
    by rewrite drop_insert_lt by lia.
Qed.

(** The counters after one shift that drops the entry [oldest]. *)
Definition count_shift (c : Counters) (oldest : Z) : Counters :=
  if oldest =? 0 then
    if skip_loss_after_reset_guard c =? 0 then
      let c := c <| lost_packets := i32 (lost_packets c + 1) |>
                 <| consecutive_loss := i32 (consecutive_loss c + 1) |> in
      if consecutive_loss c >? consecutive_loss_max c
      then c <| consecutive_loss_max := consecutive_loss c |> else c
    else c <| skip_loss_after_reset_guard := i32 (skip_loss_after_reset_guard c - 1) |>
  else c <| consecutive_loss := 0 |>.

Lemma shift_seq_history_spec hl c h z :
  0 < hl → Z.of_nat (length h) = hl →
  ∃ oldest, load h (hl - 1) = Some oldest ∧
    shift_seq_history hl c h z = Some (count_shift c oldest, z :: take (Z.to_nat (hl - 1)) h).
Proof.
  intros Hhl Hlen. destruct (load_in_range h (hl - 1)) as [v Hv]; [unfold in_range; lia|].
  exists v. split; [done|]. unfold shift_seq_history. rewrite Hv. cbn [mbind option_bind].
  rewrite shift_loop_spec by lia. cbn [mbind option_bind].
  set (n := Z.to_nat (hl - 1)). destruct h as [|h0 h]; [simpl in *; lia|].
  rewrite (drop_ge _ (S n)) by (simpl in *; lia). rewrite app_nil_r. simpl take at 1.
  rewrite store_in_range by (unfold in_range; simpl; lia). done.
Qed.

Lemma count_shift_passed c o :
  passed_packets (count_shift c o) = passed_packets c ∧
  discarded_packets (count_shift c o) = discarded_packets c ∧
  rogue_packets (count_shift c o) = rogue_packets c ∧
  out_of_order_packets (count_shift c o) = out_of_order_packets c.
Proof. unfold count_shift. repeat case_match; done. Qed.

(** [n] shifts by zero. *)
Lemma shift_zeros_spec n hl c h :
  0 < hl → Z.of_nat (length h) = hl → Z.of_nat n <= hl →
  ∃ c', shift_zeros n hl c h = Some (c', replicate n 0 ++ take (Z.to_nat hl - n) h) ∧
    passed_packets c' = passed_packets c ∧ discarded_packets c' = discarded_packets c ∧
    rogue_packets c' = rogue_packets c ∧ out_of_order_packets c' = out_of_order_packets c.
Proof.
  intros Hhl. revert c h. induction n as [|n IH]; intros c h Hlen Hn; cbn [shift_zeros].
  - exists c. rewrite Nat.sub_0_r, take_ge by lia. done.
  - destruct (shift_seq_history_spec hl c h 0) as (o & _ & ->); [done..|].
    cbn [mbind option_bind].
    destruct (IH (count_shift c o) (0 :: take (Z.to_nat (hl - 1)) h)) as (c' & -> & E);
      [cbn [length]; rewrite length_take; lia | lia |].
    exists c'. rewrite !(proj1 (count_shift_passed c o)) in E.
    destruct (count_shift_passed c o) as (_ & E2 & E3 & E4). rewrite E2, E3, E4 in E.
    split; [|done]. do 2 f_equal.
    replace (Z.to_nat hl - n)%nat with (S (Z.to_nat hl - S n)) by lia.
    cbn [take]. rewrite take_take, Nat.min_l by lia.
    rewrite replicate_S_end, <- app_assoc. done.
Qed.

(** Moving the window forward by [delta]. *)
Lemma shift_window_spec delta hl c h :
  0 < delta <= hl → Z.of_nat (length h) = hl →
  ∃ c1 h1 c', shift_zeros (Z.to_nat (delta - 1)) hl c h = Some (c1, h1) ∧
    shift_seq_history hl c1 h1 1
          = Some (c', 1 :: replicate (Z.to_nat (delta - 1)) 0 ++ take (Z.to_nat (hl - delta)) h) ∧
    passed_packets c' = passed_packets c ∧ discarded_packets c' = discarded_packets c ∧
    rogue_packets c' = rogue_packets c ∧ out_of_order_packets c' = out_of_order_packets c.
Proof.
  intros Hd Hlen.
  destruct (shift_zeros_spec (Z.to_nat (delta - 1)) hl c h) as (c1 & E1 & E); [lia..|].
  match type of E1 with _ = Some (_, ?h1) =>
    destruct (shift_seq_history_spec hl c1 h1 1) as (o & _ & E2) end;
    [lia | rewrite length_app, length_replicate, length_take; lia |].
  exists c1. eexists. exists (count_shift c1 o). split; [exact E1|]. rewrite E2.
  destruct (count_shift_passed c1 o) as (-> & -> & -> & ->). split; [|done]. do 3 f_equal.
  rewrite take_app_ge by (rewrite length_replicate; lia). rewrite length_replicate.
  f_equal. rewrite take_take. f_equal. lia.
Qed.

(** ** Memory safety

    The invariant of a recovery object that is configured with a positive
    history length: both history buffers have that length. *)
Definition rec_wf (r : SequenceRecovery) : Prop :=
  0 < history_length (conf r) ∧
  Z.of_nat (length (history (win r))) = history_length (conf r) ∧
  Z.of_nat (length (history (init_win r))) = history_length (conf r).

Lemma rec_wf_get init r :
  rec_wf r → Z.of_nat (length (history (get_win init r))) = history_length (conf r).
Proof. intros (? & ? & ?). by destruct init. Qed.

Lemma reset_ticks_fields r :
  conf (reset_ticks r) = conf r ∧ win (reset_ticks r) = win r ∧
  init_win (reset_ticks r) = init_win r ∧ cnt (reset_ticks r) = cnt r ∧ lat (reset_ticks r) = lat r.
Proof. done. Qed.

Lemma rec_wf_reset_ticks r : rec_wf r → rec_wf (reset_ticks r).
Proof. done. Qed.

Lemma rec_wf_set_win init w c r :
  rec_wf r → Z.of_nat (length (history w)) = history_length (conf r) →
  rec_wf (set_win init w (r <| cnt := c |>)).
Proof. intros (? & ? & ?) Hw. by destruct init. Qed.

#[local] Hint Resolve rec_wf_reset_ticks rec_wf_set_win : dnt.

(** [recover] never leaves its buffer, and keeps the invariant. *)
Lemma recover_wf r s init :
  rec_wf r → ∃ b r', recover r s init = Some (b, r') ∧ rec_wf r' ∧ conf r' = conf r.
Proof.
  intros Hwf. pose proof (rec_wf_get init r Hwf) as Hlen.
  pose proof (proj1 Hwf) as Hhl. unfold recover.
  set (hl := history_length (conf r)) in *. set (delta := calc_delta _ _).
  destruct (take_any (get_win init r)).
  { rewrite store_in_range by (unfold in_range; lia). cbn [mbind option_bind].
    do 2 eexists. split; [done|]. split; [|by destruct init].
    apply rec_wf_reset_ticks, rec_wf_set_win; [done|]. cbn [history].
    by rewrite length_insert. }
  destruct (Z.gtb_spec delta hl), (Z.leb_spec delta (- hl)); cbn [orb];
    try by (do 2 eexists; split; [done|]; destruct (individual_recovery _)).
  destruct (Z.leb_spec delta 0).
  - destruct (load_in_range (history (get_win init r)) (- delta)) as [v ->];
      [unfold in_range; lia|]. cbn [mbind option_bind].
    destruct (v =? 0); [|by (do 2 eexists; split; [done|]; destruct (individual_recovery _))].
    rewrite store_in_range by (unfold in_range; lia). cbn [mbind option_bind].
    do 2 eexists. split; [done|]. split; [|by destruct init].
    apply rec_wf_reset_ticks, rec_wf_set_win; [done|]. simpl. by rewrite length_insert.
  - edestruct (shift_window_spec delta hl) as (c1 & h1 & c' & -> & E & _); [lia | exact Hlen |].
    cbn [mbind option_bind]. rewrite E. cbn [mbind option_bind].
    do 2 eexists. split; [done|]. split; [|by destruct init].
    apply rec_wf_reset_ticks, rec_wf_set_win; [done|]. cbn [history length].
    rewrite length_app, length_replicate, length_take. lia.
Qed.

Lemma seamless_wf r s :
  rec_wf r → ∃ b r', seamless_seq_recovery r s = Some (b, r') ∧ rec_wf r' ∧ conf r' = conf r.
Proof.
  intros Hwf. unfold seamless_seq_recovery.
  repeat case_match;
    match goal with |- context [recover ?r' ?s' ?i] =>
      apply (recover_wf r' s' i) end; done.
Qed.

(** The operations of a running recovery object: an arriving packet, a tick of
    the timer thread, and the registration and masking of its inputs. *)
Inductive rec_event :=
  | EvPacket (p : Pkt.Packet)
  | EvTick
  | EvRegisterPre (mip : string)
  | EvRegisterPost (mip : string)
  | EvMask (mip : string)
  | EvUnmask (mip : string).

Inductive rec_step : SequenceRecovery → rec_event → SequenceRecovery → Prop :=
  | step_packet r p b r' : seq_recovery r p = Some (b, r') → rec_step r (EvPacket p) r'
  | step_tick r al r' : reset_thread_tick r = Some (TICK_RUN al r') → rec_step r EvTick r'
  | step_pre r m : rec_step r (EvRegisterPre m) (seq_rec_register_preAutoMIP r m)
  | step_post r m : rec_step r (EvRegisterPost m) (seq_rec_register_postAutoMIP r m)
  | step_mask r m b ev r' : seq_rec_path_masked r m = (b, ev, r') → rec_step r (EvMask m) r'
  | step_unmask r m b ev r' : seq_rec_path_unmasked r m = (b, ev, r') → rec_step r (EvUnmask m) r'.

Definition reachable (r0 r : SequenceRecovery) : Prop := rtc (λ x y, ∃ e, rec_step x e y) r0 r.

Lemma seq_recovery_wf r p :
  rec_wf r → ∃ b r', seq_recovery r p = Some (b, r') ∧ rec_wf r' ∧ conf r' = conf r.
Proof.
  intros Hwf. unfold seq_recovery. destruct (algorithm (conf r)).
  - unfold match_seq_recovery. repeat case_match; simplify_eq; do 2 eexists; (split; [done|]); done.
  - by apply recover_wf.
  - by apply seamless_wf.
Qed.

Lemma seq_recovery_reset_wf r : rec_wf r → rec_wf (seq_recovery_reset r).
Proof.
  intros (H1 & H2 & H3). unfold rec_wf, seq_recovery_reset, seamless_seq_recovery_reset,
    vector_seq_recovery_reset, clear_history.
  destruct (algorithm _) eqn:E; simpl in *; repeat split; try done;
    rewrite length_replicate; lia.
Qed.

Lemma seq_recovery_reset_conf r : conf (seq_recovery_reset r) = conf r.
Proof. unfold seq_recovery_reset. case_match; done. Qed.

(** Ticks, diagnostics and masking leave the configuration and the windows
    alone, apart from the reset of an expired timer. *)
Definition same_windows (r r' : SequenceRecovery) : Prop :=
  conf r' = conf r ∧ win r' = win r ∧ init_win r' = init_win r.

Lemma diag_windows r al r' : recovery_diagnostic r = Some (al, r') → same_windows r r'.
Proof.
  unfold recovery_diagnostic, diag_window_alerts, diag_update, same_windows.
  intros H. repeat (case_match || destruct (int_div _ _); simpl in *; simplify_eq); done.
Qed.

Lemma latent_error_test_windows r al r' : latent_error_test r = Some (al, r') → same_windows r r'.
Proof.
  unfold latent_error_test. intros H. repeat case_match; simplify_eq; try done;
    by apply diag_windows in H.
Qed.

Lemma tick_latent_windows r al r' : tick_latent r = Some (al, r') → same_windows r r'.
Proof.
  unfold tick_latent. intros H. repeat case_match; try (by simplify_eq).
  all: match type of H with context [latent_error_test ?x] =>
         destruct (latent_error_test x) as [[? ?]|] eqn:E; simpl in H; simplify_eq end;
    by apply latent_error_test_windows in E.
Qed.

Lemma tick_windows r al r' :
  reset_thread_tick r = Some (TICK_RUN al r') →
  same_windows r r' ∨ same_windows (seq_recovery_reset r) r'.
Proof.
  unfold reset_thread_tick. intros H. destruct (decrement_ticks r) as [e r1] eqn:D.
  assert (same_windows r r1) as S1.
  { unfold decrement_ticks in D. repeat case_match; simplify_eq; done. }
  destruct (e && _); [done|].
  destruct (tick_latent _) as [[al1 r2]|] eqn:T; simpl in H; simplify_eq.
  apply tick_latent_windows in T. unfold same_windows in *.
  destruct S1 as (C1 & C2 & C3), T as (T1 & T2 & T3). destruct e; [right | left; by rewrite T1, T2, T3].
  rewrite T1, T2, T3, !seq_recovery_reset_conf, C1.
  unfold seq_recovery_reset. simpl. rewrite C1.
  destruct (algorithm (conf r)); unfold seamless_seq_recovery_reset, vector_seq_recovery_reset; simpl;
    rewrite ?C1, ?C2, ?C3; done.
Qed.

Lemma same_windows_wf r r' : same_windows r r' → rec_wf r → rec_wf r'.
Proof. unfold same_windows, rec_wf. intros (-> & -> & ->). done. Qed.

Lemma mask_windows r m b ev r' :
  seq_rec_path_masked r m = (b, ev, r') ∨ seq_rec_path_unmasked r m = (b, ev, r') → same_windows r r'.
Proof.
  unfold seq_rec_path_masked, seq_rec_path_unmasked.
  intros [H|H]; repeat case_match; simplify_eq; done.
Qed.

Lemma rec_step_wf r e r' : rec_step r e r' → rec_wf r → rec_wf r' ∧ conf r' = conf r.
Proof.
  intros Hs Hwf. destruct Hs as [r p b r' H|r al r' H|r m|r m|r m b ev r' H|r m b ev r' H].
  - destruct (seq_recovery_wf r p Hwf) as (b' & r2 & E & W & C). rewrite E in H. by simplify_eq.
  - destruct (tick_windows _ _ _ H) as [S|S].
    + split; [by eapply same_windows_wf | apply S].
    + split; [by eapply same_windows_wf; [|apply seq_recovery_reset_wf]|].
      rewrite (proj1 S). apply seq_recovery_reset_conf.
  - done.
  - unfold seq_rec_register_postAutoMIP. by case_match.
  - eapply or_introl, mask_windows in H. split; [by eapply same_windows_wf | apply H].
  - eapply or_intror, mask_windows in H. split; [by eapply same_windows_wf | apply H].
Qed.

Lemma reachable_wf r0 r : reachable r0 r → rec_wf r0 → rec_wf r.
Proof.
  intros Hr. induction Hr as [|x y z (e & He) _ IH]; [done|]. intros Hwf.
  apply IH. by eapply rec_step_wf.
Qed.

Lemma new_seq_rec_wf nm algo ur ui hl ms d :
  0 < hl < 2 ^ 31 → rec_wf (new_seq_rec nm algo ur ui hl ms d).
Proof.
  intros H. unfold rec_wf, new_seq_rec. simpl.
  rewrite !length_replicate, i32_small by (unfold is_i32; lia). lia.
Qed.

(** Memory safety of elimination when the timer runs between packets.  From a recovery object created with a
    positive history length, after any sequence of packets, timer ticks and
    masking operations, processing one more packet stays inside the history
    buffers (the model returns a result) and gives a verdict. *)
Theorem seq_recovery_safe nm algo ur ui hl ms d r p :
  0 < hl < 2 ^ 31 → reachable (new_seq_rec nm algo ur ui hl ms d) r →
  ∃ b r', seq_recovery r p = Some (b, r') ∧ rec_wf r'.
Proof.
  intros Hhl Hr. apply reachable_wf in Hr; [|by apply new_seq_rec_wf].
  destruct (seq_recovery_wf r p Hr) as (b & r' & E & W & _). eauto.
Qed.

Lemma seq_recovery_safe_witness :
  ∃ b r', seq_recovery (seq_rec_register_preAutoMIP
            (new_seq_rec "r" RCVY_Vector false false 4 100 no_diag) "m") (Pkt.blank_packet [] false)
          = Some (b, r') ∧ rec_wf r'.
Proof.
  apply (seq_recovery_safe "r" RCVY_Vector false false 4 100 no_diag); [lia|].
  apply rtc_once. exists (EvRegisterPre "m"). constructor.
Defined.

End RcvyWindow.

(** * Vector recovery on unbounded sequence numbers *)
Module RcvyRefine.
Import RcvyWindow.

(** The specification works on the sender's packet counter, which does not
    wrap: [head] is the highest number passed, [passed] all numbers passed. *)
Record spec := mk_spec { head : Z; passed : list Z }.

Definition spec_accept (L : Z) (a : spec) (n : Z) : bool :=
  (head a - L <? n) && (n <=? head a + L) && negb (bool_decide (n ∈ passed a)).

Definition spec_step (L : Z) (a : spec) (n : Z) : bool * spec :=
  if spec_accept L a n then (true, mk_spec (Z.max (head a) n) (n :: passed a)) else (false, a).

(** The window of the code represents the specification state. *)
Definition represents (L : Z) (w : Window) (a : spec) : Prop :=
  take_any w = false ∧ recv_seq w = head a mod 65536 ∧
  Z.of_nat (length (history w)) = L ∧
  (∀ i, 0 <= i < L → load (history w) i = Some (b2z (bool_decide (head a - i ∈ passed a)))) ∧
  (∀ x, x ∈ passed a → x <= head a).

Lemma get_set_win init w c r :
  get_win init (reset_ticks (set_win init w (r <| cnt := c |>))) = w ∧
  get_win (negb init) (reset_ticks (set_win init w (r <| cnt := c |>))) = get_win (negb init) r.
Proof. by destruct init. Qed.

Lemma load_shifted d L h i :
  0 < d <= L → Z.of_nat (length h) = L → 0 <= i < L →
  load (1 :: replicate (Z.to_nat (d - 1)) 0 ++ take (Z.to_nat (L - d)) h) i =
    if i =? 0 then Some 1 else if i <? d then Some 0 else load h (i - d).
Proof.
  intros Hd Hh Hi. unfold load.
  destruct (Z.leb_spec 0 i); [|lia]. destruct (Z.eqb_spec i 0) as [->|]; [done|].
  rewrite lookup_cons_ne_0 by lia.
  destruct (Z.ltb_spec i d).
  - rewrite lookup_app_l by (rewrite length_replicate; lia). apply lookup_replicate_2. lia.
  - rewrite lookup_app_r by (rewrite length_replicate; lia). rewrite length_replicate.
    destruct (Z.leb_spec 0 (i - d)); [|lia]. rewrite lookup_take_lt by lia. f_equal. lia.
Qed.

(** A late packet sets its entry. *)
Lemma represents_mark L w a n h :
  represents L w a → head a - L < n <= head a → store (history w) (head a - n) 1 = Some h →
  represents L (w <| history := h |>) (mk_spec (head a) (n :: passed a)).
Proof.
  intros (Hany & Hseq & Hlen & Hhist & Hpass) Hn Est. unfold represents. cbn.
  split_and!; [done | done | by rewrite (store_length _ _ _ _ Est) | |].
  - intros i Hi. destruct (decide (i = head a - n)) as [->|Hne].
    + rewrite (load_store_eq _ _ _ _ Est), bool_decide_eq_true_2; [done|].
      replace (head a - (head a - n)) with n by lia. constructor.
    + rewrite (load_store_ne _ _ _ _ _ Est), Hhist by lia. do 2 f_equal.
      apply bool_decide_ext. rewrite elem_of_cons. split; [auto|]. intros [|]; [lia|done].
  - intros x [->|Hx]%elem_of_cons; [lia | auto].
Qed.

(** A packet ahead of the window moves it. *)
Lemma represents_shift L w a n :
  represents L w a → 0 < n - head a <= L →
  represents L
    (mk_win (n mod 65536) false
       (1 :: replicate (Z.to_nat (n - head a - 1)) 0 ++ take (Z.to_nat (L - (n - head a))) (history w)))
    (mk_spec n (n :: passed a)).
Proof.
  intros (Hany & Hseq & Hlen & Hhist & Hpass) Hn.
  split_and!; [done | done | ..]; cbn [history head passed].
  - cbn [length]. rewrite length_app, length_replicate, length_take. lia.
  - intros i Hi. rewrite load_shifted by lia. destruct (Z.eqb_spec i 0) as [->|].
    { rewrite bool_decide_eq_true_2; [done|]. rewrite Z.sub_0_r. constructor. }
    destruct (Z.ltb_spec i (n - head a)).
    + rewrite bool_decide_eq_false_2; [done|]. rewrite elem_of_cons. intros [|?%Hpass]; lia.
    + rewrite Hhist by lia. do 2 f_equal. apply bool_decide_ext. rewrite elem_of_cons.
      replace (head a - (i - (n - head a))) with (n - i) by lia. split; [auto|]. intros [|]; [lia|done].
  - intros x [->|Hx%Hpass]%elem_of_cons; lia.
Qed.

(** One packet. *)
Lemma recover_refines L init r a n :
  0 < L < 32768 → history_length (conf r) = L → represents L (get_win init r) a →
  -32768 <= n - head a < 32768 →
  ∃ r', recover r (n mod 65536) init = Some ((spec_step L a n).1, r') ∧
    represents L (get_win init r') (spec_step L a n).2 ∧
    get_win (negb init) r' = get_win (negb init) r ∧ conf r' = conf r.
Proof.
  intros HL Hhl HR Hn. pose proof HR as (Hany & Hseq & Hlen & Hhist & Hpass). unfold recover.
  rewrite Hany, Hseq, Hhl, calc_delta_near by done. unfold spec_step, spec_accept.
  destruct (Z.gtb_spec (n - head a) L), (Z.leb_spec (n - head a) (- L)); cbn [orb].
  1-3: destruct (Z.ltb_spec (head a - L) n), (Z.leb_spec n (head a + L)); try lia; cbn [andb];
    eexists; (split; [done|]); destruct (individual_recovery _), init; done.
  destruct (Z.ltb_spec (head a - L) n), (Z.leb_spec n (head a + L)); try lia; cbn [andb].
  destruct (Z.leb_spec (n - head a) 0).
  - rewrite Hhist by lia. cbn [mbind option_bind].
    replace (- (n - head a)) with (head a - n) by lia.
    replace (head a - (head a - n)) with n by lia.
    destruct (bool_decide (n ∈ passed a)); cbn [b2z negb Z.eqb].
    { eexists; split; [done|]. destruct (individual_recovery _), init; done. }
    destruct (store (history (get_win init r)) (head a - n) 1) as [h|] eqn:Est.
    2: { rewrite store_in_range in Est by (unfold in_range; lia). done. }
    cbn [mbind option_bind]. eexists. split; [done|].
    cbn [fst snd]. rewrite Z.max_l by lia.
    rewrite (proj1 (get_set_win _ _ _ _)), (proj2 (get_set_win _ _ _ _)).
    split; [apply represents_mark; [done|lia|done] | by destruct init].
  - rewrite bool_decide_eq_false_2 by (intros ?%Hpass; lia). cbn [negb].
    match goal with |- context [shift_zeros _ _ ?c _] =>
      edestruct (shift_window_spec (n - head a) L c) as (c1 & h1 & c' & -> & E & _) end;
      [lia | exact Hlen |].
    cbn [mbind option_bind]. rewrite E. cbn [mbind option_bind].
    eexists. split; [done|]. cbn [fst snd]. rewrite Z.max_r by lia.
    rewrite (proj1 (get_set_win _ _ _ _)), (proj2 (get_set_win _ _ _ _)).
    split; [apply represents_shift; [done|lia] | by destruct init].
Qed.

(** A window that was just created or reset: anything is taken next, and no
    number is marked as seen. *)
Definition fresh (L : Z) (w : Window) : Prop :=
  take_any w = true ∧ history w = replicate (Z.to_nat L) 0.

Lemma recover_first L init r n :
  0 < L → fresh L (get_win init r) →
  ∃ r', recover r (n mod 65536) init = Some (true, r') ∧
    represents L (get_win init r') (mk_spec n [n]) ∧
    get_win (negb init) r' = get_win (negb init) r ∧ conf r' = conf r.
Proof.
  intros HL [Hany Hh]. unfold recover. rewrite Hany, Hh.
  destruct (store (replicate (Z.to_nat L) 0) 0 1) as [h|] eqn:Est.
  2: { rewrite store_in_range in Est by (unfold in_range; rewrite length_replicate; lia). done. }
  cbn [mbind option_bind]. eexists. split; [done|].
  rewrite (proj1 (get_set_win _ _ _ _)), (proj2 (get_set_win _ _ _ _)).
  split; [|by destruct init]. split_and!; [done | done |..]; cbn [history head passed].
  - rewrite (store_length _ _ _ _ Est), length_replicate. lia.
  - intros i Hi. destruct (decide (i = 0)) as [->|].
    + rewrite (load_store_eq _ _ _ _ Est), Z.sub_0_r, bool_decide_eq_true_2; [done | constructor].
    + rewrite (load_store_ne _ _ _ _ _ Est) by done.
      rewrite bool_decide_eq_false_2 by (rewrite list_elem_of_singleton; lia).
      unfold load. destruct (Z.leb_spec 0 i); [|lia]. apply lookup_replicate_2. lia.
  - intros x Hx%list_elem_of_singleton. lia.
Qed.

(** ** Streams of packets *)

(** The verdicts of the eliminator on a sequence of packets. *)
Fixpoint elim_run (r : SequenceRecovery) (ps : list Pkt.Packet) : option (list bool * SequenceRecovery) :=
  match ps with
  | [] => Some ([], r)
  | p :: ps =>
      '(b, r) ← seq_recovery r p;
      '(bs, r) ← elim_run r ps;
      Some (b :: bs, r)
  end.

Fixpoint spec_run (L : Z) (a : spec) (ns : list Z) : list bool * spec :=
  match ns with
  | [] => ([], a)
  | n :: ns =>
      let '(b, a) := spec_step L a n in
      let '(bs, a) := spec_run L a ns in
      (b :: bs, a)
  end.

(** The packet [p] is packet number [n] of its sender: the low 16 bits of the
    sequence word carry [n] modulo 2^16; the flag bits are arbitrary. *)
Definition carries (p : Pkt.Packet) (n : Z) : Prop := ntohl (Pkt.sequence p) mod 65536 = n mod 65536.

(** Every arrival is less than half the sequence space away from the highest
    number passed so far. *)
Fixpoint in_reach (L : Z) (a : spec) (ns : list Z) : Prop :=
  match ns with
  | [] => True
  | n :: ns => -32768 <= n - head a < 32768 ∧ in_reach L (spec_step L a n).2 ns
  end.

Lemma seq_recovery_vector r p n :
  algorithm (conf r) = RCVY_Vector → carries p n → seq_recovery r p = recover r (n mod 65536) false.
Proof.
  intros Ha Hc. unfold seq_recovery, vector_seq_recovery. by rewrite Ha, land_ffff, Hc.
Qed.

Lemma elim_run_refines L ps ns r a :
  0 < L < 32768 → algorithm (conf r) = RCVY_Vector → history_length (conf r) = L →
  represents L (win r) a → Forall2 carries ps ns → in_reach L a ns →
  ∃ r', elim_run r ps = Some ((spec_run L a ns).1, r') ∧
    represents L (win r') (spec_run L a ns).2 ∧ conf r' = conf r.
Proof.
  intros HL Ha Hhl HR Hps. revert r a Ha Hhl HR.
  induction Hps as [|p n ps ns Hc _ IH]; intros r a Ha Hhl HR Hreach; [by eexists|].
  destruct Hreach as [Hn Hreach]. cbn [elim_run spec_run].
  rewrite (seq_recovery_vector r p n) by done.
  destruct (recover_refines L false r a n) as (r1 & -> & HR1 & _ & C1); [done..|].
  destruct (spec_step L a n) as [b a1]. cbn [mbind option_bind fst snd] in *.
  destruct (IH r1 a1) as (r2 & -> & HR2 & C2); [by rewrite C1 | by rewrite C1 | done | done |].
  destruct (spec_run L a1 ns) as [bs a2]. exists r2. cbn in *. rewrite C2. done.
Qed.

(** C2: vector recovery refines the specification on unbounded numbers.
    Feed a new or just reset eliminator the packets numbered [n0 :: ns] (their
    words carry the numbers modulo 2^16, wrapping any number of times).  As
    long as no arrival is half the sequence space away, the verdicts are those
    of the specification: the first packet passes, then a packet passes exactly
    when it is within the history length of the highest number passed and was
    not passed before. *)
Theorem vector_refines L r p0 n0 ps ns :
  0 < L < 32768 → algorithm (conf r) = RCVY_Vector → history_length (conf r) = L →
  fresh L (win r) → carries p0 n0 → Forall2 carries ps ns → in_reach L (mk_spec n0 [n0]) ns →
  ∃ r', elim_run r (p0 :: ps) = Some (true :: (spec_run L (mk_spec n0 [n0]) ns).1, r') ∧
    represents L (win r') (spec_run L (mk_spec n0 [n0]) ns).2.
Proof.
  intros HL Ha Hhl Hf Hc0 Hps Hreach. cbn [elim_run].
  rewrite (seq_recovery_vector r p0 n0) by done.
  destruct (recover_first L false r n0) as (r1 & -> & HR1 & _ & C1); [lia | done |].
  cbn [mbind option_bind].
  destruct (elim_run_refines L ps ns r1 (mk_spec n0 [n0])) as (r2 & -> & HR2 & _);
    [done | by rewrite C1 | by rewrite C1 | done..|].
  cbn [mbind option_bind]. eauto.
Qed.

(** Concrete packets for the witnesses. *)
Definition seq_packet (n : Z) : Pkt.Packet :=
  (Pkt.blank_packet [] false) <| Pkt.sequence := htonl (n mod 65536) |>.

Lemma seq_packet_carries n : carries (seq_packet n) n.
Proof.
  unfold carries, seq_packet. cbn [Pkt.sequence modify].
  rewrite ntohl_htonl by (unfold is_u32; lia). lia.
Qed.

Definition test_rec (L : Z) : SequenceRecovery := new_seq_rec "r" RCVY_Vector false false L 100 no_diag.

Lemma vector_refines_witness :
  ∃ r', elim_run (test_rec 4) (map seq_packet [65535; 65537; 65536; 65537; 65600]) =
          Some ([true; true; true; false; false], r') ∧
        represents 4 (win r') (mk_spec 65537 [65536; 65537; 65535]).
Proof.
  apply (vector_refines 4 (test_rec 4) (seq_packet 65535) 65535
           (map seq_packet [65537; 65536; 65537; 65600]) [65537; 65536; 65537; 65600]);
    [lia | done | done | done | apply seq_packet_carries | | ].
  - repeat (constructor; [apply seq_packet_carries|]). constructor.
  - cbn. repeat split; lia || discriminate.
Defined.

(** *** Exactly-once delivery *)

(** The arrivals of several member streams, merged: every packet arrives
    within the history length of the highest number that arrived before. *)
Fixpoint skew_ok (L H : Z) (ns : list Z) : Prop :=
  match ns with
  | [] => True
  | n :: ns => H - L < n <= H + L ∧ skew_ok L (Z.max H n) ns
  end.

(** The numbers of the packets with a positive verdict. *)
Definition delivered (bs : list bool) (ns : list Z) : list Z :=
  (filter (λ x, x.1 = true) (zip bs ns)).*2.

Lemma delivered_cons b bs n ns :
  delivered (b :: bs) (n :: ns) = if b then n :: delivered bs ns else delivered bs ns.
Proof. unfold delivered. cbn [zip zip_with]. rewrite filter_cons. by destruct b. Qed.

Lemma spec_run_once L a ns :
  0 < L → (∀ x, x ∈ passed a → x <= head a) → skew_ok L (head a) ns →
  NoDup (delivered (spec_run L a ns).1 ns) ∧
  (∀ n, n ∈ delivered (spec_run L a ns).1 ns ↔ n ∈ ns ∧ n ∉ passed a) ∧
  (L < 32768 → in_reach L a ns).
Proof.
  intros HL. revert a. induction ns as [|n ns IH]; intros a Hp Hskew.
  { cbn. split_and!; [constructor | | done]. intros n. split; [by intros ?%not_elem_of_nil | by intros [?%not_elem_of_nil _]]. }
  destruct Hskew as [Hn Hskew]. cbn [spec_run in_reach].
  unfold spec_step, spec_accept.
  destruct (Z.ltb_spec (head a - L) n), (Z.leb_spec n (head a + L)); try lia. cbn [andb].
  destruct (decide (n ∈ passed a)) as [Hin|Hin].
  - rewrite bool_decide_eq_true_2 by done. cbn [negb snd].
    rewrite Z.max_l in Hskew by (by apply Hp).
    destruct (IH a Hp Hskew) as (N & E & R).
    destruct (spec_run L a ns) as [bs a']. cbn [fst] in *. rewrite delivered_cons.
    split_and!; [done | | split; [lia | auto]].
    intros m. rewrite E, elem_of_cons. destruct (decide (m = n)); subst; tauto.
  - rewrite bool_decide_eq_false_2 by done. cbn [negb snd].
    destruct (IH (mk_spec (Z.max (head a) n) (n :: passed a))) as (N & E & R); [|done|].
    { cbn. intros x [->|Hx%Hp]%elem_of_cons; lia. }
    destruct (spec_run L (mk_spec (Z.max (head a) n) (n :: passed a)) ns) as [bs a'].
    cbn [fst passed] in *. rewrite delivered_cons. split_and!; [| | split; [lia | auto]].
    + constructor; [|done]. rewrite E, elem_of_cons. tauto.
    + intros m. rewrite elem_of_cons, E, !elem_of_cons. destruct (decide (m = n)); subst; tauto.
Qed.

(** C1: exactly-once delivery.  Merge the copies of a stream that arrive over
    any number of paths, in any interleaving with losses and reordering, such
    that every arrival is within the history length of the highest number so
    far.  A vector eliminator that starts fresh passes every number that
    arrives, and passes it exactly once. *)
Theorem vector_exactly_once L r p0 n0 ps ns :
  0 < L < 32768 → algorithm (conf r) = RCVY_Vector → history_length (conf r) = L →
  fresh L (win r) → carries p0 n0 → Forall2 carries ps ns → skew_ok L n0 ns →
  ∃ bs r', elim_run r (p0 :: ps) = Some (bs, r') ∧
    NoDup (delivered bs (n0 :: ns)) ∧ ∀ n, n ∈ delivered bs (n0 :: ns) ↔ n ∈ n0 :: ns.
Proof.
  intros HL Ha Hhl Hf Hc0 Hps Hskew.
  destruct (spec_run_once L (mk_spec n0 [n0]) ns) as (N & E & R);
    [lia | intros x Hx%list_elem_of_singleton; cbn; lia | done |].
  cbn [elim_run]. rewrite (seq_recovery_vector r p0 n0) by done.
  destruct (recover_first L false r n0) as (r1 & -> & HR1 & _ & C1); [lia | done |].
  cbn [mbind option_bind].
  destruct (elim_run_refines L ps ns r1 (mk_spec n0 [n0])) as (r2 & -> & _);
    [done | by rewrite C1 | by rewrite C1 | done | done | apply R; lia |].
  cbn [mbind option_bind]. do 2 eexists. split; [done|]. rewrite delivered_cons. split.
  - constructor; [|done]. rewrite E. cbn. rewrite list_elem_of_singleton. tauto.
  - intros n. rewrite !elem_of_cons, E. cbn. rewrite list_elem_of_singleton.
    destruct (decide (n = n0)); subst; tauto.
Qed.

(** Two paths, the second two packets late and with one loss on each. *)
Lemma vector_exactly_once_witness :
  ∃ bs r', elim_run (test_rec 4) (map seq_packet [65534; 65535; 65537; 65534; 65538; 65536; 65537]) =
             Some (bs, r') ∧
    NoDup (delivered bs [65534; 65535; 65537; 65534; 65538; 65536; 65537]) ∧
    ∀ n, n ∈ delivered bs [65534; 65535; 65537; 65534; 65538; 65536; 65537]
         ↔ n ∈ [65534; 65535; 65537; 65534; 65538; 65536; 65537].
Proof.
  apply (vector_exactly_once 4 (test_rec 4) (seq_packet 65534) 65534
           (map seq_packet [65535; 65537; 65534; 65538; 65536; 65537])
           [65535; 65537; 65534; 65538; 65536; 65537]);
    [lia | done | done | done | apply seq_packet_carries | | ].
  - repeat (constructor; [apply seq_packet_carries|]). constructor.
  - cbn. lia.
Defined.

End RcvyRefine.
