(* ===== verification/SeqRecovRace.v ===== *)
(** * Sequence recovery and its timer

    [seq_recovery] holds the mutex of the recovery object while it decides on a
    packet.  The timer thread ([reset_thread]: the reset, the latent error
    diagnostics) and the masking operations do not take that mutex, so their
    writes fall between the single accesses of a decision.  Here the decision is
    written access by access; before every access some writes of the others may
    happen.  A field is read and written at once: no torn values.

    Without such writes the decision is that of [SeqRecov] ([no_interference]),
    and the timer and masking steps of [SeqRecov] are sequences of these writes
    ([step_writes]). *)

From S2P Require Import Prelude SeqGen Packet SeqRecov SeqRecovSpec.
Import Gen(FRER_RCVY_SEQ_SPACE, FRER_RESET_FLAG, FRER_INIT_FLAG).
Import Rcvy RcvyWindow.

Module RcvyRace.

(** ** The writes of the timer thread and of the masking operations *)

(** The values they write to fields that a decision does not read, or that they
    compute from a value a decision may have changed since, are arbitrary. *)
Inductive Write :=
  | WTicks (t : Z)                     (* remaining_ticks *)
  | WResets (n : Z)                    (* seq_recovery_resets *)
  | WTakeAny                           (* take_any = true *)
  | WRecvSeq (init : bool)             (* recv_seq, init_recv_seq = 65535 *)
  | WHistory (init : bool) (i : Z)     (* an octet of the memset of a history *)
  | WInitTakeAny                       (* init_take_any = true *)
  | WLatent (l : Latent)               (* the diagnostic counters *)
  | WGuard                             (* skip_loss_after_reset_guard *)
  | WLossMax                           (* consecutive_loss_max = 0 *)
  | WMips (pre : option (gmap string bool)) (post : option string).

Definition apply_write (w : Write) (r : SequenceRecovery) : option SequenceRecovery :=
  match w with
  | WTicks t => Some (r <| remaining_ticks := t |>)
  | WResets n => Some (r <| seq_recovery_resets := n |>)
  | WTakeAny => Some (r <| win := (win r) <| take_any := true |> |>)
  | WRecvSeq init => Some (set_win init ((get_win init r) <| recv_seq := FRER_RCVY_SEQ_SPACE - 1 |>) r)
  | WHistory init i => h ← store (history (get_win init r)) i 0; Some (set_win init ((get_win init r) <| history := h |>) r)
  | WInitTakeAny => Some (r <| init_win := (init_win r) <| take_any := true |> |>)
  | WLatent l => Some (r <| lat := l |>)
  | WGuard => Some (r <| cnt := (cnt r) <| skip_loss_after_reset_guard := i32 (history_length (conf r) - 1) |> |>)
  | WLossMax => Some (r <| cnt := (cnt r) <| consecutive_loss_max := 0 |> |>)
  | WMips pre post => Some (r <| preAutoMIP := pre |> <| postAutoMIP := post |>)
  end.

Fixpoint apply_writes (ws : list Write) (r : SequenceRecovery) : option SequenceRecovery :=
  match ws with [] => Some r | w :: ws => r ← apply_write w r; apply_writes ws r end.

(** The [memset] ends at the history length. *)
Definition write_ok (hl : Z) (w : Write) : Prop :=
  match w with WHistory _ i => 0 <= i < hl | _ => True end.

(** ** A decision, access by access *)

(** What the others write before each of the next accesses. *)
Definition Sched := list (list Write).

Definition Race (A : Type) : Type := SequenceRecovery → Sched → option (A * SequenceRecovery * Sched).

#[global] Instance race_ret : MRet Race := λ A a r sc, Some (a, r, sc).
#[global] Instance race_bind : MBind Race := λ A B f m r sc,
  match m r sc with Some (a, r, sc) => f a r sc | None => None end.

Definition access {A} (f : SequenceRecovery → option (A * SequenceRecovery)) : Race A := λ r sc,
  match apply_writes (default [] (head sc)) r with
  | Some r => match f r with Some (a, r) => Some (a, r, tail sc) | None => None end
  | None => None
  end.

Definition read {A} (f : SequenceRecovery → A) : Race A := access (λ r, Some (f r, r)).
Definition write (f : SequenceRecovery → SequenceRecovery) : Race unit := access (λ r, Some (tt, f r)).
Definition read_history (init : bool) (i : Z) : Race Z :=
  access (λ r, v ← load (history (get_win init r)) i; Some (v, r)).
Definition write_history (init : bool) (i v : Z) : Race unit :=
  access (λ r, h ← store (history (get_win init r)) i v; Some (tt, set_win init ((get_win init r) <| history := h |>) r)).
Definition write_win (init : bool) (f : Window → Window) : Race unit := write (λ r, set_win init (f (get_win init r)) r).
Definition write_cnt (f : Counters → Counters) : Race unit := write (λ r, r <| cnt := f (cnt r) |>).

Definition pass : Race unit := write_cnt (λ c, c <| passed_packets := i32 (passed_packets c + 1) |>).
Definition discard : Race unit := write_cnt (λ c, c <| discarded_packets := i32 (discarded_packets c + 1) |>).
Definition out_of_order : Race unit := write_cnt (λ c, c <| out_of_order_packets := i32 (out_of_order_packets c + 1) |>).

(** [if (rec->individual_recovery) reset_ticks(rec); return false] *)
Definition race_refuse : Race bool :=
  b ← read (λ r, individual_recovery (conf r));
  if b : bool then _ ← write reset_ticks; mret false else mret false.

Definition race_accept : Race bool := _ ← pass; _ ← write reset_ticks; mret true.

Fixpoint race_shift_loop (init : bool) (i : nat) : Race unit :=
  match i with
  | O => mret tt
  | S j => v ← read_history init (Z.of_nat j); _ ← write_history init (Z.of_nat i) v; race_shift_loop init j
  end.

Definition race_count_shift (oldest : Z) : Race unit :=
  if oldest =? 0 then
    guard ← read (λ r, skip_loss_after_reset_guard (cnt r));
    if guard =? 0 then
      _ ← write_cnt (λ c, c <| lost_packets := i32 (lost_packets c + 1) |>);
      _ ← write_cnt (λ c, c <| consecutive_loss := i32 (consecutive_loss c + 1) |>);
      loss ← read (λ r, consecutive_loss (cnt r));
      most ← read (λ r, consecutive_loss_max (cnt r));
      if loss >? most then write_cnt (λ c, c <| consecutive_loss_max := loss |>) else mret tt
    else
      guard ← read (λ r, skip_loss_after_reset_guard (cnt r));
      write_cnt (λ c, c <| skip_loss_after_reset_guard := i32 (guard - 1) |>)
  else write_cnt (λ c, c <| consecutive_loss := 0 |>).

Definition race_shift_seq_history (init : bool) (new_zero : Z) : Race unit :=
  hl ← read (λ r, history_length (conf r));
  oldest ← read_history init (hl - 1);
  _ ← race_count_shift oldest;
  _ ← race_shift_loop init (Z.to_nat (hl - 1));
  write_history init 0 new_zero.

Fixpoint race_shift_zeros (init : bool) (n : nat) : Race unit :=
  match n with O => mret tt | S n => _ ← race_shift_seq_history init 0; race_shift_zeros init n end.

Definition race_recover (packet_seq : Z) (init : bool) : Race bool :=
  recovery_seq ← read (λ r, recv_seq (get_win init r));
  hl ← read (λ r, history_length (conf r));
  let delta := calc_delta packet_seq recovery_seq in
  any ← read (λ r, take_any (get_win init r));
  if any : bool then
    _ ← write_win init (λ w, w <| take_any := false |>);
    _ ← write_history init 0 1;
    _ ← write_win init (λ w, w <| recv_seq := packet_seq |>);
    race_accept
  else if (delta >? hl) || (delta <=? - hl) then
    _ ← write_cnt (λ c, c <| rogue_packets := i32 (rogue_packets c + 1) |>);
    _ ← discard;
    race_refuse
  else if delta <=? 0 then
    seen ← read_history init (- delta);
    if seen =? 0 then
      _ ← write_history init (- delta) 1;
      _ ← out_of_order;
      race_accept
    else _ ← discard; race_refuse
  else
    _ ← (if negb (delta =? 1) then out_of_order else mret tt);
    _ ← race_shift_zeros init (Z.to_nat (delta - 1));
    _ ← race_shift_seq_history init 1;
    _ ← write_win init (λ w, w <| recv_seq := packet_seq |>);
    race_accept.

Definition race_match_seq_recovery (s : Z) : Race bool :=
  let s := Z.land s 65535 in
  any ← read (λ r, take_any (win r));
  if any : bool then
    _ ← write_win false (λ w, w <| take_any := false |>);
    _ ← write_win false (λ w, w <| recv_seq := s |>);
    race_accept
  else
    recovery_seq ← read (λ r, recv_seq (win r));
    let delta := Z.land (s - recovery_seq) (FRER_RCVY_SEQ_SPACE - 1) in
    if delta =? 0 then _ ← discard; race_refuse
    else
      _ ← (if negb (delta =? 1) then out_of_order else mret tt);
      _ ← write_win false (λ w, w <| recv_seq := s |>);
      race_accept.

(** [take_any] or [init_take_any] becomes true when the number is far from the
    newest one. *)
Definition race_reopen (init : bool) (s : Z) : Race unit :=
  recovery_seq ← read (λ r, recv_seq (get_win init r));
  hl ← read (λ r, history_length (conf r));
  let delta := calc_delta s recovery_seq in
  if (delta >? hl) || (delta <=? - hl * 2) then write_win init (λ w, w <| take_any := true |>) else mret tt.

Definition race_seamless_seq_recovery (s : Z) : Race bool :=
  let flags := Z.land s 4294901760 in
  let s := Z.land s 65535 in
  c ← read conf;
  let hl := history_length c in
  let init_pkt := negb (Z.land flags FRER_INIT_FLAG =? 0) in
  let reset_pkt := negb (Z.land flags FRER_RESET_FLAG =? 0) in
  if use_reset_flag c && use_init_flag c && init_pkt then
    _ ← (if reset_pkt then race_reopen true s else mret tt);
    _ ← (if (s >=? FRER_RCVY_SEQ_SPACE - 3 * hl) && (s <? FRER_RCVY_SEQ_SPACE - hl)
         then write_win false (λ w, w <| take_any := true |>) else mret tt);
    race_recover s true
  else
    _ ← (if use_reset_flag c && reset_pkt then race_reopen false s else mret tt);
    race_recover s false.

Definition race_seq_recovery (p : Pkt.Packet) : Race bool :=
  let s := ntohl (Pkt.sequence p) in
  algo ← read (λ r, algorithm (conf r));
  match algo with
  | RCVY_Vector => race_recover (Z.land s 65535) false
  | RCVY_SeamlessVector => race_seamless_seq_recovery s
  | RCVY_Match => race_match_seq_recovery s
  end.

(** ** Without interference *)

Ltac race := unfold mbind, race_bind, mret, race_ret.

Lemma read_alone {A} (f : SequenceRecovery → A) r : read f r [] = Some (f r, r, []).
Proof. done. Qed.
Lemma write_alone f r : write f r [] = Some (tt, f r, []).
Proof. done. Qed.

Lemma bind_alone {A B} (m : Race A) (f : A → Race B) r a r' :
  m r [] = Some (a, r', []) → (m ≫= f) r [] = f a r' [].
Proof. race. by intros ->. Qed.

Lemma set_get_win init w r : get_win init (set_win init w r) = w.
Proof. by destruct init. Qed.
Lemma set_set_win init w w' r : set_win init w (set_win init w' r) = set_win init w r.
Proof. by destruct init. Qed.
Lemma set_win_same init r : set_win init (get_win init r) r = r.
Proof. by destruct init, r. Qed.
Lemma history_set (w : Window) h : history (w <| history := h |>) = h.
Proof. done. Qed.
Lemma set_win_hist init w r : set_win init (w <| history := history w |>) r = set_win init w r.
Proof. by destruct w. Qed.

Lemma shift_loop_alone init i r :
  race_shift_loop init i r [] =
    match shift_loop i (history (get_win init r)) with
    | Some h => Some (tt, set_win init ((get_win init r) <| history := h |>) r, [])
    | None => None
    end.
Proof.
  revert r. induction i as [|j IH]; intros r; cbn [race_shift_loop shift_loop].
  - race. by rewrite set_win_hist, set_win_same.
  - race. unfold read_history, access. cbn [head default apply_writes tail]. race. unfold option_bind.
    destruct (load _ (Z.of_nat j)) as [v|]; [|done]. unfold write_history, access. cbn [head default apply_writes tail]. race. unfold option_bind.
    destruct (store _ (Z.of_nat (S j)) v) as [h|]; [|done]. rewrite IH, set_get_win, history_set.
    destruct (shift_loop j h) as [h'|]; [|done]. by rewrite set_set_win.
Qed.

Lemma count_shift_alone oldest r :
  race_count_shift oldest r [] = Some (tt, r <| cnt := count_shift (cnt r) oldest |>, []).
Proof.
  unfold race_count_shift, count_shift. destruct (oldest =? 0); [|done]. race. rewrite read_alone.
  destruct (_ =? 0); [|done]. unfold write_cnt. rewrite !write_alone, !read_alone. cbn. by destruct (_ >? _).
Qed.

Lemma shift_seq_history_alone init z r :
  race_shift_seq_history init z r [] =
    match shift_seq_history (history_length (conf r)) (cnt r) (history (get_win init r)) z with
    | Some (c, h) => Some (tt, set_win init ((get_win init r) <| history := h |>) (r <| cnt := c |>), [])
    | None => None
    end.
Proof.
  unfold race_shift_seq_history, shift_seq_history. rewrite (bind_alone _ _ _ _ _ (read_alone _ _)).
  race. unfold read_history, access. cbn [head default apply_writes tail]. race. unfold option_bind.
  destruct (load _ _) as [o|]; [|done]. rewrite count_shift_alone, shift_loop_alone.
  replace (get_win init (r <| cnt := count_shift (cnt r) o |>)) with (get_win init r) by by destruct init.
  destruct (shift_loop _ _) as [h|]; [|done]. unfold write_history, access. cbn [head default apply_writes tail]. race. unfold option_bind.
  rewrite set_get_win, history_set. destruct (store h 0 z) as [h'|]; [|done]. by rewrite set_set_win.
Qed.

Lemma shift_zeros_alone init n r :
  race_shift_zeros init n r [] =
    match shift_zeros n (history_length (conf r)) (cnt r) (history (get_win init r)) with
    | Some (c, h) => Some (tt, set_win init ((get_win init r) <| history := h |>) (r <| cnt := c |>), [])
    | None => None
    end.
Proof.
  revert r. induction n as [|n IH]; intros r; cbn [race_shift_zeros shift_zeros].
  - race. rewrite set_win_hist. by destruct init, r.
  - race. unfold option_bind. rewrite shift_seq_history_alone. destruct (shift_seq_history _ _ _ 0) as [[c h]|]; [|done]. rewrite IH.
    rewrite set_get_win, history_set. replace (conf (set_win _ _ _)) with (conf r) by by destruct init.
    replace (cnt (set_win _ _ _)) with c by by destruct init. destruct (shift_zeros n _ c h) as [[c' h']|]; [|done]. by destruct init.
Qed.

(** The result of a decision in the model of [SeqRecov]. *)
Definition alone (x : option (bool * SequenceRecovery)) : option (bool * SequenceRecovery * Sched) :=
  match x with Some (b, r) => Some (b, r, []) | None => None end.

Lemma accept_alone r :
  race_accept r [] = Some (true, reset_ticks (r <| cnt := (cnt r) <| passed_packets := i32 (passed_packets (cnt r) + 1) |> |>), []).
Proof. done. Qed.

Lemma refuse_alone r :
  race_refuse r [] = Some (false, if individual_recovery (conf r) then reset_ticks r else r, []).
Proof. unfold race_refuse. rewrite (bind_alone _ _ _ _ _ (read_alone _ _)). by destruct (individual_recovery _). Qed.

Lemma recover_alone s init r : race_recover s init r [] = alone (recover r s init).
Proof.
  unfold race_recover, recover. rewrite !(bind_alone _ _ _ _ _ (read_alone _ _)). cbv zeta.
  destruct (take_any _) eqn:Hany.
  { unfold write_win, write_history. race. rewrite write_alone. unfold access. cbn [head default apply_writes tail].
    rewrite set_get_win. change (history (?w <| take_any := false |>)) with (history w). unfold mbind, option_bind.
    destruct (store _ 0 1) as [h|]; [|done]. rewrite write_alone, accept_alone. by destruct init. }
  destruct (_ || _).
  { unfold write_cnt, discard. rewrite (bind_alone _ _ _ _ _ (write_alone _ _)). unfold write_cnt.
    rewrite (bind_alone _ _ _ _ _ (write_alone _ _)), refuse_alone. done. }
  destruct (_ <=? 0).
  { race. unfold read_history, access. cbn [head default apply_writes tail]. unfold mbind, option_bind.
    destruct (load _ _) as [v|]; [|done]. destruct (v =? 0); [|unfold discard, write_cnt; by rewrite write_alone, refuse_alone].
    unfold write_history, access. cbn [head default apply_writes tail]. unfold mbind, option_bind.
    destruct (store _ _ 1) as [h|]; [|done]. unfold out_of_order, write_cnt. rewrite write_alone, accept_alone. by destruct init. }
  set (c0 := if negb _ then _ else cnt r).
  rewrite (bind_alone _ _ _ tt (r <| cnt := c0 |>)) by (unfold c0; destruct (negb _); [done | by destruct r]).
  race. rewrite shift_zeros_alone. change (conf (r <| cnt := c0 |>)) with (conf r). change (cnt (r <| cnt := c0 |>)) with c0.
  replace (get_win init (r <| cnt := c0 |>)) with (get_win init r) by by destruct init. unfold option_bind.
  destruct (shift_zeros _ _ _ _) as [[c h]|]; [|done]. rewrite shift_seq_history_alone, set_get_win, history_set.
  replace (conf (set_win _ _ _)) with (conf r) by by destruct init. replace (cnt (set_win _ _ _)) with c by by destruct init.
  destruct (shift_seq_history _ c h 1) as [[c' h']|]; [|done]. unfold write_win. rewrite write_alone, accept_alone.
  revert Hany. destruct r as [? ? [] [] ? ? ? ? ? ? ?], init; cbn; by intros ->.
Qed.

Lemma match_alone s r : race_match_seq_recovery s r [] = Some (match_seq_recovery r s, []).
Proof.
  unfold race_match_seq_recovery, match_seq_recovery. cbv zeta. rewrite (bind_alone _ _ _ _ _ (read_alone _ _)).
  destruct (take_any (win r)) eqn:Hany; [done|]. rewrite (bind_alone _ _ _ _ _ (read_alone _ _)).
  destruct (_ =? 0); [unfold discard, write_cnt; by rewrite (bind_alone _ _ _ _ _ (write_alone _ _)), refuse_alone|].
  by destruct (negb _).
Qed.

Lemma reopen_alone init s r :
  race_reopen init s r [] =
    let delta := calc_delta s (recv_seq (get_win init r)) in let hl := history_length (conf r) in
    Some (tt, if (delta >? hl) || (delta <=? - hl * 2) then set_win init ((get_win init r) <| take_any := true |>) r else r, []).
Proof. unfold race_reopen. rewrite !(bind_alone _ _ _ _ _ (read_alone _ _)). cbv zeta. by destruct (_ || _). Qed.

Lemma seamless_alone s r : race_seamless_seq_recovery s r [] = alone (seamless_seq_recovery r s).
Proof.
  unfold race_seamless_seq_recovery, seamless_seq_recovery. cbv zeta. rewrite (bind_alone _ _ _ _ _ (read_alone _ _)).
  set (s' := Z.land s 65535). set (ip := negb (Z.land (Z.land s _) FRER_INIT_FLAG =? 0)). set (rp := negb _).
  destruct (use_reset_flag (conf r) && use_init_flag (conf r) && ip).
  - destruct rp; [rewrite (bind_alone _ _ _ _ _ (reopen_alone _ _ _)); cbv zeta; cbn [get_win set_win]; destruct (_ || _)|];
      destruct ((s' >=? _) && _); race; unfold write_win; rewrite ?write_alone; apply recover_alone.
  - destruct (use_reset_flag (conf r) && rp); cbn [andb]; race; [|apply recover_alone].
    rewrite reopen_alone. cbn [get_win set_win]. destruct (_ || _); apply recover_alone.
Qed.

(** A decision that nobody interferes with is the one of [SeqRecov]. *)
Lemma no_interference p r : race_seq_recovery p r [] = alone (seq_recovery r p).
Proof.
  unfold race_seq_recovery, seq_recovery. rewrite (bind_alone _ _ _ _ _ (read_alone _ _)).
  destruct (algorithm (conf r)); [rewrite match_alone; by destruct (match_seq_recovery _ _) | apply recover_alone | apply seamless_alone].
Qed.

(** ** The other steps are writes *)

Definition written (r r' : SequenceRecovery) : Prop :=
  ∃ ws, Forall (write_ok (history_length (conf r))) ws ∧ apply_writes ws r = Some r'.

Lemma apply_write_conf w r r' : apply_write w r = Some r' → conf r' = conf r.
Proof.
  destruct w as [| | |i|i k| | | | |]; cbn; try by intros [= <-].
  - intros [= <-]. by destruct i.
  - unfold mbind, option_bind. destruct (store _ _ _); [|done]. intros [= <-]. by destruct i.
Qed.

Lemma apply_writes_conf ws r r' : apply_writes ws r = Some r' → conf r' = conf r.
Proof.
  revert r. induction ws as [|w ws IH]; intros r; cbn; [by intros [= <-]|]. unfold mbind, option_bind.
  destruct (apply_write w r) as [r1|] eqn:E; [|done]. intros ->%IH. by eapply apply_write_conf.
Qed.

Lemma apply_writes_app ws ws' r r1 : apply_writes ws r = Some r1 → apply_writes (ws ++ ws') r = apply_writes ws' r1.
Proof.
  revert r. induction ws as [|w ws IH]; intros r; cbn; [by intros [= <-]|]. unfold mbind, option_bind.
  destruct (apply_write w r) as [r2|]; [|done]. apply IH.
Qed.

#[global] Instance written_preorder : PreOrder written.
Proof.
  split; [intros r; by exists []|]. intros r1 r2 r3 (ws & H1 & E1) (ws' & H2 & E2). exists (ws ++ ws').
  rewrite (apply_writes_conf _ _ _ E1) in H2. rewrite Forall_app, (apply_writes_app _ _ _ _ E1). done.
Qed.

Lemma written_one w r r' : write_ok (history_length (conf r)) w → apply_write w r = Some r' → written r r'.
Proof. intros Hw E. exists [w]. cbn. rewrite E. split; [by constructor | done]. Qed.

Lemma cleared_next (h : mem) n :
  (n < length h)%nat → <[n := 0]> (replicate n 0 ++ drop n h) = replicate (S n) 0 ++ drop (S n) h.
Proof.
  intros Hn. rewrite insert_app_r_alt, length_replicate, Nat.sub_diag by (rewrite length_replicate; lia).
  destruct (lookup_lt_is_Some_2 h n Hn) as [x Hx]. rewrite (drop_S h x n Hx). cbn [insert list_insert].
  by rewrite replicate_S_end, <- app_assoc.
Qed.

(** Clearing a history from its start up to [n]. *)
Lemma clear_writes init r n :
  Z.of_nat n <= Z.of_nat (length (history (get_win init r))) →
  apply_writes (WHistory init <$> seqZ 0 (Z.of_nat n)) r =
    Some (set_win init ((get_win init r) <| history := replicate n 0 ++ drop n (history (get_win init r)) |>) r).
Proof.
  intros Hn. induction n as [|n IH].
  - change (replicate 0 0 ++ drop 0 ?h) with (drop 0 h). by rewrite drop_0, set_win_hist, set_win_same.
  - replace (Z.of_nat (S n)) with (Z.of_nat n + 1) by lia. rewrite seqZ_app, fmap_app by lia.
    erewrite apply_writes_app by (apply IH; lia). replace (seqZ (0 + Z.of_nat n) 1) with [Z.of_nat n] by (unfold seqZ; cbn; f_equal; lia).
    cbn [fmap list_fmap apply_writes apply_write]. rewrite set_get_win, history_set.
    set (h := history (get_win init r)) in *. rewrite store_in_range by (unfold in_range; rewrite length_app, length_replicate, length_drop; lia).
    unfold mbind, option_bind. rewrite set_set_win. rewrite Nat2Z.id, cleared_next by lia. done.
Qed.

Lemma clear_written init r :
  rec_wf r → written r (set_win init ((get_win init r) <| history := clear_history (history_length (conf r)) |>) r).
Proof.
  intros Hwf. pose proof (rec_wf_get init r Hwf) as Hlen. destruct Hwf as (Hhl & _).
  exists (WHistory init <$> seqZ 0 (history_length (conf r))). split.
  - apply Forall_fmap, Forall_forall. intros i Hi. cbn. apply elem_of_seqZ in Hi. lia.
  - rewrite <- Hlen, clear_writes by lia. unfold clear_history. rewrite drop_all, app_nil_r, Nat2Z.id. done.
Qed.

Lemma vector_reset_written r : rec_wf r → written r (vector_seq_recovery_reset r).
Proof.
  intros Hwf. transitivity (set_win false ((win r) <| recv_seq := FRER_RCVY_SEQ_SPACE - 1 |>) r).
  - by apply (written_one (WRecvSeq false)).
  - pose proof (clear_written false (set_win false ((win r) <| recv_seq := FRER_RCVY_SEQ_SPACE - 1 |>) r)) as H. exact (H Hwf).
Qed.

Lemma reset_written r : rec_wf r → written r (seq_recovery_reset r).
Proof.
  intros Hwf. set (r1 := r <| seq_recovery_resets := i32 (seq_recovery_resets r + 1) |> <| win := (win r) <| take_any := true |> |>).
  assert (written r r1) as H1.
  { etransitivity; [by apply (written_one (WResets (i32 (seq_recovery_resets r + 1)))) | by apply (written_one WTakeAny)]. }
  assert (rec_wf r1) as Hwf1 by done. transitivity r1; [done|]. unfold seq_recovery_reset. fold r1.
  destruct (algorithm (conf r1)); [done | by apply vector_reset_written |].
  pose proof (vector_reset_written r1 Hwf1) as H2. set (r2 := vector_seq_recovery_reset r1) in *. transitivity r2; [done|].
  assert (rec_wf r2) as Hwf2.
  { destruct Hwf1 as (? & ? & ?). unfold r2, rec_wf, vector_seq_recovery_reset. cbn. split_and!; try done. unfold clear_history. rewrite length_replicate. cbn in *. lia. }
  etransitivity; [by apply (clear_written true r2)|]. etransitivity; [by apply (written_one (WRecvSeq true))|].
  by apply (written_one WInitTakeAny).
Qed.

(** The fields outside the windows. *)
Definition touch (t n : Z) (l : Latent) (g m : bool) (pre : option (gmap string bool)) (post : option string) (r : SequenceRecovery) : SequenceRecovery :=
  let c := cnt r in
  let c := if g then c <| skip_loss_after_reset_guard := i32 (history_length (conf r) - 1) |> else c in
  let c := if m then c <| consecutive_loss_max := 0 |> else c in
  mk_rec (name r) (conf r) (win r) (init_win r) c l t n (oam_session_id r) pre post.

Lemma touch_written t n l g m pre post r : written r (touch t n l g m pre post r).
Proof.
  exists ([WTicks t; WResets n; WLatent l; WMips pre post] ++ (if g then [WGuard] else []) ++ (if m then [WLossMax] else [])).
  split; [by destruct g, m; repeat constructor | by destruct g, m, r].
Qed.

Ltac touched :=
  match goal with |- written ?r _ =>
    first [ reflexivity | apply (touch_written _ _ _ false false _ _ r) | apply (touch_written _ _ _ true false _ _ r)
          | apply (touch_written _ _ _ false true _ _ r) | apply (touch_written _ _ _ true true _ _ r) ]
  end.

Lemma diagnostic_written r al r' : recovery_diagnostic r = Some (al, r') → written r r'.
Proof.
  unfold recovery_diagnostic, diag_window_alerts, diag_update. cbv zeta. unfold mbind, option_bind. intros H.
  repeat case_match; simplify_eq; touched.
Qed.

Lemma latent_reset_written r : written r (latent_error_reset r).
Proof. touched. Qed.

Lemma tick_latent_written r al r' : tick_latent r = Some (al, r') → written r r'.
Proof.
  unfold tick_latent. cbv zeta. set (r1 := r <| lat := _ |>). assert (written r r1) as H1 by touched.
  set (r2 := if _ && _ then _ else r1). assert (written r1 r2) as H2 by (unfold r2; destruct (_ && _); [touched | done]).
  set (r3 := r2 <| lat := _ |>). assert (written r2 r3) as H3 by touched. intros H.
  transitivity r1; [done|]. transitivity r2; [done|]. transitivity r3; [done|]. clearbody r1 r2 r3.
  destruct (_ >=? _); [|by simplify_eq]. unfold mbind, option_bind in H.
  destruct (latent_error_test r3) as [[al' r4]|] eqn:E; simplify_eq. transitivity r4; [|touched].
  unfold latent_error_test in E. cbv zeta in E. destruct (_ && _); [|by simplify_eq].
  apply diagnostic_written in E. etransitivity; [|exact E]. destruct (_ >? _); touched.
Qed.

(** A step of the timer thread or a masking operation is a sequence of writes. *)
Lemma step_writes r e r' : rec_wf r → (∀ p, e ≠ EvPacket p) → rec_step r e r' → written r r'.
Proof.
  intros Hwf Hne Hs. destruct Hs as [r p b r' H|r al r' H|r m|r m|r m b ev r' H|r m b ev r' H].
  - by destruct (Hne p).
  - unfold reset_thread_tick, mbind, option_bind in H. destruct (decrement_ticks r) as [e r1] eqn:D. destruct (e && _); [done|].
    assert (written r r1 ∧ rec_wf r1) as [H1 Hwf1].
    { unfold decrement_ticks in D. destruct (_ =? 0); simplify_eq; [by split | split; [touched | done]]. }
    transitivity r1; [done|]. destruct (tick_latent _) as [[al1 r2]|] eqn:T; simplify_eq. apply tick_latent_written in T.
    destruct e; [|done]. transitivity (seq_recovery_reset r1); [by apply reset_written | done].
  - touched.
  - unfold seq_rec_register_postAutoMIP. destruct (postAutoMIP r); [done | touched].
  - unfold seq_rec_path_masked in H. repeat case_match; simplify_eq; touched.
  - unfold seq_rec_path_unmasked in H. repeat case_match; simplify_eq; touched.
Qed.

(** ** Safety under interference *)

Definition win_sane (hl : Z) (w : Window) : Prop :=
  Z.of_nat (length (history w)) = hl ∧ Forall (λ x, x = 0 ∨ x = 1) (history w) ∧ is_u16 (recv_seq w).

(** Both histories have the configured length and hold zeros and ones, and the
    newest numbers are 16-bit numbers. *)
Definition sane (r : SequenceRecovery) : Prop :=
  0 < history_length (conf r) ∧ win_sane (history_length (conf r)) (win r) ∧ win_sane (history_length (conf r)) (init_win r).

Lemma sane_set_win init w r : sane r → win_sane (history_length (conf r)) w → sane (set_win init w r).
Proof. intros (H0 & H1 & H2) Hw. destruct init; done. Qed.

Lemma sane_get_win init r : sane r → win_sane (history_length (conf r)) (get_win init r).
Proof. intros (H0 & H1 & H2). by destruct init. Qed.

Lemma sane_store init i v r :
  sane r → 0 <= i < history_length (conf r) → v = 0 ∨ v = 1 →
  ∃ h, store (history (get_win init r)) i v = Some h ∧ sane (set_win init ((get_win init r) <| history := h |>) r).
Proof.
  intros Hs Hi Hv. pose proof (sane_get_win init r Hs) as (Hl & Hall & Hseq).
  rewrite store_in_range by (unfold in_range; lia). eexists. split; [done|]. apply sane_set_win; [done|].
  split_and!; [cbn; by rewrite length_insert | by apply Forall_insert | done].
Qed.

Lemma apply_write_sane w r :
  sane r → write_ok (history_length (conf r)) w → ∃ r', apply_write w r = Some r' ∧ sane r' ∧ conf r' = conf r.
Proof.
  intros Hs Hok. destruct w as [| | |i|i k| | | | |]; cbn [apply_write].
  4: { eexists; split; [done|]; split; [|by destruct i]. apply sane_set_win; [done|]. by destruct (sane_get_win i r Hs) as (? & ? & _). }
  4: { destruct (sane_store i k 0 r Hs Hok) as (h & -> & H); [by left|]. eexists; split; [done|]; split; [done | by destruct i]. }
  all: eexists; split; [done|]; split; done.
Qed.

Lemma apply_writes_sane ws r :
  sane r → Forall (write_ok (history_length (conf r))) ws → ∃ r', apply_writes ws r = Some r' ∧ sane r' ∧ conf r' = conf r.
Proof.
  revert r. induction ws as [|w ws IH]; intros r Hs Hall; [by exists r|]. apply Forall_cons in Hall as [Hw Hws].
  destruct (apply_write_sane w r Hs Hw) as (r1 & E & Hs1 & Hc). cbn. rewrite E. cbn. rewrite <- Hc in Hws.
  destruct (IH r1 Hs1 Hws) as (r2 & E2 & Hs2 & Hc2). exists r2. by rewrite Hc2.
Qed.

Section triples.
Context (C : Conf).
#[local] Abbreviation hl := (history_length C).

(** [m] stays inside the histories whatever the others write, and its result
    satisfies [Q]. *)
Definition safe {A} (m : Race A) (Q : A → Prop) : Prop :=
  ∀ r sc, sane r → conf r = C → Forall (Forall (write_ok hl)) sc →
  ∃ a r' sc', m r sc = Some (a, r', sc') ∧ sane r' ∧ conf r' = C ∧ Forall (Forall (write_ok hl)) sc' ∧ Q a.

Lemma safe_ret {A} (a : A) (Q : A → Prop) : Q a → safe (mret a) Q.
Proof. intros HQ r sc Hs Hc Hsc. by exists a, r, sc. Qed.

Lemma safe_bind {A B} (m : Race A) (f : A → Race B) P Q : safe m P → (∀ a, P a → safe (f a) Q) → safe (m ≫= f) Q.
Proof.
  intros Hm Hf r sc Hs Hc Hsc. destruct (Hm r sc Hs Hc Hsc) as (a & r1 & sc1 & E & Hs1 & Hc1 & Hsc1 & HP).
  race. rewrite E. by apply (Hf a HP).
Qed.

Lemma safe_access {A} f (Q : A → Prop) :
  (∀ r, sane r → conf r = C → ∃ a r', f r = Some (a, r') ∧ sane r' ∧ conf r' = C ∧ Q a) → safe (access f) Q.
Proof.
  intros Hf r sc Hs Hc Hsc. unfold access.
  destruct (apply_writes_sane (default [] (head sc)) r Hs) as (r1 & -> & Hs1 & Hc1).
  { rewrite Hc. destruct Hsc; [constructor | done]. }
  rewrite Hc in Hc1. destruct (Hf r1 Hs1 Hc1) as (a & r2 & -> & Hs2 & Hc2 & HQ).
  exists a, r2, (tail sc). split_and!; try done. by destruct Hsc.
Qed.

Lemma safe_read {A} (f : SequenceRecovery → A) (Q : A → Prop) : (∀ r, sane r → conf r = C → Q (f r)) → safe (read f) Q.
Proof. intros H. apply safe_access. intros r Hs Hc. exists (f r), r. auto. Qed.

Lemma safe_conf {A} (f : Conf → A) : safe (read (λ r, f (conf r))) (λ a, a = f C).
Proof. apply safe_read. by intros r _ ->. Qed.

Lemma safe_any {A} (f : SequenceRecovery → A) : safe (read f) (λ _, True).
Proof. by apply safe_read. Qed.

Lemma safe_cnt f : safe (write_cnt f) (λ _, True).
Proof. apply safe_access. intros r Hs Hc. eexists _, _. split; [done|]. done. Qed.

Lemma safe_ticks : safe (write reset_ticks) (λ _, True).
Proof. apply safe_access. intros r Hs Hc. eexists _, _. split; [done|]. done. Qed.

Lemma safe_win init f : (∀ w, win_sane hl w → win_sane hl (f w)) → safe (write_win init f) (λ _, True).
Proof.
  intros H. apply safe_access. intros r Hs Hc. eexists _, _. split; [done|]. split; [|by destruct init].
  apply sane_set_win; [done|]. rewrite Hc. apply H. rewrite <- Hc. by apply sane_get_win.
Qed.

Lemma safe_read_history init i : 0 <= i < hl → safe (read_history init i) (λ v, v = 0 ∨ v = 1).
Proof.
  intros Hi. apply safe_access. intros r Hs Hc. pose proof (sane_get_win init r Hs) as (Hl & Hall & _). rewrite Hc in Hl.
  destruct (load_in_range (history (get_win init r)) i) as [v Hv]; [unfold in_range; lia|]. rewrite Hv. exists v, r. split_and!; try done.
  unfold load in Hv. destruct (0 <=? i); [|done]. by eapply Forall_lookup_1 in Hall.
Qed.

Lemma safe_write_history init i v : 0 <= i < hl → v = 0 ∨ v = 1 → safe (write_history init i v) (λ _, True).
Proof.
  intros Hi Hv. apply safe_access. intros r Hs Hc. rewrite <- Hc in Hi. destruct (sane_store init i v r Hs Hi Hv) as (h & -> & H).
  eexists _, _. split; [done|]. split; [done|]. by destruct init.
Qed.

Lemma safe_if {A} (b : bool) (m m' : Race A) Q : safe m Q → safe m' Q → safe (if b then m else m') Q.
Proof. by destruct b. Qed.

Lemma safe_accept : safe race_accept (λ _, True).
Proof. unfold race_accept, pass. repeat (eapply safe_bind; [apply safe_cnt || apply safe_ticks|]; intros ? _). by apply safe_ret. Qed.

Lemma safe_refuse : safe race_refuse (λ _, True).
Proof.
  unfold race_refuse. eapply safe_bind; [apply safe_any|]. intros b _. apply safe_if; [|by apply safe_ret].
  eapply safe_bind; [apply safe_ticks|]. intros ? _. by apply safe_ret.
Qed.

Lemma safe_shift_loop init i : Z.of_nat i < hl → safe (race_shift_loop init i) (λ _, True).
Proof.
  induction i as [|j IH]; intros Hi; cbn [race_shift_loop]; [by apply safe_ret|].
  eapply safe_bind; [apply safe_read_history; lia|]. intros v Hv.
  eapply safe_bind; [apply safe_write_history; [lia | done]|]. intros _ _. apply IH. lia.
Qed.

Lemma safe_count_shift o : safe (race_count_shift o) (λ _, True).
Proof.
  unfold race_count_shift. apply safe_if; [|apply safe_cnt]. eapply safe_bind; [apply safe_any|]. intros g _. apply safe_if.
  - repeat (eapply safe_bind; [apply safe_cnt || apply safe_any|]; intros ? _). apply safe_if; [apply safe_cnt | by apply safe_ret].
  - eapply safe_bind; [apply safe_any|]. intros g' _. apply safe_cnt.
Qed.

Lemma safe_shift_seq_history init z : 0 < hl → z = 0 ∨ z = 1 → safe (race_shift_seq_history init z) (λ _, True).
Proof.
  intros Hhl Hz. unfold race_shift_seq_history. eapply safe_bind; [apply (safe_conf history_length)|]. intros ? ->.
  eapply safe_bind; [apply safe_read_history; lia|]. intros o _. eapply safe_bind; [apply safe_count_shift|]. intros _ _.
  eapply safe_bind; [apply safe_shift_loop; lia|]. intros _ _. apply safe_write_history; [lia | done].
Qed.

Lemma safe_shift_zeros init n : 0 < hl → safe (race_shift_zeros init n) (λ _, True).
Proof.
  intros Hhl. induction n as [|n IH]; cbn [race_shift_zeros]; [by apply safe_ret|].
  eapply safe_bind; [apply safe_shift_seq_history; auto|]. by intros _ _.
Qed.

Lemma safe_new_seq init s : is_u16 s → safe (write_win init (λ w, w <| recv_seq := s |>)) (λ _, True).
Proof. intros Hs. apply safe_win. by intros w (? & ? & _). Qed.

Lemma safe_take_any init b : safe (write_win init (λ w, w <| take_any := b |>)) (λ _, True).
Proof. by apply safe_win. Qed.

Lemma safe_recover s init : 0 < hl → is_u16 s → safe (race_recover s init) (λ _, True).
Proof.
  intros Hhl Hs. unfold race_recover. eapply safe_bind; [apply safe_any|]. intros rs _.
  eapply safe_bind; [apply (safe_conf history_length)|]. intros ? ->. cbv zeta. set (delta := calc_delta s rs).
  eapply safe_bind; [apply safe_any|]. intros any _. apply safe_if.
  { eapply safe_bind; [apply safe_take_any|]. intros _ _. eapply safe_bind; [apply safe_write_history; auto with lia|]. intros _ _.
    eapply safe_bind; [by apply safe_new_seq|]. intros _ _. apply safe_accept. }
  destruct (delta >? hl) eqn:E1; cbn [orb]; [|destruct (delta <=? - hl) eqn:E2].
  1, 2: repeat (eapply safe_bind; [apply safe_cnt|]; intros ? _); apply safe_refuse.
  destruct (delta <=? 0) eqn:E3.
  - eapply safe_bind; [apply safe_read_history; lia|]. intros v Hv. apply safe_if.
    + eapply safe_bind; [apply safe_write_history; auto with lia|]. intros _ _. eapply safe_bind; [apply safe_cnt|]. intros _ _. apply safe_accept.
    + eapply safe_bind; [apply safe_cnt|]. intros _ _. apply safe_refuse.
  - eapply safe_bind; [apply safe_if; [apply safe_cnt | by apply safe_ret]|]. intros _ _.
    eapply safe_bind; [by apply safe_shift_zeros|]. intros _ _. eapply safe_bind; [apply safe_shift_seq_history; auto|]. intros _ _.
    eapply safe_bind; [by apply safe_new_seq|]. intros _ _. apply safe_accept.
Qed.

Lemma safe_reopen init s : safe (race_reopen init s) (λ _, True).
Proof.
  unfold race_reopen. repeat (eapply safe_bind; [apply safe_any|]; intros ? _). apply safe_if; [apply safe_take_any | by apply safe_ret].
Qed.

Lemma safe_seq_recovery p : 0 < hl → safe (race_seq_recovery p) (λ _, True).
Proof.
  intros Hhl. assert (∀ s, is_u16 (Z.land s 65535)) as Hu by (intros s; rewrite land_ffff; unfold is_u16; lia).
  unfold race_seq_recovery. eapply safe_bind; [apply safe_any|]. intros algo _. destruct algo.
  - unfold race_match_seq_recovery. cbv zeta. eapply safe_bind; [apply safe_any|]. intros any _. apply safe_if.
    + eapply safe_bind; [apply safe_take_any|]. intros _ _. eapply safe_bind; [by apply safe_new_seq|]. intros _ _. apply safe_accept.
    + eapply safe_bind; [apply safe_any|]. intros rs _. apply safe_if.
      * eapply safe_bind; [apply safe_cnt|]. intros _ _. apply safe_refuse.
      * eapply safe_bind; [apply safe_if; [apply safe_cnt | by apply safe_ret]|]. intros _ _.
        eapply safe_bind; [by apply safe_new_seq|]. intros _ _. apply safe_accept.
  - by apply safe_recover.
  - unfold race_seamless_seq_recovery. cbv zeta. eapply safe_bind; [apply (safe_conf (λ c, c))|]. intros ? ->. apply safe_if.
    + eapply safe_bind; [apply safe_if; [apply safe_reopen | by apply safe_ret]|]. intros _ _.
      eapply safe_bind; [apply safe_if; [apply safe_take_any | by apply safe_ret]|]. intros _ _. by apply safe_recover.
    + eapply safe_bind; [apply safe_if; [apply safe_reopen | by apply safe_ret]|]. intros _ _. by apply safe_recover.
Qed.
End triples.

(** ** Runs *)

(** A packet with what the others write during its decision, or writes between
    two decisions. *)
Inductive Op := OpPacket (p : Pkt.Packet) (sc : Sched) | OpWrites (ws : list Write).

Definition op_ok (hl : Z) (o : Op) : Prop :=
  match o with
  | OpPacket _ sc => Forall (Forall (write_ok hl)) sc
  | OpWrites ws => Forall (write_ok hl) ws
  end.

Definition run_op (o : Op) (r : SequenceRecovery) : option (list bool * SequenceRecovery) :=
  match o with
  | OpPacket p sc => '(b, r, _) ← race_seq_recovery p r sc; Some ([b], r)
  | OpWrites ws => r ← apply_writes ws r; Some ([], r)
  end.

Fixpoint run_ops (ops : list Op) (r : SequenceRecovery) : option (list bool * SequenceRecovery) :=
  match ops with
  | [] => Some ([], r)
  | o :: ops => '(v, r) ← run_op o r; '(vs, r) ← run_ops ops r; Some (v ++ vs, r)
  end.

Fixpoint packets (ops : list Op) : nat :=
  match ops with [] => 0 | OpPacket _ _ :: ops => S (packets ops) | OpWrites _ :: ops => packets ops end.

Lemma new_seq_rec_sane nm algo ur ui hl ms d : 0 < hl < 2 ^ 31 → sane (new_seq_rec nm algo ur ui hl ms d).
Proof.
  intros H. unfold sane, win_sane, new_seq_rec. cbn. rewrite !length_replicate, i32_small by (unfold is_i32; lia).
  split_and!; try lia; try (apply Forall_replicate; by left); unfold is_u16; lia.
Qed.

Lemma run_ops_sane ops r :
  sane r → Forall (op_ok (history_length (conf r))) ops → ∃ vs r', run_ops ops r = Some (vs, r') ∧ length vs = packets ops ∧ sane r'.
Proof.
  revert r. induction ops as [|o ops IH]; intros r Hs Hok; [by exists [], r|]. apply Forall_cons in Hok as [Ho Hok]. cbn [run_ops].
  destruct o as [p sc|ws]; cbn [run_op].
  - destruct (safe_seq_recovery (conf r) p (proj1 Hs) r sc Hs eq_refl Ho) as (b & r1 & sc1 & -> & Hs1 & Hc1 & _ & _).
    cbn. rewrite <- Hc1 in Hok. destruct (IH r1 Hs1 Hok) as (vs & r2 & -> & Hl & Hs2). exists (b :: vs), r2. cbn. by rewrite Hl.
  - destruct (apply_writes_sane ws r Hs Ho) as (r1 & -> & Hs1 & Hc1). cbn. rewrite <- Hc1 in Hok.
    destruct (IH r1 Hs1 Hok) as (vs & r2 & -> & Hl & Hs2). by exists vs, r2.
Qed.

(** C7: memory safety of elimination with its timer.  A recovery object with a
    history length between 1 and 2^31 - 1 decides on any sequence of packets,
    while the timer thread (reset and diagnostics) and the masking operations,
    which do not take its mutex, write its fields between any two accesses of a
    decision and between decisions: every decision stays inside the history
    buffers and gives a verdict, and the histories keep their length and hold zeros
    and ones. *)
Theorem seq_recovery_race_safe nm algo ur ui hl ms d ops :
  0 < hl < 2 ^ 31 → Forall (op_ok hl) ops →
  ∃ vs r', run_ops ops (new_seq_rec nm algo ur ui hl ms d) = Some (vs, r') ∧ length vs = packets ops ∧ sane r'.
Proof.
  intros Hhl Hok. apply run_ops_sane; [by apply new_seq_rec_sane|].
  unfold new_seq_rec. cbn. by rewrite i32_small by (unfold is_i32; lia).
Qed.

(** A reset in the middle of the second decision: [recv_seq] and the history are
    reset after the distance was computed and while the history is shifted. *)
Definition numbered (s : Z) : Pkt.Packet := (Pkt.blank_packet [] false) <| Pkt.sequence := ntohl s |>.
Definition reset_amid : Sched :=
  [[]; []; []; [WTakeAny; WRecvSeq false]; []; [WHistory false 0]; []; [WHistory false 1]; [WHistory false 2; WHistory false 3]].

Lemma seq_recovery_race_safe_witness :
  ∃ vs r', run_ops [OpPacket (numbered 10) []; OpPacket (numbered 13) reset_amid; OpPacket (numbered 11) []]
             (new_seq_rec "r" RCVY_Vector false false 4 100 no_diag) = Some (vs, r') ∧ length vs = 3%nat ∧ sane r'.
Proof.
  apply (seq_recovery_race_safe "r" RCVY_Vector false false 4 100 no_diag
           [OpPacket (numbered 10) []; OpPacket (numbered 13) reset_amid; OpPacket (numbered 11) []]); [lia|].
  unfold reset_amid. repeat (constructor; cbn); lia.
Defined.

(** The states of [SeqRecovSpec], where the others run between decisions only,
    are among those of such runs. *)
Lemma reachable_run r0 r :
  rec_wf r0 → reachable r0 r → ∃ ops vs, Forall (op_ok (history_length (conf r0))) ops ∧ run_ops ops r0 = Some (vs, r).
Proof.
  intros Hwf Hr. revert Hwf. induction Hr as [r0|r0 r1 r2 (e & He) _ IH]; intros Hwf; [by exists [], []|].
  destruct (rec_step_wf _ _ _ He Hwf) as [Hwf1 Hc]. destruct (IH Hwf1) as (ops & vs & Hok & E). rewrite Hc in Hok.
  assert (∃ o v, op_ok (history_length (conf r0)) o ∧ run_op o r0 = Some (v, r1)) as (o & v & Ho & Eo).
  { assert ((∃ p, e = EvPacket p) ∨ ∀ p, e ≠ EvPacket p) as [[p ->]|Hne] by (destruct e; eauto).
    - inversion He; subst. exists (OpPacket p []). eexists. split; [constructor|]. cbn. rewrite no_interference.
      match goal with H : seq_recovery _ _ = _ |- _ => rewrite H end. done.
    - destruct (step_writes _ _ _ Hwf Hne He) as (ws & Hws & Ews). exists (OpWrites ws), [].
      cbn. by rewrite Ews. }
  exists (o :: ops), (v ++ vs). split; [by constructor|]. cbn. rewrite Eo. cbn. by rewrite E.
Qed.

End RcvyRace.
