(* ===== verification/SeqRecovTimer.v ===== *)
(** * Sequence recovery: counters, timer, diagnostics and masking

    Properties of the operations of a recovery object other than the window:
    packet counters, the reset timer, the latent error test and the mask state
    of its inputs. *)

From S2P Require Import Prelude SeqGen Packet SeqRecov SeqRecovSpec.
Import Gen(FRER_RCVY_SEQ_SPACE, FRER_RESET_FLAG, FRER_INIT_FLAG).
Import Rcvy RcvyWindow.

Module RcvyCount.
Import RcvyRefine.

(** ** Packet counters *)

Definition count_verdict (b : bool) (c c' : Counters) : Prop :=
  passed_packets c' = (if b then i32 (passed_packets c + 1) else passed_packets c) ∧
  discarded_packets c' = (if b then discarded_packets c else i32 (discarded_packets c + 1)).

Lemma recover_counts r s init b r' :
  rec_wf r → recover r s init = Some (b, r') → count_verdict b (cnt r) (cnt r').
Proof.
  intros Hwf. pose proof (rec_wf_get init r Hwf) as Hlen. unfold recover.
  set (hl := history_length (conf r)) in *. set (delta := calc_delta _ _).
  destruct (take_any _).
  { destruct (store _ 0 1); [|done]. cbn [mbind option_bind]. intros [= <- <-]. by destruct init. }
  destruct (Z.gtb_spec delta hl), (Z.leb_spec delta (- hl)); cbn [orb];
    try by (intros [= <- <-]; destruct (individual_recovery _)).
  destruct (Z.leb_spec delta 0).
  - destruct (load _ _) as [v|]; [|done]. cbn [mbind option_bind]. destruct (v =? 0).
    + destruct (store _ _ 1); [|done]. cbn [mbind option_bind]. intros [= <- <-]. by destruct init.
    + intros [= <- <-]. by destruct (individual_recovery _).
  - match goal with |- context [shift_zeros _ _ ?c _] =>
      edestruct (shift_window_spec delta hl c) as (c1 & h1 & c' & -> & E & P & D & _) end;
      [lia | exact Hlen |].
    cbn [mbind option_bind]. rewrite E. cbn [mbind option_bind]. intros [= <- <-].
    unfold count_verdict.
    destruct init; simpl; rewrite P, D; by destruct (negb _).
Qed.

Lemma seq_recovery_counts r p b r' :
  rec_wf r → seq_recovery r p = Some (b, r') → count_verdict b (cnt r) (cnt r').
Proof.
  intros Hwf. unfold seq_recovery. destruct (algorithm (conf r)).
  - unfold match_seq_recovery. intros H. repeat case_match; simplify_eq; done.
  - by apply recover_counts.
  - unfold seamless_seq_recovery. intros H. repeat case_match; by apply recover_counts in H.
Qed.

(** The number of packets with verdict [b]. *)
Definition verdicts (b : bool) (bs : list bool) : Z := Z.of_nat (length (filter (λ x, x = b) bs)).

(** Every packet is counted once.  Whatever the algorithm, a well-formed
    eliminator gives a verdict on each packet of a stream; the passed counter
    advances by the number of packets passed and the discarded counter by the
    number of packets discarded (as 32-bit counters). *)
Theorem elim_run_counts r ps :
  rec_wf r →
  ∃ bs r', elim_run r ps = Some (bs, r') ∧ length bs = length ps ∧
    i32 (passed_packets (cnt r'))
      = i32 (passed_packets (cnt r) + verdicts true bs) ∧
    i32 (discarded_packets (cnt r'))
      = i32 (discarded_packets (cnt r) + verdicts false bs).
Proof.
  revert r. induction ps as [|p ps IH]; intros r Hwf.
  { exists [], r. cbn. by rewrite !Z.add_0_r. }
  destruct (seq_recovery_wf r p Hwf) as (b & r1 & E & W & _).
  destruct (seq_recovery_counts r p b r1 Hwf E) as [P D].
  destruct (IH r1 W) as (bs & r2 & E2 & L & P2 & D2).
  exists (b :: bs), r2. cbn [elim_run]. rewrite E. cbn [mbind option_bind]. rewrite E2.
  cbn [mbind option_bind length]. unfold verdicts in *. rewrite !filter_cons. split_and!; [done | lia | |].
  - rewrite P2, P. destruct b; cbn [decide decide_rel]; simpl length; autorewrite with dnt_rw; f_equal; lia.
  - rewrite D2, D. destruct b; simpl length; autorewrite with dnt_rw; f_equal; lia.
Qed.

Lemma elim_run_counts_witness :
  ∃ bs r', elim_run (test_rec 4) (map seq_packet [1; 2; 1; 4]) = Some (bs, r') ∧ length bs = 4%nat ∧
    i32 (passed_packets (cnt r')) = i32 (0 + verdicts true bs) ∧
    i32 (discarded_packets (cnt r')) = i32 (0 + verdicts false bs).
Proof.
  apply (elim_run_counts (test_rec 4) (map seq_packet [1; 2; 1; 4])).
  split_and!; [vm_compute; reflexivity | reflexivity | reflexivity].
Defined.

End RcvyCount.

Module RcvyTimer.
Import RcvyRefine.

(** ** The latent error test *)

(** The bounds under which the integer divisions of [recovery_diagnostic] are
    defined: the passed counter did not wrap since the last test, and the
    number of packets expected over the redundant paths fits an [int]. *)
Definition diag_safe (r : SequenceRecovery) : Prop :=
  let pd := i32 (passed_packets (cnt r) - passed_packets_last (lat r)) in
  0 <= pd ∧ is_i32 (latent_error_paths (lat r)) ∧
  (latent_error_paths (lat r) > 1 → (latent_error_paths (lat r) - 1) * pd < 2 ^ 31).

(** What the timer thread does not touch. *)
Definition diag_frame (r r' : SequenceRecovery) : Prop :=
  conf r' = conf r ∧ passed_packets (cnt r') = passed_packets (cnt r) ∧
  discarded_packets (cnt r') = discarded_packets (cnt r) ∧
  latent_error_paths (lat r') = latent_error_paths (lat r) ∧
  remaining_ticks r' = remaining_ticks r ∧ seq_recovery_resets r' = seq_recovery_resets r ∧
  oam_session_id r' = oam_session_id r ∧ win r' = win r ∧ init_win r' = init_win r ∧
  (passed_packets_last (lat r') = passed_packets_last (lat r) ∨
   passed_packets_last (lat r') = passed_packets (cnt r)).

Lemma diag_frame_refl r : diag_frame r r.
Proof. unfold diag_frame. tauto. Qed.

Lemma diag_frame_trans r1 r2 r3 : diag_frame r1 r2 → diag_frame r2 r3 → diag_frame r1 r3.
Proof.
  unfold diag_frame.
  intros (-> & E1 & -> & -> & -> & -> & -> & -> & -> & H1)
         (-> & -> & -> & -> & -> & -> & -> & -> & -> & H2).
  split_and!; try done. rewrite E1 in *. destruct H1 as [E|E]; rewrite E in H2; tauto.
Qed.

Lemma diag_frame_safe r r' : diag_frame r r' → diag_safe r → diag_safe r'.
Proof.
  unfold diag_frame, diag_safe. cbv zeta.
  intros (_ & -> & _ & -> & _ & _ & _ & _ & _ & [-> | ->]); [done|].
  rewrite Z.sub_diag. intros (? & ? & ?). rewrite (i32_small 0) by (unfold is_i32; lia).
  split_and!; [lia | done | lia].
Qed.

Lemma int_div_pos a b : 0 < b → int_div a b = Some (Z.quot a b).
Proof.
  intros H. unfold int_div. destruct (Z.eqb_spec b 0); [lia|]. destruct (Z.eqb_spec b (-1)); [lia|].
  by rewrite andb_false_r.
Qed.

Lemma diag_window_alerts_frame r al r' :
  diag_window_alerts r = (al, r') → diag_frame r (diag_update r').
Proof.
  unfold diag_window_alerts, diag_frame. intros H. repeat case_match; simplify_eq; cbn; tauto.
Qed.

Lemma recovery_diagnostic_total r :
  diag_safe r → latent_error_paths (lat r) > 1 →
  ∃ al r', recovery_diagnostic r = Some (al, r') ∧ diag_frame r r'.
Proof.
  unfold diag_safe. cbv zeta. intros (Hpd & Hi & Hp) H1. specialize (Hp H1). unfold is_i32 in Hi.
  unfold recovery_diagnostic. cbv zeta.
  destruct (take_any (win r)); [eauto using diag_frame_refl|].
  set (pd := i32 (passed_packets (cnt r) - _)) in *.
  destruct (Z.eqb_spec pd 0) as [|Hne]; [eauto using diag_frame_refl|].
  rewrite !(int_div_pos _ pd) by lia. cbn [mbind option_bind].
  assert (diag_frame r (diag_update r)) as F by (unfold diag_frame; cbn; tauto).
  destruct (_ && _); [eauto|].
  rewrite (i32_small (latent_error_paths (lat r) - 1)) by (unfold is_i32; lia).
  assert (0 < (latent_error_paths (lat r) - 1) * pd) by (apply Z.mul_pos_pos; lia).
  rewrite (i32_small ((latent_error_paths (lat r) - 1) * pd)) by (unfold is_i32; lia).
  destruct (_ >=? _).
  - rewrite int_div_pos by lia. cbn [mbind option_bind]. eauto.
  - destruct (diag_window_alerts r) as [more r'] eqn:E.
    apply diag_window_alerts_frame in E. repeat case_match; eauto.
Qed.

Lemma latent_error_test_total r :
  diag_safe r → ∃ al r', latent_error_test r = Some (al, r') ∧ diag_frame r r'.
Proof.
  intros Hs. unfold latent_error_test.
  destruct (Z.gtb_spec (latent_error_paths (lat r)) 1); cbn [andb]; [|eauto using diag_frame_refl].
  destruct (latent_error_period (diag (conf r)) >? 0); [|eauto using diag_frame_refl].
  set (g := i32 (cur_base_difference (lat r) - base_difference r)). cbv zeta.
  set (r1 := r <| lat := (lat r) <| latent_errors := i32 (latent_errors (lat r) + 1) |> |>).
  assert (diag_frame r r1) as F1 by (unfold diag_frame; cbn; tauto).
  destruct (_ >? latent_error_difference _).
  - destruct (recovery_diagnostic_total r1) as (al & r' & -> & F2);
      [by eapply diag_frame_safe | cbn; lia |]. eauto using diag_frame_trans.
  - apply recovery_diagnostic_total; [done | lia].
Qed.

Lemma tick_latent_total r :
  diag_safe r → ∃ al r', tick_latent r = Some (al, r') ∧ diag_frame r r'.
Proof.
  intros Hs. unfold tick_latent.
  set (r1 := if negb _ && _ then _ else _).
  assert (diag_frame r r1) as F1 by (unfold r1, diag_frame; case_match; cbn; tauto).
  clearbody r1. set (r2 := r1 <| lat := _ |>).
  assert (diag_frame r r2) as F2
    by (eapply diag_frame_trans; [exact F1|]; unfold r2, diag_frame; cbn; tauto).
  destruct (_ >=? _); [|eauto].
  destruct (latent_error_test_total r2) as (al & r3 & -> & F3);
    [exact (diag_frame_safe _ _ F2 Hs)|].
  cbn [mbind option_bind]. do 2 eexists. split; [done|].
  eapply diag_frame_trans; [exact F2|]. eapply diag_frame_trans; [exact F3|].
  unfold diag_frame; cbn; tauto.
Qed.

(** ** The reset timer *)

Lemma reset_ticks_value r :
  0 < reset_msec (conf r) <= 4294966 → remaining_ticks (reset_ticks r) = reset_msec (conf r).
Proof.
  intros H. unfold reset_ticks, FRER_TICKS_PER_SEC. cbn [remaining_ticks modify].
  unfold i32, u32. lia.
Qed.

(** [n] iterations of the timer thread of a data recovery object. *)
Fixpoint ticks (n : nat) (r : SequenceRecovery) : option SequenceRecovery :=
  match n with
  | O => Some r
  | S n =>
      match reset_thread_tick r with
      | Some (TICK_RUN _ r) => ticks n r
      | _ => None
      end
  end.

Lemma reset_remaining r k :
  seq_recovery_reset (r <| remaining_ticks := k |>) = (seq_recovery_reset r) <| remaining_ticks := k |>.
Proof. by destruct r as [? [[] ? ? ? ? ? ?] ? ? ? ? ? ? ? ? ?]. Qed.

Lemma reset_frame r :
  conf (seq_recovery_reset r) = conf r ∧ cnt (seq_recovery_reset r) = cnt r ∧
  lat (seq_recovery_reset r) = lat r ∧ remaining_ticks (seq_recovery_reset r) = remaining_ticks r ∧
  oam_session_id (seq_recovery_reset r) = oam_session_id r.
Proof. by destruct r as [? [[] ? ? ? ? ? ?] ? ? ? ? ? ? ? ? ?]. Qed.

Lemma reset_diag_safe r k : diag_safe r → diag_safe ((seq_recovery_reset r) <| remaining_ticks := k |>).
Proof. by destruct r as [? [[] ? ? ? ? ? ?] ? ? ? ? ? ? ? ? ?]. Qed.

(** One iteration while the timer runs, when it expires, and when it is stopped. *)
Lemma tick_step r :
  diag_safe r → oam_session_id r = None → 0 <= remaining_ticks r < 2 ^ 31 →
  ∃ al r', reset_thread_tick r = Some (TICK_RUN al r') ∧
    let base := if remaining_ticks r =? 1 then seq_recovery_reset r else r in
    diag_frame (base <| remaining_ticks := Z.max 0 (remaining_ticks r - 1) |>) r'.
Proof.
  intros Hs Ho Hr. unfold reset_thread_tick, decrement_ticks.
  destruct (Z.eqb_spec (remaining_ticks r) 0) as [E|Hne].
  { rewrite E. cbn [andb]. destruct (tick_latent_total r Hs) as (al & r' & -> & F).
    cbn [mbind option_bind]. do 2 eexists. split; [done|]. cbv zeta.
    replace (r <| remaining_ticks := _ |>) with r; [done|]. destruct r; simpl in *. by subst. }
  rewrite i32_small by (unfold is_i32; lia). rewrite Z.max_r by lia. cbv zeta.
  change (remaining_ticks (r <| remaining_ticks := remaining_ticks r - 1 |>)) with (remaining_ticks r - 1).
  cbv beta iota.
  change (oam_session_id (r <| remaining_ticks := remaining_ticks r - 1 |>)) with (oam_session_id r).
  rewrite Ho, andb_false_r. destruct (Z.eqb_spec (remaining_ticks r - 1) 0), (Z.eqb_spec (remaining_ticks r) 1); try lia.
  - rewrite reset_remaining.
    destruct (tick_latent_total ((seq_recovery_reset r) <| remaining_ticks := remaining_ticks r - 1 |>))
      as (al & r' & -> & F); [by apply reset_diag_safe|].
    cbn [mbind option_bind]. eauto.
  - edestruct (tick_latent_total (r <| remaining_ticks := remaining_ticks r - 1 |>)) as (al & r' & -> & F);
      [done|]. cbn [mbind option_bind]. eauto.
Qed.

(** The part of the state that a reset of the timer changes, after [k] ticks of
    an object whose timer is set to [T]. *)
Definition after_idle (r r' : SequenceRecovery) : Prop :=
  conf r' = conf r ∧ win r' = win r ∧ init_win r' = init_win r ∧
  seq_recovery_resets r' = seq_recovery_resets r.

Lemma after_idle_frame r k r' : diag_frame (r <| remaining_ticks := k |>) r' → after_idle r r'.
Proof. unfold diag_frame, after_idle. cbn. tauto. Qed.

(** A reset sets the same windows whatever it starts from. *)
Lemma after_idle_reset r1 r2 r' :
  after_idle r1 r2 → after_idle (seq_recovery_reset r2) r' → after_idle (seq_recovery_reset r1) r'.
Proof.
  unfold after_idle. intros (A1 & A2 & A3 & A4) (-> & -> & -> & ->).
  destruct r1 as [? [[] ? ? ? ? ? ?] w1 i1 ? ? ? ? ? ? ?], r2 as [? [[] ? ? ? ? ? ?] w2 i2 ? ? ? ? ? ? ?];
    cbn in *; simplify_eq; done.
Qed.

Lemma ticks_running k r :
  diag_safe r → oam_session_id r = None → Z.of_nat k < remaining_ticks r < 2 ^ 31 →
  ∃ r', ticks k r = Some r' ∧ diag_safe r' ∧ oam_session_id r' = None ∧
    remaining_ticks r' = remaining_ticks r - Z.of_nat k ∧ after_idle r r'.
Proof.
  revert r. induction k as [|k IH]; intros r Hs Ho Hr; cbn [ticks].
  { exists r. split_and!; try done. lia. }
  destruct (tick_step r Hs Ho) as (al & r1 & -> & F); [lia|]. cbv zeta in F.
  destruct (Z.eqb_spec (remaining_ticks r) 1); [lia|].
  pose proof (after_idle_frame _ _ _ F) as (A1 & A2 & A3 & A4).
  destruct (IH r1) as (r2 & -> & S2 & O2 & R2 & B1 & B2 & B3 & B4).
  - by eapply diag_frame_safe.
  - rewrite <- Ho. apply F.
  - destruct F as (_ & _ & _ & _ & -> & _). cbn. lia.
  - exists r2. destruct F as (_ & _ & _ & _ & R & _). cbn in R.
    split_and!; [done | done | done | lia |]. unfold after_idle. by rewrite B1, B2, B3, B4.
Qed.

Lemma ticks_stopped k r :
  diag_safe r → oam_session_id r = None → remaining_ticks r = 0 →
  ∃ r', ticks k r = Some r' ∧ after_idle r r'.
Proof.
  revert r. induction k as [|k IH]; intros r Hs Ho Hr; cbn [ticks]; [by eexists|].
  destruct (tick_step r Hs Ho) as (al & r1 & -> & F); [lia|]. cbv zeta in F. rewrite Hr in F.
  cbn [Z.eqb] in F. pose proof (after_idle_frame _ _ _ F) as (A1 & A2 & A3 & A4).
  destruct (IH r1) as (r2 & -> & B1 & B2 & B3 & B4).
  - by eapply diag_frame_safe.
  - rewrite <- Ho. apply F.
  - apply F.
  - exists r2. split; [done|]. unfold after_idle. by rewrite B1, B2, B3, B4.
Qed.

Lemma ticks_app m n r : ticks (m + n) r = r' ← ticks m r; ticks n r'.
Proof.
  revert r. induction m as [|m IH]; intros r; [done|]. cbn [ticks Nat.add].
  destruct (reset_thread_tick r) as [[|al r1]|]; [done | apply IH | done].
Qed.

Lemma reset_fresh r :
  take_any (win (seq_recovery_reset r)) = true ∧
  (algorithm (conf r) ≠ RCVY_Match → fresh (history_length (conf r)) (win (seq_recovery_reset r))).
Proof. by destruct r as [? [[] ? ? ? ? ? ?] ? ? ? ? ? ? ? ? ?]. Qed.

(** C9: the reset timer.  After a packet restarts the timer of a data
    recovery object, the windows stay as they are for the first
    [reset_msec - 1] ticks (of one millisecond) without a packet; tick number
    [reset_msec] performs one reset, and no later idle tick performs another.
    From then on any packet is taken, and the history of a vector algorithm is
    cleared. *)
Theorem idle_reset r k :
  diag_safe r → oam_session_id r = None → 0 < reset_msec (conf r) <= 4294966 →
  ∃ r', ticks k (reset_ticks r) = Some r' ∧
    after_idle (if Z.of_nat k <? reset_msec (conf r) then r else seq_recovery_reset r) r' ∧
    (reset_msec (conf r) <= Z.of_nat k →
     take_any (win r') = true ∧
     (algorithm (conf r) ≠ RCVY_Match → fresh (history_length (conf r)) (win r'))).
Proof.
  intros Hs Ho Hm. pose proof (reset_ticks_value r Hm) as Hv.
  set (T := reset_msec (conf r)) in *.
  destruct (Z.ltb_spec (Z.of_nat k) T).
  { destruct (ticks_running k (reset_ticks r)) as (r' & E & _ & _ & _ & A); [done | done | lia |].
    exists r'. split_and!; [done | done | lia]. }
  replace k with ((Z.to_nat T - 1) + S (k - Z.to_nat T))%nat by lia. rewrite ticks_app.
  destruct (ticks_running (Z.to_nat T - 1) (reset_ticks r)) as (r1 & -> & S1 & O1 & R1 & A1);
    [done | done | lia |].
  cbn [mbind option_bind ticks].
  destruct (tick_step r1 S1 O1) as (al & r2 & -> & F); [lia|]. cbv zeta in F.
  replace (remaining_ticks r1) with 1 in F by lia. cbn [Z.eqb Pos.eqb] in F.
  pose proof (after_idle_frame _ _ _ F) as (B1 & B2 & B3 & B4).
  destruct (ticks_stopped (k - Z.to_nat T) r2) as (r3 & -> & C1 & C2 & C3 & C4).
  - eapply diag_frame_safe; [exact F|]. by apply reset_diag_safe.
  - rewrite <- O1. destruct F as (_ & _ & _ & _ & _ & _ & -> & _). apply reset_frame.
  - apply F.
  - assert (after_idle (seq_recovery_reset r) r3) as G.
    { eapply (after_idle_reset r r1); [done|]. unfold after_idle. by rewrite C1, C2, C3, C4, B1, B2, B3, B4. }
    exists r3. split_and!; [done | done |]. intros _. destruct G as (_ & -> & _). apply reset_fresh.
Qed.

(** Three milliseconds: the fourth tick finds the window reset. *)
Lemma idle_reset_witness :
  ∃ r', ticks 4 (reset_ticks (new_seq_rec "r" RCVY_Vector false false 4 3 (mk_diag 2 1 1 1 1))) = Some r' ∧
    after_idle (seq_recovery_reset (new_seq_rec "r" RCVY_Vector false false 4 3 (mk_diag 2 1 1 1 1))) r' ∧
    (3 <= 4 → take_any (win r') = true ∧ (RCVY_Vector ≠ RCVY_Match → fresh 4 (win r'))).
Proof.
  apply (idle_reset (new_seq_rec "r" RCVY_Vector false false 4 3 (mk_diag 2 1 1 1 1)) 4);
    [| reflexivity | cbn; lia].
  unfold diag_safe. vm_compute. repeat split; intros; congruence.
Defined.

End RcvyTimer.

Module RcvyMask.

(** ** Masking of inputs *)

Definition masked_count (mips : gmap string bool) : Z :=
  Z.of_nat (size (filter (λ kv, kv.2 = true) mips)).

(** The number of active paths is the configured number less the masked
    inputs; at most that many inputs are registered. *)
Definition mask_inv (r : SequenceRecovery) : Prop :=
  ∃ mips, preAutoMIP r = Some mips ∧
    latent_error_paths (lat r) = admin_latent_error_paths (diag (conf r)) - masked_count mips ∧
    Z.of_nat (size mips) <= admin_latent_error_paths (diag (conf r)) < 2 ^ 31.

Lemma masked_count_mask mips m :
  mips !! m = Some false → masked_count (<[m := true]> mips) = masked_count mips + 1.
Proof.
  intros Hm. unfold masked_count. rewrite map_filter_insert_True by done.
  rewrite map_size_insert_None; [lia|]. apply map_lookup_filter_None. right. naive_solver.
Qed.

Lemma masked_count_unmask mips m :
  mips !! m = Some true → masked_count (<[m := false]> mips) = masked_count mips - 1.
Proof.
  intros Hm. pose proof (masked_count_mask (<[m := false]> mips) m) as H.
  rewrite insert_insert_eq, (insert_id mips m true) in H by done.
  rewrite H by apply lookup_insert_eq. lia.
Qed.

Lemma masked_count_bound mips : 0 <= masked_count mips <= Z.of_nat (size mips).
Proof.
  unfold masked_count. split; [lia|]. apply inj_le, map_size_filter.
Qed.

Lemma size_update (mips : gmap string bool) m b b' :
  mips !! m = Some b → size (<[m := b']> mips) = size mips.
Proof. intros H. rewrite map_size_insert_Some; [done | by eexists]. Qed.

(** Masking succeeds exactly for a registered input that is not masked, and
    unmasking for one that is; a refused request changes nothing. *)
Lemma path_masked_spec r m mips :
  mask_inv r → preAutoMIP r = Some mips →
  (mips !! m = Some false ∧
    ∃ r', seq_rec_path_masked r m =
            (true, if latent_error_paths (lat r) =? 1 then [START_MASK_SESSION (postAutoMIP r)] else [], r') ∧
      mask_inv r' ∧ preAutoMIP r' = Some (<[m := true]> mips) ∧
      latent_error_paths (lat r') = latent_error_paths (lat r) - 1 ∧ 0 < latent_error_paths (lat r)) ∨
  (mips !! m ≠ Some false ∧ seq_rec_path_masked r m = (false, [], r)).
Proof.
  intros (mips' & E & HP & HS) Hm. rewrite E in Hm. simplify_eq. unfold seq_rec_path_masked. rewrite E.
  destruct (mips !! m) as [[|]|] eqn:L; [by right | left | by right].
  pose proof (masked_count_mask mips m L) as C. pose proof (size_update mips m false true L) as Z1.
  pose proof (masked_count_bound (<[m := true]> mips)) as B. rewrite Z1, C in B.
  pose proof (masked_count_bound mips).
  split; [done|]. destruct (Z.leb_spec (latent_error_paths (lat r)) 0); [lia|].
  eexists. split; [|].
  - cbn [lat latent_error_paths latent_error_reset modify postAutoMIP].
    unfold latent_error_reset. cbn. rewrite i32_small by (unfold is_i32; lia).
    destruct (Z.eqb_spec (latent_error_paths (lat r) - 1) 0), (Z.eqb_spec (latent_error_paths (lat r)) 1);
      try lia; reflexivity.
  - cbn. split_and!; [|done|lia|lia]. exists (<[m := true]> mips). cbn. rewrite C, Z1.
    split_and!; [done | lia..].
Qed.

Lemma path_unmasked_spec r m mips :
  mask_inv r → preAutoMIP r = Some mips →
  (mips !! m = Some true ∧
    ∃ r', seq_rec_path_unmasked r m =
            (true, if latent_error_paths (lat r) =? 0 then [STOP_MASK_SESSION (postAutoMIP r)] else [], r') ∧
      mask_inv r' ∧ preAutoMIP r' = Some (<[m := false]> mips) ∧
      latent_error_paths (lat r') = latent_error_paths (lat r) + 1 ∧ 0 <= latent_error_paths (lat r)) ∨
  (mips !! m ≠ Some true ∧ seq_rec_path_unmasked r m = (false, [], r)).
Proof.
  intros (mips' & E & HP & HS) Hm. rewrite E in Hm. simplify_eq. unfold seq_rec_path_unmasked. rewrite E.
  destruct (mips !! m) as [[|]|] eqn:L; [left | by right | by right].
  pose proof (masked_count_unmask mips m L) as C. pose proof (size_update mips m true false L) as Z1.
  pose proof (masked_count_bound (<[m := false]> mips)) as B. rewrite Z1, C in B.
  pose proof (masked_count_bound mips).
  split; [done|]. destruct (Z.geb_spec (latent_error_paths (lat r)) (admin_latent_error_paths (diag (conf r)))); [lia|].
  eexists. split; [|].
  - unfold latent_error_reset. cbn. rewrite i32_small by (unfold is_i32; lia).
    destruct (Z.eqb_spec (latent_error_paths (lat r) + 1) 1), (Z.eqb_spec (latent_error_paths (lat r)) 0);
      try lia; reflexivity.
  - cbn. split_and!; [|done|lia|lia]. exists (<[m := false]> mips). cbn. rewrite C, Z1.
    split_and!; [done | lia..].
Qed.

(** A sequence of mask ([true]) and unmask ([false]) requests. *)
Fixpoint mask_run (r : SequenceRecovery) (reqs : list (bool * string)) : list MaskEvent * SequenceRecovery :=
  match reqs with
  | [] => ([], r)
  | (b, m) :: reqs =>
      let '(_, ev, r) := if b then seq_rec_path_masked r m else seq_rec_path_unmasked r m in
      let '(evs, r) := mask_run r reqs in
      (ev ++ evs, r)
  end.

(** Whether a mask session is open after the events; [None] when a session is
    started twice or stopped without being open. *)
Fixpoint session_open (o : bool) (evs : list MaskEvent) : option bool :=
  match evs with
  | [] => Some o
  | START_MASK_SESSION _ :: evs => if o then None else session_open true evs
  | STOP_MASK_SESSION _ :: evs => if o then session_open false evs else None
  end.

Lemma session_open_app o evs1 evs2 o' :
  session_open o evs1 = Some o' → session_open o (evs1 ++ evs2) = session_open o' evs2.
Proof.
  revert o. induction evs1 as [|[p|p] evs1 IH]; intros o; cbn; [by intros [= ->]| |];
    destruct o; try done; apply IH.
Qed.

(** Mask state.  For an object with at most as many registered inputs as
    configured paths, any sequence of mask and unmask requests keeps the number
    of active paths equal to the configured number less the masked inputs, and
    the downstream mask session is open exactly while no path is active: it is
    started when the last path is masked, stopped when the first one is
    unmasked, and never started or stopped twice. *)
Theorem mask_sessions r reqs :
  mask_inv r →
  let '(evs, r') := mask_run r reqs in
  mask_inv r' ∧
  session_open (latent_error_paths (lat r) =? 0) evs = Some (latent_error_paths (lat r') =? 0).
Proof.
  revert r. induction reqs as [|[b m] reqs IH]; intros r Hr; [done|]. cbn [mask_run].
  assert (∃ ok ev r1, (if b then seq_rec_path_masked r m else seq_rec_path_unmasked r m) = (ok, ev, r1) ∧
    mask_inv r1 ∧ session_open (latent_error_paths (lat r) =? 0) ev
                  = Some (latent_error_paths (lat r1) =? 0)) as (ok & ev & r1 & -> & R1 & S1).
  { pose proof Hr as (mips & E & _). destruct b.
    - destruct (path_masked_spec r m mips Hr E) as [(_ & r1 & -> & R1 & _ & L & P)|[_ ->]];
        [|by exists false, [], r].
      do 3 eexists. split; [done|]. split; [done|]. rewrite L. zcases; done.
    - destruct (path_unmasked_spec r m mips Hr E) as [(_ & r1 & -> & R1 & _ & L & P)|[_ ->]];
        [|by exists false, [], r].
      do 3 eexists. split; [done|]. split; [done|]. rewrite L. zcases; done. }
  specialize (IH r1 R1). destruct (mask_run r1 reqs) as [evs r']. destruct IH as [R2 S2].
  split; [done|]. by rewrite (session_open_app _ _ _ _ S1).
Qed.

Definition two_inputs : SequenceRecovery :=
  seq_rec_register_postAutoMIP
    (seq_rec_register_preAutoMIP
       (seq_rec_register_preAutoMIP
          (new_seq_rec "r" RCVY_Vector false false 4 100 (mk_diag 2 0 0 0 0)) "a") "b") "post".

Lemma mask_sessions_witness :
  let '(evs, r') := mask_run two_inputs [(true, "a"); (true, "b"); (true, "a"); (false, "b")] in
  mask_inv r' ∧ session_open (latent_error_paths (lat two_inputs) =? 0) evs
                = Some (latent_error_paths (lat r') =? 0).
Proof.
  apply mask_sessions. eexists. split; [reflexivity|]. vm_compute. split; [done|]. split; discriminate || done.
Defined.

End RcvyMask.
