(* ===== verification/SeqSeamless.v ===== *)
(** * Seamless reset: the generator and the eliminator together

    The words that a sequence generator produces after a reset, fed to a
    seamless-vector eliminator (seq_gen.c and seq_recov.c). *)

From S2P Require Import Prelude SeqGen Packet SeqRecov SeqRecovSpec.
Import Rcvy RcvyWindow RcvyRefine.

Module Seamless.

(** ** Decoding a sequence word *)

Lemma word_number n i r : is_u16 n → Z.land (Gen.seq_word n i r) 65535 = n.
Proof.
  unfold is_u16, Gen.seq_word, Gen.FRER_RESET_FLAG, Gen.FRER_INIT_FLAG. intros.
  rewrite land_ffff. change (Z.shiftl 1 (32 - 6)) with 67108864. change (Z.shiftl 1 (32 - 7)) with 33554432.
  destruct i, r; cbn [b2z]; lia.
Qed.

Lemma flag_test s k :
  16 <= k < 32 → negb (Z.land (Z.land s 4294901760) (2 ^ k) =? 0) = Z.testbit s k.
Proof.
  intros Hk. rewrite <- Z.land_assoc.
  assert (Z.land 4294901760 (2 ^ k) = 2 ^ k) as ->.
  { rewrite land_pow2 by lia. change 4294901760 with (Z.shiftl (Z.ones 16) 16).
    rewrite Z.shiftl_spec, Z.ones_spec_low by lia. cbn [b2z]. lia. }
  rewrite land_pow2 by lia. destruct (Z.testbit s k); cbn [b2z]; [|done].
  assert (0 < 2 ^ k) by (apply Z.pow_pos_nonneg; lia). destruct (Z.eqb_spec (1 * 2 ^ k) 0); [lia|done].
Qed.

Lemma word_flags n i r :
  is_u16 n →
  negb (Z.land (Z.land (Gen.seq_word n i r) 4294901760) Gen.FRER_INIT_FLAG =? 0) = i ∧
  negb (Z.land (Z.land (Gen.seq_word n i r) 4294901760) Gen.FRER_RESET_FLAG =? 0) = r.
Proof.
  unfold is_u16, Gen.seq_word, Gen.FRER_RESET_FLAG, Gen.FRER_INIT_FLAG. intros Hn.
  change (Z.shiftl 1 (32 - 6)) with (2 ^ 26). change (Z.shiftl 1 (32 - 7)) with (2 ^ 25).
  rewrite !flag_test, !Z.testbit_odd, !Z.shiftr_div_pow2 by lia.
  change (2 ^ 25) with 33554432. change (2 ^ 26) with 67108864.
  destruct i, r; cbn [b2z].
  - replace (_ / 33554432) with 3 by lia. replace (_ / 67108864) with 1 by lia. done.
  - replace (_ / 33554432) with 1 by lia. replace (_ / 67108864) with 0 by lia. done.
  - replace (_ / 33554432) with 2 by lia. replace (_ / 67108864) with 1 by lia. done.
  - replace (_ / 33554432) with 0 by lia. replace (_ / 67108864) with 0 by lia. done.
Qed.

(** ** Single steps of the eliminator *)

(** A window that passes number [s] whatever its history holds: it takes any
    packet, or [s] is the number after the last one. *)
Definition passes_next (w : Window) (s : Z) : Prop :=
  take_any w = true ∨ recv_seq w = (s - 1) mod 65536.

(** The window last passed number [s]. *)
Definition at_number (w : Window) (s : Z) : Prop := take_any w = false ∧ recv_seq w = s.

Lemma recover_next init r s :
  rec_wf r → is_u16 s → passes_next (get_win init r) s →
  ∃ r', recover r s init = Some (true, r') ∧ at_number (get_win init r') s ∧
    get_win (negb init) r' = get_win (negb init) r ∧ conf r' = conf r ∧ rec_wf r'.
Proof.
  intros Hwf Hs Hp. destruct (recover_wf r s init Hwf) as (b & r' & E & W & C).
  exists r'. revert E. pose proof (rec_wf_get init r Hwf) as Hlen. pose proof (proj1 Hwf) as Hhl.
  unfold recover. destruct (take_any (get_win init r)) eqn:Ht.
  { destruct (store _ 0 1); cbn [mbind option_bind]; intros [= <- <-]. by destruct init. }
  destruct Hp as [|Hp]; [congruence|].
  assert (calc_delta s (recv_seq (get_win init r)) = 1) as ->
    by (rewrite calc_delta_spec, Hp; unfold is_u16 in Hs; lia).
  set (hl := history_length (conf r)) in *.
  destruct (Z.gtb_spec 1 hl), (Z.leb_spec 1 (- hl)); try lia. cbn [orb Z.leb Z.compare].
  edestruct (shift_window_spec 1 hl) as (c1 & h1 & c' & -> & E & _); [lia | exact Hlen |].
  cbn [mbind option_bind]. rewrite E. cbn [mbind option_bind]. intros [= <- <-]. by destruct init.
Qed.

(** The number is outside the range in which the reset flag is ignored. *)
Definition far (hl s seq0 : Z) : Prop := calc_delta s seq0 > hl ∨ calc_delta s seq0 <= - (2 * hl).

(** The window of an eliminator that a sender reset to number [s] gets through. *)
Definition admits_reset (hl : Z) (w : Window) (s : Z) : Prop :=
  take_any w = true ∨ far hl s (recv_seq w).

Section steps.
Context (r : SequenceRecovery) (p : Pkt.Packet) (s : Z) (reset : bool).
Context (Hwf : rec_wf r) (Ha : algorithm (conf r) = RCVY_SeamlessVector)
        (Hr : use_reset_flag (conf r) = true) (Hs : is_u16 s).

Let far_b (seq0 : Z) : bool :=
  (calc_delta s seq0 >? history_length (conf r)) || (calc_delta s seq0 <=? - history_length (conf r) * 2).

(** The window after the reset flag was looked at. *)
Definition flagged (w : Window) : Window :=
  if reset && far_b (recv_seq w) then w <| take_any := true |> else w.

Lemma flagged_next w :
  passes_next w s ∨ (reset = true ∧ admits_reset (history_length (conf r)) w s) →
  passes_next (flagged w) s.
Proof.
  unfold flagged, passes_next, admits_reset, far, far_b.
  intros [H|[-> [H|H]]]; [destruct (_ && _); cbn; tauto | destruct (_ && _); cbn; tauto|].
  destruct (Z.gtb_spec (calc_delta s (recv_seq w)) (history_length (conf r))),
    (Z.leb_spec (calc_delta s (recv_seq w)) (- history_length (conf r) * 2)); cbn; auto; lia.
Qed.

Lemma step_main :
  ntohl (Pkt.sequence p) = Gen.seq_word s false reset →
  passes_next (win r) s ∨ (reset = true ∧ admits_reset (history_length (conf r)) (win r) s) →
  ∃ r', seq_recovery r p = Some (true, r') ∧ at_number (win r') s ∧ conf r' = conf r ∧ rec_wf r'.
Proof.
  intros Hw Hn. apply flagged_next in Hn.
  unfold seq_recovery, seamless_seq_recovery. rewrite Ha, Hw, word_number, Hr by done.
  destruct (word_flags s false reset Hs) as [-> ->]. rewrite andb_false_r. cbn [andb].
  fold (far_b (recv_seq (win r))). unfold flagged in Hn.
  destruct (reset && far_b (recv_seq (win r))).
  - destruct (recover_next false (r <| win := (win r) <| take_any := true |> |>) s)
      as (r' & -> & A & _ & C & W); [done | done | done |]. eauto.
  - destruct (recover_next false r s) as (r' & -> & A & _ & C & W); [done | done | done |]. eauto.
Qed.

Lemma step_init :
  ntohl (Pkt.sequence p) = Gen.seq_word s true reset → use_init_flag (conf r) = true →
  passes_next (init_win r) s ∨ (reset = true ∧ admits_reset (history_length (conf r)) (init_win r) s) →
  ∃ r', seq_recovery r p = Some (true, r') ∧ at_number (init_win r') s ∧
    (take_any (win r) = true ∨ 65536 - 3 * history_length (conf r) <= s < 65536 - history_length (conf r) →
     take_any (win r') = true) ∧ conf r' = conf r ∧ rec_wf r'.
Proof.
  intros Hw Hi Hn. apply flagged_next in Hn.
  unfold seq_recovery, seamless_seq_recovery. rewrite Ha, Hw, word_number, Hr, Hi by done.
  destruct (word_flags s true reset Hs) as [-> ->]. cbn [andb].
  fold (far_b (recv_seq (init_win r))). unfold flagged in Hn.
  set (r1 := if reset && _ then _ else r).
  assert (passes_next (init_win r1) s ∧ win r1 = win r ∧ conf r1 = conf r ∧ rec_wf r1)
    as (N1 & W1 & C1 & F1) by (unfold r1; destruct (_ && _); done).
  clearbody r1. unfold Gen.FRER_RCVY_SEQ_SPACE.
  set (r2 := if (_ >=? _) && _ then _ else r1).
  assert (passes_next (init_win r2) s ∧ conf r2 = conf r ∧ rec_wf r2 ∧
    (take_any (win r) = true ∨ 65536 - 3 * history_length (conf r) <= s < 65536 - history_length (conf r) →
     take_any (win r2) = true)) as (N2 & C2 & F2 & T2).
  { unfold r2. rewrite <- W1. zcases; cbn; split_and!; auto; intros [|]; done || lia. }
  clearbody r2.
  destruct (recover_next true r2 s) as (r' & -> & A & B & C & W); [done..|].
  cbn in B. exists r'. rewrite B, C. auto.
Qed.
End steps.

(** ** The stream after a sender restart *)

(** Packet number [k] of a sender: the packet [pk k] after the generator. *)
Definition sent (g : Gen.SequenceGenerator) (pk : nat → Pkt.Packet) (k : nat) : Pkt.Packet :=
  (Gen.seq_generator (Gen.gen_after k g) (pk k)).1.

Lemma sent_word g pk k :
  Gen.gen_params_ok g →
  ntohl (Pkt.sequence (sent (Gen.sequence_generation_reset g) pk k)) =
    Gen.seq_word (Gen.spec_number g (Z.of_nat k)) (Gen.spec_init g (Z.of_nat k)) (Gen.spec_reset g (Z.of_nat k)).
Proof.
  intros Hok. unfold sent, Gen.seq_generator.
  rewrite Gen.gen_after_reset, Gen.spec_step by auto with lia. cbn [fst Pkt.sequence modify].
  apply ntohl_htonl. unfold is_u32, Gen.seq_word, Gen.FRER_RESET_FLAG, Gen.FRER_INIT_FLAG.
  change (Z.shiftl 1 (32 - 6)) with 67108864. change (Z.shiftl 1 (32 - 7)) with 33554432.
  unfold Gen.spec_number, Gen.init_packets, Gen.gen_params_ok, Gen.FRER_RCVY_SEQ_SPACE in *.
  destruct (Gen.use_init_flag g), (Gen.spec_init _ _), (Gen.spec_reset _ _); cbn [b2z]; zcases; lia.
Qed.

Lemma elim_run_snoc r ps p bs r1 b r2 :
  elim_run r ps = Some (bs, r1) → seq_recovery r1 p = Some (b, r2) →
  elim_run r (ps ++ [p]) = Some (bs ++ [b], r2).
Proof.
  revert r bs. induction ps as [|q ps IH]; intros r bs; cbn [elim_run app].
  - intros [= <- <-] ->. done.
  - destruct (seq_recovery r q) as [[b' r']|]; [|done]. cbn [mbind option_bind].
    destruct (elim_run r' ps) as [[bs' r'']|] eqn:E; [|done]. cbn [mbind option_bind].
    intros [= <- <-] H. by rewrite (IH r' bs' E H).
Qed.

Section restart.
Context (r : SequenceRecovery) (g : Gen.SequenceGenerator) (pk : nat → Pkt.Packet).
Let hl := history_length (conf r).
Let start := Gen.init_seq_start g.

(** Both ends use the same flags, and the reset flag is used. *)
Record agree : Prop := {
  ag_wf : rec_wf r;
  ag_algo : algorithm (conf r) = RCVY_SeamlessVector;
  ag_reset : use_reset_flag (conf r) = true;
  ag_greset : Gen.use_reset_flag g = true;
  ag_init : use_init_flag (conf r) = Gen.use_init_flag g;
  ag_params : Gen.gen_params_ok g;
  (* the initial space extends below the last [hl] numbers *)
  ag_space : Gen.use_init_flag g = true → start + hl < 65536
}.

(** The window that the first packet meets. *)
Definition first_window : Window := if Gen.use_init_flag g then init_win r else win r.
Definition first_number : Z := if Gen.use_init_flag g then start else 0.

Context (Hag : agree) (Hadm : admits_reset hl first_window first_number).

(** The windows after [n] packets. *)
Definition progress (n : Z) (r' : SequenceRecovery) : Prop :=
  conf r' = conf r ∧ rec_wf r' ∧
  if n =? 0 then r' = r
  else if Gen.use_init_flag g && (n <=? 65536 - start) then
    at_number (init_win r') (start + n - 1) ∧
    (65535 - hl <= start + n - 1 → take_any (win r') = true)
  else at_number (win r') (Gen.spec_number g (n - 1)).

Lemma spec_cases n :
  0 <= n →
  (Gen.use_init_flag g = true ∧ n < 65536 - start ∧ Gen.spec_init g n = true ∧
   Gen.spec_number g n = start + n) ∨
  (Gen.spec_init g n = false ∧
   let k := if Gen.use_init_flag g then 65536 - start else 0 in
   k <= n ∧ Gen.spec_number g n = (n - k) mod 65536).
Proof.
  intros Hn. unfold Gen.spec_init, Gen.spec_number, Gen.init_packets, Gen.FRER_RCVY_SEQ_SPACE.
  fold start. destruct (Gen.use_init_flag g); cbv zeta.
  - destruct (Z.ltb_spec n (65536 - start)); [left | right]; split_and!; done || lia.
  - right. destruct (Z.ltb_spec n 0); [lia|]. split_and!; done || lia.
Qed.

(** A number of the initial space. *)
Lemma progress_init n r' :
  Gen.use_init_flag g = true → Z.of_nat n < 65536 - start →
  ntohl (Pkt.sequence (sent (Gen.sequence_generation_reset g) pk n)) =
    Gen.seq_word (start + Z.of_nat n) true (Gen.spec_reset g (Z.of_nat n)) →
  progress (Z.of_nat n) r' →
  ∃ r'', seq_recovery r' (sent (Gen.sequence_generation_reset g) pk n) = Some (true, r'') ∧
    progress (Z.of_nat n + 1) r''.
Proof.
  destruct Hag as [Hwf Ha Hr Hgr Hi Hok Hsp]. intros Hgi Hn Hw (C & W & P).
  pose proof (Hok Hgi) as Hst. fold start in Hst. specialize (Hsp Hgi).
  pose proof (proj1 Hwf) as Hhl. fold hl in Hhl.
  revert Hadm P. unfold progress, first_window, first_number. rewrite !Hgi. intros Hadm' P.
  destruct (step_init r' (sent (Gen.sequence_generation_reset g) pk n)
    (start + Z.of_nat n) (Gen.spec_reset g (Z.of_nat n))) as (r'' & E & A & T & C' & W');
    rewrite ?C; try done; [unfold is_u16; lia | by rewrite Hi | |].
  { fold hl. destruct (Z.eqb_spec (Z.of_nat n) 0) as [E0|].
    - subst r'. right. unfold Gen.spec_reset. rewrite Hgr, E0, Z.add_0_r. done.
    - left. right. cbn [andb] in P. destruct (Z.leb_spec (Z.of_nat n) (65536 - start)); [|lia].
      destruct P as [[_ ->] _]. lia. }
  exists r''. split; [done|]. rewrite C', C. split_and!; [done | done |].
  destruct (Z.eqb_spec (Z.of_nat n + 1) 0), (Z.leb_spec (Z.of_nat n + 1) (65536 - start)); try lia.
  cbn [andb]. replace (start + (Z.of_nat n + 1) - 1) with (start + Z.of_nat n) by lia.
  split; [done|]. intros Hlow. apply T. rewrite C. fold hl.
  destruct (Z.eqb_spec (Z.of_nat n) 0) as [E0|]; [right; lia|].
  destruct (Z.leb_spec (Z.of_nat n) (65536 - start)); [|lia]. cbn [andb] in P.
  destruct (Z.le_gt_cases (65535 - hl) (start + Z.of_nat n - 1)); [left; apply P; lia | right; lia].
Qed.

(** A number of the normal space. *)
Lemma progress_main n k r' :
  k = (if Gen.use_init_flag g then 65536 - start else 0) → k <= Z.of_nat n →
  ntohl (Pkt.sequence (sent (Gen.sequence_generation_reset g) pk n)) =
    Gen.seq_word ((Z.of_nat n - k) mod 65536) false (Gen.spec_reset g (Z.of_nat n)) →
  progress (Z.of_nat n) r' →
  ∃ r'', seq_recovery r' (sent (Gen.sequence_generation_reset g) pk n) = Some (true, r'') ∧
    at_number (win r'') ((Z.of_nat n - k) mod 65536) ∧ conf r'' = conf r ∧ rec_wf r''.
Proof.
  destruct Hag as [Hwf Ha Hr Hgr Hi Hok Hsp]. intros Hk Hn Hw (C & W & P). rewrite <- C.
  apply (step_main r' _ _ (Gen.spec_reset g (Z.of_nat n)));
    rewrite ?C; try done; [unfold is_u16; lia|]. fold hl.
  destruct (Z.eqb_spec (Z.of_nat n) 0) as [E0|Hn0].
  - (* the first packet, and there is no initial space *)
    assert (Gen.use_init_flag g = false) as Hgi.
    { destruct (Gen.use_init_flag g) eqn:Hgi; [|done]. specialize (Hok Hgi). fold start in Hok. lia. }
    right. revert Hadm. unfold Gen.spec_reset, first_window, first_number. rewrite Hgi, Hgr, E0 in *.
    subst. cbn. done.
  - left. destruct (decide (Gen.use_init_flag g = true ∧ Z.of_nat n = k)) as [[Hgi E]|Hne].
    + (* the first number after the initial space *)
      rewrite Hgi in *. specialize (Hsp eq_refl). cbn [andb] in P.
      destruct (Z.leb_spec (Z.of_nat n) (65536 - start)); [|lia].
      left. apply P. pose proof (proj1 Hwf). fold hl in H0. lia.
    + right. destruct (spec_cases (Z.of_nat n - 1)) as [(Hgi & Hlt & _)|(_ & Hle & Es)]; [lia | |].
      * rewrite Hgi in *. lia.
      * cbv zeta in Hle, Es. rewrite <- Hk in Hle, Es.
        assert (Gen.use_init_flag g && (Z.of_nat n <=? 65536 - start) = false) as Eb.
        { destruct (Gen.use_init_flag g); [|done]. cbn [andb].
          destruct (Z.leb_spec (Z.of_nat n) (65536 - start)); [lia|done]. }
        rewrite Eb, Es in P. destruct P as [_ ->]. lia.
Qed.

Lemma progress_step n r' :
  progress (Z.of_nat n) r' →
  ∃ r'', seq_recovery r' (sent (Gen.sequence_generation_reset g) pk n) = Some (true, r'') ∧
    progress (Z.of_nat n + 1) r''.
Proof.
  intros P. pose proof (sent_word g pk n (ag_params Hag)) as Hw.
  destruct (spec_cases (Z.of_nat n)) as [(Hgi & Hlt & Ei & Es)|(Ei & Hle & Es)]; [lia | |];
    rewrite Ei, Es in Hw.
  - by apply progress_init.
  - edestruct progress_main as (r'' & E & A & C & W); [reflexivity | exact Hle | exact Hw | exact P |].
    exists r''. split; [done|]. split_and!; [done | done |].
    destruct (Z.eqb_spec (Z.of_nat n + 1) 0); [lia|].
    assert (Gen.use_init_flag g && (Z.of_nat n + 1 <=? 65536 - start) = false) as ->.
    { destruct (Gen.use_init_flag g); [|done]. cbn [andb]. destruct (Z.leb_spec (Z.of_nat n + 1) (65536 - start)); [lia|done]. }
    replace (Z.of_nat n + 1 - 1) with (Z.of_nat n) by lia. by rewrite Es.
Qed.

Lemma restart_run n :
  ∃ r', elim_run r (map (sent (Gen.sequence_generation_reset g) pk) (seq 0 n))
          = Some (replicate n true, r') ∧ progress (Z.of_nat n) r'.
Proof.
  induction n as [|n (r1 & E & P)].
  - exists r. split; [done|]. split_and!; [done | apply (ag_wf Hag) | done].
  - destruct (progress_step n r1 P) as (r2 & E2 & P2). exists r2.
    rewrite seq_S, map_app. cbn [map Nat.add]. rewrite replicate_S_end.
    rewrite (elim_run_snoc _ _ _ _ _ _ _ E E2). split; [done|].
    replace (Z.of_nat (S n)) with (Z.of_nat n + 1) by lia. done.
Qed.
End restart.


Definition demo_gen : Gen.SequenceGenerator := Gen.new_seq_gen "g" true true 65520.
Definition demo_rec : SequenceRecovery := new_seq_rec "r" RCVY_SeamlessVector true true 4 100 no_diag.

(** The packets of the generator after a restart, and the eliminator that has
    received the first 40 of them. *)
Definition demo_stream (n : nat) : list Pkt.Packet :=
  map (sent (Gen.sequence_generation_reset demo_gen) (λ _, Pkt.blank_packet [] false)) (seq 0 n).
Definition used_rec : SequenceRecovery := if elim_run demo_rec (demo_stream 40) is Some (_, r) then r else demo_rec.


(** The verdicts on four packets in order, then on the packets with numbers 1
    and 0 (in this order) of a restarted sender. *)
Definition swapped_restart : option (list bool * bool * bool) :=
  '(bs, r1) ← elim_run (new_seq_rec "r" RCVY_SeamlessVector true false 4 100 no_diag)
                (map seq_packet [1000; 1001; 1002; 1003]);
  '(b1, r2) ← seamless_seq_recovery r1 (Gen.seq_word 1 false true);
  '(b0, _) ← seamless_seq_recovery r2 (Gen.seq_word 0 false true);
  Some (bs, b1, b0).

(** Finding: a restart does not clear the history.  When the first two packets of
    the restarted sender arrive swapped, number 1 passes through the RESET
    flag, but number 0, which never arrived before, is discarded: the entry of
    the old stream at its place in the history is still set. *)
Theorem seamless_stale_history :
  swapped_restart = Some ([true; true; true; true], true, false).
Proof. vm_compute. reflexivity. Qed.

End Seamless.
