(* ===== verification/HeaderField.v ===== *)
(** * Header fields (header.h, header.c, value.h)

    Reading, writing and comparing bit fields of packet headers.  A value is
    described by a pointer, a bit offset and a bit count; the pointer leads
    either to memory of its own (a configured constant, an interface property)
    or, for a field that is read, into the buffer of the packet that is being
    modified.  The model keeps that aliasing: an octet of the source is loaded
    from the buffer as it is at the time of the access. *)

From S2P Require Import Prelude Protocol Packet.
Import Proto Pkt.

Module Field.

Record HeaderField := mk_hf { header_idx : Z; hf_bitoffset : Z; hf_bitcount : Z }.

(** The memory a value pointer leads to. *)
Inductive Pointer :=
  | PtrOwn (m : mem)      (* start of a buffer outside the packet *)
  | PtrPacket (a : Z).    (* offset in the packet buffer *)

Record Value := mk_value { value : Pointer; v_bitoffset : Z; v_bitcount : Z }.

Definition new_headerfield (idx : Z) (pfield : ProtocolField) : HeaderField :=
  mk_hf idx (pf_bitoffset pfield) (pf_bitcount pfield).

(** [init_value]: the pointer is set later. *)
Definition init_value (ptr : Pointer) (bitoffset bitcount : Z) : Value := mk_value ptr bitoffset bitcount.

(** [src[i]] with [src = value->value + value->bitoffset/8]. *)
Definition src_octet (v : Value) (b : mem) (i : Z) : option Z :=
  match value v with
  | PtrOwn m => load m (v_bitoffset v / 8 + i)
  | PtrPacket a => load b (a + v_bitoffset v / 8 + i)
  end.

(** [p->buf + p->headers[field->header_idx].start + field->bitoffset/8]. *)
Definition dst_addr (f : HeaderField) (p : Packet) : option Z :=
  h ← headers p !! Z.to_nat (header_idx f);
  if 0 <=? header_idx f then Some (h_start h + hf_bitoffset f / 8) else None.

(** [unsigned char mask = 1 << bitcount; mask -= 1; mask <<= shift;] *)
Definition octet_mask (bitcount shift : Z) : Z :=
  u8 (Z.shiftl (u8 (u8 (Z.shiftl 1 bitcount) - 1)) shift).

(** [dst[i] &= ~mask; dst[i] |= src[i] & mask;] *)
Definition write_masked (v : Value) (b : mem) (d i mask : Z) : option mem :=
  old ← load b (d + i);
  b ← store b (d + i) (Z.land old (Z.lxor 255 mask));
  cur ← load b (d + i);
  s ← src_octet v b i;
  store b (d + i) (Z.lor cur (Z.land s mask)).

(** [for (i=0; i<n; i++) dst[first+i] = src[first+i];] *)
Fixpoint copy_octets (n : nat) (v : Value) (b : mem) (d first : Z) : option mem :=
  match n with
  | O => Some b
  | S n =>
      s ← src_octet v b first;
      b ← store b (d + first) s;
      copy_octets n v b d (first + 1)
  end.

Definition write_bytes (f : HeaderField) (v : Value) (p : Packet) : option Packet :=
  d ← dst_addr f p;
  b ← copy_octets (Z.to_nat (v_bitcount v / 8)) v (buf p) d 0;
  Some (p <| buf := b |>).

Definition write_bits (f : HeaderField) (v : Value) (p : Packet) : option Packet :=
  d ← dst_addr f p;
  let bitoffset := hf_bitoffset f mod 8 in
  let bitcount := hf_bitcount f in
  let shift := u32 (8 - bitoffset - bitcount) in
  b ← write_masked v (buf p) d 0 (octet_mask bitcount shift);
  Some (p <| buf := b |>).

Definition write_generic (f : HeaderField) (v : Value) (p : Packet) : option Packet :=
  d ← dst_addr f p;
  let bitoffset := hf_bitoffset f mod 8 in
  let bitcount := hf_bitcount f in
  let bitcount1 := Z.min bitcount (8 - bitoffset) in
  let shift := u32 (8 - bitoffset - bitcount1) in
  b ← write_masked v (buf p) d 0 (octet_mask bitcount1 shift);
  let remaining_bits := bitcount - bitcount1 in
  let remaining_bytes := remaining_bits / 8 in
  b ← copy_octets (Z.to_nat remaining_bytes) v b d 1;
  let remaining_bits := remaining_bits - remaining_bytes * 8 in
  let byteoffset := 1 + remaining_bytes in
  if negb (remaining_bits =? 0) then
    b ← write_masked v b d byteoffset (octet_mask remaining_bits (8 - remaining_bits));
    Some (p <| buf := b |>)
  else Some (p <| buf := b |>).

(** The function pointers the selection functions return. *)
Definition value_consumer : Type := HeaderField → Value → Packet → option Packet.

Definition octet_aligned (f : HeaderField) (v : Value) : bool :=
  (hf_bitoffset f mod 8 =? 0) && (hf_bitcount f mod 8 =? 0) &&
  (v_bitoffset v mod 8 =? 0) && (v_bitcount v mod 8 =? 0).

Definition same_shape (f : HeaderField) (v : Value) : bool :=
  (v_bitcount v =? hf_bitcount f) && (v_bitoffset v mod 8 =? hf_bitoffset f mod 8).

Definition header_get_field_writer (target : HeaderField) (source : Value) : option value_consumer :=
  if negb (same_shape target source) then None
  else if octet_aligned target source then Some write_bytes
  else if hf_bitoffset target mod 8 + hf_bitcount target <=? 8 then Some write_bits
  else Some write_generic.

(** The value a reader hands to its consumer points into the packet. *)
Definition field_value (f : HeaderField) (p : Packet) : option Value :=
  a ← dst_addr f p; Some (mk_value (PtrPacket a) (hf_bitoffset f mod 8) (hf_bitcount f)).

Definition read_bytes (source : HeaderField) (consumer : value_consumer) (target : HeaderField)
    (p : Packet) : option Packet :=
  v ← field_value source p; consumer target v p.

Definition header_get_field_reader (target : Value) (source : HeaderField)
    : option (HeaderField → value_consumer → HeaderField → Packet → option Packet) :=
  if negb (same_shape source target) then None else Some read_bytes.

(** ** Comparison *)

Fixpoint equal_octets (n : nat) (v : Value) (b : mem) (d first : Z) : option bool :=
  match n with
  | O => Some true
  | S n =>
      x ← load b (d + first);
      s ← src_octet v b first;
      if x =? s then equal_octets n v b d (first + 1) else Some false
  end.

Definition equal_masked (v : Value) (b : mem) (d i mask : Z) : option bool :=
  x ← load b (d + i);
  s ← src_octet v b i;
  Some (Z.land x mask =? Z.land s mask).

Definition compare_bytes (f : HeaderField) (v : Value) (p : Packet) : option bool :=
  d ← dst_addr f p;
  equal_octets (Z.to_nat (v_bitcount v / 8)) v (buf p) d 0.

Definition compare_bits (f : HeaderField) (v : Value) (p : Packet) : option bool :=
  d ← dst_addr f p;
  let bitoffset := hf_bitoffset f mod 8 in
  let bitcount := hf_bitcount f in
  let shift := u32 (8 - bitoffset - bitcount) in
  equal_masked v (buf p) d 0 (octet_mask bitcount shift).

Definition compare_generic (f : HeaderField) (v : Value) (p : Packet) : option bool :=
  d ← dst_addr f p;
  let bitoffset := hf_bitoffset f mod 8 in
  let bitcount := hf_bitcount f in
  let bitcount1 := Z.min bitcount (8 - bitoffset) in
  let shift := u32 (8 - bitoffset - bitcount1) in
  first ← equal_masked v (buf p) d 0 (octet_mask bitcount1 shift);
  if negb first then Some false
  else
    let remaining_bits := bitcount - bitcount1 in
    let remaining_bytes := remaining_bits / 8 in
    middle ← equal_octets (Z.to_nat remaining_bytes) v (buf p) d 1;
    if negb middle then Some false
    else
      let remaining_bits := remaining_bits - remaining_bytes * 8 in
      if negb (remaining_bits =? 0) then
        equal_masked v (buf p) d (1 + remaining_bytes) (octet_mask remaining_bits (8 - remaining_bits))
      else Some true.

Definition header_get_field_comprator (target : HeaderField) (mat : Value)
    : option (HeaderField → Value → Packet → option bool) :=
  if negb (same_shape target mat) then None
  else if octet_aligned target mat then Some compare_bytes
  else if hf_bitoffset target mod 8 + hf_bitcount target <=? 8 then Some compare_bits
  else Some compare_generic.

(** ** Bits

    Bits are numbered from the most significant bit of the first octet. *)

Definition bit_of (octet k : Z) : bool := Z.testbit octet (7 - k).

Definition mbit (m : mem) (k : Z) : option bool :=
  x ← load m (k / 8); Some (bit_of x (k mod 8)).

(** Bit [k] of the octets of a value, from the octet its pointer and offset select. *)
Definition vbit (v : Value) (b : mem) (k : Z) : option bool :=
  x ← src_octet v b (k / 8); Some (bit_of x (k mod 8)).

Lemma octet_mask_bits n s j :
  0 <= n <= 8 → 0 <= s → n + s <= 8 → 0 <= j →
  Z.testbit (octet_mask n s) j = (s <=? j) && (j <? s + n).
Proof.
  intros Hn Hs Hns Hj. unfold octet_mask.
  assert (u8 (u8 (Z.shiftl 1 n) - 1) = Z.ones n) as ->.
  { rewrite Z.ones_equiv, Z.shiftl_mul_pow2 by lia.
    assert (n = 0 ∨ n = 1 ∨ n = 2 ∨ n = 3 ∨ n = 4 ∨ n = 5 ∨ n = 6 ∨ n = 7 ∨ n = 8) as Hc by lia.
    unfold u8. repeat destruct Hc as [->|Hc]; try done. by subst. }
  unfold u8. change 256 with (2 ^ 8). destruct (Z.lt_ge_cases j 8).
  - rewrite Z.mod_pow2_bits_low, Z.shiftl_spec by lia.
    destruct (Z.leb_spec s j); [|by rewrite Z.testbit_neg_r by lia].
    destruct (Z.ltb_spec j (s + n)).
    + by rewrite Z.ones_spec_low by lia.
    + by rewrite Z.ones_spec_high by lia.
  - rewrite Z.mod_pow2_bits_high by lia. zcases; done.
Qed.

Lemma lxor_255_bits m j : 0 <= j < 8 → Z.testbit (Z.lxor 255 m) j = negb (Z.testbit m j).
Proof.
  intros Hj. rewrite Z.lxor_spec. change 255 with (Z.ones 8). rewrite Z.ones_spec_low by lia. done.
Qed.

(** The octet that a masked write leaves. *)
Lemma masked_octet_bits old s n o k :
  0 <= n → 0 <= o → o + n <= 8 → 0 <= k < 8 →
  bit_of (Z.lor (Z.land old (Z.lxor 255 (octet_mask n (8 - o - n))))
                (Z.land s (octet_mask n (8 - o - n)))) k =
    if (o <=? k) && (k <? o + n) then bit_of s k else bit_of old k.
Proof.
  intros Hn Ho Hon Hk. unfold bit_of.
  rewrite Z.lor_spec, !Z.land_spec, lxor_255_bits, octet_mask_bits by lia.
  zcases; cbn [negb andb]; rewrite ?andb_true_r, ?andb_false_r, ?orb_false_r; done.
Qed.

Lemma octet_ext x y : is_u8 x → is_u8 y → (∀ k, 0 <= k < 8 → bit_of x k = bit_of y k) → x = y.
Proof.
  unfold is_u8, bit_of. intros Hx Hy H. apply Z.bits_inj'. intros j Hj.
  destruct (Z.lt_ge_cases j 8).
  - specialize (H (7 - j) ltac:(lia)). by replace (7 - (7 - j)) with j in H by lia.
  - rewrite <- (Z.mod_small x (2 ^ 8)), <- (Z.mod_small y (2 ^ 8)) by lia.
    by rewrite !Z.mod_pow2_bits_high by lia.
Qed.

(** ** Writing *)

Lemma mbit_store b a x b' k :
  store b a x = Some b' → 0 <= k →
  mbit b' k = if k / 8 =? a then Some (bit_of x (k mod 8)) else mbit b k.
Proof.
  intros Hs Hk. unfold mbit. destruct (Z.eqb_spec (k / 8) a) as [<-|Hne].
  - by rewrite (load_store_eq _ _ _ _ Hs).
  - by rewrite (load_store_ne _ _ _ _ _ Hs) by auto.
Qed.

(** The source is readable, and no octet of it is one of the [n] octets that
    are written. *)
Definition source_ok (v : Value) (b : mem) (d n : Z) : Prop :=
  (∀ i, 0 <= i < n → is_Some (src_octet v b i)) ∧
  match value v with
  | PtrOwn _ => True
  | PtrPacket a => a + v_bitoffset v / 8 + n <= d ∨ d + n <= a + v_bitoffset v / 8
  end.

(** [b] is [b0] with the bits [lo .. hi) of the octets at [d] replaced by those
    of the value; nothing outside the [n] octets at [d] was stored to. *)
Record written (v : Value) (b0 b : mem) (d n lo hi : Z) : Prop := {
  w_length : length b = length b0;
  w_frame : ∀ a, ¬ d <= a < d + n → load b a = load b0 a;
  w_bits : ∀ k, 0 <= k →
    mbit b k = if (8 * d + lo <=? k) && (k <? 8 * d + hi) then vbit v b0 (k - 8 * d) else mbit b0 k
}.

Lemma written_start v b d n lo : written v b b d n lo lo.
Proof. split; [done | done |]. intros k Hk. zcases; done. Qed.

Section write.
Context (v : Value) (b0 : mem) (d n : Z).
Context (Hsrc : source_ok v b0 d n) (Hd : 0 <= d) (Hfit : d + n <= Z.of_nat (length b0)).

Lemma src_stable b i :
  (∀ a, ¬ d <= a < d + n → load b a = load b0 a) → 0 <= i < n →
  src_octet v b i = src_octet v b0 i.
Proof.
  intros Hf Hi. unfold src_octet. destruct Hsrc as [_ Hdis]. destruct (value v); [done|].
  apply Hf. lia.
Qed.

Lemma src_value b i lo hi :
  written v b0 b d n lo hi → 0 <= i < n →
  ∃ s, src_octet v b i = Some s ∧ src_octet v b0 i = Some s.
Proof.
  intros W Hi. rewrite (src_stable b i (w_frame _ _ _ _ _ _ _ W) Hi).
  destruct (proj1 Hsrc i Hi) as [s Hs]. eauto.
Qed.

(** One more octet: the bits [mid .. mid+len) of octet [i] become those of
    [s], the source octet. *)
Lemma written_octet b b' i o len lo x s :
  written v b0 b d n lo (8 * i + o) → 0 <= i < n → lo <= 8 * i + o →
  0 <= o → 0 <= len → o + len <= 8 → src_octet v b0 i = Some s →
  (∀ old, load b (d + i) = Some old → ∀ k, 0 <= k < 8 →
    bit_of x k = if (o <=? k) && (k <? o + len) then bit_of s k else bit_of old k) →
  (∃ y, store b (d + i) y = Some b' ∧ y = x) →
  written v b0 b' d n lo (8 * i + o + len).
Proof.
  intros [L F B] Hi Hlo Ho Hlen Hol Hs Hx (? & St & ->). split.
  - by rewrite (store_length _ _ _ _ St).
  - intros a Ha. rewrite (load_store_ne _ _ _ _ _ St) by lia. auto.
  - intros k Hk. rewrite (mbit_store _ _ _ _ _ St Hk), B by done.
    destruct (load_in_range b (d + i)) as [old Hold]; [unfold in_range; lia|].
    assert (k / 8 = d + i → mbit b k = Some (bit_of old (k mod 8))) as Hb.
    { intros E. unfold mbit. by rewrite E, Hold. }
    rewrite B in Hb by done.
    destruct (Z.eqb_spec (k / 8) (d + i)) as [E|E].
    + rewrite (Hx old Hold) by lia. specialize (Hb E).
      assert (vbit v b0 (k - 8 * d) = Some (bit_of s (k mod 8))) as Hv.
      { unfold vbit. replace ((k - 8 * d) / 8) with i by lia.
        replace ((k - 8 * d) mod 8) with (k mod 8) by lia. by rewrite Hs. }
      revert Hb. rewrite Hv. zcases; cbn [andb]; congruence.
    + zcases; done.
Qed.

Lemma write_masked_spec b i o len lo :
  written v b0 b d n lo (8 * i + o) → 0 <= i < n → lo <= 8 * i + o →
  0 <= o → 0 <= len → o + len <= 8 →
  ∃ b', write_masked v b d i (octet_mask len (8 - o - len)) = Some b' ∧
    written v b0 b' d n lo (8 * i + o + len).
Proof.
  intros W Hi Hlo Ho Hlen Hol. pose proof W as [L F _].
  destruct (src_value b i _ _ W Hi) as (s & _ & Hs0).
  destruct (load_in_range b (d + i)) as [old Hold]; [unfold in_range; lia|].
  unfold write_masked. rewrite Hold. cbn [mbind option_bind].
  rewrite store_in_range by (unfold in_range; lia). cbn [mbind option_bind].
  set (y := Z.land old _).
  assert (store b (d + i) y = Some (<[Z.to_nat (d + i) := y]> b)) as St
    by (apply store_in_range; unfold in_range; lia).
  rewrite (load_store_eq _ _ _ _ St). cbn [mbind option_bind].
  rewrite src_stable, Hs0 by
    (lia || intros a Ha; rewrite (load_store_ne _ _ _ _ _ St) by lia; auto).
  cbn [mbind option_bind].
  rewrite store_in_range by (unfold in_range; rewrite length_insert; lia).
  eexists. split; [done|]. eapply written_octet; [exact W | lia.. | exact Hs0 | |].
  - intros old' Hold' k Hk. rewrite Hold in Hold'. simplify_eq.
    exact (masked_octet_bits old' s len o k Hlen Ho Hol Hk).
  - eexists. split; [|reflexivity]. rewrite store_in_range by (unfold in_range; lia).
    rewrite list_insert_insert_eq. done.
Qed.

Lemma copy_octets_spec m b first lo :
  written v b0 b d n lo (8 * first) → 0 <= first → first + Z.of_nat m <= n → lo <= 8 * first →
  ∃ b', copy_octets m v b d first = Some b' ∧
    written v b0 b' d n lo (8 * (first + Z.of_nat m)).
Proof.
  revert b first. induction m as [|m IH]; intros b first W Hf Hn Hlo; cbn [copy_octets].
  { exists b. by rewrite Z.add_0_r. }
  destruct (src_value b first _ _ W) as (s & Hs & Hs0); [lia|].
  rewrite Hs. cbn [mbind option_bind]. pose proof (w_length _ _ _ _ _ _ _ W) as L.
  rewrite store_in_range by (unfold in_range; lia). cbn [mbind option_bind].
  destruct (IH (<[Z.to_nat (d + first) := s]> b) (first + 1)) as (b' & -> & W'); [|lia..|].
  - replace (8 * (first + 1)) with (8 * first + 0 + 8) by lia.
    eapply (written_octet b _ first 0 8 lo s s); [by rewrite Z.add_0_r | lia.. | done | |].
    + intros old _ k Hk. zcases; done.
    + eexists. split; [|reflexivity]. apply store_in_range. unfold in_range. lia.
  - exists b'. split; [done|]. by replace (first + 1 + Z.of_nat m) with (first + Z.of_nat (S m)) in W' by lia.
Qed.
End write.

(** The octets a field touches. *)
Definition field_octets (f : HeaderField) : Z := (hf_bitoffset f mod 8 + hf_bitcount f + 7) / 8.

(** The field lies inside the packet buffer, in the header at [st]. *)
Record field_at (f : HeaderField) (p : Packet) (st : Z) : Prop := {
  fa_addr : dst_addr f p = Some (st + hf_bitoffset f / 8);
  fa_start : 0 <= st;
  fa_off : 0 <= hf_bitoffset f;
  fa_count : 0 < hf_bitcount f;
  fa_fit : st + hf_bitoffset f / 8 + field_octets f <= Z.of_nat (length (buf p))
}.

Lemma same_shape_true f v :
  same_shape f v = true → v_bitcount v = hf_bitcount f ∧ v_bitoffset v mod 8 = hf_bitoffset f mod 8.
Proof. unfold same_shape. intros [?%Z.eqb_eq ?%Z.eqb_eq]%andb_true_iff. done. Qed.

Lemma writer_written f v w p st :
  header_get_field_writer f v = Some w → field_at f p st →
  source_ok v (buf p) (st + hf_bitoffset f / 8) (field_octets f) →
  ∃ b, w f v p = Some (p <| buf := b |>) ∧
    written v (buf p) b (st + hf_bitoffset f / 8) (field_octets f)
      (hf_bitoffset f mod 8) (hf_bitoffset f mod 8 + hf_bitcount f).
Proof.
  intros Hw [Ha Hst Hoff Hcnt Hfit] Hs. unfold header_get_field_writer in Hw.
  destruct (same_shape f v) eqn:Hsh; [|done]. apply same_shape_true in Hsh as [Ec Eo].
  set (d := st + hf_bitoffset f / 8) in *. unfold field_octets in *.
  set (o := hf_bitoffset f mod 8) in *. set (c := hf_bitcount f) in *.
  assert (0 <= o < 8) by (unfold o; lia). cbn [negb] in Hw.
  destruct (octet_aligned f v) eqn:Hal; [|destruct (Z.leb_spec (o + c) 8)]; injection Hw as <-.
  - unfold octet_aligned in Hal. fold o c in Hal. rewrite !andb_true_iff, !Z.eqb_eq in Hal.
    unfold write_bytes. rewrite Ha. cbn [mbind option_bind].
    destruct (copy_octets_spec v (buf p) d ((o + c + 7) / 8) Hs ltac:(lia) ltac:(lia)
      (Z.to_nat (v_bitcount v / 8)) (buf p) 0 o) as (b & -> & W); [|lia..|].
    { replace (8 * 0) with o by lia. apply written_start. }
    exists b. split; [done|]. by replace (8 * (0 + Z.of_nat (Z.to_nat (v_bitcount v / 8)))) with (o + c) in W by lia.
  - unfold write_bits. rewrite Ha. cbn [mbind option_bind]. fold o c.
    rewrite u32_small by (unfold is_u32; lia).
    destruct (write_masked_spec v (buf p) d ((o + c + 7) / 8) Hs ltac:(lia) ltac:(lia) (buf p) 0 o c o)
      as (b & -> & W); [apply written_start | lia..|].
    cbn [mbind option_bind]. eauto.
  - unfold write_generic. rewrite Ha. cbn [mbind option_bind]. fold o c.
    rewrite Z.min_r by lia. rewrite u32_small by (unfold is_u32; lia).
    pose proof (write_masked_spec v (buf p) d ((o + c + 7) / 8) Hs ltac:(lia) ltac:(lia)) as WM.
    destruct (WM (buf p) 0 o (8 - o) o) as (b1 & -> & W1); [apply written_start | lia..|].
    cbn [mbind option_bind]. replace (8 * 0 + o + (8 - o)) with (8 * 1) in W1 by lia.
    set (rb := c - (8 - o)). assert (0 < rb) by (unfold rb; lia).
    assert (c = rb + (8 - o)) as Ecr by (unfold rb; lia). clearbody rb.
    destruct (copy_octets_spec v (buf p) d ((o + c + 7) / 8) Hs ltac:(lia) ltac:(lia)
      (Z.to_nat (rb / 8)) b1 1 o W1) as (b2 & -> & W2); [lia..|].
    cbn [mbind option_bind].
    replace (8 * (1 + Z.of_nat (Z.to_nat (rb / 8)))) with (8 * (1 + rb / 8) + 0) in W2 by lia.
    destruct (Z.eqb_spec (rb - rb / 8 * 8) 0) as [E|E]; cbn [negb].
    + exists b2. split; [done|]. by replace (8 * (1 + rb / 8) + 0) with (o + c) in W2 by lia.
    + destruct (WM b2 (1 + rb / 8) 0 (rb - rb / 8 * 8) o W2) as (b3 & E3 & W3); [lia..|].
      rewrite Z.sub_0_r in E3. rewrite E3. cbn [mbind option_bind].
      exists b3. split; [done|].
      by replace (8 * (1 + rb / 8) + 0 + (rb - rb / 8 * 8)) with (o + c) in W3 by lia.
Qed.

(** Bit [j] of a value, from its first bit. *)
Definition value_bit (v : Value) (b : mem) (j : Z) : option bool := vbit v b (v_bitoffset v mod 8 + j).

(** C11: writing a header field.  The writer that is selected for a field and a
    value of the same bit count and bit offset within the octet stores exactly
    the bits of the value in the bits of the field, and changes no other bit of
    the packet, for fields of any length and offset; the source may be a
    constant or another place in the same packet that does not overlap the
    field. *)
Theorem field_write_spec f v w p st :
  header_get_field_writer f v = Some w → field_at f p st →
  source_ok v (buf p) (st + hf_bitoffset f / 8) (field_octets f) →
  ∃ b, w f v p = Some (p <| buf := b |>) ∧ length b = length (buf p) ∧
    ∀ k, 0 <= k →
      mbit b k = if (8 * st + hf_bitoffset f <=? k) && (k <? 8 * st + hf_bitoffset f + hf_bitcount f)
                 then value_bit v (buf p) (k - (8 * st + hf_bitoffset f)) else mbit (buf p) k.
Proof.
  intros Hw Hf Hs. destruct (writer_written f v w p st Hw Hf Hs) as (b & E & [L _ B]).
  exists b. split; [done|]. split; [done|]. intros k Hk. rewrite B by done. unfold value_bit.
  unfold header_get_field_writer in Hw. destruct (same_shape f v) eqn:Hsh; [|done].
  apply same_shape_true in Hsh as [_ Eo]. rewrite Eo.
  replace (8 * (st + hf_bitoffset f / 8) + hf_bitoffset f mod 8) with (8 * st + hf_bitoffset f) by lia.
  replace (8 * (st + hf_bitoffset f / 8) + (hf_bitoffset f mod 8 + hf_bitcount f))
    with (8 * st + hf_bitoffset f + hf_bitcount f) by lia.
  replace (hf_bitoffset f mod 8 + (k - (8 * st + hf_bitoffset f)))
    with (k - 8 * (st + hf_bitoffset f / 8)) by lia. done.
Qed.

(** The bits of a 12 bit VLAN identifier at octet 14 of an Ethernet frame. *)
Definition vid_field : HeaderField := mk_hf 1 4 12.
Definition vid_value : Value := mk_value (PtrOwn [1; 44]) 4 12.
Definition vlan_packet : Packet :=
  (blank_packet (replicate 24 255) false)
    <| headers := [mk_header PROTO_ID_ETH 0 14; mk_header PROTO_ID_CVLAN 14 4] |>
    <| header_count := 2 |>.

Lemma vid_field_at : field_at vid_field vlan_packet 14.
Proof. split; vm_compute; congruence. Qed.

Lemma vid_source_ok : source_ok vid_value (buf vlan_packet) 14 2.
Proof.
  split; [|done]. intros i Hi. assert (i = 0 ∨ i = 1) as [->| ->] by lia; by eexists.
Qed.

Lemma field_write_spec_witness :
  ∃ b, write_generic vid_field vid_value vlan_packet = Some (vlan_packet <| buf := b |>) ∧
    length b = 24%nat ∧
    ∀ k, 0 <= k → mbit b k = if (116 <=? k) && (k <? 128) then value_bit vid_value (buf vlan_packet) (k - 116)
                             else mbit (buf vlan_packet) k.
Proof.
  apply (field_write_spec vid_field vid_value write_generic vlan_packet 14);
    [reflexivity | exact vid_field_at | exact vid_source_ok].
Defined.

(** Copying a field.  An assignment between two fields of one packet, of
    the same shape and without a common octet, gives the target the bits of the
    source and leaves every other bit as it was. *)
Theorem field_copy_spec src dst w p st1 st2 v :
  field_at src p st1 → field_at dst p st2 → field_value src p = Some v →
  header_get_field_writer dst v = Some w →
  st1 + hf_bitoffset src / 8 + field_octets dst <= st2 + hf_bitoffset dst / 8 ∨
  st2 + hf_bitoffset dst / 8 + field_octets dst <= st1 + hf_bitoffset src / 8 →
  ∃ b, read_bytes src w dst p = Some (p <| buf := b |>) ∧
    (∀ j, 0 <= j < hf_bitcount dst →
       mbit b (8 * st2 + hf_bitoffset dst + j) = mbit (buf p) (8 * st1 + hf_bitoffset src + j)) ∧
    (∀ k, 0 <= k → ¬ 8 * st2 + hf_bitoffset dst <= k < 8 * st2 + hf_bitoffset dst + hf_bitcount dst →
       mbit b k = mbit (buf p) k).
Proof.
  intros Fs Fd Hv Hw Hdis. unfold read_bytes. rewrite Hv. cbn [mbind option_bind].
  unfold field_value in Hv. rewrite (fa_addr _ _ _ Fs) in Hv. cbn [mbind option_bind] in Hv. simplify_eq.
  set (v := mk_value _ _ _) in *.
  assert (same_shape dst v = true) as Hsh.
  { unfold header_get_field_writer in Hw. by destruct (same_shape dst v). }
  apply same_shape_true in Hsh as [Ec Eo]. cbn in Ec, Eo.
  destruct Fs as [_ Hst1 Hoff1 Hc1 Hfit1]. pose proof Fd as [_ Hst2 Hoff2 Hc2 _].
  unfold field_octets in *.
  destruct (writer_written dst v w p st2 Hw Fd) as (b & -> & [_ _ B]).
  { split.
    - intros i Hi. unfold src_octet. cbn. apply load_is_Some. unfold in_range, field_octets in *. lia.
    - unfold field_octets. cbn. lia. }
  exists b. split; [done|]. split.
  - intros j Hj. rewrite B by lia. zcases. cbn [andb].
    unfold vbit, mbit, src_octet. cbn [value v_bitoffset v].
    set (k := 8 * st2 + hf_bitoffset dst + j - 8 * (st2 + hf_bitoffset dst / 8)).
    replace (st1 + hf_bitoffset src / 8 + hf_bitoffset src mod 8 / 8 + k / 8)
      with ((8 * st1 + hf_bitoffset src + j) / 8) by (unfold k; lia).
    by replace (k mod 8) with ((8 * st1 + hf_bitoffset src + j) mod 8) by (unfold k; lia).
  - intros k Hk Hout. rewrite B by done. zcases; done.
Qed.

(** Copying the low octet of the VLAN identifier to the last octet of the Ethernet header. *)
Lemma field_copy_spec_witness :
  ∃ b, read_bytes (mk_hf 1 8 8) write_bytes (mk_hf 0 104 8) vlan_packet = Some (vlan_packet <| buf := b |>) ∧
    (∀ j, 0 <= j < 8 → mbit b (104 + j) = mbit (buf vlan_packet) (120 + j)) ∧
    (∀ k, 0 <= k → ¬ 104 <= k < 112 → mbit b k = mbit (buf vlan_packet) k).
Proof.
  apply (field_copy_spec (mk_hf 1 8 8) (mk_hf 0 104 8) write_bytes vlan_packet 14 0
           (mk_value (PtrPacket 15) 0 8));
    [split; vm_compute; congruence | split; vm_compute; congruence | reflexivity | reflexivity |].
  right. vm_compute. discriminate.
Defined.

(** ** Comparing *)

Definition octets_ok (v : Value) (b : mem) (n : Z) : Prop :=
  bytes_ok b ∧ ∀ i, 0 <= i < n → ∃ s, src_octet v b i = Some s ∧ is_u8 s.

(** The bits [lo .. hi) of the octets at [d] are those of the value. *)
Definition bits_agree (v : Value) (b : mem) (d lo hi : Z) : Prop :=
  ∀ k, lo <= k < hi → mbit b (8 * d + k) = vbit v b k.

Lemma bits_agree_split v b d lo mid hi :
  lo <= mid <= hi → bits_agree v b d lo hi ↔ bits_agree v b d lo mid ∧ bits_agree v b d mid hi.
Proof.
  intros Hm. unfold bits_agree. split.
  - intros H. split; intros k Hk; apply H; lia.
  - intros [H1 H2] k Hk. destruct (Z.lt_ge_cases k mid); [apply H1 | apply H2]; lia.
Qed.

Lemma bits_agree_octet v b d i o len x s :
  0 <= d → 0 <= i → 0 <= o → o + len <= 8 → load b (d + i) = Some x → src_octet v b i = Some s →
  bits_agree v b d (8 * i + o) (8 * i + o + len) ↔ ∀ k, o <= k < o + len → bit_of x k = bit_of s k.
Proof.
  intros Hd Hi Ho Hl Hx Hs. unfold bits_agree, mbit, vbit. split; intros H k Hk.
  - specialize (H (8 * i + k) ltac:(lia)).
    replace ((8 * d + (8 * i + k)) / 8) with (d + i) in H by lia.
    replace ((8 * i + k) / 8) with i in H by lia. rewrite Hx, Hs in H. cbn [mbind option_bind] in H.
    replace ((8 * d + (8 * i + k)) mod 8) with k in H by lia.
    replace ((8 * i + k) mod 8) with k in H by lia. congruence.
  - replace ((8 * d + k) / 8) with (d + i) by lia. replace (k / 8) with i by lia.
    rewrite Hx, Hs. cbn [mbind option_bind]. f_equal.
    replace ((8 * d + k) mod 8) with (k mod 8) by lia. apply H. lia.
Qed.

Section compare.
Context (v : Value) (b : mem) (d n : Z).
Context (Hok : octets_ok v b n) (Hd : 0 <= d) (Hfit : d + n <= Z.of_nat (length b)).

Lemma octet_pair i : 0 <= i < n →
  ∃ x s, load b (d + i) = Some x ∧ src_octet v b i = Some s ∧ is_u8 x ∧ is_u8 s.
Proof.
  intros Hi. destruct (load_in_range b (d + i)) as [x Hx]; [unfold in_range; lia|].
  destruct (proj2 Hok i Hi) as (s & Hs & Us). exists x, s.
  split_and!; [done | done | | done]. by eapply load_byte; [apply Hok|].
Qed.

Lemma equal_masked_spec i o len :
  0 <= i < n → 0 <= o → 0 <= len → o + len <= 8 →
  ∃ r, equal_masked v b d i (octet_mask len (8 - o - len)) = Some r ∧
    (r = true ↔ bits_agree v b d (8 * i + o) (8 * i + o + len)).
Proof.
  intros Hi Ho Hl Hol. destruct (octet_pair i Hi) as (x & s & Hx & Hs & Ux & Us).
  unfold equal_masked. rewrite Hx, Hs. cbn [mbind option_bind]. eexists. split; [done|].
  rewrite (bits_agree_octet v b d i o len x s) by (done || lia). rewrite Z.eqb_eq. split.
  - intros E k Hk. apply (f_equal (λ z, Z.testbit z (7 - k))) in E.
    rewrite !Z.land_spec, octet_mask_bits in E by lia. revert E. unfold bit_of.
    zcases. cbn [andb]. by rewrite !andb_true_r.
  - intros E. apply Z.bits_inj'. intros j Hj. rewrite !Z.land_spec, octet_mask_bits by lia.
    specialize (E (7 - j)). unfold bit_of in E. replace (7 - (7 - j)) with j in E by lia.
    zcases; cbn [andb]; rewrite ?andb_false_r, ?andb_true_r; [|done..]. apply E. lia.
Qed.

Lemma equal_octets_spec m first :
  0 <= first → first + Z.of_nat m <= n →
  ∃ r, equal_octets m v b d first = Some r ∧
    (r = true ↔ bits_agree v b d (8 * first) (8 * (first + Z.of_nat m))).
Proof.
  revert first. induction m as [|m IH]; intros first Hf Hm; cbn [equal_octets].
  { exists true. split; [done|]. split; [|done]. intros _ k Hk. lia. }
  destruct (octet_pair first) as (x & s & Hx & Hs & Ux & Us); [lia|].
  rewrite Hx, Hs. cbn [mbind option_bind].
  assert (bits_agree v b d (8 * first) (8 * (first + Z.of_nat (S m))) ↔
          x = s ∧ bits_agree v b d (8 * (first + 1)) (8 * (first + 1 + Z.of_nat m))) as Hiff.
  { rewrite (bits_agree_split _ _ _ _ (8 * first + 0 + 8)) by lia.
    replace (8 * first) with (8 * first + 0) at 1 by lia.
    rewrite (bits_agree_octet v b d first 0 8 x s) by (done || lia).
    replace (8 * first + 0 + 8) with (8 * (first + 1)) by lia.
    replace (first + 1 + Z.of_nat m) with (first + Z.of_nat (S m)) by lia.
    split; intros [E ?]; (split; [|done]).
    - apply octet_ext; [done..|]. intros k Hk. apply E. lia.
    - by subst. }
  destruct (Z.eqb_spec x s) as [->|Hne].
  - destruct (IH (first + 1)) as (r & -> & Hr); [lia..|]. exists r. split; [done|]. rewrite Hiff. tauto.
  - exists false. split; [done|]. rewrite Hiff. split; [done|]. by intros [? _].
Qed.
End compare.

Lemma comparator_agree f v c p st :
  header_get_field_comprator f v = Some c → field_at f p st →
  octets_ok v (buf p) (field_octets f) →
  ∃ r, c f v p = Some r ∧
    (r = true ↔ bits_agree v (buf p) (st + hf_bitoffset f / 8)
                  (hf_bitoffset f mod 8) (hf_bitoffset f mod 8 + hf_bitcount f)).
Proof.
  intros Hw [Ha Hst Hoff Hcnt Hfit] Hs. unfold header_get_field_comprator in Hw.
  destruct (same_shape f v) eqn:Hsh; [|done]. apply same_shape_true in Hsh as [Ec Eo].
  set (d := st + hf_bitoffset f / 8) in *. unfold field_octets in *.
  set (o := hf_bitoffset f mod 8) in *. set (c0 := hf_bitcount f) in *.
  assert (0 <= o < 8) by (unfold o; lia). cbn [negb] in Hw.
  assert (0 <= d) by (unfold d; lia).
  pose proof (equal_octets_spec v (buf p) d _ Hs ltac:(lia) Hfit) as EO.
  pose proof (equal_masked_spec v (buf p) d _ Hs ltac:(lia) Hfit) as EM.
  destruct (octet_aligned f v) eqn:Hal; [|destruct (Z.leb_spec (o + c0) 8)]; injection Hw as <-.
  - unfold octet_aligned in Hal. fold o c0 in Hal. rewrite !andb_true_iff, !Z.eqb_eq in Hal.
    unfold compare_bytes. rewrite Ha. cbn [mbind option_bind].
    destruct (EO (Z.to_nat (v_bitcount v / 8)) 0) as (r & -> & Hr); [lia..|].
    exists r. split; [done|]. rewrite Hr. by replace (8 * (0 + _)) with (o + c0) by lia; replace (8 * 0) with o by lia.
  - unfold compare_bits. rewrite Ha. cbn [mbind option_bind]. fold o c0.
    rewrite u32_small by (unfold is_u32; lia). apply (EM 0 o c0); lia.
  - unfold compare_generic. rewrite Ha. cbn [mbind option_bind]. fold o c0.
    rewrite Z.min_r by lia. rewrite u32_small by (unfold is_u32; lia).
    set (rb := c0 - (8 - o)). assert (0 < rb) by (unfold rb; lia).
    assert (c0 = rb + (8 - o)) as Ecr by (unfold rb; lia). clearbody rb.
    set (A := bits_agree v (buf p) d).
    assert (A o (o + c0) ↔ A (8 * 0 + o) (8 * 0 + o + (8 - o)) ∧
      A (8 * 1) (8 * (1 + Z.of_nat (Z.to_nat (rb / 8)))) ∧
      A (8 * (1 + rb / 8) + 0) (8 * (1 + rb / 8) + 0 + (rb - rb / 8 * 8))) as Hall.
    { unfold A. rewrite (bits_agree_split _ _ _ o 8), (bits_agree_split _ _ _ 8 (8 * (1 + rb / 8)) (o + c0)) by lia.
      replace (8 * 0 + o) with o by lia. replace (o + (8 - o)) with 8 by lia.
      rewrite Z2Nat.id, Z.add_0_r, (Z.mul_1_r 8) by lia.
      by replace (8 * (1 + rb / 8) + (rb - rb / 8 * 8)) with (o + c0) by lia. }
    destruct (EM 0 o (8 - o)) as (r1 & -> & R1); [lia..|]. cbn [mbind option_bind].
    destruct (EO (Z.to_nat (rb / 8)) 1) as (r2 & -> & R2); [lia..|]. cbn [mbind option_bind].
    fold A in R1, R2.
    destruct r1, r2; cbn [negb]; try (exists false; split; [done|]; rewrite Hall; intuition congruence).
    destruct (Z.eqb_spec (rb - rb / 8 * 8) 0) as [E|E]; cbn [negb].
    + exists true. split; [done|]. rewrite Hall. split; [|done]. intros _.
      split_and!; [by apply R1 | by apply R2 | rewrite E; intros k Hk; lia].
    + destruct (EM (1 + rb / 8) 0 (rb - rb / 8 * 8)) as (r3 & E3 & R3); [lia..|].
      rewrite Z.sub_0_r in E3. rewrite E3. exists r3. split; [done|]. fold A in R3. rewrite Hall. tauto.
Qed.

(** The bits of a field, counted from its first bit. *)
Lemma bits_agree_field f v b st :
  same_shape f v = true →
  bits_agree v b (st + hf_bitoffset f / 8) (hf_bitoffset f mod 8) (hf_bitoffset f mod 8 + hf_bitcount f) ↔
  ∀ j, 0 <= j < hf_bitcount f → mbit b (8 * st + hf_bitoffset f + j) = value_bit v b j.
Proof.
  intros [_ Eo]%same_shape_true. unfold bits_agree, value_bit. split; intros H j Hj.
  - rewrite Eo, <- H by lia. f_equal. lia.
  - specialize (H (j - hf_bitoffset f mod 8)). rewrite Eo in H.
    replace (hf_bitoffset f mod 8 + (j - hf_bitoffset f mod 8)) with j in H by lia.
    rewrite <- H by lia. f_equal. lia.
Qed.

Lemma comparator_shape f v c : header_get_field_comprator f v = Some c → same_shape f v = true.
Proof. unfold header_get_field_comprator. by destruct (same_shape f v). Qed.

Lemma comparator_bits f v c p st :
  header_get_field_comprator f v = Some c → field_at f p st →
  octets_ok v (buf p) (field_octets f) →
  ∃ r, c f v p = Some r ∧
    (r = true ↔ ∀ j, 0 <= j < hf_bitcount f →
       mbit (buf p) (8 * st + hf_bitoffset f + j) = value_bit v (buf p) j).
Proof.
  intros Hc Hf Hs. destruct (comparator_agree f v c p st Hc Hf Hs) as (r & E & R).
  exists r. split; [done|]. rewrite R. apply bits_agree_field. by eapply comparator_shape.
Qed.

(** C12: comparing a header field.  The comparator that is selected for a field
    and a value of the same shape returns true exactly when every bit of the
    field equals the corresponding bit of the value. *)
Theorem field_compare_spec f v c p st :
  header_get_field_comprator f v = Some c → field_at f p st →
  octets_ok v (buf p) (field_octets f) →
  ∃ r, c f v p = Some r ∧
    (r = true ↔ ∀ j, 0 <= j < hf_bitcount f →
       mbit (buf p) (8 * st + hf_bitoffset f + j) = value_bit v (buf p) j).
Proof. apply comparator_bits. Qed.

Lemma field_compare_spec_witness :
  ∃ r, compare_generic vid_field vid_value vlan_packet = Some r ∧
    (r = true ↔ ∀ j, 0 <= j < 12 → mbit (buf vlan_packet) (8 * 14 + 4 + j) = value_bit vid_value (buf vlan_packet) j).
Proof.
  apply (field_compare_spec vid_field vid_value compare_generic vlan_packet 14);
    [reflexivity | exact vid_field_at |].
  split; [apply Forall_replicate; unfold is_u8; lia|].
  intros i Hi. change (field_octets vid_field) with 2 in Hi.
  assert (i = 0 ∨ i = 1) as [->| ->] by lia; (eexists; split; [reflexivity|]; unfold is_u8; lia).
Defined.

End Field.
