(* ===== verification/Checksum.v ===== *)
(** * Internet checksums (inet_utils.c: csum_fold, csum_partial; checksum.h, checksum.c)

    The one's complement sum over octets at any alignment, the checksums of
    IPv4, ICMPv4, ICMPv6, TCP and UDP headers, and their verification.

    Packet buffers come from [malloc], so the address of octet [a] of a buffer
    has the remainder of [a] modulo 4; a pseudo header is an array on the stack
    at any address.  [csum_partial] adds 32-bit words with the carry and 16-bit
    words without it.  The 16-bit addition is a parameter of the definitions:
    [wrap16] is the addition of the code, [checked16] fails where it wraps. *)

From S2P Require Import Prelude Protocol Packet.
Import Proto Pkt.

Module Csum.

Record ChecksumParameters := mk_cp {
  hdr_idx : Z;
  hdr_proto : ProtocolID;
  ip_idx : Z;
  ip_version : ProtocolID
}.

Definition csum_fold (sum : Z) : Z :=
  let sum := Z.land sum 65535 + Z.shiftr sum 16 in
  let sum := Z.land sum 65535 + Z.shiftr sum 16 in
  ntohs (u16 (Z.lnot sum)).

Definition wrap16 (sum w : Z) : option Z := Some (u32 (sum + w)).
Definition checked16 (sum w : Z) : option Z := if sum + w <? 4294967296 then Some (sum + w) else None.

(** [if (__builtin_uadd_overflow(sum, w, &sum)) sum++;] *)
Definition add_carry (sum w : Z) : Z :=
  if sum + w >=? 4294967296 then u32 (u32 (sum + w) + 1) else sum + w.

(** Little-endian loads of 16-bit and 32-bit words. *)
Definition load16 (m : mem) (a : Z) : option Z :=
  x ← load m a; y ← load m (a + 1); Some (x + 256 * y).
Definition load32 (m : mem) (a : Z) : option Z :=
  x ← load16 m a; y ← load16 m (a + 2); Some (x + 65536 * y).

Section partial.
Context (add16 : Z → Z → option Z).

(** [sw16] and [sw32] are the byte swaps of the odd-address branch, the
    identity in the other one; [last8] weighs the last octet. *)
Context (sw16 sw32 last8 : Z → Z).

(** [while (len > 3) { ...; p32++; len -= 4; }] *)
Fixpoint words32 (n : nat) (m : mem) (a sum : Z) : option Z :=
  match n with
  | O => Some sum
  | S n => w ← load32 m a; words32 n m (a + 4) (add_carry sum (sw32 w))
  end.

(** [while (len > 1) { sum += ...; len -= 2; }] *)
Fixpoint words16 (n : nat) (m : mem) (a sum : Z) : option Z :=
  match n with
  | O => Some sum
  | S n => w ← load16 m a; sum ← add16 sum (sw16 w); words16 n m (a + 2) sum
  end.

(** The part of a branch that starts at a 16-bit aligned address. *)
Definition csum_words (base : Z) (m : mem) (a len sum : Z) : option Z :=
  '(a, len, sum) ←
    (if (len >=? 2) && negb (Z.land (base + a) 3 =? 0)
     then w ← load16 m a; sum ← add16 sum (sw16 w); Some (a + 2, len - 2, sum)
     else Some (a, len, sum));
  let n32 := len / 4 in
  sum ← words32 (Z.to_nat n32) m a sum;
  let '(a, len) := (a + 4 * n32, len - 4 * n32) in
  let n16 := len / 2 in
  sum ← words16 (Z.to_nat n16) m a sum;
  let '(a, len) := (a + 2 * n16, len - 2 * n16) in
  if len =? 1 then x ← load m a; add16 sum (last8 x) else Some sum.
End partial.

(** [m] is the object that holds the data, [base] its address. *)
Definition csum_partial_with (add16 : Z → Z → option Z) (base : Z) (m : mem) (a len sum : Z) : option Z :=
  if len =? 0 then Some sum
  else if Z.land (base + a) 1 =? 1 then
    x ← load m a;
    sum ← add16 sum (htole16 x);
    csum_words add16 bswap_16 bswap_32 ntohs base m (a + 1) (len - 1) sum
  else csum_words add16 (λ w, w) (λ w, w) htole16 base m a len sum.

Definition csum_partial : Z → mem → Z → Z → Z → option Z := csum_partial_with wrap16.

(** ** Checksums of headers *)

Definition hdr_at (p : Packet) (i : Z) : option PacketHeader :=
  if 0 <=? i then headers p !! Z.to_nat i else None.

(** The length correction subtracts the length of the checksummed header once
    for each header between it and the IP header. *)
Definition payload_length (p : Packet) (cp : ChecksumParameters) : option Z :=
  ih ← hdr_at p (ip_idx cp);
  let iph i := load (buf p) (h_start ih + i) in
  len ← (if decide (ip_version cp = PROTO_ID_IPv4) then
           l2 ← iph 2; l3 ← iph 3; i0 ← iph 0;
           Some (u16 (u16 (Z.shiftl l2 8 + l3) - Z.land i0 15 * 4))
         else l4 ← iph 4; l5 ← iph 5; Some (u16 (Z.shiftl l4 8 + l5)));
  let between := hdr_idx cp - (ip_idx cp + 1) in
  if between <=? 0 then Some len
  else h ← hdr_at p (hdr_idx cp); Some (u16 (len - between * h_len h)).

Section csum.
Context (add16 : Z → Z → option Z).
Context (stack : Z).  (* address of the pseudo header array *)

Definition ipv4_header_csum (p : Packet) (iph : Z) : option Z :=
  i0 ← load (buf p) iph;
  let iplen := Z.land i0 15 * 4 in
  csum32 ← csum_partial_with add16 0 (buf p) iph iplen 0;
  Some (csum_fold csum32).

(** [for (i=cp->hdr_idx; i<p->header_count; i++) ...] over the headers [hs]. *)
Fixpoint sum_headers (b : mem) (hs : list PacketHeader) (len sum : Z) : option Z :=
  match hs with
  | [] => Some sum
  | h :: hs =>
      let hlen := Z.min len (h_len h) in
      sum ← csum_partial_with add16 0 b (h_start h) hlen sum;
      sum_headers b hs (u16 (len - hlen)) sum
  end.

Definition icmpv4_csum (p : Packet) (cp : ChecksumParameters) : option Z :=
  len ← payload_length p cp;
  csum32 ← sum_headers (buf p) (drop (Z.to_nat (hdr_idx cp)) (active p)) len 0;
  Some (csum_fold csum32).

Definition protoid_of (id : ProtocolID) : option Z :=
  match id with
  | PROTO_ID_ICMPv6 => Some IPPROTO_ICMPV6
  | PROTO_ID_TCP => Some IPPROTO_TCP
  | PROTO_ID_UDP => Some IPPROTO_UDP
  | _ => None
  end.

(** The pseudo header octets that follow the addresses. *)
Definition pseudo_header (v : ProtocolID) (protoid len : Z) : mem :=
  let hi := Z.land (Z.shiftr len 8) 255 in
  let lo := Z.land len 255 in
  if decide (v = PROTO_ID_IPv4) then [0; protoid; hi; lo] else [0; 0; hi; lo; 0; 0; 0; protoid].

Definition layer4_csum (p : Packet) (cp : ChecksumParameters) : option Z :=
  match protoid_of (hdr_proto cp) with
  | None => Some 65535
  | Some protoid =>
      len ← payload_length p cp;
      ih ← hdr_at p (ip_idx cp);
      csum32 ← (if decide (ip_version cp = PROTO_ID_IPv4)
                then csum_partial_with add16 0 (buf p) (h_start ih + 12) 8 0
                else csum_partial_with add16 0 (buf p) (h_start ih + 8) 32 0);
      let pseudo := pseudo_header (ip_version cp) protoid len in
      csum32 ← csum_partial_with add16 stack pseudo 0 (Z.of_nat (length pseudo)) csum32;
      csum32 ← sum_headers (buf p) (drop (Z.to_nat (hdr_idx cp)) (active p)) len csum32;
      Some (csum_fold csum32)
  end.

(** The position of the checksum in a header. *)
Definition csum_pos (id : ProtocolID) : option Z :=
  match id with
  | PROTO_ID_IPv4 => Some 10
  | PROTO_ID_ICMPv4 => Some 2
  | PROTO_ID_ICMPv6 => Some 2
  | PROTO_ID_TCP => Some 16
  | PROTO_ID_UDP => Some 6
  | _ => None
  end.

Definition header_csum (p : Packet) (cp : ChecksumParameters) : option Z :=
  match hdr_proto cp with
  | PROTO_ID_IPv4 => h ← hdr_at p (hdr_idx cp); ipv4_header_csum p (h_start h)
  | PROTO_ID_ICMPv4 => icmpv4_csum p cp
  | _ => layer4_csum p cp
  end.

Definition store2 (b : mem) (a x y : Z) : option mem := b ← store b a x; store b (a + 1) y.

Definition checksum_compute_with (p : Packet) (cp : ChecksumParameters) : option Packet :=
  h ← hdr_at p (hdr_idx cp);
  match csum_pos (hdr_proto cp) with
  | None => Some p
  | Some pos =>
      let csumpos := h_start h + pos in
      b ← store2 (buf p) csumpos 0 0;
      let p := p <| buf := b |> in
      csum16 ← header_csum p cp;
      b ← store2 (buf p) csumpos (Z.land (Z.shiftr csum16 8) 255) (Z.land csum16 255);
      Some (p <| buf := b |>)
  end.

(** The second result is the increment of the receive interface's
    [checksum_errors] counter. *)
Definition checksum_verify_with (p : Packet) (cp : ChecksumParameters) : option (bool * Z) :=
  csum16 ← header_csum p cp;
  if csum16 =? 0 then Some (true, 0)
  else Some (false, if from p is Some _ then 1 else 0).
End csum.

Definition checksum_compute : Z → Packet → ChecksumParameters → option Packet := checksum_compute_with wrap16.
Definition checksum_verify : Z → Packet → ChecksumParameters → option (bool * Z) := checksum_verify_with wrap16.

(** ** The one's complement sum *)

Definition octet_at (m : mem) (a : Z) : Z := default 0 (load m a).

(** The weight of an octet in a sum of little-endian 16-bit words: even
    positions ([ph = false]) are low octets. *)
Definition weight (ph : bool) (x : Z) : Z := if ph then 256 * x else x.

(** The sum of [n] octets at [a], the first one in phase [ph]. *)
Fixpoint msum (n : nat) (m : mem) (a : Z) (ph : bool) : Z :=
  match n with
  | O => 0
  | S n => weight ph (octet_at m a) + msum n m (a + 1) (negb ph)
  end.

(** [s] is the one's complement sum of the numbers that add up to [t]: it has
    the same remainder modulo [2^16-1], and is zero only for zero. *)
Definition oc (s t : Z) : Prop :=
  s mod 65535 = t mod 65535 ∧ (s = 0 ↔ t = 0) ∧ 0 <= s < 4294967296 ∧ 0 <= t.

Lemma oc_refl s : 0 <= s < 4294967296 → oc s s.
Proof. intros. split_and!; done || lia. Qed.

Lemma oc_add_carry s t w w' :
  oc s t → oc w w' → oc (add_carry s w) (t + w').
Proof.
  intros (H1 & H2 & H3 & H4) (G1 & G2 & G3 & G4). unfold oc, add_carry, u32.
  destruct (Z.geb_spec (s + w) 4294967296).
  - rewrite (Z.mod_small (_ + 1)) by lia. split_and!; lia.
  - split_and!; lia.
Qed.

Lemma oc_checked16 s t w w' s' : oc s t → oc w w' → checked16 s w = Some s' → oc s' (t + w').
Proof.
  unfold checked16, oc. intros (H1 & H2 & H3 & H4) (G1 & G2 & G3 & G4).
  destruct (Z.ltb_spec (s + w) 4294967296); intros; simplify_eq. split_and!; lia.
Qed.

(** Folding, negating and swapping: the fold [f] of the sum is its remainder in
    the representation where only zero is represented by zero. *)
Lemma csum_fold_spec s t :
  oc s t →
  ∃ f, csum_fold s = bswap_16 (65535 - f) ∧ 0 <= f <= 65535 ∧ f mod 65535 = t mod 65535 ∧ (f = 0 ↔ t = 0).
Proof.
  intros (H1 & H2 & H3 & H4). unfold csum_fold. cbv zeta. rewrite !land_ffff, !Z.shiftr_div_pow2 by lia.
  change (2 ^ 16) with 65536.
  set (a := s mod 65536 + s / 65536). set (f := a mod 65536 + a / 65536).
  exists f. unfold ntohs. split_and!; try (unfold f, a; lia).
  f_equal. unfold u16, Z.lnot. unfold f, a. lia.
Qed.

Lemma csum_fold_zero s t : oc s t → csum_fold s = 0 ↔ t mod 65535 = 0 ∧ t ≠ 0.
Proof.
  intros H. destruct (csum_fold_spec s t H) as (f & -> & Hf & Hm & Hz).
  unfold bswap_16, byte_of. change (2 ^ (8 * 0)) with 1. change (2 ^ (8 * 1)) with 256.
  destruct H as (_ & _ & _ & Ht). split; intros; lia.
Qed.

Section oc_words.
Context (m : mem) (Hm : bytes_ok m).

Lemma octet_at_u8 a : is_u8 (octet_at m a).
Proof.
  unfold octet_at. destruct (load m a) as [x|] eqn:E; [|by unfold is_u8; cbn; lia].
  exact (load_byte _ _ _ Hm E).
Qed.

Lemma load16_octets a w : load16 m a = Some w → w = octet_at m a + 256 * octet_at m (a + 1).
Proof.
  unfold load16, octet_at. destruct (load m a), (load m (a + 1)); cbn; intros; by simplify_eq.
Qed.

Lemma load32_octets a w :
  load32 m a = Some w →
  w = octet_at m a + 256 * octet_at m (a + 1)
      + 65536 * octet_at m (a + 2) + 16777216 * octet_at m (a + 2 + 1).
Proof.
  unfold load32. destruct (load16 m a) as [x|] eqn:E1; [|done]. cbn [mbind option_bind].
  destruct (load16 m (a + 2)) as [y|] eqn:E2; [|done]. cbn [mbind option_bind].
  apply load16_octets in E1, E2. intros [= <-]. lia.
Qed.

Lemma msum_nonneg n a ph : 0 <= msum n m a ph.
Proof.
  revert a ph. induction n as [|n IH]; intros a ph; cbn [msum]; [lia|].
  specialize (IH (a + 1) (negb ph)). pose proof (octet_at_u8 a). unfold is_u8, weight in *.
  destruct ph; lia.
Qed.

Lemma msum_add n k a ph :
  msum (n + k) m a ph = msum n m a ph + msum k m (a + Z.of_nat n) (xorb ph (Nat.odd n)).
Proof.
  revert a ph. induction n as [|n IH]; intros a ph.
  - cbn [Nat.add msum]. rewrite Z.add_0_r. by destruct ph.
  - cbn [Nat.add msum]. rewrite IH. rewrite Nat.odd_succ, <- Nat.negb_odd.
    replace (a + 1 + Z.of_nat n) with (a + Z.of_nat (S n)) by lia.
    replace (xorb (negb ph) (Nat.odd n)) with (xorb ph (negb (Nat.odd n)))
      by (by destruct ph, (Nat.odd n)). lia.
Qed.

Section phase.
Context (ph : bool) (sw16 sw32 last8 : Z → Z).
Context (H16 : ∀ x y, is_u8 x → is_u8 y → sw16 (x + 256 * y) = weight ph x + weight (negb ph) y).
Context (H32 : ∀ x y z u, is_u8 x → is_u8 y → is_u8 z → is_u8 u →
  oc (sw32 (x + 256 * y + 65536 * z + 16777216 * u))
     (weight ph x + weight (negb ph) y + (weight ph z + weight (negb ph) u))).
Context (H8 : ∀ x, is_u8 x → last8 x = weight ph x).

Lemma oc_weight2 x y : is_u8 x → is_u8 y → oc (weight ph x + weight (negb ph) y) (weight ph x + weight (negb ph) y).
Proof. intros Hx Hy. apply oc_refl. unfold is_u8, weight in *. destruct ph; cbn; lia. Qed.

Lemma words32_oc n a s t s' :
  oc s t → words32 sw32 n m a s = Some s' → oc s' (t + msum (4 * n) m a ph).
Proof.
  revert a s t. induction n as [|n IH]; intros a s t Hs; cbn [words32].
  { intros [= <-]. cbn [Nat.mul msum]. by rewrite Z.add_0_r. }
  destruct (load32 m a) as [w|] eqn:E; [|done]. cbn [mbind option_bind]. intros Hw.
  apply load32_octets in E. eapply IH in Hw.
  2: { apply oc_add_carry; [exact Hs|]. rewrite E. apply H32; apply octet_at_u8. }
  replace (4 * S n)%nat with (4 + 4 * n)%nat by lia. rewrite msum_add. cbn [msum].
  rewrite negb_involutive. replace (xorb ph (Nat.odd 4)) with ph by (by destruct ph).
  replace (a + 1 + 1 + 1) with (a + 2 + 1) by lia. replace (a + 1 + 1) with (a + 2) by lia.
  change (Z.of_nat 4) with 4. eapply eq_rect; [exact Hw|]. lia.
Qed.

Lemma add16_oc a s t s' :
  oc s t → checked16 s (sw16 (octet_at m a + 256 * octet_at m (a + 1))) = Some s' →
  oc s' (t + msum 2 m a ph).
Proof.
  intros Hs E. rewrite H16 in E by apply octet_at_u8. eapply oc_checked16 in E; [|exact Hs|].
  - cbn [msum]. by rewrite Z.add_0_r.
  - apply oc_weight2; apply octet_at_u8.
Qed.

Lemma words16_oc n a s t s' :
  oc s t → words16 checked16 sw16 n m a s = Some s' → oc s' (t + msum (2 * n) m a ph).
Proof.
  revert a s t. induction n as [|n IH]; intros a s t Hs; cbn [words16].
  { intros [= <-]. cbn [Nat.mul msum]. by rewrite Z.add_0_r. }
  destruct (load16 m a) as [w|] eqn:E; [|done]. cbn [mbind option_bind].
  apply load16_octets in E. subst w.
  destruct (checked16 _ _) as [s1|] eqn:E1; [|done]. cbn [mbind option_bind]. intros Hw.
  eapply IH in Hw; [|exact (add16_oc _ _ _ _ Hs E1)].
  replace (2 * S n)%nat with (2 + 2 * n)%nat by lia. rewrite msum_add.
  replace (xorb ph (Nat.odd 2)) with ph by (by destruct ph).
  change (Z.of_nat 2) with 2. by rewrite Z.add_assoc.
Qed.

Lemma csum_words_oc base a len s t s' :
  0 <= len → oc s t → csum_words checked16 sw16 sw32 last8 base m a len s = Some s' →
  oc s' (t + msum (Z.to_nat len) m a ph).
Proof.
  intros Hlen Hs. unfold csum_words.
  set (pre := if (len >=? 2) && _ then _ else _).
  destruct pre as [[[a1 len1] s1]|] eqn:Epre; [|done]. cbn [mbind option_bind].
  assert (∃ t1, oc s1 t1 ∧ 0 <= len1 ∧
    t + msum (Z.to_nat len) m a ph = t1 + msum (Z.to_nat len1) m a1 ph) as (t1 & Hs1 & Hl1 & Et1).
  { unfold pre in Epre. destruct (Z.geb_spec len 2); cbn [andb] in Epre; [|simplify_eq; eauto].
    destruct (negb (Z.land (base + a) 3 =? 0)); [|simplify_eq; eauto].
    destruct (load16 m a) as [w|] eqn:E; [|done]. cbn [mbind option_bind] in Epre.
    apply load16_octets in E. subst w. destruct (checked16 s _) as [s2|] eqn:E2; [|done].
    cbn [mbind option_bind] in Epre. simplify_eq. exists (t + msum 2 m a ph).
    split; [exact (add16_oc _ _ _ _ Hs E2)|]. split; [lia|].
    replace (Z.to_nat len) with (2 + Z.to_nat (len - 2))%nat by lia. rewrite msum_add.
    replace (xorb ph (Nat.odd 2)) with ph by (by destruct ph). change (Z.of_nat 2) with 2. lia. }
  rewrite Et1. clear pre Epre Et1 Hs Hlen. set (n32 := len1 / 4).
  destruct (words32 _ _ _ _ _) as [s2|] eqn:E2; [|done]. cbn [mbind option_bind].
  eapply words32_oc in E2; [|exact Hs1].
  set (n16 := (len1 - 4 * n32) / 2).
  destruct (words16 _ _ _ _ _ _) as [s3|] eqn:E3; [|done]. cbn [mbind option_bind].
  eapply words16_oc in E3; [|exact E2].
  replace (Z.to_nat len1) with (4 * Z.to_nat n32 + (2 * Z.to_nat n16 + Z.to_nat (len1 - 4 * n32 - 2 * n16)))%nat
    by (unfold n16, n32; lia).
  rewrite !msum_add, !Nat.odd_mul. cbn [Nat.odd Nat.even negb andb]. rewrite !xorb_false_r.
  replace (a1 + Z.of_nat (4 * Z.to_nat n32)) with (a1 + 4 * n32) by (unfold n32; lia).
  replace (a1 + 4 * n32 + Z.of_nat (2 * Z.to_nat n16)) with (a1 + 4 * n32 + 2 * n16) by (unfold n16, n32; lia).
  rewrite !Z.add_assoc. destruct (Z.eqb_spec (len1 - 4 * n32 - 2 * n16) 1) as [El|El].
  - rewrite El. destruct (load m _) as [x|] eqn:Ex; [|done]. cbn [mbind option_bind].
    assert (x = octet_at m (a1 + 4 * n32 + 2 * n16)) as -> by (unfold octet_at; by rewrite Ex).
    rewrite H8 by apply octet_at_u8. intros Hc. eapply oc_checked16 in Hc; [|exact E3|].
    + change (Z.to_nat 1) with 1%nat. cbn [msum]. by rewrite Z.add_0_r.
    + apply oc_refl. pose proof (octet_at_u8 (a1 + 4 * n32 + 2 * n16)). unfold is_u8, weight in *. destruct ph; lia.
  - intros [= <-]. replace (len1 - 4 * n32 - 2 * n16) with 0 by (unfold n16, n32 in *; lia).
    cbn [Z.to_nat msum]. by rewrite Z.add_0_r.
Qed.
End phase.
End oc_words.

(** ** csum_partial *)

Lemma swap16_phase x y : is_u8 x → is_u8 y → bswap_16 (x + 256 * y) = weight true x + weight (negb true) y.
Proof.
  unfold is_u8, bswap_16, byte_of, weight. intros. cbn [negb].
  change (2 ^ (8 * 0)) with 1. change (2 ^ (8 * 1)) with 256. lia.
Qed.

Lemma swap32_phase x y z u :
  is_u8 x → is_u8 y → is_u8 z → is_u8 u →
  oc (bswap_32 (x + 256 * y + 65536 * z + 16777216 * u))
     (weight true x + weight (negb true) y + (weight true z + weight (negb true) u)).
Proof.
  intros Hx Hy Hz Hu. unfold bswap_32.
  destruct (byte_of_word32 x y z u Hx Hy Hz Hu) as (-> & -> & -> & ->).
  unfold is_u8, oc, weight in *. cbn [negb]. split_and!; lia.
Qed.

Lemma noswap32_phase x y z u :
  is_u8 x → is_u8 y → is_u8 z → is_u8 u →
  oc (x + 256 * y + 65536 * z + 16777216 * u)
     (weight false x + weight (negb false) y + (weight false z + weight (negb false) u)).
Proof. unfold is_u8, oc, weight. cbn [negb]. intros. split_and!; lia. Qed.

Lemma ntohs_octet x : is_u8 x → ntohs x = weight true x.
Proof.
  unfold is_u8, ntohs, bswap_16, byte_of, weight. intros.
  change (2 ^ (8 * 0)) with 1. change (2 ^ (8 * 1)) with 256. lia.
Qed.

(** A run in which no 16-bit addition wraps computes the one's complement sum,
    whatever the alignment of the data. *)
Lemma csum_partial_oc base m a len s t s' :
  bytes_ok m → 0 <= len → oc s t →
  csum_partial_with checked16 base m a len s = Some s' → oc s' (t + msum (Z.to_nat len) m a false).
Proof.
  intros Hm Hlen Hs. unfold csum_partial_with. destruct (Z.eqb_spec len 0) as [->|Hne].
  { intros [= <-]. cbn [Z.to_nat msum]. by rewrite Z.add_0_r. }
  destruct (Z.land (base + a) 1 =? 1).
  - destruct (load m a) as [x|] eqn:Ex; [|done]. cbn [mbind option_bind].
    destruct (checked16 _ _) as [s1|] eqn:E1; [|done]. cbn [mbind option_bind]. intros Hw.
    assert (x = octet_at m a) as -> by (unfold octet_at; by rewrite Ex).
    pose proof (octet_at_u8 m Hm a) as Hu.
    assert (oc s1 (t + octet_at m a)) as Hs1.
    { eapply oc_checked16; [exact Hs | | exact E1]. apply oc_refl. unfold is_u8, htole16 in *. lia. }
    eapply (csum_words_oc m Hm true) in Hw; [|apply swap16_phase | apply swap32_phase | apply ntohs_octet | lia | exact Hs1].
    replace (Z.to_nat len) with (S (Z.to_nat (len - 1))) by lia. cbn [msum weight negb].
    by rewrite Z.add_assoc.
  - intros Hw. eapply (csum_words_oc m Hm false) in Hw;
      [done | by intros | apply noswap32_phase | done | lia | exact Hs].
Qed.

(** Where no 16-bit addition wraps, the code computes the same. *)
Section no_wrap.
Context (m : mem) (Hm : bytes_ok m).
Context (sw16 sw32 last8 : Z → Z).
Context (P16 : ∀ w, 0 <= w → 0 <= sw16 w) (P8 : ∀ w, 0 <= w → 0 <= last8 w) (P32 : ∀ w, 0 <= w → 0 <= sw32 w).

Lemma checked_wrap s w s' : 0 <= s → 0 <= w → checked16 s w = Some s' → wrap16 s w = Some s' ∧ 0 <= s'.
Proof.
  unfold checked16, wrap16, u32. intros H0 H1.
  destruct (Z.ltb_spec (s + w) 4294967296); intros; simplify_eq. split; [f_equal|]; lia.
Qed.

Lemma load16_nonneg a w : load16 m a = Some w → 0 <= w.
Proof.
  intros ->%load16_octets. pose proof (octet_at_u8 m Hm a). pose proof (octet_at_u8 m Hm (a + 1)).
  unfold is_u8 in *. lia.
Qed.

Lemma words32_nonneg n a s s' : 0 <= s → words32 sw32 n m a s = Some s' → 0 <= s'.
Proof using Hm P32.
  revert a s. induction n as [|n IH]; intros a s Hs; cbn [words32]; [by intros [= <-]|].
  destruct (load32 m a) as [w|] eqn:E; [|done]. cbn [mbind option_bind]. apply IH.
  unfold add_carry, u32. assert (0 <= w).
  { apply load32_octets in E. pose proof (octet_at_u8 m Hm a). pose proof (octet_at_u8 m Hm (a + 1)).
    pose proof (octet_at_u8 m Hm (a + 2)). pose proof (octet_at_u8 m Hm (a + 2 + 1)). unfold is_u8 in *. lia. }
  specialize (P32 w). case_match; lia.
Qed.

Lemma words16_wrap n a s s' :
  0 <= s → words16 checked16 sw16 n m a s = Some s' → words16 wrap16 sw16 n m a s = Some s' ∧ 0 <= s'.
Proof using Hm P16.
  revert a s. induction n as [|n IH]; intros a s Hs; cbn [words16]; [by intros [= <-]|].
  destruct (load16 m a) as [w|] eqn:E; [|done]. cbn [mbind option_bind].
  destruct (checked16 _ _) as [s1|] eqn:E1; [|done]. cbn [mbind option_bind].
  apply checked_wrap in E1 as [-> ?]; [by apply IH | done | by eapply P16, load16_nonneg].
Qed.

Lemma csum_words_wrap base a len s s' :
  0 <= s → csum_words checked16 sw16 sw32 last8 base m a len s = Some s' →
  csum_words wrap16 sw16 sw32 last8 base m a len s = Some s'.
Proof using Hm P16 P8 P32.
  intros Hs. unfold csum_words.
  assert (∀ s2 a2 len2, 0 <= s2 →
    ('(a, len) ← Some (a2, len2); sum ← words32 sw32 (Z.to_nat (len / 4)) m a s2;
     sum ← words16 checked16 sw16 (Z.to_nat ((len - 4 * (len / 4)) / 2)) m (a + 4 * (len / 4)) sum;
     if len - 4 * (len / 4) - 2 * ((len - 4 * (len / 4)) / 2) =? 1
     then x ← load m (a + 4 * (len / 4) + 2 * ((len - 4 * (len / 4)) / 2)); checked16 sum (last8 x)
     else Some sum) = Some s' →
    ('(a, len) ← Some (a2, len2); sum ← words32 sw32 (Z.to_nat (len / 4)) m a s2;
     sum ← words16 wrap16 sw16 (Z.to_nat ((len - 4 * (len / 4)) / 2)) m (a + 4 * (len / 4)) sum;
     if len - 4 * (len / 4) - 2 * ((len - 4 * (len / 4)) / 2) =? 1
     then x ← load m (a + 4 * (len / 4) + 2 * ((len - 4 * (len / 4)) / 2)); wrap16 sum (last8 x)
     else Some sum) = Some s') as Tail.
  { intros s2 a2 len2 Hs2. cbn [mbind option_bind].
    destruct (words32 _ _ _ _ _) as [s3|] eqn:E3; [|done]. cbn [mbind option_bind].
    apply words32_nonneg in E3; [|done].
    destruct (words16 checked16 _ _ _ _ _) as [s4|] eqn:E4; [|done]. cbn [mbind option_bind].
    apply words16_wrap in E4 as [-> H4]; [|done]. cbn [mbind option_bind].
    destruct (_ =? 1); [|done]. destruct (load m _) as [x|] eqn:Ex; [|done]. cbn [mbind option_bind].
    intros E. apply checked_wrap in E as [-> _]; [done | done |].
    apply P8. apply load_byte in Ex; [|done]. unfold is_u8 in Ex. lia. }
  destruct ((len >=? 2) && _); [|by apply (Tail s a len)].
  destruct (load16 m a) as [w|] eqn:E; [|done]. cbn [mbind option_bind].
  destruct (checked16 _ _) as [s1|] eqn:E1; [|done].
  apply checked_wrap in E1 as [-> ?]; [| done | by eapply P16, load16_nonneg].
  cbn [mbind option_bind]. by apply (Tail s1 (a + 2) (len - 2)).
Qed.
End no_wrap.

Lemma csum_partial_wrap base m a len s s' :
  bytes_ok m → 0 <= s →
  csum_partial_with checked16 base m a len s = Some s' → csum_partial base m a len s = Some s'.
Proof.
  intros Hm Hs. unfold csum_partial, csum_partial_with. destruct (len =? 0); [done|].
  destruct (_ =? 1).
  - destruct (load m a) as [x|] eqn:Ex; [|done]. cbn [mbind option_bind].
    destruct (checked16 _ _) as [s1|] eqn:E1; [|done]. apply load_byte in Ex; [|done].
    apply checked_wrap in E1 as [-> ?]; [|done | unfold is_u8, htole16 in *; lia].
    cbn [mbind option_bind]. apply csum_words_wrap; try done.
    + intros w _. apply bswap_16_range.
    + intros w _. apply bswap_16_range.
    + intros w _. apply bswap_32_range.
  - by apply csum_words_wrap.
Qed.

(** C16: the one's complement sum at any alignment.  Unless a 16-bit addition of
    [csum_partial] wraps around 2^32, its result is the one's complement sum of
    the initial sum and the octets, at odd and even addresses and for every
    length: same remainder modulo 2^16-1, and zero only for zero. *)
Theorem csum_partial_spec base m a len s s' :
  bytes_ok m → 0 <= len → is_u32 s → csum_partial_with checked16 base m a len s = Some s' →
  csum_partial base m a len s = Some s' ∧ oc s' (s + msum (Z.to_nat len) m a false).
Proof.
  unfold is_u32. intros Hm Hlen Hs E. split.
  - apply csum_partial_wrap; [done | lia | done].
  - eapply csum_partial_oc; [done | done | by apply oc_refl | exact E].
Qed.

Lemma csum_partial_spec_witness :
  csum_partial 0 [1; 2; 3; 4; 5; 6; 7; 8; 9; 10] 1 9 7 = Some 84284191 ∧
  oc 84284191 (7 + msum 9 [1; 2; 3; 4; 5; 6; 7; 8; 9; 10] 1 false).
Proof.
  apply (csum_partial_spec 0 [1; 2; 3; 4; 5; 6; 7; 8; 9; 10] 1 9 7 84284191).
  - repeat constructor; unfold is_u8; lia.
  - lia.
  - unfold is_u32; lia.
  - vm_compute. reflexivity.
Defined.

(** ** Aligned data

    From an address divisible by four, a length divisible by four is summed by
    32-bit words only, so every carry is added. *)
Lemma words32_total sw32 n m a s :
  0 <= a → a + 4 * Z.of_nat n <= Z.of_nat (length m) → ∃ s', words32 sw32 n m a s = Some s'.
Proof.
  revert a s. induction n as [|n IH]; intros a s Ha Hn; cbn [words32]; [eauto|].
  unfold load32, load16.
  destruct (load_in_range m a) as [x0 ->]; [unfold in_range; lia|].
  destruct (load_in_range m (a + 1)) as [x1 ->]; [unfold in_range; lia|].
  destruct (load_in_range m (a + 2)) as [x2 ->]; [unfold in_range; lia|].
  destruct (load_in_range m (a + 2 + 1)) as [x3 ->]; [unfold in_range; lia|].
  cbn [mbind option_bind]. apply IH; lia.
Qed.

Lemma csum_partial_aligned add16 base m a n s :
  (base + a) mod 4 = 0 →
  csum_partial_with add16 base m a (4 * Z.of_nat n) s = words32 (λ w, w) n m a s.
Proof.
  intros Hal. unfold csum_partial_with.
  destruct (Z.eqb_spec (4 * Z.of_nat n) 0); [by replace n with 0%nat by lia|].
  assert (Z.land (base + a) 1 = (base + a) mod 2) as -> by (apply (land_ones_mod _ 1); lia).
  destruct (Z.eqb_spec ((base + a) mod 2) 1); [lia|].
  unfold csum_words. assert (Z.land (base + a) 3 = (base + a) mod 4) as -> by (apply (land_ones_mod _ 2); lia).
  rewrite Hal. cbn [Z.eqb negb]. rewrite andb_false_r. cbn [mbind option_bind].
  replace (4 * Z.of_nat n / 4) with (Z.of_nat n) by lia. rewrite Nat2Z.id, Z.sub_diag.
  destruct (words32 _ n m a s); [|done]. done.
Qed.

Lemma csum_partial_aligned_oc add16 base m a n s t :
  bytes_ok m → (base + a) mod 4 = 0 → 0 <= a → a + 4 * Z.of_nat n <= Z.of_nat (length m) → oc s t →
  ∃ s', csum_partial_with add16 base m a (4 * Z.of_nat n) s = Some s' ∧
    oc s' (t + msum (4 * n) m a false).
Proof.
  intros Hm Hal Ha Hn Hs. rewrite csum_partial_aligned by done.
  destruct (words32_total (λ w, w) n m a s Ha Hn) as [s' E]. exists s'. split; [done|].
  eapply (words32_oc m Hm false (λ w, w) (λ w, w) (λ x, x));
    [done | apply noswap32_phase | done | exact Hs | exact E].
Qed.

(** ** Any alignment: the sum is computed *)

Lemma load16_total m a : 0 <= a → a + 2 <= Z.of_nat (length m) → ∃ w, load16 m a = Some w.
Proof.
  intros Ha Hl. unfold load16. destruct (load_in_range m a) as [x ->]; [unfold in_range; lia|].
  destruct (load_in_range m (a + 1)) as [y ->]; [unfold in_range; lia|]. cbn. eauto.
Qed.

Lemma words16_total sw16 n m a s :
  0 <= a → a + 2 * Z.of_nat n <= Z.of_nat (length m) → ∃ s', words16 wrap16 sw16 n m a s = Some s'.
Proof.
  revert a s. induction n as [|n IH]; intros a s Ha Hn; cbn [words16]; [eauto|].
  destruct (load16_total m a) as [w ->]; [lia..|]. cbn. apply IH; lia.
Qed.

Lemma csum_words_total sw16 sw32 last8 base m a len s :
  0 <= a → 0 <= len → a + len <= Z.of_nat (length m) → ∃ s', csum_words wrap16 sw16 sw32 last8 base m a len s = Some s'.
Proof.
  intros Ha Hlen Hfit. unfold csum_words.
  assert (∃ a1 len1 s1, (if (len >=? 2) && negb (Z.land (base + a) 3 =? 0)
     then w ← load16 m a; sum ← wrap16 s (sw16 w); Some (a + 2, len - 2, sum) else Some (a, len, s)) = Some (a1, len1, s1) ∧
     0 <= a1 ∧ 0 <= len1 ∧ a1 + len1 <= Z.of_nat (length m)) as (a1 & len1 & s1 & -> & Ha1 & Hl1 & Hf1).
  { destruct (Z.geb_spec len 2); cbn [andb]; [|by exists a, len, s]. destruct (negb _); [|by exists a, len, s].
    destruct (load16_total m a) as [w ->]; [lia..|]. cbn. do 3 eexists. split; [done|]. lia. }
  cbn [mbind option_bind]. destruct (words32_total sw32 (Z.to_nat (len1 / 4)) m a1 s1) as [s2 ->]; [lia..|]. cbn [mbind option_bind].
  edestruct (words16_total sw16) as [s3 ->]; [| |cbn [mbind option_bind]]; [lia..|].
  destruct (Z.eqb_spec (len1 - 4 * (len1 / 4) - 2 * ((len1 - 4 * (len1 / 4)) / 2)) 1); [|eauto].
  edestruct (load_in_range m) as [x ->]; [unfold in_range; shelve|]. cbn. eauto.
  Unshelve. lia.
Qed.

Lemma csum_partial_total base m a len s :
  0 <= a → 0 <= len → a + len <= Z.of_nat (length m) → ∃ s', csum_partial_with wrap16 base m a len s = Some s'.
Proof.
  intros Ha Hlen Hfit. unfold csum_partial_with. destruct (Z.eqb_spec len 0); [eauto|].
  destruct (_ =? 1); [|by apply csum_words_total].
  destruct (load_in_range m a) as [x ->]; [unfold in_range; lia|]. cbn [mbind option_bind wrap16]. apply csum_words_total; lia.
Qed.

(** ** The reference: RFC 1071 over octets in network order *)

Fixpoint rfc_sum (l : list Z) : Z :=
  match l with
  | x :: y :: l => 256 * x + y + rfc_sum l
  | [x] => 256 * x
  | [] => 0
  end.

(** An Internet checksum is correct when the one's complement sum over all
    octets, the checksum included, is negative zero. *)
Definition rfc_valid (l : list Z) : Prop := rfc_sum l mod 65535 = 0 ∧ rfc_sum l ≠ 0.

Lemma slice_cons m a n :
  0 <= a → a + n < Z.of_nat (length m) → 0 <= n →
  slice m a (n + 1) = octet_at m a :: slice m (a + 1) n.
Proof.
  intros Ha Hn Hn0. unfold slice, octet_at.
  destruct (load_in_range m a) as [x Hx]; [unfold in_range; lia|]. rewrite Hx. cbn [default from_option].
  unfold load in Hx. destruct (Z.leb_spec 0 a); [|lia].
  rewrite (drop_S _ _ _ Hx). replace (Z.to_nat (n + 1)) with (S (Z.to_nat n)) by lia.
  replace (Z.to_nat (a + 1)) with (S (Z.to_nat a)) by lia. done.
Qed.

(** Swapping the octets of all words multiplies the sum by 256 modulo 2^16-1. *)
Lemma msum_rfc n m a :
  bytes_ok m → 0 <= a → a + Z.of_nat n <= Z.of_nat (length m) →
  ∃ k, 256 * msum n m a false = rfc_sum (slice m a (Z.of_nat n)) + 65535 * k ∧ 0 <= k ∧
       (msum n m a false = 0 ↔ rfc_sum (slice m a (Z.of_nat n)) = 0) ∧ 0 <= rfc_sum (slice m a (Z.of_nat n)).
Proof.
  intros Hm. revert a. induction (lt_wf n) as [n _ IH]; intros a Ha Hn.
  destruct n as [|[|n]].
  - exists 0. by cbn.
  - replace (Z.of_nat 1) with (0 + 1) by lia. rewrite slice_cons by lia.
    change (slice m (a + 1) 0) with (@nil Z). cbn [msum weight rfc_sum].
    pose proof (octet_at_u8 m Hm a) as Hu. unfold is_u8 in Hu. exists 0. lia.
  - replace (Z.of_nat (S (S n))) with (Z.of_nat n + 1 + 1) by lia.
    rewrite !slice_cons by lia. cbn [msum weight negb rfc_sum].
    destruct (IH n ltac:(lia) (a + 1 + 1)) as (k & E & Hk & Z0 & P); [lia..|].
    pose proof (octet_at_u8 m Hm a) as Hu. pose proof (octet_at_u8 m Hm (a + 1)) as Hu'. unfold is_u8 in *.
    pose proof (msum_nonneg m Hm n (a + 1 + 1) false).
    exists (k + octet_at m (a + 1)). lia.
Qed.

Lemma msum_valid n m a :
  bytes_ok m → 0 <= a → a + Z.of_nat n <= Z.of_nat (length m) →
  msum n m a false mod 65535 = 0 ∧ msum n m a false ≠ 0 ↔ rfc_valid (slice m a (Z.of_nat n)).
Proof.
  intros Hm Ha Hn. destruct (msum_rfc n m a Hm Ha Hn) as (k & E & Hk & Z0 & P). unfold rfc_valid.
  rewrite Z0. split; intros [H1 H2]; (split; [|done]).
  - replace (rfc_sum _) with (256 * msum n m a false - 65535 * k) by lia.
    apply Z.mod_divide in H1 as [q Hq]; [|lia]. rewrite Hq.
    replace (256 * (q * 65535) - 65535 * k) with ((256 * q - k) * 65535) by lia. by apply Z.mod_mul.
  - assert (65536 * msum n m a false = 256 * (rfc_sum (slice m a (Z.of_nat n)) + 65535 * k)) as E2 by lia.
    apply Z.mod_divide in H1 as [q Hq]; [|lia]. rewrite Hq in E2.
    replace (msum n m a false) with ((256 * q + 256 * k - msum n m a false) * 65535) by lia. by apply Z.mod_mul.
Qed.

(** ** IPv4 header checksum *)

(** The IPv4 header that [cp] names: [n] 32-bit words (the IHL field) at [st]. *)
Record ipv4_at (p : Packet) (cp : ChecksumParameters) (st : Z) (n : nat) : Prop := {
  ip_proto : hdr_proto cp = PROTO_ID_IPv4;
  ip_hdr : ∃ h, hdr_at p (hdr_idx cp) = Some h ∧ h_start h = st;
  ip_bytes : bytes_ok (buf p);
  ip_start : 0 <= st;
  ip_ihl : ∃ i0, load (buf p) st = Some i0 ∧ Z.land i0 15 = Z.of_nat n;
  ip_fit : st + 4 * Z.of_nat n <= Z.of_nat (length (buf p))
}.

Lemma ipv4_sum add16 stk p cp st n :
  ipv4_at p cp st n → st mod 4 = 0 →
  ∃ s, header_csum add16 stk p cp = Some (csum_fold s) ∧ oc s (msum (4 * n) (buf p) st false).
Proof.
  intros [Hp (h & Hh & Est) Hb Hst (i0 & Hi0 & Ei) Hfit] Hal.
  unfold header_csum, ipv4_header_csum. rewrite Hp, Hh. cbn [mbind option_bind].
  rewrite Est, Hi0. cbn [mbind option_bind]. rewrite Ei, (Z.mul_comm (Z.of_nat n)).
  destruct (csum_partial_aligned_oc add16 0 (buf p) st n 0 0) as (s & -> & Hs);
    [done | done | done | done | by apply oc_refl |].
  cbn [mbind option_bind]. eauto.
Qed.

(** At any address: the sum is computed, and it is the one's complement sum when no
    carry is lost. *)
Lemma ipv4_sum_any stk stk' p cp st n :
  ipv4_at p cp st n →
  ∃ s, header_csum wrap16 stk p cp = Some (csum_fold s) ∧
    (st mod 4 = 0 ∨ is_Some (header_csum checked16 stk' p cp) → oc s (msum (4 * n) (buf p) st false)).
Proof.
  intros Hip. pose proof Hip as [Hp (h & Hh & Est) Hb Hst (i0 & Hi0 & Ei) Hfit].
  unfold header_csum, ipv4_header_csum. rewrite Hp, Hh. cbn [mbind option_bind].
  rewrite Est, Hi0. cbn [mbind option_bind]. rewrite Ei, (Z.mul_comm (Z.of_nat n)).
  destruct (csum_partial_total 0 (buf p) st (4 * Z.of_nat n) 0) as [s Hs]; [lia..|]. rewrite Hs.
  exists s. split; [done|]. intros [Hal|[c Hc]].
  - destruct (csum_partial_aligned_oc wrap16 0 (buf p) st n 0 0) as (s' & E & H); [done | done | done | done | by apply oc_refl |].
    rewrite Hs in E. by simplify_eq.
  - destruct (csum_partial_with checked16 0 (buf p) st (4 * Z.of_nat n) 0) as [s'|] eqn:E; [|done].
    pose proof (csum_partial_oc 0 (buf p) st (4 * Z.of_nat n) 0 0 s' Hb ltac:(lia) ltac:(by apply oc_refl) E) as H.
    apply csum_partial_wrap in E; [|done | lia]. unfold csum_partial in E. rewrite Hs in E. simplify_eq.
    by replace (Z.to_nat (4 * Z.of_nat n)) with (4 * n)%nat in H by lia.
Qed.

(** Verification of an IPv4 header.  For a header at an address divisible
    by four, [checksum_verify] succeeds exactly when the one's complement sum of
    the header words in network order (RFC 1071) is negative zero; a failure
    increments the error counter of the receiving interface. *)
Theorem ipv4_verify_spec stk p cp st n :
  ipv4_at p cp st n → st mod 4 = 0 →
  ∃ b : bool, checksum_verify stk p cp = Some (b, if b then 0 else if from p is Some _ then 1 else 0) ∧
    (b = true ↔ rfc_valid (slice (buf p) st (4 * Z.of_nat n))).
Proof.
  intros Hip Hal. pose proof Hip as [_ _ Hb Hst _ Hfit].
  destruct (ipv4_sum wrap16 stk p cp st n Hip Hal) as (s & E & Hs).
  unfold checksum_verify, checksum_verify_with. rewrite E. cbn [mbind option_bind].
  pose proof (csum_fold_zero _ _ Hs) as Hz.
  pose proof (msum_valid (4 * n) (buf p) st Hb Hst ltac:(lia)) as Hv.
  replace (Z.of_nat (4 * n)) with (4 * Z.of_nat n) in Hv by lia.
  destruct (Z.eqb_spec (csum_fold s) 0); [exists true | exists false]; (split; [done|]); rewrite <- Hv, <- Hz; split; congruence.
Qed.

Lemma octet_at_store b a x b' c :
  store b a x = Some b' → octet_at b' c = if c =? a then x else octet_at b c.
Proof.
  intros H. unfold octet_at. destruct (Z.eqb_spec c a) as [->|Hne].
  - by rewrite (load_store_eq _ _ _ _ H).
  - by rewrite (load_store_ne _ _ _ _ _ H) by auto.
Qed.

(** Storing an octet changes the sum by its weighted difference. *)
Lemma msum_store n b a x b' st ph :
  store b a x = Some b' → st <= a < st + Z.of_nat n →
  msum n b' st ph = msum n b st ph + weight (xorb ph (Z.odd (a - st))) (x - octet_at b a).
Proof.
  intros H. revert st ph. induction n as [|n IH]; intros st ph Ha; cbn [msum]; [lia|].
  rewrite (octet_at_store _ _ _ _ _ H). destruct (Z.eqb_spec st a) as [->|Hne].
  - rewrite Z.sub_diag. cbn [Z.odd]. rewrite xorb_false_r.
    assert (∀ k s q, a < s → msum k b' s q = msum k b s q) as Hrest.
    { clear IH Ha n. induction k as [|k IH]; intros s q Hs; cbn [msum]; [done|].
      rewrite (octet_at_store _ _ _ _ _ H), IH by lia. destruct (Z.eqb_spec s a); [lia|done]. }
    rewrite Hrest by lia. unfold weight. destruct ph; lia.
  - rewrite IH by lia. replace (a - st) with (Z.succ (a - (st + 1))) by lia.
    rewrite Z.odd_succ, <- Z.negb_odd.
    replace (xorb (negb ph) (Z.odd (a - (st + 1)))) with (xorb ph (negb (Z.odd (a - (st + 1)))))
      by (by destruct ph, (Z.odd _)). lia.
Qed.

Lemma store2_total b a x y :
  0 <= a → a + 1 < Z.of_nat (length b) →
  ∃ b1 b', store b a x = Some b1 ∧ store b1 (a + 1) y = Some b' ∧ store2 b a x y = Some b' ∧
    length b' = length b.
Proof.
  intros Ha Hl. pose proof (store_in_range b a x ltac:(unfold in_range; lia)) as E1.
  set (b1 := <[_ := _]> b) in E1.
  pose proof (store_in_range b1 (a + 1) y ltac:(unfold in_range, b1; rewrite length_insert; lia)) as E2.
  exists b1. eexists. split_and!; [done | exact E2 | |].
  - unfold store2. by rewrite E1.
  - unfold b1. by rewrite !length_insert.
Qed.

(** Storing the two octets of a word at an even position of a sum. *)
Lemma msum_store2 n b a x y b' st :
  store2 b a x y = Some b' → st <= a → a + 1 < st + Z.of_nat n → Z.odd (a - st) = false →
  msum n b' st false = msum n b st false + (x - octet_at b a) + 256 * (y - octet_at b (a + 1)).
Proof.
  unfold store2. destruct (store b a x) as [b1|] eqn:E1; [|done]. cbn [mbind option_bind].
  intros E2 Ha Hn Hodd. rewrite (msum_store n b1 (a + 1) y b' st false E2) by lia.
  rewrite (msum_store n b a x b1 st false E1) by lia. rewrite (octet_at_store _ _ _ _ _ E1).
  destruct (Z.eqb_spec (a + 1) a); [lia|].
  replace (a + 1 - st) with (Z.succ (a - st)) by lia. rewrite Z.odd_succ, <- Z.negb_odd, Hodd.
  cbn [weight xorb negb]. lia.
Qed.

(** The stored checksum word completes the sum to a multiple of 2^16-1. *)
Lemma csum_word_octets f :
  0 <= f <= 65535 →
  let c := bswap_16 (65535 - f) in
  is_u8 (Z.land (Z.shiftr c 8) 255) ∧ is_u8 (Z.land c 255) ∧
  Z.land (Z.shiftr c 8) 255 + 256 * Z.land c 255 = 65535 - f.
Proof.
  intros Hf. cbv zeta. rewrite !land_ff, Z.shiftr_div_pow2 by lia. change (2 ^ 8) with 256.
  unfold bswap_16, byte_of, is_u8. change (2 ^ (8 * 0)) with 1. change (2 ^ (8 * 1)) with 256.
  split_and!; lia.
Qed.

Lemma store2_bytes_ok b a x y b' :
  bytes_ok b → is_u8 x → is_u8 y → store2 b a x y = Some b' → bytes_ok b'.
Proof.
  unfold store2. intros Hb Hx Hy. destruct (store b a x) as [b1|] eqn:E; [|done]. cbn [mbind option_bind].
  intros E2. exact (store_bytes_ok _ _ _ _ (store_bytes_ok _ _ _ _ Hb Hx E) Hy E2).
Qed.

Lemma store2_other b a x y b' c :
  store2 b a x y = Some b' → c ≠ a → c ≠ a + 1 → load b' c = load b c.
Proof.
  unfold store2. destruct (store b a x) as [b1|] eqn:E1; [|done]. cbn [mbind option_bind]. intros E2 H1 H2.
  rewrite (load_store_ne _ _ _ _ _ E2), (load_store_ne _ _ _ _ _ E1) by auto. done.
Qed.

Lemma store2_octets b a x y b' :
  store2 b a x y = Some b' → octet_at b' a = x ∧ octet_at b' (a + 1) = y.
Proof.
  unfold store2. destruct (store b a x) as [b1|] eqn:E1; [|done]. cbn [mbind option_bind]. intros E2.
  rewrite !(octet_at_store _ _ _ _ _ E2), !(octet_at_store _ _ _ _ _ E1).
  zcases; done.
Qed.

Lemma ipv4_at_store p cp st n b :
  ipv4_at p cp st n → bytes_ok b → length b = length (buf p) → load b st = load (buf p) st →
  ipv4_at (p <| buf := b |>) cp st n.
Proof. intros [? ? ? ? ? ?] Hb Hl E. split; cbn; try done; by rewrite ?E, ?Hl. Qed.

Lemma land_ff_u8 x : is_u8 (Z.land x 255).
Proof. rewrite land_ff. unfold is_u8. lia. Qed.

(** C15: computed IPv4 checksums verify.  For an IPv4 header of at least 20 octets
    at any address, [checksum_compute] succeeds and changes only the checksum
    field; the packet it leaves passes [checksum_verify] when the header is at an
    address divisible by four, or when neither sum loses the carry of a 16-bit
    addition.  (Behind an Ethernet header the carry can be lost:
    [ipv4_csum_lost_carry].) *)
Theorem ipv4_compute_verify stk stk' p cp st n :
  ipv4_at p cp st n → (5 <= n)%nat →
  ∃ b, checksum_compute stk p cp = Some (p <| buf := b |>) ∧
    (∀ a, a ≠ st + 10 → a ≠ st + 11 → load b a = load (buf p) a) ∧
    (st mod 4 = 0 ∨
       is_Some (checksum_compute_with checked16 stk p cp) ∧ is_Some (checksum_verify_with checked16 stk' (p <| buf := b |>) cp) →
     checksum_verify stk' (p <| buf := b |>) cp = Some (true, 0)).
Proof.
  intros Hip Hn. pose proof Hip as [Hp (h & Hh & Est) Hb Hst _ Hfit].
  unfold checksum_compute, checksum_compute_with. rewrite Hh, Hp. cbn [mbind option_bind csum_pos].
  rewrite Est.
  destruct (store2_total (buf p) (st + 10) 0 0) as (_ & b1 & _ & _ & E1 & L1); [lia..|]. rewrite E1.
  cbn [mbind option_bind].
  assert (ipv4_at (p <| buf := b1 |>) cp st n) as Hip1.
  { apply ipv4_at_store; [done | | done |].
    - eapply (store2_bytes_ok (buf p)); [done | | | exact E1]; unfold is_u8; lia.
    - eapply store2_other; [exact E1 | lia..]. }
  destruct (ipv4_sum_any stk stk _ cp st n Hip1) as (s & -> & Hs). cbn [mbind option_bind].
  change (buf (p <| buf := b1 |>)) with b1 in *.
  set (x := Z.land (Z.shiftr (csum_fold s) 8) 255). set (y := Z.land (csum_fold s) 255).
  destruct (store2_total b1 (st + 10) x y) as (_ & b2 & _ & _ & E2 & L2); [lia..|]. rewrite E2.
  cbn [mbind option_bind]. exists b2. split; [done|].
  assert (ipv4_at (p <| buf := b2 |>) cp st n) as Hip2.
  { apply (ipv4_at_store (p <| buf := b1 |>) cp st n b2 Hip1); [| by rewrite L2 |].
    - eapply (store2_bytes_ok b1); [apply Hip1 | apply land_ff_u8 | apply land_ff_u8 | exact E2].
    - eapply store2_other; [exact E2 | lia..]. }
  split.
  { intros a H1 H2. rewrite (store2_other _ _ _ _ _ _ E2), (store2_other _ _ _ _ _ _ E1) by lia. done. }
  intros Hkept. destruct (ipv4_sum_any stk' stk' _ cp st n Hip2) as (s2 & E & Hs2).
  assert (oc s (msum (4 * n) b1 st false) ∧ oc s2 (msum (4 * n) b2 st false)) as [Ho Ho2].
  { destruct Hkept as [Hal|[[c Hc] [v Hv]]]; [split; [apply Hs | apply Hs2]; by left|]. split; [apply Hs | apply Hs2]; right.
    - destruct (header_csum checked16 stk (p <| buf := b1 |>) cp); [by eexists | done].
    - unfold checksum_verify_with in Hv. destruct (header_csum checked16 stk' (p <| buf := b2 |>) cp); [by eexists | done]. }
  destruct (csum_fold_spec s _ Ho) as (f & Ef & Hf & Hmod & Hz).
  destruct (csum_word_octets f Hf) as (_ & _ & Esum). cbv zeta in Esum. rewrite <- Ef in Esum. fold x y in Esum.
  unfold checksum_verify, checksum_verify_with. rewrite E. cbn [mbind option_bind].
  rewrite (msum_store2 _ _ _ _ _ _ st E2) in Ho2 by
    (lia || (replace (st + 10 - st) with 10 by lia; done)).
  destruct (store2_octets _ _ _ _ _ E1) as [Ex Ey]. rewrite Ex, Ey in Ho2.
  pose proof (msum_nonneg b1 (ip_bytes _ _ _ _ Hip1) (4 * n) st false) as Hnn.
  destruct (Z.eqb_spec (csum_fold s2) 0) as [|Hnz]; [done|]. exfalso.
  apply Hnz, (csum_fold_zero _ _ Ho2). lia.
Qed.

(** A packet whose buffer holds the octets [l] at [st] as an IPv4 header. *)
Definition ipv4_packet (st : nat) (l : list Z) : Packet :=
  (blank_packet (replicate st 0 ++ l ++ replicate 8 0) false)
    <| headers := [mk_header PROTO_ID_IPv4 (Z.of_nat st) 20] |> <| header_count := 1 |>.

Definition ipv4_params : ChecksumParameters := mk_cp 0 PROTO_ID_IPv4 0 PROTO_ID_IPv4.

(** UDP from 10.25.129.144 to 175.215.255.82, checksum field zero. *)
Definition ipv4_octets : list Z :=
  [69; 0; 0; 100; 6; 254; 64; 0; 64; 17; 0; 0; 10; 25; 129; 144; 175; 215; 255; 82].

Lemma ipv4_packet_at st l :
  length l = 20%nat → bytes_ok l → head l = Some 69 → ipv4_at (ipv4_packet st l) ipv4_params (Z.of_nat st) 5.
Proof.
  intros Hl Hb Hh. split; [done | by eexists | | lia | |].
  - cbn -[replicate]. repeat apply Forall_app_2; try done; apply Forall_replicate; unfold is_u8; lia.
  - exists 69. split; [|done]. destruct l as [|x l]; [done|]. cbn in Hh. injection Hh as ->.
    cbn -[replicate]. unfold load. destruct (Z.leb_spec 0 (Z.of_nat st)); [|lia].
    rewrite Nat2Z.id, lookup_app_r by (rewrite length_replicate; lia). by rewrite length_replicate, Nat.sub_diag.
  - cbn -[replicate]. rewrite !length_app, !length_replicate, Hl. lia.
Qed.

Lemma sample_octets : bytes_ok ipv4_octets.
Proof. repeat constructor; unfold is_u8; lia. Qed.

(** The same with another source address: no carry is lost behind Ethernet. *)
Definition ipv4_octets' : list Z :=
  [69; 0; 0; 100; 6; 254; 64; 0; 64; 17; 0; 0; 10; 25; 1; 1; 10; 1; 2; 3].

Lemma sample_octets' : bytes_ok ipv4_octets'.
Proof. repeat constructor; unfold is_u8; lia. Qed.

Lemma ipv4_verify_spec_witness :
  ∃ b : bool, checksum_verify 0 (ipv4_packet 32 ipv4_octets) ipv4_params = Some (b, if b then 0 else 0) ∧
    (b = true ↔ rfc_valid (slice (buf (ipv4_packet 32 ipv4_octets)) 32 20)).
Proof. apply (ipv4_verify_spec 0 _ _ 32 5 (ipv4_packet_at 32 ipv4_octets eq_refl sample_octets eq_refl)). reflexivity. Defined.

(** Behind an Ethernet header, at offset 14. *)
Lemma ipv4_compute_verify_witness :
  ∃ b, checksum_compute 0 (ipv4_packet 14 ipv4_octets') ipv4_params = Some ((ipv4_packet 14 ipv4_octets') <| buf := b |>) ∧
    checksum_verify 0 ((ipv4_packet 14 ipv4_octets') <| buf := b |>) ipv4_params = Some (true, 0) ∧
    (∀ a, a ≠ 14 + 10 → a ≠ 14 + 11 → load b a = load (buf (ipv4_packet 14 ipv4_octets')) a).
Proof.
  destruct (ipv4_compute_verify 0 0 _ _ 14 5 (ipv4_packet_at 14 ipv4_octets' eq_refl sample_octets' eq_refl)) as (b & E & Ho & Hv); [lia|].
  exists b. split; [exact E|]. split; [|exact Ho]. apply Hv. right. vm_compute in E. injection E as <-.
  split; eexists; vm_compute; reflexivity.
Defined.

(** Finding: a lost carry.  The same IPv4 header behind an Ethernet header (offset
    14, so the last two octets of the header are added as a 16-bit word, without
    the carry): the computed checksum is wrong, and the packet fails
    verification. *)
Theorem ipv4_csum_lost_carry :
  match checksum_compute 0 (ipv4_packet 14 ipv4_octets) ipv4_params with
  | Some p => rfc_sum (slice (buf p) 14 20) mod 65535 ≠ 0 ∧ checksum_verify 0 p ipv4_params = Some (false, 0)
  | None => False
  end.
Proof. vm_compute. split; [discriminate | reflexivity]. Qed.

End Csum.
