(* ===== verification/ParseTree.v ===== *)
(** * Stream identification (headerdesc.h, headerdesc.c, parsetree.h, parsetree.c)

    The list of streams of an interface, each with the header stack and field
    values its packets have, and the identification of a received packet.
    Pipelines are represented by a handle and their name; the changes of their
    reference counts are returned as events.  Statistics for the notification
    module and log output are left out. *)

From S2P Require Import Prelude Protocol Packet HeaderField.
Import Proto Pkt Field.

Module Parse.

Definition comparator : Type := HeaderField → Value → Packet → option bool.

Record HeaderMatch := mk_match {
  m_field : HeaderField;
  m_value : Value;
  m_comparator : comparator;
  m_neg : bool
}.

Record HeaderDescriptor := mk_desc {
  d_name : string;
  d_id : ProtocolID;
  d_matches : list HeaderMatch
}.

(** ** Header lists (headerdesc.c) *)

(** The deep copy duplicates the octets the constant value uses. *)
Definition copy_value (v : Value) : option Value :=
  match value v with
  | PtrOwn m =>
      let bytes_total := (v_bitoffset v + v_bitcount v + 7) / 8 in
      if bytes_total <=? Z.of_nat (length m)
      then Some (mk_value (PtrOwn (take (Z.to_nat bytes_total) m)) (v_bitoffset v) (v_bitcount v))
      else None
  | PtrPacket _ => Some v
  end.

Fixpoint copy_match_list (ms : list HeaderMatch) : option (list HeaderMatch) :=
  match ms with
  | [] => Some []
  | m :: ms =>
      v ← copy_value (m_value m);
      ms ← copy_match_list ms;
      Some (mk_match (m_field m) v (m_comparator m) (m_neg m) :: ms)
  end.

Fixpoint copy_header_list (hs : list HeaderDescriptor) (copy_matchlist : bool)
    : option (list HeaderDescriptor) :=
  match hs with
  | [] => Some []
  | h :: hs =>
      ms ← (if copy_matchlist then copy_match_list (d_matches h) else Some []);
      hs ← copy_header_list hs copy_matchlist;
      Some (mk_desc (d_name h) (d_id h) ms :: hs)
  end.

Definition header_list_find_by_name (hs : list HeaderDescriptor) (nm : string) : option HeaderDescriptor :=
  snd <$> list_find (λ h, d_name h = nm) hs.

Definition header_list_find_by_typeid (hs : list HeaderDescriptor) (id : ProtocolID) : option HeaderDescriptor :=
  snd <$> list_find (λ h, d_id h = id) hs.

(** ** Streams (parsetree.c) *)

Record Pipe := mk_pipe { pipe_id : nat; pipe_name : string }.

Record Stream := mk_stream {
  s_headers : list HeaderDescriptor;
  s_pipe : Pipe;
  match_packets : Z;
  match_octets : Z
}.

Record ParseTree := mk_pt {
  streams : list Stream;
  nomatch_packets : Z;
  nomatch_octets : Z
}.

(** Calls of [pipeline_ref] and [pipeline_unref]. *)
Inductive RefEvent := Ref (pipe : nat) | Unref (pipe : nat).

Definition new_parsetree : ParseTree := mk_pt [] 0 0.

Definition delete_parsetree (pt : ParseTree) : list RefEvent :=
  (λ s, Unref (pipe_id (s_pipe s))) <$> streams pt.

Definition parsetree_empty (pt : ParseTree) : bool :=
  match streams pt with [] => true | _ => false end.

Definition new_stream (hs : list HeaderDescriptor) (pipe : Pipe) : option (Stream * list RefEvent) :=
  hs ← copy_header_list hs true;
  Some (mk_stream hs pipe 0 0, [Ref (pipe_id pipe)]).

Definition named (nm : string) (s : Stream) : Prop := pipe_name (s_pipe s) = nm.
#[global] Instance named_dec nm s : Decision (named nm s).
Proof. unfold named. apply _. Defined.

Definition parsetree_add_stream (pt : ParseTree) (hs : list HeaderDescriptor) (pipe : Pipe)
    : option (bool * ParseTree * list RefEvent) :=
  if existsb (λ s, bool_decide (named (pipe_name pipe) s)) (streams pt) then Some (false, pt, [])
  else
    '(news, ev) ← new_stream hs pipe;
    Some (true, mk_pt (streams pt ++ [news]) (nomatch_packets pt) (nomatch_octets pt), ev).

(** Unlinking the first stream with the name. *)
Fixpoint unlink (nm : string) (ss : list Stream) : option (Stream * list Stream) :=
  match ss with
  | [] => None
  | s :: ss =>
      if decide (named nm s) then Some (s, ss)
      else '(d, ss) ← unlink nm ss; Some (d, s :: ss)
  end.

Definition parsetree_del_stream (pt : ParseTree) (nm : string) : bool * ParseTree * list RefEvent :=
  match unlink nm (streams pt) with
  | Some (d, ss) => (true, mk_pt ss (nomatch_packets pt) (nomatch_octets pt), [Unref (pipe_id (s_pipe d))])
  | None => (false, pt, [])
  end.

(** The statistics of the stream are kept. *)
Fixpoint replace_in (nm : string) (hs : list HeaderDescriptor) (pipe : Pipe) (ss : list Stream)
    : option (list Stream * list RefEvent) :=
  match ss with
  | [] => None
  | s :: ss =>
      if decide (named nm s) then
        Some (mk_stream hs pipe (match_packets s) (match_octets s) :: ss,
              [Unref (pipe_id (s_pipe s)); Ref (pipe_id pipe)])
      else '(ss, ev) ← replace_in nm hs pipe ss; Some (s :: ss, ev)
  end.

Definition parsetree_replace_stream (pt : ParseTree) (hs : list HeaderDescriptor) (pipe : Pipe)
    : option (bool * ParseTree * list RefEvent) :=
  if existsb (λ s, bool_decide (named (pipe_name pipe) s)) (streams pt) then
    hs' ← copy_header_list hs true;
    '(ss, ev) ← replace_in (pipe_name pipe) hs' pipe (streams pt);
    Some (true, mk_pt ss (nomatch_packets pt) (nomatch_octets pt), ev)
  else Some (false, pt, []).

(** [comparator(...) ^ neg] for all fields, stopping at the first mismatch. *)
Fixpoint parsetree_match_header (ms : list HeaderMatch) (p : Packet) : option bool :=
  match ms with
  | [] => Some true
  | m :: ms =>
      c ← m_comparator m (m_field m) (m_value m) p;
      if xorb c (m_neg m) then parsetree_match_header ms p else Some false
  end.

(** The loop over the headers of one stream: whether all match, the packet with
    the headers identified (or cleared), and the final offset. *)
Fixpoint identify_headers (hs : list HeaderDescriptor) (p : Packet) (offset : Z)
    : option (bool * Packet * Z) :=
  match hs with
  | [] => Some (true, p, offset)
  | h :: hs =>
      let blen := bytelength (protocol_from_id (d_id h)) in
      match packet_identify_header p (d_id h) offset blen with
      | (false, p) => Some (false, packet_clear_headers p, offset)
      | (true, p) =>
          m ← parsetree_match_header (d_matches h) p;
          if m : bool then identify_headers hs p (u32 (offset + blen))
          else Some (false, packet_clear_headers p, offset)
      end
  end.

Definition u64_add (a b : Z) : Z := u64 (a + b).

(** The loop over the streams: the matching pipeline, the packet and the
    streams with their counters. *)
Fixpoint identify_stream (ss : list Stream) (p : Packet)
    : option (option Pipe * Packet * list Stream) :=
  match ss with
  | [] => Some (None, p, [])
  | s :: ss =>
      '(ok, p, offset) ← identify_headers (s_headers s) p 0;
      if ok : bool then
        let p := (packet_identify_header p PROTO_ID_PAYLOAD offset (u32 (len p - offset))).2 in
        Some (Some (s_pipe s), p,
              mk_stream (s_headers s) (s_pipe s) (u64_add (match_packets s) 1)
                (u64_add (match_octets s) (packet_length p)) :: ss)
      else
        '(r, p, ss) ← identify_stream ss p;
        Some (r, p, s :: ss)
  end.

(** The new iterator takes a reference to its pipeline. *)
Definition parsetree_identify (pt : ParseTree) (p : Packet)
    : option (option Pipe * Packet * ParseTree * list RefEvent) :=
  '(r, p, ss) ← identify_stream (streams pt) p;
  match r with
  | Some pipe => Some (Some pipe, p, mk_pt ss (nomatch_packets pt) (nomatch_octets pt), [Ref (pipe_id pipe)])
  | None => Some (None, p, mk_pt ss (u64_add (nomatch_packets pt) 1) (u64_add (nomatch_octets pt) (len p)), [])
  end.

(** ** What identification means *)

Definition blen (h : HeaderDescriptor) : Z := bytelength (protocol_from_id (d_id h)).

Definition total_blen (hs : list HeaderDescriptor) : Z := foldr (λ h acc, blen h + acc) 0 hs.

(** The headers of a packet that starts at [st], one after the other. *)
Fixpoint layout (st : Z) (hs : list HeaderDescriptor) : list PacketHeader :=
  match hs with
  | [] => []
  | h :: hs => mk_header (d_id h) st (blen h) :: layout (st + blen h) hs
  end.

(** Every bit of the field in the header at [st] equals the configured one. *)
Definition bits_equal (b : mem) (st : Z) (m : HeaderMatch) : Prop :=
  ∀ j, 0 <= j < hf_bitcount (m_field m) →
    mbit b (8 * st + hf_bitoffset (m_field m) + j) = value_bit (m_value m) b j.

Definition match_holds (b : mem) (st : Z) (m : HeaderMatch) : Prop :=
  if m_neg m then ¬ bits_equal b st m else bits_equal b st m.

Fixpoint headers_match (b : mem) (st : Z) (hs : list HeaderDescriptor) : Prop :=
  match hs with
  | [] => True
  | h :: hs => Forall (match_holds b st) (d_matches h) ∧ headers_match b (st + blen h) hs
  end.

(** A packet belongs to a stream: its headers fit, and all fields match. *)
Definition stream_matches (p : Packet) (hs : list HeaderDescriptor) : Prop :=
  total_blen hs <= len p ∧ (length hs <= 20)%nat ∧ headers_match (buf p) (start p) hs.

(** What the configuration ensures: the comparator was selected for the field
    and the value, the field belongs to header number [k] and lies inside it,
    and the constant has all its octets. *)
Record match_wf (k : nat) (h : HeaderDescriptor) (m : HeaderMatch) : Prop := {
  mw_cmp : header_get_field_comprator (m_field m) (m_value m) = Some (m_comparator m);
  mw_idx : header_idx (m_field m) = Z.of_nat k;
  mw_off : 0 <= hf_bitoffset (m_field m);
  mw_cnt : 0 < hf_bitcount (m_field m) ∨ hf_bitcount (m_field m) = 0 ∧ hf_bitoffset (m_field m) mod 8 = 0;
  mw_fit : hf_bitoffset (m_field m) + hf_bitcount (m_field m) <= 8 * blen h;
  mw_val : ∀ b i, 0 <= i < field_octets (m_field m) → ∃ x, src_octet (m_value m) b i = Some x ∧ is_u8 x
}.

Fixpoint headers_wf (k : nat) (hs : list HeaderDescriptor) : Prop :=
  match hs with
  | [] => True
  | h :: hs => 0 < blen h ∧ Forall (match_wf k h) (d_matches h) ∧ headers_wf (S k) hs
  end.

Lemma blen_bound h : 0 <= blen h <= 40.
Proof. unfold blen. by destruct (d_id h). Qed.

Lemma total_blen_nonneg hs : 0 <= total_blen hs.
Proof. induction hs as [|h hs IH]; simpl; [lia|]. pose proof (blen_bound h). lia. Qed.

Lemma layout_length st hs : length (layout st hs) = length hs.
Proof. revert st. induction hs as [|h hs IH]; intros st; cbn; [done|]. by rewrite IH. Qed.

(** A match on a prefix of no bits holds. *)
Lemma empty_match f v c p st :
  header_get_field_comprator f v = Some c → dst_addr f p = Some st →
  hf_bitcount f = 0 → hf_bitoffset f mod 8 = 0 → c f v p = Some true.
Proof.
  intros Hc Ha Hn Ho. pose proof (comparator_shape _ _ _ Hc) as [En Eo]%same_shape_true.
  unfold header_get_field_comprator, octet_aligned, same_shape in Hc. rewrite En, Eo, Hn, Ho in Hc. injection Hc as <-.
  unfold compare_bytes. by rewrite Ha, En, Hn.
Qed.

(** The fields of one header that lies in the received data. *)
Lemma match_header_spec k h ms p :
  packet_wf p → bytes_ok (buf p) → Forall (match_wf k h) ms →
  (∃ ph, headers p !! k = Some ph ∧ 0 <= h_start ph ∧ h_start ph + blen h <= start p + len p) →
  ∃ r st, parsetree_match_header ms p = Some r ∧ (h_start <$> headers p !! k) = Some st ∧
    (r = true ↔ Forall (match_holds (buf p) st) ms).
Proof.
  intros Hwf Hb Hms (ph & Hph & Hst & Hin). rewrite Hph. cbn [fmap option_fmap option_map].
  pose proof (wf_buf p Hwf) as Hbuf. pose proof (wf_recv p Hwf) as Hrecv. unfold_limits.
  induction Hms as [|m ms Hm Hms (r & st & E & [= <-] & IH)]; cbn [parsetree_match_header].
  { exists true, (h_start ph). split_and!; [done | done |]. split; [constructor | done]. }
  destruct Hm as [Hcmp Hidx Hoff Hcnt Hfit Hval].
  assert (dst_addr (m_field m) p = Some (h_start ph + hf_bitoffset (m_field m) / 8)) as Hda.
  { unfold dst_addr. rewrite Hidx, Nat2Z.id, Hph. cbn [mbind option_bind].
    destruct (Z.leb_spec 0 (Z.of_nat k)); [done|lia]. }
  assert (∃ c, m_comparator m (m_field m) (m_value m) p = Some c ∧
    (c = true ↔ bits_equal (buf p) (h_start ph) m)) as (c & Ec & Hbits).
  { destruct Hcnt as [Hcnt|[Hcnt Hal]].
    - apply comparator_bits; [done| |split; auto]. split; try done. unfold field_octets. lia.
    - exists true. split; [by eapply empty_match|]. split; [|done]. intros _ j Hj. lia. }
  rewrite Ec. cbn [mbind option_bind].
  assert (xorb c (m_neg m) = true ↔ match_holds (buf p) (h_start ph) m) as Hx.
  { unfold match_holds. destruct c, (m_neg m); cbn; intuition congruence. }
  destruct (xorb c (m_neg m)).
  - exists r, (h_start ph). split_and!; [done | done |]. rewrite Forall_cons, <- IH. tauto.
  - exists false, (h_start ph). split_and!; [done | done |]. rewrite Forall_cons.
    split; [done|]. intros [H _]. by apply Hx.
Qed.

(** The received data are the same; the header list may differ. *)
Definition same_data (p p' : Packet) : Prop :=
  buf p' = buf p ∧ start p' = start p ∧ len p' = len p.

Lemma same_data_trans p1 p2 p3 : same_data p1 p2 → same_data p2 p3 → same_data p1 p3.
Proof. unfold same_data. intros (-> & -> & ->) (-> & -> & ->). done. Qed.

(** When a header is identified: there is room in the header list, the previous
    header starts earlier, and the header fits the received data. *)
Lemma identify_header_cases p type offset hlen :
  packet_wf p → 0 <= offset → 0 <= hlen <= 2 ^ 20 → offset <= len p →
  prev_not_before p (start p + offset) = false →
  if bool_decide (header_count p < 20 ∧ offset + hlen <= len p)
  then ∃ p', packet_identify_header p type offset hlen = (true, p') ∧ same_data p p' ∧
    active p' = active p ++ [mk_header type (start p + offset) hlen] ∧
    header_count p' = header_count p + 1 ∧ packet_wf p' ∧ scratch_len p' = scratch_len p
  else packet_identify_header p type offset hlen = (false, p).
Proof.
  intros Hwf Ho Hl Hol Hprev. pose proof (wf_count p Hwf) as Hc. pose proof (wf_recv p Hwf) as Hr.
  pose proof (wf_scratch p Hwf) as Hsc. unfold_limits.
  assert (u32 (start p + offset) = start p + offset) as Eu by (apply u32_small; unfold is_u32; lia).
  assert (u32 (offset + hlen) = offset + hlen) as Eu2 by (apply u32_small; unfold is_u32; lia).
  destruct (packet_identify_header p type offset hlen) as [ok p'] eqn:E.
  pose proof (identify_wf p type offset hlen Hwf Ho ltac:(lia) ltac:(lia)) as W. rewrite E in W. cbn [snd] in W.
  assert (ok = true ↔ header_count p < 20 ∧ offset + hlen <= len p) as Hok.
  { unfold packet_identify_header in E. rewrite Eu, Eu2, Hprev in E. unfold_limits.
    destruct (Z.eqb_spec (header_count p) 20); [simplify_eq; split; [done|lia]|].
    destruct (Z.gtb_spec (offset + hlen) (len p)); simplify_eq; split; done || lia. }
  case_bool_decide as Hb.
  - apply Hok in Hb as ->. pose proof (active_identify _ _ _ _ _ Hwf E) as (Ha & _ & _). rewrite Eu in Ha.
    exists p'. unfold packet_identify_header in E. repeat case_match; simplify_eq/=. done.
  - destruct ok; [by destruct Hb; apply Hok|].
    unfold packet_identify_header in E. repeat case_match; by simplify_eq.
Qed.

Lemma prev_not_before_snoc p hs h st :
  packet_wf p → active p = hs ++ [h] → h_start h < st → prev_not_before p st = false.
Proof.
  intros Hwf Ha Hst. unfold prev_not_before.
  pose proof (length_active p Hwf) as L. rewrite Ha, length_app in L. cbn [length] in L.
  destruct (Z.gtb_spec (header_count p) 0); cbn [andb]; [|done].
  assert (headers p !! Z.to_nat (header_count p - 1) = Some h) as ->.
  { rewrite <- (lookup_take_lt _ (Z.to_nat (header_count p))) by lia. fold (active p). rewrite Ha.
    rewrite lookup_app_r by lia. replace (_ - length hs)%nat with 0%nat by lia. done. }
  destruct (Z.geb_spec (h_start h) st); [lia|done].
Qed.

Lemma identify_headers_spec hs p offset :
  packet_wf p → bytes_ok (buf p) → 0 <= offset <= len p →
  prev_not_before p (start p + offset) = false → headers_wf (Z.to_nat (header_count p)) hs →
  ∃ ok p' off, identify_headers hs p offset = Some (ok, p', off) ∧ packet_wf p' ∧ same_data p p' ∧
    (ok = true ↔ offset + total_blen hs <= len p ∧ header_count p + Z.of_nat (length hs) <= 20 ∧
                 headers_match (buf p) (start p + offset) hs) ∧
    (ok = true → off = offset + total_blen hs ∧ active p' = active p ++ layout (start p + offset) hs ∧
                 scratch_len p' = scratch_len p ∧
                 (hs = [] ∨ prev_not_before p' (start p + off) = false)) ∧
    (ok = false → header_count p' = 0 ∧ scratch_len p' = 0).
Proof.
  revert p offset. induction hs as [|h hs IH]; intros p offset Hwf Hb Ho Hprev Hhs; cbn [identify_headers].
  { exists true, p, offset. unfold_limits. pose proof (wf_count p Hwf). unfold_limits.
    cbn [total_blen foldr length layout headers_match]. rewrite app_nil_r.
    split_and!; [done | done | done | | | done].
    - split; [intros _; split_and!; done || lia | done].
    - intros _. split_and!; [lia | done | done | by left]. }
  cbn [headers_wf] in Hhs. destruct Hhs as (Hbl & Hms & Hrest).
  fold (blen h). pose proof (blen_bound h) as Hbb.
  pose proof (identify_header_cases p (d_id h) offset (blen h) Hwf ltac:(lia) ltac:(lia) ltac:(lia) Hprev) as Hid.
  pose proof (total_blen_nonneg hs) as Htn.
  case_bool_decide as Hfit; cycle 1.
  { rewrite Hid. exists false, (packet_clear_headers p), offset.
    split_and!; [done | by apply clear_wf | done | | done | done].
    split; [done|]. cbn [total_blen foldr length]. fold (total_blen hs). intros (H1 & H2 & _). destruct Hfit. lia. }
  destruct Hid as (p1 & -> & Hd1 & Ha1 & Hc1 & Hwf1 & Hsl1). pose proof Hd1 as (Eb & Es & El).
  pose proof (length_active p Hwf) as Lp. pose proof (length_active p1 Hwf1) as Lp1.
  pose proof (wf_count p Hwf) as Hcp.
  assert (headers p1 !! Z.to_nat (header_count p) = Some (mk_header (d_id h) (start p + offset) (blen h))) as Hk.
  { rewrite <- (lookup_take_lt _ (Z.to_nat (header_count p1))) by lia. fold (active p1). rewrite Ha1.
    rewrite lookup_app_r by lia. rewrite Lp, Nat.sub_diag. done. }
  destruct (match_header_spec (Z.to_nat (header_count p)) h (d_matches h) p1) as (r & st & Em & Est & Hr);
    [done | by rewrite Eb | done | |].
  { eexists. split; [exact Hk|]. cbn. rewrite Es, El. pose proof (wf_scratch p Hwf). lia. }
  rewrite Hk in Est. cbn in Est. simplify_eq. rewrite Em. cbn [mbind option_bind]. rewrite Eb in Hr.
  destruct r; cycle 1.
  { exists false, (packet_clear_headers p1), offset.
    split_and!; [done | by apply clear_wf | done | | done | done].
    split; [done|]. cbn [headers_match]. intros (_ & _ & Hm & _). by apply Hr in Hm. }
  pose proof (wf_recv p Hwf) as Hrecv. pose proof (wf_scratch p Hwf) as Hscr. unfold_limits.
  rewrite u32_small by (unfold is_u32; lia).
  destruct (IH p1 (offset + blen h)) as (ok & p' & off & E & W & D & Hok & Ht & Hf).
  - done.
  - by rewrite Eb.
  - rewrite El. lia.
  - rewrite Es. eapply prev_not_before_snoc; [done | exact Ha1 | cbn; lia].
  - rewrite Hc1. by replace (Z.to_nat (header_count p + 1)) with (S (Z.to_nat (header_count p))) by lia.
  - exists ok, p', off. rewrite E. rewrite Eb, Es, El, Hc1 in Hok. rewrite Es, Ha1 in Ht.
    cbn [total_blen foldr length headers_match layout]. fold (total_blen hs).
    split_and!; [done | done | by eapply same_data_trans | | | done].
    + rewrite Hok. rewrite Z.add_assoc. split; intros (? & ? & ?); split_and!; try (done || lia); try tauto.
    + intros ->. destruct (Ht eq_refl) as (-> & Ha & Hsl & Hpv).
      rewrite <- app_assoc in Ha. cbn [app] in Ha. rewrite Z.add_assoc in Ha.
      split_and!; [lia | by rewrite Ha, <- Z.add_assoc | by rewrite Hsl | right].
      destruct Hpv as [->|Hpv]; [|done].
      cbn [layout] in Ha. eapply prev_not_before_snoc; [done | exact Ha | cbn; lia].
Qed.

(** A packet as the receiving interface hands it over. *)
Record received (p : Packet) : Prop := {
  rc_wf : packet_wf p;
  rc_bytes : bytes_ok (buf p);
  rc_count : header_count p = 0;
  rc_scratch : scratch_len p = 0
}.

(** The header list of an identified packet: the headers of the stream and the
    rest of the data as payload, if there is room for it in the list. *)
Definition identified (p : Packet) (hs : list HeaderDescriptor) : list PacketHeader :=
  layout (start p) hs ++
  (if (length hs <? 20)%nat
   then [mk_header PROTO_ID_PAYLOAD (start p + total_blen hs) (len p - total_blen hs)] else []).

Definition counted (s : Stream) (octets : Z) : Stream :=
  mk_stream (s_headers s) (s_pipe s) (u64_add (match_packets s) 1) (u64_add (match_octets s) octets).

Lemma identify_one p hs :
  received p → headers_wf 0 hs →
  ∃ ok p' off, identify_headers hs p 0 = Some (ok, p', off) ∧ same_data p p' ∧
    (ok = true ↔ stream_matches p hs) ∧
    (ok = false → received p') ∧
    (ok = true → packet_wf p' ∧ off = total_blen hs ∧ scratch_len p' = 0 ∧ active p' = layout (start p) hs ∧
       prev_not_before p' (start p' + off) = false).
Proof.
  intros [Hwf Hb Hc Hs] Hhs. pose proof (wf_recv p Hwf) as Hr.
  destruct (identify_headers_spec hs p 0) as (ok & p' & off & E & W & D & Hok & Ht & Hf);
    [done | done | lia | unfold prev_not_before; by rewrite Hc | by rewrite Hc |].
  exists ok, p', off. rewrite Hc, !Z.add_0_l, Z.add_0_r in Hok. pose proof D as (Eb & Es & El).
  split_and!; [done | done | | |].
  - rewrite Hok. unfold stream_matches. split; intros (? & ? & ?); split_and!; done || lia.
  - intros ->. destruct (Hf eq_refl). split; [done | by rewrite Eb | done | done].
  - intros ->. destruct (Ht eq_refl) as (-> & Ha & Hsl & Hp). rewrite Z.add_0_r in Ha.
    assert (active p = []) as Ea by (unfold active; by rewrite Hc). rewrite Ea in Ha.
    split_and!; [done | done | by rewrite Hsl | done |]. rewrite Es. destruct Hp as [->|Hp]; [|done].
    unfold prev_not_before. pose proof (length_active p' W) as L. rewrite Ha in L.
    destruct (Z.gtb_spec (header_count p') 0); [cbn in L; lia | done].
Qed.

Lemma identify_stream_spec ss p :
  received p → Forall (λ s, headers_wf 0 (s_headers s)) ss →
  ∃ r p' ss', identify_stream ss p = Some (r, p', ss') ∧ same_data p p' ∧ packet_wf p' ∧ scratch_len p' = 0 ∧
    match r with
    | Some pipe => ∃ i s, ss !! i = Some s ∧ pipe = s_pipe s ∧ stream_matches p (s_headers s) ∧
        (∀ j s', (j < i)%nat → ss !! j = Some s' → ¬ stream_matches p (s_headers s')) ∧
        active p' = identified p (s_headers s) ∧ ss' = <[i := counted s (packet_length p')]> ss
    | None => Forall (λ s, ¬ stream_matches p (s_headers s)) ss ∧ header_count p' = 0 ∧ ss' = ss
    end.
Proof.
  revert p. induction ss as [|s ss IH]; intros p Hrec Hss; cbn [identify_stream].
  { exists None, p, []. split_and!; [done | done | apply Hrec | apply Hrec | constructor | apply Hrec | done]. }
  inversion_clear Hss as [|? ? Hs Hss'].
  destruct (identify_one p (s_headers s) Hrec Hs) as (ok & p1 & off & -> & D & Hok & Hf & Ht).
  cbn [mbind option_bind]. pose proof D as (Eb & Es & El). destruct ok.
  - destruct (Ht eq_refl) as (W & -> & Hsl & Ha & Hp). clear Hf Ht.
    pose proof (proj1 Hok eq_refl) as Hm. pose proof Hm as (Hlen & H20 & _).
    pose proof (length_active p1 W) as L. pose proof (total_blen_nonneg (s_headers s)) as Hn.
    pose proof (wf_recv p1 W) as Hr. pose proof (wf_scratch p1 W) as Hsc. pose proof (wf_count p1 W) as Hcnt. unfold_limits.
    rewrite u32_small by (unfold is_u32; lia).
    pose proof (identify_header_cases p1 PROTO_ID_PAYLOAD (total_blen (s_headers s)) (len p1 - total_blen (s_headers s))
      W Hn ltac:(lia) ltac:(lia) Hp) as Hid.
    rewrite Ha, layout_length in L.
    match goal with |- context [packet_identify_header p1 _ _ _] =>
      set (p2 := (packet_identify_header p1 PROTO_ID_PAYLOAD (total_blen (s_headers s)) (len p1 - total_blen (s_headers s))).2) end.
    assert (packet_wf p2 ∧ same_data p1 p2 ∧ scratch_len p2 = 0 ∧ active p2 = identified p (s_headers s)) as (W2 & D2 & S2 & Ha2).
    { unfold p2, identified. case_bool_decide as Hc.
      - destruct Hid as (p' & -> & D' & Ha' & _ & W' & Hs'). cbn [snd]. split_and!; [done | done | by rewrite Hs' |].
        rewrite Ha', Ha, Es, El. destruct (Nat.ltb_spec (length (s_headers s)) 20); [done | lia].
      - rewrite Hid. cbn [snd]. split_and!; [done | done | done |]. rewrite Ha.
        destruct (Nat.ltb_spec (length (s_headers s)) 20); [lia | by rewrite app_nil_r]. }
    exists (Some (s_pipe s)), p2. eexists. split_and!; [done | by eapply same_data_trans | done | done |].
    exists 0%nat, s. split_and!; try done. intros j s' Hj. lia.
  - specialize (Hf eq_refl). destruct (IH p1 Hf Hss') as (r & p' & ss' & -> & D' & W' & Hs' & Hr).
    cbn [mbind option_bind]. exists r, p', (s :: ss').
    assert (∀ hs, stream_matches p1 hs ↔ stream_matches p hs) as Heq
      by (intros hs; unfold stream_matches; by rewrite Eb, Es, El).
    assert (¬ stream_matches p (s_headers s)) as Hno by (intros ?%Hok; done).
    split_and!; [done | by eapply same_data_trans | done | done |]. destruct r as [pipe|].
    + destruct Hr as (i & s' & Hi & -> & Hm & Hpre & Ha & ->). exists (S i), s'.
      split_and!; [done | done | by apply Heq | | |done].
      * intros [|j] s2 Hj Hl; [by simplify_eq/=|]. rewrite <- Heq. eapply Hpre; [|done]. lia.
      * rewrite Ha. unfold identified. by rewrite Es, El.
    + destruct Hr as (Hall & Hc & ->). split_and!; [|done|done]. constructor; [done|].
      eapply Forall_impl; [exact Hall|]. intros x Hx. by rewrite <- Heq.
Qed.

(** What the pipeline of the stream gets. *)
Lemma identified_packet pt p pipe p' pt' ev :
  received p → Forall (λ s, headers_wf 0 (s_headers s)) (streams pt) →
  parsetree_identify pt p = Some (Some pipe, p', pt', ev) →
  ∃ s, s ∈ streams pt ∧ pipe = s_pipe s ∧ stream_matches p (s_headers s) ∧ same_data p p' ∧ packet_wf p' ∧
    scratch_len p' = 0 ∧ active p' = identified p (s_headers s).
Proof.
  intros Hrec Hss H. destruct (identify_stream_spec _ p Hrec Hss) as (r & q & ss' & E & D & W & Hs & Hr).
  unfold parsetree_identify in H. rewrite E in H. cbn [mbind option_bind] in H. destruct r as [pipe'|]; simplify_eq.
  destruct Hr as (i & s & Hi & -> & Hm & _ & Ha & _). exists s. split_and!; try done. by eapply list_elem_of_lookup_2.
Qed.

(** C13: stream identification.  A received packet is given to the first stream
    of the list, in the order the streams were added, whose header stack fits
    the packet and whose configured fields all match bit by bit (or differ, for
    a negated match); its header list becomes that stack, laid out from the
    start of the data, with the rest as payload; exactly that stream's counters
    advance.  A packet that no stream matches is counted as unknown. *)
Theorem parsetree_identify_spec pt p :
  received p → Forall (λ s, headers_wf 0 (s_headers s)) (streams pt) →
  ∃ r p' pt' ev, parsetree_identify pt p = Some (r, p', pt', ev) ∧ same_data p p' ∧ packet_wf p' ∧
    match r with
    | Some pipe => ∃ i s, streams pt !! i = Some s ∧ pipe = s_pipe s ∧ stream_matches p (s_headers s) ∧
        (∀ j s', (j < i)%nat → streams pt !! j = Some s' → ¬ stream_matches p (s_headers s')) ∧
        active p' = identified p (s_headers s) ∧
        pt' = mk_pt (<[i := counted s (packet_length p')]> (streams pt)) (nomatch_packets pt) (nomatch_octets pt) ∧
        ev = [Ref (pipe_id pipe)]
    | None => Forall (λ s, ¬ stream_matches p (s_headers s)) (streams pt) ∧ header_count p' = 0 ∧
        pt' = mk_pt (streams pt) (u64_add (nomatch_packets pt) 1) (u64_add (nomatch_octets pt) (len p)) ∧ ev = []
    end.
Proof.
  intros Hrec Hss. destruct (identify_stream_spec _ p Hrec Hss) as (r & p' & ss' & E & D & W & _ & Hr).
  unfold parsetree_identify. rewrite E. cbn [mbind option_bind]. exists r, p'. destruct r as [pipe|].
  - destruct Hr as (i & s & Hi & Hp & Hm & Hpre & Ha & ->). do 2 eexists. split; [done|]. split; [done|]. split; [done|].
    exists i, s. split_and!; done.
  - destruct Hr as (Hall & Hc & ->). do 2 eexists. split; [done|]. split; [done|]. split; [done|].
    destruct D as (_ & _ & ->). done.
Qed.

(** Two streams: VLAN 300 with any Ethernet source, and everything else. *)
Definition demo_match : HeaderMatch := mk_match (mk_hf 1 4 12) (mk_value (PtrOwn [1; 44]) 4 12) compare_generic false.
Definition demo_tree : ParseTree :=
  mk_pt [mk_stream [mk_desc "eth" PROTO_ID_ETH []; mk_desc "cvlan" PROTO_ID_CVLAN [demo_match]] (mk_pipe 0 "vlan300") 0 0;
         mk_stream [mk_desc "eth" PROTO_ID_ETH []] (mk_pipe 1 "rest") 0 0] 0 0.
Definition demo_packet : Packet := (new_packet None (mk_pool 0 0)).1 <| len := 64 |>.

Lemma demo_received : received demo_packet.
Proof.
  split; [|apply Forall_replicate; unfold is_u8; lia | done | done].
  apply set_len_wf; [apply alloc_wf; apply length_replicate | done | lia | vm_compute; discriminate].
Qed.

Lemma parsetree_identify_spec_witness :
  ∃ r p' pt' ev, parsetree_identify demo_tree demo_packet = Some (r, p', pt', ev) ∧
    same_data demo_packet p' ∧ packet_wf p' ∧
    match r with
    | Some pipe => ∃ i s, streams demo_tree !! i = Some s ∧ pipe = s_pipe s ∧ stream_matches demo_packet (s_headers s) ∧
        (∀ j s', (j < i)%nat → streams demo_tree !! j = Some s' → ¬ stream_matches demo_packet (s_headers s')) ∧
        active p' = identified demo_packet (s_headers s) ∧
        pt' = mk_pt (<[i := counted s (packet_length p')]> (streams demo_tree)) 0 0 ∧ ev = [Ref (pipe_id pipe)]
    | None => Forall (λ s, ¬ stream_matches demo_packet (s_headers s)) (streams demo_tree) ∧ header_count p' = 0 ∧
        pt' = mk_pt (streams demo_tree) (u64_add 0 1) (u64_add 0 (len demo_packet)) ∧ ev = []
    end.
Proof.
  apply (parsetree_identify_spec demo_tree demo_packet demo_received).
  repeat constructor; try (cbn; lia).
  intros b i Hi. change (field_octets (m_field demo_match)) with 2 in Hi.
  assert (i = 0 ∨ i = 1) as [->| ->] by lia; (eexists; split; [reflexivity|]; unfold is_u8; lia).
Defined.

(** ** Reference counts of pipelines *)

Inductive pt_op :=
  | OpAdd (hs : list HeaderDescriptor) (pipe : Pipe)
  | OpDel (nm : string)
  | OpReplace (hs : list HeaderDescriptor) (pipe : Pipe).

Definition pt_step (pt : ParseTree) (o : pt_op) : option (bool * ParseTree * list RefEvent) :=
  match o with
  | OpAdd hs pipe => parsetree_add_stream pt hs pipe
  | OpDel nm => Some (parsetree_del_stream pt nm)
  | OpReplace hs pipe => parsetree_replace_stream pt hs pipe
  end.

Fixpoint pt_run (pt : ParseTree) (os : list pt_op) : option (ParseTree * list RefEvent) :=
  match os with
  | [] => Some (pt, [])
  | o :: os =>
      '(_, pt, ev) ← pt_step pt o;
      '(pt, ev') ← pt_run pt os;
      Some (pt, ev ++ ev')
  end.

Definition names (pt : ParseTree) : list string := (λ s, pipe_name (s_pipe s)) <$> streams pt.

(** How often the streams refer to a pipeline, and the references taken less
    those released. *)
Definition holds (id : nat) (s : Stream) : Z := if decide (pipe_id (s_pipe s) = id) then 1 else 0.
Definition held (id : nat) (ss : list Stream) : Z := foldr (λ s acc, holds id s + acc) 0 ss.
Definition net1 (id : nat) (e : RefEvent) : Z :=
  match e with
  | Ref i => if decide (i = id) then 1 else 0
  | Unref i => if decide (i = id) then -1 else 0
  end.
Definition net (id : nat) (evs : list RefEvent) : Z := foldr (λ e acc, net1 id e + acc) 0 evs.

Lemma held_app id s1 s2 : held id (s1 ++ s2) = held id s1 + held id s2.
Proof. induction s1 as [|s s1 IH]; cbn; [done|]. fold (held id (s1 ++ s2)) (held id s1). lia. Qed.
Lemma net_app id e1 e2 : net id (e1 ++ e2) = net id e1 + net id e2.
Proof. induction e1 as [|e e1 IH]; cbn; [done|]. fold (net id (e1 ++ e2)) (net id e1). lia. Qed.

Lemma existsb_named nm ss :
  existsb (λ s, bool_decide (named nm s)) ss = true ↔ nm ∈ (λ s, pipe_name (s_pipe s)) <$> ss.
Proof.
  rewrite existsb_exists, list_elem_of_fmap. split.
  - intros (s & Hs & H%bool_decide_eq_true). exists s. split; [done | by apply list_elem_of_In].
  - intros (s & -> & Hs). exists s. split; [by apply list_elem_of_In | by apply bool_decide_eq_true].
Qed.

Lemma unlink_spec nm ss d ss' :
  unlink nm ss = Some (d, ss') →
  (∀ id, held id ss = holds id d + held id ss') ∧
  (λ s, pipe_name (s_pipe s)) <$> ss ≡ₚ pipe_name (s_pipe d) :: ((λ s, pipe_name (s_pipe s)) <$> ss').
Proof.
  revert d ss'. induction ss as [|s ss IH]; intros d ss'; cbn [unlink]; [done|].
  case_decide as Hn.
  - intros [= <- <-]. done.
  - destruct (unlink nm ss) as [[d1 ss1]|] eqn:E; [|done]. cbn [mbind option_bind]. intros [= <- <-].
    destruct (IH d1 ss1 eq_refl) as [H1 H2]. split.
    + intros id. specialize (H1 id). cbn. fold (held id ss) (held id ss1). lia.
    + rewrite !fmap_cons, H2. apply Permutation_swap.
Qed.

Lemma replace_in_spec nm hs pipe ss ss' ev :
  pipe_name pipe = nm → replace_in nm hs pipe ss = Some (ss', ev) →
  (∀ id, held id ss' = held id ss + net id ev) ∧
  (λ s, pipe_name (s_pipe s)) <$> ss' = (λ s, pipe_name (s_pipe s)) <$> ss.
Proof.
  intros Hp. revert ss' ev. induction ss as [|s ss IH]; intros ss' ev; cbn [replace_in]; [done|].
  case_decide as Hn.
  - intros [= <- <-]. unfold named in Hn. split.
    + intros id. cbn. unfold holds. cbn. repeat case_decide; lia.
    + rewrite !fmap_cons. cbn. by rewrite Hp, Hn.
  - destruct (replace_in nm hs pipe ss) as [[ss1 ev1]|] eqn:E; [|done]. cbn [mbind option_bind].
    intros [= <- <-]. destruct (IH ss1 ev1 eq_refl) as [H1 H2]. split.
    + intros id. specialize (H1 id). cbn. fold (held id ss) (held id ss1). lia.
    + rewrite !fmap_cons. by rewrite H2.
Qed.

Lemma pt_step_refs pt o ok pt' ev :
  NoDup (names pt) → pt_step pt o = Some (ok, pt', ev) →
  NoDup (names pt') ∧ ∀ id, held id (streams pt') = held id (streams pt) + net id ev.
Proof.
  intros Hnd. destruct o as [hs pipe|nm|hs pipe]; cbn [pt_step].
  - unfold parsetree_add_stream, new_stream.
    destruct (existsb _ _) eqn:Ex; [intros [= <- <- <-]; split; [done | intros id; cbn; lia]|].
    destruct (copy_header_list hs true) as [hs'|]; [|done]. cbn [mbind option_bind]. intros [= <- <- <-]. split.
    + unfold names. cbn. rewrite fmap_app. cbn. apply NoDup_app. split_and!; [done | | apply NoDup_singleton].
      intros x Hx ->%list_elem_of_singleton. apply existsb_named in Hx. cbn in Hx. congruence.
    + intros id. cbn [streams]. rewrite held_app. cbn. unfold holds. cbn. repeat case_decide; lia.
  - unfold parsetree_del_stream. destruct (unlink nm (streams pt)) as [[d ss]|] eqn:E;
      intros [= <- <- <-]; [|split; [done | intros id; cbn; lia]].
    destruct (unlink_spec _ _ _ _ E) as [H1 H2]. split.
    + unfold names in *. cbn. rewrite H2 in Hnd. by inversion Hnd.
    + intros id. specialize (H1 id). unfold net. cbn [streams foldr net1]. unfold holds in H1. repeat case_decide; lia.
  - unfold parsetree_replace_stream. destruct (existsb _ _); [|intros [= <- <- <-]; split; [done | intros id; cbn; lia]].
    destruct (copy_header_list hs true) as [hs'|]; [|done]. cbn [mbind option_bind].
    destruct (replace_in _ _ _ _) as [[ss ev1]|] eqn:E; [|done]. cbn [mbind option_bind]. intros [= <- <- <-].
    apply replace_in_spec in E as [H1 H2]; [|done]. split; [unfold names in *; cbn; by rewrite H2 | done].
Qed.

Lemma pt_run_refs pt os pt' ev :
  NoDup (names pt) → pt_run pt os = Some (pt', ev) →
  NoDup (names pt') ∧ ∀ id, held id (streams pt') = held id (streams pt) + net id ev.
Proof.
  revert pt ev. induction os as [|o os IH]; intros pt ev Hnd; cbn [pt_run].
  { intros [= <- <-]. split; [done|]. intros id. cbn. lia. }
  destruct (pt_step pt o) as [[[ok pt1] ev1]|] eqn:E; [|done]. cbn [mbind option_bind].
  destruct (pt_run pt1 os) as [[pt2 ev2]|] eqn:E2; [|done]. cbn [mbind option_bind]. intros [= <- <-].
  destruct (pt_step_refs _ _ _ _ _ Hnd E) as [N1 H1]. destruct (IH _ _ N1 E2) as [N2 H2].
  split; [done|]. intros id. rewrite net_app, H2, H1. lia.
Qed.

Lemma delete_refs id pt : net id (delete_parsetree pt) = - held id (streams pt).
Proof.
  unfold delete_parsetree. induction (streams pt) as [|s ss IH]; cbn; [done|].
  fold (held id ss). unfold holds. unfold net in IH. rewrite IH. case_decide; lia.
Qed.

(** C14: stream names are unique and pipeline references balance.  Whatever
    sequence of additions, deletions and replacements a stream list goes
    through, no two streams have the same name, every stream holds exactly one
    reference to its pipeline, and deleting the list releases all of them. *)
Theorem parsetree_refs os pt ev :
  pt_run new_parsetree os = Some (pt, ev) →
  NoDup (names pt) ∧ ∀ id, held id (streams pt) = net id ev ∧ net id (ev ++ delete_parsetree pt) = 0.
Proof.
  intros H. apply pt_run_refs in H as [N H]; [|constructor]. split; [done|]. intros id.
  specialize (H id). cbn in H. rewrite net_app, delete_refs. lia.
Qed.

Lemma parsetree_refs_witness :
  NoDup ["b"; "c"] ∧ ∀ id,
    held id [mk_stream [] (mk_pipe 4 "b") 0 0; mk_stream [] (mk_pipe 3 "c") 0 0]
      = net id [Ref 1; Ref 2; Ref 3; Unref 2; Ref 4; Unref 1] ∧
    net id ([Ref 1; Ref 2; Ref 3; Unref 2; Ref 4; Unref 1] ++ [Unref 4; Unref 3]) = 0.
Proof.
  apply (parsetree_refs [OpAdd [] (mk_pipe 1 "a"); OpAdd [] (mk_pipe 2 "b"); OpAdd [] (mk_pipe 3 "c");
           OpReplace [] (mk_pipe 4 "b"); OpAdd [] (mk_pipe 5 "c"); OpDel "a"]
    (mk_pt [mk_stream [] (mk_pipe 4 "b") 0 0; mk_stream [] (mk_pipe 3 "c") 0 0] 0 0)
    [Ref 1; Ref 2; Ref 3; Unref 2; Ref 4; Unref 1]).
  reflexivity.
Defined.

End Parse.
