(* ===== verification/Pof.v ===== *)
(** * Packet ordering (pof.h, pof.c)

    The packet ordering function of RFC 9550: a queue ordered by sequence
    number, filled by the pipelines and drained by a worker thread that an
    eventfd wakes.  A held packet is known by the handle of its pipeline
    iterator; the worker returns the handles it resumes.  One iteration of the
    worker runs under the object's lock, and so does an insertion, but not the test
    of the queue length before it: [pof_test] and [pof_insert_locked] are the two
    parts of [pof_insert], and in [pof_run] any number of receiving threads may be
    between them. *)

From Stdlib Require Import Sorting.Sorted.
From S2P Require Import Prelude TimeUtils Packet.
Import Time.

Module POF.

Definition POF_IN_ORDER_PKT : Z := 1.
Definition POF_OUT_OF_ORDER_PKT : Z := 2.
Definition POF_TIMEOUT : Z := 4.

Record PofElem := mk_elem { pi : nat; seq : Z; forward_time : timespec }.

Record Pof := mk_pof {
  pof_max_delay : timespec;
  pof_take_any_time : timespec;
  queue_max_len : Z;
  queue_len : Z;
  pof_last_sent : Z;
  take_any : bool;
  evfd : Z;                       (* counter of the eventfd *)
  q : list PofElem;               (* from q_head *)
  next_to_forward : option nat;
  pof_last_recv_ts : timespec
}.

#[global] Instance eta_pof : Eta Pof := λ p,
  mk_pof (pof_max_delay p) (pof_take_any_time p) (queue_max_len p) (queue_len p) (pof_last_sent p)
    (take_any p) (evfd p) (q p) (next_to_forward p) (pof_last_recv_ts p).

Inductive ActionResult := ACR_CONTINUE | ACR_DONE | ACR_HOLD.

Definition new_pof (max_delay take_any_time max_len : Z) : Pof :=
  mk_pof (timespec_from_msec max_delay) (timespec_from_msec take_any_time) (i32 max_len) 0 0 true 0 []
    None (mk_timespec 0 0).

(** [ntohl(seq) & 0x10000000u] *)
Definition SEQ_IS_OAM (sequence : Z) : bool := negb (Z.land (ntohl sequence) 268435456 =? 0).

Definition new_pof_elem (p : Pof) (h : nat) (pkt : Pkt.Packet) (now : timespec) : PofElem :=
  mk_elem h (Z.land (ntohl (Pkt.sequence pkt)) 65535) (timespecadd now (pof_max_delay p)).

(** The insertion loop: before the first element that is not smaller. *)
Fixpoint insert_elem (pe : PofElem) (l : list PofElem) : list PofElem :=
  match l with
  | [] => [pe]
  | e :: l => if seq e <? seq pe then e :: insert_elem pe l else pe :: e :: l
  end.

(** [write] adds to the counter of the eventfd; it fails instead of blocking
    when the sum would reach 2^64-1. *)
Definition evfd_write (c event : Z) : Z :=
  if c + event <? 18446744073709551615 then c + event else c.

(** Before the lock: [None] when the packet goes on to the queue. *)
Definition pof_test (p : Pof) (pkt : Pkt.Packet) : option ActionResult :=
  if SEQ_IS_OAM (Pkt.sequence pkt) then Some ACR_CONTINUE
  else if queue_len p >=? queue_max_len p then Some ACR_DONE
  else None.

(** Under the lock. *)
Definition pof_insert_locked (p : Pof) (h : nat) (pkt : Pkt.Packet) (now recv : timespec) : Pof :=
  let pe := new_pof_elem p h pkt now in
  let event := if (seq pe <=? pof_last_sent p + 1) || take_any p
               then POF_IN_ORDER_PKT else POF_OUT_OF_ORDER_PKT in
  p <| q := insert_elem pe (q p) |> <| queue_len := i32 (queue_len p + 1) |>
    <| pof_last_recv_ts := recv |> <| evfd := evfd_write (evfd p) event |>.

(** The two parts without another thread between them. *)
Definition pof_insert (p : Pof) (h : nat) (pkt : Pkt.Packet) (now recv : timespec) : ActionResult * Pof :=
  match pof_test p pkt with
  | Some r => (r, p)
  | None => (ACR_HOLD, pof_insert_locked p h pkt now recv)
  end.

(** Unlinking the element with handle [h]. *)
Fixpoint unlink (h : nat) (l : list PofElem) : list PofElem :=
  match l with
  | [] => []
  | e :: l => if decide (pi e = h) then l else e :: unlink h l
  end.

Definition pof_pop_item (p : Pof) (h : nat) : Pof :=
  match q p with
  | [] => p
  | _ =>
      if queue_len p =? 0 then p
      else p <| q := unlink h (q p) |> <| queue_len := i32 (queue_len p - 1) |>
  end.

(** [while (pof->q_head) pof_pop_item(pof->q_head);] frees the elements without
    resuming their iterators; the second result are the handles given up. *)
Fixpoint drop_all (fuel : nat) (p : Pof) : option (Pof * list nat) :=
  match q p with
  | [] => Some (p, [])
  | e :: _ =>
      match fuel with
      | O => None
      | S fuel => '(p, hs) ← drop_all fuel (pof_pop_item p (pi e)); Some (p, pi e :: hs)
      end
  end.

Definition pof_reset (p : Pof) : option (Pof * list nat) :=
  '(p, hs) ← drop_all (length (q p)) p; Some (p <| take_any := true |>, hs).

(** [timespeccmp(a, b, !=)]: seconds first, then nanoseconds. *)
Definition time_neq (a b : timespec) : bool := timespeccmp (λ x y, negb (x =? y)) a b.

(** The loop of [get_next_deadline] over the elements from [q_head]. *)
Fixpoint deadline_loop (l : list PofElem) (ret : timespec) (nxt : option nat) : timespec * option nat :=
  match l with
  | [] => (ret, nxt)
  | e :: l =>
      if time_neq (forward_time e) ret then deadline_loop l (forward_time e) (Some (pi e))
      else deadline_loop l ret nxt
  end.

Definition get_next_deadline (p : Pof) : option timespec * Pof :=
  if queue_len p =? 0 then (None, p <| next_to_forward := None |>)
  else
    match q p with
    | [] => (None, p <| next_to_forward := None |>)
    | e :: _ =>
        let '(ret, nxt) := deadline_loop (q p) (forward_time e) None in
        (Some ret, p <| next_to_forward := nxt |>)
    end.

(** The handle is resumed in its pipeline. *)
Definition pof_forward (p : Pof) (e : PofElem) : Pof :=
  if seq e >? pof_last_sent p then p <| pof_last_sent := seq e |> else p.

Definition find_elem (h : nat) (l : list PofElem) : option PofElem := snd <$> list_find (λ e, pi e = h) l.

Definition has (event flag : Z) : bool := negb (Z.land event flag =? 0).

(** The loop of [pof_try_forward] with [pkt_to_send]; [None] is a null pointer
    dereference.  One element leaves the queue in every iteration. *)
Fixpoint forward_loop (fuel : nat) (p : Pof) (pkt : option PofElem) (event : Z) : option (Pof * list nat) :=
  if queue_len p >? 0 then
    match fuel with
    | O => None
    | S fuel =>
        e ← pkt;
        if (seq e =? pof_last_sent p + 1) || has event POF_TIMEOUT then
          let p := pof_pop_item (pof_forward (p <| take_any := false |>) e) (pi e) in
          '(p, hs) ← forward_loop fuel p (head (q p)) (Z.land event (Z.lnot POF_TIMEOUT));
          Some (p, pi e :: hs)
        else if seq e <? pof_last_sent p + 1 then
          let p := pof_pop_item (pof_forward p e) (pi e) in
          '(p, hs) ← forward_loop fuel p (head (q p)) event;
          Some (p, pi e :: hs)
        else Some (p, [])
    end
  else Some (p, []).

Definition pof_try_forward (p : Pof) (event : Z) : option (Pof * list nat) :=
  let first := if has event POF_TIMEOUT && negb (take_any p)
               then match next_to_forward p with
                    | Some h => find_elem h (q p)
                    | None => head (q p)
                    end
               else head (q p) in
  forward_loop (length (q p)) p first event.

(** What [ppoll] reports: the eventfd is readable, or the timeout passed. *)
Inductive Poll := PollEvent | PollTimeout.

(** One iteration of the worker thread: the handles resumed and the handles
    given up.  [evfd_read] returns the counter and clears it. *)
Definition pof_thread_step (p : Pof) (poll : Poll) : option (Pof * list nat * list nat) :=
  '(p, fw, dropped) ←
    match poll with
    | PollEvent =>
        let event := evfd p in
        let p := p <| evfd := 0 |> in
        if has event POF_IN_ORDER_PKT
        then '(p, hs) ← pof_try_forward p event; Some (p, hs, [])
        else Some (p, [], [])
    | PollTimeout =>
        if negb (queue_len p =? 0)
        then '(p, hs) ← pof_try_forward p POF_TIMEOUT; Some (p, hs, [])
        else '(p, ds) ← pof_reset p; Some (p, [], ds)
    end;
  let '(_, p) := get_next_deadline p in
  Some (p, fw, dropped).

(** The timeout of the next [ppoll]. *)
Definition pof_timeout (p : Pof) (now : timespec) : timespec :=
  match (get_next_deadline p).1 with
  | Some d => if timespeccmp Z.gtb d now then timespecsub d now else pof_take_any_time p
  | None => pof_take_any_time p
  end.

(** ** Invariant *)

Definition handles (p : Pof) : list nat := pi <$> q p.

Record pof_core (p : Pof) : Prop := {
  pi_len : queue_len p = Z.of_nat (length (q p));
  pi_i32 : queue_len p < 2 ^ 31;
  pi_sorted : StronglySorted (λ a b, seq a <= seq b) (q p);
  pi_seqs : Forall (λ e, is_u16 (seq e)) (q p);
  pi_nodup : NoDup (handles p);
  pi_last : 0 <= pof_last_sent p < 65536
}.

Definition pof_inv (p : Pof) : Prop :=
  pof_core p ∧ ∀ h, next_to_forward p = Some h → h ∈ handles p.

Lemma insert_elem_perm pe l : insert_elem pe l ≡ₚ pe :: l.
Proof.
  induction l as [|e l IH]; cbn [insert_elem]; [done|]. case_match; [|done].
  rewrite IH. apply Permutation_swap.
Qed.

Lemma insert_elem_sorted pe l :
  StronglySorted (λ a b, seq a <= seq b) l → StronglySorted (λ a b, seq a <= seq b) (insert_elem pe l).
Proof.
  induction 1 as [|e l Hl IH He]; cbn [insert_elem]; [repeat constructor|].
  destruct (Z.ltb_spec (seq e) (seq pe)).
  - constructor; [done|]. rewrite insert_elem_perm. constructor; [lia|done].
  - constructor; [by constructor|]. constructor; [lia|].
    eapply Forall_impl; [exact He|]. cbn. intros. lia.
Qed.

Lemma unlink_perm h l e : NoDup (pi <$> l) → e ∈ l → pi e = h → l ≡ₚ e :: unlink h l.
Proof.
  induction l as [|x l IH]; cbn [unlink fmap list_fmap]; intros Hnd Hin He; [by apply not_elem_of_nil in Hin|].
  inversion_clear Hnd as [|? ? Hx Hl]. apply elem_of_cons in Hin as [->|Hin].
  - by rewrite decide_True by done.
  - case_decide as Hc.
    + destruct Hx. rewrite Hc, <- He. by apply list_elem_of_fmap_2.
    + rewrite (IH Hl Hin He) at 1. apply Permutation_swap.
Qed.

Lemma unlink_sublist h l : unlink h l `sublist_of` l.
Proof.
  induction l as [|x l IH]; cbn [unlink]; [constructor|]. case_decide; by constructor.
Qed.

Lemma unlink_head e l : unlink (pi e) (e :: l) = l.
Proof. cbn [unlink]. by rewrite decide_True. Qed.

Lemma Forall_sub (P : PofElem → Prop) l l' : l' `sublist_of` l → Forall P l → Forall P l'.
Proof. intros Hs. rewrite !Forall_forall. intros H x Hx. apply H. by eapply elem_of_sublist. Qed.

Lemma sorted_sublist l l' :
  l' `sublist_of` l → StronglySorted (λ a b, seq a <= seq b) l → StronglySorted (λ a b, seq a <= seq b) l'.
Proof.
  induction 1 as [|x l1 l2 Hs IH|x l1 l2 Hs IH]; intros H; [done | |]; inversion_clear H as [|? ? Hl Hx].
  - constructor; [auto|]. by eapply Forall_sub.
  - auto.
Qed.

(** Taking an element of the queue out. *)
Lemma pop_core p e :
  pof_core p → e ∈ q p →
  handles p ≡ₚ pi e :: handles (pof_pop_item p (pi e)) ∧
  q (pof_pop_item p (pi e)) = unlink (pi e) (q p) ∧
  queue_len (pof_pop_item p (pi e)) = queue_len p - 1 ∧
  pof_last_sent (pof_pop_item p (pi e)) = pof_last_sent p ∧
  pof_core (pof_pop_item p (pi e)).
Proof.
  intros [Hl Hb Hs Hq Hn Hlast] Hin. pose proof (unlink_perm (pi e) (q p) e Hn Hin eq_refl) as Hp.
  assert (0 < queue_len p).
  { rewrite Hl. destruct (q p); [by apply not_elem_of_nil in Hin | cbn; lia]. }
  assert (q p ≠ []) as Hne by (intros E; rewrite E in Hin; by apply not_elem_of_nil in Hin).
  assert (pof_pop_item p (pi e) = p <| q := unlink (pi e) (q p) |> <| queue_len := queue_len p - 1 |>) as E.
  { unfold pof_pop_item. destruct (q p) eqn:Eq; [done|]. destruct (Z.eqb_spec (queue_len p) 0); [lia|].
    rewrite i32_small by (unfold is_i32; lia). done. }
  rewrite E. unfold handles in *. cbn. split_and!; [by rewrite Hp at 1 | done | done | done |].
  pose proof (unlink_sublist (pi e) (q p)) as Hsub. pose proof (Permutation_length Hp) as Hlen.
  split; cbn in *; try done; try lia.
  - by eapply sorted_sublist.
  - by eapply Forall_sub.
  - rewrite Hp in Hn. by inversion Hn.
Qed.

(** [pof_forward] and the flags only touch the last number sent. *)
Definition forwarded_to (p : Pof) (e : PofElem) : Pof := p <| pof_last_sent := Z.max (pof_last_sent p) (seq e) |>.

Lemma pof_forward_eq p e : pof_forward p e = forwarded_to p e.
Proof.
  unfold pof_forward, forwarded_to. destruct (Z.gtb_spec (seq e) (pof_last_sent p)).
  - by rewrite Z.max_r by lia.
  - rewrite Z.max_l by lia. by destruct p.
Qed.

Lemma forwarded_core p e b :
  pof_core p → e ∈ q p → pof_core (forwarded_to (p <| take_any := b |>) e).
Proof.
  intros [Hl Hb Hs Hq Hn Hlast] Hin. split; cbn; try done.
  assert (is_u16 (seq e)) as Hu.
  { pose proof (proj1 (Forall_forall _ _) Hq) as Hf. apply Hf. done. }
  unfold is_u16 in Hu. lia.
Qed.

(** ** The worker *)

(** Sending one element: the loop body without the branch that stops. *)
Lemma send_core p e b :
  pof_core p → e ∈ q p →
  let p' := pof_pop_item (forwarded_to (p <| take_any := b |>) e) (pi e) in
  pof_core p' ∧ handles p ≡ₚ pi e :: handles p' ∧ q p' = unlink (pi e) (q p) ∧
  length (q p) = S (length (q p')) ∧ pof_last_sent p' = Z.max (pof_last_sent p) (seq e).
Proof.
  intros Hc Hin. destruct (pop_core (forwarded_to (p <| take_any := b |>) e) e) as (H1 & H2 & H3 & H4 & H5);
    [by apply forwarded_core | done |].
  cbv zeta. split_and!; [done | done | done | | done].
  apply Permutation_length in H1. unfold handles in H1. cbn in H1. rewrite !length_fmap in H1. done.
Qed.

Lemma take_any_same p : p <| take_any := take_any p |> = p.
Proof. by destruct p. Qed.

(** Every packet that leaves the queue is resumed once, and the loop ends. *)
Lemma forward_loop_conserves fuel p pkt event :
  pof_core p → length (q p) = fuel → (queue_len p > 0 → ∃ e, pkt = Some e ∧ e ∈ q p) →
  ∃ p' hs, forward_loop fuel p pkt event = Some (p', hs) ∧ pof_core p' ∧ handles p ≡ₚ hs ++ handles p'.
Proof.
  revert p pkt event. induction fuel as [|fuel IH]; intros p pkt event Hc Hfuel Hpkt; cbn [forward_loop].
  { rewrite (pi_len p Hc), Hfuel. exists p, []. done. }
  destruct (Z.gtb_spec (queue_len p) 0) as [Hpos|]; [|exists p, []; done].
  destruct Hpkt as (e & -> & Hin); [lia|]. cbn [mbind option_bind]. rewrite !pof_forward_eq.
  assert (∀ b ev, ∃ p' hs,
    ('(p, hs) ← forward_loop fuel (pof_pop_item (forwarded_to (p <| take_any := b |>) e) (pi e))
        (head (q (pof_pop_item (forwarded_to (p <| take_any := b |>) e) (pi e)))) ev;
     Some (p, pi e :: hs)) = Some (p', hs) ∧ pof_core p' ∧ handles p ≡ₚ hs ++ handles p') as Hsend.
  { intros b ev. destruct (send_core p e b Hc Hin) as (Hc' & Hp & _ & Hl & _).
    edestruct (IH (pof_pop_item (forwarded_to (p <| take_any := b |>) e) (pi e))) as (p' & hs & E & Hc'' & Hp');
      [done | lia | | rewrite E; cbn [mbind option_bind]].
    - intros Hq. rewrite (pi_len _ Hc') in Hq.
      destruct (q (pof_pop_item _ _)) as [|e' l]; [cbn in Hq; lia|]. exists e'. split; [done | constructor].
    - exists p', (pi e :: hs). split_and!; [done | done |]. rewrite Hp, Hp'. done. }
  destruct (_ || _); [apply Hsend|]. destruct (_ <? _); [|exists p, []; done].
  specialize (Hsend (take_any p) event). by rewrite take_any_same in Hsend.
Qed.

Lemma find_elem_in h l : h ∈ (pi <$> l) → ∃ e, find_elem h l = Some e ∧ e ∈ l.
Proof.
  intros (e & -> & He)%list_elem_of_fmap. unfold find_elem.
  destruct (list_find_elem_of (λ x, pi x = pi e) l e He eq_refl) as [[i x] E]. rewrite E.
  exists x. split; [done|]. apply list_find_Some in E as (Hl & _ & _). by eapply list_elem_of_lookup_2.
Qed.

Lemma try_forward_conserves p event :
  pof_inv p →
  ∃ p' hs, pof_try_forward p event = Some (p', hs) ∧ pof_core p' ∧ handles p ≡ₚ hs ++ handles p'.
Proof.
  intros [Hc Hnext]. unfold pof_try_forward. apply forward_loop_conserves; [done | done |].
  intros Hpos. rewrite (pi_len p Hc) in Hpos.
  assert (∃ e, head (q p) = Some e ∧ e ∈ q p) as Hhead.
  { destruct (q p) as [|e l]; [cbn in Hpos; lia|]. exists e. split; [done | constructor]. }
  destruct (_ && _); [|done]. destruct (next_to_forward p) as [h|] eqn:E; [|done].
  apply find_elem_in. by apply Hnext.
Qed.

Lemma deadline_loop_in l ret nxt h :
  (deadline_loop l ret nxt).2 = Some h → h ∈ (pi <$> l) ∨ nxt = Some h.
Proof.
  revert ret nxt. induction l as [|e l IH]; intros ret nxt; cbn [deadline_loop fmap list_fmap]; [by right|].
  intros H. rewrite elem_of_cons. case_match; apply IH in H as [H|H]; simplify_eq; tauto.
Qed.

Lemma core_next p n : pof_core p → pof_core (p <| next_to_forward := n |>).
Proof. intros []. by split. Qed.

Lemma get_next_deadline_inv p : pof_core p → pof_inv (get_next_deadline p).2 ∧ handles (get_next_deadline p).2 = handles p.
Proof.
  intros Hc. unfold get_next_deadline.
  destruct (queue_len p =? 0); [split; [split; [by apply core_next | done] | done]|].
  destruct (q p) as [|e l] eqn:Eq; [split; [split; [by apply core_next | done] | done]|].
  destruct (deadline_loop _ _ _) as [ret nxt] eqn:E. split; [split; [by apply core_next|]|done].
  cbn. intros h ->. unfold handles. cbn. rewrite Eq.
  destruct (deadline_loop_in (e :: l) (forward_time e) None h) as [H|H]; [by rewrite E | done | done].
Qed.

(** An iteration of the worker gives up no packet: the queue is only reset when it is empty. *)
Lemma thread_step_conserves p poll :
  pof_inv p →
  ∃ p' fw, pof_thread_step p poll = Some (p', fw, []) ∧ pof_inv p' ∧ handles p ≡ₚ fw ++ handles p'.
Proof.
  intros Hinv. pose proof Hinv as [Hc Hnext].
  assert (∀ p1 fw, pof_core p1 → handles p ≡ₚ fw ++ handles p1 →
    ∃ p' fw', ('(p, fw, dropped) ← Some (p1, fw, @nil nat); let '(_, p) := get_next_deadline p in Some (p, fw, dropped))
       = Some (p', fw', []) ∧ pof_inv p' ∧ handles p ≡ₚ fw' ++ handles p') as Hend.
  { intros p1 fw H1 H2. destruct (get_next_deadline_inv p1 H1) as [Hi Hh]. cbn [mbind option_bind].
    destruct (get_next_deadline p1) as [d p2]. cbn [snd] in *. exists p2, fw. rewrite Hh. done. }
  unfold pof_thread_step. destruct poll.
  - assert (pof_inv (p <| evfd := 0 |>)) as Hinv0 by (split; [destruct Hc; by split | done]).
    destruct (has _ _).
    + destruct (try_forward_conserves _ (evfd p) Hinv0) as (p1 & hs & -> & H1 & H2).
      apply (Hend p1 hs); done.
    + apply (Hend (p <| evfd := 0 |>) []); [apply Hinv0 | done].
  - destruct (Z.eqb_spec (queue_len p) 0) as [E0|]; cbn [negb].
    + unfold pof_reset. rewrite (pi_len p Hc) in E0.
      destruct (q p) as [|] eqn:Eq; [|cbn in E0; lia]. cbn [length drop_all]. rewrite Eq.
      apply (Hend (p <| take_any := true |>) []); [destruct Hc; by split | done].
    + destruct (try_forward_conserves p POF_TIMEOUT Hinv) as (p1 & hs & -> & H1 & H2).
      apply (Hend p1 hs); done.
Qed.

Lemma insert_inv p h pkt now recv :
  pof_inv p → h ∉ handles p → queue_len p < 2 ^ 31 - 1 →
  let p' := pof_insert_locked p h pkt now recv in
  pof_inv p' ∧ handles p' ≡ₚ h :: handles p ∧ queue_len p' = queue_len p + 1.
Proof.
  intros Hinv Hh Hlen. pose proof Hinv as [[Hl Hb Hs Hq Hn Hlast] Hx]. unfold pof_insert_locked.
  set (pe := new_pof_elem p h pkt now).
  assert (pi <$> insert_elem pe (q p) ≡ₚ h :: handles p) as Hp by (by rewrite insert_elem_perm).
  cbv zeta. split_and!; [|done | cbn; by rewrite i32_small by (unfold is_i32; lia)]. split.
  - split; unfold handles; cbn.
    + rewrite i32_small by (unfold is_i32; lia). rewrite insert_elem_perm. cbn. lia.
    + rewrite i32_small by (unfold is_i32; lia). lia.
    + by apply insert_elem_sorted.
    + rewrite insert_elem_perm. constructor; [|done]. unfold pe, new_pof_elem. cbn. rewrite land_ffff.
      unfold is_u16. lia.
    + rewrite Hp. by constructor.
    + done.
  - cbn. intros h' E. unfold handles. cbn. rewrite Hp. apply elem_of_cons. right. auto.
Qed.

(** ** Runs *)

(** A receiving thread works on no packet of this object, or its packet has
    passed the test and the thread has not got the lock yet. *)
Definition Thread := option (nat * Pkt.Packet).

Record PofSys := mk_sys { obj : Pof; threads : list Thread }.

Inductive pof_op :=
  | OpTest (t h : nat) (pkt : Pkt.Packet)      (* thread [t] tests the length for the packet [h] *)
  | OpInsert (t : nat) (now recv : timespec)   (* thread [t] gets the lock *)
  | OpPoll (poll : Poll).

(** What an operation did: packets that passed the test, that were resumed and
    that were given up.  A thread has one packet at a time, and only a thread that
    waits for the lock gets it. *)
Definition pof_step (s : PofSys) (o : pof_op) : option (PofSys * list nat * list nat * list nat) :=
  match o with
  | OpTest t h pkt =>
      match threads s !! t, pof_test (obj s) pkt with
      | Some None, None => Some (mk_sys (obj s) (<[t := Some (h, pkt)]> (threads s)), [h], [], [])
      | _, _ => Some (s, [], [], [])
      end
  | OpInsert t now recv =>
      match threads s !! t with
      | Some (Some (h, pkt)) =>
          Some (mk_sys (pof_insert_locked (obj s) h pkt now recv) (<[t := None]> (threads s)), [], [], [])
      | _ => Some (s, [], [], [])
      end
  | OpPoll poll => '(p, fw, dropped) ← pof_thread_step (obj s) poll; Some (mk_sys p (threads s), [], fw, dropped)
  end.

Fixpoint pof_run (s : PofSys) (os : list pof_op) : option (PofSys * list nat * list nat * list nat) :=
  match os with
  | [] => Some (s, [], [], [])
  | o :: os =>
      '(s, a1, f1, d1) ← pof_step s o;
      '(s, a, f, d) ← pof_run s os;
      Some (s, a1 ++ a, f1 ++ f, d1 ++ d)
  end.

Definition op_handles (os : list pof_op) : list nat :=
  os ≫= λ o, if o is OpTest _ h _ then [h] else [].

Definition thread_handles (t : Thread) : list nat := if t is Some (h, _) then [h] else [].

(** The packets between the test and the lock, and those the object has. *)
Definition waiting (ts : list Thread) : list nat := ts ≫= thread_handles.
Definition held (s : PofSys) : list nat := handles (obj s) ++ waiting (threads s).

Lemma waiting_insert ts t x y :
  ts !! t = Some x → ∃ r, waiting ts ≡ₚ thread_handles x ++ r ∧ waiting (<[t := y]> ts) ≡ₚ thread_handles y ++ r.
Proof.
  intros H. exists (waiting (take t ts) ++ waiting (drop (S t) ts)). unfold waiting. split.
  - rewrite <- (take_drop_middle ts t x H) at 1. rewrite bind_app, bind_cons. solve_Permutation.
  - rewrite insert_take_drop by (by eapply lookup_lt_Some). rewrite bind_app, bind_cons. solve_Permutation.
Qed.

Lemma waiting_length ts : (length (waiting ts) <= length ts)%nat.
Proof. induction ts as [|[[h pkt]|] ts IH]; cbn; unfold waiting in *; lia. Qed.

(** With [T] threads and the length [n]. *)
Definition sys_ok (n : Z) (T : nat) (s : PofSys) : Prop :=
  pof_inv (obj s) ∧ queue_max_len (obj s) = n ∧ length (threads s) = T ∧ NoDup (held s) ∧
  Z.of_nat (length (held s)) <= Z.max 0 (n - 1 + Z.of_nat T).

Lemma sys_len n T s : sys_ok n T s → queue_len (obj s) + Z.of_nat (length (waiting (threads s))) = Z.of_nat (length (held s)).
Proof. intros ([Hc _] & _). rewrite (pi_len _ Hc). unfold held, handles. rewrite length_app, length_fmap. lia. Qed.

Lemma thread_step_max p poll p' fw d : pof_thread_step p poll = Some (p', fw, d) → queue_max_len p' = queue_max_len p.
Proof.
  assert (∀ x h, queue_max_len (pof_pop_item x h) = queue_max_len x) as Hpop.
  { intros x h. unfold pof_pop_item. destruct (q x); [done|]. by destruct (_ =? 0). }
  assert (∀ x e, queue_max_len (pof_forward x e) = queue_max_len x) as Hfw by (intros; unfold pof_forward; by destruct (_ >? _)).
  assert (∀ x, queue_max_len (get_next_deadline x).2 = queue_max_len x) as Hnext.
  { intros x. unfold get_next_deadline. destruct (_ =? 0); [done|]. destruct (q x); [done|]. by destruct (deadline_loop _ _ _). }
  assert (∀ fuel x e ev y hs, forward_loop fuel x e ev = Some (y, hs) → queue_max_len y = queue_max_len x) as Hloop.
  { induction fuel as [|fuel IH]; intros x e ev y hs; cbn [forward_loop]; unfold mbind, option_bind; intros H; repeat case_match; simplify_eq; try done;
      match goal with E : forward_loop _ _ _ _ = _ |- _ => apply IH in E; rewrite E, Hpop, Hfw end; done. }
  assert (∀ fuel x y hs, drop_all fuel x = Some (y, hs) → queue_max_len y = queue_max_len x) as Hdrop.
  { induction fuel as [|fuel IH]; intros x y hs; cbn [drop_all]; unfold mbind, option_bind; intros H; repeat case_match; simplify_eq; try done.
    match goal with E : drop_all _ _ = _ |- _ => apply IH in E; rewrite E, Hpop end. done. }
  unfold pof_thread_step, pof_try_forward, pof_reset, mbind, option_bind. intros H.
  repeat case_match; simplify_eq;
    match goal with E : get_next_deadline ?x = (_, ?y) |- queue_max_len ?y = _ => rewrite <- (f_equal snd E : (get_next_deadline x).2 = y), Hnext end; try done;
    repeat match goal with
      | E : forward_loop _ _ _ _ = Some _ |- _ => apply Hloop in E
      | E : drop_all _ _ = Some _ |- _ => apply Hdrop in E
    end; done.
Qed.

Lemma pof_step_ok n T s o :
  n - 1 + Z.of_nat T < 2 ^ 31 → sys_ok n T s → (∀ h, h ∈ op_handles [o] → h ∉ held s) →
  ∃ s' a fw, pof_step s o = Some (s', a, fw, []) ∧ sys_ok n T s' ∧ held s ++ a ≡ₚ fw ++ held s' ∧ sublist a (op_handles [o]).
Proof.
  intros HT Hok Hfresh. pose proof (sys_len _ _ _ Hok) as Hlen. pose proof Hok as (Hinv & Hmax & Hth & Hnd & Hb).
  assert (∃ s' a fw, Some (s, [], [], []) = Some (s', a, fw, @nil nat) ∧ sys_ok n T s' ∧ held s ++ a ≡ₚ fw ++ held s' ∧ sublist a (op_handles [o])) as Hstay.
  { exists s, [], []. split_and!; [done | done | by rewrite app_nil_r | apply sublist_nil_l]. }
  destruct o as [t h pkt|t now recv|poll]; cbn [pof_step].
  - destruct (threads s !! t) as [[[]|]|] eqn:Et; [done| |done]. unfold pof_test. destruct (SEQ_IS_OAM _); [done|].
    destruct (Z.geb_spec (queue_len (obj s)) (queue_max_len (obj s))) as [|Hroom]; [done|].
    destruct (waiting_insert (threads s) t None (Some (h, pkt)) Et) as (r & R1 & R2). cbn in R1, R2.
    assert (held (mk_sys (obj s) (<[t := Some (h, pkt)]> (threads s))) ≡ₚ h :: held s) as Hh.
    { unfold held. cbn [obj threads]. rewrite R2, R1. solve_Permutation. }
    eexists _, [h], []. split; [done|]. split_and!; [| rewrite Hh; solve_Permutation | done]. split_and!; cbn [obj threads]; try done.
    + by rewrite length_insert.
    + rewrite Hh. constructor; [|done]. apply Hfresh. cbn. constructor.
    + rewrite Hh. cbn [length]. pose proof (waiting_length (<[t := Some (h, pkt)]> (threads s))) as Hw.
      rewrite length_insert, R2 in Hw. cbn in Hw. rewrite R1 in Hlen. lia.
  - destruct (threads s !! t) as [[[h pkt]|]|] eqn:Et; [|done..].
    destruct (waiting_insert (threads s) t (Some (h, pkt)) None Et) as (r & R1 & R2). cbn in R1, R2.
    assert (held s ≡ₚ h :: handles (obj s) ++ r) as Hh by (unfold held; rewrite R1; solve_Permutation).
    rewrite R1 in Hlen. cbn [length] in Hlen.
    destruct (insert_inv (obj s) h pkt now recv) as (Hinv' & Hp & Hl'); [done | | lia |].
    { rewrite Hh in Hnd. apply NoDup_cons in Hnd as [Hnd _]. by rewrite elem_of_app in Hnd; intros ?; apply Hnd; left. }
    assert (held (mk_sys (pof_insert_locked (obj s) h pkt now recv) (<[t := None]> (threads s))) ≡ₚ held s) as Hh'.
    { unfold held at 1. cbn [obj threads]. by rewrite R2, Hp, Hh. }
    eexists _, [], []. split; [done|]. split_and!; [|by rewrite Hh', app_nil_r | apply sublist_nil_l]. split_and!; try done.
    + cbn. by rewrite length_insert.
    + by rewrite Hh'.
    + by rewrite Hh'.
  - destruct (thread_step_conserves (obj s) poll Hinv) as (p' & fw & E & Hinv' & Hp). rewrite E. cbn [mbind option_bind].
    assert (held s ≡ₚ fw ++ held (mk_sys p' (threads s))) as Hh by (unfold held; cbn [obj threads]; rewrite Hp; solve_Permutation).
    eexists _, [], fw. split; [done|]. split_and!; [|by rewrite app_nil_r | apply sublist_nil_l]. split_and!; try done.
    + cbn. by rewrite (thread_step_max _ _ _ _ _ E).
    + rewrite Hh in Hnd. by apply NoDup_app in Hnd as (_ & _ & ?).
    + rewrite Hh, length_app in Hb. lia.
Qed.

Lemma pof_run_ok n T os s :
  n - 1 + Z.of_nat T < 2 ^ 31 → sys_ok n T s → NoDup (op_handles os) → (∀ h, h ∈ op_handles os → h ∉ held s) →
  ∃ s' a fw, pof_run s os = Some (s', a, fw, []) ∧ sys_ok n T s' ∧ held s ++ a ≡ₚ fw ++ held s'.
Proof.
  intros HT. revert s. induction os as [|o os IH]; intros s Hok Hnd Hfresh; cbn [pof_run].
  { exists s, [], []. split_and!; [done | done |]. by rewrite app_nil_r. }
  assert (op_handles (o :: os) = op_handles [o] ++ op_handles os) as Eo by (unfold op_handles; cbn; by rewrite app_nil_r). rewrite Eo in Hnd, Hfresh.
  apply NoDup_app in Hnd as (_ & Hdis & Hnd).
  assert (∀ h, h ∈ op_handles [o] ∨ h ∈ op_handles os → h ∉ held s) as Hfr by (intros h H; apply Hfresh; by rewrite elem_of_app).
  destruct (pof_step_ok n T s o HT Hok ltac:(intros; apply Hfr; by left)) as (s1 & a1 & fw1 & -> & Hok1 & Hp1 & Hsub). cbn [mbind option_bind].
  destruct (IH s1 Hok1 Hnd) as (s2 & a & fw & -> & Hok2 & Hp2).
  { intros h Hin Hin'. assert (h ∈ held s ++ a1) as H by (rewrite Hp1; apply elem_of_app; by right).
    apply elem_of_app in H as [H|H]; [by apply (Hfr h); auto|]. eapply elem_of_sublist in H; [|exact Hsub]. by apply (Hdis h). }
  cbn [mbind option_bind]. exists s2, (a1 ++ a), (fw1 ++ fw). split_and!; [done | done |].
  rewrite app_assoc, Hp1, <- !app_assoc. by rewrite Hp2.
Qed.

Lemma new_pof_inv d t n : 0 <= n < 2 ^ 31 → pof_inv (new_pof d t n) ∧ queue_max_len (new_pof d t n) = n.
Proof.
  intros Hn. unfold new_pof. rewrite i32_small by (unfold is_i32; lia).
  split; [|done]. split; [|done]. split; cbn; try lia; constructor.
Qed.

(** A new object and [T] idle threads. *)
Definition new_sys (d t n : Z) (T : nat) : PofSys := mk_sys (new_pof d t n) (replicate T None).

Lemma waiting_idle T : waiting (replicate T None) = [].
Proof. unfold waiting. induction T; done. Qed.

Lemma new_sys_ok d t n T : 0 <= n < 2 ^ 31 → sys_ok n T (new_sys d t n T).
Proof.
  intros Hn. destruct (new_pof_inv d t n Hn) as [Hinv Hmax]. unfold sys_ok, new_sys, held. cbn [obj threads].
  rewrite waiting_idle. split_and!; try done; [by rewrite length_replicate | cbn; constructor | cbn; lia].
Qed.

(** C17: the ordering queue loses and duplicates nothing.  For any interleaving of
    the length tests and the insertions of [T] receiving threads (the test is
    before the lock) with worker iterations, whatever the events and timeouts,
    every packet that passed the test has been resumed exactly once, is in the
    queue or is still before the lock; the queue stays sorted, the worker
    (packet logging apart) never follows a null pointer and gives up no packet,
    and there are at most as many packets in the queue as its configured length
    and the threads but one. *)
Theorem pof_conserves d t n T os :
  0 <= n < 2 ^ 31 → n - 1 + Z.of_nat T < 2 ^ 31 → NoDup (op_handles os) →
  ∃ s' passed fw, pof_run (new_sys d t n T) os = Some (s', passed, fw, []) ∧ pof_inv (obj s') ∧
    passed ≡ₚ fw ++ handles (obj s') ++ waiting (threads s') ∧
    queue_len (obj s') <= Z.max 0 (n - 1 + Z.of_nat T).
Proof.
  intros Hn HT Hnd. assert (held (new_sys d t n T) = []) as H0 by (unfold held, new_sys; cbn [obj threads]; by rewrite waiting_idle).
  destruct (pof_run_ok n T os (new_sys d t n T) HT (new_sys_ok d t n T Hn) Hnd) as (s' & a & fw & E & Hok & Hp).
  { intros h _. rewrite H0. apply not_elem_of_nil. }
  rewrite H0 in Hp. pose proof (sys_len _ _ _ Hok) as Hlen. destruct Hok as (Hinv & _ & _ & _ & Hb).
  exists s', a, fw. split_and!; [done | done | done | lia].
Qed.

(** A packet with sequence number [n]. *)
Definition seq_pkt (n : Z) : Pkt.Packet := (Pkt.blank_packet [] false) <| Pkt.sequence := htonl n |>.

(** Two threads and a queue of length 1. *)
Definition two_threads : list pof_op :=
  [OpTest 0 1 (seq_pkt 7); OpTest 1 2 (seq_pkt 9); OpInsert 1 (mk_timespec 1 0) (mk_timespec 1 0);
   OpTest 1 3 (seq_pkt 10); OpInsert 0 (mk_timespec 2 0) (mk_timespec 2 0)].

Lemma pof_conserves_witness :
  ∃ s' passed fw, pof_run (new_sys 10 100 1 2) (two_threads ++ [OpPoll PollEvent]) = Some (s', passed, fw, []) ∧ pof_inv (obj s') ∧
    passed ≡ₚ fw ++ handles (obj s') ++ waiting (threads s') ∧ queue_len (obj s') <= 2.
Proof.
  apply (pof_conserves 10 100 1 2 (two_threads ++ [OpPoll PollEvent])); [lia | lia |]. decide_now.
Defined.

(** Finding: the queue grows over its length.  The length is tested before the
    lock: two threads that test at the same time both insert. *)
Theorem pof_overfull :
  ∃ s' passed fw, pof_run (new_sys 10 100 1 2) two_threads = Some (s', passed, fw, []) ∧
    queue_max_len (obj s') = 1 ∧ queue_len (obj s') = 2.
Proof. eexists _, _, _. split; [vm_compute; reflexivity|]. split; reflexivity. Qed.

(** ** Order *)

(** What the worker should release: the longest prefix of the ordered queue
    without a gap after the last number sent. *)
Fixpoint release (last : Z) (l : list PofElem) : list PofElem * list PofElem * Z :=
  match l with
  | [] => ([], [], last)
  | e :: l' =>
      if seq e <=? last + 1 then
        let '(out, rest, last) := release (Z.max last (seq e)) l' in (e :: out, rest, last)
      else ([], l, last)
  end.

Lemma forward_loop_release p event :
  pof_core p → has event POF_TIMEOUT = false →
  ∃ p' out, forward_loop (length (q p)) p (head (q p)) event = Some (p', pi <$> out) ∧
    release (pof_last_sent p) (q p) = (out, q p', pof_last_sent p').
Proof.
  intros Hc Hev. assert (Z.land event (Z.lnot POF_TIMEOUT) = event) as Eev.
  { unfold has, POF_TIMEOUT in *. apply negb_false_iff, Z.eqb_eq in Hev.
    rewrite <- Z.ldiff_land. pose proof (Z.lor_ldiff_and event 4) as E. rewrite Hev, Z.lor_0_r in E. done. }
  remember (q p) as l eqn:El. revert p Hc El.
  induction l as [|e l IH]; intros p Hc El; cbn [length forward_loop head release].
  { pose proof (pi_len p Hc) as Hl. rewrite <- El in Hl. cbn in Hl. rewrite Hl. exists p, []. by rewrite <- El. }
  pose proof (pi_len p Hc) as Hl. rewrite <- El in Hl. cbn [length] in Hl.
  destruct (Z.gtb_spec (queue_len p) 0); [|lia]. cbn [mbind option_bind]. rewrite Hev, orb_false_r, Eev, !pof_forward_eq.
  assert (e ∈ q p) as Hin by (rewrite <- El; constructor).
  assert (∀ b, seq e <= pof_last_sent p + 1 → ∃ p' out,
    ('(p, hs) ← forward_loop (length l) (pof_pop_item (forwarded_to (p <| take_any := b |>) e) (pi e))
        (head (q (pof_pop_item (forwarded_to (p <| take_any := b |>) e) (pi e)))) event;
     Some (p, pi e :: hs)) = Some (p', pi <$> out) ∧
    (if seq e <=? pof_last_sent p + 1 then
        let '(out, rest, last) := release (Z.max (pof_last_sent p) (seq e)) l in (e :: out, rest, last)
      else ([], e :: l, pof_last_sent p)) = (out, q p', pof_last_sent p')) as Hsend.
  { intros b Hs. destruct (send_core p e b Hc Hin) as (Hc' & _ & Hq & _ & Hlast).
    rewrite <- El, unlink_head in Hq.
    edestruct (IH (pof_pop_item (forwarded_to (p <| take_any := b |>) e) (pi e))) as (p' & out & E & R); [done | done |].
    rewrite Hq, E. cbn [mbind option_bind]. rewrite Hlast in R. exists p', (e :: out). split; [done|].
    destruct (Z.leb_spec (seq e) (pof_last_sent p + 1)); [|lia]. by rewrite R. }
  destruct (Z.eqb_spec (seq e) (pof_last_sent p + 1)); [apply Hsend; lia|].
  destruct (Z.ltb_spec (seq e) (pof_last_sent p + 1)).
  - specialize (Hsend (take_any p)). rewrite take_any_same in Hsend. apply Hsend. lia.
  - exists p, []. split; [done|]. destruct (Z.leb_spec (seq e) (pof_last_sent p + 1)); [lia|]. by rewrite <- El.
Qed.

Lemma release_sorted last l out rest last' :
  StronglySorted (λ a b, seq a <= seq b) l → release last l = (out, rest, last') →
  l = out ++ rest ∧ StronglySorted (λ a b, seq a <= seq b) out ∧ last <= last' ∧
  (∀ e, e ∈ rest → last' + 1 < seq e).
Proof.
  intros Hs. revert last out rest last'. induction Hs as [|e l Hl IH He]; intros last out rest last'; cbn [release].
  { intros [= <- <- <-]. split_and!; [done | constructor | lia | by intros e ?%not_elem_of_nil]. }
  destruct (Z.leb_spec (seq e) (last + 1)).
  - destruct (release _ l) as [[o r] la] eqn:E. intros [= <- <- <-].
    destruct (IH _ _ _ _ E) as (-> & Ho & Hle & Hr). split_and!; [done | | lia | done].
    constructor; [done|]. by apply Forall_app in He as [? _].
  - intros [= <- <- <-]. split_and!; [done | constructor | lia |].
    intros x [->|Hx]%elem_of_cons; [lia|]. pose proof (proj1 (Forall_forall _ _) He x Hx). cbn in *. lia.
Qed.

Lemma next_deadline_queue p : q (get_next_deadline p).2 = q p ∧ pof_last_sent (get_next_deadline p).2 = pof_last_sent p.
Proof.
  unfold get_next_deadline. destruct (_ =? 0); [done|]. destruct (q p) eqn:E; [done|].
  destruct (deadline_loop _ _ _). cbn. done.
Qed.

Lemma event_step p :
  pof_inv p → has (evfd p) POF_IN_ORDER_PKT = true → has (evfd p) POF_TIMEOUT = false →
  ∃ p' out, pof_thread_step p PollEvent = Some (p', pi <$> out, []) ∧
    release (pof_last_sent p) (q p) = (out, q p', pof_last_sent p').
Proof.
  intros [Hc Hn] H1 H2. unfold pof_thread_step. rewrite H1. unfold pof_try_forward. rewrite H2. cbn [andb].
  destruct (forward_loop_release (p <| evfd := 0 |>) (evfd p)) as (p1 & out & E & R);
    [destruct Hc; by split | done |].
  rewrite E. cbn [mbind option_bind]. cbn in R.
  destruct (next_deadline_queue p1) as [Eq El]. destruct (get_next_deadline p1) as [d p2]. cbn [snd] in *.
  exists p2, out. by rewrite Eq, El.
Qed.


(** Sortedness and bounds of a concrete queue. *)
Ltac solve_sorted :=
  repeat first [apply SSorted_nil | apply SSorted_cons | apply Forall_nil_2 | apply Forall_cons_2
               | unfold is_u16; cbn; lia].

Definition demo_pof : Pof :=
  mk_pof (mk_timespec 0 0) (mk_timespec 0 0) 10 4 5 false 1
    [mk_elem 3 6 (mk_timespec 1 0); mk_elem 1 7 (mk_timespec 1 0); mk_elem 2 9 (mk_timespec 1 0); mk_elem 4 10 (mk_timespec 1 0)]
    None (mk_timespec 0 0).

Lemma demo_pof_inv : pof_inv demo_pof.
Proof.
  split; [|done]. split; cbn; try lia.
  - solve_sorted.
  - solve_sorted.
  - decide_now.
Qed.


(** ** The end of the sequence space *)

(** Finding: ordering stops for good at the wrap-around.  Once number 65535 was
    sent, every worker iteration on an in-order event empties the queue,
    whatever numbers are in it, and every packet that is inserted counts as in
    order; resets do not change the last number sent. *)
Theorem pof_no_wrap p :
  pof_inv p → pof_last_sent p = 65535 →
  (has (evfd p) POF_IN_ORDER_PKT = true → has (evfd p) POF_TIMEOUT = false →
   ∃ p' out, pof_thread_step p PollEvent = Some (p', pi <$> out, []) ∧ q p' = [] ∧ pof_last_sent p' = 65535) ∧
  (∀ h pkt now recv, queue_len p < queue_max_len p → SEQ_IS_OAM (Pkt.sequence pkt) = false →
   evfd (pof_insert p h pkt now recv).2 = evfd_write (evfd p) POF_IN_ORDER_PKT).
Proof.
  intros Hinv Hlast. split.
  - intros H1 H2. destruct (event_step p Hinv H1 H2) as (p' & out & E & R). exists p', out. split; [done|].
    rewrite Hlast in R. pose proof (pi_seqs p (proj1 Hinv)) as Hs. clear - R Hs. revert out R.
    induction Hs as [|e l He Hl IH]; intros out R; cbn [release] in R; [by simplify_eq|].
    unfold is_u16 in He. destruct (Z.leb_spec (seq e) (65535 + 1)); [|lia]. rewrite Z.max_l in R by lia.
    destruct (release 65535 l) as [[o r] la]. simplify_eq. by eapply IH.
  - intros h pkt now recv Hq Hoam. unfold pof_insert, pof_test. rewrite Hoam.
    destruct (Z.geb_spec (queue_len p) (queue_max_len p)); [lia|]. cbn. rewrite Hlast, land_ffff.
    destruct (Z.leb_spec (ntohl (Pkt.sequence pkt) mod 65536) (65535 + 1)); [done|lia].
Qed.

Definition wrapped_pof : Pof :=
  mk_pof (mk_timespec 0 0) (mk_timespec 0 0) 10 2 65535 false 1
    [mk_elem 1 3 (mk_timespec 1 0); mk_elem 2 60000 (mk_timespec 1 0)] None (mk_timespec 0 0).

Lemma pof_no_wrap_witness :
  (true = true → false = false →
   ∃ p' out, pof_thread_step wrapped_pof PollEvent = Some (p', pi <$> out, []) ∧ q p' = [] ∧ pof_last_sent p' = 65535) ∧
  (∀ h pkt now recv, 2 < 10 → SEQ_IS_OAM (Pkt.sequence pkt) = false →
   evfd (pof_insert wrapped_pof h pkt now recv).2 = evfd_write 1 POF_IN_ORDER_PKT).
Proof.
  apply (pof_no_wrap wrapped_pof); [|reflexivity].
  split; [|done]. split; cbn; try lia.
  - solve_sorted.
  - solve_sorted.
  - decide_now.
Defined.

(** ** Accumulated events *)

(** Two held packets with different deadlines; before the worker runs, two more
    packets behind the gap and the missing packet 11 arrive. *)
Definition accumulated : option (list nat) :=
  let t := mk_timespec 1 0 in
  let p := mk_pof (mk_timespec 0 0) (mk_timespec 0 0) 10 2 10 false 0
             [mk_elem 30 30 (mk_timespec 1 0); mk_elem 40 40 (mk_timespec 2 0)] (Some 40%nat) t in
  let p := (pof_insert p 35 (seq_pkt 35) t t).2 in
  let p := (pof_insert p 36 (seq_pkt 36) t t).2 in
  let p := (pof_insert p 11 (seq_pkt 11) t t).2 in
  '(_, fw, _) ← pof_thread_step p PollEvent; Some fw.

(** Finding: event codes add up in the eventfd.  Two out-of-order events and one
    in-order event are read as 2+2+1 = 5, whose bit 2 is the timeout code:
    without any timeout the packet with number 40 is resumed first, ahead of the
    packets with numbers 11, 30, 35 and 36. *)
Theorem pof_events_add_up : accumulated = Some [40; 11; 30; 35; 36]%nat.
Proof. vm_compute. reflexivity. Qed.

End POF.
