(* ===== verification/Delay.v ===== *)
(** * The delay queue (delay.h, delay.c)

    Module [DelayQ]: the queue of the worker thread, ordered by deadline, and one
    iteration of the worker.  Module [DelayProto]: how senders, workers and the
    shutdown share the mailbox pointer and the mutex, as a step relation.  A
    packet is known by the handle of its pipeline iterator; the worker returns
    the handles it resumes. *)

From Stdlib Require Import Sorting.Sorted.
From S2P Require Import Prelude TimeUtils Packet.
Import Time.

Module DelayQ.

Record DelayStat := mk_stat { delayed_packets : Z; delay_exceeded_packets : Z }.

(** An entry points to the statistics of its pipeline. *)
Record DelayElem := mk_delem { pi : nat; deadline : timespec; stat : string }.

(** The queue of a worker and the shared table of statistics. *)
Record DelayState := mk_dstate {
  queue : list DelayElem;
  stats : gmap string DelayStat;
  timeout_us : Z;
  last_alert : timespec
}.
#[global] Instance eta_dstate : Eta DelayState := λ d, mk_dstate (queue d) (stats d) (timeout_us d) (last_alert d).

Definition IDLE_TIMEOUT_US : Z := 60 * 1000 * 1000.
Definition ALERT_COOLDOWN : Z := 5000000.

Definition queue_deadline (e : DelayElem) (now : timespec) : Z := i32 (time_diff_us (deadline e) now).

(** [timespeccmp(&n->deadline, &iter->deadline, >)] *)
Definition later (a b : DelayElem) : bool := timespeccmp Z.gtb (deadline a) (deadline b).

(** The insertion loop: before the first entry that is not earlier. *)
Fixpoint insert_by_deadline (n : DelayElem) (q : list DelayElem) : list DelayElem :=
  match q with
  | [] => [n]
  | e :: q => if later n e then e :: insert_by_deadline n q else n :: e :: q
  end.

Definition bump (f : DelayStat → DelayStat) (name : string) (m : gmap string DelayStat) : gmap string DelayStat :=
  alter f name m.

(** The deadline is the time stamp of the packet plus its delay. *)
Definition packet_deadline (p : Pkt.Packet) (now : timespec) : timespec :=
  timespecadd (timespec_from_tsntstamp (Pkt.timestamp p) now) (Pkt.delay p).

(** [queue_push]: the statistics of a pipeline are created with its first packet;
    the first result is the time to the first deadline. *)
Definition queue_push (d : DelayState) (h : nat) (p : Pkt.Packet) (name : string) (now : timespec) : Z * DelayState :=
  let n := mk_delem h (packet_deadline p now) name in
  let st := match stats d !! name with Some _ => stats d | None => <[name := mk_stat 0 0]> (stats d) end in
  let q := insert_by_deadline n (queue d) in
  match q with
  | [] => (0, d)
  | first :: _ =>
      let timeout := time_diff_us (deadline first) now in
      let st := if timeout <=? 0
                then bump (λ s, mk_stat (delayed_packets s) (u64 (delay_exceeded_packets s + 1))) (stat first) st
                else st in
      (i32 timeout, d <| queue := q |> <| stats := st |>)
  end.

(** [queue_send_first]: the handle that is resumed, if any. *)
Definition queue_send_first (d : DelayState) : option nat * DelayState :=
  match queue d with
  | [] => (None, d)
  | f :: q =>
      (Some (pi f),
       d <| queue := q |>
         <| stats := bump (λ s, mk_stat (u64 (delayed_packets s + 1)) (delay_exceeded_packets s)) (stat f) (stats d) |>)
  end.

(** [while (queue) queue_send_first(&queue);] *)
Fixpoint flush (n : nat) (d : DelayState) : list nat * DelayState :=
  match n with
  | O => ([], d)
  | S n => let '(h, d) := queue_send_first d in let '(hs, d) := flush n d in (option_list h ++ hs, d)
  end.

(** A message: an iterator with its packet and the name of its pipeline, or the
    flush signal. *)
Inductive Message := MsgPacket (h : nat) (p : Pkt.Packet) (name : string) | MsgFlush.

(** What an iteration ends with. *)
Inductive StepResult :=
  | StepRun       (* next iteration *)
  | StepIdle      (* idle timeout with an empty queue *)
  | StepExit.     (* flushed *)

(** A push and the alert that may follow it; [now2] is the second clock reading. *)
Definition push_alert (d : DelayState) (h : nat) (p : Pkt.Packet) (name : string) (now now2 : timespec) : bool * DelayState :=
  let '(t, d) := queue_push d h p name now in
  let d := d <| timeout_us := t |> in
  if (t <=? 0) && (time_diff_us now2 (last_alert d) >? ALERT_COOLDOWN)
  then (true, d <| last_alert := now2 |>) else (false, d).

(** One iteration of [delay_thread].  [msg] is what [messagequeue_pop] returns
    when it is called; a worker that is late does not look into its mailbox. *)
Definition delay_thread_step (d : DelayState) (msg : option Message) (now now2 : timespec)
    : StepResult * list nat * DelayState :=
  match (if timeout_us d >? 0 then msg else None) with
  | Some MsgFlush => let '(hs, d) := flush (length (queue d)) d in (StepExit, hs, d)
  | Some (MsgPacket h p name) => (StepRun, [], (push_alert d h p name now now2).2)
  | None =>
      match queue_send_first d with
      | (Some h, d) =>
          (StepRun, [h],
           d <| timeout_us := match queue d with e :: _ => queue_deadline e now | [] => IDLE_TIMEOUT_US end |>)
      | (None, d) => (StepIdle, [], d)
      end
  end.

(** ** Order and conservation *)

Definition not_later (a b : DelayElem) : Prop := later a b = false.

Lemma later_ns a b :
  later a b = true ↔ tv_sec (deadline b) < tv_sec (deadline a) ∨
    tv_sec (deadline a) = tv_sec (deadline b) ∧ tv_nsec (deadline b) < tv_nsec (deadline a).
Proof. unfold later, timespeccmp. zcases; lia. Qed.

Lemma not_later_ns a b :
  not_later a b ↔ tv_sec (deadline a) < tv_sec (deadline b) ∨
    tv_sec (deadline a) = tv_sec (deadline b) ∧ tv_nsec (deadline a) <= tv_nsec (deadline b).
Proof. unfold not_later. rewrite <- not_true_iff_false, later_ns. lia. Qed.

Lemma insert_deadline_perm n q : insert_by_deadline n q ≡ₚ n :: q.
Proof.
  induction q as [|e q IH]; cbn [insert_by_deadline]; [done|]. case_match; [|done].
  rewrite IH. apply Permutation_swap.
Qed.

Lemma insert_deadline_sorted n q : StronglySorted not_later q → StronglySorted not_later (insert_by_deadline n q).
Proof.
  induction 1 as [|e q Hq IH He]; cbn [insert_by_deadline]; [repeat constructor|].
  destruct (later n e) eqn:E.
  - constructor; [done|]. rewrite insert_deadline_perm. constructor; [|done].
    apply not_later_ns. apply later_ns in E. lia.
  - constructor; [by constructor|]. constructor; [done|]. eapply Forall_impl; [exact He|].
    intros x Hx. apply not_later_ns. apply not_later_ns in E, Hx. lia.
Qed.

Definition handles (d : DelayState) : list nat := pi <$> queue d.
Definition sorted (d : DelayState) : Prop := StronglySorted not_later (queue d).

Lemma queue_push_queue d h p name now :
  queue (queue_push d h p name now).2 = insert_by_deadline (mk_delem h (packet_deadline p now) name) (queue d).
Proof.
  unfold queue_push. destruct (insert_by_deadline _ (queue d)) eqn:E; [|done].
  pose proof (insert_deadline_perm (mk_delem h (packet_deadline p now) name) (queue d)) as Hp.
  rewrite E in Hp. by apply Permutation_nil_cons in Hp.
Qed.

Lemma push_alert_queue d h p name now now2 :
  queue (push_alert d h p name now now2).2 = insert_by_deadline (mk_delem h (packet_deadline p now) name) (queue d).
Proof.
  unfold push_alert. pose proof (queue_push_queue d h p name now) as H. destruct (queue_push d h p name now) as [t d'].
  cbn in H. by case_match.
Qed.

Lemma flush_all n d : n = length (queue d) → (flush n d).1 = handles d ∧ queue (flush n d).2 = [].
Proof.
  revert d. induction n as [|n IH]; intros d Hn; unfold handles; cbn [flush].
  - cbn. destruct (queue d); [done | discriminate Hn].
  - unfold queue_send_first. destruct (queue d) as [|f q] eqn:Eq; [discriminate Hn|]. injection Hn as Hn.
    specialize (IH (d <| queue := q |> <| stats := bump (λ s, mk_stat (u64 (delayed_packets s + 1)) (delay_exceeded_packets s)) (stat f) (stats d) |>) Hn).
    destruct (flush n _) as [hs d']. cbn in *. destruct IH as [-> ->]. done.
Qed.

(** The handle taken from the mailbox in an iteration. *)
Definition taken (d : DelayState) (msg : option Message) : list nat :=
  if timeout_us d >? 0 then (if msg is Some (MsgPacket h _ _) then [h] else []) else [].

Lemma step_conserves d msg now now2 :
  sorted d →
  let '(r, sent, d') := delay_thread_step d msg now now2 in
  sorted d' ∧ taken d msg ++ handles d ≡ₚ sent ++ handles d' ∧
  (r = StepRun → ∃ rest, handles d = sent ++ rest) ∧ (r = StepExit → sent = handles d ∧ queue d' = []) ∧
  (r = StepIdle → queue d = []).
Proof.
  intros Hs. unfold delay_thread_step, taken. destruct (timeout_us d >? 0); [destruct msg as [[h p name|]|]|].
  - pose proof (push_alert_queue d h p name now now2) as E. destruct (push_alert d h p name now now2) as [b d']. cbn in *.
    split_and!; [unfold sorted; rewrite E; by apply insert_deadline_sorted | | by eexists | done | done].
    unfold handles. rewrite E, insert_deadline_perm. done.
  - destruct (flush_all (length (queue d)) d eq_refl) as [E1 E2]. destruct (flush _ d) as [hs d']. cbn in *. subst hs.
    split_and!; try done; [unfold sorted; rewrite E2; constructor|]. unfold handles at 3. rewrite E2. by rewrite app_nil_r.
  - unfold queue_send_first, sorted, handles in *. destruct (queue d) as [|f q] eqn:E; cbn; rewrite ?E.
    + by split_and!.
    + apply StronglySorted_inv in Hs as [Hs _]. split_and!; try done. by eexists.
  - unfold queue_send_first, sorted, handles in *. destruct (queue d) as [|f q] eqn:E; cbn; rewrite ?E.
    + by split_and!.
    + apply StronglySorted_inv in Hs as [Hs _]. split_and!; try done. by eexists.
Qed.

(** A run of the worker: the messages it is given and the clock readings. *)
Definition Iteration : Type := option Message * timespec * timespec.

(** The handles taken from the mailbox and the handles resumed, in order; the
    worker stops when it has flushed. *)
Fixpoint delay_run (d : DelayState) (its : list Iteration) : list nat * list nat * DelayState :=
  match its with
  | [] => ([], [], d)
  | (msg, now, now2) :: its =>
      let '(r, sent, d') := delay_thread_step d msg now now2 in
      match r with
      | StepExit => (taken d msg, sent, d')
      | _ => let '(tk, st, d'') := delay_run d' its in (taken d msg ++ tk, sent ++ st, d'')
      end
  end.

Definition new_queue : DelayState := mk_dstate [] ∅ IDLE_TIMEOUT_US (mk_timespec 0 0).

Lemma delay_run_conserves its d :
  sorted d → let '(tk, sent, d') := delay_run d its in sorted d' ∧ handles d ++ tk ≡ₚ sent ++ handles d'.
Proof.
  revert d. induction its as [|[[msg now] now2] its IH]; intros d Hs; cbn [delay_run]; [by rewrite app_nil_r|].
  pose proof (step_conserves d msg now now2 Hs) as H. destruct (delay_thread_step d msg now now2) as [[r sent] d'].
  destruct H as (Hs' & Hp & _). specialize (IH d' Hs'). destruct (delay_run d' its) as [[tk st] d''].
  destruct IH as [Hs'' Hp''].
  assert (handles d ++ taken d msg ++ tk ≡ₚ (sent ++ st) ++ handles d'') as Hall.
  { rewrite app_assoc, (Permutation_app_comm (handles d)), Hp, <- !app_assoc. by rewrite Hp''. }
  destruct r; try done. split; [done|]. by rewrite Permutation_app_comm.
Qed.

(** C21: the delay queue loses and duplicates nothing, and keeps its order.  For
    any sequence of messages, timeouts and clock readings, every packet the
    worker took from its mailbox has been resumed exactly once or is still in the
    queue, which is sorted by deadline; the worker only ever resumes the packet
    with the earliest deadline, and a flush resumes all of them in order. *)
Theorem delay_conserves its :
  let '(tk, sent, d) := delay_run new_queue its in
  sorted d ∧ tk ≡ₚ sent ++ handles d ∧
  ∀ msg now now2,
    let '(r, sent', d') := delay_thread_step d msg now now2 in
    (r = StepRun → ∃ rest, handles d = sent' ++ rest) ∧ (r = StepExit → sent' = handles d ∧ queue d' = []).
Proof.
  pose proof (delay_run_conserves its new_queue ltac:(constructor)) as H.
  destruct (delay_run new_queue its) as [[tk sent] d]. destruct H as [Hs Hp]. split_and!; [done | done |].
  intros msg now now2. pose proof (step_conserves d msg now now2 Hs) as H.
  destruct (delay_thread_step d msg now now2) as [[r sent'] d']. destruct H as (_ & _ & H1 & H2 & _). done.
Qed.

(** Finding: packets with the same deadline are reordered.  A packet whose deadline
    equals that of the first packet of the queue is put before it, so packets of
    one stream that arrived in the same microsecond leave in reverse order. *)
Theorem equal_deadlines_reverse d h1 p1 h2 p2 name now :
  sorted d → packet_deadline p1 now = packet_deadline p2 now →
  Forall (λ e, not_later (mk_delem h1 (packet_deadline p1 now) name) e) (queue d) →
  ∃ d', (queue_push (queue_push d h1 p1 name now).2 h2 p2 name now).2 = d' ∧ handles d' = h2 :: h1 :: handles d.
Proof.
  intros Hs Heq Hall. eexists. split; [done|]. unfold handles. rewrite !queue_push_queue.
  assert (∀ n q, Forall (not_later n) q → insert_by_deadline n q = n :: q) as Hins.
  { intros n [|e q]; [done|]. intros [He _]%Forall_cons. cbn. by rewrite He. }
  rewrite (Hins _ (queue d) Hall). rewrite Hins; [done|]. rewrite <- Heq. constructor.
  - apply not_later_ns. cbn. lia.
  - eapply Forall_impl; [exact Hall|]. intros e. rewrite !not_later_ns. done.
Qed.

Lemma equal_deadlines_reverse_witness :
  ∃ d', (queue_push (queue_push new_queue 1 (Pkt.blank_packet [] false) "s" (mk_timespec 7 0)).2 2
          (Pkt.blank_packet [] false) "s" (mk_timespec 7 0)).2 = d' ∧ handles d' = 2%nat :: 1%nat :: handles new_queue.
Proof. apply equal_deadlines_reverse; [constructor | reflexivity | constructor]. Defined.

End DelayQ.

(** ** The mailbox protocol

    The pointer [mbox], the mutex and the threads that use them, in time.  A step
    is a read of the pointer, a section under the mutex, an operation on a message
    queue, an iteration of a worker or the passing of a microsecond; waiting for
    the mutex is a step that is enabled only when the mutex is free.  A sender
    that has read the pointer uses it without the mutex.  The code relies on its
    being faster than the sleep of a worker that gives up its mailbox: [D] is the
    time a sender takes at most from its read of the pointer to its push. *)

Module DelayProto.

Inductive Msg := Packet (h : nat) | Flush.

(** The microseconds of [usleep(10*1000)]. *)
Definition GRACE_US : Z := 10 * 1000.

(** Where a worker is: in its loop, before the mutex after an idle timeout, asleep
    since it gave up the pointer, finished, or reading the flush signal as a
    packet.  A worker that has finished has deleted its mailbox. *)
Inductive WorkerPc := WLoop | WIdleLock | WIdleSleep (since : Z) | WExited | WCrashed.

Record Worker := mk_worker { wpc : WorkerPc; mail : list Msg; wqueue : list nat }.
#[global] Instance eta_worker : Eta Worker := λ w, mk_worker (wpc w) (mail w) (wqueue w).

(** A sender in [delay_insert]: it starts, waits for the mutex to create a
    mailbox, has read a mailbox pointer at some time, is done, or has used a
    deleted mailbox. *)
Inductive SenderPc := SStart (h : nat) | SLock (h : nat) | SHave (m h : nat) (since : Z) | SDone | SFault (h : nat).

(** [finish_delay]: not called, called, has read the pointer, waits for the
    worker to flush, done, or has used a deleted mailbox. *)
Inductive FinishPc := FOff | FStart | FLock (m : nat) | FWait | FDone | FFault.

Record Sys := mk_sys {
  mbox : option nat;
  mutex : bool;                    (* locked *)
  workers : gmap nat Worker;       (* by mailbox *)
  senders : gmap nat SenderPc;
  fin : FinishPc;
  sent : list nat;
  clock : Z
}.
#[global] Instance eta_sys : Eta Sys := λ s, mk_sys (mbox s) (mutex s) (workers s) (senders s) (fin s) (sent s) (clock s).

Definition alive (w : Worker) : bool := match wpc w with WExited => false | _ => true end.

Definition set_worker (s : Sys) (m : nat) (w : Worker) : Sys := s <| workers := <[m := w]> (workers s) |>.
Definition set_sender (s : Sys) (c : nat) (p : SenderPc) : Sys := s <| senders := <[c := p]> (senders s) |>.

(** Every sender that has the pointer still has time for its push. *)
Definition in_time (D : Z) (s : Sys) : Prop :=
  ∀ c m h t, senders s !! c = Some (SHave m h t) → clock s + 1 <= t + D.

Section steps.
Context (D : Z).

Inductive step : Sys → Sys → Prop :=
  | time_passes s : in_time D s → step s (s <| clock := clock s + 1 |>)
  (* get_mbox: the first read *)
  | sender_reads s c h m : senders s !! c = Some (SStart h) → mbox s = Some m → step s (set_sender s c (SHave m h (clock s)))
  | sender_reads_null s c h : senders s !! c = Some (SStart h) → mbox s = None → step s (set_sender s c (SLock h))
  (* get_mbox: the section under the mutex *)
  | sender_rereads s c h m :
      senders s !! c = Some (SLock h) → mutex s = false → mbox s = Some m → step s (set_sender s c (SHave m h (clock s)))
  | sender_creates s c h m :
      senders s !! c = Some (SLock h) → mutex s = false → mbox s = None → workers s !! m = None →
      step s ((set_sender (set_worker s m (mk_worker WLoop [] [])) c (SHave m h (clock s))) <| mbox := Some m |>)
  (* messagequeue_push *)
  | sender_pushes s c h m t w :
      senders s !! c = Some (SHave m h t) → workers s !! m = Some w → alive w = true →
      step s (set_sender (set_worker s m (w <| mail := mail w ++ [Packet h] |>)) c SDone)
  | sender_dangles s c h m t w :
      senders s !! c = Some (SHave m h t) → workers s !! m = Some w → alive w = false → step s (set_sender s c (SFault h))
  (* the loop of the worker *)
  | worker_takes s m w h rest q :
      workers s !! m = Some w → wpc w = WLoop → mail w = Packet h :: rest → q ≡ₚ h :: wqueue w →
      step s (set_worker s m (mk_worker WLoop rest q))
  | worker_sends s m w h q :
      workers s !! m = Some w → wpc w = WLoop → wqueue w = h :: q →
      step s ((set_worker s m (mk_worker WLoop (mail w) q)) <| sent := sent s ++ [h] |>)
  | worker_flushes s m w rest :
      workers s !! m = Some w → wpc w = WLoop → mail w = Flush :: rest →
      step s ((set_worker s m (mk_worker WExited rest [])) <| sent := sent s ++ wqueue w |> <| mutex := false |>)
  | worker_idles s m w :
      workers s !! m = Some w → wpc w = WLoop → mail w = [] → wqueue w = [] →
      step s (set_worker s m (mk_worker WIdleLock [] []))
  (* the idle timeout *)
  | worker_gives_up s m w :
      workers s !! m = Some w → wpc w = WIdleLock → mutex s = false → mbox s = Some m →
      step s ((set_worker s m (w <| wpc := WIdleSleep (clock s) |>)) <| mbox := None |>)
  | worker_exits_inactive s m w :
      workers s !! m = Some w → wpc w = WIdleLock → mutex s = false → mbox s ≠ Some m →
      step s (set_worker s m (w <| wpc := WExited |>))
  | worker_wakes s m w t h rest :
      workers s !! m = Some w → wpc w = WIdleSleep t → t + GRACE_US <= clock s → mail w = Packet h :: rest →
      step s (set_worker s m (mk_worker WLoop rest (h :: wqueue w)))
  | worker_wakes_flush s m w t rest :
      workers s !! m = Some w → wpc w = WIdleSleep t → t + GRACE_US <= clock s → mail w = Flush :: rest →
      step s (set_worker s m (w <| wpc := WCrashed |>))
  | worker_exits s m w t :
      workers s !! m = Some w → wpc w = WIdleSleep t → t + GRACE_US <= clock s → mail w = [] →
      step s (set_worker s m (w <| wpc := WExited |>))
  (* finish_delay *)
  | fin_reads s m : fin s = FStart → mbox s = Some m → step s (s <| fin := FLock m |>)
  | fin_reads_null s : fin s = FStart → mbox s = None → step s (s <| fin := FDone |>)
  | fin_locks s m w :
      fin s = FLock m → mutex s = false → workers s !! m = Some w → alive w = true →
      step s ((set_worker s m (w <| mail := mail w ++ [Flush] |>)) <| mutex := true |> <| fin := FWait |>)
  | fin_dangles s m w :
      fin s = FLock m → mutex s = false → workers s !! m = Some w → alive w = false → step s (s <| fin := FFault |>)
  | fin_ends s : fin s = FWait → mutex s = false → step s (s <| mbox := None |> <| fin := FDone |>).

Definition initial (snd : gmap nat SenderPc) (f : FinishPc) : Sys := mk_sys None false ∅ snd f [] 0.

Definition reachable (s0 s : Sys) : Prop := rtc step s0 s.

(** ** Where the packets are *)

(** A packet whose sender used a deleted mailbox is lost, and so is what is left
    in the mailbox or the queue of a worker that has finished. *)
Definition sender_holds (p : SenderPc) : list nat :=
  match p with SStart h | SLock h | SHave _ h _ => [h] | SDone | SFault _ => [] end.
Definition mail_handles (l : list Msg) : list nat := l ≫= λ x, if x is Packet h then [h] else [].
Definition worker_holds (w : Worker) : list nat := if alive w then mail_handles (mail w) ++ wqueue w else [].

Definition all_packets (s : Sys) : list nat :=
  map_concat sender_holds (senders s) ++ map_concat worker_holds (workers s) ++ sent s.

(** Changing one worker and what was sent. *)
Lemma worker_moves s s' m w w' l :
  workers s !! m = Some w → senders s' = senders s → workers s' = <[m := w']> (workers s) → sent s' = sent s ++ l →
  worker_holds w' ++ l ≡ₚ worker_holds w → all_packets s' ≡ₚ all_packets s.
Proof.
  intros Hw E1 E2 E3 Hp. unfold all_packets. rewrite E1, E2, E3.
  destruct (map_concat_update worker_holds (workers s) m w Hw) as (r & R1 & R2). rewrite R1, R2.
  rewrite <- Hp. solve_Permutation.
Qed.

(** Changing one sender and the workers. *)
Lemma sender_moves s s' c p p' :
  senders s !! c = Some p → senders s' = <[c := p']> (senders s) → sent s' = sent s →
  sender_holds p' ++ map_concat worker_holds (workers s') ≡ₚ sender_holds p ++ map_concat worker_holds (workers s) →
  all_packets s' ≡ₚ all_packets s.
Proof.
  intros Hc E1 E2 Hp. unfold all_packets. rewrite E1, E2.
  destruct (map_concat_update sender_holds (senders s) c p Hc) as (r & R1 & R2). rewrite R1, R2.
  rewrite (Permutation_app_comm (sender_holds p')), (Permutation_app_comm (sender_holds p)), <- !app_assoc.
  by rewrite !(app_assoc (sender_holds _)), Hp.
Qed.

(** ** Without a shutdown *)

(** Where the mailbox [m] is that a sender has read at time [t]: its worker
    serves it, or has given it up later than [t] and still sleeps. *)
Definition reachable_box (s : Sys) (m : nat) (t : Z) : Prop :=
  ∃ w, workers s !! m = Some w ∧
    (mbox s = Some m ∧ (wpc w = WLoop ∨ wpc w = WIdleLock) ∨ ∃ t0, wpc w = WIdleSleep t0 ∧ t <= t0).

(** What a worker may have left where it is. *)
Definition worker_ok (s : Sys) (m : nat) (w : Worker) : Prop :=
  (Flush ∉ mail w) ∧
  match wpc w with
  | WLoop => True
  | WIdleLock => wqueue w = [] ∧ (mbox s = Some m ∨ mail w = [])
  | WIdleSleep _ => wqueue w = []
  | WExited => wqueue w = [] ∧ mail w = []
  | WCrashed => False
  end.

Record serving (s : Sys) : Prop := {
  sv_fin : fin s = FOff;
  sv_mutex : mutex s = false;
  sv_mbox : ∀ m, mbox s = Some m → ∃ w, workers s !! m = Some w ∧ (wpc w = WLoop ∨ wpc w = WIdleLock);
  sv_workers : ∀ m w, workers s !! m = Some w → worker_ok s m w;
  sv_senders : ∀ c m h t, senders s !! c = Some (SHave m h t) → t <= clock s <= t + D ∧ reachable_box s m t;
  sv_faults : ∀ c h, senders s !! c ≠ Some (SFault h)
}.

(** No sender has the mailbox of a worker whose sleep is over. *)
Lemma nobody_has s m w t0 :
  D < GRACE_US → serving s → workers s !! m = Some w → wpc w = WIdleSleep t0 → t0 + GRACE_US <= clock s →
  ∀ c h t, senders s !! c ≠ Some (SHave m h t).
Proof.
  intros HD Hs Hw Hpc Ht c h t Hc. destruct (sv_senders s Hs c m h t Hc) as [Hclk (w' & Hw' & [[_ [E|E]]|(t1 & E & Hle)])]; simplify_eq; try congruence.
  assert (t1 = t0) as -> by congruence. lia.
Qed.

(** Changing one worker: one that has the pointer keeps serving, and one that
    sleeps goes on only when no sender has its mailbox. *)
Lemma serving_worker s s' m w w' :
  serving s → fin s' = fin s → mutex s' = mutex s → mbox s' = mbox s → senders s' = senders s → clock s' = clock s →
  workers s' = <[m := w']> (workers s) → workers s !! m = Some w → worker_ok s m w' →
  (mbox s = Some m → wpc w' = WLoop ∨ wpc w' = WIdleLock) →
  (∀ t0, wpc w = WIdleSleep t0 → wpc w' = WIdleSleep t0 ∨ ∀ c h t, senders s !! c ≠ Some (SHave m h t)) → serving s'.
Proof.
  intros [Hf Hm Hb Hw Hs Hx] E1 E2 E3 E4 E5 E6 Hl Hok Hserve Hsleep. split; rewrite ?E1, ?E2, ?E3, ?E4, ?E5; try done.
  - intros k Hk. rewrite E6. destruct (decide (k = m)) as [->|Hne]; [rewrite lookup_insert_eq; eauto | rewrite lookup_insert_ne by done; eauto].
  - intros k x. rewrite E6, lookup_insert_Some. unfold worker_ok. rewrite E3. intros [[<- <-]|[_ Hk]]; [exact Hok | by apply Hw].
  - intros c k h t Hc. destruct (Hs c k h t Hc) as [Ht (x & Hk & Hcase)]. split; [done|]. unfold reachable_box. rewrite E3, E6.
    destruct (decide (k = m)) as [->|Hne]; [|rewrite lookup_insert_ne by done; eauto]. rewrite lookup_insert_eq. simplify_eq.
    exists w'. split; [done|]. destruct Hcase as [[Hk' _]|(t0 & Hpc & Hle)]; [left; auto|].
    destruct (Hsleep t0 Hpc) as [E|E]; [right; eauto | by destruct (E c h t)].
Qed.

(** Changing one sender. *)
Lemma serving_sender s s' c p :
  0 <= D → serving s → fin s' = fin s → mutex s' = mutex s → mbox s' = mbox s → workers s' = workers s → clock s' = clock s →
  senders s' = <[c := p]> (senders s) → (∀ h, p ≠ SFault h) → (∀ m h t, p = SHave m h t → t = clock s ∧ mbox s = Some m) → serving s'.
Proof.
  intros HD [Hf Hm Hb Hw Hs Hx] E1 E2 E3 E4 E5 E6 Hp Hhave. split; rewrite ?E1, ?E2, ?E3, ?E4, ?E5; try done.
  - intros m w. unfold worker_ok. rewrite E3. apply Hw.
  - intros c' m h t. unfold reachable_box. rewrite E3, E4, E6, lookup_insert_Some. intros [[<- Hc]|[_ Hc]]; [|by eapply Hs].
    destruct (Hhave _ _ _ Hc) as [-> Hk]. split; [lia|]. destruct (Hb m Hk) as (w & Hl & Hpc). eauto.
  - intros c' h. rewrite E6, lookup_insert_Some. intros [[_ H]|[_ H]]; [by eapply Hp | by eapply Hx].
Qed.

Lemma no_flush_tail (l r : list Msg) x : l = x :: r → Flush ∉ l → Flush ∉ r.
Proof. intros -> H Hin. apply H. by constructor. Qed.

(** A section that gives the pointer a new value. *)
Lemma step_pointer s s' :
  0 <= D → serving s →
  (∃ c h m, senders s !! c = Some (SLock h) ∧ mbox s = None ∧ workers s !! m = None ∧
     s' = (set_sender (set_worker s m (mk_worker WLoop [] [])) c (SHave m h (clock s))) <| mbox := Some m |>) ∨
  (∃ m w, workers s !! m = Some w ∧ wpc w = WIdleLock ∧ mbox s = Some m ∧
     s' = (set_worker s m (w <| wpc := WIdleSleep (clock s) |>)) <| mbox := None |>) → serving s'.
Proof.
  intros HD [Hf Hm Hb Hw Hs Hx] [(c & h & m & Hc & Hnull & Hnew & ->)|(m & w & Hl & Hpc & Hbox & ->)]; split; cbn; try done.
  - intros k [= <-]. rewrite lookup_insert_eq. eauto.
  - intros k x. rewrite lookup_insert_Some. unfold worker_ok. cbn. intros [[<- <-]|[Hne Hk]]; [split; [apply not_elem_of_nil | done]|].
    specialize (Hw k x Hk). unfold worker_ok in Hw. rewrite Hnull in Hw. destruct (wpc x); try done. destruct Hw as (? & ? & [|?]); [done|]. auto.
  - intros c' k h' t. rewrite lookup_insert_Some. unfold reachable_box. cbn. intros [[<- [= <- <- <-]]|[_ Hk]].
    + split; [lia|]. rewrite lookup_insert_eq. eexists. split; [done|]. left. cbn. auto.
    + destruct (Hs c' k h' t Hk) as [Ht (x & Hk' & Hcase)]. split; [done|]. exists x. rewrite lookup_insert_ne by congruence. split; [done|].
      right. destruct Hcase as [[? _]|?]; [congruence | done].
  - intros c' h'. rewrite lookup_insert_Some. intros [[_ H]|[_ H]]; [done | by eapply Hx].
  - intros k x. rewrite lookup_insert_Some. pose proof (Hw m w Hl) as Hwm. unfold worker_ok in *. cbn. rewrite Hpc in Hwm. intros [[<- <-]|[Hne Hk]]; cbn.
    + destruct Hwm as (? & ? & _). by split.
    + specialize (Hw k x Hk). rewrite Hbox in Hw. destruct (wpc x); try done. destruct Hw as (? & ? & [[= ?]|?]); [done | auto].
  - intros c' k h' t Hk. destruct (Hs c' k h' t Hk) as [Ht (x & Hk' & Hcase)]. split; [done|]. unfold reachable_box. cbn.
    destruct (decide (k = m)) as [->|Hne].
    + rewrite lookup_insert_eq. eexists. split; [done|]. right. exists (clock s). cbn. split; [done | lia].
    + rewrite lookup_insert_ne by done. exists x. split; [done|]. right. destruct Hcase as [[[= ?]%(eq_trans (eq_sym Hbox)) _]|?]; [done | done].
Qed.

Lemma step_serving s s' : 0 <= D < GRACE_US → serving s → step s s' → serving s'.
Proof.
  intros HD Hs Hstep. pose proof Hs as [Hf Hm Hb Hw Hsn Hx].
  assert (∀ m w t0, workers s !! m = Some w → wpc w = WIdleSleep t0 → mbox s ≠ Some m) as Hgone.
  { intros m w t0 Hl Hpc Hk. destruct (Hb m Hk) as (x & Hx' & [?|?]); simplify_eq; congruence. }
  assert (∀ m w, workers s !! m = Some w → Flush ∉ mail w) as Hno by (intros m w Hl; by destruct (Hw m w Hl)).
  destruct Hstep; try congruence.
  - split; cbn; try done. intros c m h t Hc. destruct (Hsn c m h t Hc) as [Ht Hr]. split; [|exact Hr].
    match goal with H : in_time _ _ |- _ => specialize (H c m h t Hc) end. lia.
  - eapply (serving_sender s _ c); try done; [lia|]. by intros ? ? ? [= <- <- <-].
  - eapply (serving_sender s _ c); try done. lia.
  - eapply (serving_sender s _ c); try done; [lia|]. by intros ? ? ? [= <- <- <-].
  - apply (step_pointer s); [lia | done | left; eauto 10].
  - set (s1 := set_worker s m (w <| mail := mail w ++ [Packet h] |>)).
    assert (serving s1) as Hs1; [|eapply (serving_sender s1 _ c); try done; lia].
    destruct (Hsn c m h t) as [_ (x & Hl & Hcase)]; [done|]. simplify_eq.
    eapply (serving_worker s s1 m w); try done; cbn; [| |by left].
    + destruct (Hw m w) as [Hnf Hpc]; [done|]. split; cbn; [rewrite elem_of_app, list_elem_of_singleton; intros [?|?]; done|].
      destruct Hcase as [[Hk [E|E]]|(t0 & E & _)]; rewrite E in *; tauto.
    + intros Hk. destruct (Hb m Hk) as (x & Hx' & ?). by simplify_eq.
  - destruct (Hsn c m h t) as [_ (x & Hl & Hcase)]; [done|]. simplify_eq. unfold alive in *.
    destruct Hcase as [[_ [E|E]]|(t0 & E & _)]; rewrite E in *; done.
  - eapply (serving_worker s _ m w); try done; cbn; [|auto | congruence]. split; [|done]. eapply no_flush_tail; [done | by apply (Hno m w)].
  - eapply (serving_worker s _ m w); try done; cbn; [|auto | congruence]. split; [|done]. by apply (Hno m w).
  - exfalso. apply (Hno m w); [done|]. match goal with H : mail w = _ |- _ => rewrite H end. constructor.
  - eapply (serving_worker s _ m w); try done; cbn; [|auto | congruence]. unfold worker_ok. cbn. split_and!; [apply not_elem_of_nil | done | by right].
  - apply (step_pointer s); [lia | done | right; eauto 10].
  - eapply (serving_worker s _ m w); try done; cbn; [|congruence].
    destruct (Hw m w) as [Hnf Hpc]; [done|]. match goal with H : wpc w = _ |- _ => rewrite H in Hpc end. destruct Hpc as [? [?|?]]; [done | by split].
  - eapply (serving_worker s _ m w); try done; cbn; [split; [|done]; eapply no_flush_tail; [done | by apply (Hno m w)] | auto |].
    intros t0 _. right. eapply nobody_has; try done. lia.
  - exfalso. apply (Hno m w); [done|]. match goal with H : mail w = _ |- _ => rewrite H end. constructor.
  - destruct (Hw m w) as [Hnf Hpc]; [done|]. match goal with H : wpc w = _ |- _ => rewrite H in Hpc end.
    eapply (serving_worker s _ m w); try done; cbn; [intros Hk; by destruct (Hgone m w t) |].
    intros t0 _. right. eapply nobody_has; try done. lia.
Qed.

Lemma alive_mail w l : alive (w <| mail := l |>) = alive w.
Proof. done. Qed.

Lemma step_packets s s' : serving s → step s s' → all_packets s' ≡ₚ all_packets s.
Proof.
  intros Hs Hstep. destruct Hstep; try done;
    try (eapply sender_moves; [done | done | done | done]); try (match goal with H : fin s = _ |- _ => by rewrite (sv_fin s Hs) in H end).
  - eapply sender_moves; [done | done | done |]. cbn. rewrite map_concat_insert by done. done.
  - eapply sender_moves; [done | done | done |]. change (map_concat worker_holds (<[m := w <| mail := mail w ++ [Packet h] |>]> (workers s)) ≡ₚ h :: map_concat worker_holds (workers s)).
    destruct (map_concat_update worker_holds (workers s) m w) as (r & R1 & R2); [done|]. rewrite R1, R2.
    unfold worker_holds. rewrite alive_mail. match goal with H : alive w = true |- _ => rewrite H end.
    unfold mail_handles. cbn. rewrite bind_app. cbn. solve_Permutation.
  - destruct (sv_senders s Hs c m h t) as [_ (x & Hl & Hcase)]; [done|]. simplify_eq. unfold alive in *.
    destruct Hcase as [[_ [E|E]]|(t0 & E & _)]; rewrite E in *; done.
  - eapply (worker_moves _ _ m w _ []); [done | done | done | by rewrite app_nil_r |]. unfold worker_holds, alive. cbn. rewrite app_nil_r.
    match goal with H : wpc w = _, H' : mail w = _ |- _ => rewrite H, H' end. cbn. match goal with H : _ ≡ₚ _ |- _ => rewrite H end. solve_Permutation.
  - eapply (worker_moves _ _ m w _ [h]); [done | done | done | done |]. unfold worker_holds, alive. cbn.
    match goal with H : wpc w = _, H' : wqueue w = _ |- _ => rewrite H, H' end. solve_Permutation.
  - exfalso. destruct (sv_workers s Hs m w) as [Hnf _]; [done|]. apply Hnf. match goal with H : mail w = _ |- _ => rewrite H end. constructor.
  - eapply (worker_moves _ _ m w _ []); [done | done | done | by rewrite app_nil_r |]. unfold worker_holds, alive. cbn.
    match goal with H : wpc w = _, H' : mail w = _, H'' : wqueue w = _ |- _ => rewrite H, H', H'' end. done.
  - eapply (worker_moves _ _ m w _ []); [done | done | done | by rewrite app_nil_r |]. unfold worker_holds, alive. cbn.
    match goal with H : wpc w = _ |- _ => rewrite H end. by rewrite app_nil_r.
  - destruct (sv_workers s Hs m w) as [_ Hpc]; [done|]. match goal with H : wpc w = _ |- _ => rewrite H in Hpc end. destruct Hpc as [Hq [?|Hmail]]; [done|].
    eapply (worker_moves _ _ m w _ []); [done | done | done | by rewrite app_nil_r |]. unfold worker_holds, alive. cbn.
    match goal with H : wpc w = _ |- _ => rewrite H end. by rewrite Hq, Hmail.
  - eapply (worker_moves _ _ m w _ []); [done | done | done | by rewrite app_nil_r |]. unfold worker_holds, alive. cbn. rewrite app_nil_r.
    match goal with H : wpc w = _, H' : mail w = _ |- _ => rewrite H, H' end. cbn. solve_Permutation.
  - exfalso. destruct (sv_workers s Hs m w) as [Hnf _]; [done|]. apply Hnf. match goal with H : mail w = _ |- _ => rewrite H end. constructor.
  - destruct (sv_workers s Hs m w) as [_ Hpc]; [done|]. match goal with H : wpc w = _ |- _ => rewrite H in Hpc end.
    eapply (worker_moves _ _ m w _ []); [done | done | done | by rewrite app_nil_r |]. unfold worker_holds, alive. cbn.
    match goal with H : wpc w = _, H' : mail w = _ |- _ => rewrite H, H' end. by rewrite Hpc.
Qed.
End steps.

(** The senders at the start have not read the pointer. *)
Definition starting (snd : gmap nat SenderPc) : Prop := ∀ c p, snd !! c = Some p → p = SDone ∨ ∃ h, p = SStart h.

Lemma initial_serving D snd : starting snd → serving D (initial snd FOff).
Proof.
  intros H. split; cbn; try done.
  - intros c m h t Hc. destruct (H _ _ Hc) as [|[? ?]]; done.
  - intros c h Hc. destruct (H _ _ Hc) as [|[? ?]]; done.
Qed.

(** C22: the delay service without a shutdown.  When every sender pushes its
    packet less than the ten milliseconds of a worker's sleep after it read the
    mailbox pointer, then in every state the system can reach while
    [finish_delay] is not called no sender has used a deleted mailbox, the
    pointer is null or leads to a worker that serves its mailbox, and no packet
    is lost: every packet given to [delay_insert] is in exactly one place, with
    its sender before the push, in the mailbox or in the queue of a worker that
    is running, or resumed. *)
Theorem mailbox_safe D snd s :
  0 <= D < GRACE_US → starting snd → reachable D (initial snd FOff) s →
  (∀ c h, senders s !! c ≠ Some (SFault h)) ∧
  (∀ m, mbox s = Some m → ∃ w, workers s !! m = Some w ∧ (wpc w = WLoop ∨ wpc w = WIdleLock)) ∧
  mutex s = false ∧ all_packets s ≡ₚ map_concat sender_holds snd.
Proof.
  intros HD Hst Hr. assert (serving D s ∧ all_packets s ≡ₚ all_packets (initial snd FOff)) as [[_ Hm Hb _ _ Hx] Hp].
  { pose proof (initial_serving D snd Hst) as Hs0. remember (initial snd FOff) as s0 eqn:E0. clear E0 Hst.
    induction Hr as [|s0 s1 s2 H1 _ IH]; [done|]. rewrite <- (step_packets D _ _ Hs0 H1). by apply IH, (step_serving D s0). }
  split_and!; [done | done | done |]. rewrite Hp. unfold all_packets, initial. cbn.
  unfold map_concat at 2. rewrite map_to_list_empty. cbn. by rewrite app_nil_r.
Qed.

(** Time passes while no sender has a pointer, or as long as they may have it. *)
Lemma time_runs D s (n : nat) :
  (∀ c m h t, senders s !! c = Some (SHave m h t) → clock s + Z.of_nat n <= t + D) →
  reachable D s (s <| clock := clock s + Z.of_nat n |>).
Proof.
  revert s. induction n as [|n IH]; intros s Hin.
  - destruct s. cbn. rewrite Z.add_0_r. apply rtc_refl.
  - eapply rtc_l; [apply time_passes; intros c m h t Hc; specialize (Hin c m h t Hc); lia|].
    specialize (IH (s <| clock := clock s + 1 |>)). cbn in IH. replace (clock s + Z.of_nat (S n)) with (clock s + 1 + Z.of_nat n) by lia.
    apply IH. intros c m h t Hc. specialize (Hin c m h t Hc). lia.
Qed.

Lemma one_step D s s1 s' : step D s s1 → s1 = s' → reachable D s s'.
Proof. intros H <-. by apply rtc_once. Qed.

(** Two senders: the packet of the first is resumed and the worker has an idle
    timeout; the second reads the pointer just before the worker gives it up. *)
Definition two_senders : gmap nat SenderPc := {[ 0%nat := SStart 5; 1%nat := SStart 6 ]}.
Definition given_up : Sys :=
  mk_sys None false {[ 0%nat := mk_worker (WIdleSleep 0) [] [] ]} {[ 0%nat := SDone; 1%nat := SHave 0 6 0 ]} FOff [5%nat] 0.

Lemma reach_given_up D : reachable D (initial two_senders FOff) given_up.
Proof.
  eapply rtc_l; [apply (sender_reads_null _ _ 0 5); reflexivity|].
  eapply rtc_l; [apply (sender_creates _ _ 0 5 0); reflexivity|].
  eapply rtc_l; [eapply (sender_pushes _ _ 0 5 0); reflexivity|].
  eapply rtc_l; [eapply (worker_takes _ _ 0 _ 5 [] [5%nat]); reflexivity|].
  eapply rtc_l; [eapply (worker_sends _ _ 0 _ 5 []); reflexivity|].
  eapply rtc_l; [eapply (worker_idles _ _ 0); reflexivity|].
  eapply rtc_l; [eapply (sender_reads _ _ 1 6 0); reflexivity|].
  eapply rtc_l; [eapply (worker_gives_up _ _ 0); reflexivity|]. apply rtc_refl.
Qed.

(** The second pushes after five milliseconds; the worker finds the packet when
    it wakes. *)
Definition late_push : Sys :=
  mk_sys None false {[ 0%nat := mk_worker (WIdleSleep 0) [Packet 6] [] ]} {[ 0%nat := SDone; 1%nat := SDone ]} FOff [5%nat] 5000.
Definition woken : Sys :=
  mk_sys None false {[ 0%nat := mk_worker WLoop [] [6%nat] ]} {[ 0%nat := SDone; 1%nat := SDone ]} FOff [5%nat] 10000.

Lemma reach_woken : reachable 5000 (initial two_senders FOff) woken.
Proof.
  unfold reachable; etrans; [apply reach_given_up|]. etrans; [apply (time_runs _ _ (Z.to_nat 5000))|].
  { intros c m h t Hc. cbn in Hc. apply lookup_insert_Some in Hc as [[_ ?]|[_ Hc]]; [done|]. apply lookup_singleton_Some in Hc as [_ [= <- <- <-]]. cbn. lia. }
  etrans; [eapply (one_step _ _ _ late_push); [eapply (sender_pushes _ _ 1 6 0); reflexivity | reflexivity]|].
  etrans; [apply (time_runs _ late_push (Z.to_nat 5000))|].
  { intros c m h t Hc. cbn in Hc. apply lookup_insert_Some in Hc as [[_ ?]|[_ Hc]]; [done|]. by apply lookup_singleton_Some in Hc as [_ ?]. }
  eapply one_step; [eapply (worker_wakes _ _ 0 _ 0 6 []); done | reflexivity].
Qed.

Lemma mailbox_safe_witness :
  (∀ c h, senders woken !! c ≠ Some (SFault h)) ∧
  (∀ m, mbox woken = Some m → ∃ w, workers woken !! m = Some w ∧ (wpc w = WLoop ∨ wpc w = WIdleLock)) ∧
  mutex woken = false ∧ all_packets woken ≡ₚ map_concat sender_holds two_senders.
Proof.
  apply (mailbox_safe 5000 two_senders woken).
  - unfold GRACE_US. lia.
  - intros c p Hc. unfold two_senders in Hc. apply lookup_insert_Some in Hc as [[_ <-]|[_ Hc]]; [by right; exists 5%nat|].
    apply lookup_singleton_Some in Hc as [_ <-]. by right; exists 6%nat.
  - exact reach_woken.
Defined.

(** Finding: ten milliseconds are all the protection a sender has.  When one may
    be held up that long between reading the pointer and its push (it is not
    under the mutex), there is a run in which it pushes into the mailbox its worker
    has deleted. *)
Theorem late_sender D :
  GRACE_US <= D → ∃ s, reachable D (initial two_senders FOff) s ∧ senders s !! 1%nat = Some (SFault 6).
Proof.
  intros HD. eexists. split; [|shelve]. unfold reachable; etrans; [apply reach_given_up|].
  etrans; [apply (time_runs _ _ (Z.to_nat GRACE_US))|].
  { intros c m h t Hc. cbn in Hc. apply lookup_insert_Some in Hc as [[_ ?]|[_ Hc]]; [done|].
    apply lookup_singleton_Some in Hc as [_ [= <- <- <-]]. cbn. unfold GRACE_US in *. lia. }
  eapply rtc_l; [eapply (worker_exits _ _ 0 _ 0); try done; cbn; lia|].
  apply rtc_once. eapply (sender_dangles _ _ 1 6 0); reflexivity.
  Unshelve. reflexivity.
Qed.

(** ** Shutdown *)

(** A sender has used the delay service; its worker has an idle timeout when
    [finish_delay] is called. *)
Definition one_sender : Sys := initial {[ 0%nat := SStart 5 ]} FStart.
Definition deadlocked : Sys :=
  mk_sys (Some 0%nat) true {[ 0%nat := mk_worker WIdleLock [Flush] [] ]} {[ 0%nat := SDone ]} FWait [5%nat] 0.
Definition sleeping : Sys :=
  mk_sys None true {[ 0%nat := mk_worker (WIdleSleep 0) [Flush] [] ]} {[ 0%nat := SDone ]} FWait [5%nat] 0.
Definition crashed : Sys :=
  mk_sys None true {[ 0%nat := mk_worker WCrashed [Flush] [] ]} {[ 0%nat := SDone ]} FWait [5%nat] 10000.

(** The run up to the idle timeout. *)
Definition before_shutdown : Sys :=
  mk_sys (Some 0%nat) false {[ 0%nat := mk_worker WIdleLock [] [] ]} {[ 0%nat := SDone ]} FStart [5%nat] 0.

Lemma reach_idle D : reachable D one_sender before_shutdown.
Proof.
  eapply rtc_l; [apply (sender_reads_null _ _ 0 5); reflexivity|].
  eapply rtc_l; [apply (sender_creates _ _ 0 5 0); reflexivity|].
  eapply rtc_l; [eapply (sender_pushes _ _ 0 5 0); reflexivity|].
  eapply rtc_l; [eapply (worker_takes _ _ 0 _ 5 [] [5%nat]); reflexivity|].
  eapply rtc_l; [eapply (worker_sends _ _ 0 _ 5 []); reflexivity|].
  eapply rtc_l; [eapply (worker_idles _ _ 0); reflexivity|]. apply rtc_refl.
Qed.

(** Finding: the shutdown can hang or crash.  When the worker has an idle timeout at
    the moment of [finish_delay], there is a run in which both wait for the mutex
    that [finish_delay] locked, with no step left but the passing of time, and a
    run in which the worker takes the flush signal for a packet. *)
Theorem shutdown_races D :
  reachable D one_sender deadlocked ∧ (∀ s, reachable D deadlocked s → ∃ t, s = deadlocked <| clock := t |>) ∧
  reachable D one_sender crashed.
Proof.
  split_and!.
  - unfold reachable; etrans; [apply reach_idle|].
    eapply rtc_l; [apply (fin_reads _ _ 0); reflexivity|].
    eapply rtc_l; [eapply (fin_locks _ _ 0); reflexivity|]. apply rtc_refl.
  - apply (rtc_ind_r (λ s, ∃ t, s = deadlocked <| clock := t |>)); [by exists 0|]. intros s1 s2 _ Hs [t ->].
    remember (deadlocked <| clock := t |>) as d eqn:E. destruct Hs; subst; cbn in *; simplify_eq;
      repeat match goal with
      | H : {[_ := _]} !! _ = Some _ |- _ => apply lookup_singleton_Some in H as [? ?]; simplify_eq
      end; try done. by exists (t + 1).
  - unfold reachable; etrans; [apply reach_idle|].
    eapply rtc_l; [apply (fin_reads _ _ 0); reflexivity|].
    eapply rtc_l; [eapply (worker_gives_up _ _ 0); reflexivity|].
    etrans; [eapply (one_step _ _ _ sleeping); [eapply (fin_locks _ _ 0); reflexivity | reflexivity]|].
    etrans; [apply (time_runs _ _ (Z.to_nat GRACE_US))|].
    { intros c m h t Hc. cbn in Hc. by apply lookup_singleton_Some in Hc as [_ ?]. }
    eapply one_step; [eapply (worker_wakes_flush _ _ 0 _ 0 []); done | reflexivity].
Qed.

End DelayProto.
