(* ===== verification/Action.v ===== *)
(** * Actions (action.h, action.c)

    The actions of a pipeline, one constructor per [enum ActionType] with the
    private data of the action, the constructors' analysis of the header stack,
    and the execution of the actions that work on the packet alone.  The
    actions that use a pipeline object, an interface, the delay queue or a
    branch pipeline are executed by Pipeline.v.

    An access outside the packet buffer or the header array is [None]. *)

From stdpp Require Import pretty.
From S2P Require Import Prelude TimeUtils Protocol Packet HeaderField Checksum Pof.
Import Time Proto Pkt Field Csum POF(ActionResult(..), SEQ_IS_OAM).

Module Act.

(** ** Octets of a 32-bit metadata word *)

(** The octets of a [uint32_t] in memory (little endian). *)
Definition word_octets (w : Z) : list Z := [byte_of w 0; byte_of w 1; byte_of w 2; byte_of w 3].
Definition octets_word (l : list Z) : Z := foldr (λ b acc, b + 256 * acc) 0 l.

Fixpoint load_octets (n : nat) (m : mem) (a : Z) : option (list Z) :=
  match n with
  | O => Some []
  | S n => x ← load m a; l ← load_octets n m (a + 1); Some (x :: l)
  end.

Fixpoint store_octets (m : mem) (a : Z) (l : list Z) : option mem :=
  match l with
  | [] => Some m
  | x :: l => m ← store m a x; store_octets m (a + 1) l
  end.

(** [memcpy(&w, src, len)] over the [uint32_t] [w]; more than four octets would
    overwrite its neighbours. *)
Definition word_from (w : Z) (m : mem) (a len : Z) : option Z :=
  if len <=? 4 then
    l ← load_octets (Z.to_nat len) m a;
    Some (octets_word (l ++ drop (Z.to_nat len) (word_octets w)))
  else None.

(** [memcpy(dst, &w, len)] *)
Definition word_to (w : Z) (m : mem) (a len : Z) : option mem :=
  if len <=? 4 then store_octets m a (take (Z.to_nat len) (word_octets w)) else None.

(** [p->headers[i]]: any entry of the array. *)
Definition hdr (p : Packet) (i : Z) : option PacketHeader :=
  if 0 <=? i then headers p !! Z.to_nat i else None.

(** [p->buf[p->headers[i].start + k]] *)
Definition hdr_octet (p : Packet) (i k : Z) : option Z :=
  h ← hdr p i; load (buf p) (h_start h + k).

(** ** Private data of the actions *)

(** The header stack the configuration found for OAM detection and what
    [ANALYZE_PROTOSTACK] derives from it. *)
Record OamDetect := mk_detect {
  protostack : option (list ProtocolID);
  rtag_index : Z;
  last_index : Z;
  ethertype_offset : Z
}.

(** [read] is the producer with its state, [None] for a constant. *)
Record EditAssign := mk_assign {
  write : value_consumer;
  write_state : HeaderField;
  read : option (value_consumer → HeaderField → Packet → option Packet);
  constant : Value
}.

(** Pipelines, pipeline objects, interfaces and maintenance points are named by
    number. *)
Inductive Action :=
  | ACTION_ADD (idx : Z) (type : ProtocolID) (hlen : Z)
  | ACTION_CHECKSUM (cp : ChecksumParameters)
  | ACTION_DEL (idx : Z)
  | ACTION_DELAY (dly : timespec) (offl : bool)
  | ACTION_DROP
  | ACTION_EDIT (assigns : list EditAssign)
  | ACTION_ELIM (rcvy : nat) (d : OamDetect)
  | ACTION_FILTEROAM (field : HeaderField)
  | ACTION_OAMINJECT (mp : nat)
  | ACTION_OAMRECEIVE (mp : nat) (d : OamDetect)
  | ACTION_POF (pof : nat)
  | ACTION_READSEQ (field : HeaderField)
  | ACTION_READTSTAMP (field : HeaderField)
  | ACTION_REPL (pipes : list nat) (replobj : option nat) (d : OamDetect)
  | ACTION_SEND (iface : nat)
  | ACTION_SEQGEN (gen : nat)
  | ACTION_SETLENGTH (field : HeaderField) (baselen payload_idx : Z)
  | ACTION_TTLCHECK
  | ACTION_TTLREDUCE (field csum : HeaderField) (decrement : Z)
  | ACTION_VERIFY (cp : ChecksumParameters)
  | ACTION_WRITESEQ (field : HeaderField)
  | ACTION_WRITETSTAMP (field : HeaderField).

#[local] Open Scope string_scope.

Definition action_name_from_type (a : Action) : string :=
  match a with
  | ACTION_ADD _ _ _ => "Add"
  | ACTION_CHECKSUM _ => "Checksum"
  | ACTION_DEL _ => "Del"
  | ACTION_DELAY _ _ => "Delay"
  | ACTION_DROP => "Drop"
  | ACTION_EDIT _ => "Edit"
  | ACTION_ELIM _ _ => "Eliminate"
  | ACTION_FILTEROAM _ => "FilterOAM"
  | ACTION_OAMINJECT _ => "OAMInject"
  | ACTION_OAMRECEIVE _ _ => "OAMReceive"
  | ACTION_POF _ => "POF"
  | ACTION_READSEQ _ => "ReadSeq"
  | ACTION_READTSTAMP _ => "ReadTstamp"
  | ACTION_REPL _ _ _ => "Replicate"
  | ACTION_SEND _ => "Send"
  | ACTION_SEQGEN _ => "SeqGen"
  | ACTION_SETLENGTH _ _ _ => "Setlength"
  | ACTION_TTLCHECK => "TTLCheck"
  | ACTION_TTLREDUCE _ _ _ => "TTLReduce"
  | ACTION_VERIFY _ => "Verify"
  | ACTION_WRITESEQ _ => "WriteSeq"
  | ACTION_WRITETSTAMP _ => "WriteTstamp"
  end.

#[local] Close Scope string_scope.

(** ** Analysis of the header stack *)

(** [for (i=1; protostack[i]; i++) if (protostack[i] == id) ...]: the index of
    the first [id], and [None] when the loop ends at the value zero, which is
    [PROTO_ID_PAYLOAD].  Running off the array is the outer [None]. *)
Fixpoint scan_stack (id : ProtocolID) (i : Z) (l : list ProtocolID) : option (option Z) :=
  match l with
  | [] => None
  | x :: l =>
      if decide (x = PROTO_ID_PAYLOAD) then Some None
      else if decide (x = id) then Some (Some i)
      else scan_stack id (i + 1) l
  end.

(** [ANALYZE_PROTOSTACK] *)
Definition analyze_protostack (stack : list ProtocolID) : option OamDetect :=
  let d := mk_detect (Some stack) 0 0 0 in
  first ← head stack;
  if decide (first = PROTO_ID_ETH) then
    r ← scan_stack PROTO_ID_RTAG 1 (tail stack);
    match r with
    | Some i => Some (mk_detect (Some stack) i 0 0)
    | None =>
        l ← scan_stack PROTO_ID_PAYLOAD 1 (tail stack);
        match l with
        | Some i =>
            prev ← stack !! Z.to_nat (i - 1);
            ethertype ← protocol_get_field_by_type prev PFTYPE_NEXTHEADER;
            Some (mk_detect (Some stack) 0 (i - 1) (pf_bitoffset ethertype / 8))
        | None => Some d
        end
    end
  else Some d.

Definition packet_is_oam (p : Packet) (d : OamDetect) : option bool :=
  match protostack d with
  | None => Some false
  | Some stack =>
      first ← head stack;
      match first with
      | PROTO_ID_ETH =>
          if negb (rtag_index d =? 0) then
            x ← hdr_octet p (rtag_index d) 0;
            Some (Z.land x 240 =? 16)
          else
            x ← hdr_octet p (last_index d) (ethertype_offset d);
            y ← hdr_octet p (last_index d) (ethertype_offset d + 1);
            Some ((x =? Z.land (Z.shiftr ETH_P_CFM 8) 255) && (y =? Z.land ETH_P_CFM 255))
      | PROTO_ID_MPLS =>
          x ← hdr_octet p 1 0;
          Some (Z.land x 240 =? 16)
      | PROTO_ID_IPv6 =>
          x ← hdr_octet p 0 36;
          Some (Z.land x 1 =? 1)
      | _ => Some false
      end
  end.

(** ** Constructors *)

Definition create_action_elim (rcvy : nat) (stack : option (list ProtocolID)) : option Action :=
  match stack with
  | None => Some (ACTION_ELIM rcvy (mk_detect None 0 0 0))
  | Some s => d ← analyze_protostack s; Some (ACTION_ELIM rcvy d)
  end.

Definition create_action_oam_receive (mp : nat) (stack : list ProtocolID) : option Action :=
  d ← analyze_protostack stack; Some (ACTION_OAMRECEIVE mp d).

Definition create_action_repl (pl : list nat) (replobj : option nat) (stack : option (list ProtocolID))
    : option Action :=
  match stack with
  | None => Some (ACTION_REPL pl replobj (mk_detect None 0 0 0))
  | Some s => d ← analyze_protostack s; Some (ACTION_REPL pl replobj d)
  end.

Definition create_action_ttlreduce (ttlfield : HeaderField) (csumfield : option HeaderField) : Action :=
  match csumfield with
  | Some c => ACTION_TTLREDUCE ttlfield c (if Z.odd (hf_bitoffset ttlfield / 8) then 1 else 256)
  | None => ACTION_TTLREDUCE ttlfield (mk_hf 4294967295 0 0) 0
  end.

Definition action_send_get_iface (a : Action) : option nat :=
  if a is ACTION_SEND i then Some i else None.

Definition action_repl_get_piplinelist (a : Action) : list nat :=
  if a is ACTION_REPL l _ _ then l else [].

(** ** Execution of the packet actions *)

Definition action_ADD_execute (idx : Z) (type : ProtocolID) (hlen : Z) (p : Packet) : ActionResult * Packet :=
  (ACR_CONTINUE, (packet_add_header p idx type hlen).2).

Definition action_CHECKSUM_execute (stk : Z) (cp : ChecksumParameters) (p : Packet)
    : option (ActionResult * Packet) :=
  p ← checksum_compute stk p cp; Some (ACR_CONTINUE, p).

Definition action_DEL_execute (idx : Z) (p : Packet) : ActionResult * Packet :=
  (ACR_CONTINUE, packet_del_header p idx).

(** The packet part of the delay action; [ACR_HOLD] hands the iterator to the
    delay queue. *)
Definition action_DELAY_execute (dly : timespec) (offl : bool) (p : Packet) : ActionResult * Packet :=
  let p := p <| delay := dly |> in
  if offl then (ACR_CONTINUE, p <| offload := true |>) else (ACR_HOLD, p).

Definition edit_assign (a : EditAssign) (p : Packet) : option Packet :=
  match read a with
  | Some r => r (write a) (write_state a) p
  | None => write a (write_state a) (constant a) p
  end.

Fixpoint edit_assigns (l : list EditAssign) (p : Packet) : option Packet :=
  match l with
  | [] => Some p
  | a :: l => p ← edit_assign a p; edit_assigns l p
  end.

Definition action_EDIT_execute (assigns : list EditAssign) (p : Packet) : option (ActionResult * Packet) :=
  p ← edit_assigns assigns p; Some (ACR_CONTINUE, p).

(** [uint32_t seq; memcpy(&seq, src, len);]: [junk] is the uninitialised word. *)
Definition action_FILTEROAM_execute (junk : Z) (field : HeaderField) (p : Packet) : option ActionResult :=
  a ← dst_addr field p;
  seq ← word_from junk (buf p) a (hf_bitcount field / 8);
  Some (if SEQ_IS_OAM seq then ACR_DONE else ACR_CONTINUE).

Definition is_ipv6 (p : Packet) (field : HeaderField) : option bool :=
  h ← hdr p (header_idx field); Some (bool_decide (h_type h = PROTO_ID_IPv6)).

Definition action_READSEQ_execute (field : HeaderField) (p : Packet) : option (ActionResult * Packet) :=
  a ← dst_addr field p;
  v6 ← is_ipv6 p field;
  if (v6 : bool) then
    l ← load_octets 4 (buf p) a;
    let w := match l with x :: l => octets_word (Z.land x 15 :: l) | [] => 0 end in
    Some (ACR_CONTINUE, p <| sequence := w |>)
  else
    w ← word_from (sequence p) (buf p) a (hf_bitcount field / 8);
    Some (ACR_CONTINUE, p <| sequence := w |>).

Definition action_READTSTAMP_execute (field : HeaderField) (p : Packet) : option (ActionResult * Packet) :=
  a ← dst_addr field p;
  w ← word_from (timestamp p) (buf p) a (hf_bitcount field / 8);
  Some (ACR_CONTINUE, p <| timestamp := w |>).

(** [field[0] = hi; field[1] = lo;] *)
Definition action_SETLENGTH_execute (field : HeaderField) (baselen payload_idx : Z) (p : Packet)
    : option (ActionResult * Packet) :=
  a ← dst_addr field p;
  h ← hdr p payload_idx;
  let l := u16 (baselen + h_len h) in
  b ← store2 (buf p) a (Z.land (Z.shiftr l 8) 255) (Z.land l 255);
  Some (ACR_CONTINUE, p <| buf := b |>).

Definition action_TTLCHECK_execute (p : Packet) : ActionResult :=
  if ttl p =? 0 then ACR_DONE else ACR_CONTINUE.

(** [csum16 = ~((csum[0] << 8) + csum[1]); csum16 = ~(csum16 - decrement);] *)
Definition adjust_csum (hi lo decrement : Z) : Z :=
  let csum16 := u16 (Z.lnot (Z.shiftl hi 8 + lo)) in
  u16 (Z.lnot (csum16 - decrement)).

Definition action_TTLREDUCE_execute (field csum : HeaderField) (decrement : Z) (p : Packet)
    : option (ActionResult * Packet) :=
  a ← dst_addr field p;
  t ← load (buf p) a;
  let t' := if t >? 0 then t - 1 else t in
  b ← store (buf p) a t';
  let p := p <| buf := b |> <| ttl := t' |> in
  if header_idx csum =? header_idx field then
    c ← dst_addr csum p;
    hi ← load (buf p) c;
    lo ← load (buf p) (c + 1);
    let csum16 := adjust_csum hi lo decrement in
    b ← store2 (buf p) c (Z.land (Z.shiftr csum16 8) 255) (Z.land csum16 255);
    Some (ACR_CONTINUE, p <| buf := b |>)
  else Some (ACR_CONTINUE, p).

(** The second result is the increment of the interface's error counter. *)
Definition action_VERIFY_execute (stk : Z) (cp : ChecksumParameters) (p : Packet) : option (ActionResult * Z) :=
  '(ok, errors) ← checksum_verify stk p cp;
  Some (if ok : bool then ACR_CONTINUE else ACR_DONE, errors).

Definition action_WRITESEQ_execute (field : HeaderField) (p : Packet) : option (ActionResult * Packet) :=
  v6 ← is_ipv6 p field;
  a ← dst_addr field p;
  if (v6 : bool) then
    d0 ← load (buf p) a;
    b ← store_octets (buf p) a
          (Z.lor (Z.land d0 241) (Z.land (byte_of (sequence p) 0) 15) :: tail (word_octets (sequence p)));
    Some (ACR_CONTINUE, p <| buf := b |>)
  else
    b ← word_to (sequence p) (buf p) a 4;
    Some (ACR_CONTINUE, p <| buf := b |>).

Definition action_WRITETSTAMP_execute (field : HeaderField) (p : Packet) : option (ActionResult * Packet) :=
  a ← dst_addr field p;
  b ← word_to (timestamp p) (buf p) a (hf_bitcount field / 8);
  Some (ACR_CONTINUE, p <| buf := b |>).

(** ** The elimination action: OAM sessions *)

#[local] Open Scope string_scope.

Definition hex_digit (n : Z) : string :=
  match n with
  | 0 => "0" | 1 => "1" | 2 => "2" | 3 => "3" | 4 => "4" | 5 => "5" | 6 => "6" | 7 => "7"
  | 8 => "8" | 9 => "9" | 10 => "a" | 11 => "b" | 12 => "c" | 13 => "d" | 14 => "e" | _ => "f"
  end%Z.

(** [%.2x] *)
Definition hex2 (b : Z) : string := hex_digit (b / 16) +:+ hex_digit (b mod 16).

Definition ether_ntop (mac : list Z) : string :=
  match hex2 <$> mac with
  | x :: l => foldl (λ acc y, acc +:+ ":" +:+ y) x l
  | [] => ""
  end.

(** [%s:%hhu:%hhu] *)
Definition session_name (node : string) (session level : Z) : string :=
  node +:+ ":" +:+ pretty (u8 session) +:+ ":" +:+ pretty (u8 level).

#[local] Close Scope string_scope.

(** What the elimination action does with a packet. *)
Inductive ElimClass :=
  | ElimData                                 (* recovery of the data stream *)
  | ElimPass                                 (* OAM packet that is not linear *)
  | ElimOam (session : string) (seq : Z).    (* recovery of the OAM session *)

(** An OAM packet that is not in one piece passes. *)
Definition when_linear (p : Packet) (c : option ElimClass) : option ElimClass :=
  linear ← packet_is_linear p; if (linear : bool) then c else Some ElimPass.

Definition elim_tsn (d : OamDetect) (p : Packet) : option ElimClass :=
  h0 ← hdr p 0;
  smac ← load_octets 6 (buf p) (h_start h0 + 6);
  seq ← hdr_octet p (rtag_index d) 1;
  sessionid ← hdr_octet p (rtag_index d) 3;
  level ← hdr_octet p (rtag_index d + 1) 0;
  Some (ElimOam (session_name (ether_ntop smac) (Z.land sessionid 15) (Z.shiftr level 5)) seq).

(** [INTERPRET_DACH] *)
Definition elim_dach (p : Packet) : option ElimClass :=
  h1 ← hdr p 1;
  l ← load_octets 8 (buf p) (h_start h1);
  match l with
  | [_; seq; _; _; n0; n1; n2; fs] =>
      let nodeid := Z.shiftl n0 12 + Z.shiftl n1 4 + Z.shiftr n2 4 in
      Some (ElimOam (session_name (pretty nodeid) (Z.land fs 15) (Z.land (Z.shiftr n2 1) 7)) seq)
  | _ => None
  end.

Definition elim_srv6 (p : Packet) : option ElimClass :=
  n1 ← hdr_octet p 1 23;
  n0 ← hdr_octet p 1 22;
  sl ← hdr_octet p 1 (bytelength (protocol_from_id PROTO_ID_IPv6) + 5);
  seq ← hdr_octet p 1 (bytelength (protocol_from_id PROTO_ID_IPv6) + 7);
  Some (ElimOam (session_name (pretty (Z.lor (Z.shiftl n1 8) n0)) (Z.land sl 15) (Z.land (Z.shiftr sl 4) 7)) seq).

(** The dispatch of [action_ELIM_execute] before it calls the object. *)
Definition elim_classify (d : OamDetect) (p : Packet) : option ElimClass :=
  match protostack d with
  | None => Some ElimData
  | Some stack =>
      first ← head stack;
      match first with
      | PROTO_ID_ETH =>
          if negb (rtag_index d =? 0) then
            x ← hdr_octet p (rtag_index d) 0;
            if Z.land x 240 =? 16 then when_linear p (elim_tsn d p) else Some ElimData
          else Some ElimData
      | PROTO_ID_MPLS =>
          if SEQ_IS_OAM (sequence p) then when_linear p (elim_dach p) else Some ElimData
      | PROTO_ID_IPv6 =>
          if negb (Z.land (ntohl (sequence p)) 16777216 =? 0) then when_linear p (elim_srv6 p) else Some ElimData
      | _ => Some ElimData
      end
  end.

(** ** Octets in memory *)

Lemma load_octets_length n m a l : load_octets n m a = Some l → length l = n.
Proof.
  revert a l. induction n as [|n IH]; intros a l; cbn [load_octets]; [by intros [= <-]|].
  destruct (load m a); [|done]. cbn [mbind option_bind].
  destruct (load_octets n m (a + 1)) as [l'|] eqn:E; [|done]. intros [= <-]. cbn. by rewrite (IH _ _ E).
Qed.

Lemma store_octets_total m a l :
  0 <= a → a + Z.of_nat (length l) <= Z.of_nat (length m) → ∃ m', store_octets m a l = Some m'.
Proof.
  revert m a. induction l as [|x l IH]; intros m a Ha Hl; cbn [store_octets]; [by eexists|].
  cbn [length] in Hl. rewrite store_in_range by (unfold in_range; lia).
  cbn [mbind option_bind]. apply IH; [lia|]. rewrite length_insert. lia.
Qed.

Lemma store_octets_length m a l m' : store_octets m a l = Some m' → length m' = length m.
Proof.
  revert m a. induction l as [|x l IH]; intros m a; cbn [store_octets]; [by intros [= ->]|].
  destruct (store m a x) as [m1|] eqn:E; [|done]. cbn [mbind option_bind]. intros Hs.
  by rewrite (IH _ _ Hs), (store_length _ _ _ _ E).
Qed.

Lemma store_octets_other m a l m' k :
  store_octets m a l = Some m' → k < a ∨ a + Z.of_nat (length l) <= k → load m' k = load m k.
Proof.
  revert m a. induction l as [|x l IH]; intros m a; cbn [store_octets]; [by intros [= ->]|].
  destruct (store m a x) as [m1|] eqn:E; [|done]. cbn [mbind option_bind]. cbn [length]. intros Hs Hk.
  rewrite (IH _ _ Hs) by lia. apply (load_store_ne _ _ _ _ _ E). lia.
Qed.

Lemma store_octets_load m a l m' : store_octets m a l = Some m' → load_octets (length l) m' a = Some l.
Proof.
  revert m a. induction l as [|x l IH]; intros m a; cbn [store_octets length load_octets]; [done|].
  destruct (store m a x) as [m1|] eqn:E; [|done]. cbn [mbind option_bind]. intros Hs.
  rewrite (store_octets_other _ _ _ _ _ Hs), (load_store_eq _ _ _ _ E) by lia. cbn [mbind option_bind].
  by rewrite (IH _ _ Hs).
Qed.

Lemma octets_word_octets w : is_u32 w → octets_word (word_octets w) = w.
Proof.
  unfold is_u32, octets_word, word_octets, byte_of. cbn [foldr]. intros H.
  change (2 ^ (8 * 0)) with 1. change (2 ^ (8 * 1)) with 256.
  change (2 ^ (8 * 2)) with 65536. change (2 ^ (8 * 3)) with 16777216. lia.
Qed.

(** ** Sequence numbers in the packet *)

Lemma srv6_low_nibble x y : Z.land (Z.lor (Z.land x 241) (Z.land y 15)) 15 = Z.lor (Z.land x 1) (Z.land y 15).
Proof.
  rewrite Z.land_lor_distr_l, <- !Z.land_assoc. by change (Z.land 241 15) with 1; change (Z.land 15 15) with 15.
Qed.

Lemma writeseq_store f p a v6 :
  is_ipv6 p f = Some v6 → dst_addr f p = Some a → 0 <= a → a + 4 <= Z.of_nat (length (buf p)) →
  ∃ b d0, load (buf p) a = Some d0 ∧ action_WRITESEQ_execute f p = Some (ACR_CONTINUE, p <| buf := b |>) ∧
    load_octets 4 b a = Some
      (if v6 : bool then Z.lor (Z.land d0 241) (Z.land (byte_of (sequence p) 0) 15) :: tail (word_octets (sequence p))
       else word_octets (sequence p)) ∧
    (∀ k, k < a ∨ a + 4 <= k → load b k = load (buf p) k).
Proof.
  intros H6 Ha H0 H4. destruct (load_in_range (buf p) a) as [d0 Hd]; [unfold in_range; lia|].
  unfold action_WRITESEQ_execute. rewrite H6, Ha. cbn [mbind option_bind]. rewrite Hd.
  destruct v6; cbn [mbind option_bind].
  - edestruct (store_octets_total (buf p) a) as [b E]; [done | | rewrite E]; [done|].
    exists b, d0. split_and!; [done | done | exact (store_octets_load _ _ _ _ E) |].
    intros k Hk. by apply (store_octets_other _ _ _ _ _ E).
  - unfold word_to. change (4 <=? 4) with true. cbn iota. change (take _ _) with (word_octets (sequence p)).
    edestruct (store_octets_total (buf p) a) as [b E]; [done | | rewrite E]; [done|].
    exists b, d0. split_and!; [done | done | exact (store_octets_load _ _ _ _ E) |].
    intros k Hk. by apply (store_octets_other _ _ _ _ _ E).
Qed.

(** A written sequence number is read back.  [WriteSeq] changes exactly the
    four octets of the field; a later [ReadSeq] of the field gives the same
    32-bit word for every header but IPv6, and for the 28-bit field of an IPv6
    header the word with its top four bits cleared and the OAM bit of the
    header or-ed in. *)
Theorem writeseq_readseq f p a v6 s0 :
  is_ipv6 p f = Some v6 → dst_addr f p = Some a → 0 <= a → a + 4 <= Z.of_nat (length (buf p)) →
  is_u32 (sequence p) → (v6 = false → hf_bitcount f = 32) →
  ∃ b d0, load (buf p) a = Some d0 ∧
    action_WRITESEQ_execute f p = Some (ACR_CONTINUE, p <| buf := b |>) ∧
    action_READSEQ_execute f (p <| buf := b |> <| sequence := s0 |>) =
      Some (ACR_CONTINUE, p <| buf := b |> <| sequence :=
        if v6 : bool then octets_word (Z.lor (Z.land d0 1) (Z.land (byte_of (sequence p) 0) 15) :: tail (word_octets (sequence p)))
        else sequence p |>) ∧
    (∀ k, k < a ∨ a + 4 <= k → load b k = load (buf p) k).
Proof.
  intros H6 Ha H0 H4 Hw Hcnt. destruct (writeseq_store f p a v6 H6 Ha H0 H4) as (b & d0 & Hd & Hwr & Hrd & Hk).
  exists b, d0. split_and!; [done | done | | done]. unfold action_READSEQ_execute.
  change (dst_addr f (p <| buf := b |> <| sequence := s0 |>)) with (dst_addr f p). rewrite Ha. cbn [mbind option_bind].
  change (is_ipv6 (p <| buf := b |> <| sequence := s0 |>) f) with (is_ipv6 p f). rewrite H6. cbn [mbind option_bind].
  destruct v6.
  - cbn [buf modify]. cbn in Hrd |- *. rewrite Hrd. cbn. by rewrite srv6_low_nibble.
  - rewrite (Hcnt eq_refl). unfold word_from. change (32 / 8 <=? 4) with true. cbn iota.
    change (Z.to_nat (32 / 8)) with 4%nat. cbn [buf modify]. rewrite Hrd. cbn [mbind option_bind].
    rewrite drop_ge, app_nil_r by done. rewrite octets_word_octets by done. done.
Qed.

(** An R-TAG behind an Ethernet header. *)
Definition rtag_packet : Packet :=
  (blank_packet (replicate 40 0) false) <| sequence := htonl 67108867 |>
    <| headers := <[1%nat := mk_header PROTO_ID_RTAG 14 6]> (replicate 20 no_header) |>.
Definition rtag_seq_field : HeaderField := mk_hf 1 0 32.

Lemma writeseq_readseq_witness :
  ∃ b d0, load (buf rtag_packet) 14 = Some d0 ∧
    action_WRITESEQ_execute rtag_seq_field rtag_packet = Some (ACR_CONTINUE, rtag_packet <| buf := b |>) ∧
    action_READSEQ_execute rtag_seq_field (rtag_packet <| buf := b |> <| sequence := 7 |>) =
      Some (ACR_CONTINUE, rtag_packet <| buf := b |> <| sequence := sequence rtag_packet |>) ∧
    (∀ k, k < 14 ∨ 14 + 4 <= k → load b k = load (buf rtag_packet) k).
Proof.
  apply (writeseq_readseq rtag_seq_field rtag_packet 14 false 7);
    [reflexivity | reflexivity | lia | cbn; lia | apply bswap_32_range | reflexivity].
Defined.

(** ** TTL and the incremental checksum *)

Lemma rfc_sum_insert l k x old :
  l !! k = Some old → rfc_sum (<[k := x]> l) = rfc_sum l + (if Nat.even k then 256 else 1) * (x - old).
Proof.
  revert l. induction (lt_wf k) as [k _ IH]; intros l Hl.
  destruct k as [|[|k]]; destruct l as [|y [|z l]]; try done;
    cbn [lookup list_lookup] in Hl; simplify_eq; cbn [insert list_insert rfc_sum Nat.even]; try lia.
  rewrite (IH k) by (lia || done). lia.
Qed.

Lemma slice_insert m i x a n :
  0 <= a → a <= Z.of_nat i < a + n → slice (<[i := x]> m) a n = <[(i - Z.to_nat a)%nat := x]> (slice m a n).
Proof.
  intros Ha Hi. unfold slice. rewrite drop_insert_ge by lia. by rewrite take_insert_lt by lia.
Qed.

(** Storing one octet of a region changes its sum by the octet's weight. *)
Lemma rfc_sum_store m a k n x old m' :
  0 <= a → 0 <= k < n → load m (a + k) = Some old → store m (a + k) x = Some m' →
  rfc_sum (slice m' a n) = rfc_sum (slice m a n) + (if Z.even k then 256 else 1) * (x - old).
Proof.
  intros Ha Hk Hl [Hr ->]%store_Some. rewrite slice_insert by lia.
  replace (Z.to_nat (a + k) - Z.to_nat a)%nat with (Z.to_nat k) by lia.
  rewrite (rfc_sum_insert _ _ _ old).
  - do 2 f_equal. destruct (Z.even k) eqn:E, (Nat.even (Z.to_nat k)) eqn:E'; try done; exfalso.
    + apply Z.even_spec in E as [q Hq]. apply (f_equal negb) in E'. rewrite Nat.negb_even in E'.
      apply Nat.odd_spec in E' as [r Hr']. lia.
    + apply (f_equal negb) in E. rewrite Z.negb_even in E. apply Z.odd_spec in E as [q Hq].
      apply Nat.even_spec in E' as [r Hr']. lia.
  - unfold slice. rewrite lookup_take_lt by lia. rewrite lookup_drop.
    unfold load in Hl. destruct (Z.leb_spec 0 (a + k)); [|done].
    by replace (Z.to_nat a + Z.to_nat k)%nat with (Z.to_nat (a + k)) by lia.
Qed.

Lemma adjust_csum_eq hi lo dec :
  is_u8 hi → is_u8 lo → adjust_csum hi lo dec = (256 * hi + lo + dec) mod 65536.
Proof.
  intros Hh Hl. unfold adjust_csum, u16, Z.lnot, is_u8 in *. rewrite Z.shiftl_mul_pow2 by lia.
  change (2 ^ 8) with 256. unfold Z.pred. lia.
Qed.

(** The TTL and the checksum of one header of [n] octets at [st]: the checksum
    is an aligned 16-bit word that does not hold the TTL. *)
Record ttl_at (p : Packet) (f c : HeaderField) (st n : Z) : Prop := {
  ta_ttl : dst_addr f p = Some (st + hf_bitoffset f / 8);
  ta_csum : dst_addr c p = Some (st + hf_bitoffset c / 8);
  ta_same : header_idx c = header_idx f;
  ta_fits : 0 <= st ∧ st + n <= Z.of_nat (length (buf p));
  ta_f : 0 <= hf_bitoffset f / 8 < n;
  ta_c : 0 <= hf_bitoffset c / 8 ∧ hf_bitoffset c / 8 + 1 < n;
  ta_even : Z.even (hf_bitoffset c / 8) = true;
  ta_apart : hf_bitoffset f / 8 ≠ hf_bitoffset c / 8 ∧ hf_bitoffset f / 8 ≠ hf_bitoffset c / 8 + 1;
  ta_bytes : bytes_ok (buf p)
}.

Definition ttl_decrement (f : HeaderField) : Z := if Z.odd (hf_bitoffset f / 8) then 1 else 256.

(** The exact effect of the action on the one's complement sum of the header. *)
Lemma ttlreduce_sum p f c st n :
  ttl_at p f c st n →
  ∃ p' t hi lo,
    load (buf p) (st + hf_bitoffset f / 8) = Some t ∧
    load (buf p) (st + hf_bitoffset c / 8) = Some hi ∧ load (buf p) (st + hf_bitoffset c / 8 + 1) = Some lo ∧
    action_TTLREDUCE_execute f c (ttl_decrement f) p = Some (ACR_CONTINUE, p') ∧
    is_u8 t ∧ ttl p' = (if t >? 0 then t - 1 else t) ∧
    rfc_sum (slice (buf p') st n) = rfc_sum (slice (buf p) st n)
      - (if t >? 0 then ttl_decrement f else 0) + ttl_decrement f
      - (if 256 * hi + lo + ttl_decrement f <? 65536 then 0 else 65536).
Proof.
  intros [Ha Hc Hsame [Hst Hn] Hf [Hc0 Hc1] Hev Hne Hb].
  set (tf := hf_bitoffset f / 8) in *. set (cf := hf_bitoffset c / 8) in *.
  destruct (load_in_range (buf p) (st + tf)) as [t Ht]; [unfold in_range; lia|].
  destruct (load_in_range (buf p) (st + cf)) as [hi Hhi]; [unfold in_range; lia|].
  destruct (load_in_range (buf p) (st + cf + 1)) as [lo Hlo]; [unfold in_range; lia|].
  pose proof (load_byte _ _ _ Hb Ht) as Ut. pose proof (load_byte _ _ _ Hb Hhi) as Uh.
  pose proof (load_byte _ _ _ Hb Hlo) as Ul.
  set (t' := if t >? 0 then t - 1 else t).
  pose proof (store_in_range (buf p) (st + tf) t' ltac:(unfold in_range; lia)) as E1.
  set (b1 := <[_ := t']> (buf p)) in E1.
  assert (load b1 (st + cf) = Some hi) as Hhi1 by (rewrite (load_store_ne _ _ _ _ _ E1) by lia; done).
  assert (load b1 (st + cf + 1) = Some lo) as Hlo1 by (rewrite (load_store_ne _ _ _ _ _ E1) by lia; done).
  set (s16 := adjust_csum hi lo (ttl_decrement f)).
  pose proof (store_length _ _ _ _ E1) as L1.
  destruct (store2_total b1 (st + cf) (Z.land (Z.shiftr s16 8) 255) (Z.land s16 255))
    as (b2 & b3 & S2 & S3 & E3 & _); [lia..|].
  exists (p <| buf := b1 |> <| ttl := t' |> <| buf := b3 |>), t, hi, lo.
  split_and!; [done..| | done | done |].
  { unfold action_TTLREDUCE_execute. rewrite Ha. cbn [mbind option_bind]. rewrite Ht. cbn [mbind option_bind].
    fold t'. rewrite E1. cbn [mbind option_bind]. rewrite Hsame, Z.eqb_refl.
    change (dst_addr c (p <| buf := b1 |> <| ttl := t' |>)) with (dst_addr c p). rewrite Hc.
    cbn [mbind option_bind]. change (buf (p <| buf := b1 |> <| ttl := t' |>)) with b1.
    rewrite Hhi1. cbn [mbind option_bind]. rewrite Hlo1. cbn [mbind option_bind]. fold s16. by rewrite E3. }
  change (rfc_sum (slice b3 st n) = rfc_sum (slice (buf p) st n) - (if t >? 0 then ttl_decrement f else 0)
    + ttl_decrement f - (if 256 * hi + lo + ttl_decrement f <? 65536 then 0 else 65536)).
  rewrite <- Z.add_assoc in S3, Hlo1.
  assert (load b2 (st + (cf + 1)) = Some lo) as Hlo2 by (rewrite (load_store_ne _ _ _ _ _ S2) by lia; done).
  rewrite (rfc_sum_store _ _ (cf + 1) n _ _ _ Hst ltac:(lia) Hlo2 S3), (rfc_sum_store _ _ cf n _ _ _ Hst ltac:(lia) Hhi1 S2),
    (rfc_sum_store _ _ _ n _ _ _ Hst Hf Ht E1).
  rewrite Hev, Z.add_1_r, Z.even_succ, <- Z.negb_even, Hev. cbn [negb].
  rewrite !land_ff, Z.shiftr_div_pow2 by lia. change (2 ^ 8) with 256.
  unfold s16, t', ttl_decrement, is_u8 in *. rewrite adjust_csum_eq by done. fold tf. rewrite <- (Z.negb_odd tf).
  destruct (Z.odd tf); cbn [negb]; zcases; lia.
Qed.

(** C20: reducing the TTL keeps a header checksum valid.  The TTL octet becomes
    one less, down to zero, and is copied to the metadata; when it was positive
    and the stored checksum plus the decrement stays below 2^16, the one's
    complement sum of the header is unchanged, so a valid header stays valid. *)
Theorem ttlreduce_checksum p f c st n :
  ttl_at p f c st n →
  ∃ p' t hi lo,
    load (buf p) (st + hf_bitoffset f / 8) = Some t ∧
    load (buf p) (st + hf_bitoffset c / 8) = Some hi ∧ load (buf p) (st + hf_bitoffset c / 8 + 1) = Some lo ∧
    action_TTLREDUCE_execute f c (ttl_decrement f) p = Some (ACR_CONTINUE, p') ∧ ttl p' = Z.max 0 (t - 1) ∧
    (0 < t → 256 * hi + lo + ttl_decrement f < 65536 →
     rfc_sum (slice (buf p') st n) = rfc_sum (slice (buf p) st n)).
Proof.
  intros H. destruct (ttlreduce_sum p f c st n H) as (p' & t & hi & lo & Ht & Hh & Hl & E & Ut & Ettl & Es).
  exists p', t, hi, lo. unfold is_u8 in Ut. split_and!; [done.. | |].
  - rewrite Ettl. zcases; lia.
  - intros H0 Hc. rewrite Es. zcases; lia.
Qed.

(** Finding: the incremental update is wrong at the ends.  For a TTL at an even
    octet, as in IPv4, a valid header becomes invalid when the TTL is already
    zero, and when the stored checksum is 0xff00 or more, because the carry out
    of the 16-bit addition is dropped. *)
Theorem ttlreduce_invalidates p f c st n :
  ttl_at p f c st n → Z.odd (hf_bitoffset f / 8) = false → rfc_valid (slice (buf p) st n) →
  (∃ t, load (buf p) (st + hf_bitoffset f / 8) = Some t ∧ t = 0) ∨
  (∃ hi, load (buf p) (st + hf_bitoffset c / 8) = Some hi ∧ hi = 255) →
  ∃ p', action_TTLREDUCE_execute f c (ttl_decrement f) p = Some (ACR_CONTINUE, p') ∧
    ¬ rfc_valid (slice (buf p') st n).
Proof.
  intros H Hodd [Hv _] Hend. destruct (ttlreduce_sum p f c st n H) as (p' & t & hi & lo & Ht & Hh & Hl & E & Ut & _ & Es).
  pose proof (load_byte _ _ _ (ta_bytes _ _ _ _ _ H) Hh) as Uh. pose proof (load_byte _ _ _ (ta_bytes _ _ _ _ _ H) Hl) as Ul.
  exists p'. split; [done|]. intros [Hv' _]. unfold ttl_decrement in Es. rewrite Hodd in Es.
  rewrite Ht, Hh in Hend. unfold is_u8 in *.
  assert (t = 0 ∨ hi = 255) by (destruct Hend as [(? & [= ->] & ?)|(? & [= ->] & ?)]; auto). clear Hend.
  rewrite Es in Hv'. destruct (Z.gtb_spec t 0), (Z.ltb_spec (256 * hi + lo + 256) 65536); lia.
Qed.

(** An IPv4 header with TTL 64 at offset 0. *)
Definition ttl_packet (t hi lo : Z) : Packet :=
  (blank_packet ([69; 0; 0; 20; 0; 0; 0; 0; t; 17; hi; lo; 10; 0; 0; 1; 10; 0; 0; 2] ++ replicate 20 0) false)
    <| headers := <[0%nat := mk_header PROTO_ID_IPv4 0 20]> (replicate 20 no_header) |>.
Definition ttl_field : HeaderField := mk_hf 0 64 8.
Definition csum_field : HeaderField := mk_hf 0 80 16.

Lemma ttl_packet_at t hi lo :
  is_u8 t → is_u8 hi → is_u8 lo → ttl_at (ttl_packet t hi lo) ttl_field csum_field 0 20.
Proof.
  intros. split; try done; try (cbn; lia). unfold bytes_ok; cbn.
  repeat first [apply Forall_nil_2 | apply Forall_cons_2; [done || (unfold is_u8; lia)|]].
Qed.

Lemma ttlreduce_checksum_witness :
  ∃ p' t hi lo,
    load (buf (ttl_packet 64 102 215)) 8 = Some t ∧
    load (buf (ttl_packet 64 102 215)) 10 = Some hi ∧ load (buf (ttl_packet 64 102 215)) 11 = Some lo ∧
    action_TTLREDUCE_execute ttl_field csum_field 256 (ttl_packet 64 102 215) = Some (ACR_CONTINUE, p') ∧
    ttl p' = Z.max 0 (t - 1) ∧
    (0 < t → 256 * hi + lo + 256 < 65536 →
     rfc_sum (slice (buf p') 0 20) = rfc_sum (slice (buf (ttl_packet 64 102 215)) 0 20)).
Proof.
  apply (ttlreduce_checksum (ttl_packet 64 102 215) ttl_field csum_field 0 20).
  apply ttl_packet_at; unfold is_u8; lia.
Defined.

Lemma ttlreduce_invalidates_witness :
  ∃ p', action_TTLREDUCE_execute ttl_field csum_field 256 (ttl_packet 0 166 215) = Some (ACR_CONTINUE, p') ∧
    ¬ rfc_valid (slice (buf p') 0 20).
Proof.
  apply (ttlreduce_invalidates (ttl_packet 0 166 215) ttl_field csum_field 0 20).
  - apply ttl_packet_at; unfold is_u8; lia.
  - reflexivity.
  - vm_compute. split; [reflexivity | discriminate].
  - left. exists 0. split; reflexivity.
Defined.

(** ** OAM detection *)

Lemma scan_payload i l : scan_stack PROTO_ID_PAYLOAD i l = None ∨ scan_stack PROTO_ID_PAYLOAD i l = Some None.
Proof.
  revert i. induction l as [|x l IH]; intros i; cbn [scan_stack]; [by left|].
  destruct (decide (x = PROTO_ID_PAYLOAD)); [by right|]. apply IH.
Qed.

(** Finding: CFM packets without an R-TAG are not recognised.  The loop that looks
    for the payload in a header stack stops before it, because
    [PROTO_ID_PAYLOAD] is the terminator: for every Ethernet stack without an
    R-TAG the position of the Ethernet type stays zero, and a packet counts as
    OAM exactly when its first two octets, the start of the destination address,
    are 0x89 0x02. *)
Theorem analyze_misses_payload stack d p x y :
  head stack = Some PROTO_ID_ETH → analyze_protostack stack = Some d → rtag_index d = 0 →
  hdr_octet p 0 0 = Some x → hdr_octet p 0 1 = Some y →
  last_index d = 0 ∧ ethertype_offset d = 0 ∧
  packet_is_oam p d = Some (bool_decide (x = 137) && bool_decide (y = 2)).
Proof.
  intros Hh Ha Hr Hx Hy. unfold analyze_protostack in Ha. rewrite Hh in Ha. cbn [mbind option_bind] in Ha.
  rewrite decide_True in Ha by done.
  destruct (scan_stack PROTO_ID_RTAG 1 (tail stack)) as [[i|]|] eqn:Es; [| |done]; cbn [mbind option_bind] in Ha.
  - simplify_eq. cbn in Hr. subst i. exfalso. clear - Es.
    assert (∀ l i k, 0 < i → scan_stack PROTO_ID_RTAG i l = Some (Some k) → 0 < k) as Hpos.
    { induction l as [|z l IH]; intros i k Hi; cbn [scan_stack]; [done|].
      repeat case_decide; intros E; simplify_eq; [done|]. eapply (IH (i + 1)); [lia | done]. }
    specialize (Hpos _ 1 0 ltac:(lia) Es). lia.
  - destruct (scan_payload 1 (tail stack)) as [E|E]; rewrite E in Ha; [done|]. cbn [mbind option_bind] in Ha.
    simplify_eq. split_and!; [done | done |]. unfold packet_is_oam. cbn [protostack rtag_index last_index ethertype_offset].
    rewrite Hh. cbn [mbind option_bind Z.eqb negb]. change (0 + 1) with 1. rewrite Hx. cbn [mbind option_bind]. rewrite Hy. cbn [mbind option_bind].
    change (Z.land (Z.shiftr ETH_P_CFM 8) 255) with 137. change (Z.land ETH_P_CFM 255) with 2.
    repeat case_bool_decide; zcases; done.
Qed.

(** A CFM message behind a C-VLAN tag, for the stack the configuration uses. *)
Definition cfm_packet : Packet :=
  (blank_packet ([1; 128; 194; 0; 0; 51; 2; 0; 0; 0; 0; 1; 129; 0; 0; 5; 137; 2] ++ replicate 30 0) false)
    <| headers := [mk_header PROTO_ID_ETH 0 14; mk_header PROTO_ID_CVLAN 14 4; mk_header PROTO_ID_PAYLOAD 18 30] |>
    <| header_count := 3 |>.
Definition ethcvlan_stack : list ProtocolID := [PROTO_ID_ETH; PROTO_ID_CVLAN; PROTO_ID_PAYLOAD].

Lemma analyze_misses_payload_witness :
  0 = 0 ∧ 0 = 0 ∧
  packet_is_oam cfm_packet (mk_detect (Some ethcvlan_stack) 0 0 0) = Some (bool_decide (1 = 137) && bool_decide (128 = 2)).
Proof. apply (analyze_misses_payload ethcvlan_stack (mk_detect (Some ethcvlan_stack) 0 0 0) cfm_packet 1 128); reflexivity. Defined.

End Act.
