(* ===== verification/Octets.v ===== *)
(** * Octet strings in buffers

    Lemmas on reading and writing several octets at once, shared by the
    receiving and sending functions of interfaces: [put] is the effect of a
    block write, and [memcpy], [memmove], loops of single octets and stores of
    network-order words are all block writes. *)

From S2P Require Import Prelude Packet Action.
Import Pkt Act.

Module Octets.

#[local] Open Scope list_scope.
#[local] Open Scope Z_scope.

Definition put (b : mem) (a : Z) (l : mem) : mem :=
  take (Z.to_nat a) b ++ l ++ drop (Z.to_nat a + length l) b.

Lemma put_length b a l : 0 <= a → a + Z.of_nat (length l) <= Z.of_nat (length b) → length (put b a l) = length b.
Proof. intros. unfold put. rewrite !length_app, length_take, length_drop. lia. Qed.

Lemma put_bytes b a l : bytes_ok b → bytes_ok l → bytes_ok (put b a l).
Proof. intros Hb Hl. unfold put, bytes_ok. apply Forall_app; split; [by apply Forall_take|]. apply Forall_app; split; [done | by apply Forall_drop]. Qed.

Lemma put_nil b a : put b a [] = b.
Proof. unfold put. cbn. rewrite Nat.add_0_r. apply take_drop. Qed.

(** Adjacent block writes are one. *)
Lemma put_app b a l1 l2 :
  0 <= a → a + Z.of_nat (length l1) + Z.of_nat (length l2) <= Z.of_nat (length b) →
  put (put b a l1) (a + Z.of_nat (length l1)) l2 = put b a (l1 ++ l2).
Proof.
  intros Ha Hl. unfold put at 1 3. rewrite length_app.
  replace (Z.to_nat (a + Z.of_nat (length l1))) with (Z.to_nat a + length l1)%nat by lia.
  unfold put. rewrite <- !app_assoc.
  assert (length (take (Z.to_nat a) b) = Z.to_nat a) as L by (rewrite length_take; lia).
  rewrite (take_app_add' (take (Z.to_nat a) b)) by done. rewrite take_app_length, <- app_assoc. f_equal. f_equal. f_equal.
  rewrite <- Nat.add_assoc, drop_app_add' by done. rewrite drop_app_add, drop_drop. f_equal. lia.
Qed.

(** Octets behind the block stay. *)
Lemma slice_put b a l m :
  0 <= a → 0 <= m → a + Z.of_nat (length l) <= Z.of_nat (length b) →
  slice (put b a l) a (Z.of_nat (length l) + m) = l ++ slice b (a + Z.of_nat (length l)) m.
Proof.
  intros Ha Hm Hl. unfold slice, put. assert (length (take (Z.to_nat a) b) = Z.to_nat a) as L by (rewrite length_take; lia).
  rewrite drop_app_length' by done. replace (Z.to_nat (Z.of_nat (length l) + m)) with (length l + Z.to_nat m)%nat by lia.
  rewrite take_app_add. do 3 f_equal. lia.
Qed.

Lemma slice_put_behind b a l c n :
  0 <= a → a + Z.of_nat (length l) <= Z.of_nat (length b) → a + Z.of_nat (length l) <= c →
  slice (put b a l) c n = slice b c n.
Proof.
  intros Ha Hb Hc. unfold slice, put. f_equal. rewrite app_assoc, drop_app_ge by (rewrite length_app, length_take; lia).
  rewrite drop_drop, length_app, length_take. f_equal. lia.
Qed.

Lemma slice_put_eq b a l :
  0 <= a → a + Z.of_nat (length l) <= Z.of_nat (length b) → slice (put b a l) a (Z.of_nat (length l)) = l.
Proof.
  intros Ha Hl. rewrite <- (Z.add_0_r (Z.of_nat (length l))), slice_put by lia. unfold slice. cbn. apply app_nil_r.
Qed.

Lemma slice_app b a n m : 0 <= a → 0 <= n → 0 <= m → slice b a (n + m) = slice b a n ++ slice b (a + n) m.
Proof.
  intros. unfold slice. rewrite !Z2Nat.inj_add by done. rewrite <- drop_drop, take_take_drop. done.
Qed.

Lemma slice_bytes b a n : bytes_ok b → bytes_ok (slice b a n).
Proof. intros H. by apply Forall_take, Forall_drop. Qed.

Lemma memcpy_put dst d src a n :
  0 <= a → 0 <= d → 0 <= n → a + n <= Z.of_nat (length src) → d + n <= Z.of_nat (length dst) →
  memcpy dst d src a n = Some (put dst d (slice src a n)).
Proof.
  intros. rewrite memcpy_Some by done. unfold put. rewrite length_slice by done.
  replace (Z.to_nat (d + n)) with (Z.to_nat d + Z.to_nat n)%nat by lia. done.
Qed.

Lemma store_put b a x : in_range b a → store b a x = Some (put b a [x]).
Proof.
  intros H. rewrite store_in_range by done. unfold in_range in H. unfold put. cbn [length].
  rewrite insert_take_drop by lia. cbn. by rewrite Nat.add_1_r.
Qed.

Lemma store_octets_put b a l :
  0 <= a → a + Z.of_nat (length l) <= Z.of_nat (length b) → store_octets b a l = Some (put b a l).
Proof.
  revert b a. induction l as [|x l IH]; intros b a Ha Hl; cbn [store_octets length] in *; [by rewrite put_nil|].
  rewrite store_put by (unfold in_range; lia). cbn [mbind option_bind].
  rewrite IH by (rewrite ?put_length; cbn [length]; lia). f_equal. exact (put_app b a [x] l Ha ltac:(cbn; lia)).
Qed.

End Octets.
