(* ===== verification/Object.v ===== *)
(** * Pipeline objects (object.h, object.c, replicate.c)

    [struct PipelineObject] with its method table as a type class: what an
    object does with a packet ([process_packet]) and which pipeline iterators it
    keeps.  The laws of the class are what the pipelines rely on; the four
    object types of DNT satisfy them, and so does their sum. *)

From S2P Require Import Prelude TimeUtils Packet SeqGen SeqRecov Pof.
Import Time Pkt POF(ActionResult(..)).

Module Obj.

(** ** The interface *)

(** [process_packet now recv self h p]: [h] is the iterator, [p] its packet; [now]
    and [recv] are the clock readings the object may take.  [held] are the
    iterators the object keeps. *)
Class Process (S : Type) := {
  process_packet : timespec → timespec → S → nat → Packet → option (ActionResult * S * Packet);
  held : S → list nat
}.

(** An object changes no more of a packet than its sequence number, and it keeps
    the iterator exactly when it answers [ACR_HOLD]. *)
Class ProcessLaws (S : Type) `{!Process S} := {
  process_frame now recv s h p r s' p' :
    process_packet now recv s h p = Some (r, s', p') → ∃ w, p' = p <| sequence := w |>;
  process_keeps now recv s h p r s' p' :
    process_packet now recv s h p = Some (r, s', p') →
    held s' ≡ₚ if r is ACR_HOLD then h :: held s else held s
}.

(** ** Replication *)

Record Replicate := mk_repl { packets_passed : Z; octets_passed : Z; r_pipes : list nat }.

Definition new_replicate : Replicate := mk_repl 0 0 [].

Definition store_replication_pipelines (r : Replicate) (pipes : list nat) : Replicate :=
  mk_repl (packets_passed r) (octets_passed r) pipes.

Definition replicate_packet_passed (r : Replicate) (p : Packet) : ActionResult * Replicate :=
  (ACR_CONTINUE,
   mk_repl (u64 (packets_passed r + 1)) (u64 (octets_passed r + packet_length p)) (r_pipes r)).

(** ** The four object types *)

#[global] Instance gen_process : Process Gen.SequenceGenerator := {
  process_packet _ _ g _ p := let '(p, g) := Gen.seq_generator g p in Some (ACR_CONTINUE, g, p);
  held _ := []
}.

#[global] Instance rec_process : Process Rcvy.RecoveryObject := {
  process_packet _ _ o _ p :=
    '(pass, r) ← Rcvy.seq_recovery (Rcvy.main_rec o) p;
    Some (if pass : bool then ACR_CONTINUE else ACR_DONE, Rcvy.mk_obj r (Rcvy.oam_seq_recoveries o), p);
  held _ := []
}.

#[global] Instance pof_process : Process POF.Pof := {
  process_packet now recv q h p := let '(r, q) := POF.pof_insert q h p now recv in Some (r, q, p);
  held q := POF.handles q
}.

#[global] Instance repl_process : Process Replicate := {
  process_packet _ _ r _ p := let '(res, r) := replicate_packet_passed r p in Some (res, r, p);
  held _ := []
}.

Lemma same_sequence p : p = p <| sequence := sequence p |>.
Proof. by destruct p. Qed.

#[global] Instance gen_laws : ProcessLaws Gen.SequenceGenerator.
Proof.
  split; cbn; intros now recv g h p r g' p'; destruct (Gen.seq_generator g p) as [q g1] eqn:E;
    unfold Gen.seq_generator in E; destruct (Gen.sequence_generation g); intros; simplify_eq; [by eexists | done].
Qed.

#[global] Instance rec_laws : ProcessLaws Rcvy.RecoveryObject.
Proof.
  split; cbn; intros now recv o h p r o' p'; destruct (Rcvy.seq_recovery _ p) as [[[] r']|]; cbn;
    intros; simplify_eq; try done; eexists; apply same_sequence.
Qed.

#[global] Instance repl_laws : ProcessLaws Replicate.
Proof. split; cbn; intros; simplify_eq; [eexists; apply same_sequence | done]. Qed.

#[global] Instance pof_laws : ProcessLaws POF.Pof.
Proof.
  split; cbn; intros now recv q h p r q' p'; unfold POF.pof_insert, POF.pof_test; repeat case_match; intros; simplify_eq;
    try done; try (eexists; apply same_sequence).
  all: unfold POF.handles; cbn; by rewrite POF.insert_elem_perm.
Qed.

(** ** [struct PipelineObject] *)

Inductive PipelineObject :=
  | PIPEOBJ_SEQGEN (g : Gen.SequenceGenerator)
  | PIPEOBJ_SEQREC (o : Rcvy.RecoveryObject)
  | PIPEOBJ_POF (q : POF.Pof)
  | PIPEOBJ_REPL (r : Replicate).

(** The call through the method table. *)
Definition obj_process (now recv : timespec) (o : PipelineObject) (h : nat) (p : Packet)
    : option (ActionResult * PipelineObject * Packet) :=
  match o with
  | PIPEOBJ_SEQGEN g => '(r, g, p) ← process_packet now recv g h p; Some (r, PIPEOBJ_SEQGEN g, p)
  | PIPEOBJ_SEQREC s => '(r, s, p) ← process_packet now recv s h p; Some (r, PIPEOBJ_SEQREC s, p)
  | PIPEOBJ_POF q => '(r, q, p) ← process_packet now recv q h p; Some (r, PIPEOBJ_POF q, p)
  | PIPEOBJ_REPL s => '(r, s, p) ← process_packet now recv s h p; Some (r, PIPEOBJ_REPL s, p)
  end.

#[global] Instance obj_class : Process PipelineObject := {
  process_packet := obj_process;
  held o := match o with
            | PIPEOBJ_SEQGEN g => held g
            | PIPEOBJ_SEQREC s => held s
            | PIPEOBJ_POF q => held q
            | PIPEOBJ_REPL s => held s
            end
}.

#[global] Instance obj_laws : ProcessLaws PipelineObject.
Proof.
  split; cbn [process_packet obj_class]; intros now recv o h p r o' p'; unfold obj_process;
    destruct o as [s|s|s|s]; destruct (process_packet now recv s h p) as [[[r1 s1] p1]|] eqn:E;
    cbn [mbind option_bind]; intros; simplify_eq;
    first [exact (process_frame _ _ _ _ _ _ _ _ E) | exact (process_keeps _ _ _ _ _ _ _ _ E)].
Qed.

(** ** References *)

Record Object := mk_object { obj : PipelineObject; obj_refcount : Z }.

#[global] Instance eta_object : Eta Object := λ o, mk_object (obj o) (obj_refcount o).

Definition pipeline_object_ref (o : Object) : Object := o <| obj_refcount := i32 (obj_refcount o + 1) |>.

(** The object deletes itself with its last reference; a packet ordering queue
    that is deleted gives up the iterators in it. *)
Definition pipeline_object_unref (o : Object) : option Object :=
  let o := o <| obj_refcount := i32 (obj_refcount o - 1) |> in
  if obj_refcount o =? 0 then None else Some o.

Definition pipelineobject_name_from_type (o : PipelineObject) : string :=
  match o with
  | PIPEOBJ_SEQGEN _ => "SeqGen"
  | PIPEOBJ_SEQREC _ => "SeqRcvy"
  | PIPEOBJ_POF _ => "Pof"
  | PIPEOBJ_REPL _ => "Replicate"
  end.

End Obj.
