(* ===== verification/Pipeline.v ===== *)
(** * Pipelines (pipeline.h, pipeline.c; execution of action.c)

    The heap of pipelines, iterators and pipeline objects, and the execution of
    a packet in it: [pipe_iterator_run] runs the actions of a pipeline from the
    position of the iterator, replication runs the branch pipelines on copies of
    the packet, and an action that holds the packet leaves the iterator to the
    queue it was given to.

    Pipelines, iterators, objects and interfaces are pointers in the program and
    numbers here.  What the program reads from outside (clock, uninitialised
    memory, success of a thread launch) comes from an environment indexed by the
    number of readings; the send functions of interfaces may write to the buffer
    of the packet ([sent]).  A run may access memory outside the buffer of its packet
    ([Fault]) or go through a null or dangling pointer ([Dangling]), and the
    evaluator may run out of fuel ([NoFuel]). *)

From S2P Require Import Prelude TimeUtils Protocol Packet HeaderField Checksum SeqRecov Pof Action Object.
Import Time Pkt POF(ActionResult(..)) Act Obj.

Module Pipe.

Inductive Outcome (A : Type) := Ok (a : A) | Fault | Dangling | NoFuel.
#[global] Arguments Ok {A} a.
#[global] Arguments Dangling {A}.
#[global] Arguments Fault {A}.
#[global] Arguments NoFuel {A}.

#[global] Instance outcome_bind : MBind Outcome := λ A B f m,
  match m with Ok a => f a | Fault => Fault | Dangling => Dangling | NoFuel => NoFuel end.

(** An access to the packet and an access through a pointer. *)
Definition access {A} (o : option A) : Outcome A := if o is Some a then Ok a else Fault.
Definition deref {A} (o : option A) : Outcome A := if o is Some a then Ok a else Dangling.

(** ** State *)

Record Pipeline := mk_pipeline {
  actions : list Action;
  reference_count : Z;
  mask : bool;
  pl_name : string
}.
#[global] Instance eta_pipeline : Eta Pipeline := λ p,
  mk_pipeline (actions p) (reference_count p) (mask p) (pl_name p).

Record PipelineIterator := mk_iter { packet : option Packet; pipe : nat; pos_ : nat }.
#[global] Instance eta_iter : Eta PipelineIterator := λ i, mk_iter (packet i) (pipe i) (pos_ i).

(** Calls that leave the pipelines. *)
Inductive Event :=
  | EvSend (iface : nat) (p : Packet)
  | EvOamCount (mp : nat) (octets : Z)
  | EvChecksumError (ifname : option string) (n : Z)
  | EvPipelineDeleted (pl : nat)
  | EvDelSender (iface : nat)
  | EvMpUnref (mp : nat).

Record World := mk_world {
  pool : PacketPool;
  iters : gmap nat PipelineIterator;
  next_iter : nat;                 (* next unused address *)
  pipes : gmap nat Pipeline;
  objects : gmap nat Object;
  mbox : list nat;                 (* iterators given to the delay queue *)
  oam_inbox : list (nat * nat);    (* iterators given to maintenance points *)
  trace : list Event;
  reads : nat                      (* readings of the environment *)
}.
#[global] Instance eta_world : Eta World := λ w,
  mk_world (pool w) (iters w) (next_iter w) (pipes w) (objects w) (mbox w) (oam_inbox w) (trace w) (reads w).

Record Env := mk_env {
  clock : nat → timespec;
  junk_buf : nat → mem;
  junk_word : nat → Z;
  launched : nat → bool;
  stack_base : Z;
  sent : nat → Packet → mem;       (* the buffer after the send function of an interface *)
  sent_length iface p : length (sent iface p) = length (buf p)
}.

Section pipelines.
Context (env : Env).

Definition tick (w : World) : World := w <| reads := S (reads w) |>.
Definition emit (w : World) (l : list Event) : World := w <| trace := trace w ++ l |>.

(** ** References *)

Definition pipeline_ref (w : World) (id : nat) : Outcome World :=
  pl ← deref (pipes w !! id);
  Ok (w <| pipes := <[id := pl <| reference_count := i32 (reference_count pl + 1) |>]> (pipes w) |>).

Definition object_unref (w : World) (id : nat) : Outcome World :=
  o ← deref (objects w !! id);
  Ok (match pipeline_object_unref o with
      | Some o => w <| objects := <[id := o]> (objects w) |>
      | None => w <| objects := delete id (objects w) |>
      end).

Fixpoint unref_list (unref : World → nat → Outcome World) (w : World) (l : list nat) : Outcome World :=
  match l with
  | [] => Ok w
  | id :: l => w ← unref w id; unref_list unref w l
  end.

(** The [del] function of an action. *)
Definition delete_action (unref : World → nat → Outcome World) (w : World) (a : Action) : Outcome World :=
  match a with
  | ACTION_ELIM o _ | ACTION_POF o | ACTION_SEQGEN o => object_unref w o
  | ACTION_OAMINJECT mp | ACTION_OAMRECEIVE mp _ => Ok (emit w [EvMpUnref mp])
  | ACTION_REPL l replobj _ =>
      w ← unref_list unref w l;
      match replobj with Some o => object_unref w o | None => Ok w end
  | _ => Ok w
  end.

Fixpoint delete_actions (unref : World → nat → Outcome World) (w : World) (l : list Action) : Outcome World :=
  match l with
  | [] => Ok w
  | a :: l => w ← delete_action unref w a; delete_actions unref w l
  end.

Definition unref_send_interfaces (w : World) (pl : Pipeline) : World :=
  emit w (EvDelSender <$> omap action_send_get_iface (actions pl)).

(** Deleting a pipeline drops its references to its branches: the recursion goes
    through pipelines that are about to be deleted. *)
Fixpoint unref_n (n : nat) (w : World) (id : nat) : Outcome World :=
  match n with
  | O => NoFuel
  | S n =>
      pl ← deref (pipes w !! id);
      let pl := pl <| reference_count := i32 (reference_count pl - 1) |> in
      let w := w <| pipes := <[id := pl]> (pipes w) |> in
      if reference_count pl =? 0 then
        let w := unref_send_interfaces (emit w [EvPipelineDeleted id]) pl in
        w ← delete_actions (unref_n n) w (actions pl);
        Ok (w <| pipes := delete id (pipes w) |>)
      else Ok w
  end.

Definition pipeline_unref (w : World) (id : nat) : Outcome World := unref_n (S (size (pipes w))) w id.

(** ** Iterators *)

Definition new_pipe_iterator (w : World) (id : nat) (p : Packet) : Outcome (nat * World) :=
  let h := next_iter w in
  w ← pipeline_ref w id;
  Ok (h, w <| iters := <[h := mk_iter (Some p) id 0]> (iters w) |> <| next_iter := S h |>).

(** [delete_packet(NULL)] does nothing. *)
Definition delete_iterator (w : World) (h : nat) : Outcome World :=
  pi ← deref (iters w !! h);
  w ← pipeline_unref w (pipe pi);
  let w := match packet pi with Some p => w <| pool := delete_packet p (pool w) |> | None => w end in
  Ok (w <| iters := delete h (iters w) |>).

Definition pipe_iteraror_cancel : World → nat → Outcome World := delete_iterator.

Definition pipe_set_mask (w : World) (id : nat) (new_mask : bool) : Outcome (bool * World) :=
  pl ← deref (pipes w !! id);
  if bool_decide (mask pl = new_mask) then Ok (false, w)
  else Ok (true, w <| pipes := <[id := pl <| mask := new_mask |>]> (pipes w) |>).

Definition iter_packet (w : World) (h : nat) : Outcome Packet :=
  pi ← deref (iters w !! h); deref (packet pi).

Definition set_packet (w : World) (h : nat) (p : option Packet) : Outcome World :=
  pi ← deref (iters w !! h);
  Ok (w <| iters := <[h := pi <| packet := p |>]> (iters w) |>).

(** [pipeline_process] on an existing evaluator [run]; a pipeline without the
    given action does not take the packet. *)
Definition pipeline_process (run : World → nat → Outcome World) (w : World) (id : nat) (index : nat)
    (p : Packet) : Outcome (bool * World) :=
  pl ← deref (pipes w !! id);
  if bool_decide (length (actions pl) <= index)%nat then Ok (false, w)
  else
    '(h, w) ← new_pipe_iterator w id p;
    pi ← deref (iters w !! h);
    w ← run (w <| iters := <[h := pi <| pos_ := index |>]> (iters w) |>) h;
    Ok (true, w).

(** ** Execution of an action *)

(** The actions that work on the packet alone; the last result are the events. *)
Definition packet_execute (w : World) (a : Action) (p : Packet) : option (ActionResult * Packet * list Event) :=
  match a with
  | ACTION_ADD idx type hlen => let '(r, p) := action_ADD_execute idx type hlen p in Some (r, p, [])
  | ACTION_CHECKSUM cp => '(r, p) ← action_CHECKSUM_execute (stack_base env) cp p; Some (r, p, [])
  | ACTION_DEL idx => let '(r, p) := action_DEL_execute idx p in Some (r, p, [])
  | ACTION_DROP => Some (ACR_DONE, p, [])
  | ACTION_EDIT l => '(r, p) ← action_EDIT_execute l p; Some (r, p, [])
  | ACTION_FILTEROAM f => r ← action_FILTEROAM_execute (junk_word env (reads w)) f p; Some (r, p, [])
  | ACTION_OAMINJECT _ => Some (ACR_CONTINUE, p, [])
  | ACTION_READSEQ f => '(r, p) ← action_READSEQ_execute f p; Some (r, p, [])
  | ACTION_READTSTAMP f => '(r, p) ← action_READTSTAMP_execute f p; Some (r, p, [])
  | ACTION_SEND i => Some (ACR_CONTINUE, p <| buf := sent env i p |>, [EvSend i p])
  | ACTION_SETLENGTH f b i => '(r, p) ← action_SETLENGTH_execute f b i p; Some (r, p, [])
  | ACTION_TTLCHECK => Some (action_TTLCHECK_execute p, p, [])
  | ACTION_TTLREDUCE f c d => '(r, p) ← action_TTLREDUCE_execute f c d p; Some (r, p, [])
  | ACTION_VERIFY cp =>
      '(r, n) ← action_VERIFY_execute (stack_base env) cp p;
      Some (r, p, if n =? 0 then [] else [EvChecksumError (from p) n])
  | ACTION_WRITESEQ f => '(r, p) ← action_WRITESEQ_execute f p; Some (r, p, [])
  | ACTION_WRITETSTAMP f => '(r, p) ← action_WRITETSTAMP_execute f p; Some (r, p, [])
  | ACTION_DELAY _ _ | ACTION_ELIM _ _ | ACTION_OAMRECEIVE _ _ | ACTION_POF _ | ACTION_REPL _ _ _
  | ACTION_SEQGEN _ => None
  end.

(** [obj->process_packet(obj, pi)] *)
Definition object_process (w : World) (oid h : nat) : Outcome (ActionResult * World) :=
  o ← deref (objects w !! oid);
  p ← iter_packet w h;
  '(r, ob, p) ← access (process_packet (clock env (reads w)) (clock env (S (reads w))) (obj o) h p);
  w ← set_packet (w <| objects := <[oid := o <| obj := ob |>]> (objects w) |>) h (Some p);
  Ok (r, tick (tick w)).

Definition action_ELIM_execute (w : World) (rcvy : nat) (d : OamDetect) (h : nat) : Outcome (ActionResult * World) :=
  p ← iter_packet w h;
  c ← access (elim_classify d p);
  match c with
  | ElimPass => Ok (ACR_CONTINUE, w)
  | ElimData => object_process w rcvy h
  | ElimOam session seq =>
      o ← deref (objects w !! rcvy);
      match obj o with
      | PIPEOBJ_SEQREC s =>
          let '(accept, s) := Rcvy.oam_recovery (launched env (reads w)) s session seq in
          Ok (if accept then ACR_CONTINUE else ACR_DONE,
              tick (w <| objects := <[rcvy := o <| obj := PIPEOBJ_SEQREC s |>]> (objects w) |>))
      | _ => Dangling
      end
  end.

Definition action_OAMRECEIVE_execute (w : World) (mp : nat) (d : OamDetect) (h : nat) : Outcome (ActionResult * World) :=
  p ← iter_packet w h;
  is_oam ← access (packet_is_oam p d);
  if (is_oam : bool) then Ok (ACR_HOLD, w <| oam_inbox := oam_inbox w ++ [(mp, h)] |>)
  else Ok (ACR_CONTINUE, emit w [EvOamCount mp (packet_length p)]).

Definition action_DELAY_run (w : World) (dly : timespec) (offl : bool) (h : nat) : Outcome (ActionResult * World) :=
  p ← iter_packet w h;
  let '(r, p) := action_DELAY_execute dly offl p in
  w ← set_packet w h (Some p);
  Ok (r, if offl then w else w <| mbox := mbox w ++ [h] |>).

(** A masked branch takes OAM packets only; [is_oam] is decided once. *)
Definition branch_skipped (d : OamDetect) (p : Packet) (pl : Pipeline) (is_oam : option bool)
    : option (bool * option bool) :=
  if mask pl then
    o ← match is_oam with Some o => Some o | None => packet_is_oam p d end;
    Some (negb o, Some o)
  else Some (false, is_oam).

(** The loop of [action_REPL_execute]: the last branch gets the packet itself,
    the others get copies. *)
Fixpoint replicate_to (run : World → nat → Outcome World) (d : OamDetect) (l : list nat) (p : Packet)
    (is_oam : option bool) (w : World) : Outcome World :=
  match l with
  | [] => Ok w
  | b :: l =>
      pl ← deref (pipes w !! b);
      '(skip, is_oam) ← access (branch_skipped d p pl is_oam);
      if (skip : bool) then
        replicate_to run d l p is_oam (if l is [] then w <| pool := delete_packet p (pool w) |> else w)
      else
        match l with
        | [] => '(_, w) ← pipeline_process run w b 0 p; Ok w
        | _ :: _ =>
            '(q, pool') ← access (copy_packet (junk_buf env (reads w)) p (pool w));
            '(_, w) ← pipeline_process run (tick (w <| pool := pool' |>)) b 0 q;
            replicate_to run d l p is_oam w
        end
  end.

Definition action_REPL_execute (run : World → nat → Outcome World) (w : World) (l : list nat)
    (replobj : option nat) (d : OamDetect) (h : nat) : Outcome (ActionResult * World) :=
  w ← match replobj with
      | Some o => '(_, w) ← object_process w o h; Ok w
      | None => Ok w
      end;
  p ← iter_packet w h;
  w ← set_packet w h None;
  w ← replicate_to run d l p None w;
  Ok (ACR_DONE, w).

Definition execute (run : World → nat → Outcome World) (w : World) (a : Action) (h : nat)
    : Outcome (ActionResult * World) :=
  match a with
  | ACTION_DELAY dly offl => action_DELAY_run w dly offl h
  | ACTION_ELIM o d => action_ELIM_execute w o d h
  | ACTION_OAMRECEIVE mp d => action_OAMRECEIVE_execute w mp d h
  | ACTION_POF o | ACTION_SEQGEN o => object_process w o h
  | ACTION_REPL l replobj d => action_REPL_execute run w l replobj d h
  | _ =>
      p ← iter_packet w h;
      '(r, p, ev) ← access (packet_execute w a p);
      w ← set_packet w h (Some p);
      Ok (r, tick (emit w ev))
  end.

Definition advance (w : World) (h : nat) : Outcome World :=
  pi ← deref (iters w !! h);
  Ok (w <| iters := <[h := pi <| pos_ := S (pos_ pi) |>]> (iters w) |>).

(** One unit of fuel per action; a branch pipeline runs on the fuel that is left. *)
Fixpoint pipe_iterator_run (fuel : nat) (w : World) (h : nat) : Outcome World :=
  match fuel with
  | O => NoFuel
  | S fuel =>
      pi ← deref (iters w !! h);
      pl ← deref (pipes w !! pipe pi);
      match actions pl !! pos_ pi with
      | None => delete_iterator w h
      | Some a =>
          '(res, w) ← execute (pipe_iterator_run fuel) w a h;
          match res with
          | ACR_CONTINUE => w ← advance w h; pipe_iterator_run fuel w h
          | ACR_DONE => delete_iterator w h
          | ACR_HOLD => Ok w
          end
      end
  end.

Definition pipe_iterator_resume (fuel : nat) (w : World) (h : nat) : Outcome World :=
  w ← advance w h; pipe_iterator_run fuel w h.

End pipelines.
End Pipe.
