(* ===== verification/PipelineRun.v ===== *)
(** * Running pipelines: ownership and termination

    What a run of a packet through the pipelines does to the packets, iterators
    and references of the heap of Pipeline.v: nothing is lost, nothing is freed
    twice, no pointer dangles and every run ends.  The pipelines are configured
    ones: each has a reference from its stream or its parent, replication
    branches are not empty and do not lead back. *)

From S2P Require Import Prelude TimeUtils Protocol Packet HeaderField Checksum SeqGen SeqRecov Pof Action Object Pipeline.
Import Time Pkt POF(ActionResult(..)) Act Obj Pipe.

Module PipeRun.

(** ** Packet actions keep the buffer they work on *)

(** An assignment of an edit action writes to the packet it is given. *)
Definition edit_ok (a : EditAssign) : Prop := ∀ p p', edit_assign a p = Some p' → dummy p' = dummy p.

Lemma edit_assigns_dummy l p p' : Forall edit_ok l → edit_assigns l p = Some p' → dummy p' = dummy p.
Proof.
  intros Hl. revert p. induction Hl as [|a l Ha Hl IH]; intros p; cbn [edit_assigns]; [by intros [= ->]|].
  destruct (edit_assign a p) as [p1|] eqn:E; [|done]. cbn [mbind option_bind]. intros Hp.
  rewrite (IH _ Hp). by apply Ha.
Qed.

Definition action_ok (a : Action) : Prop := if a is ACTION_EDIT l then Forall edit_ok l else True.

Lemma add_header_dummy p idx type hlen : dummy (packet_add_header p idx type hlen).2 = dummy p.
Proof. unfold packet_add_header, scratch_alloc. repeat case_match; simplify_eq; done. Qed.

Lemma checksum_compute_dummy stk p cp p' : Csum.checksum_compute stk p cp = Some p' → dummy p' = dummy p.
Proof.
  unfold Csum.checksum_compute, Csum.checksum_compute_with. intros H.
  repeat first [progress simplify_option_eq | case_match]; done.
Qed.

Lemma packet_execute_dummy env w a p r p' ev :
  action_ok a → packet_execute env w a p = Some (r, p', ev) → dummy p' = dummy p.
Proof.
  intros Ha H. destruct a; cbn [packet_execute] in H; try done; try (by simplify_option_eq).
  - injection H as <- <- <-. apply add_header_dummy.
  - unfold action_CHECKSUM_execute in H. simplify_option_eq. by eapply checksum_compute_dummy.
  - injection H as <- <- <-. unfold packet_del_header. by case_match.
  - unfold action_EDIT_execute in H. simplify_option_eq. by eapply edit_assigns_dummy.
  - unfold action_READSEQ_execute in H. repeat first [progress simplify_option_eq | case_match]; done.
  - unfold action_READTSTAMP_execute in H. by simplify_option_eq.
  - unfold action_SETLENGTH_execute in H. by simplify_option_eq.
  - unfold action_TTLREDUCE_execute in H. repeat first [progress simplify_option_eq | case_match]; done.
  - destruct (action_VERIFY_execute _ _ _) as [[]|]; cbn in H; by simplify_eq.
  - unfold action_WRITESEQ_execute in H. repeat first [progress simplify_option_eq | case_match]; done.
  - unfold action_WRITETSTAMP_execute in H. by simplify_option_eq.
Qed.

(** ** Ownership *)

Definition keys (w : World) : list nat := (map_to_list (iters w)).*1.

(** The iterators that objects, the delay queue and maintenance points keep. *)
Definition kept_by (m : gmap nat Object) : list nat := map_concat (λ o, held (obj o)) m.
Definition kept (w : World) : list nat := kept_by (objects w) ++ mbox w ++ (oam_inbox w).*2.

Lemma kept_by_update m k o o' :
  m !! k = Some o → ∃ r, kept_by m ≡ₚ held (obj o) ++ r ∧ kept_by (<[k := o']> m) ≡ₚ held (obj o') ++ r.
Proof.
  intros Hk. destruct (map_concat_update (λ o, held (obj o)) m k o Hk) as (r & E1 & E2). by exists r.
Qed.

Lemma keys_insert w h pi : iters w !! h = None → (map_to_list (<[h := pi]> (iters w))).*1 ≡ₚ h :: keys w.
Proof. intros H. unfold keys. by rewrite (map_to_list_insert _ _ _ H). Qed.

Lemma keys_update w h pi pi' : iters w !! h = Some pi → (map_to_list (<[h := pi']> (iters w))).*1 ≡ₚ keys w.
Proof.
  intros H. unfold keys. rewrite <- (map_to_list_delete _ _ _ H), <- insert_delete_eq.
  by rewrite (map_to_list_insert _ _ _ (lookup_delete_eq (iters w) h)).
Qed.

Lemma keys_delete w h pi : iters w !! h = Some pi → keys w ≡ₚ h :: (map_to_list (delete h (iters w))).*1.
Proof. intros H. unfold keys. by rewrite <- (map_to_list_delete _ _ _ H). Qed.

(** References to a pipeline from iterators, and packets that count as allocated. *)
Definition on_pipe (id : nat) (pi : PipelineIterator) : Z := if decide (pipe pi = id) then 1 else 0.
Definition counts (p : option Packet) : Z := if p is Some p then (if dummy p then 0 else 1) else 0.

Definition iters_on (w : World) (id : nat) : Z := map_sum (on_pipe id) (iters w).
Definition owned (w : World) : Z := map_sum (counts ∘ packet) (iters w).

(** The actions of every pipeline; runs do not change them. *)
Definition program (w : World) : gmap nat (list Action * bool) := (λ pl, (actions pl, mask pl)) <$> pipes w.

Section runs.
Context (env : Env).
(** [base id] are the references to a pipeline from streams and parents,
    [rank] orders the pipelines so that branches are below their parent, [L]
    bounds the actions of a pipeline and [K] the branches of a replication. *)
Context (base : nat → Z) (rank : nat → nat) (L K : nat).

(** A reference to an object of the right type. *)
Definition object_at (w : World) (a : Action) : Prop :=
  match a with
  | ACTION_ELIM o _ => ∃ s n, objects w !! o = Some (mk_object (PIPEOBJ_SEQREC s) n)
  | ACTION_REPL _ (Some o) _ => ∃ s n, objects w !! o = Some (mk_object (PIPEOBJ_REPL s) n)
  | ACTION_POF o | ACTION_SEQGEN o => is_Some (objects w !! o)
  | _ => True
  end.

Definition branches_ok (w : World) (id : nat) (a : Action) : Prop :=
  if a is ACTION_REPL l _ _ then
    l ≠ [] ∧ (length l <= K)%nat ∧
    ∀ b, b ∈ l → (rank b < rank id)%nat ∧ ∃ pb, pipes w !! b = Some pb ∧ actions pb ≠ []
  else True.

Definition configured (w : World) : Prop :=
  ∀ id pl, pipes w !! id = Some pl →
    (length (actions pl) <= L)%nat ∧ 1 <= base id ∧
    ∀ a, a ∈ actions pl → action_ok a ∧ object_at w a ∧ branches_ok w id a.

(** [E] packets exist outside the iterators. *)
Record inv (E : Z) (w : World) : Prop := {
  inv_fresh : ∀ h, is_Some (iters w !! h) → (h < next_iter w)%nat;
  inv_conf : configured w;
  inv_refs : ∀ id pl, pipes w !! id = Some pl → reference_count pl = i32 (base id + iters_on w id);
  inv_pool : packet_count (pool w) = u32 (E + owned w);
  inv_pipe : ∀ h pi, iters w !! h = Some pi → is_Some (pipes w !! pipe pi)
}.

(** The number of references stays an [int]. *)
Definition in_bounds (n : nat) : Prop := ∀ id, base id + Z.of_nat n < 2 ^ 31.

Lemma on_pipe_bound id pi : 0 <= on_pipe id pi <= 1.
Proof. unfold on_pipe. case_decide; lia. Qed.

Lemma iters_on_bound E w id : inv E w → 0 <= iters_on w id <= Z.of_nat (next_iter w).
Proof.
  intros [Hf _ _ _ _]. pose proof (map_sum_bound (on_pipe id) (iters w) (on_pipe_bound id)) as Hb.
  unfold iters_on. assert (size (iters w) <= next_iter w)%nat; [|lia].
  rewrite <- size_dom. rewrite <- (size_set_seq (C := gset nat) 0 (next_iter w)). apply subseteq_size.
  intros h Hh. apply elem_of_set_seq. apply elem_of_dom in Hh. specialize (Hf h Hh). lia.
Qed.

Lemma iters_on_pos E w h pi : inv E w → iters w !! h = Some pi → 1 <= iters_on w (pipe pi).
Proof.
  intros Hi Hh. unfold iters_on. rewrite (map_sum_delete _ _ _ _ Hh). unfold on_pipe at 1. rewrite decide_True by done.
  pose proof (map_sum_bound (on_pipe (pipe pi)) (delete h (iters w)) (on_pipe_bound _)). lia.
Qed.

(** ** Actions that stay with their packet *)

(** What an action other than replication does to the heap: it may change its own
    packet (not which buffer it has) and objects, and it gives the iterator away
    exactly when it holds it. *)
Record local (w w' : World) (h : nat) (r : ActionResult) : Prop := {
  lo_pipes : pipes w' = pipes w;
  lo_pool : pool w' = pool w;
  lo_next : next_iter w' = next_iter w;
  lo_iter : ∃ pi p p', iters w !! h = Some pi ∧ packet pi = Some p ∧ dummy p' = dummy p ∧
              iters w' = <[h := pi <| packet := Some p' |>]> (iters w);
  lo_objs : ∀ a, object_at w a → object_at w' a;
  lo_kept : kept w' ≡ₚ if r is ACR_HOLD then h :: kept w else kept w
}.

Lemma iter_same pi p : packet pi = Some p → pi = pi <| packet := Some p |>.
Proof. destruct pi. cbn. by intros ->. Qed.

Definition same_type (o o' : PipelineObject) : Prop :=
  match o, o' with
  | PIPEOBJ_SEQGEN _, PIPEOBJ_SEQGEN _ | PIPEOBJ_SEQREC _, PIPEOBJ_SEQREC _
  | PIPEOBJ_POF _, PIPEOBJ_POF _ | PIPEOBJ_REPL _, PIPEOBJ_REPL _ => True
  | _, _ => False
  end.

Lemma object_at_mono w w' a :
  (∀ o ob n, objects w !! o = Some (mk_object ob n) →
     ∃ ob', objects w' !! o = Some (mk_object ob' n) ∧ same_type ob ob') →
  object_at w a → object_at w' a.
Proof.
  intros Hm. destruct a; cbn; try done.
  - intros (s & n & Hs). destruct (Hm _ _ _ Hs) as ([] & ? & Ht); by eauto.
  - intros [[ob n] Ho]. destruct (Hm _ _ _ Ho) as (ob' & -> & _). eauto.
  - destruct replobj as [o|]; [|done]. intros (s & n & Hs). destruct (Hm _ _ _ Hs) as ([] & ? & Ht); by eauto.
  - intros [[ob n] Ho]. destruct (Hm _ _ _ Ho) as (ob' & -> & _). eauto.
Qed.

Lemma object_at_same w w' a : objects w' = objects w → object_at w a → object_at w' a.
Proof. intros E. unfold object_at. by rewrite E. Qed.

(** Replacing one object by one of the same type. *)
Lemma object_at_update w w' oid o ob' a :
  objects w !! oid = Some o → objects w' = <[oid := o <| obj := ob' |>]> (objects w) →
  same_type (obj o) ob' → object_at w a → object_at w' a.
Proof.
  intros Ho E Ht. apply object_at_mono. intros o' ob n Ho'. rewrite E.
  destruct (decide (o' = oid)) as [->|Hne].
  - rewrite lookup_insert_eq. simplify_eq. cbn. eauto.
  - rewrite lookup_insert_ne by done. eexists. split; [done|]. by destruct ob.
Qed.

Lemma process_type now recv o h p r o' p' :
  process_packet now recv o h p = Some (r, o', p') → same_type o o'.
Proof.
  cbn [process_packet obj_class]. unfold obj_process. intros H. destruct o as [s|s|s|s];
    destruct (process_packet now recv s h p) as [[[]]|]; cbn [mbind option_bind] in H; by simplify_eq.
Qed.

Lemma object_process_local w oid h pi p :
  is_Some (objects w !! oid) → iters w !! h = Some pi → packet pi = Some p →
  match object_process env w oid h with
  | Ok (r, w') => local w w' h r
  | Fault => True
  | _ => False
  end.
Proof.
  intros [o Ho] Hh Hp. unfold object_process, iter_packet, set_packet. rewrite Ho. cbn [deref mbind outcome_bind].
  rewrite Hh. cbn [deref mbind outcome_bind]. rewrite Hp. cbn [deref mbind outcome_bind].
  destruct (process_packet _ _ (obj o) h p) as [[[r ob] p']|] eqn:E; [|done]. cbn [access mbind outcome_bind].
  cbn. rewrite Hh. cbn. destruct (process_frame _ _ _ _ _ _ _ _ E) as [sq ->].
  pose proof (process_keeps _ _ _ _ _ _ _ _ E) as Hk. split; try done.
  - exists pi, p, (p <| sequence := sq |>). done.
  - intros a. eapply object_at_update; [done | done | exact (process_type _ _ _ _ _ _ _ _ E)].
  - unfold kept. cbn. destruct (kept_by_update (objects w) oid o (o <| obj := ob |>) Ho) as (rest & E1 & E2).
    cbn in E2. destruct r; rewrite E1, E2, Hk; done.
Qed.

(** A step that leaves the objects alone. *)
Lemma local_packet w w' h pi p p' r :
  iters w !! h = Some pi → packet pi = Some p → dummy p' = dummy p →
  iters w' = <[h := pi <| packet := Some p' |>]> (iters w) →
  pipes w' = pipes w → pool w' = pool w → next_iter w' = next_iter w → objects w' = objects w →
  mbox w' ++ (oam_inbox w').*2 ≡ₚ (if r is ACR_HOLD then [h] else []) ++ mbox w ++ (oam_inbox w).*2 →
  local w w' h r.
Proof.
  intros Hh Hp Hd Hi E1 E2 E3 E4 Hk. split; try done.
  - by exists pi, p, p'.
  - intros a. by apply object_at_same.
  - unfold kept. rewrite E4. destruct r; rewrite Hk; cbn; [done | done |]. symmetry. apply Permutation_middle.
Qed.

Lemma iters_same w h pi p : iters w !! h = Some pi → packet pi = Some p → iters w = <[h := pi <| packet := Some p |>]> (iters w).
Proof. intros Hh Hp. rewrite <- (iter_same pi p Hp). symmetry. by apply insert_id. Qed.

Lemma elim_local w o d h pi p :
  object_at w (ACTION_ELIM o d) → iters w !! h = Some pi → packet pi = Some p →
  match action_ELIM_execute env w o d h with
  | Ok (r, w') => local w w' h r
  | Fault => True
  | _ => False
  end.
Proof.
  intros (s & n & Ho) Hh Hp. unfold action_ELIM_execute, iter_packet. rewrite Hh. cbn [deref mbind outcome_bind].
  rewrite Hp. cbn [deref mbind outcome_bind]. destruct (elim_classify d p) as [[| |session sq]|]; [| | |done];
    cbn [access mbind outcome_bind].
  - apply (object_process_local w o h pi p); eauto.
  - apply (local_packet w w h pi p p); try done. by apply iters_same.
  - rewrite Ho. cbn [deref mbind outcome_bind obj].
    destruct (Rcvy.oam_recovery _ s session sq) as [accept s'] eqn:E.
    split; try done.
    + exists pi, p, p. split_and!; try done. by apply (iters_same w).
    + intros a. by eapply object_at_update.
    + unfold kept. cbn. edestruct (kept_by_update (objects w) o) as (rest & E1 & E2); [done|].
      destruct accept; rewrite E1, E2; done.
Qed.

Lemma packet_execute_result w a p r p' ev : packet_execute env w a p = Some (r, p', ev) → r ≠ ACR_HOLD.
Proof.
  intros E ->. destruct a; cbn in E; unfold action_CHECKSUM_execute, action_EDIT_execute, action_FILTEROAM_execute,
    action_READSEQ_execute, action_READTSTAMP_execute, action_SETLENGTH_execute, action_TTLCHECK_execute,
    action_TTLREDUCE_execute, action_VERIFY_execute, action_WRITESEQ_execute, action_WRITETSTAMP_execute in E;
  repeat first [progress simplify_option_eq | case_match]; done.
Qed.

Lemma packet_local w a h pi p :
  action_ok a → iters w !! h = Some pi → packet pi = Some p →
  match (p ← iter_packet w h; '(r, p, ev) ← access (packet_execute env w a p);
         w ← set_packet w h (Some p); Ok (r, tick (emit w ev))) with
  | Ok (r, w') => local w w' h r
  | Fault => True
  | _ => False
  end.
Proof.
  intros Hok Hh Hp. unfold iter_packet, set_packet. rewrite Hh. cbn [deref mbind outcome_bind].
  rewrite Hp. cbn [deref mbind outcome_bind].
  destruct (packet_execute env w a p) as [[[r p'] ev]|] eqn:E; [|done]. cbn [access mbind outcome_bind].
  pose proof (packet_execute_result _ _ _ _ _ _ E) as Hr.
  eapply local_packet; [done | done | by eapply packet_execute_dummy | done..|]. by destruct r.
Qed.

Lemma execute_local run w a h pi p :
  (∀ l o d, a ≠ ACTION_REPL l o d) → action_ok a → object_at w a →
  iters w !! h = Some pi → packet pi = Some p →
  match execute env run w a h with
  | Ok (r, w') => local w w' h r
  | Fault => True
  | _ => False
  end.
Proof.
  intros Hnr Hok Hob Hh Hp. pose proof (packet_local w a h pi p Hok Hh Hp) as Hdef.
  destruct a; cbn [execute]; try exact Hdef.
  - (* delay *)
    unfold action_DELAY_run, iter_packet, set_packet, action_DELAY_execute. rewrite Hh. cbn [deref mbind outcome_bind].
    rewrite Hp. cbn [deref mbind outcome_bind]. destruct offl; cbn.
    + by apply (local_packet w _ h pi p (p <| delay := dly |> <| offload := true |>)).
    + apply (local_packet w _ h pi p (p <| delay := dly |>)); try done. cbn.
      rewrite <- app_assoc. symmetry. apply (Permutation_middle (mbox w)).
  - by apply (elim_local w rcvy d h pi p).
  - (* OAM *)
    unfold action_OAMRECEIVE_execute, iter_packet. rewrite Hh. cbn [deref mbind outcome_bind].
    rewrite Hp. cbn [deref mbind outcome_bind]. destruct (packet_is_oam p d) as [[]|]; [| |done]; cbn [access mbind outcome_bind].
    + apply (local_packet w _ h pi p p); try done; [by apply (iters_same w)|]. cbn.
      rewrite fmap_app. cbn. by rewrite app_assoc, Permutation_app_comm.
    + apply (local_packet w _ h pi p p); try done. by apply (iters_same w).
  - by apply (object_process_local w pof h pi p).
  - by edestruct Hnr.
  - by apply (object_process_local w gen h pi p).
Qed.

(** ** Steps of a run *)

Lemma program_lookup w w' id pl' :
  program w' = program w → pipes w' !! id = Some pl' →
  ∃ pl, pipes w !! id = Some pl ∧ actions pl = actions pl' ∧ mask pl = mask pl'.
Proof.
  intros E H. assert (program w !! id = Some (actions pl', mask pl')) as Hp.
  { rewrite <- E. unfold program. by rewrite lookup_fmap, H. }
  unfold program in Hp. rewrite lookup_fmap in Hp. apply fmap_Some in Hp as (pl & Hpl & [= -> ->]). eauto.
Qed.

Lemma configured_mono w w' :
  program w' = program w → (∀ a, object_at w a → object_at w' a) → configured w → configured w'.
Proof.
  intros E Ho Hc id pl' Hid. destruct (program_lookup w w' id pl' E Hid) as (pl & Hpl & Ea & _).
  destruct (Hc id pl Hpl) as (Hl & Hb & Ha). rewrite <- Ea. split_and!; [done | done |].
  intros a Hin. destruct (Ha a Hin) as (Hok & Hob & Hbr). split_and!; [done | auto |].
  destruct a; try done. destruct Hbr as (Hne & Hlen & Hbr). split_and!; [done | done |].
  intros b Hb'. destruct (Hbr b Hb') as (Hr & pb & Hpb & Hact). split; [done|].
  destruct (program_lookup w' w b pb (eq_sym E) Hpb) as (pb' & ? & Eb & _). exists pb'. by rewrite Eb.
Qed.

(** What is left of a run: [S] are the other iterators in use. *)
Record ran (E : Z) (S : list nat) (n : nat) (w w' : World) (h : nat) : Prop := {
  ran_inv : inv E w';
  ran_keys : keys w' ≡ₚ S ++ kept w';
  ran_next : (next_iter w <= next_iter w' <= next_iter w + n)%nat;
  ran_program : program w' = program w;
  ran_frame : ∀ k, k ≠ h → (k < next_iter w)%nat → iters w' !! k = iters w !! k
}.

Lemma local_inv E w w' h r : inv E w → local w w' h r → inv E w'.
Proof.
  intros [Hf Hc Hr Hp Hi] [E1 E2 E3 (pi & p & p' & Hh & Hpk & Hd & Ei) Ho _]. split.
  - rewrite Ei, E3. intros k. rewrite lookup_insert_is_Some'. intros [<-|Hk]; apply Hf; [by rewrite Hh | done].
  - eapply configured_mono; [|done | done]. unfold program. by rewrite E1.
  - rewrite E1. intros id pl Hid. rewrite (Hr id pl Hid). do 2 f_equal. unfold iters_on. rewrite Ei.
    rewrite (map_sum_update _ _ _ _ _ Hh). unfold on_pipe. cbn. lia.
  - rewrite E2, Hp. do 2 f_equal. unfold owned. rewrite Ei, (map_sum_update _ _ _ _ _ Hh). cbn. rewrite Hpk. cbn.
    rewrite Hd. lia.
  - rewrite Ei, E1. intros k qi. destruct (decide (k = h)) as [->|Hne].
    + rewrite lookup_insert_eq. intros [= <-]. cbn. eauto.
    + rewrite lookup_insert_ne by done. eauto.
Qed.

Lemma local_keys w w' h r : local w w' h r → keys w' ≡ₚ keys w.
Proof. intros [_ _ _ (pi & p & p' & Hh & _ & _ & Ei) _ _]. unfold keys at 1. rewrite Ei. by apply (keys_update w h pi). Qed.

Lemma local_program w w' h r : local w w' h r → program w' = program w.
Proof. intros [E _ _ _ _ _]. unfold program. by rewrite E. Qed.

(** With a reference besides its iterators a pipeline survives. *)
Lemma unref_survives E w h pi :
  inv E w → in_bounds (next_iter w) → iters w !! h = Some pi →
  ∃ pl, pipes w !! pipe pi = Some pl ∧
    pipeline_unref w (pipe pi) =
      Ok (w <| pipes := <[pipe pi := pl <| reference_count := i32 (reference_count pl - 1) |>]> (pipes w) |>).
Proof.
  intros Hi Hb Hh. destruct (inv_pipe _ _ Hi _ _ Hh) as [pl Hpl]. exists pl. split; [done|].
  unfold pipeline_unref. cbn [unref_n]. rewrite Hpl. cbn [deref mbind outcome_bind].
  pose proof (inv_refs _ _ Hi _ _ Hpl) as Hrc. pose proof (iters_on_bound _ _ (pipe pi) Hi).
  pose proof (iters_on_pos _ _ _ _ Hi Hh). destruct (inv_conf _ _ Hi _ _ Hpl) as (_ & Hbase & _). specialize (Hb (pipe pi)).
  cbn [reference_count modify]. cbn. rewrite Hrc, !i32_small by (unfold is_i32; rewrite ?i32_small; unfold is_i32; lia).
  destruct (Z.eqb_spec (base (pipe pi) + iters_on w (pipe pi) - 1) 0); [lia|]. done.
Qed.

Lemma program_refcount w id pl z :
  pipes w !! id = Some pl →
  (λ pl, (actions pl, mask pl)) <$> <[id := pl <| reference_count := z |>]> (pipes w) = program w.
Proof.
  intros H. unfold program. rewrite fmap_insert. cbn. apply insert_id. by rewrite lookup_fmap, H.
Qed.

Lemma delete_iterator_ran E S w h pi :
  inv E w → in_bounds (next_iter w) → iters w !! h = Some pi → keys w ≡ₚ h :: S ++ kept w →
  ∃ w', delete_iterator w h = Ok w' ∧ ran E S 0 w w' h.
Proof.
  intros Hi Hb Hh Hk. destruct (unref_survives E w h pi Hi Hb Hh) as (pl & Hpl & Eu).
  unfold delete_iterator. rewrite Hh. cbn [deref mbind outcome_bind]. rewrite Eu. cbn [mbind outcome_bind].
  eexists. split; [done|].
  assert (∀ (w2 : World), pipes w2 = <[pipe pi := pl <| reference_count := i32 (reference_count pl - 1) |>]> (pipes w) →
    packet_count (pool w2) = u32 (packet_count (pool w) - counts (packet pi)) →
    iters w2 = delete h (iters w) → next_iter w2 = next_iter w → objects w2 = objects w →
    mbox w2 = mbox w → oam_inbox w2 = oam_inbox w → ran E S 0 w w2 h) as Hran.
  { intros w2 E1 E2 E3 E4 E5 E6 E7.
    assert (program w2 = program w) as Epr by (unfold program at 1; rewrite E1; by apply program_refcount).
    split; [split| | lia | done |].
    - rewrite E3, E4. intros k [x Hx]. apply lookup_delete_Some in Hx as [_ Hx]. apply (inv_fresh _ _ Hi). eauto.
    - eapply configured_mono; [done | | exact (inv_conf _ _ Hi)]. intros a. by apply object_at_same.
    - intros id pl'. rewrite E1. unfold iters_on. rewrite E3. destruct (decide (id = pipe pi)) as [->|Hne].
      + rewrite lookup_insert_eq. intros [= <-]. cbn. rewrite (inv_refs _ _ Hi _ _ Hpl). unfold iters_on.
        rewrite (map_sum_delete _ _ _ _ Hh). unfold on_pipe at 1. rewrite decide_True by done. unfold i32. lia.
      + rewrite lookup_insert_ne by done. intros Hid. rewrite (inv_refs _ _ Hi _ _ Hid). unfold iters_on.
        rewrite (map_sum_delete _ _ _ _ Hh). unfold on_pipe at 1. rewrite decide_False by done. done.
    - rewrite E2, (inv_pool _ _ Hi). unfold owned. rewrite E3, (map_sum_delete _ _ _ _ Hh). cbn. unfold u32. lia.
    - intros k qi. rewrite E3. intros [_ Hk']%lookup_delete_Some. rewrite E1. apply lookup_insert_is_Some'.
      right. by eapply (inv_pipe _ _ Hi).
    - unfold keys at 1, kept. rewrite E3, E5, E6, E7. apply (Permutation_cons_inv (a := h)).
      rewrite <- (keys_delete w h pi Hh). exact Hk.
    - intros k Hne _. rewrite E3. by apply lookup_delete_ne. }
  apply Hran; destruct (packet pi) as [p|] eqn:Ep; try done; cbn; unfold delete_packet; try (by case_match).
  - destruct (dummy p); cbn; [|done]. rewrite (inv_pool _ _ Hi). unfold u32. lia.
  - rewrite (inv_pool _ _ Hi). unfold u32. lia.
Qed.

(** ** Branches *)

Lemma ran_trans E1 E2 S n1 n2 w w1 w2 :
  ran E1 S n1 w w1 (next_iter w) → ran E2 S n2 w1 w2 (next_iter w1) → ran E2 S (n1 + n2) w w2 (next_iter w).
Proof.
  intros [_ _ Hn1 Hp1 Hf1] [Hi Hk Hn2 Hp2 Hf2]. split; [done | done | lia | by rewrite Hp2 |].
  intros k _ Hk'. rewrite Hf2, Hf1 by lia. done.
Qed.

Lemma ran_weaken E S n m w w' h : ran E S n w w' h → (n <= m)%nat → ran E S m w w' h.
Proof. intros [] ?. split; try done. lia. Qed.

(** The outcome of a part of a run: done as [R] says, or an access outside a buffer. *)
Definition finishes {A} (o : Outcome A) (R : A → Prop) : Prop :=
  match o with Ok x => R x | Fault => True | Dangling | NoFuel => False end.

Lemma finishes_bind {A B} (o : Outcome A) (f : A → Outcome B) (R : A → Prop) (Q : B → Prop) :
  finishes o R → (∀ x, R x → finishes (f x) Q) → finishes (o ≫= f) Q.
Proof. destruct o; cbn; auto. Qed.

Lemma finishes_mono {A} (o : Outcome A) (R Q : A → Prop) : finishes o R → (∀ x, R x → Q x) → finishes o Q.
Proof. destruct o; cbn; auto. Qed.

(** What the evaluator promises for pipelines of rank [r], from their start. *)
Definition run_spec (r n : nat) (run : World → nat → Outcome World) : Prop :=
  ∀ E S w h pi p,
    inv E w → keys w ≡ₚ h :: S ++ kept w → iters w !! h = Some pi → packet pi = Some p →
    (rank (pipe pi) <= r)%nat → pos_ pi = 0%nat → in_bounds (next_iter w + n) →
    finishes (run w h) (λ w', ran E S n w w' h).

Lemma in_bounds_le n m : in_bounds m → (n <= m)%nat → in_bounds n.
Proof. intros H Hle id. specialize (H id). lia. Qed.

(** The state in which a new iterator for packet [q] starts. *)
Definition started (w : World) (b : nat) (pl : Pipeline) (q : Packet) : World :=
  w <| pipes := <[b := pl <| reference_count := i32 (reference_count pl + 1) |>]> (pipes w) |>
    <| iters := <[next_iter w := mk_iter (Some q) b 0]> (iters w) |> <| next_iter := S (next_iter w) |>.

Lemma fresh_None E w : inv E w → iters w !! next_iter w = None.
Proof.
  intros [Hf _ _ _ _]. apply eq_None_not_Some. intros H%Hf. lia.
Qed.

Lemma started_inv E w b pl q :
  inv (E + counts (Some q)) w → pipes w !! b = Some pl → inv E (started w b pl q).
Proof.
  intros Hi Hb. pose proof (fresh_None _ _ Hi) as Hn. split; cbn.
  - intros k. rewrite lookup_insert_is_Some'. intros [<-|Hk]; [lia|]. specialize (inv_fresh _ _ Hi k Hk). lia.
  - eapply configured_mono; [| | exact (inv_conf _ _ Hi)]; [|intros a; by apply object_at_same].
    unfold program at 1. cbn. by apply program_refcount.
  - intros id pl'. unfold iters_on. cbn. rewrite (map_sum_insert _ _ _ _ Hn). unfold on_pipe at 1. cbn.
    destruct (decide (b = id)) as [->|Hne].
    + rewrite lookup_insert_eq. intros [= <-]. cbn. rewrite (inv_refs _ _ Hi _ _ Hb). unfold iters_on, i32. lia.
    + rewrite lookup_insert_ne by done. intros Hid. by rewrite (inv_refs _ _ Hi _ _ Hid).
  - rewrite (inv_pool _ _ Hi). f_equal. unfold owned. cbn. rewrite (map_sum_insert _ _ _ _ Hn). cbn. lia.
  - intros k qi. destruct (decide (k = next_iter w)) as [->|Hne].
    + rewrite lookup_insert_eq. intros [= <-]. cbn. by rewrite lookup_insert_eq.
    + rewrite lookup_insert_ne by done. intros Hk. apply lookup_insert_is_Some'. right. by eapply (inv_pipe _ _ Hi).
Qed.

Lemma process_ran E S r n run w b pl q :
  run_spec r n run → inv (E + counts (Some q)) w → keys w ≡ₚ S ++ kept w →
  pipes w !! b = Some pl → actions pl ≠ [] → (rank b <= r)%nat → in_bounds (next_iter w + Datatypes.S n) →
  finishes (pipeline_process run w b 0 q) (λ res, ran E S (Datatypes.S n) w res.2 (next_iter w)).
Proof.
  intros Hrun Hi Hk Hb Hne Hr Hbd. unfold pipeline_process. rewrite Hb. cbn [deref mbind outcome_bind].
  rewrite bool_decide_eq_false_2 by (destruct (actions pl); [done | cbn; lia]).
  unfold new_pipe_iterator, pipeline_ref. rewrite Hb. cbn [deref mbind outcome_bind].
  cbn. rewrite lookup_insert_eq. cbn [deref mbind outcome_bind]. rewrite insert_insert_eq. cbn.
  change (finishes (w0 ← run (started w b pl q) (next_iter w); Ok (true, w0))
    (λ res, ran E S (Datatypes.S n) w res.2 (next_iter w))).
  pose proof (fresh_None _ _ Hi) as Hn.
  eapply finishes_bind.
  - eapply (Hrun E S (started w b pl q)); [by apply started_inv | | cbn; by rewrite lookup_insert_eq | done | done | done |].
    + unfold keys at 1. cbn. rewrite (keys_insert w _ _ Hn). by rewrite Hk.
    + eapply in_bounds_le; [done | cbn; lia].
  - cbn. intros w' [Hi' Hk' Hn' Hp' Hf']. split; [done | done | cbn in Hn'; lia | |].
    + rewrite Hp'. unfold program at 1. cbn. by apply program_refcount.
    + intros k Hne' Hlt. rewrite Hf' by (cbn; lia). cbn. by rewrite lookup_insert_ne.
Qed.

Definition branch_ok (r : nat) (w : World) (b : nat) : Prop :=
  (rank b <= r)%nat ∧ ∃ pl, pipes w !! b = Some pl ∧ actions pl ≠ [].

Lemma branch_ok_program r w w' b : program w' = program w → branch_ok r w b → branch_ok r w' b.
Proof.
  intros E (Hr & pl & Hpl & Hne). destruct (program_lookup w' w b pl (eq_sym E) Hpl) as (pl' & ? & Ea & _).
  split; [done|]. exists pl'. by rewrite Ea.
Qed.

(** Only the pool and the number of readings differ. *)
Lemma pool_inv E E' w w' :
  inv E w → iters w' = iters w → next_iter w' = next_iter w → pipes w' = pipes w → objects w' = objects w →
  packet_count (pool w') = u32 (packet_count (pool w) + (E' - E)) → inv E' w'.
Proof.
  intros [Hf Hc Hr Hp Hi] E1 E2 E3 E4 Ep. split.
  - by rewrite E1, E2.
  - eapply configured_mono; [unfold program; by rewrite E3 | intros a; by apply object_at_same | done].
  - intros id pl. rewrite E3. unfold iters_on. rewrite E1. apply Hr.
  - rewrite Ep, Hp. unfold owned. rewrite E1. unfold u32. lia.
  - by rewrite E1, E3.
Qed.

Lemma ran_pool E E' S w w' :
  inv E w → keys w ≡ₚ S ++ kept w → iters w' = iters w → next_iter w' = next_iter w → pipes w' = pipes w →
  objects w' = objects w → mbox w' = mbox w → oam_inbox w' = oam_inbox w →
  packet_count (pool w') = u32 (packet_count (pool w) + (E' - E)) → ran E' S 0 w w' (next_iter w).
Proof.
  intros Hi Hk E1 E2 E3 E4 E5 E6 Ep. split; [by eapply pool_inv | | lia | |].
  - unfold keys, kept in *. by rewrite E1, E4, E5, E6.
  - unfold program. by rewrite E3.
  - intros. by rewrite E1.
Qed.

Lemma delete_packet_count p s : packet_count (delete_packet p s) = if dummy p then packet_count s else u32 (packet_count s - 1).
Proof. unfold delete_packet. by destruct (dummy p). Qed.

Lemma replicate_ran E S r n run d p l :
  run_spec r n run →
  ∀ w is_oam, l ≠ [] → Forall (branch_ok r w) l → inv (E + counts (Some p)) w → keys w ≡ₚ S ++ kept w →
  in_bounds (next_iter w + length l * Datatypes.S n) →
  finishes (replicate_to env run d l p is_oam w) (λ w', ran E S (length l * Datatypes.S n) w w' (next_iter w)).
Proof.
  intros Hrun. induction l as [|b l IH]; intros w is_oam Hne Hall Hi Hk Hbd; [done|]. clear Hne.
  apply Forall_cons in Hall as [(Hr & pl & Hb & Hact) Hall']. cbn [replicate_to]. rewrite Hb. cbn [deref mbind outcome_bind].
  destruct (branch_skipped d p pl is_oam) as [[skip is_oam']|]; [|done]. cbn [access mbind outcome_bind].
  cbn [length] in *. destruct skip.
  { destruct l as [|b' l].
    - cbn. eapply ran_weaken; [eapply (ran_pool (E + counts (Some p)) E); try done|lia]. cbn.
      rewrite delete_packet_count, (inv_pool _ _ Hi). destruct (dummy p); unfold u32; lia.
    - eapply finishes_mono; [apply (IH w is_oam'); try done; eapply in_bounds_le; [done | lia]|].
      intros w' H. eapply ran_weaken; [exact H | lia]. }
  destruct l as [|b' l].
  - eapply finishes_bind; [apply (process_ran E S r n run w b pl p); try done; eapply in_bounds_le; [done | lia]|].
    intros [] H. cbn in *. eapply ran_weaken; [exact H | lia].
  - destruct (copy_packet _ p (pool w)) as [[q pool']|] eqn:Ec; [|done]. cbn [access mbind outcome_bind].
    assert (dummy q = false ∧ packet_count pool' = u32 (packet_count (pool w) + 1)) as [Hq Hpc].
    { unfold copy_packet in Ec. by simplify_option_eq. }
    set (w1 := tick (w <| pool := pool' |>)).
    assert (inv (E + counts (Some p) + counts (Some q)) w1) as Hi1.
    { eapply (pool_inv _ _ w); try done. cbn. rewrite Hpc, Hq. f_equal. lia. }
    eapply finishes_bind; [eapply (process_ran _ S r n run w1); try done; cbn; eapply in_bounds_le; [done|cbn; lia]|].
    intros [ok w2] H2. cbn [snd] in H2. pose proof (ran_next _ _ _ _ _ _ H2) as Hn2. cbn in Hn2.
    assert (finishes (replicate_to env run d (b' :: l) p is_oam' w2)
      (λ w', ran E S (length (b' :: l) * Datatypes.S n) w2 w' (next_iter w2))) as Hrec.
    { apply IH; [done | | exact (ran_inv _ _ _ _ _ _ H2) | exact (ran_keys _ _ _ _ _ _ H2) |].
      - eapply Forall_impl; [done|]. intros x. apply branch_ok_program. exact (ran_program _ _ _ _ _ _ H2).
      - eapply in_bounds_le; [done|]. cbn in *. lia. }
    eapply finishes_mono; [exact Hrec|]. intros w3 H3.
    eapply (ran_trans _ E S (Datatypes.S n)); [|exact H3]. destruct H2. by split.
Qed.

(** ** Replication *)

(** The most iterators a run from a pipeline of rank [r] creates. *)
Fixpoint spawn (r : nat) : nat := match r with O => O | S r => K * S (spawn r) end.

(** The packet of a local step stays with its iterator. *)
Lemma local_lookup w w' h r pi :
  local w w' h r → iters w !! h = Some pi → ∃ p', iters w' !! h = Some (pi <| packet := Some p' |>).
Proof.
  intros [_ _ _ (pi' & p & p' & Hh & _ & _ & Ei) _ _] Hpi. simplify_eq. exists p'. rewrite Ei. apply lookup_insert_eq.
Qed.

Lemma local_frame w w' h r k : local w w' h r → k ≠ h → iters w' !! k = iters w !! k.
Proof. intros [_ _ _ (pi' & p & p' & _ & _ & _ & ->) _ _] Hk. by apply lookup_insert_ne. Qed.

(** Changing the packet or the position of an iterator. *)
Lemma iter_update_inv E E' w h pi pi' :
  inv E w → iters w !! h = Some pi → pipe pi' = pipe pi → E' = E + counts (packet pi) - counts (packet pi') →
  inv E' (w <| iters := <[h := pi']> (iters w) |>).
Proof.
  intros [Hf Hc Hr Hp Hi] Hh Hpi ->. split; cbn.
  - intros k. rewrite lookup_insert_is_Some'. intros [<-|Hk]; apply Hf; [by rewrite Hh | done].
  - eapply configured_mono; [done | intros a; by apply object_at_same | done].
  - intros id pl Hid. rewrite (Hr id pl Hid). unfold iters_on. cbn. rewrite (map_sum_update _ _ _ _ _ Hh).
    do 2 f_equal. unfold on_pipe. rewrite Hpi. lia.
  - rewrite Hp. unfold owned. cbn. rewrite (map_sum_update _ _ _ _ _ Hh). cbn. f_equal. lia.
  - intros k qi. destruct (decide (k = h)) as [->|Hne].
    + rewrite lookup_insert_eq. intros [= <-]. rewrite Hpi. eauto.
    + rewrite lookup_insert_ne by done. eauto.
Qed.

(** The replication object counts the packet and lets it pass. *)
Lemma repl_object_local w l o d h pi p :
  object_at w (ACTION_REPL l o d) → iters w !! h = Some pi → packet pi = Some p →
  finishes (match o with Some o => '(_, w) ← object_process env w o h; Ok w | None => Ok w end)
    (λ w', local w w' h ACR_CONTINUE).
Proof.
  intros Hob Hh Hp. destruct o as [o|].
  - destruct Hob as (s & n & Ho). pose proof (object_process_local w o h pi p ltac:(eauto) Hh Hp) as Hl.
    unfold object_process in *. rewrite Ho in *. cbn [deref mbind outcome_bind] in *. unfold iter_packet, set_packet in *.
    rewrite Hh in *. cbn [deref mbind outcome_bind] in *. rewrite Hp in *. cbn in *. by rewrite Hh in *.
  - cbn. apply (local_packet w w h pi p p); try done. by apply iters_same.
Qed.

Lemma repl_ran E S r run w l o d h pi p :
  run_spec r (spawn r) run → inv E w → keys w ≡ₚ h :: S ++ kept w → iters w !! h = Some pi → packet pi = Some p →
  object_at w (ACTION_REPL l o d) → l ≠ [] → (length l <= K)%nat → Forall (branch_ok r w) l →
  in_bounds (next_iter w + spawn (Datatypes.S r)) →
  finishes ('(res, w) ← action_REPL_execute env run w l o d h;
            match res with ACR_CONTINUE => w ← advance w h; run w h | ACR_DONE => delete_iterator w h | ACR_HOLD => Ok w end)
    (λ w', ran E S (spawn (Datatypes.S r)) w w' h).
Proof.
  intros Hrun Hi Hk Hh Hp Hob Hne Hlen Hall Hbd. unfold action_REPL_execute.
  pose proof (repl_object_local w l o d h pi p Hob Hh Hp) as Ho.
  destruct (match o with Some o => _ | None => _ end) as [w1| | |]; cbn in Ho; try done. cbn [mbind outcome_bind].
  destruct (local_lookup _ _ _ _ _ Ho Hh) as [p1 Hh1]. unfold iter_packet, set_packet. rewrite Hh1. cbn [deref mbind outcome_bind].
  change (packet (pi <| packet := Some p1 |>)) with (Some p1). cbn [deref mbind outcome_bind].
  set (w2 := w1 <| iters := <[h := pi <| packet := Some p1 |> <| packet := None |>]> (iters w1) |>).
  pose proof (local_inv _ _ _ _ _ Hi Ho) as Hi1. 
  assert (inv (E + counts (Some p1)) w2) as Hi2 by (eapply (iter_update_inv E); [done | done | done | cbn; lia]).
  assert (next_iter w2 = next_iter w) as En by exact (lo_next _ _ _ _ Ho).
  assert (keys w2 ≡ₚ (h :: S) ++ kept w2) as Hk2.
  { unfold keys at 1. cbn. rewrite (keys_update w1 h _ _ Hh1), (local_keys _ _ _ _ Ho), Hk.
    change (kept w2) with (kept w1). by rewrite (lo_kept _ _ _ _ Ho). }
  assert (length l * Datatypes.S (spawn r) <= spawn (Datatypes.S r))%nat as Hsp by (cbn; by apply Nat.mul_le_mono_r).
  assert (Forall (branch_ok r w2) l) as Hall2.
  { eapply Forall_impl; [done|]. intros x. by apply branch_ok_program, (local_program _ _ _ _ Ho). }
  pose proof (replicate_ran E (h :: S) r (spawn r) run d p1 l Hrun w2 None Hne Hall2 Hi2 Hk2) as Hrep.
  rewrite En in Hrep. specialize (Hrep ltac:(eapply in_bounds_le; [done | lia])).
  destruct (replicate_to env run d l p1 None w2) as [w3| | |]; cbn [mbind outcome_bind finishes] in *; try done.
  destruct Hrep as [Hi3 Hk3 Hn3 Hp3 Hf3]. rewrite En in *.
  assert (h < next_iter w)%nat as Hlt by (apply (inv_fresh _ _ Hi); eauto).
  edestruct (delete_iterator_ran E S w3 h) as (w4 & -> & H4); [done | | | by rewrite Hk3 |].
  { eapply in_bounds_le; [done | lia]. }
  { rewrite Hf3 by lia. apply lookup_insert_eq. }
  destruct H4 as [Hi4 Hk4 Hn4 Hp4 Hf4]. split; [done | done | lia | |].
  - rewrite Hp4, Hp3. exact (local_program _ _ _ _ Ho).
  - intros k Hkh Hkn. rewrite Hf4, Hf3 by lia. cbn. rewrite lookup_insert_ne by done. by apply (local_frame _ _ _ _ _ Ho).
Qed.

(** ** Runs *)

Lemma repl_or_not a : (∃ l o d, a = ACTION_REPL l o d) ∨ (∀ l o d, a ≠ ACTION_REPL l o d).
Proof. destruct a; try (by right); by left; eauto. Qed.

Lemma run_ran fuel : ∀ r E S w h pi p,
  inv E w → keys w ≡ₚ h :: S ++ kept w → iters w !! h = Some pi → packet pi = Some p →
  (rank (pipe pi) <= r)%nat → (Datatypes.S (L - pos_ pi) + r * Datatypes.S L <= fuel)%nat →
  in_bounds (next_iter w + spawn r) →
  finishes (pipe_iterator_run env fuel w h) (λ w', ran E S (spawn r) w w' h).
Proof.
  induction fuel as [|fuel IH]; intros r E S w h pi p Hi Hk Hh Hp Hr Hfuel Hbd; [lia|].
  cbn [pipe_iterator_run]. rewrite Hh. cbn [deref mbind outcome_bind].
  destruct (inv_pipe _ _ Hi _ _ Hh) as [pl Hpl]. rewrite Hpl. cbn [deref mbind outcome_bind].
  assert (in_bounds (next_iter w)) as Hb0 by (eapply in_bounds_le; [done | lia]).
  destruct (actions pl !! pos_ pi) as [a|] eqn:Ha.
  2: { destruct (delete_iterator_ran E S w h pi Hi Hb0 Hh Hk) as (w' & -> & H). cbn. eapply ran_weaken; [exact H | lia]. }
  destruct (inv_conf _ _ Hi _ _ Hpl) as (Hlen & _ & Hacts).
  destruct (Hacts a) as (Hok & Hob & Hbr); [by eapply list_elem_of_lookup_2|].
  pose proof (lookup_lt_Some _ _ _ Ha) as Hpos.
  destruct (repl_or_not a) as [(l & o & d & ->)|Hnr].
  - destruct Hbr as (Hne & HlK & Hbr). destruct r as [|r].
    { destruct l as [|b l]; [done|]. destruct (Hbr b) as [? _]; [constructor | lia]. }
    cbn [execute]. apply (repl_ran E S r (pipe_iterator_run env fuel) w l o d h pi p); try done.
    + intros E' S' w' h' pi' p' ? ? ? ? ? Hpos' ?. apply (IH r E' S' w' h' pi' p'); try done. rewrite Hpos'. cbn in Hfuel. lia.
    + apply Forall_forall. intros b Hb. destruct (Hbr b Hb) as (Hrb & pb & Hpb & Hab). split; [lia|]. eauto.
  - pose proof (execute_local (pipe_iterator_run env fuel) w a h pi p Hnr Hok Hob Hh Hp) as Hl.
    destruct (execute env _ w a h) as [[res w1]| | |]; try done. cbn [mbind outcome_bind].
    pose proof (local_inv _ _ _ _ _ Hi Hl) as Hi1. pose proof (local_keys _ _ _ _ Hl) as Hk1.
    pose proof (local_program _ _ _ _ Hl) as Hp1. pose proof (lo_next _ _ _ _ Hl) as Hn1.
    destruct (local_lookup _ _ _ _ _ Hl Hh) as [p1 Hh1]. pose proof (lo_kept _ _ _ _ Hl) as Hkept.
    destruct res; cbn in Hkept.
    + unfold advance. rewrite Hh1. cbn [deref mbind outcome_bind].
      set (pi2 := pi <| packet := Some p1 |> <| pos_ := _ |>). set (w2 := w1 <| iters := <[h := pi2]> (iters w1) |>).
      assert (inv E w2) as Hi2 by (eapply (iter_update_inv E); [done | done | done | cbn; lia]).
      eapply finishes_mono.
      * apply (IH r E S w2 h pi2 p1); try done; [|cbn; apply lookup_insert_eq | cbn; lia | by cbn; rewrite Hn1].
        unfold keys at 1. cbn. rewrite (keys_update w1 h _ _ Hh1), Hk1, Hk. change (kept w2) with (kept w1). by rewrite Hkept.
      * intros w3 [Hi3 Hk3 Hn3 Hp3 Hf3]. split; [done | done | cbn in Hn3; lia | by rewrite Hp3 |].
        intros k Hkh Hkn. rewrite Hf3 by (cbn; lia). cbn. rewrite lookup_insert_ne by done. by apply (local_frame _ _ _ _ _ Hl).
    + edestruct (delete_iterator_ran E S w1 h) as (w4 & -> & H4); [done | by rewrite Hn1 | done | by rewrite Hk1, Hk, Hkept |].
      destruct H4 as [Hi4 Hk4 Hn4 Hp4 Hf4]. cbn. split; [done | done | lia | by rewrite Hp4 |].
      intros k Hkh Hkn. rewrite Hf4 by lia. by apply (local_frame _ _ _ _ _ Hl).
    + cbn. split; [done | | lia | done |].
      * rewrite Hk1, Hk, Hkept. by rewrite Permutation_middle.
      * intros k Hkh Hkn. by apply (local_frame _ _ _ _ _ Hl).
Qed.
End runs.

(** C4: a run of a packet balances.  In a configured system, running an iterator
    to its end, with fuel for the actions of its pipeline and of one branch per
    level below it, always ends and follows no dangling pointer.  Unless an
    action accesses memory outside a buffer, afterwards every iterator that
    exists is kept by exactly one queue (the run's own one only if an action held
    it), the packets counted as allocated are the ones the iterators own plus the
    ones outside, the reference count of every pipeline is its configured
    references plus its iterators, and the pipelines are as before. *)
Theorem run_balanced env base rank L K fuel E w h pi p :
  inv base rank L K E w → keys w ≡ₚ h :: kept w → iters w !! h = Some pi → packet pi = Some p →
  (S L + rank (pipe pi) * S L <= fuel)%nat → in_bounds base (next_iter w + spawn K (rank (pipe pi))) →
  match pipe_iterator_run env fuel w h with
  | Ok w' => inv base rank L K E w' ∧ keys w' ≡ₚ kept w' ∧ program w' = program w
  | Fault => True
  | Dangling | NoFuel => False
  end.
Proof.
  intros Hi Hk Hh Hp Hf Hb.
  pose proof (run_ran env base rank L K fuel (rank (pipe pi)) E [] w h pi p Hi Hk Hh Hp ltac:(done) ltac:(lia) Hb) as H.
  destruct (pipe_iterator_run env fuel w h); try done. by destruct H.
Qed.

(** A talker: number the packet, replicate it to two interfaces. *)
Definition no_oam : OamDetect := mk_detect None 0 0 0.
Definition talker : gmap nat Pipeline :=
  {[ 0%nat := mk_pipeline [ACTION_SEQGEN 0; ACTION_REPL [1; 2]%nat None no_oam] 2 false "stream";
     1%nat := mk_pipeline [ACTION_SEND 10] 1 false "left";
     2%nat := mk_pipeline [ACTION_SEND 11] 1 false "right" ]}.
Definition talker_packet : Packet := (blank_packet zero_buf false) <| start := PACKET_START_OFFSET |> <| len := 100 |>.
Definition talker_world : World :=
  mk_world (mk_pool 1 1) {[ 0%nat := mk_iter (Some talker_packet) 0 0 ]} 1 talker
    {[ 0%nat := mk_object (PIPEOBJ_SEQGEN (Gen.new_seq_gen "gen" false false 0)) 1 ]} [] [] [] 0.
Definition talker_env : Env :=
  mk_env (λ _, mk_timespec 0 0) (λ _, zero_buf) (λ _, 0) (λ _, true) 0 (λ _, buf) (λ _ _, eq_refl).
Definition talker_rank (id : nat) : nat := if decide (id = 0%nat) then 1 else 0.

Lemma talker_pipe id pl :
  talker !! id = Some pl →
  id = 0%nat ∧ pl = mk_pipeline [ACTION_SEQGEN 0; ACTION_REPL [1; 2]%nat None no_oam] 2 false "stream" ∨
  id = 1%nat ∧ pl = mk_pipeline [ACTION_SEND 10] 1 false "left" ∨
  id = 2%nat ∧ pl = mk_pipeline [ACTION_SEND 11] 1 false "right".
Proof.
  unfold talker. intros [[<- <-]|[_ H]]%lookup_insert_Some; [by left|].
  apply lookup_insert_Some in H as [[<- <-]|[_ H]]; [by right; left|].
  apply lookup_singleton_Some in H as [<- <-]. by right; right.
Qed.

Lemma talker_configured : configured (λ _, 1) talker_rank 2 2 talker_world.
Proof.
  assert (∀ id i, action_ok (ACTION_SEND i) ∧ object_at talker_world (ACTION_SEND i) ∧
    branches_ok talker_rank 2 talker_world id (ACTION_SEND i)) as Hsend by done.
  intros id pl Hid. apply talker_pipe in Hid as [[-> ->]|[[-> ->]|[-> ->]]]; (split_and!; [cbn; lia | lia |]); cbn [actions];
    intros a.
  - intros [->|[->|[]%not_elem_of_nil]%elem_of_cons]%elem_of_cons; (split; [done|]).
    + split; [eexists; reflexivity | done].
    + split; [done|]. split; [done|]. split; [cbn; lia|]. intros b.
      intros [->|[->|[]%not_elem_of_nil]%elem_of_cons]%elem_of_cons;
        (split; [vm_compute; lia | eexists; split; [reflexivity | done]]).
  - by intros [->|[]%not_elem_of_nil]%elem_of_cons.
  - by intros [->|[]%not_elem_of_nil]%elem_of_cons.
Qed.

Lemma talker_inv : inv (λ _, 1) talker_rank 2 2 0 talker_world.
Proof.
  split.
  - intros h [x Hx]. cbn in Hx. apply lookup_singleton_Some in Hx as [<- _]. cbn. lia.
  - apply talker_configured.
  - intros id pl Hid. apply talker_pipe in Hid as [[-> ->]|[[-> ->]|[-> ->]]]; reflexivity.
  - reflexivity.
  - intros h pi Hx. cbn in Hx. apply lookup_singleton_Some in Hx as [<- <-]. eexists. reflexivity.
Qed.

Lemma run_balanced_witness :
  match pipe_iterator_run talker_env 6 talker_world 0 with
  | Ok w' => inv (λ _, 1) talker_rank 2 2 0 w' ∧ keys w' ≡ₚ kept w' ∧ program w' = program talker_world
  | Fault => True
  | Dangling | NoFuel => False
  end.
Proof.
  apply (run_balanced talker_env (λ _, 1) talker_rank 2 2 6 0 talker_world 0 (mk_iter (Some talker_packet) 0 0) talker_packet);
    [apply talker_inv | reflexivity | reflexivity | reflexivity | vm_compute; lia | intros id; vm_compute; reflexivity].
Defined.

(** The run of the example ends, with the packet sent on both interfaces and freed. *)
Example talker_run :
  match pipe_iterator_run talker_env 6 talker_world 0 with
  | Ok w' => packet_count (pool w') = 0 ∧ keys w' = [] ∧
      (λ e, if e is EvSend i p then Some (i, ntohl (sequence p)) else None) <$> trace w' = [Some (10%nat, 0); Some (11%nat, 0)]
  | _ => False
  end.
Proof. vm_compute. done. Qed.

End PipeRun.
