(* ===== verification/Replication.v ===== *)
(** * Replication of a packet (action_REPL_execute)

    The packet replication function: every branch that is not masked, and every
    branch at all for an OAM message, processes once a packet with the octets and
    the metadata of the original; a branch that sends puts these octets on its
    interface.  Proved on the heap of Pipeline.v with the ownership results of
    PipelineRun.v. *)

From S2P Require Import Prelude TimeUtils Protocol Packet Pof Action Object Pipeline PipelineRun.
Import Time Pkt POF(ActionResult(..)) Act Obj Pipe PipeRun.

Module Repl.

(** ** Copies *)

(** What a copy shares with its original. *)
Record same_content (p q : Packet) : Prop := {
  sc_wire : wire_bytes q = wire_bytes p;
  sc_headers : active q = active p;
  sc_seq : sequence q = sequence p;
  sc_stamp : timestamp q = timestamp p;
  sc_ttl : ttl q = ttl p;
  sc_origin : original_id q = original_id p
}.

Lemma same_content_refl p : same_content p p.
Proof. by split. Qed.

Lemma slice_prefix m m' a n k :
  take k m = take k m' → 0 <= a → 0 <= n → a + n <= Z.of_nat k → slice m a n = slice m' a n.
Proof.
  intros E Ha Hn Hk. unfold slice. rewrite !take_drop_commute. f_equal.
  replace (Z.to_nat a + Z.to_nat n)%nat with ((Z.to_nat a + Z.to_nat n) `min` k)%nat by lia.
  by rewrite <- !take_take, E.
Qed.

Lemma copy_packet_same junk p s :
  packet_wf p → length junk = Z.to_nat PACKET_BUF_LEN →
  ∃ q s', copy_packet junk p s = Some (q, s') ∧ packet_wf q ∧ same_content p q.
Proof.
  intros Hwf Hj. pose proof Hwf as [Hb Ha Hc Hs Hr Hh]. unfold_limits.
  unfold copy_packet. rewrite (u32_small (start p + len p)) by (unfold is_u32; lia).
  rewrite memcpy_Some by (rewrite ?Hb, ?Hj; lia). cbn [mbind option_bind]. do 2 eexists. split; [done|].
  set (k := Z.to_nat (start p + len p)).
  set (b := _ ++ _ ++ _).
  assert (length b = length (buf p)) as Hlen.
  { unfold b. rewrite !length_app, length_take, length_slice, length_drop by (rewrite ?Hb; lia). rewrite Hb, Hj. lia. }
  assert (take k b = take k (buf p)) as Epre.
  { unfold b, slice. change (Z.to_nat 0) with 0%nat. rewrite take_0, drop_0. cbn [app].
    rewrite take_app_le by (rewrite length_take, Hb; lia). rewrite take_take. f_equal. lia. }
  split.
  - split; unfold_limits; cbn; try done. by rewrite Hlen.
  - split; try done. unfold wire_bytes. cbn. f_equal. apply list_fmap_ext. intros i h Hi.
    destruct (decide (h_len h = 0)) as [E0|]; [unfold slice; by rewrite E0|].
    apply (slice_prefix _ _ _ _ k); [done|..]; destruct (proj1 (Forall_lookup _ _) Hh i h Hi) as (? & ? & [?|[?|?]]); lia.
Qed.

Section replication.
Context (env : Env) (base : nat → Z) (rank : nat → nat) (L K : nat).
#[local] Abbreviation inv := (inv base rank L K).
#[local] Abbreviation in_bounds := (in_bounds base).

Lemma delete_iterator_trace E w h pi :
  inv E w → in_bounds (next_iter w) → iters w !! h = Some pi →
  ∃ w', delete_iterator w h = Ok w' ∧ trace w' = trace w.
Proof.
  intros Hi Hb Hh. destruct (unref_survives base rank L K E w h pi Hi Hb Hh) as (pl & Hpl & Eu).
  unfold delete_iterator. rewrite Hh. cbn [deref mbind outcome_bind]. rewrite Eu. cbn [mbind outcome_bind].
  eexists. split; [done|]. by destruct (packet pi).
Qed.

(** Equations of the evaluator. *)
Lemma run_end fuel w h pi pl :
  iters w !! h = Some pi → pipes w !! pipe pi = Some pl → actions pl !! pos_ pi = None →
  pipe_iterator_run env (S fuel) w h = delete_iterator w h.
Proof. intros Hh Hp Ha. cbn [pipe_iterator_run]. rewrite Hh. cbn. rewrite Hp. cbn. by rewrite Ha. Qed.

Definition after_send (w : World) (h : nat) (pi : PipelineIterator) (i : nat) (p : Packet) : World :=
  w <| iters := <[h := pi <| packet := Some (p <| buf := sent env i p |>) |> <| pos_ := S (pos_ pi) |>]> (iters w) |>
    <| trace := trace w ++ [EvSend i p] |>
    <| reads := S (reads w) |>.

Lemma run_send fuel w h pi pl i p :
  iters w !! h = Some pi → pipes w !! pipe pi = Some pl → actions pl !! pos_ pi = Some (ACTION_SEND i) →
  packet pi = Some p → pipe_iterator_run env (S fuel) w h = pipe_iterator_run env fuel (after_send w h pi i p) h.
Proof.
  intros Hh Hp Ha Hpk. cbn [pipe_iterator_run]. rewrite Hh. cbn [deref mbind outcome_bind]. rewrite Hp.
  cbn [deref mbind outcome_bind]. rewrite Ha. cbn [execute]. unfold iter_packet, set_packet, advance. rewrite Hh.
  cbn [deref mbind outcome_bind]. rewrite Hpk. cbn -[pipe_iterator_run]. rewrite lookup_insert_eq. cbn -[pipe_iterator_run].
  by rewrite insert_insert_eq.
Qed.

(** A branch that sends: the packet goes out unchanged. *)
Lemma send_branch E St fuel w b pl i q :
  inv (E + counts (Some q)) w → keys w ≡ₚ St ++ kept w → pipes w !! b = Some pl → actions pl = [ACTION_SEND i] →
  in_bounds (S (next_iter w)) →
  ∃ w', pipeline_process (pipe_iterator_run env (S (S fuel))) w b 0 q = Ok (true, w') ∧
    trace w' = trace w ++ [EvSend i q] ∧ ran base rank L K E St 1 w w' (next_iter w).
Proof.
  intros Hi Hk Hb Hact Hbd. pose proof (started_inv base rank L K E w b pl q Hi Hb) as Hi1.
  unfold pipeline_process. rewrite Hb. cbn [deref mbind outcome_bind].
  rewrite bool_decide_eq_false_2 by (rewrite Hact; cbn; lia).
  unfold new_pipe_iterator, pipeline_ref. rewrite Hb. cbn [deref mbind outcome_bind].
  cbn -[pipe_iterator_run]. rewrite lookup_insert_eq. cbn -[pipe_iterator_run]. rewrite insert_insert_eq.
  set (w1 := started w b pl q) in *. set (h := next_iter w).
  change (∃ w', (w0 ← pipe_iterator_run env (S (S fuel)) w1 h; Ok (true, w0)) = Ok (true, w') ∧
    trace w' = trace w ++ [EvSend i q] ∧ ran base rank L K E St 1 w w' h).
  set (pi := mk_iter (Some q) b 0). set (pl1 := pl <| reference_count := i32 (reference_count pl + 1) |>).
  assert (iters w1 !! h = Some pi) as Hh1 by apply lookup_insert_eq.
  assert (pipes w1 !! pipe pi = Some pl1) as Hb1 by apply lookup_insert_eq.
  rewrite (run_send _ w1 h pi pl1 i q Hh1 Hb1) by (cbn; by rewrite ?Hact).
  assert (inv E (after_send w1 h pi i q)) as Hi2.
  { apply (pool_inv base rank L K E E (w1 <| iters := <[h := pi <| packet := Some (q <| buf := sent env i q |>) |> <| pos_ := 1%nat |>]> (iters w1) |>)); try done.
    - eapply (iter_update_inv _ _ _ _ E); [done | done | done | cbn; lia].
    - cbn. rewrite (inv_pool _ _ _ _ _ _ Hi). unfold u32. lia. }
  assert (iters (after_send w1 h pi i q) !! h = Some (pi <| packet := Some (q <| buf := sent env i q |>) |> <| pos_ := 1%nat |>)) as Hh2 by apply lookup_insert_eq.
  rewrite (run_end _ _ h (pi <| packet := Some (q <| buf := sent env i q |>) |> <| pos_ := 1%nat |>) pl1 Hh2) by (try done; cbn; by rewrite Hact).
  pose proof (fresh_None _ _ _ _ _ _ Hi) as Hn.
  destruct (delete_iterator_trace E _ h _ Hi2 Hbd Hh2) as (w' & Ed & Ht). 
  edestruct (delete_iterator_ran base rank L K E St) as (w'' & Ed' & Hran); [exact Hi2 | exact Hbd | exact Hh2 | |].
  { unfold keys at 1. cbn. rewrite insert_insert_eq, (keys_insert w _ _ Hn). by rewrite Hk. }
  rewrite Ed in *. injection Ed' as <-. exists w'. cbn. split_and!; [done | by rewrite Ht |].
  destruct Hran as [Hi' Hk' Hn' Hp' Hf']. cbn in Hn'. split; [done | done | lia | |].
  - rewrite Hp'. unfold program at 1. cbn. by apply program_refcount.
  - intros k Hne Hlt. rewrite Hf' by (cbn; lia). cbn. by rewrite !lookup_insert_ne.
Qed.

(** ** Replication to sending branches *)

(** The branches that get a data packet. *)
Definition unmasked (w : World) (l : list nat) : list nat :=
  filter (λ b, mask <$> pipes w !! b = Some false) l.

Definition sends_on (w : World) (p : Packet) (b : nat) (ev : Event) : Prop :=
  ∃ pl i q, pipes w !! b = Some pl ∧ actions pl = [ACTION_SEND i] ∧ ev = EvSend i q ∧ same_content p q.

Definition sending (w : World) (b : nat) : Prop := ∃ pl i, pipes w !! b = Some pl ∧ actions pl = [ACTION_SEND i].

Lemma sending_program w w' b : program w' = program w → sending w b → sending w' b.
Proof.
  intros E (pl & i & Hb & Ha). destruct (program_lookup w' w b pl (eq_sym E) Hb) as (pl' & Hb' & Ea & _).
  exists pl', i. by rewrite Ea.
Qed.

Lemma unmasked_program w w' l : program w' = program w → unmasked w' l = unmasked w l.
Proof.
  intros E. unfold unmasked. apply list_filter_iff. intros b.
  assert ((λ x, x.2) <$> program w' !! b = (λ x, x.2) <$> program w !! b) as H by (by rewrite E).
  unfold program in H. rewrite !lookup_fmap in H. destruct (pipes w !! b), (pipes w' !! b); cbn in *; [|done..].
  injection H as ->. done.
Qed.

Lemma sends_on_program w w' p b ev : program w' = program w → sends_on w' p b ev → sends_on w p b ev.
Proof.
  intros E (pl & i & q & Hb & Ha & ? & ?). destruct (program_lookup w w' b pl E Hb) as (pl' & Hb' & Ea & _).
  exists pl', i, q. by rewrite Ea.
Qed.

Lemma branch_skipped_data d p pl is_oam :
  packet_is_oam p d = Some false → is_oam ≠ Some true →
  branch_skipped d p pl is_oam = Some (mask pl, if mask pl then Some false else is_oam).
Proof. intros Hd Ho. unfold branch_skipped. destruct (mask pl); [|done]. destruct is_oam as [[]|]; [done | done |]. by rewrite Hd. Qed.

Lemma unmasked_cons w b l pl :
  pipes w !! b = Some pl → unmasked w (b :: l) = if mask pl then unmasked w l else b :: unmasked w l.
Proof.
  intros Hb. unfold unmasked. rewrite filter_cons, Hb. cbn. by destruct (mask pl).
Qed.

Lemma replicate_sends_run fuel d p l :
  packet_wf p → (∀ n, length (junk_buf env n) = Z.to_nat PACKET_BUF_LEN) → packet_is_oam p d = Some false →
  ∀ E St w is_oam, l ≠ [] → is_oam ≠ Some true → Forall (sending w) l →
  inv (E + counts (Some p)) w → keys w ≡ₚ St ++ kept w → in_bounds (next_iter w + length l) →
  ∃ w' evs, replicate_to env (pipe_iterator_run env (S (S fuel))) d l p is_oam w = Ok w' ∧
    trace w' = trace w ++ evs ∧ Forall2 (sends_on w p) (unmasked w l) evs.
Proof.
  intros Hwf Hj Hd. induction l as [|b l IH]; intros E St w is_oam Hne Ho Hall Hi Hk Hbd; [done|]. clear Hne.
  apply Forall_cons in Hall as [(pl & i & Hb & Ha) Hall]. cbn [replicate_to]. rewrite Hb. cbn [deref mbind outcome_bind].
  rewrite branch_skipped_data by done. cbn [access mbind outcome_bind]. rewrite (unmasked_cons _ _ _ _ Hb). cbn [length] in Hbd.
  assert (∀ n, (n <= next_iter w + S (length l))%nat → in_bounds n) as Hle by (intros; eapply in_bounds_le; done).
  destruct (mask pl) eqn:Em.
  { destruct l as [|b' l].
    - exists (w <| pool := delete_packet p (pool w) |>), []. cbn. by rewrite app_nil_r.
    - eapply (IH E St); try done. apply Hle. cbn. lia. }
  destruct l as [|b' l].
  - destruct (send_branch E St fuel w b pl i p) as (w' & -> & Ht & _); try done; [apply Hle; cbn; lia|].
    exists w', [EvSend i p]. split_and!; [done | done |]. repeat constructor. exists pl, i, p. by split_and!; try apply same_content_refl.
  - destruct (copy_packet_same (junk_buf env (reads w)) p (pool w) Hwf (Hj _)) as (q & s' & Ec & _ & Hs). rewrite Ec.
    assert (dummy q = false ∧ packet_count s' = u32 (packet_count (pool w) + 1)) as [Hq Hpc].
    { unfold copy_packet in Ec. by simplify_option_eq. }
    cbn [access mbind outcome_bind]. set (w1 := tick (w <| pool := s' |>)).
    assert (inv (E + counts (Some p) + counts (Some q)) w1) as Hi1.
    { eapply (pool_inv _ _ _ _ _ _ w); try done. cbn. rewrite Hpc, Hq. f_equal. lia. }
    destruct (send_branch (E + counts (Some p)) St fuel w1 b pl i q) as (w2 & -> & Ht & Hr); try done; [apply Hle; cbn; lia|].
    cbn [mbind outcome_bind]. destruct Hr as [Hi2 Hk2 Hn2 Hp2 _]. cbn in Hn2.
    edestruct (IH E St w2 is_oam) as (w3 & evs & -> & Ht3 & H3); try done.
    + eapply Forall_impl; [done|]. intros x. by apply sending_program.
    + apply Hle. cbn. lia.
    + exists w3, (EvSend i q :: evs). split_and!; [done | by rewrite Ht3, Ht, <- app_assoc |].
      change (program w1) with (program w) in Hp2. rewrite (unmasked_program _ _ _ Hp2) in H3. constructor.
      * exists pl, i, q. done.
      * eapply Forall2_impl; [done|]. intros x ev. by apply sends_on_program.
Qed.

(** ** Replication to any branches *)

(** The branches that get the packet: all of them when it is an OAM message. *)
Definition receivers (oam : bool) (w : World) (l : list nat) : list nat := if oam then l else unmasked w l.

Lemma receivers_program oam w w' l : program w' = program w → receivers oam w' l = receivers oam w l.
Proof. intros E. destruct oam; [done | by apply unmasked_program]. Qed.

Lemma receivers_cons oam w b l pl :
  pipes w !! b = Some pl → receivers oam w (b :: l) = if mask pl && negb oam then receivers oam w l else b :: receivers oam w l.
Proof. intros Hb. destruct oam; cbn [receivers]; [by rewrite andb_false_r|]. rewrite (unmasked_cons _ _ _ _ Hb). by destruct (mask pl). Qed.

(** Only the count of packets and the number of readings differ. *)
Definition quiet (w w' : World) : Prop := w' = w <| pool := pool w' |> <| reads := reads w' |>.

(** The branches [bs] process the packet [p] or copies of it, one after the other. *)
Inductive fed (run : World → nat → Outcome World) (p : Packet) : list nat → World → World → Prop :=
  | fed_nil w w' : quiet w w' → fed run p [] w w'
  | fed_cons b bs w w1 q ok w2 w3 :
      quiet w w1 → packet_wf q → same_content p q → pipeline_process run w1 b 0 q = Ok (ok, w2) →
      fed run p bs w2 w3 → fed run p (b :: bs) w w3.

(** The result of a replication: the branches were fed, or the pipeline of one of
    them made an access outside a buffer. *)
Definition feeds (run : World → nat → Outcome World) (p : Packet) (bs : list nat) (w : World) (out : Outcome World) : Prop :=
  match out with
  | Ok w' => fed run p bs w w'
  | Fault => ∃ bs1 b bs2 w1 w2 q, bs = bs1 ++ b :: bs2 ∧ fed run p bs1 w w1 ∧ quiet w1 w2 ∧ same_content p q ∧
               pipeline_process run w2 b 0 q = Fault
  | Dangling | NoFuel => False
  end.

Lemma feeds_cons run p b bs w w1 q ok w2 out :
  quiet w w1 → packet_wf q → same_content p q → pipeline_process run w1 b 0 q = Ok (ok, w2) →
  feeds run p bs w2 out → feeds run p (b :: bs) w out.
Proof.
  intros Hw Hq Hs E Hf. destruct out; cbn in *; try done; [by eapply fed_cons|].
  destruct Hf as (bs1 & b' & bs2 & w3 & w4 & q' & -> & Hf & ?). exists (b :: bs1), b', bs2, w3, w4, q'. split; [done|]. split; [by eapply fed_cons | done].
Qed.

Lemma branch_skipped_oam d p pl is_oam oam :
  packet_is_oam p d = Some oam → is_oam = None ∨ is_oam = Some oam →
  ∃ is_oam', branch_skipped d p pl is_oam = Some (mask pl && negb oam, is_oam') ∧ (is_oam' = None ∨ is_oam' = Some oam).
Proof.
  intros Hd Ho. unfold branch_skipped. destruct (mask pl); [|by exists is_oam]. exists (Some oam).
  destruct Ho as [->| ->]; cbn; [rewrite Hd; cbn|]; auto.
Qed.

Lemma quiet_pool w s : quiet w (w <| pool := s |>).
Proof. by destruct w. Qed.
Lemma quiet_tick w s : quiet w (tick (w <| pool := s |>)).
Proof. done. Qed.
Lemma quiet_refl w : quiet w w.
Proof. by destruct w. Qed.

Lemma replicate_feeds r n run d p oam l :
  run_spec base rank L K r n run → packet_wf p → (∀ k, length (junk_buf env k) = Z.to_nat PACKET_BUF_LEN) → packet_is_oam p d = Some oam →
  ∀ E St w is_oam, l ≠ [] → is_oam = None ∨ is_oam = Some oam → Forall (branch_ok rank r w) l →
  inv (E + counts (Some p)) w → keys w ≡ₚ St ++ kept w → in_bounds (next_iter w + length l * S n) →
  feeds run p (receivers oam w l) w (replicate_to env run d l p is_oam w).
Proof.
  intros Hrun Hwf Hj Hd. induction l as [|b l IH]; intros E St w is_oam Hne Ho Hall Hi Hk Hbd; [done|]. clear Hne.
  apply Forall_cons in Hall as [(Hr & pl & Hb & Hact) Hall]. cbn [replicate_to]. rewrite Hb. cbn [deref mbind outcome_bind].
  destruct (branch_skipped_oam d p pl is_oam oam Hd Ho) as (is_oam' & -> & Ho'). cbn [access mbind outcome_bind].
  rewrite (receivers_cons _ _ _ _ _ Hb). cbn [length] in Hbd.
  assert (∀ k, (k <= next_iter w + S (length l) * S n)%nat → in_bounds k) as Hle by (intros; eapply in_bounds_le; done).
  destruct (mask pl && negb oam).
  { destruct l as [|b' l].
    - cbn [replicate_to feeds]. replace (receivers oam w []) with (@nil nat) by (by destruct oam). apply fed_nil, quiet_pool.
    - eapply (IH E St); try done. apply Hle. cbn. lia. }
  destruct l as [|b' l].
  - pose proof (process_ran base rank L K E St r n run w b pl p Hrun Hi Hk Hb Hact Hr ltac:(apply Hle; cbn; lia)) as Hp.
    replace (receivers oam w []) with (@nil nat) by (by destruct oam).
    destruct (pipeline_process run w b 0 p) as [[ok w2]| | |] eqn:Ep; try done; cbn [mbind outcome_bind].
    + eapply (feeds_cons _ _ _ _ _ w p); [apply quiet_refl | done | apply same_content_refl | exact Ep |]. apply fed_nil, quiet_refl.
    + exists [], b, [], w, w, p. split_and!; [done | apply fed_nil, quiet_refl | apply quiet_refl | apply same_content_refl | done].
  - destruct (copy_packet_same (junk_buf env (reads w)) p (pool w) Hwf (Hj _)) as (q & s' & Ec & Hwq & Hs). rewrite Ec.
    assert (dummy q = false ∧ packet_count s' = u32 (packet_count (pool w) + 1)) as [Hq Hpc].
    { unfold copy_packet in Ec. by simplify_option_eq. }
    cbn [access mbind outcome_bind]. set (w1 := tick (w <| pool := s' |>)).
    assert (inv (E + counts (Some p) + counts (Some q)) w1) as Hi1.
    { eapply (pool_inv _ _ _ _ _ _ w); try done. cbn. rewrite Hpc, Hq. f_equal. lia. }
    pose proof (process_ran base rank L K (E + counts (Some p)) St r n run w1 b pl q Hrun Hi1 Hk Hb Hact Hr ltac:(apply Hle; cbn; lia)) as Hp.
    destruct (pipeline_process run w1 b 0 q) as [[ok w2]| | |] eqn:Ep; try done; cbn [mbind outcome_bind finishes snd] in *.
    + destruct Hp as [Hi2 Hk2 Hn2 Hp2 _]. cbn in Hn2. change (program w1) with (program w) in Hp2.
      eapply (feeds_cons _ _ _ _ _ w1 q); [apply quiet_tick | done | done | exact Ep |].
      rewrite <- (receivers_program _ _ _ _ Hp2). eapply (IH E St w2); try done.
      * eapply Forall_impl; [done|]. intros x. by apply branch_ok_program.
      * apply Hle. cbn in *. lia.
    + exists [], b, (receivers oam w (b' :: l)), w, w1, q. split_and!; [done | apply fed_nil, quiet_refl | apply quiet_tick | done | done].
Qed.
End replication.

(** C19: packet replication.  A packet, data or OAM, that reaches a replication is
    processed once by the pipeline of every branch that is not masked (an OAM
    message by every branch), in the order of the branches, and by no other:
    each of them gets, from its first action on, the packet or a copy with the same
    header list, octets, sequence number, time stamp and TTL.  The replication
    uses no deleted pipeline and ends; only the pipeline of a branch may make an
    access outside a buffer. *)
Theorem replicate_branches env base rank L K r fuel d p oam l E St w :
  packet_wf p → (∀ n, length (junk_buf env n) = Z.to_nat PACKET_BUF_LEN) → packet_is_oam p d = Some oam →
  l ≠ [] → Forall (branch_ok rank r w) l → PipeRun.inv base rank L K (E + counts (Some p)) w → keys w ≡ₚ St ++ kept w →
  PipeRun.in_bounds base (next_iter w + length l * S (spawn K r)) → (S L + r * S L <= fuel)%nat →
  let run := pipe_iterator_run env fuel in
  feeds run p (receivers oam w l) w (replicate_to env run d l p None w).
Proof.
  intros Hwf Hj Hd Hne Hall Hi Hk Hbd Hfuel. eapply (replicate_feeds _ base rank L K r (spawn K r)); try done; [|by left].
  intros E' S' w' h' pi' p' ? ? ? ? ? Hpos ?. apply (run_ran env base rank L K fuel r E' S' w' h' pi' p'); try done. rewrite Hpos. lia.
Qed.

(** Replication to sending branches.  A data packet that reaches a replication whose
    branches send on an interface is sent once on every branch that is not
    masked, in the order of the branches, with the header list, the octets, the
    sequence number, the time stamp and the TTL of the original, and on no masked
    branch. *)
Theorem replicate_sends env base rank L K fuel d p l E St w :
  packet_wf p → (∀ n, length (junk_buf env n) = Z.to_nat PACKET_BUF_LEN) → packet_is_oam p d = Some false →
  l ≠ [] → Forall (sending w) l → PipeRun.inv base rank L K (E + counts (Some p)) w → keys w ≡ₚ St ++ kept w →
  PipeRun.in_bounds base (next_iter w + length l) →
  ∃ w' evs, replicate_to env (pipe_iterator_run env (S (S fuel))) d l p None w = Ok w' ∧
    trace w' = trace w ++ evs ∧ Forall2 (sends_on w p) (unmasked w l) evs.
Proof. intros. by eapply replicate_sends_run. Qed.

(** The talker of PipelineRun.v with the right branch masked. *)
Definition masked_world : World :=
  talker_world <| iters := ∅ |> <| pipes := <[2%nat := mk_pipeline [ACTION_SEND 11] 1 true "right"]>
    (<[0%nat := mk_pipeline [ACTION_SEQGEN 0; ACTION_REPL [1; 2]%nat None no_oam] 1 false "stream"]> talker) |>.

Lemma talker_packet_wf : packet_wf talker_packet.
Proof. by split. Qed.

(** Only the reference counts and the mask differ from the talker. *)
Lemma masked_pipe id pl :
  pipes masked_world !! id = Some pl → ∃ pl', talker !! id = Some pl' ∧ actions pl = actions pl' ∧ reference_count pl = 1.
Proof.
  unfold masked_world. cbn. intros [[<- <-]|[_ H]]%lookup_insert_Some; [by eexists; split_and!|].
  apply lookup_insert_Some in H as [[<- <-]|[Hne H]]; [by eexists; split_and!|].
  exists pl. split_and!; [done | done |]. apply talker_pipe in H as [[-> ?]|[[-> ->]|[-> ->]]]; done.
Qed.

Lemma masked_inv : PipeRun.inv (λ _, 1) talker_rank 2 2 (0 + counts (Some talker_packet)) masked_world.
Proof.
  split.
  - intros h [x Hx]. cbn in Hx. by rewrite lookup_empty in Hx.
  - intros id pl Hid. destruct (masked_pipe id pl Hid) as (pl' & Hpl' & -> & _).
    destruct (talker_configured id pl' Hpl') as (Hl & Hb & Ha). split_and!; [done | done |].
    intros a Hin. destruct (Ha a Hin) as (? & Hob & Hbr). split_and!; [done | done |].
    destruct a; try done. destruct Hbr as (Hne & Hlen & Hbr). split_and!; [done | done |]. intros b Hin'.
    destruct (Hbr b Hin') as (Hr & pb & Hpb & Hab). split; [done|]. cbn in Hpb.
    apply talker_pipe in Hpb as [[-> ->]|[[-> ->]|[-> ->]]]; eexists; (split; [reflexivity | done]).
  - intros id pl Hid. destruct (masked_pipe id pl Hid) as (_ & _ & _ & ->). reflexivity.
  - reflexivity.
  - intros h pi Hx. cbn in Hx. by rewrite lookup_empty in Hx.
Qed.

Lemma replicate_branches_witness :
  feeds (pipe_iterator_run talker_env 3) talker_packet [1%nat] masked_world
    (replicate_to talker_env (pipe_iterator_run talker_env 3) no_oam [1; 2]%nat talker_packet None masked_world).
Proof.
  apply (replicate_branches talker_env (λ _, 1) talker_rank 2 2 0 3 no_oam talker_packet false [1; 2]%nat 0 [] masked_world).
  - apply talker_packet_wf.
  - reflexivity.
  - reflexivity.
  - discriminate.
  - repeat constructor; eexists; (split; [reflexivity | discriminate]).
  - apply masked_inv.
  - reflexivity.
  - intros id. cbn. lia.
  - cbn. lia.
Defined.

Lemma replicate_sends_witness :
  ∃ w' evs, replicate_to talker_env (pipe_iterator_run talker_env 2) no_oam [1; 2]%nat talker_packet None masked_world = Ok w' ∧
    trace w' = [] ++ evs ∧ Forall2 (sends_on masked_world talker_packet) (unmasked masked_world [1; 2]%nat) evs.
Proof.
  apply (replicate_sends talker_env (λ _, 1) talker_rank 2 2 0 no_oam talker_packet [1; 2]%nat 0 [] masked_world).
  - apply talker_packet_wf.
  - reflexivity.
  - reflexivity.
  - discriminate.
  - repeat constructor; do 2 eexists; (split; reflexivity).
  - apply masked_inv.
  - reflexivity.
  - intros id. cbn. lia.
Defined.

End Repl.
