(* ===== verification/CString.v ===== *)
(** * C strings

    The part of the C library that the configuration code uses to take text
    apart: character classes, [strchr], [strtoull] with base 0, the numeric
    conversions of [sscanf], and [inet_pton].  A string has no NUL inside.

    [Res] is the result of configuration code: a value, a reported error, or an
    access through a null pointer. *)

From S2P Require Import Prelude.
From Stdlib Require Import QArith Ascii.

#[global] Open Scope Z_scope.

Module CStr.

Inductive Res (A : Type) := Good (a : A) | Err | Crash.
Arguments Good {A}.
Arguments Err {A}.
Arguments Crash {A}.

#[global] Instance res_bind : MBind Res := λ A B f m,
  match m with Good a => f a | Err => Err | Crash => Crash end.
#[global] Instance res_ret : MRet Res := λ A, Good.
#[global] Instance res_fmap : FMap Res := λ A B f m,
  match m with Good a => Good (f a) | Err => Err | Crash => Crash end.

(** [NULL] is an error for the caller. *)
Definition or_err {A} (o : option A) : Res A := if o is Some a then Good a else Err.
Definition check (b : bool) : Res unit := if b then Good () else Err.

Lemma bind_Good {A B} (f : A → Res B) m b : m ≫= f = Good b ↔ ∃ a, m = Good a ∧ f a = Good b.
Proof. destruct m; cbn; split; [eauto | by intros (? & [= <-] & ?) | done | by intros (? & ? & ?) | done | by intros (? & ? & ?)]. Qed.

Lemma or_err_Good {A} (o : option A) a : or_err o = Good a ↔ o = Some a.
Proof. destruct o; cbn; split; congruence. Qed.

Lemma check_Good b u : check b = Good u ↔ b = true.
Proof. destruct u, b; cbn; split; congruence. Qed.

(** Takes a successful run of the monad apart. *)
Ltac res_inv H :=
  repeat match type of H with
  | mbind _ _ = Good _ => let a := fresh "r" in let E := fresh "E" in
      apply bind_Good in H as (a & E & H)
  end.

(** The value of a successful run, without reducing it. *)
Ltac good_subst H :=
  match type of H with Good ?x = Good ?y => assert (y = x) as -> by congruence; clear H end.

Definition is_good {A} (r : Res A) : bool := if r is Good _ then true else false.

Lemma is_good_ex {A} (r : Res A) : is_good r = true → ∃ a, r = Good a.
Proof. destruct r; cbn; [eauto|done..]. Qed.

(** The action on every element, stopping at the first failure. *)
Fixpoint foreach {S} (cb : string → S → Res S) (l : list string) (s : S) : Res S :=
  match l with
  | [] => Good s
  | t :: l => s ← cb t s; foreach cb l s
  end.

Lemma foreach_inv {S} (P : S → Prop) (cb : string → S → Res S) l s s' :
  (∀ t s s', P s → cb t s = Good s' → P s') → P s → foreach cb l s = Good s' → P s'.
Proof.
  intros Hcb. revert s. induction l as [|t l IH]; intros s Hs H; cbn in H; [by injection H as <-|].
  res_inv H. eauto.
Qed.

(** ** Characters *)

Definition code (c : ascii) : Z := Z.of_N (N_of_ascii c).

Definition isspace (c : ascii) : bool := (code c =? 32) || (9 <=? code c) && (code c <=? 13).

(** The value of a digit in the bases up to 16. *)
Definition digit (base : Z) (c : ascii) : option Z :=
  let n := code c in
  let v := if (48 <=? n) && (n <=? 57) then n - 48
           else if (97 <=? n) && (n <=? 102) then n - 87
           else if (65 <=? n) && (n <=? 70) then n - 55 else 16 in
  if v <? base then Some v else None.

Definition is_char (s : string) (c : ascii) : bool :=
  if s is String d _ then Ascii.eqb c d else false.

(** One of the two characters comes next. *)
Definition skip_char (c d : ascii) (s : string) : option string :=
  if s is String x s then if Ascii.eqb x c || Ascii.eqb x d then Some s else None else None.

Fixpoint skip_space (s : string) : string :=
  if s is String c s' then if isspace c then skip_space s' else s else s.

(** [strchr]: the text before the first [c] and the text after it. *)
Fixpoint strchr (c : ascii) (s : string) : option (string * string) :=
  match s with
  | EmptyString => None
  | String d s =>
      if Ascii.eqb c d then Some (EmptyString, s)
      else '(a, b) ← strchr c s; Some (String d a, b)
  end.

(** The word at the start: the text up to the first white space, and the text
    after that character. *)
Fixpoint word (s : string) : string * option string :=
  match s with
  | EmptyString => (EmptyString, None)
  | String c s =>
      if isspace c then (EmptyString, Some s)
      else let '(a, b) := word s in (String c a, b)
  end.

(** ** Numbers *)

(** The digits at the start: their value after [acc], whether there was one, the rest. *)
Fixpoint digits (base : Z) (acc : Z) (seen : bool) (s : string) : Z * bool * string :=
  match s with
  | EmptyString => (acc, seen, s)
  | String c s' =>
      match digit base c with
      | Some d => digits base (base * acc + d) true s'
      | None => (acc, seen, s)
      end
  end.

Definition sign (s : string) : Z * string :=
  match skip_char "-"%char "-"%char s with
  | Some s => (-1, s)
  | None => match skip_char "+"%char "+"%char s with Some s => (1, s) | None => (1, s) end
  end.

(** The digits after an optional [0x] that is followed by a hexadecimal digit. *)
Definition hex_body (s : string) : option string :=
  s ← skip_char "0"%char "0"%char s; s ← skip_char "x"%char "X"%char s;
  if s is String c _ then _ ← digit 16 c; Some s else None.

Definition UINT64_MAX : Z := 18446744073709551615.

(** [strtoull(s, &end, 0)]: the value, whether [errno] becomes [ERANGE], and the
    text at [end]; [None] when there is no number. *)
Definition strtoull (s : string) : option (Z * bool * string) :=
  let '(sg, s) := sign (skip_space s) in
  let '(n, seen, rest) :=
    match hex_body s with
    | Some h => digits 16 0 false h
    | None => digits (if is_char s "0"%char then 8 else 10) 0 false s
    end in
  if negb seen then None
  else if n >? UINT64_MAX then Some (UINT64_MAX, true, rest)
  else Some (u64 (sg * n), false, rest).

(** [%u] and [%d] of [sscanf] followed by [%c] give one conversion: nothing is
    left.  The number goes through [strtoul] or [strtol] and is truncated. *)
Definition scan_u32 (s : string) : option Z :=
  let '(sg, s) := sign (skip_space s) in
  match digits 10 0 false s with
  | (n, true, EmptyString) => Some (u32 (if n >? UINT64_MAX then UINT64_MAX else sg * n))
  | _ => None
  end.

Definition clamp_i64 (z : Z) : Z := Z.max (-9223372036854775808) (Z.min 9223372036854775807 z).

Definition scan_i32 (s : string) : option Z :=
  let '(sg, s) := sign (skip_space s) in
  match digits 10 0 false s with
  | (n, true, EmptyString) => Some (i32 (clamp_i64 (sg * n)))
  | _ => None
  end.

(** [%d] of [sscanf] goes through [strtol]: the value before it is truncated,
    and the text behind it. *)
Definition scan_int_at (s : string) : option (Z * string) :=
  let '(sg, s) := sign (skip_space s) in
  match digits 10 0 false s with
  | (n, true, rest) => Some (clamp_i64 (sg * n), rest)
  | _ => None
  end.

(** [%2hhx]: at most two characters, of which a sign or [0x] take their share. *)
Definition scan_hh2 (s : string) : option (Z * string) :=
  match skip_space s with
  | String c s' =>
      match digit 16 c with
      | Some a =>
          match s' with
          | String d s'' =>
              match digit 16 d with
              | Some b => Some (16 * a + b, s'')
              | None => if (a =? 0) && (Ascii.eqb d "x"%char || Ascii.eqb d "X"%char) then Some (0, s'')
                        else Some (a, s')
              end
          | EmptyString => Some (a, s')
          end
      | None =>
          if Ascii.eqb c "-"%char || Ascii.eqb c "+"%char then
            match s' with
            | String d s'' => b ← digit 16 d; Some (u8 (if Ascii.eqb c "-"%char then - b else b), s'')
            | EmptyString => None
            end
          else None
      end
  | EmptyString => None
  end.

(** ** Floating point

    The value of a [float]: a rational number, an infinity or not a number. *)

Inductive Float := Fnum (q : Q) | Finf (neg : bool) | Fnan.

(** The mantissa: digits, a point, digits; the value, the number of digits
    after the point, whether there was a digit, and the rest. *)
Definition mantissa (base : Z) (s : string) : Z * Z * bool * string :=
  let '(n, seen, rest) := digits base 0 false s in
  match skip_char "."%char "."%char rest with
  | Some frac =>
      let '(m, seen', rest') := digits base n seen frac in
      if seen' then (m, Z.of_nat (String.length frac) - Z.of_nat (String.length rest'), true, rest')
      else (n, 0, false, rest)
  | None => (n, 0, seen, rest)
  end.

Definition pow_q (base e : Z) : Q :=
  if 0 <=? e then inject_Z (base ^ e) else / inject_Z (base ^ (- e)).

(** An exponent, zero when there is none. *)
Definition exponent (c d : ascii) (s : string) : option (Z * string) :=
  match skip_char c d s with
  | Some s =>
      let '(sg, s) := sign s in
      let '(n, seen, rest) := digits 10 0 false s in
      if seen then Some (sg * n, rest) else None
  | None => Some (0, s)
  end.

(** The nearest number with a mantissa of 24 bits and an exponent of at least
    -149, ties to even; at least [2^128 - 2^103] becomes infinite. *)
Definition round_half_even (q : Q) : Z :=
  let n := Qnum q in let d := Zpos (Qden q) in
  let f := n / d in
  let r := 2 * (n mod d) in
  if r <? d then f else if r >? d then f + 1 else if Z.even f then f else f + 1.

Definition to_float (neg : bool) (q : Q) : Float :=
  if Qle_bool q 0 then Fnum 0
  else
    let e0 := Z.log2 (Qnum q) - Z.log2 (Zpos (Qden q)) in
    let e := if Qle_bool (pow_q 2 e0) q then e0 else e0 - 1 in
    let ulp := pow_q 2 (Z.max (e - 23) (-149)) in
    let r := Qred (inject_Z (round_half_even (Qdiv q ulp)) * ulp) in
    if Qle_bool (inject_Z (2 ^ 128)) r then Finf neg
    else Fnum (if neg then Qopp r else r).

Definition float_zero : Float := Fnum 0.

(** A word regardless of its case. *)
Fixpoint skip_word (w s : string) : option string :=
  match w, s with
  | EmptyString, _ => Some s
  | String c w, String d s =>
      if (code c =? code d) || (code c =? code d + 32) then skip_word w s else None
  | _, _ => None
  end.

Definition scan_number (base : Z) (c d : ascii) (eb : Z) (neg : bool) (s : string) : option (Float * string) :=
  let '(m, fd, seen, rest) := mantissa base s in
  if negb seen then None
  else
    '(e, rest) ← exponent c d rest;
    Some (to_float neg (Qmult (inject_Z m) (Qmult (pow_q base (- fd)) (pow_q eb e))), rest).

(** [%f] of [sscanf]: the number and the text behind it. *)
Definition scan_float_at (s : string) : option (Float * string) :=
  let '(sg, s) := sign (skip_space s) in
  let neg := sg <? 0 in
  match skip_word "infinity" s with
  | Some rest => Some (Finf neg, rest)
  | None =>
  match skip_word "inf" s with
  | Some rest => Some (Finf neg, rest)
  | None =>
  match skip_word "nan" s with
  | Some rest => Some (Fnan, rest)
  | None =>
  match hex_body s with
  | Some h => scan_number 16 "p"%char "P"%char 2 neg h
  | None => scan_number 10 "e"%char "E"%char 10 neg s
  end end end end.

(** [%f] of [sscanf] followed by [%c] gives one conversion. *)
Definition scan_float (s : string) : option Float :=
  match scan_float_at s with Some (f, EmptyString) => Some f | _ => None end.

(** Comparison with an integer; every comparison with NaN is false. *)
Definition float_le (f : Float) (z : Z) : bool :=
  match f with Fnum q => Qle_bool q (inject_Z z) | Finf neg => neg | Fnan => false end.
Definition float_ge (f : Float) (z : Z) : bool :=
  match f with Fnum q => Qle_bool (inject_Z z) q | Finf neg => negb neg | Fnan => false end.
Definition float_eq (f : Float) (z : Z) : bool :=
  if f is Fnum q then Qeq_bool q (inject_Z z) else false.

(** [(unsigned)f]: truncation; out of range it is undefined. *)
Definition float_to_u32 (f : Float) : option Z :=
  match f with
  | Fnum q => let z := Z.quot (Qnum q) (Zpos (Qden q)) in
              if (0 <=? z) && (z <? 4294967296) then Some z else None
  | _ => None
  end.

(** ** Internet addresses *)

(** [inet_pton(AF_INET)]: four decimal numbers below 256 without leading zeros.
    [done] are the finished octets, [cur] the octet that is being read. *)
Fixpoint pton4 (s : string) (done : list Z) (cur : option Z) : option (list Z) :=
  match s with
  | EmptyString =>
      c ← cur; if decide (length done = 3)%nat then Some (done ++ [c]) else None
  | String c s =>
      match digit 10 c with
      | Some d =>
          match cur with
          | Some 0 => None
          | Some x => if 10 * x + d >? 255 then None else pton4 s done (Some (10 * x + d))
          | None => pton4 s done (Some d)
          end
      | None =>
          x ← cur;
          if Ascii.eqb c "."%char then
            if decide (length done = 3)%nat then None else pton4 s (done ++ [x]) None
          else None
      end
  end.

Definition inet_pton4 (s : string) : option (list Z) := pton4 s [] None.

(** [inet_pton(AF_INET6)]: [done] are the octets so far, [gap] the position of
    [::], [cur] the group that is being read with its number of digits, [tok]
    the text from the start of that group (for a trailing IPv4 address). *)
Definition pton6_end (done : list Z) (gap : option nat) : option (list Z) :=
  match gap with
  | Some g =>
      if decide (length done = 16)%nat then None
      else Some (take g done ++ replicate (16 - length done) 0 ++ drop g done)
  | None => if decide (length done = 16)%nat then Some done else None
  end.

Definition pton6_group (done : list Z) (x : Z) : option (list Z) :=
  if decide (length done + 2 <= 16)%nat then Some (done ++ [x / 256; x mod 256]) else None.

Fixpoint pton6 (s : string) (done : list Z) (gap : option nat) (cur : option (Z * nat)) (tok : string)
    : option (list Z) :=
  match s with
  | EmptyString =>
      match cur with
      | Some (x, _) => done ← pton6_group done x; pton6_end done gap
      | None => pton6_end done gap
      end
  | String c s =>
      match digit 16 c with
      | Some d =>
          match cur with
          | Some (x, n) => if decide (n = 4)%nat then None else pton6 s done gap (Some (16 * x + d, S n)) tok
          | None => pton6 s done gap (Some (d, 1%nat)) tok
          end
      | None =>
          if Ascii.eqb c ":"%char then
            match cur with
            | None => match gap with Some _ => None | None => pton6 s done (Some (length done)) None s end
            | Some (x, _) =>
                if decide (s = EmptyString) then None
                else done ← pton6_group done x; pton6 s done gap None s
            end
          else if Ascii.eqb c "."%char then
            if decide (length done + 4 <= 16)%nat then
              q ← inet_pton4 tok; pton6_end (done ++ q) gap
            else None
          else None
      end
  end.

(** A leading colon must be the first of two. *)
Definition inet_pton6 (s : string) : option (list Z) :=
  match skip_char ":"%char ":"%char s with
  | Some s' => if is_char s' ":"%char then pton6 s' [] None None s' else None
  | None => pton6 s [] None None s
  end.

End CStr.
