(* ===== verification/HashMap.v ===== *)
(** * Hash maps (lib/parsers/hashmap.h, hashmap.c)

    String-keyed hash tables with chaining.  A bucket is the list of its chain;
    the empty bucket of the program, with a null key, is the empty list.  Items
    given to the delete callback are returned.  The abstraction is a finite map:
    every operation is the map operation, whatever the number of buckets. *)

From S2P Require Import Prelude.
From Stdlib Require Import Ascii Sorted.

Module HMap.

#[local] Open Scope list_scope.
#[local] Open Scope Z_scope.

(** [char] is signed: a character beyond 127 counts negative. *)
Definition char_code (a : ascii) : Z :=
  let n := Z.of_nat (nat_of_ascii a) in if n <? 128 then n else n - 256.

Fixpoint djb2_from (hash : Z) (s : string) : Z :=
  match s with
  | EmptyString => hash
  | String a s => djb2_from (u32 (u32 (Z.shiftl hash 5) + hash + char_code a)) s
  end.
Definition djb2_hash (s : string) : Z := djb2_from 5381 s.

Section hashmap.
Context {V : Type}.

Abbreviation Item := (string * V)%type.

Record HashMap := mk_hash { buckets : list (list Item); elemcount : Z }.

Definition bucketcount (h : HashMap) : nat := length (buckets h).

Definition new_hashmap (n : nat) : option HashMap :=
  if bool_decide (n = 0%nat) then None else Some (mk_hash (replicate n []) 0).

(** The bucket of a key in a table of [n] buckets. *)
Definition slot (n : nat) (k : string) : nat := Z.to_nat (djb2_hash k mod Z.of_nat n).

Definition chain (h : HashMap) (k : string) : list Item := default [] (buckets h !! slot (bucketcount h) k).
Definition set_chain (h : HashMap) (k : string) (l : list Item) (count : Z) : HashMap :=
  mk_hash (<[slot (bucketcount h) k := l]> (buckets h)) count.

(** The items in the order of the buckets. *)
Definition items (h : HashMap) : list Item := concat (buckets h).

(** What the delete callback is called with. *)
Definition delete_hashmap (h : HashMap) : list Item := items h.

(** The walk along the chain: the old item is replaced, or the new one appended. *)
Fixpoint chain_insert (k : string) (v : V) (l : list Item) : list Item * option Item :=
  match l with
  | [] => ([(k, v)], None)
  | (k', v') :: l =>
      if bool_decide (k' = k) then ((k, v) :: l, Some (k', v'))
      else let '(l, old) := chain_insert k v l in ((k', v') :: l, old)
  end.

Definition hashmap_insert (h : HashMap) (k : string) (v : V) : bool * HashMap * option Item :=
  match chain_insert k v (chain h k) with
  | (l, Some old) => (false, set_chain h k l (elemcount h), Some old)
  | (l, None) => (true, set_chain h k l (u32 (elemcount h + 1)), None)
  end.

Fixpoint chain_remove (k : string) (l : list Item) : option (Item * list Item) :=
  match l with
  | [] => None
  | (k', v') :: l =>
      if bool_decide (k' = k) then Some ((k', v'), l)
      else '(old, l) ← chain_remove k l; Some (old, (k', v') :: l)
  end.

Definition hashmap_remove (h : HashMap) (k : string) : bool * HashMap * option Item :=
  match chain_remove k (chain h k) with
  | Some (old, l) => (true, set_chain h k l (u32 (elemcount h - 1)), Some old)
  | None => (false, h, None)
  end.

Fixpoint chain_find (k : string) (l : list Item) : option V :=
  match l with
  | [] => None
  | (k', v) :: l => if bool_decide (k' = k) then Some v else chain_find k l
  end.

Definition hashmap_find (h : HashMap) (k : string) : option V := chain_find k (chain h k).
Definition hashmap_contains (h : HashMap) (k : string) : bool := if chain_find k (chain h k) is Some _ then true else false.
Definition hashmap_count (h : HashMap) : Z := elemcount h.
Definition hashmap_usedbuckets (h : HashMap) : nat := length (filter (λ b, b ≠ []) (buckets h)).

(** ** Traversals *)

(** A callback decides whether to go on and whether it removes its item. *)
Section foreach.
Context {S : Type} (cb : string → V → S → bool * bool * S).

(** Along a chain: the items that stay, and whether the traversal goes on. *)
Fixpoint foreach_chain (l : list Item) (s : S) : bool * list Item * S :=
  match l with
  | [] => (true, [], s)
  | (k, v) :: l =>
      let '(go, gone, s) := cb k v s in
      let kept (r : list Item) := if (gone : bool) then r else (k, v) :: r in
      if (go : bool) then
        let '(go, r, s) := foreach_chain l s in (go, kept r, s)
      else (false, kept l, s)
  end.

Fixpoint foreach_buckets (bs : list (list Item)) (s : S) : bool * list (list Item) * S :=
  match bs with
  | [] => (true, [], s)
  | b :: bs =>
      let '(go, b, s) := foreach_chain b s in
      if (go : bool) then let '(go, bs, s) := foreach_buckets bs s in (go, b :: bs, s)
      else (false, b :: bs, s)
  end.

Definition hashmap_foreach (h : HashMap) (s : S) : bool * HashMap * S :=
  let '(go, bs, s) := foreach_buckets (buckets h) s in
  (go, mk_hash bs (u32 (elemcount h - Z.of_nat (length (items h) - length (concat bs)))), s).
End foreach.
End hashmap.

(** [strcmp] compares the codes of unsigned characters. *)
Fixpoint str_le (a b : string) : bool :=
  match a, b with
  | EmptyString, _ => true
  | String _ _, EmptyString => false
  | String x a, String y b =>
      let m := nat_of_ascii x in let n := nat_of_ascii y in
      if (m <? n)%nat then true else if (n <? m)%nat then false else str_le a b
  end.

Section sorted.
Context {V : Type}.

Fixpoint insert_sorted (x : string * V) (l : list (string * V)) : list (string * V) :=
  match l with
  | [] => [x]
  | y :: l => if str_le x.1 y.1 then x :: y :: l else y :: insert_sorted x l
  end.
Definition qsort (l : list (string * V)) : list (string * V) := foldr insert_sorted [] l.

Definition hashmap_foreach_sorted {S : Type} (h : HashMap (V := V)) (cb : string → V → S → option S) (s : S) : option S :=
  foldl (λ s x, s ≫= cb x.1 x.2) (Some s) (qsort (items h)).

(** The items are linked into a new table, whose delete callback keeps them. *)
Definition hashmap_rehash (h : HashMap (V := V)) (n : nat) : HashMap :=
  if bool_decide (n = 0%nat) || bool_decide (n = bucketcount h) then h
  else
    match new_hashmap n with
    | None => h
    | Some new =>
        let new := foldl (λ new x, (hashmap_insert new x.1 x.2).1.2) new (items h) in
        mk_hash (buckets new) (elemcount h)
    end.

(** The iterator is a bucket and the rest of its chain; it is past the end
    when there is no such bucket. *)
Record Iterator := mk_iter { it_bucket : nat; it_chain : list (string * V) }.

Fixpoint skip_empty (bs : list (list (string * V))) (i : nat) : Iterator :=
  match bs with
  | [] => mk_iter i []
  | [] :: bs => skip_empty bs (S i)
  | b :: _ => mk_iter i b
  end.

Definition hash_iterator (h : HashMap (V := V)) : Iterator := skip_empty (buckets h) 0.
Definition hash_iterator_valid (h : HashMap (V := V)) (it : Iterator) : bool := bool_decide (it_bucket it < bucketcount h)%nat.
Definition hash_iterator_item (h : HashMap (V := V)) (it : Iterator) : option (string * V) :=
  if hash_iterator_valid h it then head (it_chain it) else None.
Definition hash_iterator_next (h : HashMap (V := V)) (it : Iterator) : Iterator :=
  if hash_iterator_valid h it then
    match it_chain it with
    | _ :: x :: l => mk_iter (it_bucket it) (x :: l)
    | _ => skip_empty (drop (S (it_bucket it)) (buckets h)) (S (it_bucket it))
    end
  else it.

(** The loop [HASHMAP_ITERATE]: the items it visits, in at most [fuel] steps. *)
Fixpoint iterate (fuel : nat) (h : HashMap (V := V)) (it : Iterator) : option (list (string * V)) :=
  match fuel with
  | O => None
  | S fuel =>
      match hash_iterator_item h it with
      | Some x => l ← iterate fuel h (hash_iterator_next h it); Some (x :: l)
      | None => Some []
      end
  end.
End sorted.
(** ** Order of strings *)

Lemma str_le_total a b : str_le a b = true ∨ str_le b a = true.
Proof.
  revert b. induction a as [|x a IH]; intros [|y b]; cbn [str_le]; auto.
  destruct (Nat.ltb_spec (nat_of_ascii x) (nat_of_ascii y)), (Nat.ltb_spec (nat_of_ascii y) (nat_of_ascii x)); (lia || auto).
Qed.

Lemma str_le_trans a b c : str_le a b = true → str_le b c = true → str_le a c = true.
Proof.
  revert b c. induction a as [|x a IH]; intros [|y b] [|z c]; cbn [str_le]; try done.
  repeat match goal with |- context [(?m <? ?n)%nat] => destruct (Nat.ltb_spec m n) end; try done; try lia; try (by eauto).
Qed.

Lemma str_le_antisym a b : str_le a b = true → str_le b a = true → a = b.
Proof.
  revert b. induction a as [|x a IH]; intros [|y b]; cbn [str_le]; try done.
  repeat match goal with |- context [(?m <? ?n)%nat] => destruct (Nat.ltb_spec m n) end; try done; try lia.
  intros H1 H2. f_equal; [|by apply IH]. rewrite <- (ascii_nat_embedding x), <- (ascii_nat_embedding y). f_equal. lia.
Qed.

Definition key_le {V} (x y : string * V) : Prop := str_le x.1 y.1 = true.

Section sorting.
Context {V : Type}.
Implicit Types l : list (string * V).

Lemma insert_sorted_perm x l : insert_sorted x l ≡ₚ x :: l.
Proof.
  induction l as [|y l IH]; cbn; [done|]. destruct (str_le x.1 y.1); [done|]. rewrite IH. apply Permutation_swap.
Qed.

Lemma qsort_perm l : qsort l ≡ₚ l.
Proof. induction l as [|x l IH]; cbn; [done|]. rewrite insert_sorted_perm. by rewrite IH. Qed.

Lemma insert_sorted_sorted x l : StronglySorted key_le l → StronglySorted key_le (insert_sorted x l).
Proof.
  induction 1 as [|y l Hl IH Hy]; cbn; [repeat constructor|].
  destruct (str_le x.1 y.1) eqn:E.
  - constructor; [by constructor|]. constructor; [done|]. eapply Forall_impl; [exact Hy|]. intros z Hz. by eapply str_le_trans.
  - constructor; [done|]. rewrite insert_sorted_perm. constructor; [|done]. unfold key_le.
    destruct (str_le_total x.1 y.1); congruence.
Qed.

Lemma qsort_sorted l : StronglySorted key_le (qsort l).
Proof. induction l as [|x l IH]; cbn; [constructor | by apply insert_sorted_sorted]. Qed.

(** Sorting by distinct keys does not depend on the order of the input. *)
Lemma sorted_unique l1 l2 :
  StronglySorted key_le l1 → StronglySorted key_le l2 → NoDup l1.*1 → l1 ≡ₚ l2 → l1 = l2.
Proof.
  intros H1. revert l2. induction H1 as [|x l1 H1 IH Hx]; intros l2 H2 Hnd Hp.
  { by apply Permutation_nil_l in Hp as ->. }
  destruct H2 as [|y l2 H2 Hy]; [by apply Permutation_nil_r in Hp|].
  apply NoDup_cons in Hnd as [Hni Hnd].
  assert (x = y) as ->.
  { assert (x ∈ y :: l2) as Hxin by (rewrite <- Hp; constructor). assert (y ∈ x :: l1) as Hyin by (rewrite Hp; constructor).
    apply elem_of_cons in Hxin as [->|Hxin]; [done|]. apply elem_of_cons in Hyin as [->|Hyin]; [done|].
    rewrite Forall_forall in Hx, Hy. specialize (Hx y Hyin). specialize (Hy x Hxin).
    destruct Hni. rewrite (str_le_antisym x.1 y.1 Hx Hy). by apply list_elem_of_fmap_2. }
  f_equal. apply IH; [done | done|]. by apply Permutation_cons_inv in Hp.
Qed.

Lemma qsort_unique l1 l2 : NoDup l1.*1 → l1 ≡ₚ l2 → qsort l1 = qsort l2.
Proof.
  intros Hnd Hp. apply sorted_unique; [apply qsort_sorted | apply qsort_sorted | | by rewrite !qsort_perm].
  by rewrite (qsort_perm l1).
Qed.
End sorting.

(** ** Refinement *)

Section refinement.
Context {V : Type}.
Implicit Types (h : HashMap (V := V)) (m : gmap string V) (l : list (string * V)).

(** Every item is in the bucket of its key, and keys are distinct. *)
Record hash_wf h : Prop := {
  hw_count : bucketcount h ≠ 0%nat;
  hw_slot : ∀ i b x, buckets h !! i = Some b → x ∈ b → slot (bucketcount h) x.1 = i;
  hw_keys : ∀ i b, buckets h !! i = Some b → NoDup b.*1
}.

(** The table represents the map. *)
Record represents h m : Prop := {
  rp_wf : hash_wf h;
  rp_find : ∀ k, hashmap_find h k = m !! k;
  rp_count : elemcount h = Z.of_nat (size m)
}.

Lemma slot_lt n k : n ≠ 0%nat → (slot n k < n)%nat.
Proof. intros Hn. unfold slot. pose proof (Z.mod_pos_bound (djb2_hash k) (Z.of_nat n) ltac:(lia)). lia. Qed.

Lemma chain_lookup h k : bucketcount h ≠ 0%nat → buckets h !! slot (bucketcount h) k = Some (chain h k).
Proof.
  intros Hn. unfold chain. destruct (lookup_lt_is_Some_2 (buckets h) (slot (bucketcount h) k)) as [b ->]; [|done].
  by apply slot_lt.
Qed.

Lemma bucketcount_set h k l c : bucketcount (set_chain h k l c) = bucketcount h.
Proof. unfold bucketcount, set_chain. cbn. by rewrite length_insert. Qed.

Lemma chain_set h k l c k' :
  bucketcount h ≠ 0%nat →
  chain (set_chain h k l c) k' = if bool_decide (slot (bucketcount h) k' = slot (bucketcount h) k) then l else chain h k'.
Proof.
  intros Hn. unfold chain. rewrite bucketcount_set. cbn. case_bool_decide as E.
  - rewrite E, list_lookup_insert_eq; [done|]. by apply slot_lt.
  - by rewrite list_lookup_insert_ne.
Qed.

Lemma chain_find_None k l : chain_find k l = None ↔ k ∉ l.*1.
Proof.
  induction l as [|[k' v] l IH]; cbn; [split; [intros _; apply not_elem_of_nil | done]|].
  case_bool_decide; [subst; split; [done | intros []; constructor]|]. rewrite IH, not_elem_of_cons. split; [by intros | by intros []].
Qed.

(** The chain after an insertion and after a removal. *)
Lemma chain_insert_find k v l k' :
  chain_find k' (chain_insert k v l).1 = if bool_decide (k' = k) then Some v else chain_find k' l.
Proof.
  induction l as [|[k1 v1] l IH]; cbn; [repeat case_bool_decide; congruence|].
  destruct (bool_decide_reflect (k1 = k)) as [->|Hne]; cbn; [repeat case_bool_decide; congruence|].
  destruct (chain_insert k v l) as [l' old]. cbn in *. rewrite IH. repeat case_bool_decide; congruence.
Qed.

Lemma chain_insert_old k v l : (chain_insert k v l).2 = (λ x, (k, x)) <$> chain_find k l.
Proof.
  induction l as [|[k1 v1] l IH]; cbn; [done|]. case_bool_decide; [by subst|].
  destruct (chain_insert k v l). by rewrite <- IH.
Qed.

Lemma chain_insert_keys k v l :
  (chain_insert k v l).1.*1 = if chain_find k l is Some _ then l.*1 else l.*1 ++ [k].
Proof.
  induction l as [|[k1 v1] l IH]; cbn; [done|]. case_bool_decide; [by subst|].
  destruct (chain_insert k v l). cbn in *. rewrite IH. by destruct (chain_find k l).
Qed.

Lemma chain_remove_spec k l :
  match chain_remove k l with
  | Some (old, l') => ∃ v l1 l2, old = (k, v) ∧ l = l1 ++ (k, v) :: l2 ∧ l' = l1 ++ l2 ∧ k ∉ l1.*1
  | None => k ∉ l.*1
  end.
Proof.
  induction l as [|[k1 v1] l IH]; cbn; [apply not_elem_of_nil|]. case_bool_decide as E.
  - subst. exists v1, [], l. split_and!; try done. apply not_elem_of_nil.
  - destruct (chain_remove k l) as [[old l']|]; cbn.
    + destruct IH as (v & l1 & l2 & -> & -> & -> & Hn). exists v, ((k1, v1) :: l1), l2. split_and!; try done.
      cbn. rewrite not_elem_of_cons. by split.
    + rewrite not_elem_of_cons. by split.
Qed.

Lemma chain_find_app k l1 l2 :
  chain_find k (l1 ++ l2) = if chain_find k l1 is Some v then Some v else chain_find k l2.
Proof. induction l1 as [|[k1 v1] l1 IH]; cbn; [done|]. by case_bool_decide. Qed.

(** Replacing a chain by one with keys of the same bucket keeps the invariant. *)
Lemma set_chain_wf h k l c :
  hash_wf h → NoDup l.*1 → (∀ k', k' ∈ l.*1 → k' = k ∨ k' ∈ (chain h k).*1) → hash_wf (set_chain h k l c).
Proof.
  intros [Hn Hs Hk] Hnd Hin. split; rewrite ?bucketcount_set; [done | |].
  - intros i b x. cbn. intros [(<- & <- & _)|[_ Hb]]%list_lookup_insert_Some Hx; [|by eapply Hs].
    destruct (Hin x.1) as [->|Hc]; [by apply list_elem_of_fmap_2 | done|].
    apply list_elem_of_fmap in Hc as (y & -> & Hy). eapply Hs; [by apply chain_lookup | done].
  - intros i b. cbn. intros [(<- & <- & _)|[_ Hb]]%list_lookup_insert_Some; [done | by eapply Hk].
Qed.

Lemma chain_nodup h k : hash_wf h → NoDup (chain h k).*1.
Proof. intros [Hn _ Hk]. eapply Hk. by apply chain_lookup. Qed.

Lemma find_set h k l c k' :
  hash_wf h → hashmap_find (set_chain h k l c) k' =
    if bool_decide (slot (bucketcount h) k' = slot (bucketcount h) k) then chain_find k' l else hashmap_find h k'.
Proof. intros [Hn _ _]. unfold hashmap_find. rewrite chain_set by done. by case_bool_decide. Qed.

Lemma insert_find h k v :
  hash_wf h →
  let h' := (hashmap_insert h k v).1.2 in
  hash_wf h' ∧ ∀ k', hashmap_find h' k' = if bool_decide (k' = k) then Some v else hashmap_find h k'.
Proof.
  intros Hwf. unfold hashmap_insert.
  pose proof (chain_insert_find k v (chain h k)) as F. pose proof (chain_insert_keys k v (chain h k)) as K.
  destruct (chain_insert k v (chain h k)) as [l old]. cbn in F, K. fold (hashmap_find h k) in K.
  assert (∀ c, hash_wf (set_chain h k l c) ∧
    ∀ k', hashmap_find (set_chain h k l c) k' = if bool_decide (k' = k) then Some v else hashmap_find h k') as H.
  { intros c. split; [|intros k'].
    - apply set_chain_wf; [done | |].
      + rewrite K. pose proof (chain_nodup h k Hwf) as Hnd. destruct (hashmap_find h k) eqn:E; [done|].
        apply NoDup_app. split_and!; [done | | apply NoDup_singleton]. intros x Hx ->%list_elem_of_singleton.
        revert Hx. by apply chain_find_None.
      + intros k'. rewrite K. destruct (hashmap_find h k); [by right|]. rewrite elem_of_app, list_elem_of_singleton. tauto.
    - rewrite find_set by apply Hwf. case_bool_decide as E.
      + rewrite F. case_bool_decide as Ek; [done|]. unfold hashmap_find, chain. by rewrite E.
      + rewrite bool_decide_eq_false_2 by (intros ->; done). done. }
  destruct old; apply H.
Qed.

Lemma insert_refines h m k v :
  represents h m → Z.of_nat (size m) < 2 ^ 32 - 1 →
  let '(new, h', old) := hashmap_insert h k v in
  represents h' (<[k := v]> m) ∧ new = bool_decide (m !! k = None) ∧ old = (λ x, (k, x)) <$> m !! k.
Proof.
  intros [Hwf Hf Hc] Hsz. destruct (insert_find h k v Hwf) as [Hwf' Hf']. revert Hwf' Hf'. unfold hashmap_insert.
  pose proof (chain_insert_old k v (chain h k)) as O. destruct (chain_insert k v (chain h k)) as [l old]. cbn in O.
  fold (hashmap_find h k) in O. rewrite Hf in O. subst old. intros Hwf' Hf'.
  assert (∀ k', (if bool_decide (k' = k) then Some v else hashmap_find h k') = <[k := v]> m !! k') as Hm.
  { intros k'. rewrite Hf. case_bool_decide; [subst; by rewrite lookup_insert_eq | by rewrite lookup_insert_ne]. }
  destruct (m !! k) as [x|] eqn:E; cbn in *; (split_and!; [|done | done]); (split; [done | intros k'; by rewrite Hf' | cbn]).
  - rewrite Hc. f_equal. symmetry. apply map_size_insert_Some. by rewrite E.
  - rewrite map_size_insert_None by done. rewrite u32_small by (unfold is_u32; lia). lia.
Qed.

Lemma remove_refines h m k :
  represents h m → Z.of_nat (size m) < 2 ^ 32 - 1 →
  let '(ok, h', old) := hashmap_remove h k in
  represents h' (delete k m) ∧ ok = bool_decide (m !! k ≠ None) ∧ old = (λ x, (k, x)) <$> m !! k.
Proof.
  intros [Hwf Hf Hc] Hsz. unfold hashmap_remove. pose proof (chain_remove_spec k (chain h k)) as Hr.
  destruct (chain_remove k (chain h k)) as [[old l]|].
  - destruct Hr as (v & l1 & l2 & -> & El & -> & Hn1).
    assert (m !! k = Some v) as Em.
    { rewrite <- Hf. unfold hashmap_find. rewrite El, chain_find_app, (proj2 (chain_find_None _ _) Hn1). cbn.
      by rewrite bool_decide_eq_true_2. }
    pose proof (chain_nodup h k Hwf) as Hnd. rewrite El, fmap_app, fmap_cons in Hnd. apply NoDup_app in Hnd as (N1 & N2 & N3).
    apply NoDup_cons in N3 as [Hk2 N3]. rewrite Em. split_and!; [|done | done]. split; [|intros k'|].
    + apply set_chain_wf; [done | |].
      * rewrite fmap_app. apply NoDup_app. split_and!; [done | | done]. intros x Hx Hx2. apply (N2 x Hx). by constructor.
      * intros k'. rewrite El, !fmap_app, fmap_cons, !elem_of_app, elem_of_cons. tauto.
    + rewrite find_set by done. case_bool_decide as E.
      * destruct (decide (k' = k)) as [->|Hne].
        { rewrite lookup_delete_eq. apply chain_find_None. rewrite fmap_app, elem_of_app. tauto. }
        rewrite lookup_delete_ne by done. rewrite <- Hf. unfold hashmap_find. assert (chain h k' = chain h k) as -> by (unfold chain; by rewrite E).
        rewrite El, !chain_find_app. cbn. by rewrite bool_decide_eq_false_2 by done.
      * rewrite lookup_delete_ne by (intros ->; done). apply Hf.
    + rewrite map_size_delete, Em. cbn. rewrite Hc. assert (size m ≠ 0%nat) by (intros H0%map_size_empty_inv; subst m; done).
      rewrite u32_small by (unfold is_u32; lia). lia.
  - assert (m !! k = None) as Em by (rewrite <- Hf; by apply chain_find_None). rewrite Em. split_and!; [|done | done].
    by rewrite delete_id.
Qed.

(** *** The items *)

Lemma concat_keys (f : string → nat) (bs : list (list (string * V))) off :
  (∀ i b x, bs !! i = Some b → x ∈ b → f x.1 = (off + i)%nat) → (∀ i b, bs !! i = Some b → NoDup b.*1) →
  NoDup (concat bs).*1 ∧ ∀ x, x ∈ concat bs → (off <= f x.1)%nat.
Proof.
  revert off. induction bs as [|b bs IH]; intros off Hf Hn; cbn [concat].
  { split; [constructor | by intros x ?%elem_of_nil]. }
  destruct (IH (S off)) as [N B].
  { intros i b' x Hb Hx. rewrite (Hf (S i) b' x Hb Hx). lia. }
  { intros i b' Hb. by apply (Hn (S i)). }
  pose proof (Hf 0%nat b) as Hf0. split.
  - rewrite fmap_app. apply NoDup_app. split_and!; [by apply (Hn 0%nat) | | done].
    intros k (x & -> & Hx)%list_elem_of_fmap (y & E & Hy)%list_elem_of_fmap. specialize (B y Hy). rewrite <- E in B.
    rewrite (Hf0 x eq_refl Hx) in B. lia.
  - intros x [Hx|Hx]%elem_of_app; [rewrite (Hf0 x eq_refl Hx); lia|]. specialize (B x Hx). lia.
Qed.

Lemma items_nodup h : hash_wf h → NoDup (items h).*1.
Proof. intros [_ Hs Hk]. apply (concat_keys (slot (bucketcount h)) (buckets h) 0); [exact Hs | exact Hk]. Qed.

Lemma chain_find_elem k v l : NoDup l.*1 → (k, v) ∈ l ↔ chain_find k l = Some v.
Proof.
  induction l as [|[k1 v1] l IH]; cbn; intros Hnd; [split; [by intros ?%elem_of_nil | done]|].
  apply NoDup_cons in Hnd as [Hni Hnd]. specialize (IH Hnd). rewrite elem_of_cons.
  destruct (bool_decide_reflect (k1 = k)) as [->|Hne]; rewrite <- ?IH.
  - split; [intros [?|Hin]; [congruence|] | intros; left; congruence].
    destruct Hni. by apply (list_elem_of_fmap_2 fst) in Hin.
  - split; [intros [?|?]; [congruence | done] | by right].
Qed.

Lemma items_elem h k v : hash_wf h → (k, v) ∈ items h ↔ hashmap_find h k = Some v.
Proof.
  intros Hwf. unfold hashmap_find. rewrite <- chain_find_elem by (by apply chain_nodup). unfold items.
  etrans; [apply list_elem_of_In|]. rewrite in_concat. split.
  - intros (b & Hb%list_elem_of_In & Hx%list_elem_of_In). apply list_elem_of_lookup in Hb as [i Hi].
    assert (i = slot (bucketcount h) k) as -> by (symmetry; exact (hw_slot h Hwf i b (k, v) Hi Hx)).
    rewrite chain_lookup in Hi by apply Hwf. congruence.
  - intros Hx. exists (chain h k). split; apply list_elem_of_In; [|done].
    eapply list_elem_of_lookup_2. apply chain_lookup, Hwf.
Qed.

Lemma insert_items h k v :
  hash_wf h → hashmap_find h k = None → items (hashmap_insert h k v).1.2 ≡ₚ (k, v) :: items h.
Proof.
  intros Hwf Hk. destruct (insert_find h k v Hwf) as [Hwf' Hf]. apply NoDup_Permutation.
  - eapply NoDup_fmap_1, items_nodup, Hwf'.
  - apply NoDup_cons. split; [|eapply NoDup_fmap_1, items_nodup, Hwf]. rewrite items_elem by done. congruence.
  - intros [k' v']. rewrite elem_of_cons, !items_elem, Hf by done. case_bool_decide as E; [subst|]; split.
    + intros [= ->]. by left.
    + intros [[= ->]|H]; [done | congruence].
    + by right.
    + intros [[= -> ->]|H]; [done | done].
Qed.

Lemma items_map h m : represents h m → items h ≡ₚ map_to_list m.
Proof.
  intros [Hwf Hf _]. apply NoDup_Permutation; [eapply NoDup_fmap_1, (items_nodup h Hwf) | apply NoDup_map_to_list|].
  intros [k v]. etrans; [by apply items_elem|]. rewrite Hf. symmetry. apply elem_of_map_to_list.
Qed.

Lemma items_length h m : represents h m → length (items h) = size m.
Proof. intros H. by rewrite (items_map h m H), length_map_to_list. Qed.

(** *** Empty tables and rehashing *)

Lemma new_represents n h : new_hashmap n = Some h → represents h ∅.
Proof.
  unfold new_hashmap. case_bool_decide; [done|]. intros [= <-].
  assert (∀ i (b : list (string * V)), replicate n [] !! i = Some b → b = []) as He by (by intros i b [-> _]%lookup_replicate).
  split; [split| |done]; cbn.
  - unfold bucketcount. cbn. by rewrite length_replicate.
  - intros i b x Hb. rewrite (He i b Hb). by intros ?%elem_of_nil.
  - intros i b Hb. rewrite (He i b Hb). constructor.
  - intros k. rewrite lookup_empty. unfold hashmap_find, chain. cbn. destruct (replicate n [] !! _) eqn:E; [|done].
    by rewrite (He _ _ E).
Qed.

Lemma fold_insert_represents l : ∀ h m,
  represents h m → Z.of_nat (size m + length l) < 2 ^ 32 - 1 →
  represents (foldl (λ new x, (hashmap_insert new x.1 x.2).1.2) h l) (foldl (λ m x, <[x.1 := x.2]> m) m l).
Proof.
  induction l as [|[k v] l IH]; intros h m Hr Hs; cbn; [done|]. cbn [length] in Hs. apply IH.
  - pose proof (insert_refines h m k v Hr ltac:(lia)) as H. destruct (hashmap_insert h k v) as [[new h'] old]. apply H.
  - rewrite map_size_insert. destruct (m !! k); cbn; lia.
Qed.

Lemma fold_insert_lookup l m k :
  NoDup l.*1 →
  foldl (λ m x, <[x.1 := x.2]> m) m l !! k = if chain_find k l is Some v then Some v else m !! k.
Proof.
  revert m. induction l as [|[k1 v1] l IH]; intros m Hnd; cbn; [done|]. apply NoDup_cons in Hnd as [Hni Hnd].
  rewrite IH by done. destruct (bool_decide_reflect (k1 = k)) as [->|Hne].
  - rewrite (proj2 (chain_find_None k l) Hni). apply lookup_insert_eq.
  - by rewrite lookup_insert_ne.
Qed.

Lemma rehash_represents h m n : represents h m → Z.of_nat (size m) < 2 ^ 32 - 1 → represents (hashmap_rehash h n) m.
Proof.
  intros Hr Hs. unfold hashmap_rehash. destruct (_ || _); [done|]. destruct (new_hashmap n) as [new|] eqn:En; [|done].
  pose proof (new_represents n new En) as H0. pose proof (items_nodup h (rp_wf h m Hr)) as Hnd.
  pose proof (fold_insert_represents (items h) new ∅ H0) as H1. rewrite map_size_empty, (items_length h m Hr) in H1. specialize (H1 ltac:(lia)).
  destruct H1 as [[W1 W2 W3] F1 _]. split; [by split| |apply Hr].
  intros k. etrans; [exact (F1 k)|]. rewrite fold_insert_lookup by done. rewrite lookup_empty, <- (rp_find h m Hr).
  destruct (hashmap_find h k) as [v|] eqn:E.
  - apply (items_elem h k v (rp_wf h m Hr)), chain_find_elem in E; [|done]. by rewrite E.
  - destruct (chain_find k (items h)) as [v|] eqn:E2; [|done]. apply chain_find_elem, (items_elem h k v (rp_wf h m Hr)) in E2; [congruence | done].
Qed.

(** *** Traversals *)

Lemma foreach_sorted_list h (l : list (string * V)) :
  hashmap_foreach_sorted h (λ k v acc, Some (acc ++ [(k, v)])) l = Some (l ++ qsort (items h)).
Proof.
  unfold hashmap_foreach_sorted. revert l. induction (qsort (items h)) as [|[k v] r IH]; intros l; cbn; [by rewrite app_nil_r|].
  rewrite IH. by rewrite <- app_assoc.
Qed.

(** The items an iterator still visits. *)
Definition remaining h (it : Iterator (V := V)) : list (string * V) :=
  it_chain it ++ concat (drop (S (it_bucket it)) (buckets h)).

Definition iter_ok h (it : Iterator (V := V)) : Prop :=
  (it_bucket it < bucketcount h)%nat ∧ it_chain it ≠ [] ∨ (bucketcount h <= it_bucket it)%nat ∧ it_chain it = [].

Lemma skip_empty_ok h i : (i <= bucketcount h)%nat →
  iter_ok h (skip_empty (drop i (buckets h)) i) ∧ remaining h (skip_empty (drop i (buckets h)) i) = concat (drop i (buckets h)).
Proof.
  intros Hi. unfold bucketcount in Hi. remember (drop i (buckets h)) as bs eqn:E. revert i Hi E.
  induction bs as [|b bs IH]; intros i Hi E.
  - apply (f_equal length) in E. rewrite length_drop in E. cbn in E. unfold bucketcount. cbn. split; [right; cbn; split; [unfold bucketcount; lia | done]|].
    unfold remaining. cbn. by rewrite drop_ge by lia.
  - assert (buckets h !! i = Some b ∧ drop (S i) (buckets h) = bs) as [Hb Ed].
    { assert (i < length (buckets h))%nat as Hlt by (apply (f_equal length) in E; rewrite length_drop in E; cbn in E; lia).
      apply lookup_lt_is_Some_2 in Hlt as [b' Hb']. rewrite (drop_S _ _ _ Hb') in E. by simplify_eq. }
    apply lookup_lt_Some in Hb as Hlt. destruct b as [|x b]; cbn.
    + apply (IH (S i)); [lia | done].
    + split; [left; split; [exact Hlt | done]|]. unfold remaining. cbn. by rewrite Ed.
Qed.

Lemma iterate_spec fuel h it :
  iter_ok h it → (length (remaining h it) < fuel)%nat → iterate fuel h it = Some (remaining h it).
Proof.
  revert it. induction fuel as [|fuel IH]; intros it Hok Hf; [lia|]. cbn [iterate]. unfold hash_iterator_item, hash_iterator_valid.
  destruct Hok as [[Hlt Hne]|[Hge He]].
  - rewrite bool_decide_eq_true_2 by done. destruct it as [i [|x l]]; cbn in *; [done|].
    unfold hash_iterator_next, hash_iterator_valid. cbn. rewrite bool_decide_eq_true_2 by done.
    unfold remaining in Hf. cbn [it_bucket it_chain app length] in Hf. destruct l as [|y l].
    + destruct (skip_empty_ok h (S i) ltac:(lia)) as [Hok' Hr]. rewrite IH by (try done; rewrite Hr; cbn in Hf; lia).
      rewrite Hr. done.
    + rewrite IH; [done | left; split; done |]. unfold remaining. cbn [it_bucket it_chain]. lia.
  - rewrite bool_decide_eq_false_2 by lia. unfold remaining. rewrite He, drop_ge; [done|]. unfold bucketcount in Hge. lia.
Qed.

(** A traversal with an iterator visits every item once. *)
Lemma iterate_all h : iterate (S (length (items h))) h (hash_iterator h) = Some (items h).
Proof.
  destruct (skip_empty_ok h 0 ltac:(lia)) as [Hok Hr]. rewrite drop_0 in Hok, Hr. unfold hash_iterator.
  rewrite iterate_spec; [by rewrite Hr | done | rewrite Hr; unfold items; lia].
Qed.

(** A callback that notes what it visits, removes items ([gone]) and goes on. *)
Definition visit (gone : string → V → bool) (k : string) (v : V) (seen : list (string * V)) : bool * bool * list (string * V) :=
  (true, gone k v, seen ++ [(k, v)]).

Lemma foreach_chain_filter (gone : string → V → bool) l seen :
  foreach_chain (visit gone) l seen = (true, filter (λ x, gone x.1 x.2 = false) l, seen ++ l).
Proof.
  revert seen. induction l as [|[k v] l IH]; intros seen; [by rewrite app_nil_r|]. cbn [foreach_chain visit]. rewrite IH, filter_cons, <- app_assoc. cbn [fst snd app].
  destruct (gone k v) eqn:E; case_decide; congruence || done.
Qed.

Lemma foreach_buckets_filter (gone : string → V → bool) bs seen :
  foreach_buckets (visit gone) bs seen = (true, filter (λ x, gone x.1 x.2 = false) <$> bs, seen ++ concat bs).
Proof.
  revert seen. induction bs as [|b bs IH]; intros seen; cbn; [by rewrite app_nil_r|]. by rewrite foreach_chain_filter, IH, <- app_assoc.
Qed.

Lemma foreach_removes h m (gone : string → V → bool) :
  represents h m → Z.of_nat (size m) < 2 ^ 32 →
  ∃ h', hashmap_foreach (visit gone) h [] = (true, h', items h) ∧
    represents h' (filter (λ x, gone x.1 x.2 = false) m).
Proof.
  intros Hr Hs. unfold hashmap_foreach. rewrite foreach_buckets_filter. eexists. split; [done|]. pose proof Hr as [Hwf Hf Hc].
  set (f := filter (λ x : string * V, gone x.1 x.2 = false)). set (h' := mk_hash (f <$> buckets h) _).
  assert (bucketcount h' = bucketcount h) as Eb by (unfold bucketcount; cbn; by rewrite length_fmap).
  assert (hash_wf h') as Hwf'.
  { destruct Hwf as [W1 W2 W3]. split; rewrite ?Eb; [done | |]; intros i b; cbn; rewrite list_lookup_fmap.
    - intros x (b0 & Hb0 & ->)%fmap_Some Hx. unfold f in Hx. apply list_elem_of_filter in Hx as [_ Hx]. by eapply W2.
    - intros (b0 & Hb0 & ->)%fmap_Some. eapply sublist_NoDup; [by eapply W3|].
      apply fmap_sublist, sublist_filter. }
  assert (∀ k, hashmap_find h' k = filter (λ x, gone x.1 x.2 = false) m !! k) as Hf'.
  { intros k. apply option_eq. intros v. rewrite map_lookup_filter_Some, <- Hf, <- !items_elem by done. cbn.
    unfold items. cbn. rewrite !list_elem_of_In, !in_concat. setoid_rewrite <- list_elem_of_In. setoid_rewrite list_elem_of_fmap. unfold f. split.
    - intros (b & (b0 & -> & Hb0) & Hx). apply list_elem_of_filter in Hx as [? ?]. eauto.
    - intros ((b & Hb & Hx) & Hg). exists (f b). split; [by exists b|]. by apply list_elem_of_filter. }
  assert (length (concat (f <$> buckets h)) = size (filter (λ x, gone x.1 x.2 = false) m)) as Hl.
  { rewrite <- length_map_to_list. apply Permutation_length. 
    apply NoDup_Permutation; [eapply NoDup_fmap_1, (items_nodup h' Hwf') | apply NoDup_map_to_list|].
    intros [k v]. etrans; [exact (items_elem h' k v Hwf')|]. rewrite Hf'. symmetry. apply elem_of_map_to_list. }
  split; [done | done|]. cbn. rewrite Hl, (items_length h m Hr), Hc.
  assert (size (filter (λ x, gone x.1 x.2 = false) m) <= size m)%nat by (apply map_subseteq_size, map_filter_subseteq).
  rewrite u32_small; [lia|]. unfold is_u32. lia.
Qed.

(** *** Programs *)

Inductive HashOp :=
  | DoInsert (k : string) (v : V) | DoRemove (k : string) | DoFind (k : string) | DoContains (k : string)
  | DoCount | DoRehash (n : nat) | DoForeach (gone : string → V → bool) | DoIterate | DoSorted.

(** What the caller and the delete callback see. *)
Inductive HashOut :=
  | OutItem (ok : bool) (old : option (string * V)) | OutFind (v : option V) | OutContains (b : bool)
  | OutCount (n : Z) | OutDone | OutSorted (l : list (string * V))
  | OutVisited (all : bool) (l : list (string * V)) | OutIterated (l : option (list (string * V))).

(** The order of an unsorted traversal is that of the buckets: the visits are
    compared after sorting, which keeps how often an item was visited. *)

Definition hash_step h (o : HashOp) : HashMap * HashOut :=
  match o with
  | DoInsert k v => let '(ok, h, old) := hashmap_insert h k v in (h, OutItem ok old)
  | DoRemove k => let '(ok, h, old) := hashmap_remove h k in (h, OutItem ok old)
  | DoFind k => (h, OutFind (hashmap_find h k))
  | DoContains k => (h, OutContains (hashmap_contains h k))
  | DoCount => (h, OutCount (hashmap_count h))
  | DoRehash n => (hashmap_rehash h n, OutDone)
  | DoForeach gone => let '(all, h', seen) := hashmap_foreach (visit gone) h [] in (h', OutVisited all (qsort seen))
  | DoIterate => (h, OutIterated (qsort <$> iterate (S (length (items h))) h (hash_iterator h)))
  | DoSorted => (h, OutSorted (default [] (hashmap_foreach_sorted h (λ k v acc, Some (acc ++ [(k, v)])) [])))
  end.

Definition map_step m (o : HashOp) : gmap string V * HashOut :=
  match o with
  | DoInsert k v => (<[k := v]> m, OutItem (bool_decide (m !! k = None)) (pair k <$> m !! k))
  | DoRemove k => (delete k m, OutItem (bool_decide (m !! k ≠ None)) (pair k <$> m !! k))
  | DoFind k => (m, OutFind (m !! k))
  | DoContains k => (m, OutContains (bool_decide (is_Some (m !! k))))
  | DoCount => (m, OutCount (Z.of_nat (size m)))
  | DoRehash _ => (m, OutDone)
  | DoForeach gone => (filter (λ x, gone x.1 x.2 = false) m, OutVisited true (qsort (map_to_list m)))
  | DoIterate => (m, OutIterated (Some (qsort (map_to_list m))))
  | DoSorted => (m, OutSorted (qsort (map_to_list m)))
  end.

Fixpoint run_ops {S} (step : S → HashOp → S * HashOut) (s : S) (os : list HashOp) : S * list HashOut :=
  match os with
  | [] => (s, [])
  | o :: os => let '(s, x) := step s o in let '(s, l) := run_ops step s os in (s, x :: l)
  end.

Lemma step_refines h m o :
  represents h m → Z.of_nat (size m) < 2 ^ 32 - 1 →
  let '(h', x) := hash_step h o in let '(m', y) := map_step m o in
  represents h' m' ∧ x = y ∧ (size m' <= S (size m))%nat.
Proof.
  intros Hr Hs. assert (qsort (items h) = qsort (map_to_list m)) as Hq by (apply qsort_unique; [apply items_nodup, Hr | by apply items_map]).
  destruct o as [k v|k|k|k| |n|gone| |]; cbn [hash_step map_step].
  - pose proof (insert_refines h m k v Hr Hs) as H. destruct (hashmap_insert h k v) as [[ok h'] old].
    destruct H as (H & -> & ->). split_and!; [done | done|]. rewrite map_size_insert. destruct (m !! k); cbn; lia.
  - pose proof (remove_refines h m k Hr Hs) as H. destruct (hashmap_remove h k) as [[ok h'] old].
    destruct H as (H & -> & ->). split_and!; [done | done|]. rewrite map_size_delete. destruct (m !! k); cbn; lia.
  - split_and!; [done | by rewrite (rp_find h m Hr) | lia].
  - split_and!; [done | | lia]. unfold hashmap_contains. fold (hashmap_find h k). rewrite (rp_find h m Hr). by destruct (m !! k).
  - split_and!; [done | unfold hashmap_count; by rewrite (rp_count h m Hr) | lia].
  - split_and!; [by apply rehash_represents | done | lia].
  - destruct (foreach_removes h m gone Hr ltac:(lia)) as (h' & -> & H). split_and!; [done | by rewrite Hq |].
    etrans; [apply map_size_filter | lia].
  - rewrite iterate_all. split_and!; [done | cbn; by rewrite Hq | lia].
  - rewrite foreach_sorted_list. split_and!; [done | cbn; by rewrite Hq | lia].
Qed.

Lemma run_refines os : ∀ h m,
  represents h m → Z.of_nat (size m + length os) < 2 ^ 32 - 1 →
  let '(h', xs) := run_ops hash_step h os in let '(m', ys) := run_ops map_step m os in represents h' m' ∧ xs = ys.
Proof.
  induction os as [|o os IH]; intros h m Hr Hs; cbn [run_ops]; [done|]. cbn [length] in Hs.
  pose proof (step_refines h m o Hr ltac:(lia)) as H. destruct (hash_step h o) as [h1 x], (map_step m o) as [m1 y].
  destruct H as (H1 & -> & Hs1). specialize (IH h1 m1 H1 ltac:(lia)).
  destruct (run_ops hash_step h1 os) as [h2 xs], (run_ops map_step m1 os) as [m2 ys]. by destruct IH as [? ->].
Qed.

(** C28: hash tables are finite maps.  Whatever sequence of insertions, removals,
    lookups, traversals and rehashings, on whatever number of buckets, the results,
    the items given to the delete callback, the counts and the sorted traversals
    are those of a finite map.  A traversal with a callback that does not stop
    early, which may remove the items it visits, and a traversal with an iterator
    visit every item exactly once. *)
Theorem hashmap_refines n h os :
  new_hashmap n = Some h → Z.of_nat (length os) < 2 ^ 32 - 1 →
  (run_ops hash_step h os).2 = (run_ops map_step ∅ os).2 ∧
  represents (run_ops hash_step h os).1 (run_ops map_step ∅ os).1.
Proof.
  intros Hn Hl. pose proof (run_refines os h ∅ (new_represents n h Hn)) as H. rewrite map_size_empty in H. specialize (H Hl).
  destruct (run_ops hash_step h os), (run_ops map_step ∅ os). by destruct H as [? ->].
Qed.

End refinement.

#[local] Open Scope string_scope.

Definition sample_ops : list (HashOp (V := Z)) :=
  [DoInsert "eth0" 1; DoInsert "eth1" 2; DoInsert "eth0" 3; DoRehash 7; DoRemove "eth2"; DoFind "eth0"; DoSorted;
   DoForeach (λ _ v, (v =? 2)%Z); DoIterate; DoCount].

Lemma hashmap_refines_witness :
  (run_ops hash_step (mk_hash [[]; []; []] 0) sample_ops).2 =
    [OutItem true None; OutItem true None; OutItem false (Some ("eth0", 1)); OutDone; OutItem false None;
     OutFind (Some 3); OutSorted [("eth0", 3); ("eth1", 2)]; OutVisited true [("eth0", 3); ("eth1", 2)];
     OutIterated (Some [("eth0", 3)]); OutCount 1] ∧
  represents (run_ops hash_step (mk_hash [[]; []; []] 0) sample_ops).1 {["eth0" := 3]}.
Proof.
  destruct (hashmap_refines 3 (mk_hash [[]; []; []] 0) sample_ops) as [E R]; [reflexivity | cbn; lia |].
  split; [rewrite E; vm_compute; reflexivity|].
  replace ({["eth0" := 3]} : gmap string Z) with (run_ops map_step ∅ sample_ops).1 by (vm_compute; reflexivity). exact R.
Defined.

End HMap.
