(* ===== verification/Double.v ===== *)
(** * Double precision numbers

    The part of the C library that prints and reads the numbers of JSON texts:
    [%.17g] of [sprintf] and [strtod], both rounded to nearest, ties to even.
    A finite number is a sign, a mantissa of at most 53 bits and an exponent.
    Seventeen significant digits identify a number: [print_strtod]. *)

From S2P Require Import Prelude CString.
From Stdlib Require Import QArith Qpower Qabs Lqa Ascii.

Module Dbl.
Import CStr.

#[local] Open Scope Z_scope.

Inductive Double := Dnum (neg : bool) (m e : Z) | Dinf (neg : bool) | Dnan.

#[global] Instance Double_eq_dec : EqDecision Double.
Proof. solve_decision. Defined.

(** The numbers of the format: normal or of the least exponent. *)
Definition canonical (m e : Z) : Prop :=
  0 <= m < 2 ^ 53 ∧ -1074 <= e <= 971 ∧ (2 ^ 52 <= m ∨ e = -1074).

Definition dval (m e : Z) : Q := inject_Z m * Qpower 2 e.

Definition isfinite (d : Double) : bool := if d is Dnum _ _ _ then true else false.

(** ** Rounding *)

(** The exponent of the greatest power of two that is at most [q]. *)
Definition ilog2 (q : Q) : Z :=
  let e := Z.log2 (Qnum q) - Z.log2 (QDen q) in
  if Qle_bool (Qpower 2 e) q then e else e - 1.

Definition round_double (neg : bool) (q : Q) : Double :=
  if Qle_bool q 0 then Dnum neg 0 (-1074)
  else
    let e := Z.max (ilog2 q - 52) (-1074) in
    let m := round_half_even (q * Qpower 2 (- e)) in
    let '(m, e) := if m =? 2 ^ 53 then (2 ^ 52, e + 1) else (m, e) in
    if 971 <? e then Dinf neg else Dnum neg m e.

(** [strtod] of a decimal number: its value and the text behind it. *)
Definition strtod (s : string) : Double * string :=
  let '(sg, s1) := sign (skip_space s) in
  let '(m, fd, seen, rest) := mantissa 10 s1 in
  if negb seen then (Dnum false 0 (-1074), s)
  else
    let '(e, rest) := default (0, rest) (exponent "e"%char "E"%char rest) in
    (round_double (sg <? 0) (inject_Z m * Qpower 10 (e - fd)), rest).

(** ** Printing *)

(** The exponent of the greatest power of ten that is at most [q]. *)
Fixpoint ilog10_from (fuel : nat) (k : Z) (q : Q) : Z :=
  match fuel with
  | O => k
  | S fuel => if Qle_bool (Qpower 10 (k + 1)) q then ilog10_from fuel (k + 1) q else k
  end.
Definition ilog10 (q : Q) : Z := ilog10_from 640 (-324) q.

(** The seventeen significant digits and the decimal exponent. *)
Definition sig17 (q : Q) : Z * Z :=
  let k := ilog10 q in
  let d := round_half_even (q * Qpower 10 (16 - k)) in
  if d =? 10 ^ 17 then (10 ^ 16, k + 1) else (d, k).

Definition digit_char (d : Z) : ascii := ascii_of_N (Z.to_N (48 + d)).

(** [n] digits of a number, with leading zeros. *)
Fixpoint dec_app (n : nat) (z : Z) (acc : string) : string :=
  match n with
  | O => acc
  | S n => dec_app n (z / 10) (String (digit_char (z mod 10)) acc)
  end.

(** A fraction of [n] digits without its trailing zeros, with the point. *)
Fixpoint frac_app (n : nat) (f : Z) (acc : string) : string :=
  match n with
  | O => acc
  | S n' => if f mod 10 =? 0 then frac_app n' (f / 10) acc else String "."%char (dec_app n f acc)
  end.

Definition exp_text (x : Z) : string :=
  String "e"%char (String (if x <? 0 then "-"%char else "+"%char) (dec_app (if Z.abs x <? 100 then 2 else 3) (Z.abs x) EmptyString)).

(** [%.17g] of a positive number with the digits [d] and the exponent [x]. *)
Definition print_sig (d x : Z) : string :=
  if (-4 <=? x) && (x <? 17) then
    dec_app (Z.to_nat (Z.max 0 x + 1)) (d / 10 ^ (16 - x)) (frac_app (Z.to_nat (16 - x)) (d mod 10 ^ (16 - x)) EmptyString)
  else dec_app 1 (d / 10 ^ 16) (frac_app 16 (d mod 10 ^ 16) (exp_text x)).

Definition print_abs (m e : Z) : string :=
  if m =? 0 then "0"%string else let '(d, x) := sig17 (dval m e) in print_sig d x.

Definition print_double (d : Double) : option string :=
  match d with
  | Dnum neg m e => Some (if neg then String "-"%char (print_abs m e) else print_abs m e)
  | _ => None
  end.

Example print_samples :
  print_double (Dnum false 0 (-1074)) = Some "0"%string ∧
  print_sig 10000000000000001 (-1) = "0.10000000000000001"%string ∧
  print_sig 12500000000000000 20 = "1.25e+20"%string ∧
  print_double (Dnum true 1 (-1074)) = Some "-4.9406564584124654e-324"%string ∧
  strtod "1.5e3x"%string = (Dnum false (1500 * 2 ^ 42) (-42), "x"%string) ∧
  strtod "1e309"%string = (Dinf false, ""%string).
Proof. vm_compute. repeat split; reflexivity. Qed.

(** ** Rounding is close *)

#[local] Open Scope Q_scope.

Lemma pow_pos b n : 0 < b → 0 < Qpower b n.
Proof. apply Qpower_0_lt. Qed.

Lemma pow2_pos n : 0 < Qpower 2 n.
Proof. apply pow_pos. reflexivity. Qed.

Lemma pow10_pos n : 0 < Qpower 10 n.
Proof. apply pow_pos. reflexivity. Qed.
#[local] Hint Resolve pow2_pos pow10_pos : core.

Lemma pow2_add n m : Qpower 2 (n + m) == Qpower 2 n * Qpower 2 m.
Proof. by apply Qpower_plus. Qed.

Lemma pow10_add n m : Qpower 10 (n + m) == Qpower 10 n * Qpower 10 m.
Proof. by apply Qpower_plus. Qed.

Lemma pow2_cancel n : Qpower 2 n * Qpower 2 (- n) == 1.
Proof. rewrite <- pow2_add, Z.add_opp_diag_r. reflexivity. Qed.

Lemma pow10_cancel n : Qpower 10 n * Qpower 10 (- n) == 1.
Proof. rewrite <- pow10_add, Z.add_opp_diag_r. reflexivity. Qed.

Lemma inject_pow b n : (0 <= n)%Z → inject_Z (b ^ n) == Qpower (inject_Z b) n.
Proof. intros. by apply Zpower_Qpower. Qed.

(** Integers apart are apart by one. *)
Lemma inject_lt a b : inject_Z a < inject_Z b → inject_Z a + 1 <= inject_Z b.
Proof.
  rewrite <- Zlt_Qlt. intros H. change 1 with (inject_Z 1). rewrite <- inject_Z_plus, <- Zle_Qle. lia.
Qed.

Lemma Qabs_le x b : - b <= x → x <= b → Qabs x <= b.
Proof. intros. by apply Qabs_Qle_condition. Qed.

(** The integer part in rational terms. *)
Lemma div_bounds q :
  inject_Z (Qnum q / QDen q) * inject_Z (QDen q) + inject_Z (Qnum q mod QDen q) == q * inject_Z (QDen q) ∧
  0 <= inject_Z (Qnum q mod QDen q) ∧ inject_Z (Qnum q mod QDen q) + 1 <= inject_Z (QDen q) ∧ 1 <= inject_Z (QDen q).
Proof.
  destruct q as [n d]. cbn [Qnum Qden]. pose proof (Z.mod_pos_bound n (Zpos d) ltac:(lia)) as [H1 H2].
  split; [|split; [|split]].
  - rewrite <- inject_Z_mult, <- inject_Z_plus. unfold Qeq, inject_Z, Qmult. cbn.
    rewrite (Z.div_mod n (Zpos d)) at 3 by lia. lia.
  - change 0 with (inject_Z 0). rewrite <- Zle_Qle. done.
  - change 1 with (inject_Z 1). rewrite <- inject_Z_plus, <- Zle_Qle. lia.
  - change 1 with (inject_Z 1). rewrite <- Zle_Qle. lia.
Qed.

(** Rounding to an integer errs by at most one half, and recovers an integer
    that is closer than that. *)
Lemma round_half_even_close q : Qabs (inject_Z (round_half_even q) - q) <= 1 # 2.
Proof.
  pose proof (div_bounds q) as (E & H0 & H1 & H2). unfold round_half_even.
  set (f := (Qnum q / QDen q)%Z) in *. set (r := (Qnum q mod QDen q)%Z) in *. set (d := QDen q) in *.
  assert (Hf : ∀ a b c : Q, 0 < c → a * c <= b * c → a <= b) by (intros a b c Hc; by apply Qmult_le_r).
  assert (Hlo : (2 * r <= d)%Z → Qabs (inject_Z f - q) <= 1 # 2).
  { intros H. rewrite Zle_Qle, inject_Z_mult in H. change (inject_Z 2) with 2 in H.
    apply Qabs_le; apply (Hf _ _ (inject_Z d)); nra. }
  assert (Hhi : (d <= 2 * r)%Z → Qabs (inject_Z (f + 1) - q) <= 1 # 2).
  { intros H. rewrite Zle_Qle, inject_Z_mult in H. change (inject_Z 2) with 2 in H.
    rewrite inject_Z_plus. change (inject_Z 1) with 1.
    apply Qabs_le; apply (Hf _ _ (inject_Z d)); nra. }
  zcases; try (by (apply Hlo || apply Hhi); lia).
  destruct (Z.even f); [apply Hlo | apply Hhi]; lia.
Qed.

Lemma round_half_even_unique q z : Qabs (inject_Z z - q) < 1 # 2 → round_half_even q = z.
Proof.
  intros H. pose proof (round_half_even_close q) as Hc.
  apply Qabs_Qlt_condition in H as [H1 H2]. apply Qabs_Qle_condition in Hc as [H3 H4].
  destruct (Z.lt_trichotomy (round_half_even q) z) as [Hl|[He|Hl]]; [|done|];
    rewrite Zlt_Qlt in Hl; apply inject_lt in Hl; lra.
Qed.

Lemma ilog2_spec q : 0 < q → Qpower 2 (ilog2 q) <= q ∧ q < Qpower 2 (ilog2 q + 1).
Proof.
  intros Hq. destruct q as [n d]. unfold ilog2. cbn [Qnum Qden].
  assert (0 < n)%Z as Hn by (unfold Qlt in Hq; cbn in Hq; lia).
  pose proof (Z.log2_spec n Hn) as [Hn1 Hn2]. pose proof (Z.log2_spec (Zpos d) ltac:(lia)) as [Hd1 Hd2].
  pose proof (Z.log2_nonneg n). pose proof (Z.log2_nonneg (Zpos d)).
  set (a := Z.log2 n) in *. set (b := Z.log2 (Zpos d)) in *. rewrite <- !Z.add_1_r in Hn2, Hd2.
  rewrite Zle_Qle in Hn1, Hd1. rewrite Zlt_Qlt in Hn2, Hd2.
  rewrite !inject_pow in Hn1, Hd1, Hn2, Hd2 by lia. change (inject_Z 2) with 2 in *.
  assert (E : (n # d) * inject_Z (Zpos d) == inject_Z n) by (unfold Qeq; cbn; lia).
  set (x := n # d) in *. set (N := inject_Z n) in *. set (D := inject_Z (Zpos d)) in *.
  assert (0 < D) as HD by (unfold D, Qlt; cbn; lia).
  assert (Hup : x < Qpower 2 (a - b + 1)).
  { apply (Qmult_lt_r _ _ D HD). rewrite E. eapply Qlt_le_trans; [exact Hn2|].
    replace (a + 1)%Z with (a - b + 1 + b)%Z by lia. rewrite pow2_add. apply Qmult_le_l; auto. }
  assert (Hlo : Qpower 2 (a - b - 1) < x).
  { apply (Qmult_lt_r _ _ D HD). rewrite E. eapply Qlt_le_trans; [|exact Hn1].
    replace a with (a - b - 1 + (b + 1))%Z at 2 by lia. rewrite pow2_add. apply Qmult_lt_l; auto. }
  destruct (Qle_bool (Qpower 2 (a - b)) x) eqn:El.
  - apply Qle_bool_iff in El. done.
  - replace (a - b - 1 + 1)%Z with (a - b)%Z by lia. split; [by apply Qlt_le_weak|].
    apply Qnot_le_lt. rewrite <- Qle_bool_iff. congruence.
Qed.

Lemma pow2_shift e n c : Qpower 2 n == c → Qpower 2 (e + n) == c * Qpower 2 e.
Proof. intros H. rewrite pow2_add, H. ring. Qed.

(** Scaling by a power of two before rounding to an integer. *)
Lemma round_scaled m e q :
  inject_Z m * Qpower 2 e - (1 # 2) * Qpower 2 e < q → q < inject_Z m * Qpower 2 e + (1 # 2) * Qpower 2 e →
  round_half_even (q * Qpower 2 (- e)) = m.
Proof.
  intros H1 H2. apply round_half_even_unique. pose proof (pow2_cancel e) as Hc. pose proof (pow2_pos (- e)) as Hi.
  set (p := Qpower 2 e) in *. set (i := Qpower 2 (- e)) in *.
  assert (inject_Z m == inject_Z m * p * i) as Hmi by (rewrite <- Qmult_assoc, Hc; ring).
  apply Qabs_Qlt_condition. split; rewrite Hmi; nra.
Qed.

(** A rational number within [10^-16 / 2] of a number of the format is rounded
    to that number: it may fall into the binade below only when the number is
    a power of two, and then the finer spacing there still rounds it back. *)
Lemma round_near neg m e q :
  canonical m e → (0 < m)%Z → Qabs (q - dval m e) <= (1 # 20000000000000000) * dval m e →
  round_double neg q = Dnum neg m e.
Proof.
  intros ((Hm0 & Hm1) & [He0 He1] & Hnorm) Hm H. unfold dval in H. apply Qabs_Qle_condition in H as [H1 H2].
  assert (Hp := pow2_pos e). pose proof (pow2_shift e 53 _ (Qeq_refl _)) as Hb53. pose proof (pow2_shift e 52 _ (Qeq_refl _)) as Hb52.
  change (Qpower 2 53) with (9007199254740992 # 1) in Hb53. change (Qpower 2 52) with (4503599627370496 # 1) in Hb52.
  assert (1 <= inject_Z m) as HM1 by (change 1 with (inject_Z 1); rewrite <- Zle_Qle; lia).
  assert (inject_Z m + 1 <= inject_Z (2 ^ 53)) as HM2 by (apply inject_lt; by rewrite <- Zlt_Qlt).
  change (inject_Z (2 ^ 53)) with (9007199254740992 # 1) in HM2.
  assert (0 < q) as Hq by nra.
  assert (inject_Z m * Qpower 2 e - (1 # 2) * Qpower 2 e < q) as Hl by nra.
  assert (q < inject_Z m * Qpower 2 e + (1 # 2) * Qpower 2 e) as Hu by nra.
  pose proof (round_scaled m e q Hl Hu) as Hround. set (p := Qpower 2 e) in *.
  pose proof (ilog2_spec q Hq) as [Hl1 Hl2]. set (E := ilog2 q) in *.
  assert (E < e + 53)%Z as HE.
  { apply (Qpower_lt_compat_l_inv 2); [|reflexivity]. eapply Qle_lt_trans; [exact Hl1|]. rewrite Hb53. nra. }
  assert (Qle_bool q 0 = false) as Hq0 by (apply not_true_iff_false; rewrite Qle_bool_iff; lra).
  unfold round_double. rewrite Hq0. fold E.
  destruct (decide (Z.max (E - 52) (-1074) = e)) as [->|Hne].
  { rewrite Hround. destruct (Z.eqb_spec m (2 ^ 53)); [lia|]. destruct (Z.ltb_spec 971 e); [lia | done]. }
  destruct Hnorm as [Hnorm| ->]; [|lia].
  assert (q < (4503599627370496 # 1) * p) as Hqlt.
  { rewrite <- Hb52. eapply Qlt_le_trans; [exact Hl2|]. apply Qpower_le_compat_l; [lia | discriminate]. }
  assert (m = 2 ^ 52)%Z as ->.
  { destruct (Z.eq_dec m (2 ^ 52)) as [|Hn]; [done|]. exfalso.
    assert (inject_Z (2 ^ 52) + 1 <= inject_Z m) as Hs by (apply inject_lt; rewrite <- Zlt_Qlt; lia).
    change (inject_Z (2 ^ 52)) with (4503599627370496 # 1) in Hs. nra. }
  change (inject_Z (2 ^ 52)) with (4503599627370496 # 1) in *.
  pose proof (pow2_shift e 51 _ (Qeq_refl _)) as Hb51. change (Qpower 2 51) with (2251799813685248 # 1) in Hb51. fold p in Hb51.
  assert (e + 51 < E + 1)%Z as HE2.
  { apply (Qpower_lt_compat_l_inv 2); [|reflexivity]. eapply Qle_lt_trans; [|exact Hl2]. rewrite Hb51. nra. }
  replace (Z.max (E - 52) (-1074)) with (e - 1)%Z by lia.
  pose proof (pow2_shift e (-1) _ (Qeq_refl _)) as Hh. change (Qpower 2 (-1)) with (1 # 2) in Hh. fold p in Hh.
  rewrite (round_scaled (2 ^ 53) (e - 1) q); [|change (inject_Z (2 ^ 53)) with (9007199254740992 # 1); change (e - 1)%Z with (e + -1)%Z; rewrite Hh; nra..].
  rewrite Z.eqb_refl. replace (e - 1 + 1)%Z with e by lia. destruct (Z.ltb_spec 971 e); [lia | done].
Qed.

(** ** Seventeen digits are close *)

Lemma ilog10_from_spec fuel k q :
  Qpower 10 k <= q → q < Qpower 10 (k + Z.of_nat fuel) →
  let r := ilog10_from fuel k q in
  Qpower 10 r <= q ∧ q < Qpower 10 (r + 1) ∧ (k <= r < k + Z.of_nat fuel)%Z.
Proof.
  revert k. induction fuel as [|fuel IH]; intros k H1 H2; cbn [ilog10_from].
  { rewrite Z.add_0_r in H2. exfalso. lra. }
  destruct (Qle_bool _ _) eqn:E.
  - apply Qle_bool_iff in E. destruct (IH (k + 1)%Z E) as (? & ? & ?); [by replace (k + 1 + Z.of_nat fuel)%Z with (k + Z.of_nat (S fuel))%Z by lia|].
    repeat split; [done | done | lia..].
  - assert (¬ Qpower 10 (k + 1) <= q) by (rewrite <- Qle_bool_iff; congruence).
    repeat split; [done | lra | lia..].
Qed.

Lemma ilog10_spec q :
  Qpower 10 (-324) <= q → q < Qpower 10 309 →
  Qpower 10 (ilog10 q) <= q ∧ q < Qpower 10 (ilog10 q + 1) ∧ (-324 <= ilog10 q < 316)%Z.
Proof.
  intros Hlo Hhi. apply (ilog10_from_spec 640); [done|].
  eapply Qlt_le_trans; [exact Hhi|]. apply Qpower_le_compat_l; [lia | discriminate].
Qed.
#[local] Opaque ilog10.

Lemma dval_range m e : canonical m e → (0 < m)%Z → Qpower 10 (-324) <= dval m e ∧ dval m e < Qpower 10 309.
Proof.
  intros ((Hm0 & Hm1) & [He0 He1] & _) Hm. unfold dval.
  assert (Qpower 2 (-1074) <= Qpower 2 e) as H1 by (apply Qpower_le_compat_l; [lia | discriminate]).
  assert (Qpower 2 e <= Qpower 2 971) as H2 by (apply Qpower_le_compat_l; [lia | discriminate]).
  assert (1 <= inject_Z m) as HM1 by (change 1 with (inject_Z 1); rewrite <- Zle_Qle; lia).
  assert (inject_Z m <= inject_Z (2 ^ 53)) as HM2 by (rewrite <- Zle_Qle; lia).
  assert (Qpower 10 (-324) <= Qpower 2 (-1074)) as H3 by (apply Qle_bool_iff; vm_compute; reflexivity).
  assert (inject_Z (2 ^ 53) * Qpower 2 971 < Qpower 10 309) as H4.
  { apply Qnot_le_lt. rewrite <- Qle_bool_iff. vm_compute. discriminate. }
  pose proof (pow2_pos e). pose proof (pow2_pos 971).
  generalize dependent (Qpower 10 (-324)). generalize dependent (Qpower 10 309). generalize dependent (Qpower 2 (-1074)).
  generalize dependent (Qpower 2 971). generalize dependent (inject_Z (2 ^ 53)). intros. split; nra.
Qed.

(** The digits are in range and their value is within [10^-16 / 2]. *)
Lemma sig17_spec q d x :
  Qpower 10 (-324) <= q → q < Qpower 10 309 → sig17 q = (d, x) →
  (10 ^ 16 <= d < 10 ^ 17)%Z ∧ (-324 <= x <= 309)%Z ∧
  Qabs (inject_Z d * Qpower 10 (x - 16) - q) <= (1 # 20000000000000000) * q.
Proof.
  intros Hlo Hhi. unfold sig17. destruct (ilog10_spec q Hlo Hhi) as (K1 & K2 & K3).
  set (k := ilog10 q) in *. pose proof (round_half_even_close (q * Qpower 10 (16 - k))) as Hr.
  set (D := round_half_even (q * Qpower 10 (16 - k))) in *. apply Qabs_Qle_condition in Hr as [R1 R2].
  assert (k < 309)%Z as K4.
  { apply (Qpower_lt_compat_l_inv 10); [|reflexivity]. eapply Qle_lt_trans; eauto. }
  assert (E1 : Qpower 10 k * Qpower 10 (16 - k) == inject_Z (10 ^ 16)).
  { rewrite <- pow10_add. replace (k + (16 - k))%Z with 16%Z by lia. reflexivity. }
  assert (E2 : Qpower 10 (k + 1) * Qpower 10 (16 - k) == inject_Z (10 ^ 17)).
  { rewrite <- pow10_add. replace (k + 1 + (16 - k))%Z with 17%Z by lia. reflexivity. }
  pose proof (pow10_pos (16 - k)) as Ps. pose proof (pow10_cancel (16 - k)) as Pc.
  replace (- (16 - k))%Z with (k - 16)%Z in Pc by lia. pose proof (pow10_pos (k - 16)) as Pi.
  assert (E3 : Qpower 10 k == inject_Z (10 ^ 16) * Qpower 10 (k - 16)) by (rewrite <- E1; rewrite <- Qmult_assoc, Pc; ring).
  change (inject_Z (10 ^ 16)) with (10000000000000000 # 1) in *. change (inject_Z (10 ^ 17)) with (100000000000000000 # 1) in *.
  assert (Hclose : Qabs (inject_Z D * Qpower 10 (k - 16) - q) <= (1 # 20000000000000000) * q).
  { set (i := Qpower 10 (k - 16)) in *. set (s := Qpower 10 (16 - k)) in *. assert (q == q * s * i) as Hqi by (rewrite <- Qmult_assoc, Pc; ring).
    assert (inject_Z D * i - q == (inject_Z D - q * s) * i) as -> by (rewrite Hqi at 1; ring).
    apply Qabs_le; nra. }
  assert (10 ^ 16 <= D <= 10 ^ 17)%Z as [D1 D2].
  { split.
    - apply Z.lt_succ_r. rewrite Zlt_Qlt. unfold Z.succ. rewrite inject_Z_plus. change (inject_Z (10 ^ 16)) with (10000000000000000 # 1). change (inject_Z 1) with 1. nra.
    - apply Z.lt_succ_r. rewrite Zlt_Qlt. unfold Z.succ. rewrite inject_Z_plus. change (inject_Z (10 ^ 17)) with (100000000000000000 # 1). change (inject_Z 1) with 1. nra. }
  destruct (Z.eqb_spec D (10 ^ 17)) as [HD|HD]; intros [= <- <-]; (split; [lia|]; split; [lia|]); [|done].
  replace (k + 1 - 16)%Z with (1 + (k - 16))%Z by lia. rewrite pow10_add, Qmult_assoc.
  change (inject_Z (10 ^ 16) * Qpower 10 1) with (inject_Z (10 ^ 17)). by rewrite <- HD.
Qed.

(** *** Integers and other small numbers *)

(** Numbers that are not huge are rounded to finite ones. *)
Lemma round_double_finite neg q : q < Qpower 2 1000 → ∃ m e, round_double neg q = Dnum neg m e ∧ canonical m e.
Proof.
  intros Hlt. unfold round_double. destruct (Qle_bool q 0) eqn:E0.
  { do 2 eexists. split; [reflexivity|]. split; [lia|]. split; [lia | by right]. }
  assert (0 < q) as Hq by (apply Qnot_le_lt; intros H%Qle_bool_iff; congruence).
  pose proof (ilog2_spec q Hq) as [Hl1 Hl2]. set (E := ilog2 q) in *.
  assert (E < 1000)%Z as HE by (apply (Qpower_lt_compat_l_inv 2); [|reflexivity]; eapply Qle_lt_trans; [exact Hl1 | exact Hlt]).
  set (e := Z.max (E - 52) (-1074)). set (x := q * Qpower 2 (- e)). set (m := round_half_even x).
  pose proof (round_half_even_close x) as Hc. fold m in Hc. apply Qabs_Qle_condition in Hc as [Hc1 Hc2].
  assert (x < inject_Z (2 ^ 53)) as Hx.
  { unfold x. apply Qlt_le_trans with (Qpower 2 (E + 1) * Qpower 2 (- e)); [apply Qmult_lt_compat_r; [apply pow2_pos | exact Hl2]|].
    rewrite <- pow2_add, inject_pow by lia. apply Qpower_le_compat_l; [unfold e; lia | discriminate]. }
  assert (0 <= x) as Hx0 by (unfold x; apply Qmult_le_0_compat; apply Qlt_le_weak; [done | apply pow2_pos]).
  assert (0 <= m <= 2 ^ 53)%Z as Hm.
  { split.
    - apply Z.lt_succ_r. rewrite Zlt_Qlt, <- Z.add_1_r, inject_Z_plus. change (inject_Z 1) with 1. change (inject_Z 0) with 0. lra.
    - apply Z.lt_succ_r. rewrite Zlt_Qlt, <- Z.add_1_r, inject_Z_plus. change (inject_Z 1) with 1. lra. }
  assert (e = -1074 ∨ 2 ^ 52 <= m)%Z as Hn.
  { destruct (Z.le_gt_cases (E - 52) (-1074)); [left; unfold e; lia | right]. assert (e = E - 52)%Z as He by (unfold e; lia).
    assert (inject_Z (2 ^ 52) <= x) as Hx52.
    { unfold x. rewrite He. apply Qle_trans with (Qpower 2 E * Qpower 2 (- (E - 52))); [|apply Qmult_le_compat_r; [exact Hl1 | apply Qlt_le_weak, pow2_pos]].
      rewrite <- pow2_add. replace (E + - (E - 52))%Z with 52%Z by lia. rewrite inject_pow by lia. apply Qle_refl. }
    apply Z.lt_succ_r. rewrite Zlt_Qlt, <- Z.add_1_r, inject_Z_plus. change (inject_Z 1) with 1. lra. }
  destruct (Z.eqb_spec m (2 ^ 53)) as [Em|Em].
  - destruct (Z.ltb_spec 971 (e + 1)); [unfold e in *; lia|]. do 2 eexists. split; [reflexivity|]. split; [lia|]. split; [unfold e; lia | left; lia].
  - destruct (Z.ltb_spec 971 e); [unfold e in *; lia|]. do 2 eexists. split; [reflexivity|]. split; [lia|]. split; [unfold e; lia | lia].
Qed.

(** Small integers are exact. *)
Lemma round_double_int neg z : (0 <= z < 2 ^ 53)%Z →
  ∃ m e, round_double neg (inject_Z z) = Dnum neg m e ∧ canonical m e ∧ dval m e == inject_Z z.
Proof.
  intros Hz. destruct (Z.eq_dec z 0) as [->|Hn].
  { do 2 eexists. split; [reflexivity|]. split; [split; [lia | split; [lia | by right]] | unfold dval; ring]. }
  pose proof (Z.log2_spec z ltac:(lia)) as [L1 L2]. set (k := Z.log2 z) in *. pose proof (Z.log2_nonneg z). fold k in H.
  assert (k < 53)%Z as Hk by (apply (Z.pow_lt_mono_r_iff 2); lia).
  assert (2 ^ 52 <= z * 2 ^ (52 - k) < 2 ^ 53)%Z as Hm.
  { replace (2 ^ 52)%Z with (2 ^ k * 2 ^ (52 - k))%Z by (rewrite <- Z.pow_add_r by lia; f_equal; lia).
    replace (2 ^ 53)%Z with (2 ^ Z.succ k * 2 ^ (52 - k))%Z by (rewrite <- Z.pow_add_r by lia; f_equal; lia).
    pose proof (Z.pow_pos_nonneg 2 (52 - k) ltac:(lia) ltac:(lia)). split; [apply Z.mul_le_mono_nonneg_r; lia | apply Z.mul_lt_mono_pos_r; lia]. }
  assert (canonical (z * 2 ^ (52 - k)) (k - 52)) as Hcan by (split; [lia | split; [lia | left; lia]]).
  assert (dval (z * 2 ^ (52 - k)) (k - 52) == inject_Z z) as Hd.
  { unfold dval. rewrite inject_Z_mult, inject_pow by lia. change (inject_Z 2) with 2. rewrite <- Qmult_assoc, <- pow2_add. replace (52 - k + (k - 52))%Z with 0%Z by lia. change (Qpower 2 0) with 1. ring. }
  exists (z * 2 ^ (52 - k))%Z, (k - 52)%Z. split_and!; [|done | done]. apply round_near; [done | lia|]. rewrite Hd.
  assert (inject_Z z - inject_Z z == 0) as -> by ring. change (Qabs 0) with 0. apply Qmult_le_0_compat; [discriminate|]. change 0 with (inject_Z 0). rewrite <- Zle_Qle. lia.
Qed.

(** ** The printed text is read back *)

#[local] Open Scope string_scope.
#[local] Open Scope Z_scope.

Lemma digit_char_digit d : 0 <= d < 10 → digit 10 (digit_char d) = Some d ∧ code (digit_char d) = 48 + d.
Proof.
  intros H. assert (d ∈ seqZ 0 10) as Hin by (apply elem_of_seqZ; lia). clear H. revert d Hin.
  apply Forall_forall. decide_now.
Qed.

Lemma digit_not_space c : is_Some (digit 10 c) → isspace c = false.
Proof.
  intros [x Hx]. unfold digit in Hx. unfold isspace. destruct ((48 <=? code c) && (code c <=? 57)) eqn:E.
  - apply andb_true_iff in E as [E1%Z.leb_le E2%Z.leb_le]. zcases; done.
  - destruct ((97 <=? code c) && (code c <=? 102)) eqn:E1; [|destruct ((65 <=? code c) && (code c <=? 70)) eqn:E2]; zcases; done || lia.
Qed.

(** What is behind the digits of a number. *)
Definition no_digit (s : string) : Prop := match s with String c _ => digit 10 c = None | EmptyString => True end.

Lemma digits_dec n z acc seen s :
  0 <= z < 10 ^ Z.of_nat n →
  digits 10 acc seen (dec_app n z s) = digits 10 (acc * 10 ^ Z.of_nat n + z) (seen || negb (n =? 0)%nat) s.
Proof.
  revert z acc seen s. induction n as [|n IH]; intros z acc seen s Hz; cbn [dec_app].
  { change (10 ^ Z.of_nat 0) with 1 in *. rewrite orb_false_r. f_equal. lia. }
  rewrite Nat2Z.inj_succ, Z.pow_succ_r in Hz by lia. rewrite IH by lia. cbn [digits].
  destruct (digit_char_digit (z mod 10) ltac:(lia)) as [-> _]. rewrite orb_true_r. f_equal.
  rewrite Nat2Z.inj_succ, Z.pow_succ_r by lia. lia.
Qed.

Lemma digits_stop acc seen s : no_digit s → digits 10 acc seen s = (acc, seen, s).
Proof. destruct s as [|c s]; cbn; [done|]. by intros ->. Qed.

Lemma length_dec n z s : String.length (dec_app n z s) = (n + String.length s)%nat.
Proof. revert z s. induction n as [|n IH]; intros z s; cbn; [done|]. rewrite IH. cbn. lia. Qed.

(** Decimal numbers as they are printed: a number without leading zeros, a
    fraction of [fn] digits and an exponent. *)
Definition frac_text (fn : nat) (f : Z) (s : string) : string := if (fn =? 0)%nat then s else String "." (dec_app fn f s).
Definition exp_part (x : option Z) (s : string) : string :=
  if x is Some x then String "e" (String (if x <? 0 then "-"%char else "+"%char) (dec_app (if Z.abs x <? 100 then 2 else 3) (Z.abs x) s)) else s.

Record Decimal := mk_dec { int_digits : nat; int_part : Z; frac_digits : nat; frac_part : Z; exp : option Z }.

Record decimal_ok (d : Decimal) : Prop := {
  do_digits : (1 <= int_digits d)%nat;
  do_int : 0 <= int_part d < 10 ^ Z.of_nat (int_digits d);
  do_zero : int_digits d = 1%nat ∨ 10 ^ (Z.of_nat (int_digits d) - 1) <= int_part d;
  do_frac : 0 <= frac_part d < 10 ^ Z.of_nat (frac_digits d);
  do_exp : if exp d is Some x then Z.abs x < 1000 else True
}.

Definition decimal_text (d : Decimal) (s : string) : string :=
  dec_app (int_digits d) (int_part d) (frac_text (frac_digits d) (frac_part d) (exp_part (exp d) s)).

Definition decimal_value (d : Decimal) : Q :=
  inject_Z (int_part d * 10 ^ Z.of_nat (frac_digits d) + frac_part d) * Qpower 10 (default 0 (exp d) - Z.of_nat (frac_digits d)).

(** What may follow a number: no digit, no point, no exponent. *)
Definition number_ends (s : string) : Prop :=
  match s with String c _ => digit 10 c = None ∧ c ≠ "."%char ∧ c ≠ "e"%char ∧ c ≠ "E"%char | EmptyString => True end.

Lemma no_digit_exp x s : number_ends s → no_digit (exp_part x s).
Proof. destruct x; cbn; [done|]. destruct s; cbn; [done|]. by intros []. Qed.

Lemma mantissa_text d s :
  decimal_ok d → number_ends s →
  mantissa 10 (decimal_text d s) =
    (int_part d * 10 ^ Z.of_nat (frac_digits d) + frac_part d, Z.of_nat (frac_digits d), true, exp_part (exp d) s).
Proof.
  intros [Hd Hi _ Hf _] Hs. pose proof (no_digit_exp (exp d) s Hs) as Hn. unfold mantissa, decimal_text.
  rewrite digits_dec by done. destruct (Nat.eqb_spec (int_digits d) 0); [lia|]. cbn [orb negb]. rewrite Z.mul_0_l, Z.add_0_l.
  unfold frac_text. destruct (Nat.eqb_spec (frac_digits d) 0) as [E|E].
  - rewrite E in *. change (10 ^ Z.of_nat 0) with 1 in *. rewrite digits_stop by done.
    assert (skip_char "." "." (exp_part (exp d) s) = None) as ->.
    { destruct (exp d); [done|]. cbn. destruct s as [|c s]; [done|]. cbn. destruct Hs as (_ & Hc & _).
      destruct (Ascii.eqb_spec c "."); done. }
    repeat f_equal; lia.
  - rewrite digits_stop by done. cbn [skip_char Ascii.eqb Bool.eqb orb]. rewrite digits_dec by done. cbn [orb].
    rewrite digits_stop by done. rewrite length_dec. do 3 f_equal. lia.
Qed.

Lemma exponent_text x s :
  (if x is Some x then Z.abs x < 1000 else True) → number_ends s →
  exponent "e" "E" (exp_part x s) = Some (default 0 x, s).
Proof.
  intros Hx Hs. unfold exponent. destruct x as [x|]; cbn [exp_part default].
  - assert (no_digit s) as Hn by (destruct s; [done | apply Hs]).
    assert (Hdig : digits 10 0 false (dec_app (if Z.abs x <? 100 then 2 else 3) (Z.abs x) s) = (Z.abs x, true, s)).
    { rewrite digits_dec by (destruct (Z.ltb_spec (Z.abs x) 100); cbn; lia). rewrite digits_stop by done.
      destruct (Z.abs x <? 100); done. }
    cbn [skip_char Ascii.eqb Bool.eqb orb]. unfold sign. destruct (Z.ltb_spec x 0);
      cbn [skip_char Ascii.eqb Bool.eqb orb]; rewrite Hdig; unfold id; do 2 f_equal; lia.
  - destruct s as [|c s]; [done|]. cbn. destruct Hs as (_ & _ & H1 & H2).
    destruct (Ascii.eqb_spec c "e"), (Ascii.eqb_spec c "E"); done.
Qed.

Lemma decimal_head d s : decimal_ok d → ∃ c t, decimal_text d s = String c t ∧ is_Some (digit 10 c).
Proof.
  intros [Hd Hi _ _ _]. unfold decimal_text. generalize (frac_text (frac_digits d) (frac_part d) (exp_part (exp d) s)).
  generalize dependent (int_part d). generalize dependent (int_digits d).
  intros n Hn. destruct n as [|n]; [lia|]. clear Hn. induction n as [|n IH]; intros z Hz r.
  - cbn [dec_app]. eexists _, _. split; [done|]. destruct (digit_char_digit (z mod 10) ltac:(lia)) as [-> _]. eauto.
  - change (dec_app (S (S n)) z r) with (dec_app (S n) (z / 10) (String (digit_char (z mod 10)) r)). apply IH.
    rewrite Nat2Z.inj_succ, Z.pow_succ_r in Hz by lia. lia.
Qed.

Lemma strtod_decimal neg d s :
  decimal_ok d → number_ends s →
  strtod ((if neg : bool then "-" else "") ++ decimal_text d s) = (round_double neg (decimal_value d), s).
Proof.
  intros Hd Hs. unfold strtod.
  assert (skip_space ((if neg then "-" else "") ++ decimal_text d s) = (if neg then "-" else "") ++ decimal_text d s) as ->.
  { destruct neg; [done|]. destruct (decimal_head d s Hd) as (c & t & -> & Hc). change ("" +:+ String c t) with (String c t).
    cbn [skip_space]. by rewrite (digit_not_space c Hc). }
  assert (sign ((if neg then "-" else "") ++ decimal_text d s) = (if neg then -1 else 1, decimal_text d s)) as ->.
  { destruct neg; [done|]. destruct (decimal_head d s Hd) as (c & t & -> & [x Hx]). change ("" +:+ String c t) with (String c t).
    unfold sign, skip_char. destruct (Ascii.eqb_spec c "-"); [by subst|]. destruct (Ascii.eqb_spec c "+"); [by subst | done]. }
  rewrite mantissa_text by done. cbn [negb]. rewrite exponent_text by (done || apply Hd). cbn. by destruct neg.
Qed.

Lemma frac_app_text n f s :
  0 <= f < 10 ^ Z.of_nat n →
  ∃ n' f', frac_app n f s = frac_text n' f' s ∧ (n' <= n)%nat ∧ 0 <= f' < 10 ^ Z.of_nat n' ∧
    f = f' * 10 ^ (Z.of_nat n - Z.of_nat n').
Proof.
  revert f. induction n as [|n IH]; intros f Hf; cbn [frac_app].
  { exists 0%nat, 0. change (10 ^ Z.of_nat 0) with 1 in *. cbn. repeat split; lia. }
  destruct (Z.eqb_spec (f mod 10) 0) as [E|E].
  - assert (0 <= f / 10 < 10 ^ Z.of_nat n) as Hf' by (rewrite Nat2Z.inj_succ, Z.pow_succ_r in Hf by lia; lia).
    destruct (IH (f / 10) Hf') as (n' & f' & -> & Hn & Hb & He).
    exists n', f'. split; [done|]. split; [lia|]. split; [done|].
    replace (Z.of_nat (S n) - Z.of_nat n') with (Z.succ (Z.of_nat n - Z.of_nat n')) by lia.
    rewrite Z.pow_succ_r by lia. rewrite (Z.mul_comm f'), <- Z.mul_assoc, (Z.mul_comm _ f'), <- He. lia.
  - exists (S n), f. rewrite Z.sub_diag, Z.mul_1_r. repeat split; (lia || done).
Qed.

(** The value of an integer part and a stripped fraction. *)
Lemma strip_value i n n' f f' x d :
  (n' <= n)%nat → f = f' * 10 ^ (Z.of_nat n - Z.of_nat n') → d = i * 10 ^ Z.of_nat n + f →
  (inject_Z (i * 10 ^ Z.of_nat n' + f') * Qpower 10 (x - Z.of_nat n') == inject_Z d * Qpower 10 (x - Z.of_nat n))%Q.
Proof.
  intros Hn -> ->. set (k := Z.of_nat n - Z.of_nat n'). assert (0 <= k) as Hk by lia.
  replace (Z.of_nat n) with (Z.of_nat n' + k) by lia. rewrite Z.pow_add_r by lia.
  replace (i * (10 ^ Z.of_nat n' * 10 ^ k) + f' * 10 ^ k) with ((i * 10 ^ Z.of_nat n' + f') * 10 ^ k) by lia.
  rewrite inject_Z_mult, (inject_pow 10) by done. change (inject_Z 10) with 10%Q. rewrite <- Qmult_assoc, <- pow10_add.
  replace (k + (x - (Z.of_nat n' + k))) with (x - Z.of_nat n') by lia. reflexivity.
Qed.

Lemma print_sig_decimal d x :
  10 ^ 16 <= d < 10 ^ 17 → -324 <= x <= 309 →
  ∃ D, decimal_ok D ∧ print_sig d x = decimal_text D "" ∧ (decimal_value D == inject_Z d * Qpower 10 (x - 16))%Q.
Proof.
  intros Hd Hx. unfold print_sig. destruct (Z.leb_spec (-4) x), (Z.ltb_spec x 17); cbn [andb].
  1: { set (n := Z.to_nat (16 - x)). assert (Z.of_nat n = 16 - x) as En by lia. rewrite <- En.
    assert (0 < 10 ^ Z.of_nat n) as Hp by (apply Z.pow_pos_nonneg; lia).
    destruct (frac_app_text n (d mod 10 ^ Z.of_nat n) "" ltac:(by apply Z.mod_pos_bound)) as (n' & f' & -> & Hn & Hb & He).
    exists (mk_dec (Z.to_nat (Z.max 0 x + 1)) (d / 10 ^ Z.of_nat n) n' f' None). split; [|split; [done|]].
    - assert (Hi : d / 10 ^ Z.of_nat n < 10 ^ (x + 1) ∨ x < 0).
      { destruct (Z.lt_ge_cases x 0); [by right|left]. apply Z.div_lt_upper_bound; [done|]. rewrite En, <- Z.pow_add_r by lia.
        replace (16 - x + (x + 1)) with 17 by lia. lia. }
      assert (Hj : 10 ^ x <= d / 10 ^ Z.of_nat n ∨ x < 0).
      { destruct (Z.lt_ge_cases x 0); [by right|left]. apply Z.div_le_lower_bound; [done|]. rewrite En, <- Z.pow_add_r by lia.
        replace (16 - x + x) with 16 by lia. lia. }
      assert (Hk : x < 0 → d / 10 ^ Z.of_nat n = 0).
      { intros. apply Z.div_small. split; [lia|]. eapply Z.lt_le_trans; [apply Hd|]. apply Z.pow_le_mono_r; lia. }
      assert (0 <= d / 10 ^ Z.of_nat n) by (apply Z.div_pos; lia).
      destruct (Z.lt_ge_cases x 0) as [Hx0|Hx0].
      { rewrite Hk in * by done. replace (Z.to_nat (Z.max 0 x + 1)) with 1%nat by lia. constructor; cbn; (lia || auto). }
      destruct Hi as [Hi|]; [|lia]. destruct Hj as [Hj|]; [|lia].
      constructor; cbn [int_digits int_part frac_digits frac_part exp]; [lia | | right | done | done];
        replace (Z.of_nat (Z.to_nat (Z.max 0 x + 1))) with (x + 1) by lia; [lia|]. by replace (x + 1 - 1) with x by lia.
    - unfold decimal_value. cbn [int_digits int_part frac_digits frac_part exp default].
      rewrite (strip_value _ n n' _ f' 0 d Hn He) by (pose proof (Z.div_mod d (10 ^ Z.of_nat n)); lia).
      by replace (0 - Z.of_nat n) with (x - 16) by lia. }
  all: destruct (frac_app_text 16 (d mod 10 ^ 16) (exp_text x) ltac:(change (Z.of_nat 16) with 16; lia)) as (n' & f' & -> & Hn & Hb & He);
    exists (mk_dec 1 (d / 10 ^ 16) n' f' (Some x)); (split; [constructor; cbn [int_digits int_part frac_digits frac_part exp]; try (lia || done)|split; [done|]]);
    unfold decimal_value; cbn [int_digits int_part frac_digits frac_part exp default]; unfold id;
    rewrite (strip_value _ 16 n' _ f' x d Hn He) by (change (Z.of_nat 16) with 16; lia); reflexivity.
Qed.

Lemma dec_app_app n z s t : dec_app n z s +:+ t = dec_app n z (s +:+ t).
Proof. revert z s. induction n as [|n IH]; intros z s; cbn [dec_app]; [done|]. by rewrite IH. Qed.

Lemma decimal_text_app D s : decimal_text D "" +:+ s = decimal_text D s.
Proof.
  unfold decimal_text. rewrite dec_app_app. f_equal. unfold frac_text.
  assert (exp_part (exp D) "" +:+ s = exp_part (exp D) s) as E.
  { destruct (exp D) as [x|]; [|done]. cbn [exp_part]. change (String "e" (String ?c ?a) +:+ s) with (String "e" (String c (a +:+ s))). by rewrite dec_app_app. }
  destruct (_ =? _)%nat; [done|]. change (String "." ?a +:+ s) with (String "." (a +:+ s)). by rewrite dec_app_app, E.
Qed.

(** Seventeen significant digits identify a number. *)
Lemma print_strtod neg m e :
  canonical m e →
  ∃ D, decimal_ok D ∧ print_double (Dnum neg m e) = Some ((if neg then "-" else "") +:+ decimal_text D "") ∧
    round_double neg (decimal_value D) = Dnum neg m e.
Proof.
  intros Hc. unfold print_double, print_abs. destruct (Z.eqb_spec m 0) as [->|Hm].
  { exists (mk_dec 1 0 0 0 None). split; [constructor; cbn; (lia || auto)|]. split; [by destruct neg|].
    assert (e = -1074) as -> by (destruct Hc as (_ & _ & [Hl|]); [cbn in Hl; lia | done]). reflexivity. }
  assert (0 < m) as Hm0 by (destruct Hc as [? _]; lia).
  destruct (dval_range m e Hc Hm0) as [H1 H2]. destruct (sig17 (dval m e)) as [d x] eqn:E.
  destruct (sig17_spec _ _ _ H1 H2 E) as (Hd & Hx & Hclose).
  destruct (print_sig_decimal d x Hd Hx) as (D & HD & -> & Hv).
  exists D. split; [done|]. split; [by destruct neg|]. apply round_near; [done | done|]. by rewrite Hv.
Qed.

End Dbl.
