(* ===== verification/Json.v ===== *)
(** * JSON values, parser and printers (lib/parsers/json.h, json.c)

    A value is a tree; an object is a hash table of HashMap.v.  The parser works
    on the text that is still to be read.  The position of the program is the
    length of what was read before; running past the end of the text, or out of
    the fuel of a loop, is the result [PStuck], which [json_parse] never gives. *)

From S2P Require Import Prelude CString HashMap Double.
From Stdlib Require Import Ascii.

Module Json.
Import CStr HMap Dbl.

#[local] Open Scope string_scope.
#[local] Open Scope list_scope.
#[local] Open Scope Z_scope.

Definition JSON_MAX_RECURSION_DEPTH : nat := 50.

Unset Elimination Schemes.

(** [JString None] is the string pointer NULL. *)
Inductive JsonValue :=
  | JNull
  | JTrue
  | JFalse
  | JNumber (number : Double)
  | JString (str : option string)
  | JObject (object : HashMap (V := JsonValue))
  | JArray (vals : list JsonValue).

Set Elimination Schemes.

(** The items of an object. *)
Abbreviation JsonTable := (HashMap (V := JsonValue)).

(** The result of a parsing function. *)
Inductive PResult (A : Type) := POk (a : A) | PErr | PStuck.
Arguments POk {A}.
Arguments PErr {A}.
Arguments PStuck {A}.

#[global] Instance presult_bind : MBind PResult := λ A B f m,
  match m with POk a => f a | PErr => PErr | PStuck => PStuck end.

(** ** Strings *)

Definition chr (n : Z) : ascii := ascii_of_N (Z.to_N n).
Definition quote : ascii := chr 34.

(** The next [count] hexadecimal digits. *)
Fixpoint get_hex (count : nat) (ret : Z) (text : string) : option (Z * string) :=
  match count, text with
  | O, _ => Some (ret, text)
  | S count, String c text => x ← digit 16 c; get_hex count (Z.shiftl ret 4 + x) text
  | S _, EmptyString => None
  end.

Definition write_utf8 (c : Z) : string :=
  let part (shift mask : Z) := Z.land (Z.shiftr c shift) mask in
  if c <=? 127 then String (chr (Z.land c 127)) EmptyString
  else if c <=? 2047 then String (chr (192 + part 6 31)) (String (chr (128 + part 0 63)) EmptyString)
  else if c <=? 65535 then
    String (chr (224 + part 12 15)) (String (chr (128 + part 6 63)) (String (chr (128 + part 0 63)) EmptyString))
  else
    String (chr (240 + part 18 7)) (String (chr (128 + part 12 63))
      (String (chr (128 + part 6 63)) (String (chr (128 + part 0 63)) EmptyString))).

Definition utf16_high_surrogate (u : Z) : bool := (55296 <=? u) && (u <=? 56319).
Definition utf16_low_surrogate (u : Z) : bool := (56320 <=? u) && (u <=? 57343).

(** A C string ends at its first NUL. *)
Fixpoint c_string (s : string) : string :=
  match s with
  | EmptyString => EmptyString
  | String c s => if code c =? 0 then EmptyString else String c (c_string s)
  end.

(** The first pass of [get_string]: the octets before the closing quote, the
    number of escapes, and the text behind the quote. *)
Fixpoint scan_string (in_escape : bool) (escapes : nat) (text : string) : option (string * nat * string) :=
  match text with
  | EmptyString => None
  | String c text =>
      let take (esc : bool) (escapes : nat) := '(s, n, rest) ← scan_string esc escapes text; Some (String c s, n, rest) in
      if in_escape then take false escapes
      else if Ascii.eqb c "\" then take true (S escapes)
      else if Ascii.eqb c quote then Some (EmptyString, escapes, text)
      else if code c <=? 31 then None
      else take false escapes
  end.

(** The character of a simple escape. *)
Definition simple_escape (c : ascii) : option ascii :=
  if Ascii.eqb c quote then Some quote
  else if Ascii.eqb c "\" then Some "\"%char
  else if Ascii.eqb c "n" then Some (chr 10)
  else if Ascii.eqb c "t" then Some (chr 9)
  else if Ascii.eqb c "r" then Some (chr 13)
  else if Ascii.eqb c "f" then Some (chr 12)
  else if Ascii.eqb c "b" then Some (chr 8)
  else if Ascii.eqb c "/" then Some "/"%char
  else None.

(** The second pass: the octets of the string and the text behind it. *)
Fixpoint unescape (fuel : nat) (text : string) : PResult (string * string) :=
  match fuel with
  | O => PStuck
  | S fuel =>
      let push (out text : string) := '(s, rest) ← unescape fuel text; POk (out +:+ s, rest) in
      match text with
      | EmptyString => PStuck
      | String c text =>
          if Ascii.eqb c "\" then
            match text with
            | EmptyString => PStuck
            | String d text =>
                match simple_escape d with
                | Some x => push (String x EmptyString) text
                | None =>
                    if Ascii.eqb d "u" then
                      match get_hex 4 0 text with
                      | None => PErr
                      | Some (u, text) =>
                          if utf16_high_surrogate u then
                            match text with
                            | String c1 (String c2 text) =>
                                if Ascii.eqb c1 "\" && Ascii.eqb c2 "u" then
                                  match get_hex 4 0 text with
                                  | Some (v, text) =>
                                      if utf16_low_surrogate v then
                                        push (write_utf8 (Z.shiftl (Z.land u 1023) 10 + Z.land v 1023 + 65536)) text
                                      else PErr
                                  | None => PErr
                                  end
                                else PErr
                            | _ => PErr
                            end
                          else if utf16_low_surrogate u then PErr
                          else push (write_utf8 u) text
                      end
                    else PErr
                end
            end
          else if Ascii.eqb c quote then POk (EmptyString, text)
          else push (String c EmptyString) text
      end
  end.

Definition get_string (text : string) : PResult (string * string) :=
  match text with
  | EmptyString => PStuck
  | String q text =>
      if Ascii.eqb q quote then
        match scan_string false 0 text with
        | None => PErr
        | Some (s, O, rest) => POk (c_string s, rest)
        | Some (_, S _, _) =>
            '(s, rest) ← unescape (S (String.length text)) text; POk (c_string s, rest)
        end
      else PErr
  end.

(** ** Numbers *)

Definition isdigit (c : ascii) : bool := if digit 10 c is Some _ then true else false.

Fixpoint span (p : ascii → bool) (s : string) : string * string :=
  match s with
  | EmptyString => (EmptyString, EmptyString)
  | String c s' => if p c then let '(a, b) := span p s' in (String c a, b) else (EmptyString, s)
  end.

Definition number_int (s : string) : option (string * string) :=
  let '(ds, rest) := span isdigit s in
  match ds with
  | EmptyString => None
  | String c (String _ _) => if Ascii.eqb c "0" then None else Some (ds, rest)
  | _ => Some (ds, rest)
  end.

Definition number_frac (s : string) : option (string * string) :=
  match s with
  | String c s' =>
      if Ascii.eqb c "." then
        match span isdigit s' with (EmptyString, _) => None | (ds, rest) => Some (String c ds, rest) end
      else Some (EmptyString, s)
  | EmptyString => Some (EmptyString, s)
  end.

Definition number_exp (s : string) : option (string * string) :=
  match s with
  | String c s' =>
      if Ascii.eqb c "e" || Ascii.eqb c "E" then
        match s' with
        | EmptyString => None
        | String d s'' =>
            if Ascii.eqb d "-" || Ascii.eqb d "+" then
              match span isdigit s'' with (EmptyString, _) => None | (ds, rest) => Some (String c (String d ds), rest) end
            else if isdigit d then let '(ds, rest) := span isdigit s' in Some (String c ds, rest)
            else None
        end
      else Some (EmptyString, s)
  | EmptyString => Some (EmptyString, s)
  end.

Definition number_sign (s : string) : string * string :=
  match s with
  | String c s' => if Ascii.eqb c "-" then (String c EmptyString, s') else (EmptyString, s)
  | EmptyString => (EmptyString, s)
  end.

(** The text of a number, and the text behind it. *)
Definition get_number_str (text : string) : option (string * string) :=
  let '(sp, s) := span isspace text in
  let '(neg, s) := number_sign s in
  '(ds, s) ← number_int s;
  '(fs, s) ← number_frac s;
  '(es, s) ← number_exp s;
  Some (sp +:+ neg +:+ ds +:+ fs +:+ es, s).

(** ** The parser *)

Fixpoint drop_prefix (w s : string) : option string :=
  match w, s with
  | EmptyString, _ => Some s
  | String c w, String d s => if Ascii.eqb c d then drop_prefix w s else None
  | String _ _, EmptyString => None
  end.

Definition parse_number (text : string) : PResult (JsonValue * string) :=
  match get_number_str text with
  | None => PErr
  | Some (num, rest) =>
      let '(d, num_end) := strtod num in
      if negb (isfinite d) then PErr
      else if bool_decide (num_end = num) then PErr
      else POk (JNumber d, num_end +:+ rest)
  end.

(** The values that are words, and numbers. *)
Definition word_value (s : string) : PResult (JsonValue * string) :=
  match drop_prefix "true" s, drop_prefix "false" s, drop_prefix "null" s with
  | Some s, _, _ => POk (JTrue, s)
  | None, Some s, _ => POk (JFalse, s)
  | None, None, Some s => POk (JNull, s)
  | None, None, None => parse_number s
  end.

(** [SKIP_WS], and the end of the text is an error. *)
Definition next_token (text : string) : PResult (ascii * string) :=
  match skip_space text with EmptyString => PErr | String c s => POk (c, s) end.

Definition empty_object : HashMap (V := JsonValue) := mk_hash (replicate 13 []) 0.

Section loops.
Context (value : string → PResult (JsonValue * string)).

(** The loop over the items of an object, at a key; [h] are the items so far. *)
Fixpoint parse_members (fuel : nat) (h : HashMap) (text : string) : PResult (HashMap * string) :=
  match fuel with
  | O => PStuck
  | S fuel =>
      '(key, text) ← get_string text;
      '(c, text) ← next_token text;
      if negb (Ascii.eqb c ":") then PErr else
      '(c, text) ← next_token text;
      '(val, text) ← value (String c text);
      let h := if hashmap_contains h key then h else (hashmap_insert h key val).1.2 in
      '(c, text) ← next_token text;
      if Ascii.eqb c "}" then POk (h, text)
      else if negb (Ascii.eqb c ",") then PErr
      else '(c, text) ← next_token text; parse_members fuel h (String c text)
  end.

(** The loop over the items of an array. *)
Fixpoint parse_elements (fuel : nat) (l : list JsonValue) (text : string) : PResult (list JsonValue * string) :=
  match fuel with
  | O => PStuck
  | S fuel =>
      '(val, text) ← value text;
      let l := l ++ [val] in
      '(c, text) ← next_token text;
      if Ascii.eqb c "]" then POk (l, text)
      else if negb (Ascii.eqb c ",") then PErr
      else '(c, text) ← next_token text; parse_elements fuel l (String c text)
  end.
End loops.

(** [levels] is how many levels of recursion are still allowed. *)
Fixpoint parse_value (levels : nat) (text : string) : PResult (JsonValue * string) :=
  match levels with
  | O => PErr
  | S levels =>
      '(c, s) ← next_token text;
      if Ascii.eqb c "{" then
        '(c, s) ← next_token s;
        if Ascii.eqb c "}" then POk (JObject empty_object, s)
        else '(h, s) ← parse_members (parse_value levels) (S (String.length s)) empty_object (String c s); POk (JObject h, s)
      else if Ascii.eqb c "[" then
        '(c, s) ← next_token s;
        if Ascii.eqb c "]" then POk (JArray [], s)
        else '(l, s) ← parse_elements (parse_value levels) (S (String.length s)) [] (String c s); POk (JArray l, s)
      else if Ascii.eqb c quote then '(str, s) ← get_string (String c s); POk (JString (Some str), s)
      else word_value (String c s)
  end.

Definition json_parse (text : string) : PResult JsonValue :=
  '(v, rest) ← parse_value (S JSON_MAX_RECURSION_DEPTH) text;
  match skip_space rest with
  | EmptyString => POk v
  | String c EmptyString => if code c =? 0 then POk v else PErr
  | _ => PErr
  end.
(** ** Printers

    The text is built in a buffer that grows on demand; [None] is the result
    NULL of a value with an infinite number or no number. *)

Definition hex_char (d : Z) : ascii := if d <? 10 then chr (48 + d) else chr (87 + d).

(** How [serialize_string] writes a character. *)
Definition escape_char (c : ascii) : string :=
  let n := code c in
  let esc (d : ascii) := String "\" (String d EmptyString) in
  if n <=? 31 then
    if n =? 10 then esc "n"%char
    else if n =? 9 then esc "t"%char
    else if n =? 13 then esc "r"%char
    else if n =? 12 then esc "f"%char
    else if n =? 8 then esc "b"%char
    else "\u00" +:+ String (hex_char (n / 16)) (String (hex_char (n mod 16)) EmptyString)
  else if Ascii.eqb c quote then esc quote
  else if Ascii.eqb c "\" then esc "\"%char
  else String c EmptyString.

(** The characters up to the NUL that ends the string. *)
Fixpoint escape (s : string) : string :=
  match s with
  | EmptyString => EmptyString
  | String c s => if code c =? 0 then EmptyString else escape_char c +:+ escape s
  end.

Definition serialize_string (s : option string) : string :=
  match s with
  | None => String quote (String quote EmptyString)
  | Some s => String quote (escape s +:+ String quote EmptyString)
  end.

Fixpoint join (sep : string) (l : list string) : string :=
  match l with
  | [] => EmptyString
  | [x] => x
  | x :: l => x +:+ sep +:+ join sep l
  end.

(** [obj_print_cb], without the separator. *)
Definition print_member (x : string * string) : string := serialize_string (Some x.1) +:+ ":" +:+ x.2.

Fixpoint serialize_value (json : JsonValue) : option string :=
  match json with
  | JNull => Some "null"
  | JTrue => Some "true"
  | JFalse => Some "false"
  | JNumber n => print_double n
  | JString s => Some (serialize_string s)
  | JObject h =>
      bs ← mapM (mapM (λ x, t ← serialize_value x.2; Some (x.1, t))) (buckets h);
      Some ("{" +:+ join "," (print_member <$> qsort (concat bs)) +:+ "}")
  | JArray l => ts ← mapM serialize_value l; Some ("[" +:+ join "," ts +:+ "]")
  end.

Definition json_serialize (json : JsonValue) : option string := serialize_value json.

Definition newline : string := String (chr 10) EmptyString.

Fixpoint spaces (n : nat) : string := match n with O => EmptyString | S n => String " " (spaces n) end.

Definition json_array_size (l : list JsonValue) : nat := length l.
Definition json_array_empty (l : list JsonValue) : bool := (json_array_size l =? 0)%nat.

(** Values that are printed on lines of their own. *)
Definition compound (json : JsonValue) : bool :=
  match json with
  | JArray l => negb (json_array_empty l)
  | JObject h => negb (hashmap_count h =? 0)
  | _ => false
  end.

Section pretty.
Context (increment : nat).

(** [obj_print_pretty_cb], without the separator; a member is its key, the
    character behind the colon and the text of its value. *)
Definition print_member_pretty (indent : nat) (x : string * (string * string)) : string :=
  spaces indent +:+ serialize_string (Some x.1) +:+ " :" +:+ x.2.1 +:+ x.2.2.

Fixpoint serialize_value_pretty (json : JsonValue) (indent : nat) : option string :=
  match json with
  | JNull => Some (spaces indent +:+ "null")
  | JTrue => Some (spaces indent +:+ "true")
  | JFalse => Some (spaces indent +:+ "false")
  | JNumber n => t ← print_double n; Some (spaces indent +:+ t)
  | JString s => Some (spaces indent +:+ serialize_string s)
  | JObject h =>
      let inner := (indent + increment)%nat in
      bs ← mapM (mapM (λ x, let big := compound x.2 in
                            t ← serialize_value_pretty x.2 (if big then inner + increment else 0)%nat;
                            Some (x.1, (if big then newline else " ", t)))) (buckets h);
      let body := join ("," +:+ newline) (print_member_pretty inner <$> qsort (concat bs)) in
      Some (spaces indent +:+ "{" +:+
            (if hashmap_count h =? 0 then body else newline +:+ body +:+ newline +:+ spaces indent) +:+ "}")
  | JArray l =>
      ts ← mapM (λ v, serialize_value_pretty v (indent + increment)) l;
      let body := join ("," +:+ newline) ts in
      Some (spaces indent +:+ "[" +:+
            (if json_array_empty l then body else newline +:+ body +:+ newline +:+ spaces indent) +:+ "]")
  end.
End pretty.

Definition json_serialize_pretty (json : JsonValue) (indent : nat) : option string := serialize_value_pretty indent json 0.

(** ** Values *)

Definition json_null : JsonValue := JNull.
Definition json_true : JsonValue := JTrue.
Definition json_false : JsonValue := JFalse.
Definition json_bool (n : bool) : JsonValue := if n then JTrue else JFalse.
Definition json_number (n : Double) : JsonValue := JNumber n.
Definition json_string (s : option string) : JsonValue := JString (c_string <$> s).
Definition json_array : JsonValue := JArray [].
Definition json_object : JsonValue := JObject empty_object.

(** Arrays: [None] is NULL. *)
Definition json_array_at (l : list JsonValue) (i : nat) : option JsonValue :=
  if (json_array_size l <=? i)%nat then None else l !! i.
Definition json_array_set (l : list JsonValue) (i : nat) (v : option JsonValue) : list JsonValue :=
  if (json_array_size l <=? i)%nat then l else if v is Some v then <[i := v]> l else l.
Definition json_array_shift (l : list JsonValue) : option JsonValue * list JsonValue :=
  match l with [] => (None, l) | v :: l => (Some v, l) end.
Definition json_array_unshift (l : list JsonValue) (v : JsonValue) : list JsonValue := v :: l.
Definition json_array_pop (l : list JsonValue) : option JsonValue * list JsonValue :=
  if json_array_empty l then (None, l) else (last l, take (json_array_size l - 1) l).
Definition json_array_push (l : list JsonValue) (v : JsonValue) : list JsonValue := l ++ [v].

(** Objects. *)
Definition json_object_insert (h : HashMap) (key : string) (v : JsonValue) : HashMap := (hashmap_insert h key v).1.2.
Definition json_object_remove (h : HashMap (V := JsonValue)) (key : string) : bool * HashMap := (hashmap_remove h key).1.
Definition json_object_empty (h : HashMap (V := JsonValue)) : bool := hashmap_count h =? 0.
Definition json_object_count (h : HashMap (V := JsonValue)) : Z := i32 (hashmap_count h).

Definition get_typed (ty : JsonValue → bool) (h : HashMap) (key : string) : option JsonValue :=
  v ← hashmap_find h key; if ty v then Some v else None.
Definition json_object_get_null := get_typed (λ v, if v is JNull then true else false).
Definition json_object_get_true := get_typed (λ v, if v is JTrue then true else false).
Definition json_object_get_false := get_typed (λ v, if v is JFalse then true else false).
Definition json_object_get_bool := get_typed (λ v, match v with JTrue | JFalse => true | _ => false end).
Definition json_object_get_number := get_typed (λ v, if v is JNumber _ then true else false).
Definition json_object_get_string := get_typed (λ v, if v is JString _ then true else false).
Definition json_object_get_array := get_typed (λ v, if v is JArray _ then true else false).
Definition json_object_get_object := get_typed (λ v, if v is JObject _ then true else false).
Definition json_object_get_any (h : HashMap (V := JsonValue)) (key : string) : option JsonValue := hashmap_find h key.

(** The copy of an object has its items inserted in the order of iteration. *)
Fixpoint json_duplicate (json : JsonValue) : JsonValue :=
  match json with
  | JNull => json_null
  | JTrue => json_true
  | JFalse => json_false
  | JNumber n => json_number n
  | JString s => json_string s
  | JObject h =>
      JObject (foldl (λ obj x, json_object_insert obj x.1 x.2) empty_object
        (concat (map (map (λ x, (x.1, json_duplicate x.2))) (buckets h))))
  | JArray l => JArray (json_duplicate <$> l)
  end.

End Json.
