(* ===== verification/JsonText.v ===== *)
(** * JSON texts: strings, numbers and white space

    What the scanning functions of Json.v do on printed texts and on arbitrary
    ones: printed strings and numbers are read back; a scan consumes text,
    unescaping fits into the buffer of the escaped length, and a result does not
    depend on the text behind what was read. *)

From S2P Require Import Prelude CString HashMap Double Json.
From Stdlib Require Import Ascii.

Module JText.
Import CStr HMap Dbl Json.

#[local] Open Scope string_scope.
#[local] Open Scope list_scope.
#[local] Open Scope Z_scope.

(** ** Appending *)

Lemma app_cons_s c s t : String c s +:+ t = String c (s +:+ t).
Proof. done. Qed.

Lemma app_nil_s t : "" +:+ t = t.
Proof. done. Qed.

Lemma app_assoc_s a b c : (a +:+ b) +:+ c = a +:+ (b +:+ c).
Proof. induction a as [|x a IH]; [done|]. rewrite !app_cons_s. by rewrite IH. Qed.

Lemma app_nil_r_s s : s +:+ "" = s.
Proof. induction s as [|x s IH]; [done|]. rewrite app_cons_s. by rewrite IH. Qed.

Lemma length_app_s a b : String.length (a +:+ b) = (String.length a + String.length b)%nat.
Proof. induction a as [|x a IH]; [done|]. rewrite app_cons_s. cbn. by rewrite IH. Qed.

Lemma app_empty_s a b : a +:+ b = "" → a = "" ∧ b = "".
Proof. destruct a; [done|]. by rewrite app_cons_s. Qed.

(** Normal form of a concatenation. *)
Ltac app_norm := rewrite ?app_assoc_s, ?app_cons_s, ?app_nil_s, ?app_nil_r_s.

(** ** White space *)

Definition ws (w : string) : Prop := skip_space w = "".

Lemma ws_nil : ws "".
Proof. done. Qed.

Lemma ws_cons c w : isspace c = true → ws w → ws (String c w).
Proof. intros H Hw. unfold ws. cbn [skip_space]. by rewrite H. Qed.

Lemma ws_inv c w : ws (String c w) → isspace c = true ∧ ws w.
Proof. unfold ws. cbn [skip_space]. by destruct (isspace c). Qed.

Lemma ws_app a b : ws a → ws b → ws (a +:+ b).
Proof.
  induction a as [|c a IH]; [done|]. intros [H1 H2]%ws_inv Hb. rewrite app_cons_s. apply ws_cons; auto.
Qed.

Lemma ws_spaces n : ws (spaces n).
Proof. induction n; [done|]. by apply ws_cons. Qed.

Lemma skip_ws w s : ws w → skip_space (w +:+ s) = skip_space s.
Proof.
  induction w as [|c w IH]; [done|]. intros [H1 H2]%ws_inv. rewrite app_cons_s. cbn [skip_space]. rewrite H1. auto.
Qed.

Lemma next_token_ws w c s : ws w → isspace c = false → next_token (w +:+ String c s) = POk (c, s).
Proof. intros Hw Hc. unfold next_token. rewrite skip_ws by done. cbn [skip_space]. by rewrite Hc. Qed.

Lemma next_token_now c s : isspace c = false → next_token (String c s) = POk (c, s).
Proof. apply (next_token_ws ""). done. Qed.

Lemma next_token_inv s c r :
  next_token s = POk (c, r) → isspace c = false ∧ (String.length r < String.length s)%nat ∧
    ∀ q, next_token (s +:+ q) = POk (c, r +:+ q).
Proof.
  unfold next_token. induction s as [|d s IH]; [done|]. rewrite ?app_cons_s. cbn [skip_space].
  destruct (isspace d) eqn:E.
  - intros H. destruct (IH H) as (H1 & H2 & H3). split; [done|]. split; [cbn; lia|]. intros q. rewrite app_cons_s. cbn [skip_space]. rewrite E. apply H3.
  - intros [= <- <-]. split; [done|]. split; [cbn; lia|]. intros q. rewrite app_cons_s. cbn [skip_space]. by rewrite E.
Qed.

Lemma next_token_not_stuck s : next_token s ≠ PStuck.
Proof. unfold next_token. by destruct (skip_space s). Qed.

(** ** Printed strings *)

Fixpoint no_nul (s : string) : bool :=
  match s with EmptyString => true | String c s => negb (code c =? 0) && no_nul s end.

Lemma c_string_id s : no_nul s = true → c_string s = s.
Proof. induction s as [|c s IH]; cbn; [done|]. destruct (code c =? 0); [done|]. cbn. intros H. by rewrite IH. Qed.

Lemma c_string_no_nul s : no_nul (c_string s) = true.
Proof. induction s as [|c s IH]; cbn; [done|]. destruct (code c =? 0) eqn:E; [done|]. cbn. by rewrite E. Qed.

(** A character that a string shows as it is. *)
Definition plain (c : ascii) : bool := negb (Ascii.eqb c "\") && negb (Ascii.eqb c quote) && negb (code c <=? 31).

(** The three forms of a printed character. *)
Definition escape_form (c : ascii) : bool :=
  match escape_char c with
  | String x EmptyString => Ascii.eqb x c && plain c
  | String x (String d EmptyString) => Ascii.eqb x "\" && bool_decide (simple_escape d = Some c)
  | String x (String y (String a0 (String a1 (String a2 (String a3 EmptyString))))) =>
      Ascii.eqb x "\" && Ascii.eqb y "u" && forallb plain [a0; a1; a2; a3] && bool_decide (simple_escape y = None)
      && bool_decide (get_hex 4 0 (String a0 (String a1 (String a2 (String a3 "")))) = Some (code c, ""))
      && negb (utf16_high_surrogate (code c)) && negb (utf16_low_surrogate (code c))
      && bool_decide (write_utf8 (code c) = String c "")
  | _ => false
  end.

Lemma escape_forms c : code c ≠ 0 → escape_form c = true.
Proof. destruct c as [[] [] [] [] [] [] [] []]; vm_compute; done. Qed.

(** Scanning and unescaping of one printed character. *)
Lemma get_hex_app n acc s x r q : get_hex n acc s = Some (x, r) → get_hex n acc (s +:+ q) = Some (x, r +:+ q).
Proof.
  revert acc s. induction n as [|n IH]; intros acc s; cbn [get_hex]; [by intros [= -> ->]|].
  destruct s as [|c s]; [done|]. rewrite app_cons_s. destruct (digit 16 c); cbn; [apply IH | done].
Qed.

Lemma get_hex_length n acc s x r : get_hex n acc s = Some (x, r) → String.length s = (n + String.length r)%nat.
Proof.
  revert acc s. induction n as [|n IH]; intros acc s; cbn [get_hex]; [by intros [= -> ->]|].
  destruct s as [|c s]; [done|]. destruct (digit 16 c); cbn; [|done]. intros H%IH. lia.
Qed.

Lemma plain_inv c : plain c = true → Ascii.eqb c "\" = false ∧ Ascii.eqb c quote = false ∧ (code c <=? 31) = false.
Proof. unfold plain. rewrite !andb_true_iff, !negb_true_iff. tauto. Qed.

Lemma scan_plain c n s :
  plain c = true → scan_string false n (String c s) = '(a, k, r) ← scan_string false n s; Some (String c a, k, r).
Proof. intros H%plain_inv. cbn [scan_string]. by destruct H as (-> & -> & ->). Qed.

Lemma scan_esc d n s :
  scan_string false n (String "\" (String d s)) =
    '(a, k, r) ← scan_string false (S n) s; Some (String "\" (String d a), k, r).
Proof. cbn. by destruct (scan_string false (S n) s) as [[[a k] r]|]. Qed.

(** What both passes do with one printed character. *)
Record reads_char (t : string) (c : ascii) : Prop := {
  rc_scan : ∃ k, (k = 0%nat → t = String c "") ∧ ∀ n s,
    scan_string false n (t +:+ s) = '(a, m, r) ← scan_string false (k + n) s; Some (t +:+ a, m, r);
  rc_unescape : ∀ fuel s,
    unescape (S fuel) (t +:+ s) = '(a, r) ← unescape fuel s; POk (String c a, r);
  rc_nonempty : t ≠ ""
}.

Lemma reads_plain c : plain c = true → reads_char (String c "") c.
Proof.
  intros H. pose proof (plain_inv c H) as (E1 & E2 & E3). split; [|intros fuel s|done].
  - exists 0%nat. split; [done|]. intros n s. rewrite app_cons_s, app_nil_s, scan_plain by done.
    destruct (scan_string false (0 + n) s) as [[[a k] r]|] eqn:E; cbn in E; rewrite E; done.
  - rewrite app_cons_s, app_nil_s. cbn [unescape]. by rewrite E1, E2.
Qed.

Lemma reads_simple d c : simple_escape d = Some c → reads_char (String "\" (String d "")) c.
Proof.
  intros H. split; [|intros fuel s|done].
  - exists 1%nat. split; [done|]. intros n s. rewrite !app_cons_s, app_nil_s. apply scan_esc.
  - rewrite !app_cons_s, app_nil_s. cbn [unescape Ascii.eqb Bool.eqb]. by rewrite H.
Qed.

Lemma reads_hex a0 a1 a2 a3 c :
  forallb plain [a0; a1; a2; a3] = true → get_hex 4 0 (String a0 (String a1 (String a2 (String a3 "")))) = Some (code c, "") →
  utf16_high_surrogate (code c) = false → utf16_low_surrogate (code c) = false → write_utf8 (code c) = String c "" →
  reads_char (String "\" (String "u" (String a0 (String a1 (String a2 (String a3 "")))))) c.
Proof.
  cbn [forallb]. intros HP Hx H1 H2 Hw.
  rewrite !andb_true_iff in HP. destruct HP as (P0 & P1 & P2 & P3 & _). split; [|intros fuel s|done].
  - exists 1%nat. split; [done|]. intros n s. rewrite !app_cons_s, app_nil_s. rewrite scan_esc, !scan_plain by done. change (1 + n)%nat with (S n).
    destruct (scan_string false (S n) s) as [[[a k] r]|]; done.
  - rewrite !app_cons_s, app_nil_s. cbn [unescape Ascii.eqb Bool.eqb]. apply (get_hex_app _ _ _ _ _ s) in Hx. rewrite !app_cons_s, app_nil_s in Hx.
    change (simple_escape "u") with (@None ascii). cbn iota. rewrite Hx, H1, H2, Hw. done.
Qed.

Lemma escape_reads c : code c ≠ 0 → reads_char (escape_char c) c.
Proof.
  intros H%escape_forms. unfold escape_form in H. destruct (escape_char c) as [|x [|d [|a0 [|a1 [|a2 [|a3 [|]]]]]]]; try done.
  - apply andb_true_iff in H as [->%Ascii.eqb_eq H]. by apply reads_plain.
  - apply andb_true_iff in H as [->%Ascii.eqb_eq H%bool_decide_eq_true]. by apply reads_simple.
  - rewrite !andb_true_iff, !bool_decide_eq_true, !Ascii.eqb_eq, !negb_true_iff in H.
    destruct H as (((((((-> & ->) & HP) & _) & Hx) & H1) & H2) & Hw). by apply reads_hex.
Qed.

Lemma scan_escape s n rest :
  no_nul s = true → ∃ k, (k = 0%nat → escape s = s) ∧ scan_string false n (escape s +:+ String quote rest) = Some (escape s, (k + n)%nat, rest).
Proof.
  revert n. induction s as [|c s IH]; intros n; cbn [no_nul escape].
  { intros _. exists 0%nat. by rewrite app_nil_s. }
  rewrite andb_true_iff, negb_true_iff. intros [Hc Hs]. rewrite Hc. apply Z.eqb_neq, escape_reads in Hc as [(k & Hk & Hscan) _ _].
  destruct (IH (k + n)%nat Hs) as (k' & Hk' & E). exists (k' + k)%nat. split.
  - intros. rewrite Hk, Hk' by lia. done.
  - rewrite app_assoc_s, Hscan, E. cbn. do 3 f_equal. lia.
Qed.

Lemma unescape_escape s fuel rest :
  no_nul s = true → (String.length (escape s) < fuel)%nat → unescape fuel (escape s +:+ String quote rest) = POk (s, rest).
Proof.
  revert fuel. induction s as [|c s IH]; intros fuel; cbn [no_nul escape].
  { intros _ H. destruct fuel; [cbn in H; lia | done]. }
  rewrite andb_true_iff, negb_true_iff. intros [Hc Hs]. rewrite Hc. apply Z.eqb_neq, escape_reads in Hc as [_ Hu Hn].
  rewrite length_app_s. intros Hf. destruct fuel as [|fuel]; [lia|]. rewrite app_assoc_s, Hu, IH; [done | done|].
  destruct (escape_char c); [done|]. cbn in Hf. lia.
Qed.

(** A printed string is read back. *)
Lemma get_string_serialize s rest :
  no_nul s = true → get_string (serialize_string (Some s) +:+ rest) = POk (s, rest).
Proof.
  intros Hs. cbn [serialize_string get_string]. rewrite app_cons_s. cbn [get_string]. rewrite Ascii.eqb_refl.
  rewrite app_assoc_s, app_cons_s, app_nil_s. destruct (scan_escape s 0 rest Hs) as (k & Hk & ->).
  rewrite Nat.add_0_r. destruct k as [|k]; [by rewrite Hk, c_string_id by done|].
  rewrite unescape_escape; [|done|rewrite length_app_s; cbn; lia]. cbn. by rewrite c_string_id.
Qed.

(** ** Printed numbers *)

Lemma isdigit_char d : 0 <= d < 10 → isdigit (digit_char d) = true.
Proof. intros H. unfold isdigit. by destruct (digit_char_digit d H) as [-> _]. Qed.

Lemma span_dec n z s : 0 <= z < 10 ^ Z.of_nat n → no_digit s → span isdigit (dec_app n z s) = (dec_app n z "", s).
Proof.
  intros Hz Hs. assert (H : ∀ t, span isdigit (dec_app n z t) = let '(a, b) := span isdigit t in (dec_app n z a, b)).
  { clear s Hs. revert z Hz. induction n as [|n IH]; intros z Hz t; cbn [dec_app]; [by destruct (span isdigit t)|].
    rewrite Nat2Z.inj_succ, Z.pow_succ_r in Hz by lia. rewrite IH by lia. cbn [span]. rewrite isdigit_char by lia.
    by destruct (span isdigit t). }
  rewrite H. destruct s as [|c s]; [done|]. cbn [span]. unfold isdigit. cbn in Hs. by rewrite Hs.
Qed.

Lemma dec_head n z s :
  0 <= z < 10 ^ Z.of_nat (S n) → dec_app (S n) z s = String (digit_char (z / 10 ^ Z.of_nat n)) (dec_app n (z mod 10 ^ Z.of_nat n) s).
Proof.
  revert z s. induction n as [|n IH]; intros z s Hz.
  { change (10 ^ Z.of_nat 0) with 1. change (10 ^ Z.of_nat 1) with 10 in Hz. cbn [dec_app]. rewrite Z.div_1_r. do 2 f_equal. lia. }
  change (dec_app (S (S n)) z s) with (dec_app (S n) (z / 10) (String (digit_char (z mod 10)) s)).
  rewrite Nat2Z.inj_succ, Z.pow_succ_r in Hz by lia. rewrite IH by lia. cbn [dec_app].
  assert (0 < 10 ^ Z.of_nat n) by (apply Z.pow_pos_nonneg; lia).
  rewrite Nat2Z.inj_succ, Z.pow_succ_r by lia. rewrite <- Zdiv.Zdiv_Zdiv by lia. rewrite Z.rem_mul_r by lia.
  generalize ((z / 10) mod 10 ^ Z.of_nat n). intros M. replace ((z mod 10 + 10 * M) / 10) with M by lia.
  by replace ((z mod 10 + 10 * M) mod 10) with (z mod 10) by lia.
Qed.

Lemma number_int_dec n z s :
  (1 <= n)%nat → 0 <= z < 10 ^ Z.of_nat n → (n = 1%nat ∨ 10 ^ (Z.of_nat n - 1) <= z) → no_digit s →
  number_int (dec_app n z s) = Some (dec_app n z "", s).
Proof.
  intros Hn Hz Hl Hs. unfold number_int. rewrite span_dec by done.
  destruct n as [|[|n]]; [lia | by cbn|]. rewrite dec_head by done.
  assert (∃ c t, dec_app (S n) (z mod 10 ^ Z.of_nat (S n)) "" = String c t) as (c & t & ->).
  { assert (0 <= z mod 10 ^ Z.of_nat (S n) < 10 ^ Z.of_nat (S n)) by (apply Z.mod_pos_bound, Z.pow_pos_nonneg; lia).
    rewrite dec_head by done. eauto. }
  destruct Hl as [Hl|Hl]; [lia|]. replace (Z.of_nat (S (S n)) - 1) with (Z.of_nat (S n)) in Hl by lia.
  assert (0 < 10 ^ Z.of_nat (S n)) as Hp by (apply Z.pow_pos_nonneg; lia).
  assert (1 <= z / 10 ^ Z.of_nat (S n) < 10) as Hd.
  { split; [apply Z.div_le_lower_bound; lia|]. apply Z.div_lt_upper_bound; [done|].
    rewrite (Nat2Z.inj_succ (S n)), Z.pow_succ_r in Hz by lia. lia. }
  destruct (Ascii.eqb_spec (digit_char (z / 10 ^ Z.of_nat (S n))) "0") as [E|]; [|done].
  apply (f_equal code) in E. destruct (digit_char_digit (z / 10 ^ Z.of_nat (S n))) as [_ Hc]; [lia|].
  rewrite Hc in E. change (code "0") with 48 in E. lia.
Qed.

Lemma number_frac_text n f s :
  0 <= f < 10 ^ Z.of_nat n → no_digit s → (if s is String c _ then c ≠ "."%char else True) →
  number_frac (frac_text n f s) = Some (frac_text n f "", s).
Proof.
  intros Hf Hs Hd. unfold frac_text. destruct (Nat.eqb_spec n 0) as [->|Hn].
  - unfold number_frac. destruct s as [|c s]; [done|]. destruct (Ascii.eqb_spec c "."); done.
  - cbn [number_frac Ascii.eqb Bool.eqb]. rewrite span_dec by done. destruct n as [|n]; [done|]. by rewrite dec_head.
Qed.

Lemma number_exp_part x s :
  (if x is Some x then Z.abs x < 1000 else True) → number_ends s → number_exp (exp_part x s) = Some (exp_part x "", s).
Proof.
  intros Hx Hs. destruct x as [x|]; cbn [exp_part].
  - assert (no_digit s) as Hn by (destruct s; [done | apply Hs]). unfold number_exp. cbn [Ascii.eqb Bool.eqb orb].
    assert (Hz : 0 <= Z.abs x < 10 ^ Z.of_nat (if Z.abs x <? 100 then 2 else 3)) by (destruct (Z.ltb_spec (Z.abs x) 100); cbn; lia).
    assert (Ascii.eqb (if x <? 0 then "-"%char else "+"%char) "-" || Ascii.eqb (if x <? 0 then "-"%char else "+"%char) "+" = true) as -> by (by destruct (x <? 0)).
    rewrite span_dec by done. destruct (Z.abs x <? 100); by rewrite dec_head.
  - destruct s as [|c s]; [done|]. destruct Hs as (_ & _ & H1 & H2). unfold number_exp.
    destruct (Ascii.eqb_spec c "e"), (Ascii.eqb_spec c "E"); done.
Qed.

Lemma exp_part_head x s : number_ends s → no_digit (exp_part x s) ∧ (if exp_part x s is String c _ then c ≠ "."%char else True).
Proof. destruct x; cbn; [done|]. destruct s; [done|]. by intros (? & ? & _). Qed.

Lemma get_number_text (neg : bool) D rest :
  decimal_ok D → number_ends rest →
  get_number_str ((if neg then "-" else "") +:+ decimal_text D rest) = Some ((if neg then "-" else "") +:+ decimal_text D "", rest).
Proof.
  intros HD Hr. unfold get_number_str. destruct (decimal_head D rest HD) as (c & t & Ec & Hc).
  assert (span isspace ((if neg then "-" else "") +:+ decimal_text D rest) = ("", (if neg then "-" else "") +:+ decimal_text D rest)) as ->.
  { destruct neg; [done|]. rewrite app_nil_s, Ec. cbn [span]. by rewrite digit_not_space. }
  destruct HD as [H1 H2 H3 H4 H5]. destruct (exp_part_head (exp D) rest Hr) as [Hn Hp].
  assert (no_digit (frac_text (frac_digits D) (frac_part D) (exp_part (exp D) rest))) as Hf by (unfold frac_text; by destruct (_ =? _)%nat).
  pose proof (number_int_dec _ _ _ H1 H2 H3 Hf) as Ei. fold (decimal_text D rest) in Ei.
  assert (number_sign ((if neg then "-" else "") +:+ decimal_text D rest) = ((if neg then "-" else ""), decimal_text D rest)) as ->.
  { destruct neg; [done|]. rewrite app_nil_s, Ec. unfold number_sign. destruct (Ascii.eqb_spec c "-"); [subst; by destruct Hc | done]. }
  rewrite Ei. cbn. rewrite number_frac_text by done. cbn. rewrite number_exp_part by done. cbn. rewrite app_nil_s. do 3 f_equal.
  unfold decimal_text. rewrite dec_app_app. f_equal. rewrite app_nil_s. unfold frac_text.
  destruct (_ =? _)%nat; [done|]. by rewrite app_cons_s, dec_app_app.
Qed.

(** A printed number is read back. *)
Lemma parse_number_print neg m e t rest :
  canonical m e → print_double (Dnum neg m e) = Some t → number_ends rest →
  parse_number (t +:+ rest) = POk (JNumber (Dnum neg m e), rest) ∧ ∃ c t', t = String c t' ∧ (c = "-"%char ∨ is_Some (digit 10 c)).
Proof.
  intros Hc Hp Hr. destruct (print_strtod neg m e Hc) as (D & HD & Ht & Hround). rewrite Ht in Hp. injection Hp as <-.
  destruct (decimal_head D "" HD) as (c & t & Ec & Hcd). split.
  - unfold parse_number. rewrite app_assoc_s, decimal_text_app, get_number_text by done. rewrite strtod_decimal by done. rewrite Hround. cbn [isfinite negb].
    rewrite bool_decide_eq_false_2; [by rewrite app_nil_s|]. rewrite Ec. by destruct neg.
  - destruct neg; [eauto|]. rewrite app_nil_s. eauto.
Qed.

(** ** Strings in arbitrary texts *)

Lemma scan_length esc n text s k rest :
  scan_string esc n text = Some (s, k, rest) → String.length text = S (String.length s + String.length rest).
Proof.
  revert esc n s. induction text as [|c text IH]; intros esc n s; cbn [scan_string]; [done|].
  assert (∀ esc n, ('(s, n, rest) ← scan_string esc n text; Some (String c s, n, rest)) = Some (s, k, rest) →
    String.length (String c text) = S (String.length s + String.length rest)) as H.
  { intros esc' n'. destruct (scan_string esc' n' text) as [[[s' k'] r']|] eqn:E; cbn; [|done]. intros [= <- <- <-]. apply IH in E. cbn. lia. }
  destruct esc; [apply H|]. destruct (_ =? _)%char; [apply H|]. destruct (_ =? _)%char; [by intros [= <- <- <-]|].
  destruct (_ <=? _); [done | apply H].
Qed.

Lemma scan_app esc n text s k rest q :
  scan_string esc n text = Some (s, k, rest) → scan_string esc n (text +:+ q) = Some (s, k, rest +:+ q).
Proof.
  revert esc n s. induction text as [|c text IH]; intros esc n s; cbn [scan_string]; [done|]. rewrite app_cons_s. cbn [scan_string].
  assert (∀ esc n, ('(s, n, rest) ← scan_string esc n text; Some (String c s, n, rest)) = Some (s, k, rest) →
    ('(s, n, rest) ← scan_string esc n (text +:+ q); Some (String c s, n, rest)) = Some (s, k, rest +:+ q)) as H.
  { intros esc' n'. destruct (scan_string esc' n' text) as [[[s' k'] r']|] eqn:E; cbn; [|done]. intros [= <- <- <-]. by rewrite (IH _ _ _ E). }
  destruct esc; [apply H|]. destruct (_ =? _)%char; [apply H|]. destruct (_ =? _)%char; [by intros [= <- <- <-]|].
  destruct (_ <=? _); [done | apply H].
Qed.

Lemma hex_plain c x : digit 16 c = Some x → plain c = true.
Proof. revert x. destruct c as [[] [] [] [] [] [] [] []]; vm_compute; done. Qed.

Lemma scan_hex cnt acc text u rest n s k r :
  get_hex cnt acc text = Some (u, rest) → scan_string false n text = Some (s, k, r) →
  ∃ s', scan_string false n rest = Some (s', k, r) ∧ String.length s = (cnt + String.length s')%nat.
Proof.
  revert acc text s. induction cnt as [|cnt IH]; intros acc text s; cbn [get_hex]; [intros [= <- <-]; eauto|].
  destruct text as [|c text]; [done|]. destruct (digit 16 c) as [x|] eqn:E; [|done]. intros Hx. cbn in Hx.
  rewrite scan_plain by (by eapply hex_plain).
  destruct (scan_string false n text) as [[[s1 k1] r1]|] eqn:E1; cbn; [|done]. intros [= <- <- <-].
  destruct (IH _ _ _ Hx E1) as (s' & ? & Hl). exists s'. split; [done|]. cbn. lia.
Qed.

Lemma scan_esc_inv d n text s k r :
  scan_string false n (String "\" (String d text)) = Some (s, k, r) →
  ∃ s', scan_string false (S n) text = Some (s', k, r) ∧ String.length s = S (S (String.length s')).
Proof.
  rewrite scan_esc. destruct (scan_string false (S n) text) as [[[s1 k1] r1]|]; cbn; [|done]. intros [= <- <- <-]. eauto.
Qed.

Lemma write_utf8_length c : (String.length (write_utf8 c) <= 4)%nat.
Proof. unfold write_utf8. repeat case_match; cbn; lia. Qed.

(** A string that the first pass accepted ends for the second pass where it
    ended for the first, and its octets fit into a buffer of the scanned length. *)
Lemma unescape_safe fuel text n s k rest :
  scan_string false n text = Some (s, k, rest) → (String.length text < fuel)%nat →
  unescape fuel text = PErr ∨ ∃ out, unescape fuel text = POk (out, rest) ∧ (String.length out <= String.length s)%nat.
Proof.
  revert text n s. induction fuel as [|fuel IH]; intros text n s Hs Hf; [lia|].
  assert (Hpush : ∀ out text' n' s', scan_string false n' text' = Some (s', k, rest) → (String.length text' < String.length text)%nat →
    (String.length out + String.length s' <= String.length s)%nat →
    let r := '(s, rest) ← unescape fuel text'; POk (out +:+ s, rest) in
    r = PErr ∨ ∃ out, r = POk (out, rest) ∧ (String.length out <= String.length s)%nat).
  { intros out text' n' s' Hs' Hl Ho. destruct (IH text' n' s' Hs' ltac:(lia)) as [->|(o & -> & Hol)]; [by left|].
    right. exists (out +:+ o). split; [done|]. rewrite length_app_s. lia. }
  cbn [unescape]. destruct text as [|c text]; [done|].
  destruct (Ascii.eqb_spec c "\") as [->|Hc].
  - destruct text as [|d text]; [done|]. apply scan_esc_inv in Hs as (s1 & Hs1 & Hl1).
    destruct (simple_escape d) as [x|]; [by eapply Hpush; [exact Hs1 | cbn; lia | cbn; lia]|].
    destruct (Ascii.eqb_spec d "u") as [->|]; [|by left].
    destruct (get_hex 4 0 text) as [[u text2]|] eqn:Eu; [|by left].
    destruct (scan_hex _ _ _ _ _ _ _ _ _ Eu Hs1) as (s2 & Hs2 & Hl2). apply get_hex_length in Eu.
    destruct (utf16_high_surrogate u).
    + destruct text2 as [|c1 [|c2 text3]]; [by left | by left|].
      destruct (Ascii.eqb_spec c1 "\") as [->|], (Ascii.eqb_spec c2 "u") as [->|]; cbn [andb]; try by left.
      destruct (get_hex 4 0 text3) as [[v text4]|] eqn:Ev; [|by left]. destruct (utf16_low_surrogate v); [|by left].
      apply scan_esc_inv in Hs2 as (s3 & Hs3 & Hl3). destruct (scan_hex _ _ _ _ _ _ _ _ _ Ev Hs3) as (s4 & Hs4 & Hl4).
      apply get_hex_length in Ev. pose proof (write_utf8_length (Z.shiftl (Z.land u 1023) 10 + Z.land v 1023 + 65536)).
      eapply Hpush; [exact Hs4 | cbn in *; lia | lia].
    + destruct (utf16_low_surrogate u); [by left|]. pose proof (write_utf8_length u).
      eapply Hpush; [exact Hs2 | cbn in *; lia | lia].
  - cbn [scan_string] in Hs. destruct (Ascii.eqb_spec c "\"); [done|].
    destruct (Ascii.eqb_spec c quote) as [->|]; [injection Hs as <- <- <-; right; eauto|].
    destruct (code c <=? 31); [done|]. destruct (scan_string false n text) as [[[s1 k1] r1]|] eqn:E1; cbn in Hs; [|done].
    injection Hs as <- <- <-. eapply Hpush; [exact E1 | cbn; lia | cbn; lia].
Qed.

(** More text behind the string, or more fuel, does not change the result. *)
Lemma unescape_app fuel fuel' text out rest q :
  unescape fuel text = POk (out, rest) → (fuel <= fuel')%nat → unescape fuel' (text +:+ q) = POk (out, rest +:+ q).
Proof.
  revert fuel' text out. induction fuel as [|fuel IH]; intros fuel' text out; [done|]. intros H Hf.
  destruct fuel' as [|fuel']; [lia|]. revert H.
  assert (Hpush : ∀ o text', ('(s, rest) ← unescape fuel text'; POk (o +:+ s, rest)) = POk (out, rest) →
     ('(s, rest) ← unescape fuel' (text' +:+ q); POk (o +:+ s, rest)) = POk (out, rest +:+ q)).
  { intros o text'. destruct (unescape fuel text') as [[o' r']| |] eqn:E; cbn; [|done..]. intros [= <- <-].
    by rewrite (IH fuel' _ _ E ltac:(lia)). }
  cbn [unescape]. destruct text as [|c text]; [done|]. rewrite app_cons_s.
  destruct (c =? "\")%char.
  - destruct text as [|d text]; [done|]. rewrite app_cons_s. destruct (simple_escape d); [apply Hpush|].
    destruct (d =? "u")%char; [|done]. destruct (get_hex 4 0 text) as [[u text2]|] eqn:Eu; [|done].
    rewrite (get_hex_app _ _ _ _ _ q Eu). destruct (utf16_high_surrogate u).
    + destruct text2 as [|c1 [|c2 text3]]; [done..|]. rewrite !app_cons_s. destruct (_ && _); [|done].
      destruct (get_hex 4 0 text3) as [[v text4]|] eqn:Ev; [|done]. rewrite (get_hex_app _ _ _ _ _ q Ev).
      destruct (utf16_low_surrogate v); [apply Hpush | done].
    + destruct (utf16_low_surrogate u); [done | apply Hpush].
  - destruct (c =? quote)%char; [by intros [= <- <-] | apply Hpush].
Qed.

Lemma get_string_not_stuck s : s ≠ "" → get_string s ≠ PStuck.
Proof.
  destruct s as [|c s]; [done|]. intros _. cbn [get_string]. destruct (_ =? _)%char; [|done].
  destruct (scan_string false 0 s) as [[[a [|k]] r]|] eqn:E; [done | | done].
  destruct (unescape_safe (S (String.length s)) s 0 a (S k) r E ltac:(lia)) as [->|(out & -> & _)]; done.
Qed.

Lemma get_string_inv s str r :
  get_string s = POk (str, r) → (String.length r < String.length s)%nat ∧ ∀ q, get_string (s +:+ q) = POk (str, r +:+ q).
Proof.
  destruct s as [|c s]; [done|]. cbn [get_string]. destruct (c =? quote)%char eqn:Ec; [|done].
  destruct (scan_string false 0 s) as [[[a [|k]] r']|] eqn:E; [| |done].
  - intros [= <- <-]. pose proof (scan_length _ _ _ _ _ _ E). split; [cbn; lia|]. intros q. rewrite app_cons_s. cbn [get_string].
    by rewrite Ec, (scan_app _ _ _ _ _ _ q E).
  - destruct (unescape_safe (S (String.length s)) s 0 a (S k) r' E ltac:(lia)) as [Hu|(out & Hu & _)]; rewrite Hu; [done|]. cbn. intros [= <- <-].
    pose proof (scan_length _ _ _ _ _ _ E). split; [cbn; lia|]. intros q. rewrite app_cons_s. cbn [get_string].
    rewrite Ec, (scan_app _ _ _ _ _ _ q E). rewrite (unescape_app _ (S (String.length (s +:+ q))) _ _ _ q Hu); [done|].
    rewrite length_app_s. lia.
Qed.

(** ** Numbers in arbitrary texts *)

Fixpoint all_digits (s : string) : bool := match s with EmptyString => true | String c s => isdigit c && all_digits s end.

Lemma span_inv p s a b :
  span p s = (a, b) → s = a +:+ b ∧ (b ≠ "" → ∀ q, span p (s +:+ q) = (a, b +:+ q)) ∧ (if b is String c _ then p c = false else True).
Proof.
  revert a. induction s as [|c s IH]; intros a; cbn [span]; [by intros [= <- <-]|]. rewrite ?app_cons_s.
  destruct (p c) eqn:E.
  - destruct (span p s) as [a' b'] eqn:Es. intros [= <- <-]. destruct (IH _ eq_refl) as (-> & Hq & Hp). rewrite app_cons_s. split; [done|].
    split; [|done]. intros Hb q. specialize (Hq Hb q). rewrite app_cons_s. cbn [span]. by rewrite E, Hq.
  - intros [= <- <-]. split; [done|]. split; [|done]. intros _ q. rewrite app_cons_s. cbn [span]. by rewrite E.
Qed.

Lemma span_digits s a b : span isdigit s = (a, b) → all_digits a = true ∧ no_digit b.
Proof.
  intros H. split.
  - revert a H. induction s as [|c s IH]; intros a; cbn [span]; [by intros [= <- <-]|]. destruct (isdigit c) eqn:E; [|by intros [= <- <-]].
    destruct (span isdigit s) as [a' b']. intros [= <- <-]. cbn. rewrite E. by apply IH.
  - apply span_inv in H as (_ & _ & H). destruct b as [|c b]; [done|]. unfold isdigit in H. cbn. by destruct (digit 10 c).
Qed.

(** The parts of a number. *)
Definition frac_form (fs : string) : Prop := fs = "" ∨ ∃ ds, fs = String "." ds ∧ ds ≠ "" ∧ all_digits ds = true.
Definition exp_form (es : string) : Prop :=
  es = "" ∨ ∃ c sg ds, es = String c (sg +:+ ds) ∧ (c = "e"%char ∨ c = "E"%char) ∧ (sg = "" ∨ sg = "-" ∨ sg = "+") ∧ ds ≠ "" ∧ all_digits ds = true.

(** How a part is taken from the text. *)
Definition takes (f : string → option (string * string)) (form : string → Prop) : Prop :=
  ∀ s a b, f s = Some (a, b) → s = a +:+ b ∧ form a ∧ (b ≠ "" → ∀ q, f (s +:+ q) = Some (a, b +:+ q)).

Lemma takes_int : takes number_int (λ ds, ds ≠ "" ∧ all_digits ds = true).
Proof.
  intros s a b. unfold number_int. destruct (span isdigit s) as [ds r] eqn:E. pose proof (span_inv _ _ _ _ E) as (Hs & Hq & _).
  pose proof (span_digits _ _ _ E) as [Hd _]. destruct ds as [|c [|d ds]]; [done| |].
  - intros [= <- <-]. split; [done|]. split; [done|]. intros Hb q. by rewrite (Hq Hb).
  - destruct (c =? "0")%char eqn:E0; [done|]. intros [= <- <-]. split; [done|]. split; [done|]. intros Hb q. by rewrite (Hq Hb), E0.
Qed.

Lemma takes_frac : takes number_frac frac_form.
Proof.
  intros s a b. unfold number_frac. destruct s as [|c s]; [intros [= <- <-]; split; [done|]; split; [by left | done]|].
  destruct (Ascii.eqb_spec c ".") as [->|Hc].
  - destruct (span isdigit s) as [ds r] eqn:E. pose proof (span_inv _ _ _ _ E) as (-> & Hq & _). pose proof (span_digits _ _ _ E) as [Hd _].
    destruct ds as [|d ds]; [done|]. intros [= <- <-]. split; [done|]. split; [right; eauto|]. intros Hb q. rewrite app_cons_s. by rewrite (Hq Hb).
  - intros [= <- <-]. split; [done|]. split; [by left|]. intros _ q. rewrite app_cons_s. by destruct (Ascii.eqb_spec c ".").
Qed.

Lemma takes_exp : takes number_exp exp_form.
Proof.
  intros s a b. unfold number_exp. destruct s as [|c s]; [intros [= <- <-]; split; [done|]; split; [by left | done]|].
  destruct (Ascii.eqb c "e" || Ascii.eqb c "E") eqn:Ec.
  2: { intros [= <- <-]. split; [done|]. split; [by left|]. intros _ q. by rewrite app_cons_s, Ec. }
  assert (c = "e"%char ∨ c = "E"%char) as Hc by (apply orb_true_iff in Ec as [->%Ascii.eqb_eq| ->%Ascii.eqb_eq]; auto).
  destruct s as [|d s]; [done|]. destruct (Ascii.eqb d "-" || Ascii.eqb d "+") eqn:Ed.
  - destruct (span isdigit s) as [ds r] eqn:E. pose proof (span_inv _ _ _ _ E) as (-> & Hq & _). pose proof (span_digits _ _ _ E) as [Hd _].
    destruct ds as [|x ds]; [done|]. intros [= <- <-]. split; [done|]. split.
    + right. exists c, (String d ""), (String x ds). split; [done|]. split; [done|]. split; [|done].
      apply orb_true_iff in Ed as [->%Ascii.eqb_eq| ->%Ascii.eqb_eq]; auto.
    + intros Hb q. specialize (Hq Hb q). rewrite !app_cons_s in *. by rewrite Ec, Ed, Hq.
  - destruct (isdigit d) eqn:Edd; [|done]. destruct (span isdigit (String d s)) as [ds r] eqn:E.
    pose proof (span_inv _ _ _ _ E) as (Hs & Hq & _). pose proof (span_digits _ _ _ E) as [Hd _].
    assert (ds ≠ "") as Hne by (intros ->; cbn [span] in E; rewrite Edd in E; by destruct (span isdigit s)).
    intros [= <- <-]. split; [by rewrite Hs|]. split; [right; exists c, "", ds; auto|].
    intros Hb q. specialize (Hq Hb q). rewrite !app_cons_s in *. by rewrite Ec, Ed, Edd, Hq.
Qed.

Lemma digits_all ds acc seen s :
  all_digits ds = true → no_digit s → ∃ n, digits 10 acc seen (ds +:+ s) = (n, seen || negb (bool_decide (ds = "")), s).
Proof.
  revert acc seen. induction ds as [|c ds IH]; intros acc seen Hd Hs.
  { rewrite app_nil_s, digits_stop by done. rewrite orb_false_r. eauto. }
  cbn in Hd. apply andb_true_iff in Hd as [Hc Hd]. rewrite app_cons_s. cbn [digits]. unfold isdigit in Hc.
  destruct (digit 10 c) as [x|]; [|done]. destruct (IH (10 * acc + x) true Hd Hs) as [n ->]. cbn. rewrite orb_true_r. eauto.
Qed.

Lemma exponent_all es : exp_form es → ∃ e, exponent "e" "E" es = Some (e, "").
Proof.
  intros [->|(c & sg & ds & -> & Hc & Hsg & Hne & Hd)]; [by eexists|]. unfold exponent.
  assert (skip_char "e" "E" (String c (sg +:+ ds)) = Some (sg +:+ ds)) as -> by (by destruct Hc as [->| ->]).
  assert (∃ x, sign (sg +:+ ds) = (x, ds)) as [x ->].
  { destruct Hsg as [->|[->| ->]]; [|by eexists|by eexists]. rewrite app_nil_s. unfold sign, skip_char. destruct ds as [|d ds]; [by eexists|].
    cbn in Hd. apply andb_true_iff in Hd as [Hd _]. destruct (Ascii.eqb_spec d "-"); [by subst|]. destruct (Ascii.eqb_spec d "+"); [by subst | by eexists]. }
  destruct (digits_all ds 0 false "" Hd I) as [n En]. rewrite app_nil_r_s in En. rewrite En.
  rewrite bool_decide_eq_false_2 by done. cbn. eauto.
Qed.

Lemma exp_form_head es : exp_form es → no_digit es ∧ skip_char "." "." es = None.
Proof. intros [->|(c & sg & ds & -> & [->| ->] & _)]; done. Qed.

(** [strtod] reads all of what [get_number_str] found. *)
Lemma strtod_all neg ds fs es :
  (neg = "" ∨ neg = "-") → ds ≠ "" → all_digits ds = true → frac_form fs → exp_form es →
  ∃ x, strtod (neg +:+ ds +:+ fs +:+ es) = (x, "").
Proof.
  intros Hneg Hne Hd Hf He. unfold strtod. destruct ds as [|c ds]; [done|]. pose proof Hd as Hd0. cbn in Hd0. apply andb_true_iff in Hd0 as [Hc _].
  assert (isspace c = false) as Hsp by (apply digit_not_space; unfold isdigit in Hc; by destruct (digit 10 c)).
  assert (skip_space (neg +:+ String c ds +:+ fs +:+ es) = neg +:+ String c ds +:+ fs +:+ es) as ->.
  { destruct Hneg as [->| ->]; [|done]. rewrite !app_nil_s, !app_cons_s. cbn [skip_space]. by rewrite Hsp. }
  assert (∃ x, sign (neg +:+ String c ds +:+ fs +:+ es) = (x, String c ds +:+ fs +:+ es)) as [sg ->].
  { destruct Hneg as [->| ->]; [|by eexists]. rewrite !app_nil_s, !app_cons_s. unfold sign, skip_char.
    destruct (Ascii.eqb_spec c "-"); [by subst|]. destruct (Ascii.eqb_spec c "+"); [by subst | by eexists]. }
  destruct (exp_form_head es He) as [Hn Hp]. destruct (exponent_all es He) as [e Ee]. unfold mantissa.
  destruct Hf as [->|(ds' & -> & Hne' & Hd')].
  - rewrite app_nil_s. destruct (digits_all _ 0 false es Hd Hn) as [n ->]. rewrite Hp, bool_decide_eq_false_2 by done. cbn [negb orb]. rewrite Ee. cbn. eauto.
  - rewrite (app_cons_s "." ds' es). destruct (digits_all _ 0 false (String "." (ds' +:+ es)) Hd eq_refl) as [n ->]. rewrite bool_decide_eq_false_2 by done.
    cbn [skip_char Ascii.eqb Bool.eqb orb negb]. destruct (digits_all ds' n true es Hd' Hn) as [m ->]. cbn [orb negb]. rewrite Ee. cbn. eauto.
Qed.

Lemma number_sign_inv s :
  s ≠ "" → ∃ neg t, number_sign s = (neg, t) ∧ s = neg +:+ t ∧ (neg = "" ∨ neg = "-") ∧ ∀ q, number_sign (s +:+ q) = (neg, t +:+ q).
Proof.
  destruct s as [|c s]; [done|]. intros _. unfold number_sign. destruct (Ascii.eqb_spec c "-") as [->|Hc].
  - exists "-", s. auto.
  - exists "", (String c s). repeat split; auto. intros q. rewrite app_cons_s. by destruct (Ascii.eqb_spec c "-").
Qed.

(** The text does not start with white space. *)
Definition no_space (s : string) : Prop := match s with String c _ => isspace c = false | EmptyString => True end.

Lemma get_number_inv s num rest :
  no_space s → get_number_str s = Some (num, rest) →
  s = num +:+ rest ∧ num ≠ "" ∧ (∃ x, strtod num = (x, "")) ∧ (rest ≠ "" → ∀ q, get_number_str (s +:+ q) = Some (num, rest +:+ q)).
Proof.
  intros Hsp. unfold get_number_str. destruct s as [|c s]; [done|].
  assert (Hspan : ∀ q, span isspace (String c s +:+ q) = ("", String c s +:+ q)).
  { intros q. rewrite app_cons_s. cbn [span]. by rewrite Hsp. }
  pose proof (Hspan "") as E0. rewrite app_nil_r_s in E0. rewrite E0.
  destruct (number_sign_inv (String c s)) as (neg & t & Esg & Est & Hneg & Hsg); [done|].
  rewrite Esg. destruct (number_int t) as [[ds t1]|] eqn:E1; [|done]. cbn. destruct (number_frac t1) as [[fs t2]|] eqn:E2; [|done]. cbn.
  destruct (number_exp t2) as [[es t3]|] eqn:E3; [|done]. cbn. rewrite app_nil_s. intros [= <- <-].
  apply takes_int in E1 as (-> & [Hne Hd] & H1). apply takes_frac in E2 as (-> & Hf & H2). apply takes_exp in E3 as (-> & He & H3).
  split; [by rewrite Est, !app_assoc_s|]. split; [by intros (_ & [? _]%app_empty_s)%app_empty_s|]. split; [by apply strtod_all|].
  intros Hr q. assert (es +:+ t3 ≠ "") as Hr2 by (by intros [_ ?]%app_empty_s).
  assert (fs +:+ es +:+ t3 ≠ "") as Hr1 by (by intros [_ ?]%app_empty_s).
  rewrite Hspan, Hsg, (H1 Hr1). cbn. rewrite (H2 Hr2). cbn. rewrite (H3 Hr). done.
Qed.

Lemma parse_number_inv s v r :
  no_space s → parse_number s = POk (v, r) →
  (String.length r < String.length s)%nat ∧ (∃ d, v = JNumber d) ∧ (r ≠ "" → ∀ q, parse_number (s +:+ q) = POk (v, r +:+ q)).
Proof.
  intros Hsp. unfold parse_number. destruct (get_number_str s) as [[num rest]|] eqn:E; [|done].
  destruct (get_number_inv s num rest Hsp E) as (Hs & Hne & [x Hx] & Hq).
  rewrite Hx. destruct (isfinite x) eqn:Ef; cbn [negb]; [|done]. rewrite bool_decide_eq_false_2 by done. rewrite app_nil_s. intros [= <- <-].
  split; [|split].
  - rewrite Hs, length_app_s. destruct num; [done|]. cbn. lia.
  - eauto.
  - intros Hr q. rewrite (Hq Hr), Hx, Ef. cbn [negb]. rewrite bool_decide_eq_false_2 by done. by rewrite app_nil_s.
Qed.

Lemma parse_number_not_stuck s : parse_number s ≠ PStuck.
Proof. unfold parse_number. repeat case_match; done. Qed.

End JText.
