(* ===== verification/IniFile.v ===== *)
(** * Configuration files (lib/parsers/inifile.h, inifile.c)

    A file is a list of sections, each a hash table of texts; the first section
    may have no name.  The reader takes the text of the file, the writer gives
    one.  A file that is written is read back, lines of any length included. *)

From S2P Require Import Prelude CString HashMap Double Json JsonText.
From Stdlib Require Import Ascii.

Module Ini.
Import CStr HMap Json JText.

#[local] Open Scope string_scope.
#[local] Open Scope list_scope.
#[local] Open Scope Z_scope.

Abbreviation Table := (HashMap (V := string)).

(** The sections of a file are the elements of the linked list. *)
Record IniSection := mk_section { sec_name : option string; contents : Table }.

#[global] Instance eta_section : Eta IniSection := λ s, mk_section (sec_name s) (contents s).

Definition newline : ascii := ascii_of_nat 10.

Definition iscntrl (c : ascii) : bool := (code c <? 32) || (code c =? 127).

(** ** Sections *)

Definition new_inisection (name : option string) : IniSection := mk_section name (mk_hash (replicate 17 []) 0).

Definition inisection_add (s : IniSection) (key : string) (value : option string) : bool * IniSection :=
  match value with
  | None => (false, s)
  | Some v => let '(ok, h, _) := hashmap_insert (contents s) key v in (ok, s <| contents := h |>)
  end.

Definition inisection_remove (s : IniSection) (key : string) : bool * IniSection :=
  let '(ok, h, _) := hashmap_remove (contents s) key in (ok, s <| contents := h |>).

Definition inisection_get (s : IniSection) (key : string) : option string := hashmap_find (contents s) key.
Definition inisection_count (s : IniSection) : Z := hashmap_count (contents s).
Definition inisection_sectioncount (l : list IniSection) : Z := u32 (Z.of_nat (length l)).

Fixpoint inisection_find_section (l : list IniSection) (name : string) : option IniSection :=
  match l with
  | [] => None
  | s :: l => if bool_decide (sec_name s = Some name) then Some s else inisection_find_section l name
  end.

Fixpoint some_char (p : ascii → bool) (s : string) : bool :=
  match s with EmptyString => false | String c s => p c || some_char p s end.

(** What makes a file invalid, with the number of the section. *)
Inductive IniInvalid :=
  | NameBlank (section : Z) | NameBracket (section : Z) | NameNewline (section : Z) | NameMissing
  | KeyBlank (section : Z) (key : string) | ValueNewline (section : Z) (key : string).

Fixpoint invalid_item (n : Z) (l : list (string * string)) : option IniInvalid :=
  match l with
  | [] => None
  | (k, v) :: l =>
      if some_char isspace k then Some (KeyBlank n k)
      else if some_char (Ascii.eqb newline) v then Some (ValueNewline n k) else invalid_item n l
  end.

Definition invalid_name (n : Z) (name : option string) : option IniInvalid :=
  match name with
  | Some name =>
      if bool_decide (skip_space name = "") then Some (NameBlank n)
      else if some_char (Ascii.eqb "]"%char) name then Some (NameBracket n)
      else if some_char (Ascii.eqb newline) name then Some (NameNewline n) else None
  | None => if n >? 1 then Some NameMissing else None
  end.

Fixpoint validate_from (n : Z) (l : list IniSection) : option IniInvalid :=
  match l with
  | [] => None
  | s :: l =>
      match invalid_name n (sec_name s) with
      | Some e => Some e
      | None => match invalid_item n (items (contents s)) with Some e => Some e | None => validate_from (n + 1) l end
      end
  end.

Definition inisection_validate (l : list IniSection) : option IniInvalid := validate_from 1 l.

(** ** Reading *)

Definition BUFFERSIZE : nat := 1024.

(** At most [n] characters, no further than the first newline. *)
Fixpoint fgets_from (n : nat) (s : string) : string * string :=
  match n, s with
  | S n, String c t => if Ascii.eqb c newline then (String c "", t) else let '(a, b) := fgets_from n t in (String c a, b)
  | _, _ => ("", s)
  end.

Definition fgets (s : string) : option (string * string) :=
  if bool_decide (s = "") then None else Some (fgets_from (BUFFERSIZE - 1) s).

Fixpoint ends_line (s : string) : bool :=
  match s with
  | EmptyString => false
  | String c EmptyString => Ascii.eqb c newline
  | String _ s => ends_line s
  end.

(** The rest of a line that is longer than the buffer; what was read is a C
    string.  [None]: out of fuel. *)
Fixpoint read_more (fuel : nat) (line s : string) : option (string * string) :=
  match fuel with
  | O => None
  | S fuel =>
      if ends_line line then Some (line, s)
      else match fgets s with None => Some (line, s) | Some (chunk, rest) => read_more fuel (line +:+ c_string chunk) rest end
  end.

(** The text without the characters of the kind at its end; the first character
    is not looked at. *)
Fixpoint rstrip (p : ascii → bool) (s : string) : string :=
  match s with
  | EmptyString => EmptyString
  | String c t => match rstrip p t with EmptyString => if p c then EmptyString else String c EmptyString | t => String c t end
  end.
Definition strip_tail (p : ascii → bool) (s : string) : string :=
  match s with EmptyString => EmptyString | String c t => String c (rstrip p t) end.

Definition trim_trailing_spaces : string → string := strip_tail isspace.

Inductive IniError := MissingBracket | Junk | NoName | KeyMissing | NoEqual | KeySpace | Duplicate (key : string).

(** The sections that are complete, and the current one. *)
Record Reader := mk_reader { complete : list IniSection; current : IniSection }.

Definition read_section_header (c : string) (r : Reader) : IniError + Reader :=
  match strchr "]"%char (skip_space c) with
  | None => inl MissingBracket
  | Some (name, j) =>
      if negb (bool_decide (skip_space j = "")) then inl Junk
      else
        let name := trim_trailing_spaces name in
        if bool_decide (name = "") then inl NoName
        else if bool_decide (sec_name (current r) = None) && (hashmap_count (contents (current r)) =? 0)
        then inr (mk_reader (complete r) ((current r) <| sec_name := Some name |>))
        else inr (mk_reader (complete r ++ [current r]) (new_inisection (Some name)))
  end.

Definition read_item (c : string) (r : Reader) : IniError + Reader :=
  if is_char c "="%char then inl KeyMissing
  else
    match strchr "="%char c with
    | None => inl NoEqual
    | Some (key, v) =>
        let key := trim_trailing_spaces key in
        if some_char isspace key then inl KeySpace
        else
          let v := strip_tail iscntrl (skip_space v) in
          match hashmap_find (contents (current r)) key with
          | Some _ => inl (Duplicate key)
          | None => inr (mk_reader (complete r) ((current r) <| contents := (hashmap_insert (contents (current r)) key v).1.2 |>))
          end
    end.

Definition read_line (line : string) (r : Reader) : IniError + Reader :=
  match skip_space line with
  | EmptyString => inr r
  | String c t as l =>
      if Ascii.eqb c ";"%char || Ascii.eqb c "#"%char then inr r
      else if Ascii.eqb c "["%char then read_section_header t r
      else read_item l r
  end.

(** The result of reading: an error with the number of its line, the sections,
    or out of fuel. *)
Inductive IniResult := IniErr (line : Z) (e : IniError) | IniOk (l : list IniSection) | IniStuck.

Fixpoint read_lines (fuel : nat) (n : Z) (s : string) (r : Reader) : IniResult :=
  match fuel with
  | O => IniStuck
  | S fuel =>
      match fgets s with
      | None => IniOk (complete r ++ [current r])
      | Some (chunk, rest) =>
          if bool_decide (c_string chunk = "") then read_lines fuel n rest r
          else
            match read_more (S (String.length rest)) (c_string chunk) rest with
            | None => IniStuck
            | Some (line, rest) =>
                match read_line line r with inl e => IniErr (n + 1) e | inr r => read_lines fuel (n + 1) rest r end
            end
      end
  end.

Definition read_inifile (file : string) : IniResult :=
  read_lines (S (String.length file)) 0 file (mk_reader [] (new_inisection None)).

(** ** Writing *)

Definition nl : string := String newline "".

Definition item_line (k v : string) : string := k +:+ " = " +:+ v +:+ nl.

Definition section_text (s : IniSection) : string :=
  (if sec_name s is Some n then nl +:+ "[ " +:+ n +:+ " ]" +:+ nl +:+ nl else "") +:+
  default "" (hashmap_foreach_sorted (contents s) (λ k v t, Some (t +:+ item_line k v)) "").

Definition write_inifile (l : list IniSection) : IniInvalid + string :=
  match inisection_validate l with
  | Some e => inl e
  | None => inr (foldr (λ s t, section_text s +:+ t) "" l)
  end.

(** ** The reader ends on every file *)

Lemma fgets_split s chunk rest : fgets s = Some (chunk, rest) → s = chunk +:+ rest ∧ chunk ≠ "".
Proof.
  unfold fgets. case_bool_decide as Hs; [done|]. change (BUFFERSIZE - 1)%nat with (S 1022). generalize 1022%nat as N. intros N. destruct s as [|c t]; [done|]. cbn [fgets_from].
  assert (∀ n s, s = (fgets_from n s).1 +:+ (fgets_from n s).2) as Hall.
  { clear. induction n as [|n IH]; intros [|c t]; cbn; try done. destruct (Ascii.eqb c newline); [done|]. destruct (fgets_from n t) as [a b] eqn:E. cbn. f_equal. rewrite (IH t) at 1. by rewrite E. }
  destruct (Ascii.eqb c newline); [intros H; injection H as <- <-; done|]. specialize (Hall N t). destruct (fgets_from N t) as [a b]. intros H. injection H as <- <-. cbn in *. by rewrite Hall.
Qed.

Lemma fgets_shrinks s chunk rest : fgets s = Some (chunk, rest) → (String.length rest < String.length s)%nat.
Proof. intros [-> Hc]%fgets_split. rewrite length_app_s. destruct chunk; [done|]. cbn. lia. Qed.

Lemma read_more_total fuel : ∀ line s, (String.length s < fuel)%nat →
  ∃ line' rest, read_more fuel line s = Some (line', rest) ∧ (String.length rest <= String.length s)%nat.
Proof.
  induction fuel as [|fuel IH]; intros line s Hs; [lia|]. cbn. destruct (ends_line line); [eauto|].
  destruct (fgets s) as [[chunk rest]|] eqn:E; [|eauto]. pose proof (fgets_shrinks _ _ _ E). destruct (IH (line +:+ c_string chunk) rest) as (l & q & -> & Hq); [lia|].
  do 2 eexists. split; [done | lia].
Qed.

Lemma read_lines_total fuel : ∀ n s r, (String.length s < fuel)%nat → read_lines fuel n s r ≠ IniStuck.
Proof.
  induction fuel as [|fuel IH]; intros n s r Hs; [lia|]. cbn [read_lines]. destruct (fgets s) as [[chunk rest]|] eqn:E; [|done].
  pose proof (fgets_shrinks _ _ _ E). case_bool_decide; [apply IH; lia|].
  destruct (read_more_total (S (String.length rest)) (c_string chunk) rest) as (l & q & -> & Hq); [lia|]. destruct (read_line l r); [done|]. apply IH. lia.
Qed.

(** ** Lines *)

Lemma app_end_s (a : string) : a +:+ "" = a.
Proof. induction a as [|x a IH]; [done|]. exact (f_equal (String x) IH). Qed.

Lemma some_app p a b : some_char p (a +:+ b) = some_char p a || some_char p b.
Proof. induction a as [|x a IH]; [done|]. cbn [String.append some_char]. by rewrite <- orb_assoc, <- IH. Qed.

(** The characters of a line. *)
Definition breaks (c : ascii) : bool := Ascii.eqb newline c || (code c =? 0).
Definition clean (s : string) : Prop := some_char breaks s = false.

Lemma clean_app a b : clean (a +:+ b) ↔ clean a ∧ clean b.
Proof. unfold clean. rewrite some_app. apply orb_false_iff. Qed.

Lemma clean_cons c s : clean (String c s) ↔ Ascii.eqb c newline = false ∧ (code c =? 0) = false ∧ clean s.
Proof. unfold clean, breaks. cbn. rewrite !orb_false_iff. rewrite Ascii.eqb_sym. tauto. Qed.

Lemma clean_c_string s : clean s → c_string s = s.
Proof. induction s as [|c s IH]; [done|]. intros (_ & H & Hs)%clean_cons. cbn. by rewrite H, IH. Qed.

Lemma clean_nl_c_string s : clean s → c_string (s +:+ nl) = s +:+ nl.
Proof. induction s as [|c s IH]; [done|]. intros (_ & H & Hs)%clean_cons. change (c_string (String c s +:+ nl)) with (if code c =? 0 then "" else String c (c_string (s +:+ nl))). by rewrite H, IH. Qed.

Lemma clean_ends s : clean s → ends_line s = false.
Proof. induction s as [|c s IH]; [done|]. intros (Hc & _ & Hs)%clean_cons. cbn. destruct s; [done | by apply IH]. Qed.

Lemma nl_ends s : ends_line (s +:+ nl) = true.
Proof. induction s as [|c s IH]; [done|]. change (String c s +:+ nl) with (String c (s +:+ nl)). cbn [ends_line]. rewrite IH. by destruct s. Qed.

Lemma fgets_line n l r :
  clean l →
  fgets_from n (l +:+ nl +:+ r) = (l +:+ nl, r) ∨
  ∃ a b, l = a +:+ b ∧ String.length a = n ∧ fgets_from n (l +:+ nl +:+ r) = (a, b +:+ nl +:+ r).
Proof.
  revert l. induction n as [|n IH]; intros l Hl; [right; exists "", l; by split_and!|]. destruct l as [|c l]; [left; done|].
  apply clean_cons in Hl as (Hc & _ & Hl). change (String c l +:+ nl +:+ r) with (String c (l +:+ nl +:+ r)). cbn [fgets_from]. rewrite Hc.
  destruct (IH l Hl) as [-> | (a & b & -> & <- & ->)]; [by left|]. right. exists (String c a), b. by split_and!.
Qed.

Lemma read_more_line fuel : ∀ line l r, clean line → clean l → (String.length l + 1 < fuel)%nat → read_more fuel line (l +:+ nl +:+ r) = Some (line +:+ l +:+ nl, r).
Proof.
  induction fuel as [|fuel IH]; intros line l r Hline Hl Hf; [lia|]. cbn [read_more]. rewrite clean_ends by done. unfold fgets.
  rewrite bool_decide_eq_false_2 by (destruct l; done). destruct (fgets_line (BUFFERSIZE - 1) l r Hl) as [-> | (a & b & -> & Ha & ->)].
  - rewrite clean_nl_c_string by done. destruct fuel as [|fuel]; [lia|]. cbn [read_more]. rewrite <- app_assoc_s, nl_ends. by rewrite app_assoc_s.
  - apply clean_app in Hl as [Hca Hcb]. rewrite clean_c_string by done. rewrite length_app_s in Hf. change (BUFFERSIZE - 1)%nat with 1023%nat in Ha.
    rewrite IH; [by rewrite !app_assoc_s | by apply clean_app | done | lia].
Qed.

(** A line of the file is read as a whole. *)
Lemma read_lines_cons fuel n l r st :
  clean l → read_lines (S fuel) n (l +:+ nl +:+ r) st = match read_line (l +:+ nl) st with inl e => IniErr (n + 1) e | inr st => read_lines fuel (n + 1) r st end.
Proof.
  intros Hl. cbn [read_lines]. unfold fgets. rewrite bool_decide_eq_false_2 by (destruct l; done).
  destruct (fgets_line (BUFFERSIZE - 1) l r Hl) as [-> | (a & b & -> & Ha & ->)].
  - rewrite clean_nl_c_string by done. rewrite bool_decide_eq_false_2 by (destruct l; done). cbn [read_more]. by rewrite nl_ends.
  - apply clean_app in Hl as [Hca Hcb]. rewrite clean_c_string by done. change (BUFFERSIZE - 1)%nat with 1023%nat in Ha. rewrite bool_decide_eq_false_2 by (destruct a; done).
    rewrite read_more_line; [by rewrite !app_assoc_s | done | done | rewrite !length_app_s; cbn; lia].
Qed.

(** The text of lines, and what reading them one after the other gives. *)
Definition lines_text (ls : list string) : string := foldr (λ l t, l +:+ nl +:+ t) "" ls.

Fixpoint read_all (ls : list string) (st : Reader) : IniError + Reader :=
  match ls with [] => inr st | l :: ls => match read_line (l +:+ nl) st with inl e => inl e | inr st => read_all ls st end end.

Lemma read_lines_text ls : ∀ fuel n st st', Forall clean ls → (length ls < fuel)%nat → read_all ls st = inr st' → read_lines fuel n (lines_text ls) st = IniOk (complete st' ++ [current st']).
Proof.
  induction ls as [|l ls IH]; intros fuel n st st' Hc Hf H; (destruct fuel as [|fuel]; [cbn in Hf; lia|]); [by injection H as ->|].
  apply Forall_cons in Hc as [Hl Hc]. cbn [lines_text foldr]. rewrite read_lines_cons by done. cbn [read_all] in H. destruct (read_line (l +:+ nl) st) as [e|st1]; [done|].
  apply IH; [done | cbn in Hf; lia | done].
Qed.

Lemma lines_text_app a b : lines_text (a ++ b) = lines_text a +:+ lines_text b.
Proof. induction a as [|l a IH]; [done|]. cbn [lines_text foldr app]. fold (lines_text (a ++ b)) (lines_text a). by rewrite IH, !app_assoc_s. Qed.

Lemma lines_text_length ls : (length ls <= String.length (lines_text ls))%nat.
Proof. induction ls as [|l ls IH]; [done|]. cbn [lines_text foldr length]. fold (lines_text ls). rewrite !length_app_s. cbn. lia. Qed.

Lemma read_all_app a b st : read_all (a ++ b) st = match read_all a st with inl e => inl e | inr st => read_all b st end.
Proof. revert st. induction a as [|l a IH]; intros st; cbn; [done|]. destruct (read_line (l +:+ nl) st); [done | apply IH]. Qed.

(** ** Items and headers *)

Lemma rstrip_app p s t : rstrip p t = "" → rstrip p (s +:+ t) = rstrip p s.
Proof. intros Ht. induction s as [|c s IH]; [done|]. change (String c s +:+ t) with (String c (s +:+ t)). cbn [rstrip]. by rewrite IH. Qed.

Lemma strip_tail_app p s t : s ≠ "" → rstrip p t = "" → strip_tail p (s +:+ t) = strip_tail p s.
Proof. intros Hs Ht. destruct s as [|c s]; [done|]. change (String c s +:+ t) with (String c (s +:+ t)). cbn. by rewrite rstrip_app. Qed.

Lemma strchr_app c a b : some_char (Ascii.eqb c) a = false → strchr c (a +:+ String c b) = Some (a, b).
Proof.
  induction a as [|d a IH]; intros H; [change (strchr c ("" +:+ String c b)) with (if Ascii.eqb c c then Some ("", b) else '(a, b) ← strchr c b; Some (String c a, b)); by rewrite Ascii.eqb_refl|]. cbn in H. apply orb_false_iff in H as [H1 H2].
  change (String d a +:+ String c b) with (String d (a +:+ String c b)). cbn [strchr]. by rewrite H1, IH.
Qed.

Lemma skip_space_app s t : s ≠ "" → skip_space s = s → skip_space (s +:+ t) = s +:+ t.
Proof.
  destruct s as [|c s]; [done|]. intros _ H. change (String c s +:+ t) with (String c (s +:+ t)). cbn in *. destruct (isspace c); [|done].
  exfalso. assert (∀ s, String.length (skip_space s) <= String.length s)%nat as Hl by (clear; induction s as [|c s IH]; cbn; [done|]; destruct (isspace c); cbn; lia).
  specialize (Hl s). rewrite H in Hl. cbn in Hl. lia.
Qed.

Lemma isspace_newline : isspace newline = true.
Proof. reflexivity. Qed.

(** The keys, values and names that a file can hold. *)
Definition starts (s : string) : bool := match s with EmptyString => false | String c _ => negb (Ascii.eqb c ";"%char || Ascii.eqb c "#"%char || Ascii.eqb c "["%char) end.

Record key_ok (k : string) : Prop := {
  ke_start : starts k = true;
  ke_space : some_char isspace k = false;
  ke_equal : some_char (Ascii.eqb "="%char) k = false;
  ke_clean : clean k
}.

Record value_ok (v : string) : Prop := { va_start : skip_space v = v; va_end : strip_tail iscntrl v = v; va_clean : clean v }.

Record name_ok (n : string) : Prop := {
  na_some : n ≠ "";
  na_start : skip_space n = n;
  na_end : trim_trailing_spaces n = n;
  na_bracket : some_char (Ascii.eqb "]"%char) n = false;
  na_clean : clean n
}.

Definition add_item (k v : string) (r : Reader) : Reader :=
  mk_reader (complete r) ((current r) <| contents := (hashmap_insert (contents (current r)) k v).1.2 |>).

Lemma no_space_end s : some_char isspace s = false → rstrip isspace s = s.
Proof. induction s as [|c s IH]; [done|]. cbn. intros [H1 H2]%orb_false_iff. rewrite IH by done. destruct s; [by rewrite H1 | done]. Qed.

Lemma no_space_start s : some_char isspace s = false → skip_space s = s.
Proof. destruct s as [|c s]; [done|]. cbn. by intros [-> _]%orb_false_iff. Qed.

Lemma read_item_line k v r :
  key_ok k → value_ok v → hashmap_find (contents (current r)) k = None → read_line ((k +:+ " = " +:+ v) +:+ nl) r = inr (add_item k v r).
Proof.
  intros [Hst Hsp Heq Hcl] [Vs Ve Vc] Hnew. destruct k as [|c k]; [done|]. pose proof (no_space_start _ Hsp) as Hskip.
  assert (strip_tail isspace (String c k +:+ " ") = String c k) as Htrim.
  { rewrite strip_tail_app by done. cbn. cbn in Hsp. apply orb_false_iff in Hsp as [_ Hsp]. by rewrite no_space_end. }
  unfold read_line. rewrite !app_assoc_s. rewrite skip_space_app by done. change (String c k +:+ " = " +:+ v +:+ nl) with (String c (k +:+ " = " +:+ v +:+ nl)).
  cbn [starts] in Hst. rewrite negb_true_iff, !orb_false_iff in Hst. destruct Hst as [[-> ->] ->]. cbn [orb].
  unfold read_item. cbn [is_char]. cbn [some_char] in Heq. apply orb_false_iff in Heq as [He1 He2]. rewrite He1.
  change (String c (k +:+ " = " +:+ v +:+ nl)) with (String c k +:+ " " +:+ String "="%char (" " +:+ v +:+ nl)). rewrite <- app_assoc_s, strchr_app.
  2: { rewrite some_app. cbn [some_char]. by rewrite He1, He2. }
  unfold trim_trailing_spaces. rewrite Htrim, Hsp. change (skip_space (" " +:+ v +:+ nl)) with (skip_space (v +:+ nl)).
  assert (strip_tail iscntrl (skip_space (v +:+ nl)) = v) as ->.
  { destruct v as [|x v]; [done|]. rewrite skip_space_app by done. by rewrite strip_tail_app. }
  by rewrite Hnew.
Qed.

Lemma read_header_line n r :
  name_ok n →
  read_line (("[ " +:+ n +:+ " ]") +:+ nl) r =
    inr (if bool_decide (sec_name (current r) = None) && (hashmap_count (contents (current r)) =? 0)
         then mk_reader (complete r) ((current r) <| sec_name := Some n |>) else mk_reader (complete r ++ [current r]) (new_inisection (Some n))).
Proof.
  intros [Hne Hst Hend Hbr Hcl]. unfold read_line. rewrite !app_assoc_s. change (skip_space ("[ " +:+ n +:+ " ]" +:+ nl)) with (String "["%char (" " +:+ n +:+ " ]" +:+ nl)).
  change (Ascii.eqb "[" ";" || Ascii.eqb "[" "#") with false. change (Ascii.eqb "[" "[") with true. cbv iota.
  unfold read_section_header. change (skip_space (" " +:+ n +:+ " ]" +:+ nl)) with (skip_space (n +:+ " ]" +:+ nl)). rewrite skip_space_app by done.
  change (n +:+ " ]" +:+ nl) with (n +:+ " " +:+ String "]"%char nl). rewrite <- app_assoc_s, strchr_app by (rewrite some_app; by rewrite Hbr).
  change (skip_space nl) with "". rewrite bool_decide_eq_true_2 by done. cbn [negb]. unfold trim_trailing_spaces in *. rewrite strip_tail_app by done. rewrite Hend.
  rewrite (bool_decide_eq_false_2 (n = "")) by done. by destruct (bool_decide (sec_name (current r) = None) && (hashmap_count (contents (current r)) =? 0)).
Qed.

(** ** What is written is read *)

Definition section_lines (s : IniSection) : list string :=
  (if sec_name s is Some n then [""; "[ " +:+ n +:+ " ]"; ""] else []) ++ map (λ x, x.1 +:+ " = " +:+ x.2) (qsort (items (contents s))).

Lemma items_text l t : foldl (λ acc x, acc ≫= λ t, Some (t +:+ item_line x.1 x.2)) (Some t) l = Some (t +:+ lines_text (map (λ x, x.1 +:+ " = " +:+ x.2) l)).
Proof.
  revert t. induction l as [|[k v] l IH]; intros t; cbn [foldl map]; [cbn; by rewrite app_end_s|]. cbn [mbind option_bind]. rewrite IH. f_equal. cbn [lines_text foldr fst snd].
  fold (lines_text (map (λ x : string * string, x.1 +:+ " = " +:+ x.2) l)). unfold item_line. by rewrite !app_assoc_s.
Qed.

Lemma section_text_lines s : section_text s = lines_text (section_lines s).
Proof.
  unfold section_text, section_lines, hashmap_foreach_sorted. rewrite items_text. cbn [default]. rewrite lines_text_app. f_equal.
  destruct (sec_name s) as [n|]; [|done]. cbn [lines_text foldr]. by rewrite !app_assoc_s.
Qed.

Definition items_ok (m : gmap string string) : Prop := Z.of_nat (size m) < 2 ^ 32 - 1 ∧ map_Forall (λ k v, key_ok k ∧ value_ok v) m.

(** A section that can be written, with its items. *)
Record section_ok (s : IniSection) (m : gmap string string) : Prop := {
  so_name : ∀ n, sec_name s = Some n → name_ok n;
  so_repr : represents (contents s) m;
  so_items : items_ok m
}.

(** The same name and the same items. *)
Definition same_section (s s' : IniSection) : Prop := sec_name s = sec_name s' ∧ ∃ m, represents (contents s) m ∧ represents (contents s') m.

Lemma read_items l : ∀ r m,
  represents (contents (current r)) m → NoDup l.*1 → Forall (λ x, m !! x.1 = None ∧ key_ok x.1 ∧ value_ok x.2) l → Z.of_nat (size m + length l) < 2 ^ 32 - 1 →
  ∃ h, read_all (map (λ x, x.1 +:+ " = " +:+ x.2) l) r = inr (mk_reader (complete r) ((current r) <| contents := h |>)) ∧ represents h (foldl (λ m x, <[x.1 := x.2]> m) m l).
Proof.
  induction l as [|[k v] l IH]; intros r m Hr Hnd Hl Hs; cbn [map read_all foldl].
  - exists (contents (current r)). split; [by destruct r as [? []] | done].
  - apply NoDup_cons in Hnd as [Hni Hnd]. apply Forall_cons in Hl as [(Hk & Hko & Hvo) Hl]. cbn [fst snd length] in *.
    rewrite read_item_line; [|done|done|by rewrite (rp_find _ _ Hr)]. pose proof (insert_refines _ _ k v Hr ltac:(lia)) as Hins.
    destruct (IH (add_item k v r) (<[k := v]> m)) as (h & E & Hh).
    + unfold add_item. cbn [current contents]. destruct (hashmap_insert (contents (current r)) k v) as [[b h] old]. apply Hins.
    + done.
    + apply Forall_forall. intros x Hx. rewrite Forall_forall in Hl. destruct (Hl x Hx) as (H1 & H2). split; [|done]. rewrite lookup_insert_ne; [done|].
      intros ->. apply Hni. by apply list_elem_of_fmap_2.
    + rewrite map_size_insert, Hk. cbn. lia.
    + exists h. split; [exact E | done].
Qed.

Lemma sorted_items (h : Table) (m : gmap string string) : represents h m → NoDup (qsort (items h)).*1 ∧ length (qsort (items h)) = size m ∧ (∀ x : string * string, x ∈ qsort (items h) → m !! x.1 = Some x.2) ∧ foldl (λ m x, <[x.1 := x.2]> m) ∅ (qsort (items h)) = m.
Proof.
  intros Hr. pose proof (items_nodup h (rp_wf _ _ Hr)) as Hnd. pose proof (qsort_perm (items h)) as Hp.
  assert (NoDup (qsort (items h)).*1) as Hnd' by (by rewrite Hp). split_and!.
  - done.
  - rewrite (Permutation_length Hp). by apply items_length.
  - intros [k v] Hx. rewrite Hp in Hx. apply (items_elem h k v (rp_wf _ _ Hr)) in Hx. by rewrite (rp_find _ _ Hr) in Hx.
  - apply map_eq. intros k. rewrite fold_insert_lookup by done. rewrite lookup_empty. destruct (chain_find k (qsort (items h))) as [v|] eqn:E.
    + apply chain_find_elem in E; [|done]. rewrite Hp in E. apply (items_elem h k v (rp_wf _ _ Hr)) in E. by rewrite <- (rp_find _ _ Hr).
    + apply chain_find_None in E. symmetry. apply eq_None_not_Some. intros [v Hv]. apply E. rewrite Hp. rewrite <- (rp_find _ _ Hr) in Hv. apply (items_elem h k v (rp_wf _ _ Hr)) in Hv.
      by apply (list_elem_of_fmap_2 fst) in Hv.
Qed.

(** The items of a section, read into an empty one. *)
Lemma read_section_items s m r :
  section_ok s m → represents (contents (current r)) ∅ → ∃ h, read_all (map (λ x, x.1 +:+ " = " +:+ x.2) (qsort (items (contents s)))) r =
    inr (mk_reader (complete r) ((current r) <| contents := h |>)) ∧ represents h m.
Proof.
  intros [_ Hr [Hs Hi]] He. destruct (sorted_items _ _ Hr) as (H1 & H2 & H3 & H4).
  destruct (read_items (qsort (items (contents s))) r ∅ He H1) as (h & E & Hh).
  - apply Forall_forall. intros x Hx. split; [apply lookup_empty|]. apply (Hi x.1 x.2). by apply H3.
  - rewrite map_size_empty, H2. lia.
  - exists h. rewrite H4 in Hh. by split.
Qed.

Definition results (r : Reader) : list IniSection := complete r ++ [current r].

(** The reader has begun its current section. *)
Definition occupied (r : Reader) : Prop := bool_decide (sec_name (current r) = None) && (hashmap_count (contents (current r)) =? 0) = false.

Lemma fresh_represents n : represents (contents (new_inisection n)) ∅.
Proof. by apply (new_represents 17). Qed.

Lemma read_named s m r n :
  section_ok s m → sec_name s = Some n → occupied r → ∃ r' s', read_all (section_lines s) r = inr r' ∧ results r' = results r ++ [s'] ∧ same_section s s' ∧ occupied r'.
Proof.
  intros Hs Hn Ho. unfold section_lines. rewrite Hn. cbn [app read_all]. change (read_line ("" +:+ nl) r) with (inr r : IniError + Reader). cbv iota.
  rewrite read_header_line by (by apply (so_name _ _ Hs)). rewrite Ho. set (r1 := mk_reader (complete r ++ [current r]) (new_inisection (Some n))).
  change (read_line ("" +:+ nl) r1) with (inr r1 : IniError + Reader). cbv iota. destruct (read_section_items s m r1 Hs (fresh_represents _)) as (h & -> & Hh).
  do 2 eexists. split; [reflexivity|]. split; [reflexivity|]. split; [|done]. split; [done|]. exists m. split; [apply Hs | done].
Qed.

Lemma read_first s m :
  section_ok s m → ∃ r s', read_all (section_lines s) (mk_reader [] (new_inisection None)) = inr r ∧ results r = [s'] ∧ same_section s s' ∧ (sec_name s ≠ None ∨ m ≠ ∅ → occupied r).
Proof.
  intros Hs. unfold section_lines. set (r0 := mk_reader [] (new_inisection None)). pose proof (so_repr _ _ Hs) as Hr. destruct (sec_name s) as [n|] eqn:Hn.
  - cbn [app read_all]. change (read_line ("" +:+ nl) r0) with (inr r0 : IniError + Reader). cbv iota.
    rewrite read_header_line by (by apply (so_name _ _ Hs)). change (bool_decide (sec_name (current r0) = None) && (hashmap_count (contents (current r0)) =? 0)) with true. cbv iota.
    set (r1 := mk_reader (complete r0) _). change (read_line ("" +:+ nl) r1) with (inr r1 : IniError + Reader). cbv iota.
    destruct (read_section_items s m r1 Hs (fresh_represents None)) as (h & -> & Hh). do 2 eexists. split; [reflexivity|]. split; [reflexivity|]. split; [|done]. split; [done|]. by exists m.
  - cbn [app]. destruct (read_section_items s m r0 Hs (fresh_represents None)) as (h & -> & Hh). do 2 eexists. split; [reflexivity|]. split; [reflexivity|]. split; [split; [done | by exists m]|].
    intros [?|Hm]; [done|]. unfold occupied. cbn. unfold hashmap_count. rewrite (rp_count _ _ Hh). apply Z.eqb_neq. intros H0. apply Hm, map_size_empty_inv. lia.
Qed.

(** The sections that a file can hold: the first may have no name, but then it
    is not empty, unless it is the only one. *)
Definition file_ok (l : list IniSection) : Prop :=
  match l with
  | [] => False
  | s :: l => (∃ m, section_ok s m ∧ (l = [] ∨ sec_name s ≠ None ∨ m ≠ ∅)) ∧ Forall (λ s, sec_name s ≠ None ∧ ∃ m, section_ok s m) l
  end.

Lemma read_rest l : ∀ r, occupied r → Forall (λ s, sec_name s ≠ None ∧ ∃ m, section_ok s m) l →
  ∃ r' l', read_all (concat (map section_lines l)) r = inr r' ∧ results r' = results r ++ l' ∧ Forall2 same_section l l'.
Proof.
  induction l as [|s l IH]; intros r Ho Hl; cbn [map concat].
  - exists r, []. split; [done|]. split; [by rewrite app_nil_r | constructor].
  - apply Forall_cons in Hl as [[Hn [m Hs]] Hl]. destruct (sec_name s) as [n|] eqn:En; [|done]. destruct (read_named s m r n Hs En Ho) as (r1 & s' & E & R & S & O1).
    rewrite read_all_app, E. destruct (IH r1 O1 Hl) as (r' & l' & -> & R' & S'). exists r', (s' :: l'). split; [done|]. split; [by rewrite R', R, <- app_assoc | by constructor].
Qed.

Lemma key_line_clean k v : key_ok k → value_ok v → clean (k +:+ " = " +:+ v).
Proof. intros Hk Hv. rewrite !clean_app. split; [apply Hk|]. split; [done | apply Hv]. Qed.

Lemma section_lines_clean s m : section_ok s m → Forall clean (section_lines s).
Proof.
  intros [Hn Hr [_ Hi]]. apply Forall_app. split.
  - destruct (sec_name s) as [n|]; [|done]. repeat constructor. rewrite !clean_app. split; [done|]. split; [by apply Hn | done].
  - apply Forall_map, Forall_forall. intros x Hx. destruct (sorted_items _ _ Hr) as (_ & _ & H & _). destruct (Hi _ _ (H x Hx)). by apply key_line_clean.
Qed.

(** Such sections are valid. *)
Lemma clean_newline s : clean s → some_char (Ascii.eqb newline) s = false.
Proof. induction s as [|c s IH]; [done|]. intros (H1 & _ & H2)%clean_cons. cbn [some_char]. rewrite Ascii.eqb_sym, H1. by apply IH. Qed.

Lemma name_valid n k : name_ok k → invalid_name n (Some k) = None.
Proof. intros [H1 H2 _ H4 H5]. cbn. rewrite H2, bool_decide_eq_false_2 by done. by rewrite H4, clean_newline. Qed.

Lemma section_valid n s m : section_ok s m → invalid_item n (items (contents s)) = None.
Proof.
  intros [_ Hr [_ Hi]]. assert (Forall (λ x, key_ok x.1 ∧ value_ok x.2) (items (contents s))) as HF.
  { apply Forall_forall. intros [k v] Hx. apply (items_elem _ _ _ (rp_wf _ _ Hr)) in Hx. rewrite (rp_find _ _ Hr) in Hx. by apply (Hi k v). }
  induction HF as [|[k v] l [Hk Hv] _ IH]; [done|]. cbn [invalid_item]. cbn [fst snd] in Hk, Hv. rewrite (ke_space _ Hk), (clean_newline v) by apply Hv. exact IH.
Qed.

Lemma rest_valid l : ∀ n, Forall (λ s, sec_name s ≠ None ∧ ∃ m, section_ok s m) l → validate_from n l = None.
Proof.
  induction l as [|s l IH]; intros n Hl; [done|]. apply Forall_cons in Hl as [[Hn [m Hs]] Hl]. cbn [validate_from].
  destruct (sec_name s) as [k|] eqn:E; [|done]. rewrite name_valid by (by apply (so_name _ _ Hs)). rewrite (section_valid n s m Hs). by apply IH.
Qed.

Lemma written l : file_ok l → ∃ t, write_inifile l = inr t ∧ t = lines_text (concat (map section_lines l)) ∧ Forall clean (concat (map section_lines l)).
Proof.
  intros Hf. assert (inisection_validate l = None ∧ Forall clean (concat (map section_lines l))) as [Hv Hc].
  { destruct l as [|s l]; [done|]. destruct Hf as [(m & Hs & _) Hl]. split.
    - unfold inisection_validate. cbn [validate_from]. rewrite (section_valid 1 s m Hs), rest_valid by done. destruct (sec_name s) eqn:E; [|done]. by rewrite name_valid by (by apply (so_name _ _ Hs)).
    - cbn [map concat]. apply Forall_app. split; [by eapply section_lines_clean|]. clear Hs. induction Hl as [|s' l [_ [m' Hs']] _ IH]; [done|]. cbn [map concat].
      apply Forall_app. split; [by eapply section_lines_clean | exact IH]. }
  unfold write_inifile. rewrite Hv. eexists. split; [reflexivity|]. split; [|done]. clear. induction l as [|s l IH]; [done|]. cbn [foldr map concat]. by rewrite lines_text_app, <- section_text_lines, IH.
Qed.

Lemma ini_roundtrip l : file_ok l → ∃ t l', write_inifile l = inr t ∧ read_inifile t = IniOk l' ∧ Forall2 same_section l l'.
Proof.
  intros Hf. destruct (written l Hf) as (t & -> & -> & Hc). destruct l as [|s l]; [done|]. destruct Hf as [(m & Hs & Hfirst) Hl].
  assert (∃ r l', read_all (concat (map section_lines (s :: l))) (mk_reader [] (new_inisection None)) = inr r ∧ results r = l' ∧ Forall2 same_section (s :: l) l') as (r & l' & E & R & S).
  { cbn [map concat]. destruct (read_first s m Hs) as (r & s' & E & R & S & O). rewrite read_all_app, E. destruct Hfirst as [-> |Hocc].
    - exists r, [s']. split; [done|]. split; [done | constructor; [exact S | constructor]].
    - destruct (read_rest l r (O Hocc) Hl) as (r' & l' & -> & R' & S'). exists r', (s' :: l'). split; [done|]. split; [by rewrite R', R | by constructor]. }
  exists (lines_text (concat (map section_lines (s :: l)))), l'. split; [done|]. split; [|done]. unfold read_inifile. rewrite <- R. apply read_lines_text; [done | | done].
  pose proof (lines_text_length (concat (map section_lines (s :: l)))). lia.
Qed.

(** ** What is read can be written *)

(** A line is clean up to the newline at its end. *)
Definition tidy (s : string) : Prop := ∃ l, clean l ∧ (s = l ∨ s = l +:+ nl).

Lemma tidy_app a b : tidy (a +:+ b) → b ≠ "" → clean a ∧ tidy b.
Proof.
  intros (l & Hl & H) Hb. revert l Hl H. induction a as [|c a IH]; intros l Hl H; [split; [done | by exists l]|].
  destruct l as [|d l].
  - destruct H as [H|H]; [done|]. injection H as _ H. destruct a; [|done]. destruct b; done.
  - apply clean_cons in Hl as (H1 & H2 & Hl). assert (c = d ∧ (a +:+ b = l ∨ a +:+ b = l +:+ nl)) as [-> H'] by (by destruct H as [H|H]; injection H; auto).
    destruct (IH l Hl H') as [Ha Htb]. split; [|done]. by apply clean_cons.
Qed.

Lemma tidy_suffix a b : tidy (a +:+ b) → tidy b.
Proof. intros H. destruct b as [|c b]; [exists ""; split; [done | by left]|]. by apply (tidy_app a). Qed.

Lemma skip_space_suffix s : ∃ a, s = a +:+ skip_space s.
Proof. induction s as [|c s [a IH]]; [by exists ""|]. cbn. destruct (isspace c); [|by exists ""]. exists (String c a). change (String c a +:+ skip_space s) with (String c (a +:+ skip_space s)). by rewrite <- IH. Qed.

Lemma tidy_skip s : tidy s → tidy (skip_space s).
Proof. destruct (skip_space_suffix s) as [a Ha]. rewrite Ha at 1. apply tidy_suffix. Qed.

Lemma skip_space_idem s : skip_space (skip_space s) = skip_space s.
Proof. induction s as [|c s IH]; [done|]. cbn. destruct (isspace c) eqn:E; [done|]. cbn. by rewrite E. Qed.

Lemma skip_space_first s c t : skip_space s = String c t → isspace c = false.
Proof. induction s as [|d s IH]; [done|]. cbn. destruct (isspace d) eqn:E; [done|]. by intros [= -> ->]. Qed.

Lemma strchr_split c s a b : strchr c s = Some (a, b) → s = a +:+ String c b ∧ some_char (Ascii.eqb c) a = false.
Proof.
  revert a. induction s as [|d s IH]; intros a; [done|]. cbn. destruct (Ascii.eqb_spec c d) as [->|Hne]; [intros [= <- <-]; done|].
  destruct (strchr c s) as [[a' b']|]; [|done]. cbn. intros [= <- <-]. destruct (IH a' eq_refl) as [-> H]. split; [done|]. cbn. rewrite H. by rewrite (proj2 (Ascii.eqb_neq c d) Hne).
Qed.

Lemma rstrip_prefix p s : ∃ t, s = rstrip p s +:+ t.
Proof.
  induction s as [|c s [t IH]]; [by exists ""|]. cbn. destruct (rstrip p s) as [|d r] eqn:E.
  - destruct (p c); [by exists (String c s) | by exists s].
  - exists t. change (String c (String d r) +:+ t) with (String c (String d r +:+ t)). by rewrite <- IH.
Qed.

Lemma strip_tail_prefix p s : ∃ t, s = strip_tail p s +:+ t.
Proof. destruct s as [|c s]; [by exists ""|]. destruct (rstrip_prefix p s) as [t Ht]. exists t. cbn. change (String c (rstrip p s) +:+ t) with (String c (rstrip p s +:+ t)). by rewrite <- Ht. Qed.

Lemma rstrip_idem p s : rstrip p (rstrip p s) = rstrip p s.
Proof.
  induction s as [|c s IH]; [done|]. cbn. destruct (rstrip p s) as [|d r]; [destruct (p c) eqn:E; [done | cbn; by rewrite E]|].
  change (rstrip p (String c (String d r))) with (match rstrip p (String d r) with EmptyString => if p c then EmptyString else String c EmptyString | t => String c t end). by rewrite IH.
Qed.

Lemma strip_tail_idem p s : strip_tail p (strip_tail p s) = strip_tail p s.
Proof. destruct s as [|c s]; [done|]. cbn. by rewrite rstrip_idem. Qed.

Lemma some_prefix q s t : some_char q (s +:+ t) = false → some_char q s = false.
Proof. rewrite some_app. by intros [? _]%orb_false_iff. Qed.

Lemma stripped_free q p s : some_char q s = false → some_char q (strip_tail p s) = false.
Proof. destruct (strip_tail_prefix p s) as [t Ht]. rewrite Ht at 1. apply some_prefix. Qed.

Lemma stripped_start p s : skip_space s = s → skip_space (strip_tail p s) = strip_tail p s.
Proof.
  intros H. destruct s as [|c s]; [done|]. cbn [strip_tail]. assert (isspace c = false) as Hc by (by apply (skip_space_first (String c s) c s)). cbn. by rewrite Hc.
Qed.

Lemma value_read v : tidy v → value_ok (strip_tail iscntrl (skip_space v)).
Proof.
  intros Hv%tidy_skip. split; [apply stripped_start, skip_space_idem | apply strip_tail_idem|].
  destruct (skip_space v) as [|x w] eqn:E; [done|]. apply skip_space_first in E. destruct Hv as (l & Hl & [Hw|Hw]).
  - rewrite Hw. by apply stripped_free.
  - destruct l as [|y l]; [injection Hw as -> _; by rewrite isspace_newline in E|]. rewrite Hw, strip_tail_app by done. by apply stripped_free.
Qed.

Lemma key_read line c t key v :
  tidy line → skip_space line = String c t → Ascii.eqb c ";" || Ascii.eqb c "#" = false → Ascii.eqb c "[" = false → is_char (String c t) "=" = false →
  strchr "=" (String c t) = Some (key, v) → some_char isspace (trim_trailing_spaces key) = false →
  key_ok (trim_trailing_spaces key) ∧ tidy v.
Proof.
  intros Hl%tidy_skip Hc H1 H2 H3 Hs Hk. rewrite Hc in Hl. apply strchr_split in Hs as [Hs He]. rewrite Hs in Hl. apply tidy_app in Hl as [Hkc Hv]; [|done].
  split; [|by apply (tidy_suffix "=")]. destruct key as [|d key]; [cbn in Hs; injection Hs as -> ->; done|]. injection Hs as -> Hs. split.
  - cbn [trim_trailing_spaces strip_tail starts]. rewrite H2. apply orb_false_iff in H1 as [-> ->]. done.
  - exact Hk.
  - by apply stripped_free.
  - by apply stripped_free.
Qed.

Lemma name_read c name j :
  tidy c → strchr "]" (skip_space c) = Some (name, j) → trim_trailing_spaces name ≠ "" → name_ok (trim_trailing_spaces name).
Proof.
  intros Hc%tidy_skip [Hs He]%strchr_split Hne. pose proof (skip_space_idem c) as Hid. rewrite Hs in Hc. apply tidy_app in Hc as [Hn _]; [|done]. split.
  - done.
  - apply stripped_start. destruct name as [|x name]; [done|]. rewrite Hs in Hid. assert (isspace x = false) as Hx by (by apply (skip_space_first c x (name +:+ String "]" j))). cbn. by rewrite Hx.
  - apply strip_tail_idem.
  - by apply stripped_free.
  - by apply stripped_free.
Qed.

Lemma tidy_chunk n s : tidy (c_string (fgets_from n s).1).
Proof.
  revert s. induction n as [|n IH]; intros [|c s]; try (exists ""; split; [done | by left]). cbn [fgets_from]. destruct (Ascii.eqb_spec c newline) as [->|Hc].
  - exists "". split; [done|]. by right.
  - specialize (IH s). destruct (fgets_from n s) as [a b]. cbn [fst c_string] in *. destruct (code c =? 0) eqn:E; [exists ""; split; [done | by left]|].
    destruct IH as (l & Hl & H). exists (String c l). split; [apply clean_cons; split; [by apply Ascii.eqb_neq | by split]|]. destruct H as [-> | ->]; [by left | by right].
Qed.

Lemma fgets_tidy s chunk rest : fgets s = Some (chunk, rest) → tidy (c_string chunk).
Proof.
  unfold fgets. case_bool_decide; [done|]. generalize (BUFFERSIZE - 1)%nat as N. intros N E. pose proof (tidy_chunk N s) as Ht.
  destruct (fgets_from N s) as [a b]. by injection E as <- <-.
Qed.

Lemma tidy_not_end s : tidy s → ends_line s = false → clean s.
Proof. intros (l & Hl & [-> | ->]) H; [done|]. by rewrite nl_ends in H. Qed.

Lemma read_more_tidy fuel : ∀ line s line' rest, tidy line → read_more fuel line s = Some (line', rest) → tidy line'.
Proof.
  induction fuel as [|fuel IH]; intros line s line' rest Hl; [done|]. cbn [read_more]. destruct (ends_line line) eqn:E; [intros H; by injection H as <- _|].
  destruct (fgets s) as [[chunk q]|] eqn:Ef; [|intros H; by injection H as <- _]. apply IH. apply fgets_tidy in Ef as (l & Hcl & Hc). pose proof (tidy_not_end _ Hl E) as Hline.
  exists (line +:+ l). split; [by apply clean_app|]. destruct Hc as [-> | ->]; [by left | right; by rewrite app_assoc_s].
Qed.

Lemma section_name s m n : section_ok s m → name_ok n → section_ok (s <| sec_name := Some n |>) m.
Proof. intros [H1 H2 H3] Hn. split; [by intros ? [= <-] | done | done]. Qed.

(** The reader holds sections that can be written, with at most [n] items in
    the current one. *)
Definition reader_ok (n : nat) (r : Reader) : Prop := file_ok (results r) ∧ ∃ m, section_ok (current r) m ∧ (size m <= n)%nat.

Lemma file_ok_last cs s s' m : file_ok (cs ++ [s]) → section_ok s' m → (sec_name s ≠ None → sec_name s' ≠ None) → file_ok (cs ++ [s']).
Proof.
  intros Hf Hs Hn. destruct cs as [|c cs]; cbn [app file_ok] in *; [split; [exists m; split; [done | by left] | done]|].
  destruct Hf as [(mc & Hc & Hfirst) Hl]. apply Forall_app in Hl as [Hl1 Hl2]. rewrite Forall_singleton in Hl2. split.
  - exists mc. split; [done|]. destruct Hfirst as [Hf|Hf]; [by destruct cs | by right].
  - apply Forall_app. split; [done|]. apply Forall_singleton. split; [apply Hn, Hl2 | by exists m].
Qed.

Lemma file_ok_push cs s m n : file_ok (cs ++ [s]) → section_ok s m → (sec_name s ≠ None ∨ m ≠ ∅) → name_ok n → file_ok ((cs ++ [s]) ++ [new_inisection (Some n)]).
Proof.
  intros Hf Hs Hocc Hn. assert (section_ok (new_inisection (Some n)) ∅) as Hnew.
  { split; [by intros ? [= <-] | apply fresh_represents | split; [rewrite map_size_empty; lia | apply map_Forall_empty]]. }
  destruct cs as [|c cs]; cbn [app file_ok] in *.
  - split; [exists m; split; [done | by right]|]. apply Forall_singleton. split; [done | by exists ∅].
  - destruct Hf as [(mc & Hc & Hfirst) Hl]. split; [exists mc; split; [done|]; destruct Hfirst as [Hf|Hf]; [by destruct cs | by right]|].
    apply Forall_app. split; [done|]. apply Forall_singleton. split; [done | by exists ∅].
Qed.

Lemma read_line_ok n line r r' :
  tidy line → reader_ok n r → Z.of_nat n < 2 ^ 32 - 2 → read_line line r = inr r' → reader_ok (S n) r'.
Proof.
  intros Hl [Hf (m & Hs & Hm)] Hn. unfold read_line. assert (∀ k : nat, (size m <= n)%nat → (size m <= S n)%nat) as Hw by lia.
  destruct (skip_space line) as [|c t] eqn:Hc; [intros H; injection H as <-; split; [done | by exists m; split; [done | lia]]|].
  destruct (Ascii.eqb c ";" || Ascii.eqb c "#") eqn:H1; [intros H; injection H as <-; split; [done | by exists m; split; [done | lia]]|].
  destruct (Ascii.eqb_spec c "[") as [->|H2%Ascii.eqb_neq].
  - unfold read_section_header. destruct (strchr "]" (skip_space t)) as [[name j]|] eqn:Hb; [|done]. destruct (negb (bool_decide (skip_space j = ""))); [done|]. case_bool_decide as Hne; [done|].
    assert (tidy t) as Ht by (apply tidy_skip in Hl; rewrite Hc in Hl; by apply (tidy_suffix "[")). pose proof (name_read t name j Ht Hb Hne) as Hname.
    destruct (bool_decide (sec_name (current r) = None) && (hashmap_count (contents (current r)) =? 0)) eqn:Ho; intros H; injection H as <-.
    + pose proof (section_name _ _ _ Hs Hname) as Hs'. split; [apply (file_ok_last _ _ _ m Hf Hs'); done|]. exists m. split; [exact Hs' | lia].
    + split.
      * apply (file_ok_push _ _ m); [done | done | | done]. destruct (sec_name (current r)) eqn:E; [by left|]. right. intros ->. unfold hashmap_count in Ho. rewrite (rp_count _ _ (so_repr _ _ Hs)), map_size_empty in Ho. done.
      * exists ∅. split; [|rewrite map_size_empty; lia]. split; [by intros ? [= <-] | apply fresh_represents | split; [rewrite map_size_empty; lia | apply map_Forall_empty]].
  - unfold read_item. destruct (is_char (String c t) "=") eqn:H3; [done|]. destruct (strchr "=" (String c t)) as [[key v]|] eqn:He; [|done].
    destruct (some_char isspace (trim_trailing_spaces key)) eqn:Hk; [done|]. destruct (key_read line c t key v Hl Hc H1 H2 H3 He Hk) as [Hko Hv]. apply value_read in Hv.
    set (k := trim_trailing_spaces key) in *. set (x := strip_tail iscntrl (skip_space v)) in *. destruct (hashmap_find (contents (current r)) k) eqn:Hfd; [done|]. intros H. injection H as <-.
    destruct Hs as [S1 S2 [S3 S4]]. pose proof (insert_refines _ _ k x S2 ltac:(lia)) as Hins. destruct (hashmap_insert (contents (current r)) k x) as [[b h] old] eqn:Ei. destruct Hins as [Hins _]. cbn [fst snd].
    assert (size (<[k := x]> m) <= S n)%nat as Hsz by (rewrite map_size_insert; destruct (m !! k); cbn; lia).
    assert (section_ok ((current r) <| contents := h |>) (<[k := x]> m)) as Hs'.
    { split; [exact S1 | exact Hins|]. split; [lia|]. by apply map_Forall_insert_2. }
    split; [apply (file_ok_last _ _ _ _ Hf Hs'); done|]. exists (<[k := x]> m). by split.
Qed.

Lemma read_lines_ok fuel : ∀ n k s r l, reader_ok k r → Z.of_nat (k + String.length s) < 2 ^ 32 - 2 → read_lines fuel n s r = IniOk l → file_ok l.
Proof.
  induction fuel as [|fuel IH]; intros n k s r l Hr Hs; [done|]. cbn [read_lines]. destruct (fgets s) as [[chunk rest]|] eqn:E; [|intros H; injection H as <-; apply Hr].
  pose proof (fgets_shrinks _ _ _ E) as Hsh. case_bool_decide; [apply (IH n k); [done | lia]|].
  destruct (read_more (S (String.length rest)) (c_string chunk) rest) as [[line q]|] eqn:Em; [|done]. destruct (read_more_total (S (String.length rest)) (c_string chunk) rest) as (l0 & q0 & E0 & Hq); [lia|].
  rewrite Em in E0. injection E0 as <- <-. assert (tidy line) as Hl.
  { eapply read_more_tidy; [by eapply fgets_tidy | exact Em]. }
  destruct (read_line line r) as [e|r'] eqn:Er; [done|]. apply (IH (n + 1) (S k)); [|lia]. apply (read_line_ok k line r r' Hl Hr); [lia | done].
Qed.

Lemma read_inifile_ok file l : Z.of_nat (String.length file) < 2 ^ 32 - 2 → read_inifile file = IniOk l → file_ok l.
Proof.
  intros Hlen Hl. eapply (read_lines_ok _ 0 0%nat); [| |exact Hl]; [|lia].
  assert (section_ok (new_inisection None) ∅) as Hnew by (split; [done | apply fresh_represents | split; [rewrite map_size_empty; lia | apply map_Forall_empty]]).
  split; [split; [exists ∅; split; [done | by left] | done]|]. exists ∅. split; [done | by rewrite map_size_empty].
Qed.

(** C39: configuration files are read as they are written.  The reader ends on
    every file, whatever the length of its lines and whatever octets it has.
    The sections it gives can be written, and when the text that is written is
    read the result is the same sections: the same names in the same order,
    each with the same items. *)
Theorem ini_read_write file :
  Z.of_nat (String.length file) < 2 ^ 32 - 2 →
  read_inifile file ≠ IniStuck ∧
  ∀ l, read_inifile file = IniOk l → ∃ t l', write_inifile l = inr t ∧ read_inifile t = IniOk l' ∧ Forall2 same_section l l'.
Proof.
  intros Hlen. split; [apply read_lines_total; lia|]. intros l Hl. apply ini_roundtrip. by apply (read_inifile_ok file).
Qed.

(** ** Witness *)

Definition sample_file : string :=
  "; comment" +:+ nl +:+ "[ interfaces ]" +:+ nl +:+ "out = udp-out dstip=10.0.0.1  " +:+ nl +:+ nl +:+ "[streams]" +:+ nl +:+ "s:packet=eth payload" +:+ nl +:+ "s:match = " +:+ nl +:+ "s:actions =send out".

Lemma ini_read_write_witness :
  read_inifile sample_file ≠ IniStuck ∧
  ∀ l, read_inifile sample_file = IniOk l → ∃ t l', write_inifile l = inr t ∧ read_inifile t = IniOk l' ∧ Forall2 same_section l l'.
Proof. exact (ini_read_write sample_file ltac:(apply Z.ltb_lt; vm_compute; reflexivity)). Defined.

Example sample_sections :
  (if read_inifile sample_file is IniOk l then map (λ s, (sec_name s, inisection_get s "out", inisection_get s "s:match")) l else []) =
  [(Some "interfaces", Some "udp-out dstip=10.0.0.1  ", None); (Some "streams", None, Some "")].
Proof. vm_compute. reflexivity. Qed.

(** A key with an equal sign is valid, but it is not read back. *)
Example equal_sign_lost :
  let s := (inisection_add (new_inisection (Some "s")) "a=b" (Some "c")).2 in
  match write_inifile [s] with
  | inr t => if read_inifile t is IniOk [s'] then inisection_get s' "a" = Some "b = c" ∧ inisection_get s' "a=b" = None else False
  | inl _ => False
  end.
Proof. vm_compute. by split. Qed.

End Ini.
