(* ===== verification/JsonParse.v ===== *)
(** * The JSON parser on arbitrary texts

    The parser ends on every text, reads nothing behind its end, and its
    result does not depend on what follows the value. *)

From S2P Require Import Prelude CString HashMap Double Json JsonText.
From Stdlib Require Import Ascii.

Module JParse.
Import CStr HMap Dbl Json JText.

#[local] Open Scope string_scope.
#[local] Open Scope list_scope.
#[local] Open Scope Z_scope.

Lemma pbind_POk {A B} (m : PResult A) (f : A → PResult B) b : m ≫= f = POk b ↔ ∃ a, m = POk a ∧ f a = POk b.
Proof. destruct m; cbn; split; [eauto | by intros (? & [= <-] & ?) | done | by intros (? & ? & ?) | done | by intros (? & ? & ?)]. Qed.

Lemma pbind_stuck {A B} (m : PResult A) (f : A → PResult B) :
  m ≠ PStuck → (∀ a, m = POk a → f a ≠ PStuck) → m ≫= f ≠ PStuck.
Proof. destruct m; cbn; [auto | done | done]. Qed.

Definition is_number (v : JsonValue) : bool := if v is JNumber _ then true else false.

(** A parsing function consumes text and does not look further, except that a
    number ends where the text ends. *)
Definition well_behaved (value : string → PResult (JsonValue * string)) : Prop :=
  ∀ s v r, value s = POk (v, r) →
    (String.length r < String.length s)%nat ∧
    ((is_number v = true → r ≠ "") → ∀ q, value (s +:+ q) = POk (v, r +:+ q)).

(** Takes a successful run apart, one step at a time. *)
Ltac pstep H :=
  match type of H with
  | mbind _ _ = POk _ =>
      let a := fresh "a" in let E := fresh "E" in apply pbind_POk in H as (a & E & H); destruct a; cbn beta iota in H
  | (if ?b then _ else _) = POk _ => let E := fresh "E" in destruct b eqn:E; [|done]
  end.

Ltac psimp := cbn beta iota delta [mbind presult_bind].

Lemma next_token_nonempty s c r : next_token s = POk (c, r) → s ≠ "".
Proof. by destruct s. Qed.

Section loops.
Context (value : string → PResult (JsonValue * string)) (Hv : well_behaved value) (Hstuck : ∀ s, value s ≠ PStuck).

(** The continuation after an item of an object or an array. *)
Lemma value_then_token s v r c t :
  value s = POk (v, r) → next_token r = POk (c, t) →
  (String.length t < String.length s)%nat ∧ ∀ q, value (s +:+ q) = POk (v, r +:+ q) ∧ next_token (r +:+ q) = POk (c, t +:+ q).
Proof.
  intros H1 H2. pose proof (next_token_nonempty _ _ _ H2) as Hn. destruct (Hv _ _ _ H1) as [Hl Hq].
  apply next_token_inv in H2 as (_ & Hl2 & Hq2). split; [lia|]. intros q. split; [by apply Hq | apply Hq2].
Qed.

Lemma parse_elements_inv fuel l s l' r :
  parse_elements value fuel l s = POk (l', r) →
  (String.length r < String.length s)%nat ∧
  ∀ fuel' q, (fuel <= fuel')%nat → parse_elements value fuel' l (s +:+ q) = POk (l', r +:+ q).
Proof.
  revert l s. induction fuel as [|fuel IH]; intros l s H; [done|]. cbn [parse_elements] in H. pstep H. pstep H.
  destruct (value_then_token _ _ _ _ _ E E0) as [Hl Hq].
  destruct (a =? "]")%char eqn:Ea.
  - injection H as <- <-. split; [lia|]. intros fuel' q Hf. destruct fuel' as [|fuel']; [lia|]. cbn [parse_elements].
    destruct (Hq q) as [-> Hq2]. cbn. rewrite Hq2. cbn. by rewrite Ea.
  - destruct (negb (a =? ",")%char) eqn:Eb; [done|]. pstep H. destruct (next_token_inv _ _ _ E1) as (_ & Hl1 & Hq1).
    destruct (IH _ _ H) as [Hl2 Hq2]. split; [cbn in Hl2; lia|]. intros fuel' q Hf. destruct fuel' as [|fuel']; [lia|]. cbn [parse_elements].
    destruct (Hq q) as [-> Hq3]. cbn. rewrite Hq3. cbn. rewrite Ea, Eb, Hq1. cbn. rewrite <- app_cons_s. apply Hq2. lia.
Qed.

Lemma parse_elements_not_stuck fuel l s :
  s ≠ "" → (String.length s <= fuel)%nat → parse_elements value fuel l s ≠ PStuck.
Proof.
  revert l s. induction fuel as [|fuel IH]; intros l s Hs Hl; [destruct s; cbn in Hl; [done | lia]|]. cbn [parse_elements].
  apply pbind_stuck; [done|]. intros [v r] E. apply pbind_stuck; [apply next_token_not_stuck|]. intros [c t] E0.
  destruct (value_then_token _ _ _ _ _ E E0) as [Hl1 _]. destruct (_ =? _)%char; [done|]. destruct (negb _); [done|].
  apply pbind_stuck; [apply next_token_not_stuck|]. intros [c' t'] E1. apply next_token_inv in E1 as (_ & Hl2 & _).
  apply IH; [done | cbn; lia].
Qed.

Lemma parse_members_inv fuel h s h' r :
  parse_members value fuel h s = POk (h', r) →
  (String.length r < String.length s)%nat ∧
  ∀ fuel' q, (fuel <= fuel')%nat → parse_members value fuel' h (s +:+ q) = POk (h', r +:+ q).
Proof.
  revert h s. induction fuel as [|fuel IH]; intros h s H; [done|]. cbn [parse_members] in H.
  pstep H. pstep H. destruct (negb (a =? ":")%char) eqn:Ec; [done|]. pstep H. pstep H. pstep H.
  destruct (get_string_inv _ _ _ E) as [Ls Hs]. destruct (next_token_inv _ _ _ E0) as (_ & L0 & H0).
  destruct (next_token_inv _ _ _ E1) as (_ & L1 & H1). destruct (value_then_token _ _ _ _ _ E2 E3) as [Hl Hq]. cbn in Hl.
  assert (Hpre : ∀ fuel' q, parse_members value (S fuel') h (s +:+ q) =
    (let h := if hashmap_contains h s0 then h else (hashmap_insert h s0 j).1.2 in
     if (a1 =? "}")%char then POk (h, s5 +:+ q)
     else if negb (a1 =? ",")%char then PErr
     else '(c, text) ← next_token (s5 +:+ q); parse_members value fuel' h (String c text))).
  { intros fuel' q. cbn [parse_members]. rewrite Hs. psimp. rewrite H0. psimp. rewrite Ec, H1. psimp.
    destruct (Hq q) as [Hq1 Hq2]. rewrite app_cons_s in Hq1. rewrite Hq1. psimp. rewrite Hq2. done. }
  destruct (a1 =? "}")%char eqn:Ea.
  - injection H as <- <-. split; [lia|]. intros fuel' q Hf. destruct fuel' as [|fuel']; [lia|]. by rewrite Hpre.
  - destruct (negb (a1 =? ",")%char) eqn:Eb; [done|]. pstep H. destruct (next_token_inv _ _ _ E4) as (_ & Hl1 & Hq1).
    destruct (IH _ _ H) as [Hl2 Hq2]. split; [cbn in Hl2; lia|]. intros fuel' q Hf. destruct fuel' as [|fuel']; [lia|].
    rewrite Hpre. cbv zeta. rewrite Hq1. cbn. rewrite <- app_cons_s. apply Hq2. lia.
Qed.

Lemma parse_members_not_stuck fuel h s :
  s ≠ "" → (String.length s <= fuel)%nat → parse_members value fuel h s ≠ PStuck.
Proof.
  revert h s. induction fuel as [|fuel IH]; intros h s Hs Hl; [destruct s; cbn in Hl; [done | lia]|]. cbn [parse_members].
  apply pbind_stuck; [by apply get_string_not_stuck|]. intros [k t0] E. apply get_string_inv in E as [L0 _].
  apply pbind_stuck; [apply next_token_not_stuck|]. intros [c1 t1] E1. apply next_token_inv in E1 as (_ & L1 & _). destruct (negb _); [done|].
  apply pbind_stuck; [apply next_token_not_stuck|]. intros [c2 t2] E2. apply next_token_inv in E2 as (_ & L2 & _).
  apply pbind_stuck; [done|]. intros [v t3] E3. apply pbind_stuck; [apply next_token_not_stuck|]. intros [c4 t4] E4.
  destruct (value_then_token _ _ _ _ _ E3 E4) as [L3 _]. cbn in L3. destruct (_ =? _)%char; [done|]. destruct (negb _); [done|].
  apply pbind_stuck; [apply next_token_not_stuck|]. intros [c5 t5] E5. apply next_token_inv in E5 as (_ & L5 & _).
  apply IH; [done | cbn; lia].
Qed.
End loops.

Lemma drop_prefix_inv w s r :
  drop_prefix w s = Some r → String.length s = (String.length w + String.length r)%nat ∧ ∀ q, drop_prefix w (s +:+ q) = Some (r +:+ q).
Proof.
  revert s. induction w as [|c w IH]; intros s; cbn [drop_prefix]; [intros [= ->]; auto|].
  destruct s as [|d s]; [done|]. rewrite ?app_cons_s. destruct (c =? d)%char eqn:E; [|done]. intros [Hl Hq]%IH.
  split; [cbn; lia|]. intros q. rewrite app_cons_s, E. apply Hq.
Qed.

(** A number starts with a digit or a sign. *)
Lemma parse_number_head c s v r :
  isspace c = false → parse_number (String c s) = POk (v, r) → c = "-"%char ∨ isdigit c = true.
Proof.
  intros Hc. unfold parse_number. destruct (get_number_str (String c s)) as [[num rest]|] eqn:E; [|done]. intros _.
  unfold get_number_str in E. cbn [span] in E. rewrite Hc in E. cbn [number_sign] in E.
  destruct (Ascii.eqb_spec c "-") as [->|]; [by left|right]. unfold number_int in E. cbn [span] in E.
  by destruct (isdigit c).
Qed.

Lemma word_value_number c s : (c = "-"%char ∨ isdigit c = true) → word_value (String c s) = parse_number (String c s).
Proof. intros Hc. unfold word_value. cbn [drop_prefix]. by destruct c as [[] [] [] [] [] [] [] []]; destruct Hc. Qed.

Lemma word_value_inv c s v r :
  isspace c = false → word_value (String c s) = POk (v, r) →
  (String.length r < String.length (String c s))%nat ∧
  ((is_number v = true → r ≠ "") → ∀ q, word_value (String c s +:+ q) = POk (v, r +:+ q)).
Proof.
  intros Hc. unfold word_value at 1.
  destruct (drop_prefix "true" (String c s)) as [s1|] eqn:E1.
  { intros [= <- <-]. apply drop_prefix_inv in E1 as [Hl Hq]. split; [cbn in *; lia|]. intros _ q. unfold word_value. by rewrite Hq. }
  destruct (drop_prefix "false" (String c s)) as [s2|] eqn:E2.
  { intros [= <- <-]. assert (c = "f"%char) as -> by (cbn [drop_prefix] in E2; destruct (Ascii.eqb_spec "f" c); [by subst | done]).
    apply drop_prefix_inv in E2 as [Hl Hq]. split; [cbn in *; lia|]. intros _ q. unfold word_value. rewrite Hq. by rewrite app_cons_s. }
  destruct (drop_prefix "null" (String c s)) as [s3|] eqn:E3.
  { intros [= <- <-]. assert (c = "n"%char) as -> by (cbn [drop_prefix] in E3; destruct (Ascii.eqb_spec "n" c); [by subst | done]).
    apply drop_prefix_inv in E3 as [Hl Hq]. split; [cbn in *; lia|]. intros _ q. unfold word_value. rewrite Hq. by rewrite app_cons_s. }
  intros H. pose proof (parse_number_head _ _ _ _ Hc H) as Hd. destruct (parse_number_inv (String c s) v r Hc H) as (Hl & [d ->] & Hq). split; [done|].
  intros Hr q. rewrite app_cons_s, word_value_number, <- app_cons_s by done. by apply Hq, Hr.
Qed.

Lemma parse_value_facts levels : well_behaved (parse_value levels) ∧ ∀ s, parse_value levels s ≠ PStuck.
Proof.
  induction levels as [|levels [IHb IHs]]; [by split|]. split.
  - intros s v r H. cbn [parse_value] in H. pstep H. destruct (next_token_inv _ _ _ E) as (Hsp & L & Hq).
    assert (Hstep : ∀ q, parse_value (S levels) (s +:+ q) = '(c, t) ← POk (a, s0 +:+ q);
      if (c =? "{")%char then
        '(c, s) ← next_token t;
        if (c =? "}")%char then POk (JObject empty_object, s)
        else '(h, s) ← parse_members (parse_value levels) (S (String.length s)) empty_object (String c s); POk (JObject h, s)
      else if (c =? "[")%char then
        '(c, s) ← next_token t;
        if (c =? "]")%char then POk (JArray [], s)
        else '(l, s) ← parse_elements (parse_value levels) (S (String.length s)) [] (String c s); POk (JArray l, s)
      else if (c =? quote)%char then '(str, s) ← get_string (String c t); POk (JString (Some str), s)
      else word_value (String c t)) by (intros q; cbn [parse_value]; by rewrite Hq).
    destruct (a =? "{")%char eqn:Ea; [|destruct (a =? "[")%char eqn:Eb; [|destruct (a =? quote)%char eqn:Ec]].
    + pstep H. destruct (next_token_inv _ _ _ E0) as (_ & L0 & Hq0). destruct (a0 =? "}")%char eqn:Ec.
      * injection H as <- <-. split; [lia|]. intros _ q. rewrite Hstep. psimp. rewrite Ea, Hq0. psimp. by rewrite Ec.
      * pstep H. injection H as <- <-. destruct (parse_members_inv _ IHb _ _ _ _ _ E1) as [L1 H1]. cbn in L1. split; [lia|]. intros _ q.
        rewrite Hstep. psimp. rewrite Ea, Hq0. psimp. rewrite Ec, <- app_cons_s, H1 by (rewrite length_app_s; lia). done.
    + pstep H. destruct (next_token_inv _ _ _ E0) as (_ & L0 & Hq0). destruct (a0 =? "]")%char eqn:Ec.
      * injection H as <- <-. split; [lia|]. intros _ q. rewrite Hstep. psimp. rewrite Ea, Eb, Hq0. psimp. by rewrite Ec.
      * pstep H. injection H as <- <-. destruct (parse_elements_inv _ IHb _ _ _ _ _ E1) as [L1 H1]. cbn in L1. split; [lia|]. intros _ q.
        rewrite Hstep. psimp. rewrite Ea, Eb, Hq0. psimp. rewrite Ec, <- app_cons_s, H1 by (rewrite length_app_s; lia). done.
    + pstep H. injection H as <- <-. destruct (get_string_inv _ _ _ E0) as [L1 H1]. cbn in L1. split; [lia|]. intros _ q.
      rewrite Hstep. psimp. rewrite Ea, Eb, Ec, <- app_cons_s, H1. done.
    + destruct (word_value_inv _ _ _ _ Hsp H) as [L1 H1]. cbn in L1. split; [lia|]. intros Hn q.
      rewrite Hstep. psimp. rewrite Ea, Eb, Ec, <- app_cons_s. by apply H1.
  - intros s. cbn [parse_value]. apply pbind_stuck; [apply next_token_not_stuck|]. intros [c t] _.
    destruct (_ =? _)%char; [|destruct (_ =? _)%char; [|destruct (_ =? _)%char]].
    + apply pbind_stuck; [apply next_token_not_stuck|]. intros [c' t'] _. destruct (_ =? _)%char; [done|].
      apply pbind_stuck; [apply parse_members_not_stuck; done|]. by intros [].
    + apply pbind_stuck; [apply next_token_not_stuck|]. intros [c' t'] _. destruct (_ =? _)%char; [done|].
      apply pbind_stuck; [apply parse_elements_not_stuck; done|]. by intros [].
    + apply pbind_stuck; [by apply get_string_not_stuck|]. by intros [].
    + unfold word_value. repeat case_match; try done. apply parse_number_not_stuck.
Qed.

(** C31: the JSON parser ends on every text: its loops and its recursion stop
    within the text, no read position passes the end, and a string that the
    scan accepted is unescaped within the buffer of its escaped length. *)
Theorem json_parse_total text :
  json_parse text ≠ PStuck ∧
  ∀ s k rest, scan_string false 0 text = Some (s, k, rest) →
    unescape (S (String.length text)) text = PErr ∨
    ∃ out, unescape (S (String.length text)) text = POk (out, rest) ∧ (String.length out <= String.length s)%nat.
Proof.
  split.
  - unfold json_parse. apply pbind_stuck; [apply parse_value_facts|]. intros [v r] _. repeat case_match; done.
  - intros s k rest H. eapply unescape_safe; [exact H | lia].
Qed.

Lemma json_parse_total_witness :
  let text := (String.append "\u00e9" (String quote "}")) in
  json_parse text ≠ PStuck ∧ ∃ out, unescape (S (String.length text)) text = POk (out, "}") ∧ (String.length out <= 6)%nat.
Proof.
  destruct (json_parse_total (String.append "\u00e9" (String quote "}"))) as [H1 H2]. split; [exact H1|].
  destruct (H2 "\u00e9" 1%nat "}" eq_refl) as [H|(out & H & Hl)]; [exfalso; revert H; vm_compute; discriminate|].
  exists out. split; [exact H | exact Hl].
Defined.

End JParse.
