(* ===== verification/JsonRound.v ===== *)
(** * Printed JSON texts are read back

    [renders] says which texts stand for a value: any white space between the
    tokens, the items of an object in any order.  Both printers produce such
    texts, and the parser reads them: the result is the value up to the layout
    of its hash tables, which [canon] forgets. *)

From S2P Require Import Prelude CString HashMap Double Json JsonText JsonParse.
From Stdlib Require Import Ascii.

Module JRound.
Import CStr HMap Dbl Json JText JParse.

#[local] Open Scope string_scope.
#[local] Open Scope list_scope.
#[local] Open Scope Z_scope.

(** ** Values up to the layout of hash tables *)

Unset Elimination Schemes.

(** A document: the items of an object are in the order of their keys. *)
Inductive Doc :=
  | DNull
  | DTrue
  | DFalse
  | DNumber (d : Double)
  | DString (s : string)
  | DObject (l : list (string * Doc))
  | DArray (l : list Doc).

Set Elimination Schemes.

Fixpoint canon (v : JsonValue) : Doc :=
  match v with
  | JNull => DNull
  | JTrue => DTrue
  | JFalse => DFalse
  | JNumber d => DNumber d
  | JString s => DString (default "" s)
  | JObject h => DObject (qsort (concat (map (map (λ x, (x.1, canon x.2))) (buckets h))))
  | JArray l => DArray (map canon l)
  end.

Definition canon_item (x : string * JsonValue) : string * Doc := (x.1, canon x.2).

Lemma canon_object h : canon (JObject h) = DObject (qsort (canon_item <$> items h)).
Proof. cbn [canon]. unfold items. by rewrite <- concat_map. Qed.

(** Values with the same document are equivalent. *)
#[global] Instance json_equiv : Equiv JsonValue := λ v w, canon v = canon w.
#[global] Instance json_equivalence : Equivalence (≡@{JsonValue}).
Proof. unfold equiv, json_equiv. split; [by intros v | by intros v w | intros u v w; apply transitivity]. Qed.

#[global] Instance JArray_proper : Proper ((≡) ==> (≡)) JArray.
Proof. intros l l' H. unfold equiv, json_equiv. cbn. f_equal. induction H as [|v w l l' Hv H IH]; [done|]. cbn. by rewrite Hv, IH. Qed.

Section induction.
Context (P : JsonValue → Prop).
Context (Hnull : P JNull) (Htrue : P JTrue) (Hfalse : P JFalse) (Hnum : ∀ d, P (JNumber d)) (Hstr : ∀ s, P (JString s)).
Context (Hobj : ∀ h, Forall (Forall (λ x : string * JsonValue, P x.2)) (buckets h) → P (JObject h)).
Context (Harr : ∀ l, Forall P l → P (JArray l)).

Fixpoint json_value_ind (v : JsonValue) : P v :=
  match v with
  | JNull => Hnull
  | JTrue => Htrue
  | JFalse => Hfalse
  | JNumber d => Hnum d
  | JString s => Hstr s
  | JObject h =>
      Hobj h ((fix chains (bs : list (list (string * JsonValue))) : Forall (Forall (λ x, P x.2)) bs :=
                match bs with
                | [] => Forall_nil_2 _
                | b :: bs =>
                    Forall_cons_2 _ _ _
                      ((fix chain (b : list (string * JsonValue)) : Forall (λ x, P x.2) b :=
                         match b with
                         | [] => Forall_nil_2 _
                         | x :: b => Forall_cons_2 _ x b (match x as x return P x.2 with (_, v) => json_value_ind v end) (chain b)
                         end) b) (chains bs)
                end) (buckets h))
  | JArray l =>
      Harr l ((fix elements (l : list JsonValue) : Forall P l :=
                match l with [] => Forall_nil_2 _ | v :: l => Forall_cons_2 _ v l (json_value_ind v) (elements l) end) l)
  end.
End induction.

(** ** Printable values *)

Fixpoint all {A} (P : A → Prop) (l : list A) : Prop := match l with [] => True | x :: l => P x ∧ all P l end.

Lemma all_Forall {A} (P : A → Prop) l : all P l ↔ Forall P l.
Proof. induction l as [|x l IH]; cbn; [done|]. by rewrite IH, Forall_cons. Qed.

(** Finite numbers, C strings and well-formed tables that are not full. *)
Fixpoint json_ok (v : JsonValue) : Prop :=
  match v with
  | JNumber (Dnum _ m e) => canonical m e
  | JNumber _ => False
  | JString s => no_nul (default "" s) = true
  | JObject h =>
      hash_wf h ∧ (hashmap_count h = Z.of_nat (length (items h)) ∧ hashmap_count h < 2 ^ 32 - 1) ∧
      all (all (λ x, no_nul x.1 = true ∧ json_ok x.2)) (buckets h)
  | JArray l => all json_ok l
  | _ => True
  end.

(** The depth of recursion a value needs. *)
Fixpoint height (v : JsonValue) : nat :=
  match v with
  | JObject h => S (max_list (concat (map (map (λ x, height x.2)) (buckets h))))
  | JArray l => S (max_list (map height l))
  | _ => 1
  end.

Lemma height_object h : height (JObject h) = S (max_list ((λ x, height x.2) <$> items h)).
Proof. cbn [height]. unfold items. by rewrite <- concat_map. Qed.

(** ** Texts that stand for a value *)

Inductive renders : JsonValue → string → Prop :=
  | R_null : renders JNull "null"
  | R_true : renders JTrue "true"
  | R_false : renders JFalse "false"
  | R_number neg m e t : canonical m e → print_double (Dnum neg m e) = Some t → renders (JNumber (Dnum neg m e)) t
  | R_string s : no_nul (default "" s) = true → renders (JString s) (serialize_string s)
  | R_no_elements w : ws w → renders (JArray []) ("[" +:+ w +:+ "]")
  | R_elements l t : elements l t → renders (JArray l) ("[" +:+ t)
  | R_no_members h w : ws w → items h = [] → renders (JObject h) ("{" +:+ w +:+ "}")
  | R_members h l t : members l t → l ≡ₚ items h → NoDup l.*1 → renders (JObject h) ("{" +:+ t)
with elements : list JsonValue → string → Prop :=
  | E_last w1 v t w2 : ws w1 → ws w2 → renders v t → elements [v] (w1 +:+ t +:+ w2 +:+ "]")
  | E_more w1 v t w2 l r : ws w1 → ws w2 → renders v t → elements l r → elements (v :: l) (w1 +:+ t +:+ w2 +:+ "," +:+ r)
with members : list (string * JsonValue) → string → Prop :=
  | M_last w1 k w2 w3 v t w4 : ws w1 → ws w2 → ws w3 → ws w4 → no_nul k = true → renders v t →
      members [(k, v)] (w1 +:+ serialize_string (Some k) +:+ w2 +:+ ":" +:+ w3 +:+ t +:+ w4 +:+ "}")
  | M_more w1 k w2 w3 v t w4 l r : ws w1 → ws w2 → ws w3 → ws w4 → no_nul k = true → renders v t → members l r →
      members ((k, v) :: l) (w1 +:+ serialize_string (Some k) +:+ w2 +:+ ":" +:+ w3 +:+ t +:+ w4 +:+ "," +:+ r).

Scheme renders_mut := Induction for renders Sort Prop
  with elements_mut := Induction for elements Sort Prop
  with members_mut := Induction for members Sort Prop.
Combined Scheme renders_ind3 from renders_mut, elements_mut, members_mut.

(** The first character of a value. *)
Lemma renders_head v t : renders v t → ∃ c t', t = String c t' ∧ isspace c = false ∧ c ≠ "]"%char ∧ c ≠ "}"%char.
Proof.
  destruct 1 as [| | |neg m e t Hc Hp|s _| | | |]; try (eexists _, _; split; [done|]; repeat split; done).
  - destruct (parse_number_print neg m e t "" Hc Hp I) as [_ (c & t' & -> & Hd)]. exists c, t'. split; [done|].
    destruct Hd as [->|Hd]; [done|]. split; [by apply digit_not_space|]. split; intros ->; by destruct Hd.
  - destruct s; eexists _, _; (split; [done|]); repeat split; done.
Qed.

Lemma number_ends_ws w c s : ws w → number_ends (String c s) → number_ends (w +:+ String c s).
Proof.
  destruct w as [|d w]; [done|]. intros [H _]%ws_inv _. rewrite app_cons_s. cbn. revert H.
  destruct d as [[] [] [] [] [] [] [] []]; vm_compute; done.
Qed.

Lemma next_token_skip w s : ws w → next_token (w +:+ s) = next_token s.
Proof. intros H. unfold next_token. by rewrite skip_ws. Qed.

Lemma parse_value_skip levels w s : ws w → parse_value levels (w +:+ s) = parse_value levels s.
Proof. intros H. destruct levels; [done|]. cbn [parse_value]. by rewrite next_token_skip. Qed.

(** What the parser does with the text of a value, of the elements of an array
    and of the members of an object, from the character it starts at. *)
Definition reads_value (v : JsonValue) (t : string) : Prop :=
  ∀ levels rest, (height v <= levels)%nat → number_ends rest →
    ∃ v', parse_value levels (t +:+ rest) = POk (v', rest) ∧ v' ≡ v.

Definition reads_elements (l : list JsonValue) (t : string) : Prop :=
  ∀ levels rest, Forall (λ v, height v <= levels)%nat l →
    ∃ c s l', next_token (t +:+ rest) = POk (c, s) ∧ c ≠ "]"%char ∧ (length l <= S (String.length s))%nat ∧ l' ≡ l ∧
      ∀ fuel acc, (length l <= fuel)%nat → parse_elements (parse_value levels) fuel acc (String c s) = POk (acc ++ l', rest).

Definition reads_members (l : list (string * JsonValue)) (t : string) : Prop :=
  ∀ levels rest, Forall (λ x, height x.2 <= levels)%nat l → NoDup l.*1 →
    ∃ c s, next_token (t +:+ rest) = POk (c, s) ∧ c ≠ "}"%char ∧ (length l <= S (String.length s))%nat ∧
      ∀ fuel h, (length l <= fuel)%nat → hash_wf h → (∀ k, k ∈ l.*1 → hashmap_find h k = None) →
        ∃ h' l', parse_members (parse_value levels) fuel h (String c s) = POk (h', rest) ∧
          hash_wf h' ∧ items h' ≡ₚ l' ++ items h ∧ canon_item <$> l' = canon_item <$> l.

(** One element, up to the token behind it. *)
Lemma read_element w1 v t w2 d s levels :
  ws w1 → ws w2 → renders v t → reads_value v t → (height v <= levels)%nat → isspace d = false → number_ends (String d s) →
  ∃ c s1 v', next_token (w1 +:+ t +:+ w2 +:+ String d s) = POk (c, s1) ∧ c ≠ "]"%char ∧
    parse_value levels (String c s1) = POk (v', w2 +:+ String d s) ∧ next_token (w2 +:+ String d s) = POk (d, s) ∧ v' ≡ v.
Proof.
  intros H1 H2 Hr Hv Hh Hd He. destruct (renders_head v t Hr) as (c & t' & -> & Hc & Hb & _).
  destruct (Hv levels (w2 +:+ String d s) Hh (number_ends_ws _ _ _ H2 He)) as (v' & E & Hv').
  exists c, (t' +:+ w2 +:+ String d s), v'. rewrite app_cons_s in *. rewrite !next_token_ws by done. done.
Qed.

Lemma find_contains {V} (h : HashMap (V := V)) k : hashmap_find h k = None → hashmap_contains h k = false.
Proof. unfold hashmap_find, hashmap_contains. by intros ->. Qed.

(** One member, up to the token behind it. *)
Lemma read_member w1 k w2 w3 v t w4 d s levels fuel h :
  ws w1 → ws w2 → ws w3 → ws w4 → no_nul k = true → renders v t → reads_value v t → (height v <= levels)%nat →
  isspace d = false → number_ends (String d s) → hashmap_find h k = None →
  ∃ s1 v', next_token (w1 +:+ serialize_string (Some k) +:+ w2 +:+ ":" +:+ w3 +:+ t +:+ w4 +:+ String d s) = POk (quote, s1) ∧ v' ≡ v ∧
    parse_members (parse_value levels) (S fuel) h (String quote s1) =
      let h' := (hashmap_insert h k v').1.2 in
      if (d =? "}")%char then POk (h', s)
      else if negb (d =? ",")%char then PErr
      else '(c, text) ← next_token s; parse_members (parse_value levels) fuel h' (String c text).
Proof.
  intros H1 H2 H3 H4 Hk Hr Hv Hh Hd He Hf.
  destruct (read_element w3 v t w4 d s levels H3 H4 Hr Hv Hh Hd He) as (c & s2 & v' & E1 & _ & E2 & E3 & Hv').
  exists ((escape k +:+ String quote "") +:+ w2 +:+ ":" +:+ w3 +:+ t +:+ w4 +:+ String d s), v'.
  cbn [serialize_string]. rewrite next_token_skip by done. rewrite (app_cons_s quote). split; [done|]. split; [done|].
  cbn [parse_members]. rewrite <- (app_cons_s quote). change (String quote (escape k +:+ String quote "")) with (serialize_string (Some k)).
  rewrite get_string_serialize by done. psimp. rewrite (app_cons_s ":"), app_nil_s, next_token_ws by done. psimp.
  change (negb (":" =? ":")%char) with false. cbn iota. rewrite E1. psimp. rewrite E2. psimp. rewrite E3. psimp.
  by rewrite (find_contains h k Hf).
Qed.

(** Each form of a value. *)
Lemma reads_word v w :
  (v, w) ∈ [(JNull, "null"); (JTrue, "true"); (JFalse, "false")] → reads_value v w.
Proof.
  intros H levels rest Hh _. destruct levels as [|levels]; [destruct v; cbn in Hh; lia|]. exists v. split; [|done].
  repeat (apply elem_of_cons in H as [[= -> ->]|H]; [by rewrite !app_cons_s|]). by apply not_elem_of_nil in H.
Qed.

Lemma number_char c : c = "-"%char ∨ isdigit c = true →
  isspace c = false ∧ (c =? "{")%char = false ∧ (c =? "[")%char = false ∧ (c =? quote)%char = false.
Proof. destruct c as [[] [] [] [] [] [] [] []]; vm_compute; intros []; done. Qed.

Lemma reads_number neg m e t :
  canonical m e → print_double (Dnum neg m e) = Some t → reads_value (JNumber (Dnum neg m e)) t.
Proof.
  intros Hc Hp levels rest Hh Hr. destruct levels as [|levels]; [cbn in Hh; lia|].
  destruct (parse_number_print neg m e t rest Hc Hp Hr) as [E (c & t' & -> & Hd)].
  assert (c = "-"%char ∨ isdigit c = true) as Hd' by (destruct Hd as [|[x Hx]]; [auto | right; unfold isdigit; by rewrite Hx]).
  destruct (number_char c Hd') as (Hs & H1 & H2 & H3). exists (JNumber (Dnum neg m e)). split; [|done].
  cbn [parse_value]. rewrite app_cons_s in *. rewrite next_token_now by done. psimp.
  rewrite H1, H2, H3, word_value_number by done. exact E.
Qed.

Lemma reads_string s : no_nul (default "" s) = true → reads_value (JString s) (serialize_string s).
Proof.
  intros Hs levels rest Hh _. destruct levels as [|levels]; [cbn in Hh; lia|]. exists (JString (Some (default "" s))). split; [|done].
  assert (E : serialize_string s = serialize_string (Some (default "" s))) by (by destruct s).
  rewrite E. cbn [parse_value serialize_string]. rewrite app_cons_s, next_token_now by done. psimp.
  rewrite <- app_cons_s. change (String quote (escape ?a +:+ String quote "")) with (serialize_string (Some a)).
  rewrite get_string_serialize by done. done.
Qed.

Lemma reads_array_nil w : ws w → reads_value (JArray []) ("[" +:+ w +:+ "]").
Proof.
  intros Hw levels rest Hh _. destruct levels as [|levels]; [cbn in Hh; lia|]. exists (JArray []). split; [|done].
  rewrite !app_assoc_s, (app_cons_s "["). cbn [parse_value]. rewrite next_token_now by done. psimp.
  rewrite app_nil_s, (app_cons_s "]"), next_token_ws by done. done.
Qed.

Lemma max_list_Forall {A} (f : A → nat) l n : (max_list (f <$> l) <= n)%nat → Forall (λ x, f x <= n)%nat l.
Proof.
  intros H. apply Forall_forall. intros x Hx. etransitivity; [|exact H]. by apply max_list_elem_of_le, list_elem_of_fmap_2.
Qed.

Lemma reads_array l t : reads_elements l t → reads_value (JArray l) ("[" +:+ t).
Proof.
  intros Hl levels rest Hh _. destruct levels as [|levels]; [cbn in Hh; lia|]. cbn [height] in Hh.
  destruct (Hl levels rest) as (c & s & l' & E1 & Hc & Hlen & Hl' & E2).
  { apply max_list_Forall. change (height <$> l) with (map height l). lia. }
  exists (JArray l'). split; [|by rewrite Hl'].
  rewrite app_assoc_s, app_cons_s, app_nil_s. cbn [parse_value]. rewrite next_token_now by done. psimp. cbn [Ascii.eqb Bool.eqb]. rewrite E1. psimp.
  destruct (Ascii.eqb_spec c "]"); [done|]. rewrite E2 by done. done.
Qed.

Lemma reads_elements_last w1 v t w2 :
  ws w1 → ws w2 → renders v t → reads_value v t → reads_elements [v] (w1 +:+ t +:+ w2 +:+ "]").
Proof.
  intros H1 H2 Hr Hv levels rest [Hh _]%Forall_cons. rewrite !app_assoc_s, (app_cons_s "]"), app_nil_s.
  destruct (read_element w1 v t w2 "]" rest levels H1 H2 Hr Hv Hh eq_refl ltac:(done)) as (c & s & v' & E1 & Hc & E2 & E3 & Hv').
  exists c, s, [v']. split; [done|]. split; [done|]. split; [cbn; lia|]. split; [by rewrite Hv'|].
  intros [|fuel] acc Hf; [cbn in Hf; lia|]. cbn [parse_elements]. rewrite E2. psimp. rewrite E3. done.
Qed.

Lemma reads_elements_more w1 v t w2 l r :
  ws w1 → ws w2 → renders v t → reads_value v t → reads_elements l r → reads_elements (v :: l) (w1 +:+ t +:+ w2 +:+ "," +:+ r).
Proof.
  intros H1 H2 Hr Hv Hl levels rest [Hh Hhs]%Forall_cons. rewrite !app_assoc_s, (app_cons_s ","), app_nil_s.
  destruct (read_element w1 v t w2 "," (r +:+ rest) levels H1 H2 Hr Hv Hh eq_refl ltac:(done)) as (c & s & v' & E1 & Hc & E2 & E3 & Hv').
  destruct (Hl levels rest Hhs) as (c2 & s2 & l' & E4 & Hc2 & Hlen & Hl' & E5).
  destruct (parse_value_facts levels) as [Hb _].
  destruct (value_then_token _ Hb _ _ _ _ _ E2 E3) as [L1 _]. destruct (next_token_inv _ _ _ E4) as (_ & L2 & _).
  exists c, s, (v' :: l'). split; [done|]. split; [done|]. split; [cbn in *; lia|]. split; [by rewrite Hv', Hl'|].
  intros [|fuel] acc Hf; [cbn in Hf; lia|]. cbn [parse_elements]. rewrite E2. psimp. rewrite E3. psimp. cbn [Ascii.eqb Bool.eqb negb].
  rewrite E4. psimp. rewrite E5 by (cbn in Hf; lia). by rewrite <- app_assoc.
Qed.

Lemma reads_object_nil h w : ws w → items h = [] → reads_value (JObject h) ("{" +:+ w +:+ "}").
Proof.
  intros Hw Hi levels rest Hh _. destruct levels as [|levels]; [rewrite height_object in Hh; lia|]. exists (JObject empty_object). split.
  - rewrite !app_assoc_s, (app_cons_s "{"). cbn [parse_value]. rewrite next_token_now by done. psimp.
    rewrite app_nil_s, (app_cons_s "}"), next_token_ws by done. done.
  - unfold equiv, json_equiv. by rewrite !canon_object, Hi.
Qed.

Lemma empty_object_wf : hash_wf empty_object.
Proof. apply (new_represents 13 empty_object eq_refl). Qed.

Lemma reads_object h l t : reads_members l t → l ≡ₚ items h → NoDup l.*1 → reads_value (JObject h) ("{" +:+ t).
Proof.
  intros Hl Hp Hnd levels rest Hh _. rewrite height_object in Hh. destruct levels as [|levels]; [lia|].
  destruct (Hl levels rest) as (c & s & E1 & Hc & Hlen & E2); [|done|].
  { rewrite Hp. apply max_list_Forall. lia. }
  destruct (E2 (S (String.length s)) empty_object Hlen empty_object_wf) as (h' & l' & E3 & Hwf & Hi & Hc').
  { intros k _. by apply (new_represents 13 empty_object). }
  exists (JObject h'). split.
  - rewrite app_assoc_s, app_cons_s, app_nil_s. cbn [parse_value]. rewrite next_token_now by done. psimp. cbn [Ascii.eqb Bool.eqb]. rewrite E1. psimp.
    destruct (Ascii.eqb_spec c "}"); [done|]. rewrite E3. done.
  - unfold equiv, json_equiv. rewrite !canon_object. f_equal. apply qsort_unique.
    + rewrite <- list_fmap_compose. apply (items_nodup h' Hwf).
    + rewrite Hi. change (items empty_object) with (@nil (string * JsonValue)). rewrite app_nil_r, Hc'. by rewrite Hp.
Qed.

Lemma reads_members_last w1 k w2 w3 v t w4 :
  ws w1 → ws w2 → ws w3 → ws w4 → no_nul k = true → renders v t → reads_value v t →
  reads_members [(k, v)] (w1 +:+ serialize_string (Some k) +:+ w2 +:+ ":" +:+ w3 +:+ t +:+ w4 +:+ "}").
Proof.
  intros H1 H2 H3 H4 Hk Hr Hv levels rest [Hh _]%Forall_cons _. cbn in Hh.
  rewrite !app_assoc_s, (app_cons_s "}"), app_nil_s.
  edestruct (read_member w1 k w2 w3 v t w4 "}" rest levels 0 empty_object) as (s1 & v' & E1 & Hv' & _); try done.
  { by apply (new_represents 13 empty_object). }
  exists quote, s1. split; [done|]. split; [done|]. split; [cbn; lia|].
  intros [|fuel] h Hf Hwf Hk'; [cbn in Hf; lia|].
  edestruct (read_member w1 k w2 w3 v t w4 "}" rest levels fuel h) as (s1' & v1 & E1' & Hv1 & E2); try done.
  { apply Hk'. constructor. }
  rewrite E1 in E1'. injection E1' as <-. rewrite E2. cbv zeta. cbn [Ascii.eqb Bool.eqb].
  destruct (insert_find h k v1 Hwf) as [Hwf' _]. eexists _, [(k, v1)]. split; [done|]. split; [done|].
  split; [apply insert_items; [done | apply Hk'; constructor]|]. unfold canon_item. cbn. do 2 f_equal. exact Hv1.
Qed.

Lemma reads_members_more w1 k w2 w3 v t w4 l r :
  ws w1 → ws w2 → ws w3 → ws w4 → no_nul k = true → renders v t → reads_value v t → reads_members l r →
  reads_members ((k, v) :: l) (w1 +:+ serialize_string (Some k) +:+ w2 +:+ ":" +:+ w3 +:+ t +:+ w4 +:+ "," +:+ r).
Proof.
  intros H1 H2 H3 H4 Hk Hr Hv Hl levels rest [Hh Hhs]%Forall_cons [Hni Hnd]%NoDup_cons. cbn in Hh.
  rewrite !app_assoc_s, (app_cons_s ","), app_nil_s.
  destruct (Hl levels rest Hhs Hnd) as (c2 & s2 & E4 & Hc2 & Hlen & Hrest).
  edestruct (read_member w1 k w2 w3 v t w4 "," (r +:+ rest) levels 0 empty_object) as (s1 & v' & E1 & _ & _); try done.
  { by apply (new_represents 13 empty_object). }
  exists quote, s1. split; [done|]. split; [done|]. split.
  { apply next_token_inv in E4 as (_ & L & _). cbn [serialize_string] in E1. rewrite next_token_skip, app_cons_s, next_token_now in E1 by done.
    injection E1 as <-. rewrite !length_app_s. cbn [String.length length] in *. rewrite ?length_app_s in *. lia. }
  intros [|fuel] h Hf Hwf Hk'; [cbn in Hf; lia|].
  edestruct (read_member w1 k w2 w3 v t w4 "," (r +:+ rest) levels fuel h) as (s1' & v1 & E1' & Hv1 & E2); try done.
  { apply Hk'. constructor. }
  rewrite E1 in E1'. injection E1' as <-. rewrite E2. cbv zeta. cbn [Ascii.eqb Bool.eqb negb]. rewrite E4. psimp.
  assert (hashmap_find h k = None) as Hn by (apply Hk'; constructor).
  destruct (insert_find h k v1 Hwf) as [Hwf' Hf'].
  destruct (Hrest fuel _ ltac:(cbn in Hf; lia) Hwf') as (h' & l' & E5 & Hwf2 & Hi & Hc).
  { intros k' Hin. rewrite Hf'. rewrite bool_decide_eq_false_2 by (intros ->; done). apply Hk'. by constructor. }
  exists h', ((k, v1) :: l'). split; [done|]. split; [done|]. split.
  - rewrite Hi, insert_items by done. by rewrite <- Permutation_middle.
  - cbn. rewrite Hc. unfold canon_item at 1. cbn. rewrite Hv1. done.
Qed.

Lemma reads_all :
  (∀ v t, renders v t → reads_value v t) ∧ (∀ l t, elements l t → reads_elements l t) ∧ (∀ l t, members l t → reads_members l t).
Proof.
  apply renders_ind3; intros.
  1-3: apply reads_word; set_solver.
  - by apply reads_number.
  - by apply reads_string.
  - by apply reads_array_nil.
  - by apply reads_array.
  - by apply reads_object_nil.
  - by eapply reads_object.
  - by apply reads_elements_last.
  - by apply reads_elements_more.
  - by apply reads_members_last.
  - by apply reads_members_more.
Qed.

(** ** The printers *)

Definition element_text (v : JsonValue) (m : string) : Prop := ∃ w t, ws w ∧ m = w +:+ t ∧ renders v t.
Definition member_text (x : string * JsonValue) (m : string) : Prop :=
  ∃ w1 w2 w3 t, ws w1 ∧ ws w2 ∧ ws w3 ∧ no_nul x.1 = true ∧ m = w1 +:+ serialize_string (Some x.1) +:+ w2 +:+ ":" +:+ w3 +:+ t ∧ renders x.2 t.

Section joins.
Context (sep wend : string) (Hsep : ws sep) (Hend : ws wend).

Lemma elements_join l ms w :
  ws w → Forall2 element_text l ms → l ≠ [] → elements l (w +:+ join ("," +:+ sep) ms +:+ wend +:+ "]").
Proof.
  intros Hw H. revert w Hw. induction H as [|v m l ms (w1 & t & H1 & -> & Hr) H IH]; intros w Hw Hne; [done|].
  destruct H as [|v' m' l ms Hv H]; cbn [join].
  - rewrite app_assoc_s, <- (app_assoc_s w). apply E_last; [by apply ws_app | done | done].
  - specialize (IH sep Hsep ltac:(done)). rewrite !app_assoc_s, <- (app_assoc_s w), (app_cons_s ","), app_nil_s.
    apply (E_more (w +:+ w1) v t ""); [by apply ws_app | done | done | exact IH].
Qed.

Lemma members_join l ms w :
  ws w → Forall2 member_text l ms → l ≠ [] → members l (w +:+ join ("," +:+ sep) ms +:+ wend +:+ "}").
Proof.
  intros Hw H. revert w Hw. induction H as [|[k v] m l ms (w1 & w2 & w3 & t & H1 & H2 & H3 & Hk & -> & Hr) H IH]; intros w Hw Hne; [done|].
  destruct H as [|v' m' l ms Hv H]; cbn [join].
  - rewrite !app_assoc_s, <- (app_assoc_s w). by apply M_last; [apply ws_app|..].
  - specialize (IH sep Hsep ltac:(done)). rewrite !app_assoc_s, <- (app_assoc_s w), (app_cons_s ","), app_nil_s.
    apply (M_more (w +:+ w1) k w2 w3 v t ""); [by apply ws_app | done..].
Qed.

Lemma print_array l f w :
  ws w → Forall (λ v, ∃ m, f v = Some m ∧ element_text v m) l →
  ∃ ms, mapM f l = Some ms ∧ let body := join ("," +:+ sep) ms in
    renders (JArray l) ("[" +:+ (if json_array_empty l then body else w +:+ body +:+ wend) +:+ "]").
Proof.
  intros Hw H. apply Forall_exists_Forall2_l in H as [ms H]. exists ms.
  split; [apply mapM_Some; eapply Forall2_impl; [exact H | by intros ?? []]|]. cbv zeta.
  assert (Forall2 element_text l ms) as Ht by (eapply Forall2_impl; [exact H | by intros ?? []]).
  destruct l as [|v l]; cbn [json_array_empty json_array_size length Nat.eqb].
  - inversion Ht. subst. cbn [join]. by apply R_no_elements.
  - rewrite !app_assoc_s. by apply R_elements, elements_join.
Qed.

Lemma Forall2_concat {A B} (R : A → B → Prop) ls ks : Forall2 (Forall2 R) ls ks → Forall2 R (concat ls) (concat ks).
Proof. induction 1; cbn; [constructor | by apply Forall2_app]. Qed.

Lemma print_object {B} h (f : string * JsonValue → option (string * B)) (g : string * B → string) w :
  ws w → hash_wf h → Forall (Forall (λ x, ∃ y, f x = Some y ∧ member_text x (g y))) (buckets h) →
  ∃ bs, mapM (mapM f) (buckets h) = Some bs ∧ let body := join ("," +:+ sep) (g <$> qsort (concat bs)) in
    renders (JObject h) ("{" +:+ (if bool_decide (items h = []) then body else w +:+ body +:+ wend) +:+ "}").
Proof.
  intros Hw Hwf H. assert (Forall (λ b, ∃ m, Forall2 (λ x y, f x = Some y ∧ member_text x (g y)) b m) (buckets h)) as H'.
  { eapply Forall_impl; [exact H|]. intros b Hb. by apply Forall_exists_Forall2_l. }
  apply Forall_exists_Forall2_l in H' as [bs Hbs]. exists bs. split.
  { apply mapM_Some. eapply Forall2_impl; [exact Hbs|]. intros b m Hb. apply mapM_Some. eapply Forall2_impl; [exact Hb | by intros ?? []]. }
  apply Forall2_concat in Hbs. fold (items h) in Hbs. cbv zeta.
  case_bool_decide as E.
  { rewrite E in Hbs. inversion Hbs as [Hn|]. cbn. by apply R_no_members. }
  apply Forall2_flip in Hbs. destruct (Permutation_Forall2 (Permutation_sym (qsort_perm (concat bs))) Hbs) as (l & Hp & Hl).
  rewrite !app_assoc_s. eapply R_members; [|by symmetry|].
  - apply members_join; [done | | intros ->; by apply Permutation_nil_r in Hp].
    apply Forall2_fmap_r. apply Forall2_flip. eapply Forall2_impl; [exact Hl|]. by intros y x [_ Hx].
  - rewrite <- Hp. by apply items_nodup.
Qed.
End joins.

Lemma plain_body (b : bool) body : (if b then body else "" +:+ body +:+ "") = body.
Proof. destruct b; [done|]. by rewrite app_nil_s, app_nil_r_s. Qed.

(** The printers only leave the indentation before the value. *)
Lemma serialize_renders v : json_ok v → ∃ t, serialize_value v = Some t ∧ renders v t.
Proof.
  induction v as [| | |d|s|h IH|l IH] using json_value_ind; intros Hok.
  1-3: eexists; (split; [done|]); constructor.
  - destruct d as [neg m e| |]; [|done..]. destruct (print_strtod neg m e Hok) as (D & _ & Hp & _). eexists. split; [exact Hp|]. by apply R_number.
  - eexists. split; [done|]. by apply R_string.
  - destruct Hok as (Hwf & _ & Hit). rewrite all_Forall in Hit.
    destruct (print_object "" "" ws_nil ws_nil h (λ x, t ← serialize_value x.2; Some (x.1, t)) print_member "") as (bs & Hbs & Hr); [done | done | |].
    + eapply Forall_impl; [apply Forall_and; split; [exact IH | exact Hit]|]. intros b [Hb1 Hb2]. rewrite all_Forall in Hb2.
      eapply Forall_impl; [apply Forall_and; split; [exact Hb1 | exact Hb2]|]. cbn. intros [k v] [Hv [Hk Ho]]. cbn in *.
      destruct (Hv Ho) as (t & -> & Ht). eexists. split; [done|]. exists "", "", "", t. cbn. by rewrite !app_nil_s.
    + eexists. split; [cbn [serialize_value]; rewrite Hbs; done|]. cbv zeta in Hr. by rewrite plain_body in Hr.
  - cbn in Hok. rewrite all_Forall in Hok.
    destruct (print_array "" "" ws_nil ws_nil l serialize_value "") as (ms & Hms & Hr); [done| |].
    + eapply Forall_impl; [apply Forall_and; split; [exact IH | exact Hok]|]. intros v [Hv Ho]. destruct (Hv Ho) as (t & -> & Ht).
      eexists. split; [done|]. exists "", t. done.
    + eexists. split; [cbn [serialize_value]; rewrite Hms; done|]. cbv zeta in Hr. by rewrite plain_body in Hr.
Qed.

Lemma pretty_renders n v : json_ok v → ∀ indent, ∃ t, serialize_value_pretty n v indent = Some (spaces indent +:+ t) ∧ renders v t.
Proof.
  assert (ws newline) as Hnl by done.
  induction v as [| | |d|s|h IH|l IH] using json_value_ind; intros Hok indent.
  1-3: eexists; (split; [done|]); constructor.
  - destruct d as [neg m e| |]; [|done..]. destruct (print_strtod neg m e Hok) as (D & _ & Hp & _). eexists.
    split; [cbn [serialize_value_pretty]; rewrite Hp; done|]. by apply R_number.
  - eexists. split; [done|]. by apply R_string.
  - destruct Hok as (Hwf & [Hcount _] & Hit). rewrite all_Forall in Hit.
    edestruct (print_object newline (newline +:+ spaces indent) Hnl ltac:(apply ws_app; [done | apply ws_spaces]) h
      (λ x, t ← serialize_value_pretty n x.2 (if compound x.2 then indent + n + n else 0)%nat;
            Some (x.1, (if compound x.2 then newline else " ", t)))
      (print_member_pretty (indent + n)) newline) as (bs & Hbs & Hr); [done | done | |].
    + eapply Forall_impl; [apply Forall_and; split; [exact IH | exact Hit]|]. intros b [Hb1 Hb2]. rewrite all_Forall in Hb2.
      eapply Forall_impl; [apply Forall_and; split; [exact Hb1 | exact Hb2]|]. cbn. intros [k v] [Hv [Hk Ho]]. cbn in *.
      destruct (Hv Ho (if compound v then indent + n + n else 0)%nat) as (t & -> & Ht). eexists. split; [done|].
      exists (spaces (indent + n)), " ", ((if compound v then newline else " ") +:+ spaces (if compound v then indent + n + n else 0)), t.
      split; [apply ws_spaces|]. split; [done|]. split; [apply ws_app; [by destruct (compound v) | apply ws_spaces]|]. split; [done|]. split; [|done].
      unfold print_member_pretty. cbn [fst snd]. by rewrite !app_assoc_s.
    + assert ((hashmap_count h =? 0) = bool_decide (items h = [])) as Hc.
      { rewrite Hcount. case_bool_decide as E; [by rewrite E|]. apply Z.eqb_neq. destruct (items h); cbn; [done | lia]. }
      cbn [serialize_value_pretty]. rewrite Hbs, Hc. eexists. split; [done|]. exact Hr.
  - cbn in Hok. rewrite all_Forall in Hok.
    edestruct (print_array newline (newline +:+ spaces indent) Hnl ltac:(apply ws_app; [done | apply ws_spaces]) l
      (λ v, serialize_value_pretty n v (indent + n)) newline) as (ms & Hms & Hr); [done| |].
    + eapply Forall_impl; [apply Forall_and; split; [exact IH | exact Hok]|]. intros v [Hv Ho]. destruct (Hv Ho (indent + n)%nat) as (t & -> & Ht).
      eexists. split; [done|]. exists (spaces (indent + n)), t. split; [apply ws_spaces | done].
    + cbn [serialize_value_pretty]. rewrite Hms. eexists. split; [done|]. exact Hr.
Qed.

Lemma renders_parse v t : renders v t → (height v <= S JSON_MAX_RECURSION_DEPTH)%nat → ∃ v', json_parse t = POk v' ∧ v' ≡ v.
Proof.
  intros Hr Hh. destruct (proj1 reads_all v t Hr _ "" Hh I) as (v' & E & Hv). rewrite app_nil_r_s in E.
  exists v'. split; [|done]. unfold json_parse. by rewrite E.
Qed.

(** C29: printed JSON texts are read back.  A value of finite numbers, C strings
    and well-formed objects, nested at most 50 deep below the top, is printed
    by both printers, and the parser gives an equal value for both texts: the
    17 digits identify every number, escapes and surrogates every string, and
    the items of an object come back whatever the layout of its table. *)
Theorem json_roundtrip v indent :
  json_ok v → (height v <= S JSON_MAX_RECURSION_DEPTH)%nat →
  (∃ t v', json_serialize v = Some t ∧ json_parse t = POk v' ∧ v' ≡ v) ∧
  (∃ t v', json_serialize_pretty v indent = Some t ∧ json_parse t = POk v' ∧ v' ≡ v).
Proof.
  intros Hok Hh. split.
  - destruct (serialize_renders v Hok) as (t & E & Hr). destruct (renders_parse v t Hr Hh) as (v' & Hp & Hv). eauto.
  - destruct (pretty_renders indent v Hok 0) as (t & E & Hr). destruct (renders_parse v t Hr Hh) as (v' & Hp & Hv). eauto.
Qed.

(** What starts like an object or an array is no number. *)
Lemma bracket_not_number v p q r w levels :
  match v with JObject _ | JArray _ => True | _ => False end → renders v (p +:+ q) →
  parse_value levels p = POk (w, r) → is_number w = false.
Proof.
  intros Hv Hr E. assert (∃ c s, p = String c s ∧ (c = "{"%char ∨ c = "["%char)) as (c & s & -> & Hc).
  { destruct p as [|c s]; [by destruct levels|]. exists c, s. split; [done|]. rewrite app_cons_s in Hr. inversion Hr; subst; try done; auto. }
  destruct levels as [|levels]; [done|]. cbn [parse_value] in E. rewrite next_token_now in E by (by destruct Hc as [->| ->]). 
  destruct Hc as [->| ->]; cbn beta iota delta [mbind presult_bind] in E; cbn [Ascii.eqb Bool.eqb] in E; pstep E;
    (destruct (_ =? _)%char; [by injection E as <- <-|]); pstep E; by injection E as <- <-.
Qed.

(** C30: truncated JSON texts are rejected.  A strict prefix of the text of an
    object or an array, printed by either printer, is an error. *)
Theorem json_truncated v indent t p q :
  json_ok v → (height v <= S JSON_MAX_RECURSION_DEPTH)%nat →
  (match v with JObject _ | JArray _ => True | _ => False end) →
  json_serialize v = Some t ∨ json_serialize_pretty v indent = Some t →
  t = p +:+ q → q ≠ "" → json_parse p = PErr.
Proof.
  intros Hok Hh Hv Ht -> Hq.
  assert (renders v (p +:+ q)) as Hr.
  { destruct (serialize_renders v Hok) as (t1 & E1 & Hr1). destruct (pretty_renders indent v Hok 0) as (t2 & E2 & Hr2).
    unfold json_serialize, json_serialize_pretty in Ht. rewrite E1, E2 in Ht. by destruct Ht as [[= <-]|[= <-]]. }
  destruct (proj1 reads_all v _ Hr _ "" Hh I) as (v' & E & _). rewrite app_nil_r_s in E.
  unfold json_parse. destruct (parse_value_facts (S JSON_MAX_RECURSION_DEPTH)) as [Hb Hst]. specialize (Hst p).
  destruct (parse_value _ p) as [[v1 r1]| |] eqn:E1; [exfalso|done|done].
  destruct (Hb _ _ _ E1) as [_ Hx]. specialize (Hx ltac:(rewrite (bracket_not_number v p q r1 v1 _ Hv Hr E1); done) q).
  rewrite E in Hx. injection Hx as -> Hx. by apply symmetry, app_empty_s in Hx as [_ ?].
Qed.

(** ** Copies *)

Lemma fold_insert_items l h :
  hash_wf h → NoDup l.*1 → (∀ k, k ∈ l.*1 → hashmap_find h k = None) →
  let h' := foldl (λ obj x, json_object_insert obj x.1 x.2) h l in hash_wf h' ∧ items h' ≡ₚ l ++ items h.
Proof.
  revert h. induction l as [|[k v] l IH]; intros h Hwf Hnd Hf; cbn [foldl fst snd]; [done|].
  apply NoDup_cons in Hnd as [Hni Hnd]. assert (hashmap_find h k = None) as Hk by (apply Hf; constructor).
  destruct (insert_find h k v Hwf) as [Hwf' Hf']. destruct (IH (json_object_insert h k v) Hwf' Hnd) as [H1 H2].
  - intros k' Hin. unfold json_object_insert. rewrite Hf', bool_decide_eq_false_2 by (intros ->; done). apply Hf. by constructor.
  - split; [done|]. rewrite H2. unfold json_object_insert. rewrite insert_items by done. by rewrite <- Permutation_middle.
Qed.

(** A copy is equal to the original. *)
Lemma json_duplicate_equiv v : json_ok v → json_duplicate v ≡ v.
Proof.
  induction v as [| | |d|s|h IH|l IH] using json_value_ind; intros Hok; try done.
  - unfold equiv, json_equiv. cbn in *. destruct s; [|done]. cbn in *. by rewrite c_string_id.
  - destruct Hok as (Hwf & _ & Hit). rewrite all_Forall in Hit. cbn [json_duplicate].
    set (f := λ x : string * JsonValue, (x.1, json_duplicate x.2)).
    assert (concat (map (map f) (buckets h)) = f <$> items h) as -> by (unfold items; by rewrite <- concat_map).
    assert ((f <$> items h).*1 = (items h).*1) as Hkeys by (rewrite <- list_fmap_compose; done).
    destruct (fold_insert_items (f <$> items h) empty_object empty_object_wf) as [Hwf' Hp].
    { rewrite Hkeys. by apply items_nodup. }
    { intros k _. by apply (new_represents 13 empty_object). }
    unfold equiv, json_equiv. rewrite !canon_object. f_equal. apply qsort_unique; [rewrite <- list_fmap_compose; by apply items_nodup|].
    rewrite Hp. change (items empty_object) with (@nil (string * JsonValue)). rewrite app_nil_r, <- list_fmap_compose.
    assert (Forall (λ x, canon (json_duplicate x.2) = canon x.2) (items h)) as Hall.
    { unfold items. apply Forall_concat. eapply Forall_impl; [apply Forall_and; split; [exact IH | exact Hit]|].
      intros b [Hb1 Hb2]. rewrite all_Forall in Hb2. eapply Forall_impl; [apply Forall_and; split; [exact Hb1 | exact Hb2]|]. intros x [H1 [_ H2]]. by apply H1. }
    clear -Hall. induction Hall as [|x l Hx _ IHl]; [done|]. cbn. rewrite IHl. unfold canon_item. cbn. by rewrite Hx.
  - cbn in Hok. rewrite all_Forall in Hok. unfold equiv, json_equiv. cbn. f_equal.
    induction IH as [|v l Hv _ IHl]; [done|]. apply Forall_cons in Hok as [Ho1 Ho2]. cbn. rewrite IHl by done. by rewrite Hv.
Qed.

(** ** Witnesses *)

(** [{"b": 1.25, "a": ["x", null]}] *)
Definition sample_value : JsonValue :=
  JObject (json_object_insert (json_object_insert empty_object "b" (JNumber (Dnum false (5 * 2 ^ 50) (-52))))
             "a" (JArray [JString (Some "x"); JNull])).

Lemma sample_value_ok : json_ok sample_value.
Proof.
  split; [|split].
  - apply insert_find, insert_find, empty_object_wf.
  - split; [vm_compute; reflexivity | apply Z.ltb_lt; vm_compute; reflexivity].
  - vm_compute. repeat split; intros; try done; by left.
Qed.

Lemma json_roundtrip_witness : ∃ t v', json_serialize sample_value = Some t ∧ json_parse t = POk v' ∧ v' ≡ sample_value.
Proof. apply (json_roundtrip sample_value 2); [exact sample_value_ok | apply Nat.leb_le; vm_compute; reflexivity]. Defined.

Lemma json_truncated_witness :
  ∃ p, json_serialize sample_value = Some (p +:+ "}") ∧ json_parse p = PErr.
Proof.
  destruct (serialize_value sample_value) as [t|] eqn:E; [|exfalso; revert E; vm_compute; discriminate].
  exists (String.substring 0 (String.length t - 1) t).
  assert (Some t = serialize_value sample_value) as Ht by done. vm_compute in Ht. injection Ht as ->.
  split; [vm_compute; reflexivity|].
  eapply (json_truncated sample_value 2 _ _ "}"); [exact sample_value_ok | apply Nat.leb_le; vm_compute; reflexivity | exact I | left; exact E | vm_compute; reflexivity | discriminate].
Defined.

End JRound.
