(* ===== verification/JsonObject.v ===== *)
(** * JSON objects as finite maps

    What the clients of json.c need of objects: an object stands for a finite
    map from keys to values, insertion, removal and copying are those of maps,
    and the text of an object is read back as an object with the same items. *)

From S2P Require Import Prelude CString HashMap Double Json JsonText JsonParse JsonRound.
From Stdlib Require Import Ascii.

Module JObj.
Import CStr HMap Dbl Json JText JParse JRound.

#[local] Open Scope string_scope.
#[local] Open Scope list_scope.
#[local] Open Scope Z_scope.


Definition item_ok (k : string) (v : JsonValue) : Prop := no_nul k = true ∧ json_ok v.

(** The object holds the items of the map, and they can be printed. *)
Record holds (h : JsonTable) (m : gmap string JsonValue) : Prop := {
  ho_repr : represents h m;
  ho_size : Z.of_nat (size m) < 2 ^ 32 - 1;
  ho_items : map_Forall item_ok m
}.

(** ** Tables and maps *)

Lemma represents_of (h : JsonTable) : hash_wf h → hashmap_count h = Z.of_nat (length (items h)) → represents h (list_to_map (items h)).
Proof.
  intros Hwf Hc. split; [done | intros k |].
  - destruct (hashmap_find h k) as [v|] eqn:E.
    + symmetry. apply elem_of_list_to_map; [by apply items_nodup|]. by apply items_elem.
    + symmetry. apply not_elem_of_list_to_map. intros ([k' v] & -> & Hin)%list_elem_of_fmap. apply items_elem in Hin; [|done]. cbn in E. congruence.
  - unfold hashmap_count in Hc. rewrite Hc. f_equal. rewrite <- (length_map_to_list (list_to_map (items h))).
    apply Permutation_length. symmetry. apply map_to_list_to_map. by apply items_nodup.
Qed.

Lemma item_ok_map (h : JsonTable) m : represents h m → map_Forall item_ok m ↔ Forall (λ x, item_ok x.1 x.2) (items h).
Proof.
  intros Hr. rewrite map_Forall_to_list, (items_map h m Hr). split; intros H; (eapply Forall_impl; [exact H | by intros [k v]]).
Qed.

Lemma json_ok_object (h : JsonTable) : json_ok (JObject h) ↔ ∃ m, holds h m.
Proof.
  assert (all (all (λ x, no_nul x.1 = true ∧ json_ok x.2)) (buckets h) ↔ Forall (λ x, item_ok x.1 x.2) (items h)) as Hall.
  { unfold items. rewrite Forall_concat, all_Forall. split; intros H; (eapply Forall_impl; [exact H | intros b; by rewrite all_Forall]). }
  cbn [json_ok]. rewrite Hall. split.
  - intros (Hwf & [Hc Hs] & Hi). pose proof (represents_of h Hwf Hc) as Hr. exists (list_to_map (items h)).
    split; [done | | by apply (item_ok_map h)]. by rewrite <- (rp_count _ _ Hr).
  - intros (m & [Hr Hs Hi]). split; [apply Hr|]. unfold hashmap_count. rewrite (rp_count _ _ Hr), (items_length h m Hr).
    split; [done|]. by apply (item_ok_map h m Hr).
Qed.

Lemma items_forall (h : JsonTable) m (P : JsonValue → Prop) : represents h m → Forall (λ x, P x.2) (items h) ↔ map_Forall (λ _, P) m.
Proof. intros Hr. rewrite map_Forall_to_list, (items_map h m Hr). split; intros H; (eapply Forall_impl; [exact H | by intros [k v]]). Qed.

Lemma max_list_le l n : (max_list l <= n)%nat ↔ Forall (λ x, x <= n)%nat l.
Proof. induction l as [|x l IH]; cbn; [split; [constructor | lia]|]. rewrite Forall_cons, <- IH. lia. Qed.

Lemma height_map (h : JsonTable) m n : represents h m → (height (JObject h) <= S n)%nat ↔ map_Forall (λ _ v, height v <= n)%nat m.
Proof.
  intros Hr. rewrite height_object, <- (items_forall h m (λ v, height v <= n)%nat Hr). rewrite <- Nat.succ_le_mono, max_list_le, Forall_fmap. done.
Qed.

Lemma empty_holds : holds empty_object ∅.
Proof. split; [by apply (new_represents 13) | rewrite map_size_empty; lia | apply map_Forall_empty]. Qed.

Lemma insert_holds h m k v :
  holds h m → Z.of_nat (size m) < 2 ^ 32 - 2 → item_ok k v → holds (json_object_insert h k v) (<[k := v]> m).
Proof.
  intros [Hr Hs Hi] Hs' Hk. split; [| |by apply map_Forall_insert_2].
  - pose proof (insert_refines h m k v Hr Hs) as H. unfold json_object_insert. destruct (hashmap_insert h k v) as [[new h'] old]. apply H.
  - rewrite map_size_insert. destruct (m !! k); cbn; lia.
Qed.

Lemma remove_holds h m k : holds h m → holds (json_object_remove h k).2 (delete k m).
Proof.
  intros [Hr Hs Hi]. split; [| |by apply map_Forall_delete].
  - pose proof (remove_refines h m k Hr Hs) as H. unfold json_object_remove. destruct (hashmap_remove h k) as [[ok h'] old]. apply H.
  - rewrite map_size_delete. destruct (m !! k); cbn; lia.
Qed.

Lemma remove_all_holds ks h m :
  holds h m → holds (foldl (λ js k, (json_object_remove js k).2) h ks) (filter (λ x, x.1 ∉ ks) m).
Proof.
  revert h m. induction ks as [|k ks IH]; intros h m Hh; cbn [foldl].
  - rewrite map_filter_id; [done|]. intros. apply not_elem_of_nil.
  - apply (remove_holds h m k), IH in Hh. eapply eq_rect; [exact Hh|]. apply map_eq. intros i. apply option_eq. intros v.
    rewrite !map_lookup_filter_Some, lookup_delete_Some. cbn. rewrite not_elem_of_cons. split; [intros [[? ?] ?] | intros (? & ? & ?)]; by split_and!.
Qed.

(** ** Copies *)

Fixpoint doc_height (d : Doc) : nat :=
  match d with
  | DObject l => S (max_list (map (λ x, doc_height x.2) l))
  | DArray l => S (max_list (map doc_height l))
  | _ => 1
  end.

#[local] Instance max_list_perm : Proper ((≡ₚ) ==> eq) max_list.
Proof. induction 1; cbn; lia. Qed.

Lemma height_canon v : doc_height (canon v) = height v.
Proof.
  induction v as [| | |d|s|h IH|l IH] using json_value_ind; try done.
  - rewrite canon_object, height_object. cbn [doc_height]. f_equal.
    rewrite (Permutation_map _ (qsort_perm (canon_item <$> items h))). change (map ?f (?g <$> ?l)) with (f <$> (g <$> l)). rewrite <- list_fmap_compose.
    apply (f_equal max_list), map_ext_in. unfold items. intros x (b & Hb%list_elem_of_In & Hxb%list_elem_of_In)%in_concat.
    rewrite Forall_forall in IH. specialize (IH b Hb). rewrite Forall_forall in IH. by apply IH.
  - cbn. do 2 f_equal. rewrite map_map. apply map_ext_in. intros v Hv%list_elem_of_In. rewrite Forall_forall in IH. by apply IH.
Qed.

Lemma height_equiv v v' : v ≡ v' → height v = height v'.
Proof. intros H. by rewrite <- !height_canon, H. Qed.

Definition copy_item (x : string * JsonValue) : string * JsonValue := (x.1, json_duplicate x.2).

Lemma duplicate_object h :
  json_duplicate (JObject h) = JObject (foldl (λ obj x, (hashmap_insert obj x.1 x.2).1.2) empty_object (copy_item <$> items h)).
Proof. cbn [json_duplicate]. unfold items. by rewrite <- concat_map. Qed.

Lemma duplicate_represents h m :
  represents h m → Z.of_nat (size m) < 2 ^ 32 - 1 →
  ∃ h', json_duplicate (JObject h) = JObject h' ∧ represents h' (json_duplicate <$> m).
Proof.
  intros Hr Hs. rewrite duplicate_object. eexists. split; [reflexivity|].
  pose proof (fold_insert_represents (copy_item <$> items h) empty_object ∅ (ho_repr _ _ empty_holds)) as H.
  rewrite length_fmap, (items_length h m Hr), map_size_empty in H. specialize (H Hs). eapply eq_rect; [exact H|].
  assert ((copy_item <$> items h).*1 = (items h).*1) as Hk by (rewrite <- list_fmap_compose; done).
  assert (NoDup (copy_item <$> items h).*1) as Hnd by (rewrite Hk; apply items_nodup, Hr).
  apply map_eq. intros k. rewrite fold_insert_lookup, lookup_empty by done. rewrite lookup_fmap, <- (rp_find _ _ Hr).
  destruct (chain_find k (copy_item <$> items h)) as [v|] eqn:E.
  - apply (chain_find_elem k v _ Hnd) in E. apply list_elem_of_fmap in E as ([k' v'] & [= -> ->] & Hin).
    apply items_elem in Hin; [|apply Hr]. by rewrite Hin.
  - apply chain_find_None in E. destruct (hashmap_find h k) as [v|] eqn:F; [|done]. destruct E. rewrite Hk.
    apply items_elem in F; [|apply Hr]. apply list_elem_of_fmap. by exists (k, v).
Qed.

Lemma json_duplicate_ok v : json_ok v → json_ok (json_duplicate v).
Proof.
  induction v as [| | |d|s|h IH|l IH] using json_value_ind; intros Hok; try done.
  - cbn in *. destruct s as [s|]; [|done]. cbn in *. by rewrite c_string_id.
  - apply json_ok_object in Hok as (m & [Hr Hs Hi]). destruct (duplicate_represents h m Hr Hs) as (h' & -> & Hr').
    apply json_ok_object. exists (json_duplicate <$> m). split; [done | by rewrite map_size_fmap|].
    intros k v. rewrite lookup_fmap. intros (x & Hx & ->)%fmap_Some. destruct (Hi k x Hx) as [Hk Ho]. split; [done|].
    rewrite <- (rp_find _ _ Hr) in Hx. apply items_elem in Hx; [|apply Hr]. unfold items in Hx.
    apply list_elem_of_In, in_concat in Hx as (b & Hb%list_elem_of_In & Hxb%list_elem_of_In).
    rewrite Forall_forall in IH. specialize (IH b Hb). rewrite Forall_forall in IH. by apply (IH (k, x) Hxb).
  - cbn in *. rewrite all_Forall in *. rewrite Forall_fmap. eapply Forall_impl; [apply Forall_and; split; [exact IH | exact Hok]|]. intros v [Hv Ho]. by apply Hv.
Qed.

(** ** Parsed objects *)

Lemma parse_members_wf value fuel h text h' r :
  hash_wf h → parse_members value fuel h text = POk (h', r) → hash_wf h'.
Proof.
  revert h text. induction fuel as [|fuel IH]; intros h text Hwf; cbn [parse_members]; [done|]. intros E.
  pstep E. pstep E. destruct (negb _); [done|]. pstep E. pstep E. cbv zeta in E. pstep E.
  match type of E with context [parse_members _ _ ?x] => assert (hash_wf x) as Hwf' end.
  { destruct (hashmap_contains h _); [done | by apply insert_find]. }
  destruct (Ascii.eqb _ _); [by injection E as <- <-|]. destruct (negb _); [done|]. pstep E. by apply IH in E.
Qed.

Lemma json_parse_wf text h : json_parse text = POk (JObject h) → hash_wf h.
Proof.
  unfold json_parse. intros E. apply pbind_POk in E as ([v' r'] & F & E). cbn beta iota in E.
  assert (v' = JObject h) as ->.
  { destruct (skip_space r') as [|c [|c' s']]; [by injection E | | done]. destruct (_ =? 0); [by injection E | done]. }
  cbn [parse_value] in F. pstep F. destruct (Ascii.eqb _ "{").
  { pstep F. destruct (Ascii.eqb _ "}"); [injection F as <- _; apply empty_object_wf|]. pstep F. injection F as -> ->.
    eapply parse_members_wf; [apply empty_object_wf | done]. }
  destruct (Ascii.eqb _ "["). { pstep F. destruct (Ascii.eqb _ "]"); [done|]. by pstep F. }
  destruct (Ascii.eqb _ quote); [by pstep F|]. exfalso. revert F. generalize (String a s). clear. intros t. unfold word_value.
  destruct (drop_prefix "true" t); [done|]. destruct (drop_prefix "false" t); [done|]. destruct (drop_prefix "null" t); [done|].
  unfold parse_number. destruct (get_number_str t) as [[num rest]|]; [|done]. destruct (strtod num) as [d e].
  destruct (negb _); [done|]. by destruct (bool_decide _).
Qed.

(** What the parser builds: tables that represent maps, and no NULL strings. *)
Inductive parsed : JsonValue → Prop :=
  | pd_null : parsed JNull
  | pd_true : parsed JTrue
  | pd_false : parsed JFalse
  | pd_number d : parsed (JNumber d)
  | pd_string s : parsed (JString (Some s))
  | pd_object h m : represents h m → (∀ k v, m !! k = Some v → parsed v) → parsed (JObject h)
  | pd_array l : (∀ v, v ∈ l → parsed v) → parsed (JArray l).
#[local] Hint Constructors parsed : core.

Definition short (s : string) : Prop := Z.of_nat (String.length s) < 2 ^ 32 - 1.

Section parsed_loops.
Context (value : string → PResult (JsonValue * string)) (Hw : well_behaved value).
Context (Hv : ∀ s v r, value s = POk (v, r) → short s → parsed v).

Lemma parse_members_parsed fuel h m s h' r :
  represents h m → (∀ k v, m !! k = Some v → parsed v) → Z.of_nat (size m + String.length s) < 2 ^ 32 - 1 →
  parse_members value fuel h s = POk (h', r) →
  ∃ m', represents h' m' ∧ (∀ k v, m' !! k = Some v → parsed v) ∧ (size m' <= size m + String.length s)%nat.
Proof.
  revert h m s. induction fuel as [|fuel IH]; intros h m s Hr Hm Hs; cbn [parse_members]; [done|]. intros E.
  apply pbind_POk in E as ([key t0] & E0 & E). apply get_string_inv in E0 as [L0 _]. pstep E. apply next_token_inv in E0 as (_ & L1 & _).
  destruct (negb _); [done|]. pstep E. apply next_token_inv in E0 as (_ & L2 & _). apply pbind_POk in E as ([v t3] & E3 & E). cbn beta iota zeta in E.
  pose proof (Hv _ _ _ E3 ltac:(unfold short; cbn; lia)) as Hpv. destruct (Hw _ _ _ E3) as [L3 _]. cbn in L3. pstep E. apply next_token_inv in E0 as (_ & L4 & _).
  set (h1 := if hashmap_contains h key then h else _) in E.
  assert (∃ m1, represents h1 m1 ∧ (∀ k v, m1 !! k = Some v → parsed v) ∧ (size m1 <= S (size m))%nat) as (m1 & Hr1 & Hm1 & Hs1).
  { subst h1. destruct (hashmap_contains h key); [exists m; split_and!; [done | done | lia]|]. exists (<[key := v]> m). split_and!.
    - pose proof (insert_refines h m key v Hr ltac:(lia)) as H. destruct (hashmap_insert h key v) as [[? ?] ?]. apply H.
    - intros k x [[-> <-]|[_ Hx]]%lookup_insert_Some; [done | by eapply Hm].
    - rewrite map_size_insert. destruct (m !! key); cbn; lia. }
  destruct (Ascii.eqb _ _); [injection E as <- _; exists m1; split_and!; [done | done | lia]|]. destruct (negb _); [done|]. pstep E. apply next_token_inv in E0 as (_ & L5 & _).
  assert (size m1 + String.length (String a2 s3) <= size m + String.length s)%nat as Hle by (cbn [String.length]; revert Hs1 L5 L4 L3 L2 L1 L0; clear; generalize (size m1) (size m); lia).
  destruct (IH h1 m1 (String a2 s3) Hr1 Hm1 ltac:(lia) E) as (m' & R & P & S). exists m'. split_and!; [done | done | lia].
Qed.

Lemma parse_elements_parsed fuel l s l' r :
  (∀ v, v ∈ l → parsed v) → short s → parse_elements value fuel l s = POk (l', r) → parsed (JArray l').
Proof.
  revert l s. induction fuel as [|fuel IH]; intros l s Hl Hs; cbn [parse_elements]; [done|]. intros E.
  apply pbind_POk in E as ([v t] & E0 & E). cbn beta iota zeta in E. pose proof (Hv _ _ _ E0 Hs) as Hpv. destruct (Hw _ _ _ E0) as [L0 _].
  pstep E. apply next_token_inv in E1 as (_ & L1 & _).
  assert (∀ x, x ∈ l ++ [v] → parsed x) as Hl' by (intros x [?| ->%list_elem_of_singleton]%elem_of_app; auto).
  destruct (Ascii.eqb _ _); [injection E as <- _; auto|]. destruct (negb _); [done|]. pstep E. apply next_token_inv in E1 as (_ & L2 & _).
  eapply IH; [exact Hl' | | exact E]. unfold short in *. cbn. lia.
Qed.
End parsed_loops.

Lemma parse_value_parsed levels s v r : parse_value levels s = POk (v, r) → short s → parsed v.
Proof.
  revert s v r. induction levels as [|levels IH]; intros s v r; [done|]. cbn [parse_value]. intros E Hs. pstep E. apply next_token_inv in E0 as (_ & L0 & _).
  pose proof (proj1 (parse_value_facts levels)) as Hw. destruct (Ascii.eqb _ "{").
  { pstep E. apply next_token_inv in E0 as (_ & L1 & _). destruct (Ascii.eqb _ "}").
    - injection E as <- _. eapply pd_object; [apply (ho_repr _ _ empty_holds) | by intros ? ? ?%lookup_empty_Some].
    - pstep E. injection E as <- _. edestruct (parse_members_parsed _ Hw IH) as (m' & R & P & _);
        [apply (ho_repr _ _ empty_holds) | by intros ? ? ?%lookup_empty_Some | | exact E0 | by econstructor].
      rewrite map_size_empty. unfold short in Hs. cbn. lia. }
  destruct (Ascii.eqb _ "[").
  { pstep E. apply next_token_inv in E0 as (_ & L1 & _). destruct (Ascii.eqb _ "]"); [injection E as <- _; constructor; by intros ? ?%elem_of_nil|].
    pstep E. injection E as <- _. eapply parse_elements_parsed; [exact Hw | exact IH | by intros ? ?%elem_of_nil | | exact E0]. unfold short in *. cbn. lia. }
  destruct (Ascii.eqb _ quote); [pstep E; injection E as <- _; auto|]. unfold word_value in E. repeat case_match; try (injection E as <- _; auto; done); try done.
  unfold parse_number in E. destruct (get_number_str _) as [[num rest]|]; [|done]. destruct (strtod num). destruct (negb _); [done|]. case_bool_decide; [done|]. injection E as <- _. auto.
Qed.

Lemma json_parse_parsed text v : json_parse text = POk v → short text → parsed v.
Proof.
  unfold json_parse. intros E Hs. apply pbind_POk in E as ([v' r'] & F & E). cbn beta iota in E.
  assert (v' = v) as <- by (destruct (skip_space r') as [|c [|c' s']]; [by injection E | | done]; destruct (_ =? 0); [by injection E | done]).
  by eapply parse_value_parsed.
Qed.

(** An object has no more items than its text has characters. *)
Lemma json_parse_size text h : json_parse text = POk (JObject h) → short text → ∃ m, represents h m ∧ (size m <= String.length text)%nat.
Proof.
  unfold json_parse. intros E Hs. apply pbind_POk in E as ([v' r'] & F & E). cbn beta iota in E.
  assert (v' = JObject h) as -> by (destruct (skip_space r') as [|c [|c' s']]; [by injection E | | done]; destruct (_ =? 0); [by injection E | done]).
  clear E. cbn [parse_value] in F. pstep F. apply next_token_inv in E as (_ & L0 & _). destruct (Ascii.eqb _ "{").
  { pstep F. apply next_token_inv in E as (_ & L1 & _). destruct (Ascii.eqb _ "}").
    - injection F as <- _. exists ∅. split; [apply (ho_repr _ _ empty_holds) | rewrite map_size_empty; lia].
    - pstep F. injection F as <- _. edestruct (parse_members_parsed _ (proj1 (parse_value_facts JSON_MAX_RECURSION_DEPTH)) (parse_value_parsed JSON_MAX_RECURSION_DEPTH)) as (m' & R & _ & S);
        [apply (ho_repr _ _ empty_holds) | by intros ? ? ?%lookup_empty_Some | | exact E |].
      + rewrite map_size_empty. unfold short in Hs. cbn [String.length]. lia.
      + exists m'. split; [done|]. rewrite map_size_empty in S. cbn [String.length] in S. lia. }
  exfalso. destruct (Ascii.eqb _ "["). { pstep F. destruct (Ascii.eqb _ "]"); [done|]. by pstep F. }
  destruct (Ascii.eqb _ quote); [by pstep F|]. unfold word_value in F. repeat case_match; try done.
  unfold parse_number in F. destruct (get_number_str _) as [[num rest]|]; [|done]. destruct (strtod num). destruct (negb _); [done|]. by case_bool_decide.
Qed.

(** Equal objects have equal items. *)
Lemma equiv_find h h' k : hash_wf h → hash_wf h' → JObject h ≡ JObject h' → hashmap_find h k ≡ hashmap_find h' k.
Proof.
  assert (∀ h h', hash_wf h → hash_wf h' → JObject h ≡ JObject h' → ∀ v, hashmap_find h k = Some v → ∃ v', hashmap_find h' k = Some v' ∧ v ≡ v') as Hle.
  { clear h h'. intros h h' Hw Hw' He v Hv. unfold equiv, json_equiv in He. rewrite !canon_object in He. injection He as He.
    assert (canon_item <$> items h ≡ₚ canon_item <$> items h') as Hp by (by rewrite <- qsort_perm, He, qsort_perm).
    apply items_elem in Hv; [|done]. assert (canon_item (k, v) ∈ canon_item <$> items h') as Hin by (rewrite <- Hp; by apply list_elem_of_fmap_2).
    apply list_elem_of_fmap in Hin as ([k' v'] & [= -> Hc] & Hin). exists v'. split; [by apply items_elem | done]. }
  intros Hw Hw' He. destruct (hashmap_find h k) as [v|] eqn:E, (hashmap_find h' k) as [v'|] eqn:E'.
  - destruct (Hle h h' Hw Hw' He v E) as (x & Hx & Hv). rewrite E' in Hx. injection Hx as <-. by constructor.
  - destruct (Hle h h' Hw Hw' He v E) as (x & Hx & _). congruence.
  - destruct (Hle h' h Hw' Hw (symmetry He) v' E') as (x & Hx & _). congruence.
  - constructor.
Qed.

(** What is printed and parsed can be printed again. *)
Lemma parsed_ok v' v : parsed v' → v' ≡ v → json_ok v → json_ok v'.
Proof.
  intros Hp. revert v. induction Hp as [| | |d|s|h m Hr Hm IH|l Hl IH]; intros v He Hok; try done.
  - destruct v as [| | |d'| | |]; try discriminate He. by injection He as ->.
  - destruct v as [| | | |s'| |]; try discriminate He. injection He as ->. done.
  - destruct v as [| | | | |h'|]; try discriminate He. apply json_ok_object in Hok as (m' & [Hr' Hs' Hi']).
    assert (∀ k v, m !! k = Some v → ∃ v', m' !! k = Some v' ∧ v ≡ v') as Hle.
    { intros k v Hv. pose proof (equiv_find h h' k ltac:(apply Hr) ltac:(apply Hr') He) as Hf. rewrite (rp_find _ _ Hr), (rp_find _ _ Hr'), Hv in Hf.
      destruct (m' !! k) as [v'|]; inversion Hf; subst. by exists v'. }
    apply json_ok_object. exists m. split; [done | |].
    + eapply Z.le_lt_trans; [|exact Hs']. apply inj_le. rewrite <- !size_dom. apply subseteq_size. intros k [v Hv]%elem_of_dom.
      destruct (Hle k v Hv) as (v' & Hv' & _). apply elem_of_dom. eauto.
    + intros k v Hv. destruct (Hle k v Hv) as (v' & Hv' & Heq). destruct (Hi' k v' Hv') as [Hk Hv'ok]. split; [done|]. by eapply IH.
  - destruct v as [| | | | | |l']; try discriminate He. injection He as He. cbn in *. rewrite all_Forall in *. rewrite Forall_forall in *. intros x Hx.
    assert (canon x ∈ map canon l') as Hin by (rewrite <- He; by apply list_elem_of_fmap_2). apply list_elem_of_fmap in Hin as (x' & Hc & Hx').
    eapply IH; [done | exact Hc | by apply Hok].
Qed.

(** The text of an object is read back as an object with the same items. *)
Lemma object_text h m :
  holds h m → map_Forall (λ _ v, height v <= JSON_MAX_RECURSION_DEPTH)%nat m →
  ∃ t h', json_serialize (JObject h) = Some t ∧ json_parse t = POk (JObject h') ∧ hash_wf h' ∧ (∀ k, hashmap_find h' k ≡ m !! k) ∧
    (short t → parsed (JObject h') ∧ json_ok (JObject h')).
Proof.
  intros Hh Hd. assert (json_ok (JObject h)) as Hok by (apply json_ok_object; eauto). destruct Hh as [Hr Hs Hi].
  destruct (serialize_renders _ Hok) as (t & E & Ht).
  destruct (renders_parse _ _ Ht) as (v' & Hp & Hv); [by apply (height_map h m)|].
  destruct v' as [| | |d|s|h'|l]; try (unfold equiv, json_equiv in Hv; rewrite canon_object in Hv; discriminate).
  pose proof (json_parse_wf t h' Hp) as Hw. exists t, h'. split; [done|]. split; [done|]. split; [done|]. split.
  - intros k. rewrite <- (rp_find _ _ Hr). apply equiv_find; [done | apply Hr | done].
  - intros Hst. pose proof (json_parse_parsed t _ Hp Hst) as Hpd. split; [done|]. by eapply parsed_ok.
Qed.

(** The text of the copy of an object without some of its keys. *)
Lemma copy_without_text h m ks :
  holds h m → map_Forall (λ _ v, height v <= JSON_MAX_RECURSION_DEPTH)%nat m →
  ∃ d, json_duplicate (JObject h) = JObject d ∧
  ∃ t h', json_serialize (JObject (foldl (λ js k, (json_object_remove js k).2) d ks)) = Some t ∧ json_parse t = POk (JObject h') ∧
    hash_wf h' ∧ (∀ k, hashmap_find h' k ≡ if bool_decide (k ∈ ks) then None else m !! k) ∧ (short t → parsed (JObject h') ∧ json_ok (JObject h')).
Proof.
  intros Hh Hd. assert (json_ok (JObject h)) as Hok by (apply json_ok_object; eauto). pose proof Hh as [Hr Hs Hi].
  destruct (duplicate_represents h m Hr Hs) as (d & E & Hrd). exists d. split; [done|].
  assert (holds d (json_duplicate <$> m)) as Hhd.
  { split; [done | by rewrite map_size_fmap|]. intros k v. rewrite lookup_fmap. intros (x & Hx & ->)%fmap_Some.
    destruct (Hi k x Hx) as [Hk Ho]. split; [done | by apply json_duplicate_ok]. }
  destruct (object_text _ _ (remove_all_holds ks d _ Hhd)) as (t & h' & Ht & Hp & Hw & Hf & Hpd).
  { intros k v [Hl _]%map_lookup_filter_Some. rewrite lookup_fmap in Hl. apply fmap_Some in Hl as (x & Hx & ->).
    rewrite (height_equiv (json_duplicate x) x); [by apply (Hd k) | apply json_duplicate_equiv, (Hi k x Hx)]. }
  exists t, h'. split_and!; [done | done | done| |done]. intros k. rewrite Hf. case_bool_decide as Hin.
  - rewrite (proj2 (map_lookup_filter_None _ _ _)); [constructor|]. right. intros x _. by apply not_not_elem_of in Hin || (intros Hn; by apply Hn).
  - destruct (m !! k) as [x|] eqn:Ek.
    + rewrite (proj2 (map_lookup_filter_Some _ _ k (json_duplicate x))); [constructor; apply json_duplicate_equiv, (Hi k x Ek)|].
      split; [by rewrite lookup_fmap, Ek | done].
    + rewrite (proj2 (map_lookup_filter_None _ _ _)); [constructor|]. left. by rewrite lookup_fmap, Ek.
Qed.

(** ** Texts are C strings *)

Lemma no_nul_app a b : no_nul (a +:+ b) = no_nul a && no_nul b.
Proof. induction a as [|c a IH]; [done|]. rewrite app_cons_s. cbn. by rewrite IH, andb_assoc. Qed.

Lemma no_nul_ws w : ws w → no_nul w = true.
Proof. induction w as [|c w IH]; [done|]. intros [Hc Hw]%ws_inv. cbn. rewrite IH by done. unfold isspace in Hc. destruct (Z.eqb_spec (code c) 0) as [E|]; [by rewrite E in Hc | done]. Qed.

Lemma no_nul_serialize s : no_nul (serialize_string s) = true.
Proof.
  assert (∀ s, no_nul (escape s) = true) as He.
  { clear s. induction s as [|c s IH]; cbn; [done|]. destruct (Z.eqb_spec (code c) 0); [done|]. rewrite no_nul_app, IH, andb_true_r.
    revert n. destruct c as [[] [] [] [] [] [] [] []]; vm_compute; done. }
  destruct s as [s|]; [|done]. change (serialize_string (Some s)) with (String quote ("" +:+ (escape s +:+ String quote ""))). cbn [no_nul]. by rewrite !no_nul_app, He.
Qed.

Lemma no_nul_digit d acc : 0 <= d < 10 → no_nul (String (digit_char d) acc) = no_nul acc.
Proof. intros Hd. cbn. destruct (digit_char_digit d Hd) as [_ ->]. destruct (Z.eqb_spec (48 + d) 0); [lia | done]. Qed.

Lemma no_nul_dec n z acc : no_nul (dec_app n z acc) = no_nul acc.
Proof. revert z acc. induction n as [|n IH]; intros z acc; cbn [dec_app]; [done|]. rewrite IH. apply no_nul_digit. lia. Qed.

Lemma no_nul_frac n f acc : no_nul acc = true → no_nul (frac_app n f acc) = true.
Proof.
  revert f. induction n as [|n IH]; intros f Ha; cbn [frac_app]; [done|]. destruct (_ =? 0); [by apply IH|].
  change (String "." ?t) with ("." +:+ t). rewrite no_nul_app, no_nul_dec. done.
Qed.

Lemma no_nul_print d t : print_double d = Some t → no_nul t = true.
Proof.
  assert (∀ m e, no_nul (print_abs m e) = true) as Ha.
  { intros m e. unfold print_abs. destruct (m =? 0); [done|]. destruct (sig17 _) as [x y]. unfold print_sig, exp_text.
    destruct (_ && _); rewrite no_nul_dec; apply no_nul_frac; [done|]. cbn. destruct (y <? 0); cbn; by rewrite no_nul_dec. }
  destruct d as [neg m e| |]; [|done..]. intros [= <-]. destruct neg; [cbn|]; apply Ha.
Qed.

Lemma no_nul_renders :
  (∀ v t, renders v t → no_nul t = true) ∧ (∀ l t, elements l t → no_nul t = true) ∧ (∀ l t, members l t → no_nul t = true).
Proof.
  apply (renders_ind3 (λ v t _, no_nul t = true) (λ l t _, no_nul t = true) (λ l t _, no_nul t = true)); intros; try done;
    repeat match goal with H : ws _ |- _ => apply no_nul_ws in H end; rewrite ?no_nul_app, ?no_nul_serialize; try (by eapply no_nul_print);
    by repeat match goal with H : no_nul _ = true |- _ => rewrite H; clear H end.
Qed.

Lemma serialize_c_string v t : json_ok v → json_serialize v = Some t → c_string t = t.
Proof. intros Hok E. destruct (serialize_renders v Hok) as (t' & E' & Hr). unfold json_serialize in E. rewrite E in E'. injection E' as ->. apply c_string_id. exact (proj1 no_nul_renders _ _ Hr). Qed.

(** ** Changes of objects that can be printed *)

(** The number of items that can still be inserted is at least [n]. *)
Definition has_room (h : JsonTable) (n : Z) : Prop := hashmap_count h + n < 2 ^ 32 - 1.

Lemma insert_ok h k v n :
  json_ok (JObject h) → has_room h (n + 1) → 0 <= n → item_ok k v →
  json_ok (JObject (json_object_insert h k v)) ∧ has_room (json_object_insert h k v) n.
Proof.
  intros (m & Hh)%json_ok_object Hn H0 Hk. unfold has_room, hashmap_count in *. rewrite (rp_count _ _ (ho_repr _ _ Hh)) in Hn.
  pose proof (insert_holds h m k v Hh ltac:(lia) Hk) as Hi. split; [apply json_ok_object; eauto|].
  rewrite (rp_count _ _ (ho_repr _ _ Hi)), map_size_insert. destruct (m !! k); cbn; lia.
Qed.

Lemma remove_ok h k n :
  json_ok (JObject h) → has_room h n → json_ok (JObject (json_object_remove h k).2) ∧ has_room (json_object_remove h k).2 n.
Proof.
  intros (m & Hh)%json_ok_object Hn. unfold has_room, hashmap_count in *. rewrite (rp_count _ _ (ho_repr _ _ Hh)) in Hn.
  pose proof (remove_holds h m k Hh) as Hi. split; [apply json_ok_object; eauto|].
  rewrite (rp_count _ _ (ho_repr _ _ Hi)), map_size_delete. destruct (m !! k); cbn; lia.
Qed.

Lemma ok_wf h : json_ok (JObject h) → hash_wf h.
Proof. intros (m & Hh)%json_ok_object. apply Hh. Qed.

Lemma represents_unique (h : JsonTable) m m' : represents h m → represents h m' → m = m'.
Proof. intros [_ H _] [_ H' _]. apply map_eq. intros k. by rewrite <- H, <- H'. Qed.

Lemma insert_parsed h k v :
  json_ok (JObject h) → parsed (JObject h) → parsed v → parsed (JObject (json_object_insert h k v)).
Proof.
  intros (m' & [Hr' Hs _])%json_ok_object Hp Hv. inversion Hp as [| | | | |h' m Hr Hm|]; subst. rewrite <- (represents_unique h m m' Hr Hr') in Hs.
  pose proof (insert_refines h m k v Hr Hs) as H. unfold json_object_insert. destruct (hashmap_insert h k v) as [[? ?] ?]. eapply pd_object; [apply H|].
  intros k' x [[-> <-]|[_ Hx]]%lookup_insert_Some; [done | by eapply Hm].
Qed.

Lemma remove_parsed h k : json_ok (JObject h) → parsed (JObject h) → parsed (JObject (json_object_remove h k).2).
Proof.
  intros (m' & [Hr' Hs _])%json_ok_object Hp. inversion Hp as [| | | | |h' m Hr Hm|]; subst. rewrite <- (represents_unique h m m' Hr Hr') in Hs.
  pose proof (remove_refines h m k Hr Hs) as H. unfold json_object_remove. destruct (hashmap_remove h k) as [[? ?] ?]. eapply pd_object; [apply H|].
  intros k' x [_ Hx]%lookup_delete_Some. by eapply Hm.
Qed.

Lemma find_insert h k v k' :
  json_ok (JObject h) → hashmap_find (json_object_insert h k v) k' = if bool_decide (k' = k) then Some v else hashmap_find h k'.
Proof. intros H%ok_wf. by apply insert_find. Qed.

Lemma find_remove h k k' :
  json_ok (JObject h) → hashmap_find (json_object_remove h k).2 k' = if bool_decide (k' = k) then None else hashmap_find h k'.
Proof.
  intros (m & Hh)%json_ok_object. rewrite (rp_find _ _ (ho_repr _ _ (remove_holds h m k Hh))), (rp_find _ _ (ho_repr _ _ Hh)).
  case_bool_decide as E; [subst; by rewrite lookup_delete_eq | by rewrite lookup_delete_ne].
Qed.

Lemma empty_ok n : 0 <= n < 2 ^ 32 - 1 → json_ok (JObject empty_object) ∧ has_room empty_object n.
Proof. intros Hn. split; [apply json_ok_object; eexists; apply empty_holds | unfold has_room; cbn; lia]. Qed.

End JObj.
