(* ===== verification/OamSession.v ===== *)
(** * OAM sessions (oam_session.h, oam_session.c)

    The sixteen session numbers of a stream and the requests that hold them.
    The table of streams is a finite map by name (HashMap.v: hash tables are);
    a pointer to the sessions of a stream is its name.  A request is a pointer;
    stopping a session deletes its request, and the deleted requests are
    returned.  The clock is an argument. *)

From S2P Require Import Prelude CString Double.
From Stdlib Require Import QArith Qround.

Module Session.
Import Dbl.

#[local] Open Scope list_scope.
#[local] Open Scope Z_scope.

(** ** The time-out of a session *)

Definition fl (q : Q) : Q := match round_double false q with Dnum _ m e => dval m e | _ => q end.

(** [MAX(ceil(1.0 + 0.001*interval_ms), 2)] in double precision. *)
Definition session_timeout (interval_ms : Z) : Z :=
  Z.max (Qceiling (fl (Qplus 1 (fl (Qmult (fl (1 # 1000)) (inject_Z interval_ms)))))) 2.

Example session_timeouts : map session_timeout [0; 2; 1000; 1001; 3000] = [2; 2; 2; 3; 4].
Proof. vm_compute. reflexivity. Qed.

Section sessions.
Context {Req : Type}.

(** [conn_name] is absent when the request was not issued from a connection. *)
Record SessionTracker := mk_tracker {
  conn_name : option string;
  access_time : Z;
  interval_ms : Z;
  req : option Req;
  sent : Z;
  recv : Z
}.

Definition no_session : SessionTracker := mk_tracker None 0 0 None 0 0.

#[export] Instance eta_tracker : Eta SessionTracker := λ s,
  mk_tracker (conn_name s) (access_time s) (interval_ms s) (req s) (sent s) (recv s).

Record StreamSessions := mk_stream { sessions : list SessionTracker; last_session : Z }.

Definition no_sessions : StreamSessions := mk_stream (replicate 16 no_session) 0.

Definition session (st : StreamSessions) (id : Z) : SessionTracker := default no_session (sessions st !! Z.to_nat id).
Definition set_session (st : StreamSessions) (id : Z) (s : SessionTracker) : StreamSessions :=
  mk_stream (<[Z.to_nat id := s]> (sessions st)) (last_session st).

Abbreviation Sessions := (gmap string StreamSessions).

(** The sessions of a stream, which is added when it is not known. *)
Definition get_stream_sessions (ids : Sessions) (name : string) : StreamSessions * Sessions :=
  match ids !! name with
  | Some st => (st, ids)
  | None => (no_sessions, <[name := no_sessions]> ids)
  end.

(** The session without its request, and the request that is deleted. *)
Definition stop_session_locked (s : SessionTracker) : SessionTracker * option Req :=
  match req s with
  | Some r => (mk_tracker None (access_time s) (interval_ms s) None (sent s) (recv s), Some r)
  | None => (s, None)
  end.

Definition session_timeouted (s : SessionTracker) (now : Z) : bool := now >? access_time s + session_timeout (interval_ms s).

(** The loop of [alloc_session_id] from [id]; it stops at a free session, at one
    that has timed out, which it stops, or when it is back at [next_id]. *)
Fixpoint alloc_loop (fuel : nat) (st : StreamSessions) (next_id id now : Z) : Z * StreamSessions * option Req :=
  match fuel with
  | O => (id, st, None)
  | S fuel =>
      match req (session st id) with
      | None => (id, st, None)
      | Some _ =>
          if session_timeouted (session st id) now then
            let '(s, r) := stop_session_locked (session st id) in (id, set_session st id s, r)
          else
            let id := (id + 1) mod 16 in
            if id =? next_id then (id, st, None) else alloc_loop fuel st next_id id now
      end
  end.

(** The allocated number, the table, and the request that was deleted. *)
Definition alloc_session_id (ids : Sessions) (stream : string) (r : Req) (conn : option string) (interval now : Z)
    : option Z * Sessions * option Req :=
  let '(st, ids) := get_stream_sessions ids stream in
  let next_id := (last_session st + 1) mod 16 in
  let '(id, st, old) := alloc_loop 16 st next_id next_id now in
  match req (session st id) with
  | Some _ => (None, <[stream := st]> ids, old)
  | None =>
      let s := session st id in
      let s := mk_tracker conn (now + 1) interval (Some r) (sent s) (recv s) in
      (Some id, <[stream := mk_stream (sessions (set_session st id s)) id]> ids, old)
  end.

Definition stream_live_session_count (st : StreamSessions) (now : Z) : nat :=
  length (filter (λ s, is_Some (req s) ∧ session_timeouted s now = false) (sessions st)).

(** The number of stopped sessions, the table and the deleted request. *)
Definition stop_session (ids : Sessions) (stream : string) (id : Z) : Z * Sessions * option Req :=
  let '(st, ids) := get_stream_sessions ids stream in
  if id >? 15 then (0, ids, None)
  else
    let '(s, r) := stop_session_locked (session st id) in
    (if r is Some _ then 1 else 0, <[stream := set_session st id s]> ids, r).

(** A connection is known by its name; the background has none. *)
Definition command_connection_is_same (conn name : option string) : bool := bool_decide (conn = name).

Definition stop_if (conn : option string) (s : SessionTracker) : SessionTracker * option Req :=
  if command_connection_is_same conn (conn_name s) then stop_session_locked s else (s, None).

Definition stop_stream (conn : option string) (st : StreamSessions) : StreamSessions :=
  mk_stream (map (λ s, (stop_if conn s).1) (sessions st)) (last_session st).
Definition stopped_of (conn : option string) (st : StreamSessions) : list Req :=
  omap (λ s, (stop_if conn s).2) (sessions st).

(** The deleted requests are as many as the number that is returned. *)
Definition stop_all_sessions_of_connection (ids : Sessions) (conn : option string) : Z * Sessions * list Req :=
  let stopped := map_concat (stopped_of conn) ids in
  (Z.of_nat (length stopped), stop_stream conn <$> ids, stopped).

Definition session_recv (ids : Sessions) (stream : string) (id now : Z) : Sessions :=
  let '(st, ids) := get_stream_sessions ids stream in
  let s := session st id in
  <[stream := set_session st id (s <| access_time := now + 1 |> <| recv := u64 (recv s + 1) |>)]> ids.

Definition session_sent (ids : Sessions) (stream : string) (id now : Z) : Sessions :=
  let '(st, ids) := get_stream_sessions ids stream in
  let s := session st id in
  <[stream := set_session st id (s <| access_time := now + 1 |> <| sent := u64 (sent s + 1) |>)]> ids.

(** The connection a reply is for: the connection of a session with a request. *)
Definition command_connection_for_session (ids : Sessions) (stream : string) (id : Z) : option string * Sessions :=
  let '(st, ids) := get_stream_sessions ids stream in
  let s := session st id in
  (if req s is Some _ then conn_name s else None, ids).

End sessions.
Arguments SessionTracker : clear implicits.
Arguments StreamSessions : clear implicits.

(** ** Allocation *)

Section theorems.
Context {Req : Type}.
Implicit Types (st : StreamSessions Req) (ids : gmap string (StreamSessions Req)) (s : SessionTracker Req).

Definition stream_wf st : Prop := length (sessions st) = 16%nat ∧ 0 <= last_session st < 16.
Definition sessions_wf ids : Prop := map_Forall (λ _, stream_wf) ids.

Lemma no_sessions_wf : stream_wf (@no_sessions Req).
Proof. split; [apply length_replicate | cbn; lia]. Qed.

Lemma get_stream_wf ids name : sessions_wf ids →
  stream_wf (get_stream_sessions ids name).1 ∧ sessions_wf (get_stream_sessions ids name).2 ∧
  (get_stream_sessions ids name).2 !! name = Some (get_stream_sessions ids name).1.
Proof.
  intros H. unfold get_stream_sessions. destruct (ids !! name) as [st|] eqn:E; cbn.
  - split; [by apply (H name) | done].
  - split; [apply no_sessions_wf|]. split; [|apply lookup_insert_eq]. apply map_Forall_insert_2; [apply no_sessions_wf | done].
Qed.

(** A session number that can be given away. *)
Definition usable (now : Z) s : bool := match req s with None => true | Some _ => session_timeouted s now end.

Lemma session_set st id s id' :
  stream_wf st → 0 <= id < 16 → 0 <= id' → session (set_session st id s) id' = if id' =? id then s else session st id'.
Proof.
  intros [Hl _] H H'. unfold session, set_session. cbn. destruct (Z.eqb_spec id' id) as [->|Hn].
  - rewrite list_lookup_insert_eq by lia. done.
  - rewrite list_lookup_insert_ne by lia. done.
Qed.

Lemma alloc_loop_spec fuel st next k now :
  stream_wf st → 0 <= next < 16 → 0 <= k → Z.of_nat fuel = 16 - k → (1 <= fuel)%nat →
  (∀ j, 0 <= j < k → usable now (session st ((next + j) mod 16)) = false) →
  let '(id, st', old) := alloc_loop fuel st next ((next + k) mod 16) now in
  (∃ i, k <= i < 16 ∧ id = (next + i) mod 16 ∧ usable now (session st id) = true ∧
     (∀ j, 0 <= j < i → usable now (session st ((next + j) mod 16)) = false) ∧
     old = req (session st id) ∧ st' = if req (session st id) is Some _ then set_session st id (stop_session_locked (session st id)).1 else st) ∨
  (id = next ∧ st' = st ∧ old = None ∧ ∀ j, 0 <= j < 16 → usable now (session st ((next + j) mod 16)) = false).
Proof.
  intros Hwf Hn. revert k. induction fuel as [|fuel IH]; intros k Hk Hf H1 Hj; [lia|]. cbn [alloc_loop].
  set (id := (next + k) mod 16) in *. destruct (req (session st id)) as [r|] eqn:Er.
  2: { cbv beta iota. left. exists k. rewrite Er. split_and!; [lia | lia | done | | done | done | done]. unfold usable. by rewrite Er. }
  destruct (session_timeouted (session st id) now) eqn:Et.
  { unfold stop_session_locked at 1. rewrite Er. cbv beta iota. left. exists k. rewrite Er. split_and!; [lia | lia | done | | done | done |].
    - unfold usable. by rewrite Er.
    - unfold stop_session_locked. by rewrite Er. }
  assert (Hj' : ∀ j, 0 <= j < k + 1 → usable now (session st ((next + j) mod 16)) = false).
  { intros j Hjk. destruct (decide (j = k)) as [->|]; [|apply Hj; lia]. fold id. unfold usable. by rewrite Er. }
  replace ((id + 1) mod 16) with ((next + (k + 1)) mod 16) by lia.
  destruct (Z.eqb_spec ((next + (k + 1)) mod 16) next) as [E|E].
  - cbv beta iota. right. split_and!; [exact E | done | done|]. intros j Hj16. apply Hj'. lia.
  - destruct fuel as [|fuel]; [exfalso; lia|].
    specialize (IH (k + 1) ltac:(lia) ltac:(lia) ltac:(lia) Hj').
    destruct (alloc_loop _ _ _ _ _) as [[id' st'] old]. destruct IH as [(i & Hi & H)|H]; [left; exists i; split; [lia | exact H] | by right].
Qed.

(** The tracker of a session that was given to [r]. *)
Definition given s (r : Req) (conn : option string) (interval now : Z) : SessionTracker Req :=
  mk_tracker conn (now + 1) interval (Some r) (sent s) (recv s).

Lemma alloc_cases ids stream r conn interval now st ids1 :
  stream_wf st → get_stream_sessions ids stream = (st, ids1) →
  let next := (last_session st + 1) mod 16 in
  (∃ i, 0 <= i < 16 ∧ let id := (next + i) mod 16 in
     usable now (session st id) = true ∧ (∀ j, 0 <= j < i → usable now (session st ((next + j) mod 16)) = false) ∧
     alloc_session_id ids stream r conn interval now =
       (Some id, <[stream := mk_stream (sessions (set_session st id (given (session st id) r conn interval now))) id]> ids1, req (session st id))) ∨
  ((∀ id, 0 <= id < 16 → usable now (session st id) = false) ∧
   alloc_session_id ids stream r conn interval now = (None, <[stream := st]> ids1, None)).
Proof.
  intros Hst E. cbv zeta. unfold alloc_session_id. rewrite E. set (next := (last_session st + 1) mod 16).
  assert (0 <= next < 16) as Hn by (unfold next; lia).
  pose proof (alloc_loop_spec 16 st next 0 now Hst Hn ltac:(lia) ltac:(lia) ltac:(lia) ltac:(intros; lia)) as H.
  replace ((next + 0) mod 16) with next in H by lia. destruct (alloc_loop 16 st next next now) as [[id st'] old].
  destruct H as [(i & Hi & -> & Hu & Hj & -> & ->)|(-> & -> & -> & Hall)].
  - left. exists i. set (id := (next + i) mod 16) in *. split_and!; [lia | lia | done | done|]. assert (0 <= id < 16) as Hid by lia.
    destruct (req (session st id)) as [r0|] eqn:Er.
    + rewrite session_set, Z.eqb_refl by (done || lia). unfold stop_session_locked, given. rewrite Er. cbn.
      by rewrite list_insert_insert_eq.
    + by rewrite Er.
  - right. pose proof (Hall 0 ltac:(lia)) as H0. replace ((next + 0) mod 16) with next in H0 by lia. unfold usable in H0.
    destruct (req (session st next)) as [r0|]; [|done]. split; [|done].
    intros id Hid. specialize (Hall ((id - next) mod 16) ltac:(lia)). by replace ((next + (id - next) mod 16) mod 16) with id in Hall by lia.
Qed.

(** C32: allocation of a session number.  The number is the first one behind
    the last allocated that is free or has timed out, in cyclic order; a
    request that timed out is deleted, and no other session changes.  There is
    no number exactly when all sixteen hold requests that have not timed out,
    and then nothing changes. *)
Theorem alloc_session_spec ids stream r conn interval now :
  sessions_wf ids →
  let st := (get_stream_sessions ids stream).1 in
  let next := (last_session st + 1) mod 16 in
  match alloc_session_id ids stream r conn interval now with
  | (Some id, ids', old) =>
      ∃ i, 0 <= i < 16 ∧ id = (next + i) mod 16 ∧ usable now (session st id) = true ∧
        (∀ j, 0 <= j < i → usable now (session st ((next + j) mod 16)) = false) ∧ old = req (session st id) ∧
        ids' = <[stream := mk_stream (<[Z.to_nat id := given (session st id) r conn interval now]> (sessions st)) id]> ids
  | (None, ids', old) =>
      (∀ id, 0 <= id < 16 → usable now (session st id) = false) ∧ old = None ∧ ids' = <[stream := st]> ids
  end.
Proof.
  intros Hwf. destruct (get_stream_wf ids stream Hwf) as (Hst & _ & _). cbv zeta.
  assert (∀ x, <[stream := x]> (get_stream_sessions ids stream).2 = <[stream := x]> ids) as Hins.
  { intros x. unfold get_stream_sessions. destruct (ids !! stream); [done|]. cbn. apply (insert_insert_eq (M := gmap string)). }
  destruct (get_stream_sessions ids stream) as [st ids1] eqn:E. cbn [fst snd] in *.
  destruct (alloc_cases ids stream r conn interval now st ids1 Hst E) as [(i & Hi & Hu & Hj & ->)|[Hall ->]].
  - exists i. split_and!; [lia | lia | done | done | done | done | apply Hins].
  - split_and!; [done | done | apply Hins].
Qed.

(** ** Conservation of requests *)

(** The requests that hold a session number. *)
Definition held_by st : list Req := omap req (sessions st).
Definition held ids : list Req := map_concat held_by ids.

Definition opt_list {A} (o : option A) : list A := if o is Some a then [a] else [].

Lemma omap_update {A B} (f : A → option B) l i x :
  l !! i = Some x → ∃ r, omap f l ≡ₚ opt_list (f x) ++ r ∧ ∀ y, omap f (<[i := y]> l) ≡ₚ opt_list (f y) ++ r.
Proof.
  intros H. exists (omap f (take i l) ++ omap f (drop (S i) l)).
  assert (∀ z l1 l2, omap f (l1 ++ z :: l2) ≡ₚ opt_list (f z) ++ omap f l1 ++ omap f l2) as Hz.
  { intros z l1 l2. rewrite omap_app. cbn. destruct (f z); [by rewrite <- Permutation_middle | done]. }
  split; [rewrite <- (take_drop_middle l i x H) at 1; apply Hz|].
  intros y. rewrite insert_take_drop by (by eapply lookup_lt_Some). apply Hz.
Qed.

Lemma held_update ids name st st' : ids !! name = Some st → ∃ r, held ids ≡ₚ held_by st ++ r ∧ held (<[name := st']> ids) ≡ₚ held_by st' ++ r.
Proof. intros H. destruct (map_concat_update held_by ids name st H) as (r & H1 & H2). exists r. split; [done | apply H2]. Qed.

Lemma get_stream_held ids name : held (get_stream_sessions ids name).2 ≡ₚ held ids.
Proof.
  unfold get_stream_sessions. destruct (ids !! name) eqn:E; [done|]. cbn. unfold held. by rewrite map_concat_insert.
Qed.

(** Changing one session of a stream. *)
Lemma set_session_held ids name st id s :
  ids !! name = Some st → stream_wf st → 0 <= id < 16 →
  ∃ r, held ids ≡ₚ opt_list (req (session st id)) ++ r ∧
    ∀ lst, held (<[name := mk_stream (sessions (set_session st id s)) lst]> ids) ≡ₚ opt_list (req s) ++ r.
Proof.
  intros H [Hl _] Hid. destruct (lookup_lt_is_Some_2 (sessions st) (Z.to_nat id)) as [x Hx]; [lia|].
  destruct (omap_update req (sessions st) (Z.to_nat id) x Hx) as (r1 & H1 & H2).
  destruct (held_update ids name st (mk_stream (sessions (set_session st id s)) 0) H) as (r2 & H3 & H4).
  exists (r1 ++ r2). split.
  - rewrite H3. unfold held_by. rewrite H1. unfold session. by rewrite Hx, app_assoc.
  - intros lst. change (held (<[name := mk_stream (sessions (set_session st id s)) lst]> ids)) with (held (<[name := mk_stream (sessions (set_session st id s)) lst]> ids)).
    destruct (held_update ids name st (mk_stream (sessions (set_session st id s)) lst) H) as (r3 & H5 & H6).
    assert (r2 ≡ₚ r3) as E by (apply (Permutation_app_inv_l (held_by st)); by rewrite <- H3, <- H5).
    rewrite H6, <- E. unfold held_by. cbn. by rewrite H2, app_assoc.
Qed.

Inductive Op :=
  | OpAlloc (stream : string) (r : Req) (conn : option string) (interval now : Z)
  | OpStop (stream : string) (id : Z)
  | OpStopAll (conn : option string)
  | OpRecv (stream : string) (id now : Z)
  | OpSent (stream : string) (id now : Z).

(** Session numbers are unsigned; those of messages were checked. *)
Definition op_ok (o : Op) : Prop :=
  match o with OpStop _ id => 0 <= id | OpRecv _ id _ | OpSent _ id _ => 0 <= id < 16 | _ => True end.

(** The table after an operation, the requests that got a number and the
    requests that were deleted. *)
Definition op_step ids (o : Op) : gmap string (StreamSessions Req) * list Req * list Req :=
  match o with
  | OpAlloc stream r conn interval now =>
      match alloc_session_id ids stream r conn interval now with
      | (Some _, ids, old) => (ids, [r], opt_list old)
      | (None, ids, old) => (ids, [], opt_list old)
      end
  | OpStop stream id => let '(_, ids, r) := stop_session ids stream id in (ids, [], opt_list r)
  | OpStopAll conn => let '(_, ids, rs) := stop_all_sessions_of_connection ids conn in (ids, [], rs)
  | OpRecv stream id now => (session_recv ids stream id now, [], [])
  | OpSent stream id now => (session_sent ids stream id now, [], [])
  end.

Fixpoint run ids (os : list Op) : gmap string (StreamSessions Req) * list Req * list Req :=
  match os with
  | [] => (ids, [], [])
  | o :: os =>
      let '(ids, given, deleted) := op_step ids o in
      let '(ids, given', deleted') := run ids os in (ids, given ++ given', deleted ++ deleted')
  end.

Lemma map_concat_perm {A B} (f g : A → list B) (m : gmap string A) :
  (∀ x, f x ≡ₚ g x) → map_concat f m ≡ₚ map_concat g m.
Proof.
  intros H. unfold map_concat. induction (map_to_list m) as [|[k x] l IH]; [done|]. cbn. by rewrite (H x), IH.
Qed.

Lemma map_concat_app {A B} (f g : A → list B) (m : gmap string A) :
  map_concat (λ x, f x ++ g x) m ≡ₚ map_concat f m ++ map_concat g m.
Proof.
  unfold map_concat. induction (map_to_list m) as [|[k x] l IH]; [done|]. cbn. rewrite IH. rewrite <- !app_assoc. f_equiv.
  rewrite !app_assoc. f_equiv. apply Permutation_app_comm.
Qed.

Lemma map_concat_fmap {A B C} (h : A → B) (f : B → list C) (m : gmap string A) : map_concat f (h <$> m) ≡ₚ map_concat (f ∘ h) m.
Proof.
  unfold map_concat. rewrite map_to_list_fmap. induction (map_to_list m) as [|[k x] l IH]; [done|]. cbn. by rewrite IH.
Qed.

Lemma stop_if_req conn s :
  (req (stop_if conn s).1 = req s ∧ (stop_if conn s).2 = None) ∨ (req (stop_if conn s).1 = None ∧ (stop_if conn s).2 = req s).
Proof.
  unfold stop_if, stop_session_locked. destruct (command_connection_is_same _ _), (req s) eqn:E; cbn; auto.
Qed.

Lemma omap_cons_list {A B} (f : A → option B) x l : omap f (x :: l) = opt_list (f x) ++ omap f l.
Proof. cbn. by destruct (f x). Qed.

Lemma stop_stream_held conn st : held_by st ≡ₚ held_by (stop_stream conn st) ++ stopped_of conn st.
Proof.
  unfold held_by, stopped_of, stop_stream. cbn. induction (sessions st) as [|s l IH]; [done|]. rewrite map_cons, !omap_cons_list.
  destruct (stop_if_req conn s) as [[-> ->]|[-> ->]]; rewrite IH; [by rewrite <- app_assoc|].
  cbn [opt_list app]. rewrite !app_assoc. f_equiv. apply Permutation_app_comm.
Qed.

Lemma insert_stream_wf ids name st : sessions_wf ids → stream_wf st → sessions_wf (<[name := st]> ids).
Proof. intros. by apply map_Forall_insert_2. Qed.

Lemma set_session_wf st id s lst : stream_wf st → 0 <= lst < 16 → stream_wf (mk_stream (sessions (set_session st id s)) lst).
Proof. intros [Hl Hs] H. split; [cbn; by rewrite length_insert | done]. Qed.

Lemma set_session_eta st id s : set_session st id s = mk_stream (sessions (set_session st id s)) (last_session st).
Proof. done. Qed.


Lemma op_step_conserves ids o :
  sessions_wf ids → op_ok o → let '(ids', gave, deleted) := op_step ids o in
  sessions_wf ids' ∧ held ids ++ gave ≡ₚ held ids' ++ deleted.
Proof.
  intros Hwf Ho. destruct o as [stream r conn interval now|stream id|conn|stream id now|stream id now]; cbn [op_step].
  3: { cbn. split.
    - apply map_Forall_fmap. eapply map_Forall_impl; [exact Hwf|]. intros k st [Hl Hs]. split; [cbn; by rewrite length_map | done].
    - rewrite app_nil_r. unfold held. rewrite map_concat_fmap, <- map_concat_app. apply map_concat_perm. intros st. apply stop_stream_held. }
  all: destruct (get_stream_wf ids stream Hwf) as (Hst & Hwf1 & Hl1); pose proof (get_stream_held ids stream) as Hh;
    destruct (get_stream_sessions ids stream) as [st ids1] eqn:E; cbn [fst snd] in *.
  - destruct (alloc_cases ids stream r conn interval now st ids1 Hst E) as [(i & Hi & _ & _ & ->)|[_ ->]].
    + set (id := (_ + i) mod 16). assert (0 <= id < 16) as Hid by lia. split; [by apply insert_stream_wf, set_session_wf|].
      destruct (set_session_held ids1 stream st id (given (session st id) r conn interval now) Hl1 Hst Hid) as (rest & H1 & H2).
      rewrite <- Hh, H1, H2. cbn. rewrite Permutation_app_comm, app_comm_cons. cbn. f_equiv. apply Permutation_app_comm.
    + rewrite insert_id by done. split; [done|]. by rewrite Hh.
  - unfold stop_session. rewrite E. destruct (Z.gtb_spec id 15) as [Hid|Hid]; [split; [done | by rewrite Hh]|]. cbn in Ho.
    destruct (set_session_held ids1 stream st id (stop_session_locked (session st id)).1 Hl1 Hst ltac:(lia)) as (rest & H1 & H2).
    specialize (H2 (last_session st)). rewrite <- set_session_eta in H2.
    pose proof (set_session_wf st id (stop_session_locked (session st id)).1 (last_session st) Hst (proj2 Hst)) as Hw. rewrite <- set_session_eta in Hw.
    unfold stop_session_locked in *. destruct (req (session st id)) as [r|] eqn:Er; cbn [fst snd opt_list] in *.
    + split; [by apply insert_stream_wf|]. rewrite <- Hh, H1, H2, app_nil_r. cbn. apply Permutation_cons_append.
    + split; [by apply insert_stream_wf|]. rewrite <- Hh, H1, H2, Er. done.
  - unfold session_recv. rewrite E. cbn in Ho.
    edestruct (set_session_held ids1 stream st id) as (rest & H1 & H2); [done | done | done|]. split; [by apply insert_stream_wf; [|rewrite set_session_eta; apply set_session_wf; [|apply Hst]]|].
    rewrite set_session_eta, H2, <- Hh, H1, !app_nil_r. done.
  - unfold session_sent. rewrite E. cbn in Ho.
    edestruct (set_session_held ids1 stream st id) as (rest & H1 & H2); [done | done | done|]. split; [by apply insert_stream_wf; [|rewrite set_session_eta; apply set_session_wf; [|apply Hst]]|].
    rewrite set_session_eta, H2, <- Hh, H1, !app_nil_r. done.
Qed.

Lemma run_conserves os ids :
  sessions_wf ids → Forall op_ok os → let '(ids', gave, deleted) := run ids os in
  sessions_wf ids' ∧ held ids ++ gave ≡ₚ held ids' ++ deleted.
Proof.
  revert ids. induction os as [|o os IH]; intros ids Hwf Ho; cbn [run]; [by rewrite !app_nil_r|]. apply Forall_cons in Ho as [Ho Hos].
  pose proof (op_step_conserves ids o Hwf Ho) as H. destruct (op_step ids o) as [[ids1 g1] d1]. destruct H as [Hwf1 H1].
  specialize (IH ids1 Hwf1 Hos). destruct (run ids1 os) as [[ids2 g2] d2]. destruct IH as [Hwf2 H2]. split; [done|].
  rewrite app_assoc, H1, <- app_assoc, (Permutation_app_comm d1), app_assoc, H2, <- app_assoc. f_equiv. apply Permutation_app_comm.
Qed.

(** No request is lost or deleted twice.  After any sequence of
    allocations, stops, disconnections and messages, the requests that were
    given a session number are exactly the requests that hold one and the
    requests that were deleted, each once; every stream has sixteen sessions. *)
Theorem session_requests os :
  Forall op_ok os → let '(ids, gave, deleted) := run ∅ os in
  sessions_wf ids ∧ gave ≡ₚ held ids ++ deleted.
Proof. intros Ho. pose proof (run_conserves os ∅ (map_Forall_empty _) Ho) as H. exact H. Qed.

End theorems.

(** ** Witnesses *)

#[local] Open Scope string_scope.

(** Two requests on one stream; the first times out when all others are taken. *)
Definition busy : gmap string (StreamSessions Z) :=
  {["s" := mk_stream (map (λ i, mk_tracker None (100 + i) 1000 (Some i) 0 0) (seqZ 0 16)) 15]}.

Lemma busy_wf : sessions_wf busy.
Proof. apply map_Forall_singleton. split; [reflexivity | cbn; lia]. Qed.

Lemma alloc_session_spec_witness :
  (alloc_session_id busy "s" 99 None 1000 102).1.1 = None ∧ (alloc_session_id busy "s" 99 None 1000 105).1.1 = Some 0 ∧
  ∀ id, 0 <= id < 16 → usable 102 (session (get_stream_sessions busy "s").1 id) = false.
Proof.
  split; [vm_compute; reflexivity|]. split; [vm_compute; reflexivity|].
  pose proof (alloc_session_spec busy "s" 99 None 1000 102 busy_wf) as H. cbv zeta in H.
  destruct (alloc_session_id busy "s" 99 None 1000 102) as [[[id|] ids] old] eqn:E; [vm_compute in E; discriminate|]. apply H.
Defined.

Definition sample_ops : list (Op (Req := Z)) :=
  [OpAlloc "s" 1 (Some "c") 1000 10; OpAlloc "s" 2 None 1000 10; OpSent "s" 1 11; OpStopAll (Some "c"); OpStop "s" 2; OpAlloc "s" 3 None 500 12].

Lemma session_requests_witness :
  let '(ids, gave, deleted) := run ∅ sample_ops in sessions_wf ids ∧ gave ≡ₚ held ids ++ deleted ∧ gave = [1; 2; 3] ∧ deleted = [1; 2].
Proof.
  pose proof (session_requests sample_ops ltac:(repeat constructor; cbn; lia)) as H.
  destruct (run ∅ sample_ops) as [[ids gave] deleted] eqn:E. destruct H as [H1 H2]. split; [exact H1|]. split; [exact H2|].
  vm_compute in E. injection E as _ <- <-. split; reflexivity.
Defined.

End Session.
