(* ===== verification/ConfUtils.v ===== *)
(** * Configuration utilities (conf_utils.c, ether_pton of inet_utils.c)

    Splitting of configuration lines into stages and tokens, the small
    grammars of assignments, field names and header names, and the conversion
    of constants into the octets that the field writers and comparators use. *)

From S2P Require Import Prelude CString Protocol Packet HeaderField.
Import CStr Proto Pkt Field.
From Stdlib Require Import Ascii.

Module ConfU.

(** ** Stages and tokens *)

(** The loop of [foreach_stages] from a non-empty rest: the stages it calls the
    callback on.  Every round consumes at least the comma. *)
Fixpoint stages_from (fuel : nat) (l : string) : list string :=
  match fuel with
  | O => []
  | S fuel =>
      match strchr ","%char l with
      | Some (stage, rest) =>
          let rest := skip_space rest in
          stage :: (if decide (rest = ""%string) then [] else stages_from fuel rest)
      | None => [l]
      end
  end.

Definition stages (line : string) : list string :=
  let l := skip_space line in
  if decide (l = ""%string) then [] else stages_from (S (String.length l)) l.

Definition foreach_stages {S} (line : string) (cb : string → S → Res S) (s : S) : Res S :=
  foreach cb (stages line) s.

Fixpoint tokens_from (fuel : nat) (t : string) : list string :=
  match fuel with
  | O => []
  | S fuel =>
      match word t with
      | (tok, Some rest) =>
          let rest := skip_space rest in
          tok :: (if decide (rest = ""%string) then [] else tokens_from fuel rest)
      | (tok, None) => [tok]
      end
  end.

Definition tokens (stage : string) : list string :=
  let t := skip_space stage in
  if decide (t = ""%string) then [] else tokens_from (S (String.length t)) t.

Definition foreach_tokens {S} (stage : string) (cb : string → S → Res S) (s : S) : Res S :=
  foreach cb (tokens stage) s.

(** ** Assignments, field names, header names *)

(** Exactly one separator. *)
Definition split_once (c : ascii) (s : string) : option (string * string) :=
  '(a, b) ← strchr c s;
  if strchr c b is Some _ then None else Some (a, b).

Definition parse_assignment (assign : string) : option (string * string) := split_once "="%char assign.
Definition parse_fieldname (field : string) : option (string * string) := split_once "."%char field.

Definition header_type_from_name (nm : string) : string :=
  match strchr "_"%char nm with Some (a, _) => a | None => nm end.

Definition read_boolean (s : string) : Z :=
  if bool_decide (s = "1"%string ∨ s = "true"%string ∨ s = "yes"%string) then 1
  else if bool_decide (s = "0"%string ∨ s = "false"%string ∨ s = "no"%string) then 0
  else -1.

(** ** Numbers as field values *)

(** [while (num >>= 1) ret++;]: a [uint64_t] has 64 bits. *)
Fixpoint shift_count (fuel : nat) (num ret : Z) : Z :=
  match fuel with
  | O => ret
  | S fuel => let num := Z.shiftr num 1 in if num =? 0 then ret else shift_count fuel num (ret + 1)
  end.

Definition highest_set_bit (num : Z) : Z := shift_count 64 num 0.

(** The loop that writes the octets before the last one. *)
Fixpoint fill_octets (fuel : nat) (num num_bits offset idx : Z) (b : mem) : option mem :=
  if offset <? num_bits then
    match fuel with
    | O => None
    | S fuel =>
        b ← store b idx (Z.land (Z.shiftr num offset) 255);
        fill_octets fuel num num_bits (offset + 8) (u32 (idx - 1)) b
    end
  else Some b.

(** The number [num] in the last [bitcount] bits of an octet string that starts
    at [bitoffset] within its first octet: [None] is an access outside the
    string, the inner [None] is the result [false]. *)
Definition prepare_constant_number (bitoffset bitcount num : Z) : option (option Value) :=
  let num_bits := highest_set_bit num + 1 in
  if num_bits >? bitcount then Some None
  else
    let bitoffset := bitoffset mod 8 in
    let bits_total := bitoffset + bitcount in
    let bytes_total := (bits_total + 7) / 8 in
    let b := replicate (Z.to_nat bytes_total) 0 in
    let offset := bytes_total * 8 - bits_total in
    let idx := bytes_total - 1 in
    b ← store b idx (Z.land (u64 (Z.shiftl num offset)) 255);
    b ← fill_octets 8 num num_bits (8 - offset) (u32 (idx - 1)) b;
    Some (Some (mk_value (PtrOwn b) bitoffset bitcount)).

(** ** Addresses *)

Fixpoint macs_from (n : nat) (s : string) : option (list Z * string) :=
  match n with
  | O => Some ([], s)
  | S n =>
      '(x, s) ← scan_hh2 s;
      match n with
      | O => Some ([x], s)
      | _ => s ← skip_char ":"%char ":"%char s; '(l, s) ← macs_from n s; Some (x :: l, s)
      end
  end.

Definition ether_pton (s : string) : option (list Z) :=
  '(l, rest) ← macs_from 6 s; if decide (rest = ""%string) then Some l else None.

(** [PROCESS_PREFIX]: the address text and the prefix length. *)
Definition process_prefix (s : string) (maxlen : Z) : option (string * Z) :=
  match strchr "/"%char s with
  | Some (a, p) => prefix ← scan_u32 p; if prefix >? maxlen then None else Some (a, prefix)
  | None => Some (s, maxlen)
  end.

(** [ZERO_SUFFIX]: the octets with everything after the first [prefix] bits
    cleared.  [n] is the number of whole octets in front. *)
Fixpoint zero_suffix (l : list Z) (prefix : Z) : list Z :=
  match l with
  | [] => []
  | x :: l =>
      (if prefix >=? 8 then x
       else if prefix >? 0 then Z.land x (u8 (Z.shiftl 255 (8 - prefix))) else 0)
      :: zero_suffix l (prefix - 8)
  end.

Definition read_address (pton : string → option (list Z)) (octets bitoffset bitcount : Z) (s : string)
    : option Value :=
  if negb ((bitoffset =? 0) && (bitcount =? 8 * octets)) then None
  else
    '(a, prefix) ← process_prefix s (8 * octets);
    l ← pton a;
    Some (mk_value (PtrOwn (zero_suffix l prefix)) bitoffset prefix).

(** [stale] tells that [errno] was [ERANGE] before the call. *)
Definition read_number (stale : bool) (bitoffset bitcount : Z) (s : string) : Res Value :=
  num ← (if bitcount =? 1 then
           let b := read_boolean s in if b <? 0 then Err else Good b
         else if bitcount >? 64 then Err
         else
           '(num, erange, rest) ← or_err (strtoull s);
           _ ← check (negb ((num =? UINT64_MAX) && (erange || stale)));
           _ ← check (bool_decide (rest = ""%string));
           Good num);
  match prepare_constant_number bitoffset bitcount num with
  | Some r => or_err r
  | None => Crash
  end.

Definition read_constant (stale : bool) (bitoffset bitcount : Z) (proto : ProtocolID)
    (type : ProtocolFieldType) (s : string) : Res Value :=
  let bitoffset := bitoffset mod 8 in
  match type with
  | PFTYPE_UNKNOWN => Err
  | PFTYPE_NUMBER | PFTYPE_TSNSEQ | PFTYPE_SRV6SEQ | PFTYPE_TSNTSTAMP | PFTYPE_TTL | PFTYPE_CHECKSUM =>
      read_number stale bitoffset bitcount s
  | PFTYPE_MACADDRESS => or_err (read_address ether_pton 6 bitoffset bitcount s)
  | PFTYPE_IPV4ADDRESS => or_err (read_address inet_pton4 4 bitoffset bitcount s)
  | PFTYPE_IPV6ADDRESS => or_err (read_address inet_pton6 16 bitoffset bitcount s)
  | PFTYPE_NEXTHEADER =>
      if protocol_type_valid (Some s) then
        f ← or_err (get_nexthdr (protocol_from_id proto));
        nexthdr ← or_err (f (protocol_id_from_type (Some s)));
        match prepare_constant_number bitoffset bitcount nexthdr with
        | Some r => or_err r
        | None => Crash
        end
      else read_number stale bitoffset bitcount s
  end.

(** ** Number constants *)

Lemma shift_count_log2 fuel num ret :
  0 <= num < 2 ^ (Z.of_nat fuel + 1) → shift_count fuel num ret = ret + Z.log2 num.
Proof.
  revert num ret. induction fuel as [|fuel IH]; intros num ret Hn; cbn [shift_count].
  { change (2 ^ (Z.of_nat 0 + 1)) with 2 in Hn.
    assert (num = 0 ∨ num = 1) as [->| ->] by lia; cbn; lia. }
  replace (Z.of_nat (S fuel) + 1) with (Z.succ (Z.of_nat fuel + 1)) in Hn by lia.
  rewrite Z.pow_succ_r in Hn by lia.
  rewrite <- Z.div2_spec. rewrite Z.div2_div. zcases.
  - assert (num = 0 ∨ num = 1) as [->| ->] by lia; cbn; lia.
  - rewrite IH by lia.
    assert (2 <= num) by lia.
    pose proof (Z.log2_shiftr num 1 ltac:(lia)) as L. rewrite <- Z.div2_spec, Z.div2_div in L.
    pose proof (Z.log2_le_mono 2 num ltac:(lia)) as L2. change (Z.log2 2) with 1 in L2. lia.
Qed.

Lemma highest_set_bit_log2 num : 0 <= num < 2 ^ 64 → highest_set_bit num = Z.log2 num.
Proof.
  intros Hn. unfold highest_set_bit. rewrite shift_count_log2; [lia|].
  change (2 ^ (Z.of_nat 64 + 1)) with (2 * 2 ^ 64). lia.
Qed.

(** The number fits the field exactly when it has no more bits. *)
Lemma num_bits_fit num n : 0 <= num → 0 < n → (Z.log2 num + 1 <= n ↔ num < 2 ^ n).
Proof.
  intros Hn Hp. destruct (decide (num = 0)) as [->|Hne].
  - cbn. split; intros _; [apply Z.pow_pos_nonneg; lia | lia].
  - split; intros H.
    + apply Z.log2_lt_pow2; lia.
    + apply Z.log2_lt_pow2 in H; lia.
Qed.

Lemma byte_of_testbit x k r : 0 <= k → 0 <= r < 8 → Z.testbit (byte_of x k) r = Z.testbit x (8 * k + r).
Proof.
  intros Hk Hr. unfold byte_of. change 256 with (2 ^ 8).
  rewrite Z.mod_pow2_bits_low, Z.div_pow2_bits by lia. f_equal. lia.
Qed.

Lemma byte_of_high x k : 0 <= k → 0 <= x < 2 ^ (8 * k) → byte_of x k = 0.
Proof. intros Hk Hx. unfold byte_of. by rewrite Z.div_small. Qed.

(** The octets of [x], the most significant first, from the end: the first [k]
    have been written, the rest is zero. *)
Definition written_octets (x : Z) (b : mem) (T k : Z) : Prop :=
  Z.of_nat (length b) = T ∧
  ∀ i, 0 <= i < T → load b (T - 1 - i) = Some (if i <? k then byte_of x i else 0).

Lemma written_octets_store x b T k :
  written_octets x b T k → 0 <= k < T →
  ∃ b', store b (T - 1 - k) (byte_of x k) = Some b' ∧ written_octets x b' T (k + 1).
Proof.
  intros [L H] Hk.
  destruct (store b (T - 1 - k) (byte_of x k)) as [b'|] eqn:E.
  2: { rewrite store_in_range in E by (unfold in_range; lia). done. }
  exists b'. split; [done|]. split; [by rewrite (store_length _ _ _ _ E)|].
  intros i Hi. destruct (decide (i = k)) as [->|Hne].
  - rewrite (load_store_eq _ _ _ _ E). zcases. done.
  - rewrite (load_store_ne _ _ _ _ _ E), H by lia. zcases; done.
Qed.

Lemma fill_octets_spec fuel num num_bits pad T k b :
  0 <= num < 2 ^ num_bits → 0 <= pad < 8 → 0 < num_bits → 1 <= k <= T → T < 2 ^ 31 →
  num_bits <= 8 * T - pad → num_bits <= 8 * k - pad + 8 * Z.of_nat fuel →
  written_octets (num * 2 ^ pad) b T k →
  ∃ b', fill_octets fuel num num_bits (8 * k - pad) (u32 (T - 1 - k)) b = Some b' ∧
    written_octets (num * 2 ^ pad) b' T T.
Proof.
  intros Hnum Hpad Hnb Hk HT Hfit. revert b k Hk. induction fuel as [|fuel IH]; intros b k Hk Hfuel W; cbn [fill_octets];
    destruct (Z.ltb_spec (8 * k - pad) num_bits) as [Hlt|Hge].
  1: lia.
  2: { rewrite (u32_small (T - 1 - k)) by (unfold is_u32; lia).
    assert (Z.land (Z.shiftr num (8 * k - pad)) 255 = byte_of (num * 2 ^ pad) k) as ->.
    { apply Z.bits_inj'. intros j Hj. change 255 with (Z.ones 8). rewrite Z.land_spec.
      destruct (Z.lt_ge_cases j 8).
      - rewrite Z.ones_spec_low, andb_true_r, byte_of_testbit by lia.
        rewrite Z.shiftr_spec, Z.mul_pow2_bits by lia. f_equal. lia.
      - rewrite Z.ones_spec_high, andb_false_r by lia. unfold byte_of. change 256 with (2 ^ 8).
        by rewrite Z.mod_pow2_bits_high by lia. }
    destruct (written_octets_store _ b T k W) as (b' & -> & W'); [lia|]. cbn [mbind option_bind].
    replace (8 * k - pad + 8) with (8 * (k + 1) - pad) by lia.
    replace (T - 1 - k - 1) with (T - 1 - (k + 1)) by lia.
    apply IH; [lia | lia | done]. }
  all: exists b; split; [done|]; destruct W as [L H]; split; [done|].
  all: intros i Hi; rewrite H by done; zcases; [done|].
  all: symmetry; f_equal; apply byte_of_high; [lia|].
  all: assert (2 ^ num_bits <= 2 ^ (8 * i - pad)) by (apply Z.pow_le_mono_r; lia).
  all: replace (8 * i) with (8 * i - pad + pad) by lia; rewrite Z.pow_add_r by lia.
  all: pose proof (Z.pow_pos_nonneg 2 pad); nia.
Qed.

Lemma prepare_constant_cases bitoffset bitcount num b :
  0 <= bitoffset → 0 < bitcount < 2 ^ 31 → 0 <= num < 2 ^ 64 →
  (2 ^ bitcount <= num ∧ prepare_constant_number bitoffset bitcount num = Some None) ∨
  (num < 2 ^ bitcount ∧
   ∃ m, prepare_constant_number bitoffset bitcount num
        = Some (Some (mk_value (PtrOwn m) (bitoffset mod 8) bitcount)) ∧
     Z.of_nat (length m) = (bitoffset mod 8 + bitcount + 7) / 8 ∧ bytes_ok m ∧
     ∀ j, 0 <= j < bitcount →
       value_bit (mk_value (PtrOwn m) (bitoffset mod 8) bitcount) b j
       = Some (Z.testbit num (bitcount - 1 - j))).
Proof.
  intros Ho Hc Hn. unfold prepare_constant_number. rewrite highest_set_bit_log2 by done.
  pose proof (num_bits_fit num bitcount ltac:(lia) ltac:(lia)) as Hfit.
  destruct (Z.gtb_spec (Z.log2 num + 1) bitcount) as [Hg|Hl]; [left; split; [lia|done]|]. right.
  split; [lia|]. cbv zeta. set (o := bitoffset mod 8). assert (0 <= o < 8) as Hoo by (unfold o; lia).
  set (T := (o + bitcount + 7) / 8). set (pad := T * 8 - (o + bitcount)).
  assert (0 <= pad < 8) as Hpad by (unfold pad, T; lia). assert (1 <= T < 2 ^ 29) as HT by (unfold T; lia).
  set (x := num * 2 ^ pad).
  assert (Z.land (u64 (Z.shiftl num pad)) 255 = byte_of x 0) as ->.
  { rewrite land_ff, Z.shiftl_mul_pow2 by lia. unfold byte_of, u64, x.
    change (2 ^ (8 * 0)) with 1. rewrite Z.div_1_r.
    generalize (num * 2 ^ pad). intros y. lia. }
  assert (written_octets x (replicate (Z.to_nat T) 0) T 0) as W.
  { split; [rewrite length_replicate; lia|]. intros i Hi. unfold load. zcases.
    apply lookup_replicate. split; [done|lia]. }
  destruct (written_octets_store _ _ T 0 W) as (b1 & E1 & W1); [lia|].
  replace (T - 1 - 0) with (T - 1) in E1 by lia. rewrite E1. cbn [mbind option_bind].
  replace (8 - pad) with (8 * (0 + 1) - pad) by lia. replace (T - 1 - 1) with (T - 1 - (0 + 1)) by lia.
  pose proof (Z.log2_nonneg num) as Hlog.
  destruct (fill_octets_spec 8 num (Z.log2 num + 1) pad T (0 + 1) b1) as (m & -> & [L H]); try done; try lia.
  { split; [lia|]. by apply num_bits_fit; lia. }
  { assert (Z.log2 num < 64) by (destruct (decide (num = 0)) as [->|]; [cbn; lia | apply Z.log2_lt_pow2; lia]). lia. }
  cbn [mbind option_bind]. exists m. split; [done|]. split; [done|]. split.
  { apply Forall_lookup_2. intros i y Hi. pose proof (lookup_lt_Some _ _ _ Hi).
    specialize (H (T - 1 - Z.of_nat i) ltac:(lia)). unfold load in H.
    replace (T - 1 - (T - 1 - Z.of_nat i)) with (Z.of_nat i) in H by lia. rewrite Nat2Z.id, Hi in H.
    revert H. zcases. intros [= ->]. unfold is_u8, byte_of. lia. }
  intros j Hj. unfold value_bit, vbit, src_octet. cbn [value v_bitoffset].
  replace (o mod 8) with o by lia. replace (o / 8) with 0 by lia. rewrite Z.add_0_l.
  specialize (H (T - 1 - (o + j) / 8)). replace (T - 1 - (T - 1 - (o + j) / 8)) with ((o + j) / 8) in H by lia.
  rewrite H by (unfold T; lia). cbn [mbind option_bind]. f_equal. unfold bit_of. zcases.
  rewrite byte_of_testbit by (unfold T; lia). unfold x. rewrite Z.mul_pow2_bits by lia. f_equal.
  unfold pad. lia.
Qed.

(** C23: number constants.  A number is accepted for a field exactly when it has
    no more bits than the field; then the value has the bit count of the field,
    starts at its bit offset within the octet, has all octets up to its last
    bit, holds the bits of the number with the most significant first, and no
    access was outside the octets. *)
Theorem prepare_constant_number_spec bitoffset bitcount num b :
  0 <= bitoffset → 0 < bitcount < 2 ^ 31 → 0 <= num < 2 ^ 64 →
  (2 ^ bitcount <= num ∧ prepare_constant_number bitoffset bitcount num = Some None) ∨
  (num < 2 ^ bitcount ∧
   ∃ m, prepare_constant_number bitoffset bitcount num
        = Some (Some (mk_value (PtrOwn m) (bitoffset mod 8) bitcount)) ∧
     Z.of_nat (length m) = (bitoffset mod 8 + bitcount + 7) / 8 ∧ bytes_ok m ∧
     ∀ j, 0 <= j < bitcount →
       value_bit (mk_value (PtrOwn m) (bitoffset mod 8) bitcount) b j
       = Some (Z.testbit num (bitcount - 1 - j))).
Proof. apply prepare_constant_cases. Qed.

(** The VLAN identifier 300 in the 12 bits after the first four. *)
Lemma prepare_constant_number_spec_witness :
  (2 ^ 12 <= 300 ∧ prepare_constant_number 4 12 300 = Some None) ∨
  (300 < 2 ^ 12 ∧
   ∃ m, prepare_constant_number 4 12 300 = Some (Some (mk_value (PtrOwn m) (4 mod 8) 12)) ∧
     Z.of_nat (length m) = (4 mod 8 + 12 + 7) / 8 ∧ bytes_ok m ∧
     ∀ j, 0 <= j < 12 →
       value_bit (mk_value (PtrOwn m) (4 mod 8) 12) [] j = Some (Z.testbit 300 (12 - 1 - j))).
Proof. apply (prepare_constant_number_spec 4 12 300 []); lia. Defined.

(** ** Constants have all their octets *)

Definition const_ok (v : Value) : Prop :=
  ∃ m, value v = PtrOwn m ∧ bytes_ok m ∧ 0 <= v_bitoffset v < 8 ∧
    (v_bitoffset v + v_bitcount v + 7) / 8 <= Z.of_nat (length m).

Lemma prepare_constant_ok bitoffset bitcount num :
  0 <= bitoffset → 0 < bitcount < 2 ^ 31 → 0 <= num < 2 ^ 64 →
  ∃ r, prepare_constant_number bitoffset bitcount num = Some r ∧
    ∀ v, r = Some v → const_ok v ∧ v_bitoffset v = bitoffset mod 8 ∧ v_bitcount v = bitcount.
Proof.
  intros Ho Hc Hn. destruct (prepare_constant_cases bitoffset bitcount num [] Ho Hc Hn)
    as [[_ ->]|(_ & m & -> & L & B & _)]; eexists; (split; [done|]); intros v [= <-].
  split; [|done]. exists m. split_and!; cbn; try done; lia.
Qed.

Lemma zero_suffix_length l n : length (zero_suffix l n) = length l.
Proof. revert n. induction l as [|x l IH]; intros n; cbn; [done|]. by rewrite IH. Qed.

Lemma zero_suffix_bytes l n : bytes_ok l → bytes_ok (zero_suffix l n).
Proof.
  intros Hl. revert n. induction Hl as [|x l Hx Hl IH]; intros n; cbn [zero_suffix]; [constructor|].
  constructor; [|apply IH]. unfold is_u8 in *. zcases; try lia.
  rewrite <- (Z.mod_small x (2 ^ 8)), <- Z.land_ones, <- Z.land_assoc, (Z.land_comm (Z.ones 8)), Z.land_assoc, Z.land_ones
    by (change (2 ^ 8) with 256; lia).
  change (2 ^ 8) with 256. lia.
Qed.

Lemma digit_range base c d : digit base c = Some d → 0 <= d < base.
Proof.
  unfold digit. destruct (_ <? base) eqn:E; [|done]. intros [= <-]. apply Z.ltb_lt in E. split; [|done]. clear E.
  repeat case_match; repeat match goal with E : _ && _ = true |- _ => apply andb_true_iff in E as [?%Z.leb_le ?%Z.leb_le] end; lia.
Qed.

Lemma pton4_length s acc cur l : pton4 s acc cur = Some l → length l = 4%nat.
Proof.
  revert acc cur. induction s as [|ch s IH]; intros acc cur; cbn [pton4].
  - destruct cur; [|done]. cbn [mbind option_bind]. destruct (decide _); [|done].
    intros [= <-]. rewrite length_app. cbn. lia.
  - destruct (digit 10 ch); [destruct cur as [[|x|x]|]|destruct cur]; cbn [mbind option_bind];
      try done; try apply IH; repeat (destruct (decide _) || case_match); try done; apply IH.
Qed.

Lemma pton4_bytes s acc cur l :
  bytes_ok acc → (∀ x, cur = Some x → is_u8 x) → pton4 s acc cur = Some l → bytes_ok l.
Proof.
  revert acc cur. induction s as [|ch s IH]; intros acc cur Ha Hc; cbn [pton4].
  - destruct cur as [x|]; [|done]. cbn [mbind option_bind]. destruct (decide _); [|done].
    intros [= <-]. apply Forall_app. split; [done|]. constructor; [auto|constructor].
  - destruct (digit 10 ch) as [d|] eqn:Ed.
    + apply digit_range in Ed.
      assert (∀ x, pton4 s acc (Some (10 * x + d)) = Some l → is_u8 x → 10 * x + d <= 255 → bytes_ok l) as Hi.
      { intros x H ? ?. apply (IH acc (Some (10 * x + d))); [done| |done]. intros ? [= <-]. unfold is_u8 in *. lia. }
      destruct cur as [[|x|x]|]; try done.
      * destruct (Z.gtb_spec (10 * Z.pos x + d) 255); [done|]. intros Hp. apply (Hi (Z.pos x)); auto.
      * specialize (Hc _ eq_refl). unfold is_u8 in Hc. lia.
      * apply IH; [done|]. intros ? [= <-]. unfold is_u8. lia.
    + destruct cur as [x|]; [|done]. cbn [mbind option_bind]. destruct (Ascii.eqb ch "."); [|done].
      destruct (decide _); [done|]. apply IH; [|done]. apply Forall_app. split; [done|]. constructor; [auto|constructor].
Qed.

Lemma pton6_end_bytes acc gap l : bytes_ok acc → pton6_end acc gap = Some l → bytes_ok l.
Proof.
  intros Ha. unfold pton6_end. destruct gap; destruct (decide _); intros [= <-]; try done.
  repeat (apply Forall_app; split); auto using Forall_take, Forall_drop.
  apply Forall_replicate. unfold is_u8. lia.
Qed.

Lemma pton6_bytes s acc gap cur tok l :
  bytes_ok acc → (∀ x n, cur = Some (x, n) → 0 <= x < 16 ^ Z.of_nat n ∧ (n <= 4)%nat) →
  pton6 s acc gap cur tok = Some l → bytes_ok l.
Proof.
  assert (∀ acc x n a, bytes_ok acc → 0 <= x < 16 ^ Z.of_nat n ∧ (n <= 4)%nat → pton6_group acc x = Some a → bytes_ok a) as Hg.
  { intros a x n a' Ha [Hx Hn]. unfold pton6_group. destruct (decide _); intros [= <-].
    apply Forall_app. split; [done|].
    assert (16 ^ Z.of_nat n <= 16 ^ 4) by (apply Z.pow_le_mono_r; lia). change (16 ^ 4) with 65536 in *.
    repeat constructor; unfold is_u8; lia. }
  revert acc gap cur tok. induction s as [|ch s IH]; intros acc gap cur tok Ha Hc; cbn [pton6].
  - destruct cur as [[x n]|]; [|by apply pton6_end_bytes].
    destruct (pton6_group acc x) eqn:E; [|done]. cbn [mbind option_bind]. apply pton6_end_bytes. eauto.
  - destruct (digit 16 ch) as [d|] eqn:Ed.
    + apply digit_range in Ed. destruct cur as [[x n]|].
      * destruct (decide (n = 4%nat)); [done|]. apply IH; [done|]. intros ? ? [= <- <-].
        destruct (Hc x n eq_refl). rewrite Nat2Z.inj_succ, Z.pow_succ_r by lia. lia.
      * apply IH; [done|]. intros ? ? [= <- <-]. cbn. lia.
    + destruct (Ascii.eqb ch ":").
      * destruct cur as [[x n]|]; [|destruct gap; [done|]; by apply IH].
        destruct (decide _); [done|]. destruct (pton6_group acc x) eqn:E; [|done]. cbn [mbind option_bind].
        apply IH; [eauto|done].
      * destruct (Ascii.eqb ch "."); [|done]. destruct (decide _) as [H4|]; [|done].
        destruct (inet_pton4 tok) as [q|] eqn:E; [|done]. cbn [mbind option_bind].
        apply pton6_end_bytes. apply Forall_app. split; [done|]. eapply pton4_bytes; [| |exact E]; [constructor|done].
Qed.

Lemma inet_pton6_bytes s l : inet_pton6 s = Some l → bytes_ok l.
Proof.
  unfold inet_pton6. destruct (skip_char _ _ s); [destruct (is_char _ _); [|done]|];
    apply pton6_bytes; try done; constructor.
Qed.

Lemma scan_hh2_u8 s x r : scan_hh2 s = Some (x, r) → is_u8 x.
Proof.
  unfold scan_hh2. intros H.
  repeat first [progress simplify_option_eq | case_match];
    repeat match goal with E : digit 16 _ = Some _ |- _ => apply digit_range in E end; unfold is_u8, u8 in *; lia.
Qed.

Lemma ether_pton_bytes s l : ether_pton s = Some l → bytes_ok l.
Proof.
  assert (∀ n s l r, macs_from n s = Some (l, r) → bytes_ok l) as H.
  { intros n. induction n as [|n IH]; intros t m r; cbn [macs_from]; [intros [= <- <-]; constructor|].
    destruct (scan_hh2 t) as [[x t']|] eqn:Ex; [|done]. apply scan_hh2_u8 in Ex. cbn [mbind option_bind].
    destruct n as [|n]; [intros [= <- <-]; constructor; [done|constructor]|].
    destruct (skip_char _ _ t') as [t''|]; [|done]. cbn [mbind option_bind].
    destruct (macs_from (S n) t'') as [[m' r']|] eqn:E; [|done]. cbn [mbind option_bind].
    intros [= <- <-]. constructor; [done|]. exact (IH _ _ _ E). }
  unfold ether_pton. destruct (macs_from 6 s) as [[m r]|] eqn:E; [|done]. cbn [mbind option_bind].
  destruct (decide _); [|done]. intros [= <-]. exact (H _ _ _ _ E).
Qed.

Lemma pton6_end_length acc gap l :
  (length acc <= 16)%nat → pton6_end acc gap = Some l → length l = 16%nat.
Proof.
  intros Hl. unfold pton6_end. destruct gap; destruct (decide _); intros [= <-]; try done.
  rewrite !length_app, length_take, length_replicate, length_drop. lia.
Qed.

Lemma pton6_length s acc gap cur tok l :
  (length acc <= 16)%nat → pton6 s acc gap cur tok = Some l → length l = 16%nat.
Proof.
  assert (∀ acc x a, pton6_group acc x = Some a → (length a <= 16)%nat) as Hg.
  { intros a x a'. unfold pton6_group. destruct (decide _); intros [= <-]. rewrite length_app. cbn. lia. }
  revert acc gap cur tok. induction s as [|ch s IH]; intros acc gap cur tok Hl; cbn [pton6].
  - destruct cur as [[x n]|]; [|by apply pton6_end_length].
    destruct (pton6_group acc x) eqn:E; [|done]. cbn [mbind option_bind]. eauto using pton6_end_length.
  - destruct (digit 16 ch); [destruct cur as [[x n]|]; [destruct (decide _); [done|]|]; by apply IH|].
    destruct (Ascii.eqb ch ":").
    + destruct cur as [[x n]|]; [|destruct gap; [done|]; by apply IH].
      destruct (decide _); [done|]. destruct (pton6_group acc x) eqn:E; [|done]. cbn [mbind option_bind].
      apply IH. eauto.
    + destruct (Ascii.eqb ch "."); [|done]. destruct (decide _) as [H4|]; [|done].
      destruct (inet_pton4 tok) as [q|] eqn:E; [|done]. cbn [mbind option_bind].
      apply pton6_end_length. rewrite length_app. unfold inet_pton4 in E. rewrite (pton4_length _ _ _ _ E). lia.
Qed.

Lemma inet_pton6_length s l : inet_pton6 s = Some l → length l = 16%nat.
Proof.
  unfold inet_pton6. destruct (skip_char _ _ s); [destruct (is_char _ _); [|done]|];
    apply pton6_length; cbn; lia.
Qed.

Lemma ether_pton_length s l : ether_pton s = Some l → length l = 6%nat.
Proof.
  assert (∀ n s l r, macs_from n s = Some (l, r) → length l = n) as H.
  { intros n. induction n as [|n IH]; intros t m r; cbn [macs_from]; [by intros [= <- <-]|].
    destruct (scan_hh2 t) as [[x t']|]; [|done]. cbn [mbind option_bind].
    destruct n as [|n]; [by intros [= <- <-]|].
    destruct (skip_char _ _ t') as [t''|]; [|done]. cbn [mbind option_bind].
    destruct (macs_from (S n) t'') as [[m' r']|] eqn:E; [|done]. cbn [mbind option_bind].
    intros [= <- <-]. cbn. by rewrite (IH _ _ _ E). }
  unfold ether_pton. destruct (macs_from 6 s) as [[m r]|] eqn:E; [|done]. cbn [mbind option_bind].
  destruct (decide _); [|done]. intros [= <-]. eauto.
Qed.

Lemma read_address_ok pton octets bitoffset bitcount s v :
  (∀ t l, pton t = Some l → Z.of_nat (length l) = octets ∧ bytes_ok l) →
  read_address pton octets bitoffset bitcount s = Some v →
  const_ok v ∧ v_bitoffset v = bitoffset ∧ 0 <= v_bitcount v <= bitcount ∧ bitoffset = 0.
Proof.
  intros Hp. unfold read_address. destruct (_ && _) eqn:E; [|done]. cbn [negb].
  apply andb_true_iff in E as [->%Z.eqb_eq ->%Z.eqb_eq].
  destruct (process_prefix s (8 * octets)) as [[a prefix]|] eqn:Ep; [|done]. cbn [mbind option_bind].
  destruct (pton a) as [l|] eqn:El; [|done]. cbn [mbind option_bind]. intros [= <-].
  destruct (Hp _ _ El) as [Hl Hb].
  assert (0 <= prefix <= 8 * octets).
  { unfold process_prefix in Ep. destruct (strchr _ s) as [[x y]|]; [|simplify_eq; lia].
    destruct (scan_u32 y) eqn:Eu; [|done]. cbn [mbind option_bind] in Ep.
    destruct (Z.gtb_spec z (8 * octets)); simplify_eq. split; [|lia].
    unfold scan_u32 in Eu. repeat case_match; simplify_eq; unfold u32; lia. }
  split; [|done]. exists (zero_suffix l prefix). split_and!; cbn; try lia; try done; [by apply zero_suffix_bytes|].
  rewrite zero_suffix_length, Hl. lia.
Qed.

Lemma strtoull_range s n e r : strtoull s = Some (n, e, r) → 0 <= n < 2 ^ 64.
Proof.
  unfold strtoull. destruct (sign _) as [sg t].
  destruct (match hex_body t with Some h => _ | None => _ end) as [[m seen] rest].
  destruct (negb seen); [done|]. destruct (_ >? _); intros [= <- <- <-]; unfold UINT64_MAX, u64; lia.
Qed.

Lemma read_number_ok stale bitoffset bitcount s :
  0 <= bitoffset → 0 < bitcount < 2 ^ 31 →
  read_number stale bitoffset bitcount s ≠ Crash ∧
  ∀ v, read_number stale bitoffset bitcount s = Good v →
    const_ok v ∧ v_bitoffset v = bitoffset mod 8 ∧ v_bitcount v = bitcount.
Proof.
  intros Ho Hc. unfold read_number.
  set (num := if bitcount =? 1 then _ else _).
  assert (num ≠ Crash ∧ ∀ n, num = Good n → 0 <= n < 2 ^ 64) as [Hnc Hr].
  { unfold num, read_boolean, check, or_err.
    destruct (bitcount =? 1).
    - repeat case_bool_decide; cbn; (split; [done|]); intros n [= <-]; lia.
    - destruct (bitcount >? 64); [done|].
      destruct (strtoull s) as [[[n e] r]|] eqn:E; [|done]. apply strtoull_range in E.
      cbn [mbind res_bind]. repeat case_match; cbn; (split; [done|]); intros ? [= <-]; done. }
  destruct num as [n| |]; [|done..]. cbn [mbind res_bind].
  destruct (prepare_constant_ok bitoffset bitcount n Ho Hc (Hr n eq_refl)) as (r & -> & Hv).
  split; [by destruct r|]. intros v. destruct r as [v'|]; [|done]. intros [= ->]. by apply Hv.
Qed.

Lemma nexthdr_range id f id' v :
  get_nexthdr (protocol_from_id id) = Some f → f id' = Some v → 0 <= v < 2 ^ 64.
Proof.
  intros Hf Hv. destruct id; vm_compute in Hf; simplify_eq;
    destruct id'; vm_compute in Hv; simplify_eq; vm_compute; intuition congruence.
Qed.

(** A constant that is read has the bit offset of the field and all its octets,
    and reading never runs outside them. *)
Lemma read_constant_ok stale bitoffset bitcount proto type s :
  0 <= bitoffset → 0 < bitcount < 2 ^ 31 →
  read_constant stale bitoffset bitcount proto type s ≠ Crash ∧
  ∀ v, read_constant stale bitoffset bitcount proto type s = Good v →
    const_ok v ∧ v_bitoffset v = bitoffset mod 8 ∧ 0 <= v_bitcount v <= bitcount ∧
    (v_bitcount v = 0 → bitoffset mod 8 = 0).
Proof.
  intros Ho Hc. unfold read_constant. set (o := bitoffset mod 8).
  assert (0 <= o) by (unfold o; lia). assert (o mod 8 = o) as Eo by (unfold o; lia).
  destruct (read_number_ok stale o bitcount s ltac:(lia) Hc) as [Hn1 Hn2]. rewrite Eo in Hn2.
  assert (∀ pton k, (∀ t l, pton t = Some l → Z.of_nat (length l) = k ∧ bytes_ok l) →
    or_err (read_address pton k o bitcount s) ≠ Crash ∧
    ∀ v, or_err (read_address pton k o bitcount s) = Good v →
      const_ok v ∧ v_bitoffset v = o ∧ 0 <= v_bitcount v <= bitcount ∧ (v_bitcount v = 0 → o = 0)) as Ha.
  { intros pton k Hp. split; [by destruct (read_address _ _ _ _ _)|].
    intros v Hv%or_err_Good. destruct (read_address_ok _ _ _ _ _ _ Hp Hv) as (? & ? & ? & ?). done. }
  assert (∀ v, const_ok v ∧ v_bitoffset v = o ∧ v_bitcount v = bitcount →
    const_ok v ∧ v_bitoffset v = o ∧ 0 <= v_bitcount v <= bitcount ∧ (v_bitcount v = 0 → o = 0)) as Hv.
  { intros v (? & ? & ?). split_and!; [done | done | lia | lia | lia]. }
  destruct type; try (split; [done|]; intros v ?; by apply Hv, Hn2); try done.
  - apply Ha. intros t l Hl. split; [apply ether_pton_length in Hl; lia | by eapply ether_pton_bytes].
  - apply Ha. unfold inet_pton4. intros t l Hl. split; [apply pton4_length in Hl; lia|].
    eapply pton4_bytes; [| |exact Hl]; [constructor|done].
  - apply Ha. intros t l Hl. split; [apply inet_pton6_length in Hl; lia | by eapply inet_pton6_bytes].
  - destruct (protocol_type_valid (Some s)); [|split; [done|]; intros v ?; by apply Hv, Hn2].
    destruct (get_nexthdr (protocol_from_id proto)) as [f|] eqn:Ef; [|done]. cbn [mbind res_bind or_err].
    destruct (f _) as [n|] eqn:En; [|done]. cbn [mbind res_bind or_err].
    destruct (prepare_constant_ok o bitcount n ltac:(lia) Hc (nexthdr_range _ _ _ _ Ef En)) as (r & -> & Hr).
    split; [by destruct r|]. intros v. destruct r as [v'|]; [|done]. intros [= ->]. apply Hv.
    rewrite Eo in Hr. by apply Hr.
Qed.

End ConfU.
