(* ===== verification/ConfActions.v ===== *)
(** * Compilation of action lines (conf_actions.c): data and assignments

    The first half of the compiler from the text of an action line to a
    pipeline: the intermediate representation, the state of the translation,
    assignments, and the addressing of OAM maintenance points.

    A header descriptor of the packet is identified by its address in the
    source ([add.pos], [del.hdr], [must_write], [needs_ttlcheck] are pointers
    into the header list); here every node of the list carries a number.  The
    address list of a maintenance point is changed by later actions through
    [must_write]: the lists live in a store that is threaded through all
    states of one translation.  The texts kept for log messages are left out. *)

From S2P Require Import Prelude TimeUtils CString Protocol Packet HeaderField ParseTree Action ConfUtils.
Import Time CStr Proto Pkt Field Parse Act ConfU.
From stdpp Require Import pretty.
From Stdlib Require Import Ascii.

Module ConfA.

#[local] Open Scope string_scope.
#[local] Open Scope Z_scope.

Definition MAX_DEPTH : Z := 10.

(** ** Environment *)

Inductive PipelineObjectType := PIPEOBJ_SEQGEN | PIPEOBJ_SEQREC | PIPEOBJ_POF | PIPEOBJ_REPL.

Record ObjRef := mk_objref { o_id : nat; o_type : PipelineObjectType; o_name : string; o_mip : Z }.

Definition producer : Type := value_consumer → HeaderField → Packet → option Packet.

(** What the translation looks up: [GET_OBJECT], [GET_IFACE] with the property
    readers of the interface, and the section with the named pipelines. *)
Record Conf := mk_conf {
  get_object : string → option ObjRef;
  get_iface : string → option nat;
  get_property_reader : nat → string → ProtocolFieldType → Z → Z → option producer;
  streams_sec : string → option string;
  errno_stale : bool
}.

(** ** Intermediate representation *)

Inductive BeforeAfter := ADD_UNKNOWN | ADD_BEFORE | ADD_AFTER.

(** [struct ConfVariable] of the right-hand side with its reader. *)
Inductive ConfRhs :=
  | CVARTYPE_FIELD (hf : HeaderField) (rd : producer)
  | CVARTYPE_CONST (v : Value)
  | CVARTYPE_IFACE (iface : nat) (property : string) (rd : producer).

Record ConfAssignment := mk_cassign {
  lhs_field : HeaderField;
  lhs_header_name : string;
  lhs_field_name : string;
  lhs_value_type : ProtocolFieldType;
  lhs_protoid : ProtocolID;
  rhs : ConfRhs;
  ca_write : value_consumer
}.

Record AddData := mk_add {
  beforeafter : BeforeAfter;
  pos : option nat;
  was_add : bool;
  newname : option string;
  add_id : ProtocolID;
  add_len : Z;
  pos_idx : Z;
  add_assignments : list ConfAssignment    (* newest first *)
}.

#[global] Instance eta_add : Eta AddData := λ a,
  mk_add (beforeafter a) (pos a) (was_add a) (newname a) (add_id a) (add_len a) (pos_idx a) (add_assignments a).

Record CsumData := mk_csumd {
  cs_field : option HeaderField; cs_proto : ProtocolID; cs_ip_idx : Z; cs_ip_version : ProtocolID
}.

(** [mp_addr] names the address list of the maintenance point. *)
Record OamData := mk_oamd {
  mp_name : option string;
  mp_stream : string;
  mp_level : Z;
  mp_obj : option ObjRef;
  mp_protostack : list ProtocolID;
  mp_addr : option nat;
  auto_generated : bool
}.

#[global] Instance eta_oamd : Eta OamData := λ o,
  mk_oamd (mp_name o) (mp_stream o) (mp_level o) (mp_obj o) (mp_protostack o) (mp_addr o) (auto_generated o).

(** One constructor per [enum ConfActionType] with its member of the union; a
    null pointer is [None].  A branch of a replication is its name, its actions
    and whether it is masked. *)
#[warnings="-register-all"]
Inductive ConfAction :=
  | CA_UNDEF
  | CA_ADD (a : AddData)
  | CA_CHECKSUM (c : CsumData)
  | CA_DEL (h : option nat) (idx : Z)
  | CA_DELAY (v : Float) (offl : bool)
  | CA_DROP
  | CA_EDIT (l : list ConfAssignment)
  | CA_ELIM (rcvy : option ObjRef) (pipename : option string) (stack : option (list ProtocolID))
  | CA_FILTEROAM (f : HeaderField)
  | CA_JUMP (pipename : option string)
  | CA_MEPSTART (o : OamData)
  | CA_MEPSTOP (o : OamData)
  | CA_MIP (o : OamData)
  | CA_POF (pof : option ObjRef)
  | CA_READSEQ (f : option HeaderField)
  | CA_READTSTAMP (f : option HeaderField)
  | CA_REPL (branches : list (string * list ConfAction * bool)) (replobj : option ObjRef)
            (stack : option (list ProtocolID))
  | CA_SEND (iface : option nat)
  | CA_SEQGEN (gen : option ObjRef)
  | CA_SETLENGTH (h : option nat) (f : option HeaderField) (baselen payload_idx : Z)
  | CA_TTLCHECK
  | CA_TTLREDUCE (f csum : option HeaderField)
  | CA_VERIFY (c : CsumData)
  | CA_WRITESEQ (f : option HeaderField)
  | CA_WRITETSTAMP (f : option HeaderField).

(** ** State of the translation *)

Record Node := mk_node { n_uid : nat; n_desc : HeaderDescriptor }.

Definition n_id (n : Node) : ProtocolID := d_id (n_desc n).
Definition n_name (n : Node) : string := d_name (n_desc n).

Inductive OAM_MP_Addr_Source :=
  OAM_FROM_Unknown | OAM_FROM_Edit | OAM_FROM_Match | OAM_FROM_Later | OAM_FROM_Default.

Record OAM_MP_Address := mk_addr {
  ad_header : string; ad_field : string; ad_val : option Value; ad_source : OAM_MP_Addr_Source
}.

Record MustWriteField := mk_mw { mw_header : nat; mw_field : ProtocolField; mw_requester : nat }.

(** [actions] is built newest first; [ancestors] are the actions of the
    enclosing pipelines at the point of the jump or replication.  The last four
    fields are shared by all states of one translation. *)
Record StageState := mk_stst {
  stream : string;
  actions : list ConfAction;
  headers : list Node;
  had_delay_offload : bool;
  had_final : bool;
  seq_set : bool;
  ttl_set : bool;
  needs_ttlcheck : option nat;
  must_write : list MustWriteField;
  depth : Z;
  ancestors : list ConfAction;
  stream_names : list string;
  next_uid : nat;
  addresses : gmap nat (list OAM_MP_Address);
  offloaded : list nat
}.

#[global] Instance eta_stst : Eta StageState := λ s,
  mk_stst (stream s) (actions s) (headers s) (had_delay_offload s) (had_final s) (seq_set s)
    (ttl_set s) (needs_ttlcheck s) (must_write s) (depth s) (ancestors s) (stream_names s)
    (next_uid s) (addresses s) (offloaded s).

(** [stst->actions]: the newest action, and its replacement. *)
Definition newaction (st : StageState) : ConfAction := default CA_UNDEF (head (actions st)).
Definition set_new (st : StageState) (a : ConfAction) : StageState :=
  st <| actions := a :: tail (actions st) |>.
Definition new_confaction (st : StageState) (a : ConfAction) : StageState :=
  st <| actions := a :: actions st |>.
Definition confaction_swap_with_next (l : list ConfAction) : list ConfAction :=
  match l with a :: b :: l => b :: a :: l | _ => l end.

(** ** Header list *)

Fixpoint locate (nm : string) (i : Z) (l : list Node) : option (Z * Node * list Node) :=
  match l with
  | [] => None
  | n :: l => if decide (n_name n = nm) then Some (i, n, l) else locate nm (i + 1) l
  end.

(** The header with that name, with its index, provided no later header has it too. *)
Definition find_header (st : StageState) (nm : string) : Res (Z * Node) :=
  match locate nm 0 (headers st) with
  | None => Err
  | Some (i, n, rest) => if locate nm 0 rest is Some _ then Err else Good (i, n)
  end.

Fixpoint index_of (u : nat) (i : Z) (l : list Node) : option (Z * Node) :=
  match l with
  | [] => None
  | n :: l => if decide (n_uid n = u) then Some (i, n) else index_of u (i + 1) l
  end.

(** [header_index]: the walk to a node that is not in the list runs past its end. *)
Definition header_index (st : StageState) (u : nat) : Res (Z * Node) :=
  match index_of u 0 (headers st) with Some r => Good r | None => Crash end.

Definition header_get_field_of_type (n : Node) (idx : Z) (t : ProtocolFieldType) : option HeaderField :=
  new_headerfield idx <$> protocol_get_field_by_type (n_id n) t.

(** The copy of the header list has new nodes. *)
Fixpoint copy_nodes (u : nat) (l : list Node) : option (list Node) :=
  match l with
  | [] => Some []
  | n :: l =>
      ms ← copy_match_list (d_matches (n_desc n));
      l ← copy_nodes (S u) l;
      Some (mk_node u (mk_desc (n_name n) (n_id n) ms) :: l)
  end.

(** The must-write entries with their headers replaced by the copies; [None]
    when an entry names a header that is not in the list. *)
Fixpoint copy_mustwrite_list (mws : list MustWriteField) (old new : list Node) : option (list MustWriteField) :=
  match mws with
  | [] => Some []
  | mw :: mws =>
      '(i, _) ← index_of (mw_header mw) 0 old;
      n ← new !! Z.to_nat i;
      mws ← copy_mustwrite_list mws old new;
      Some (mk_mw (n_uid n) (mw_field mw) (mw_requester mw) :: mws)
  end.

(** ** Assignments *)

(** The first address of the maintenance point for that field is written later. *)
Fixpoint mark_later (fname : string) (l : list OAM_MP_Address) : list OAM_MP_Address :=
  match l with
  | [] => []
  | a :: l => if decide (fname = ad_field a) then mk_addr (ad_header a) (ad_field a) (ad_val a) OAM_FROM_Later :: l
              else a :: mark_later fname l
  end.

(** Field [f] of header [u] is written: the must-write entries it covers are
    done. *)
Definition covers (f g : ProtocolField) : bool :=
  (pf_bitoffset f <=? pf_bitoffset g) &&
  (pf_bitoffset f + pf_bitcount f >=? pf_bitoffset g + pf_bitcount g).

Definition satisfy (st : StageState) (u : nat) (f : ProtocolField) : StageState :=
  let hit mw := bool_decide (u = mw_header mw) && covers f (mw_field mw) in
  st <| must_write := base.filter (λ mw, hit mw = false) (must_write st) |>
     <| addresses := foldl (λ m mw, alter (mark_later (pf_name (mw_field mw))) (mw_requester mw) m)
                       (addresses st) (base.filter (λ mw, hit mw = true) (must_write st)) |>.

Record Lhs := mk_lhs {
  l_field : HeaderField; l_hname : string; l_fname : string; l_type : ProtocolFieldType; l_proto : ProtocolID
}.

Definition process_assignment_lhs (st : StageState) (s : string) : Res (Lhs * StageState) :=
  '(hdr, field) ← or_err (parse_fieldname s);
  '(i, n) ← find_header st hdr;
  f ← or_err (protocol_get_field_by_name (n_id n) field);
  Good (mk_lhs (new_headerfield i f) hdr field (pf_type f) (n_id n), satisfy st (n_uid n) f).

(** The right-hand side as a constant. *)
Definition rhs_constant (c : Conf) (l : Lhs) (s : string) : Res (ConfRhs * value_consumer) :=
  v ← read_constant (errno_stale c) (hf_bitoffset (l_field l)) (hf_bitcount (l_field l)) (l_proto l) (l_type l) s;
  _ ← check (v_bitcount v =? hf_bitcount (l_field l));
  w ← or_err (header_get_field_writer (l_field l) v);
  Good (CVARTYPE_CONST v, w).

(** The shape of the value on the left-hand side; only its offset and bit count
    are used. *)
Definition lhs_value (l : Lhs) : Value :=
  init_value (PtrOwn []) (hf_bitoffset (l_field l)) (hf_bitcount (l_field l)).

Definition process_assignment_rhs (c : Conf) (st : StageState) (l : Lhs) (s : string)
    : Res (ConfRhs * value_consumer) :=
  match parse_fieldname s with
  | None => rhs_constant c l s
  | Some (key, val) =>
      match locate key 0 (headers st) with
      | Some (i, n, rest) =>
          _ ← check (if locate key 0 rest is Some _ then false else true);
          f ← or_err (protocol_get_field_by_name (n_id n) val);
          _ ← check (bool_decide (l_type l = pf_type f));
          let hf := new_headerfield i f in
          rd ← or_err (header_get_field_reader (lhs_value l) hf);
          w ← or_err (header_get_field_writer (l_field l) (init_value (PtrOwn []) (pf_bitoffset f) (pf_bitcount f)));
          Good (CVARTYPE_FIELD hf (rd hf), w)
      | None =>
          match get_iface c key with
          | Some ifc =>
              rd ← or_err (get_property_reader c ifc val (l_type l)
                             (hf_bitoffset (l_field l)) (hf_bitcount (l_field l)));
              w ← or_err (header_get_field_writer (l_field l)
                    (init_value (PtrOwn []) (hf_bitoffset (l_field l) mod 8) (hf_bitcount (l_field l))));
              Good (CVARTYPE_IFACE ifc val rd, w)
          | None => rhs_constant c l s
          end
      end
  end.

Definition make_assignment (l : Lhs) (r : ConfRhs * value_consumer) : ConfAssignment :=
  mk_cassign (l_field l) (l_hname l) (l_fname l) (l_type l) (l_proto l) r.1 r.2.

(** ** Next-header fields *)

(** [get_nexthdr] of a protocol is one of two functions, or null. *)
Inductive NextHdr := NEXT_NONE | NEXT_ETHERTYPE | NEXT_IPPROTO.

Definition nexthdr_kind (id : ProtocolID) : NextHdr :=
  match id with
  | PROTO_ID_ETH | PROTO_ID_SVLAN | PROTO_ID_CVLAN | PROTO_ID_RTAG | PROTO_ID_TTAG => NEXT_ETHERTYPE
  | PROTO_ID_IPv4 | PROTO_ID_IPv6 => NEXT_IPPROTO
  | _ => NEXT_NONE
  end.

#[global] Instance NextHdr_eq_dec : EqDecision NextHdr.
Proof. solve_decision. Defined.

Definition has_nexthdr (n : Node) : bool := if get_nexthdr (protocol_from_id (n_id n)) is Some _ then true else false.

(** A failed conversion leaves a null value, which the writer would read. *)
Definition assign_nexthdrid_from_header_type (dst : Node) (dstpos : Z) (typeheader : Node) : Res ConfAssignment :=
  match get_nexthdr (protocol_from_id (n_id dst)), protocol_get_field_by_type (n_id dst) PFTYPE_NEXTHEADER with
  | Some f, Some dstf =>
      num ← or_err (f (n_id typeheader));
      match prepare_constant_number (pf_bitoffset dstf) (pf_bitcount dstf) num with
      | Some (Some v) =>
          let hf := new_headerfield dstpos dstf in
          w ← or_err (header_get_field_writer hf v);
          Good (mk_cassign hf (n_name dst) (pf_name dstf) (pf_type dstf) PROTO_ID_PAYLOAD (CVARTYPE_CONST v) w)
      | _ => Crash
      end
  | _, _ => Crash
  end.

Definition assign_nexthdrid_copy_from_srcheader (dst : Node) (dstpos : Z) (src : Node) (srcpos : Z)
    : Res ConfAssignment :=
  _ ← check (bool_decide (nexthdr_kind (n_id dst) = nexthdr_kind (n_id src)));
  match protocol_get_field_by_type (n_id dst) PFTYPE_NEXTHEADER,
        protocol_get_field_by_type (n_id src) PFTYPE_NEXTHEADER with
  | Some dstf, Some srcf =>
      let srchf := new_headerfield srcpos srcf in
      let dsthf := new_headerfield dstpos dstf in
      rd ← or_err (header_get_field_reader (init_value (PtrOwn []) (pf_bitoffset dstf) (pf_bitcount dstf)) srchf);
      w ← or_err (header_get_field_writer dsthf (init_value (PtrOwn []) (pf_bitoffset srcf) (pf_bitcount srcf)));
      Good (mk_cassign dsthf (n_name dst) (pf_name dstf) (pf_type dstf) PROTO_ID_PAYLOAD
              (CVARTYPE_FIELD srchf (rd srchf)) w)
  | _, _ => Crash
  end.

(** ** OAM maintenance points *)

Definition oam_protostack_srv6 := [PROTO_ID_IPv6; PROTO_ID_PAYLOAD].
Definition oam_protostack_mplspw := [PROTO_ID_MPLS; PROTO_ID_DCW; PROTO_ID_PAYLOAD].
Definition oam_protostack_ethcvlan := [PROTO_ID_ETH; PROTO_ID_CVLAN; PROTO_ID_PAYLOAD].
Definition oam_protostack_ethsvlan := [PROTO_ID_ETH; PROTO_ID_SVLAN; PROTO_ID_PAYLOAD].
Definition oam_protostack_ethcvlanrtag := [PROTO_ID_ETH; PROTO_ID_CVLAN; PROTO_ID_RTAG; PROTO_ID_PAYLOAD].
Definition oam_protostack_ethsvlanrtag := [PROTO_ID_ETH; PROTO_ID_SVLAN; PROTO_ID_RTAG; PROTO_ID_PAYLOAD].

Definition oam_possible_protostacks : list (list ProtocolID) :=
  [oam_protostack_srv6; oam_protostack_mplspw; oam_protostack_ethcvlanrtag; oam_protostack_ethsvlanrtag;
   oam_protostack_ethcvlan; oam_protostack_ethsvlan].

(** The headers start with the stack up to its terminating zero. *)
Fixpoint stack_matches (stack : list ProtocolID) (hs : list Node) : bool :=
  match stack with
  | [] => true
  | id :: stack =>
      if decide (id = PROTO_ID_PAYLOAD) then true
      else match hs with
           | h :: hs => if decide (n_id h = id) then stack_matches stack hs else false
           | [] => false
           end
  end.

Definition check_header_stack_for_oam (hs : list Node) : option (list ProtocolID) :=
  snd <$> list_find (λ stack, stack_matches stack hs = true) oam_possible_protostacks.

Definition header_field_thats_address_for_oam (proto : ProtocolID) : option string :=
  match proto with
  | PROTO_ID_IPv6 => Some "loc"
  | PROTO_ID_MPLS => Some "label"
  | PROTO_ID_ETH => Some "dmac"
  | PROTO_ID_CVLAN | PROTO_ID_SVLAN => Some "vid"
  | _ => None
  end.

Definition address_for_oam_in_assignment (a : ConfAssignment) : option Value :=
  match rhs a with
  | CVARTYPE_CONST v =>
      let named s := bool_decide (lhs_field_name a = s) in
      match lhs_protoid a with
      | PROTO_ID_IPv6 => if named "loc" then Some v else None
      | PROTO_ID_MPLS => if named "label" then Some v else None
      | PROTO_ID_ETH => if named "dmac" then Some v else None
      | PROTO_ID_CVLAN | PROTO_ID_SVLAN => if named "vid" || named "vlan" then Some v else None
      | _ => None
      end
  | _ => None
  end.

(** The match is on the field of that name; for the Ethernet address also on a
    prefix of it. *)
Definition match_on (m : HeaderMatch) (proto : ProtocolID) (fname : string) (prefix : bool) : bool :=
  match protocol_get_field_by_name proto fname with
  | Some f => (hf_bitoffset (m_field m) =? pf_bitoffset f) &&
              (if prefix then hf_bitcount (m_field m) <=? pf_bitcount f
               else hf_bitcount (m_field m) =? pf_bitcount f)
  | None => false
  end.

Definition address_match (id : ProtocolID) (m : HeaderMatch) : bool :=
  match id with
  | PROTO_ID_IPv6 => match_on m PROTO_ID_IPv6 "loc" false
  | PROTO_ID_MPLS => match_on m PROTO_ID_MPLS "label" false
  | PROTO_ID_ETH => match_on m PROTO_ID_ETH "dmac" true
  | PROTO_ID_CVLAN | PROTO_ID_SVLAN =>
      match_on m PROTO_ID_CVLAN "vid" false || match_on m PROTO_ID_CVLAN "vlan" false
  | _ => false
  end.

Definition address_for_oam_in_matches (h : Node) : option Value :=
  (λ r, m_value r.2) <$> list_find (λ m, address_match (n_id h) m = true) (d_matches (n_desc h)).

Definition must_write_for_oam_in_header (h : Node) (requester : nat) : option MustWriteField :=
  let id := match n_id h with PROTO_ID_SVLAN => PROTO_ID_CVLAN | id => id end in
  fname ← header_field_thats_address_for_oam id;
  f ← protocol_get_field_by_name id fname;
  Some (mk_mw (n_uid h) f requester).

(** The newest action of the chain that decides the address in header [h]:
    [true] when it added the header, or the value it assigned. *)
Fixpoint address_in_chain (h : Node) (chain : list ConfAction) : bool * option Value :=
  match chain with
  | [] => (false, None)
  | CA_ADD a :: chain =>
      if decide (newname a = Some (n_name h)) then (true, None) else address_in_chain h chain
  | CA_EDIT l :: chain =>
      match list_find (λ a, lhs_header_name a = n_name h ∧ is_Some (address_for_oam_in_assignment a)) l with
      | Some (_, a) => (false, address_for_oam_in_assignment a)
      | None => address_in_chain h chain
      end
  | _ :: chain => address_in_chain h chain
  end.

(** The address of one header, and what must still be written.  [memdup] of the
    octets of the value is [copy_value]. *)
Definition address_of_header (chain : list ConfAction) (key : nat) (h : Node) (fname : string)
    : Res (OAM_MP_Address * list MustWriteField) :=
  let later := match must_write_for_oam_in_header h key with
               | Some mw => Good (mk_addr (n_name h) fname None OAM_FROM_Unknown, [mw])
               | None => Crash
               end in
  let known v src := match copy_value v with
                     | Some v => Good (mk_addr (n_name h) fname (Some v) src, [])
                     | None => Crash
                     end in
  match address_in_chain h chain with
  | (true, _) => later
  | (false, Some v) => known v OAM_FROM_Edit
  | (false, None) =>
      match address_for_oam_in_matches h with
      | Some v => known v OAM_FROM_Match
      | None => later
      end
  end.

Fixpoint addresses_of (chain : list ConfAction) (key : nat) (stack : list ProtocolID) (hs : list Node)
    (addrs : list OAM_MP_Address) (mws : list MustWriteField) : Res (list OAM_MP_Address * list MustWriteField) :=
  match stack with
  | [] => Crash
  | id :: stack =>
      if decide (id = PROTO_ID_PAYLOAD) then Good (addrs, mws)
      else match hs with
           | [] => Crash
           | h :: hs =>
               match header_field_thats_address_for_oam (n_id h) with
               | None => addresses_of chain key stack hs addrs mws
               | Some fname =>
                   '(addr, mw) ← address_of_header chain key h fname;
                   addresses_of chain key stack hs (addr :: addrs) (mw ++ mws)
               end
           end
  end.

(** [find_addressing_for_mp] for the maintenance point [o], the newest action. *)
Definition find_addressing_for_mp (st : StageState) (o : OamData) : Res (OamData * StageState) :=
  let key := next_uid st in
  '(addrs, mws) ← addresses_of (actions st ++ ancestors st) key (mp_protostack o) (headers st) [] (must_write st);
  Good (o <| mp_addr := Some key |>,
        st <| next_uid := S key |> <| addresses := <[key := addrs]> (addresses st) |> <| must_write := mws |>).

(** [oam_automip_name] *)
Definition oam_automip_name (strm : string) (level : Z) (object_name : string) (post : bool) : string :=
  "o_" +:+ strm +:+ "_L" +:+ pretty (u32 level) +:+ "_" +:+ (if post then "post" else "pre") +:+ "-" +:+ object_name.

End ConfA.
