(* ===== verification/ConfPipeline.v ===== *)
(** * Compilation of action lines (conf_actions.c): the translation

    The second half of the compiler: the parameters of an action one token at a
    time ([process_token]), the processing of the complete action
    ([process_action]) with the actions it generates itself, jumps, replication
    branches and automatic maintenance points, and the action line of a stream
    ([parse_actions_line]).

    A pipeline that is named by a jump or a replication is translated with a
    depth one higher, and depth [MAX_DEPTH] is the last that may go deeper, so
    the recursion is bounded; [rec] translates the line of such a pipeline. *)

From S2P Require Import Prelude TimeUtils CString Protocol Packet HeaderField ParseTree Action ConfUtils ConfActions.
Import Time CStr Proto Pkt Field Parse Act ConfU ConfA.
From Stdlib Require Import Ascii.

Module ConfP.

#[local] Open Scope string_scope.
#[local] Open Scope list_scope.
#[local] Open Scope Z_scope.

Section translation.
Context (c : Conf).
Context (rec : string → StageState → Res StageState).

(** ** Processing of a complete action *)

Definition no_oam : OamData := mk_oamd None "" (-1) None [] None false.
Definition no_csum : CsumData := mk_csumd None PROTO_ID_PAYLOAD 0 PROTO_ID_PAYLOAD.

(** A maintenance point needs a name, a level and a header stack for OAM. *)
Definition process_oam (st : StageState) (o : OamData) (addressed : bool) : Res (OamData * StageState) :=
  _ ← check (if mp_name o is Some _ then true else false);
  _ ← check (negb (mp_level o =? -1));
  stack ← or_err (check_header_stack_for_oam (headers st));
  let o := o <| mp_protostack := stack |> in
  if addressed then find_addressing_for_mp st o else Good (o, st).

(** The length field, the length of the header itself that it counts. *)
Definition length_field (id : ProtocolID) : option (string * Z) :=
  match id with
  | PROTO_ID_IPv4 => Some ("length", 20)
  | PROTO_ID_IPv6 => Some ("length", 0)
  | PROTO_ID_UDP => Some ("length", 8)
  | _ => None
  end.

Definition lengths_after (hs : list Node) : Z :=
  foldl (λ acc h, if decide (n_id h = PROTO_ID_PAYLOAD) then acc
                  else u32 (acc + bytelength (protocol_from_id (n_id h)))) 0 hs.

Fixpoint payload_position (i : Z) (hs : list Node) : Z :=
  match hs with
  | [] => i
  | h :: hs => if decide (n_id h = PROTO_ID_PAYLOAD) then i else payload_position (i + 1) hs
  end.

Definition process_setlength (st : StageState) (h : option nat) : Res StageState :=
  u ← or_err h;
  '(i, n) ← header_index st u;
  '(fname, base) ← or_err (length_field (n_id n));
  match protocol_get_field_by_name (n_id n) fname with
  | Some f =>
      let baselen := u32 (base + lengths_after (drop (S (Z.to_nat i)) (headers st))) in
      Good (set_new st (CA_SETLENGTH h (Some (new_headerfield i f)) baselen (payload_position 0 (headers st))))
  | None => Crash
  end.

Definition process_delay (st : StageState) (v : Float) (offl : bool) : Res StageState :=
  _ ← check (negb (float_le v 0));
  _ ← check (negb (float_ge v 2000));
  if offl then Good (st <| had_delay_offload := true |>)
  else _ ← check (negb (had_delay_offload st)); Good st.

(** The actions that neither generate others nor change the header list. *)
Definition process_leaf (st : StageState) : Res StageState :=
  match newaction st with
  | CA_CHECKSUM d | CA_VERIFY d => _ ← or_err (cs_field d); Good st
  | CA_DELAY v offl => process_delay st v offl
  | CA_DROP => Good (st <| had_final := true |>)
  | CA_EDIT l => if l is [] then Err else Good (set_new st (CA_EDIT (rev l)))
  | CA_FILTEROAM _ => Good st
  | CA_MEPSTART o => '(o, st) ← process_oam st o true; Good (set_new st (CA_MEPSTART o))
  | CA_MEPSTOP o => '(o, st) ← process_oam st o false; Good (set_new st (CA_MEPSTOP o))
  | CA_MIP o => '(o, st) ← process_oam st o true; Good (set_new st (CA_MIP o))
  | CA_POF o => _ ← or_err o; _ ← check (seq_set st); Good st
  | CA_READSEQ f => _ ← or_err f; Good (st <| seq_set := true |>)
  | CA_WRITESEQ f => _ ← or_err f; _ ← check (seq_set st); Good st
  | CA_READTSTAMP f | CA_WRITETSTAMP f => _ ← or_err f; Good st
  | CA_REPL br o _ =>
      if br is [] then Err
      else Good ((set_new st (CA_REPL (rev br) o (check_header_stack_for_oam (headers st))))
                   <| must_write := [] |> <| had_final := true |>)
  | CA_SEQGEN o => _ ← or_err o; Good (st <| seq_set := true |>)
  | CA_SETLENGTH h _ _ _ => process_setlength st h
  | CA_TTLCHECK => _ ← check (ttl_set st); Good st
  | CA_TTLREDUCE f _ => _ ← or_err f; Good (st <| ttl_set := true |>)
  | _ => Err
  end.

(** *** Adding a header *)

Definition set_index (i : Z) (a : ConfAssignment) : ConfAssignment :=
  let f := lhs_field a in
  mk_cassign (mk_hf i (hf_bitoffset f) (hf_bitcount f)) (lhs_header_name a) (lhs_field_name a)
    (lhs_value_type a) (lhs_protoid a) (rhs a) (ca_write a).

(** A sequence number or time stamp field of the new header is written from the
    packet. *)
Definition add_metadata (st : StageState) (id : ProtocolID) (i : Z) : Res StageState :=
  st ← match protocol_get_field_by_type id PFTYPE_TSNSEQ with
       | Some f =>
           _ ← check (seq_set st);
           process_leaf (new_confaction st (CA_WRITESEQ (Some (new_headerfield i f))))
       | None => Good st
       end;
  match protocol_get_field_by_type id PFTYPE_TSNTSTAMP with
  | Some f => process_leaf (new_confaction st (CA_WRITETSTAMP (Some (new_headerfield i f))))
  | None => Good st
  end.

(** The default octets of the new header. *)
Definition add_defaults (i : Z) (nm : string) (id : ProtocolID) : list ConfAssignment :=
  let d := default_value (protocol_from_id id) in
  let bits := Z.of_nat (length d) * 8 in
  let hf := mk_hf i 0 bits in
  let v := mk_value (PtrOwn d) 0 bits in
  match d, header_get_field_writer hf v with
  | _ :: _, Some w => [mk_cassign hf nm "default values" PFTYPE_NUMBER PROTO_ID_PAYLOAD (CVARTYPE_CONST v) w]
  | _, _ => []
  end.

(** The next-header field of the new header, unless the user sets it. *)
Definition add_nexthdr (new : Node) (i : Z) (prev next : option Node) (user : list ConfAssignment)
    : Res (list ConfAssignment) :=
  if negb (has_nexthdr new) then Good []
  else if existsb (λ a, bool_decide (lhs_value_type a = PFTYPE_NEXTHEADER)) user then Good []
  else match next, prev with
       | Some n, _ => a ← assign_nexthdrid_from_header_type new i n; Good [a]
       | None, Some p => a ← assign_nexthdrid_copy_from_srcheader new i p (i - 1); Good [a]
       | None, None => Err
       end.

(** The next-header field of the header in front of the new one. *)
Definition add_prev_nexthdr (new : Node) (i : Z) (prev : option Node) : Res (list ConfAssignment) :=
  match prev with
  | Some p => if has_nexthdr p then a ← assign_nexthdrid_from_header_type p (i - 1) new; Good [a] else Good []
  | None => Good []
  end.

(** [edit->edit.assignments], newest first: the user's assignments, the
    next-header field of the previous header, that of the new one, the defaults. *)
Definition add_edit (new : Node) (i : Z) (nm : string) (prev next : option Node) (user : list ConfAssignment)
    : Res (list ConfAssignment) :=
  own ← add_nexthdr new i prev next user;
  before ← add_prev_nexthdr new i prev;
  Good (map (set_index i) user ++ before ++ own ++ add_defaults i nm (n_id new)).

Definition process_add (st : StageState) (a : AddData) : Res StageState :=
  nm ← or_err (newname a);
  u ← or_err (pos a);
  '(p, _) ← header_index st u;
  i ← match beforeafter a with ADD_BEFORE => Good p | ADD_AFTER => Good (p + 1) | ADD_UNKNOWN => Err end;
  let hs := headers st in
  let k := Z.to_nat i in
  let new := mk_node (next_uid st) (mk_desc nm (add_id a) []) in
  let prev := if i =? 0 then None else hs !! (k - 1)%nat in
  let next := hs !! k in
  let st := (set_new st (CA_ADD (a <| pos_idx := i |> <| add_assignments := [] |>)))
              <| headers := take k hs ++ new :: drop k hs |> <| next_uid := S (next_uid st) |> in
  st ← add_metadata st (add_id a) i;
  edits ← add_edit new i nm prev next (add_assignments a);
  if edits is [] then Good st else process_leaf (new_confaction st (CA_EDIT edits)).

(** *** Deleting a header *)

Definition swap_new (st : StageState) : StageState :=
  st <| actions := confaction_swap_with_next (actions st) |>.

(** OAM packets are filtered before a sequence number is removed. *)
Definition del_filter (st : StageState) (n : Node) (i : Z) : Res StageState :=
  match protocol_get_field_by_type (n_id n) PFTYPE_TSNSEQ with
  | Some f =>
      st ← process_leaf (new_confaction st (CA_FILTEROAM (new_headerfield i f)));
      Good (swap_new st)
  | None => Good st
  end.

Definition del_nexthdr (prev : option Node) (i : Z) (n : Node) (next : option Node) : Res (list ConfAssignment) :=
  match prev with
  | Some p =>
      if has_nexthdr p then
        match next with
        | Some nx => a ← assign_nexthdrid_from_header_type p (i - 1) nx; Good [a]
        | None => a ← assign_nexthdrid_copy_from_srcheader p (i - 1) n i; Good [a]
        end
      else Good []
  | None => Good []
  end.

Definition process_del (st : StageState) (h : option nat) : Res StageState :=
  u ← or_err h;
  '(i, n) ← header_index st u;
  let hs := headers st in
  let k := Z.to_nat i in
  let st := set_new st (CA_DEL h i) in
  st ← del_filter st n i;
  let st := st <| needs_ttlcheck := if decide (needs_ttlcheck st = Some u) then None else needs_ttlcheck st |>
               <| must_write := base.filter (λ mw, mw_header mw ≠ u) (must_write st) |> in
  edits ← del_nexthdr (if i =? 0 then None else hs !! (k - 1)%nat) i n (hs !! S k);
  let st := st <| headers := take k hs ++ drop (S k) hs |> in
  if edits is [] then Good st
  else st ← process_leaf (new_confaction st (CA_EDIT edits)); Good (swap_new st).

(** *** Jumps *)

(** The shared fields of a state whose pipeline has been translated. *)
Definition share (st sub : StageState) : StageState :=
  st <| stream_names := stream_names sub |> <| next_uid := next_uid sub |>
     <| addresses := addresses sub |> <| offloaded := offloaded sub |>.

(** The state for a named pipeline. *)
Definition enter (st : StageState) (nm : string) : StageState :=
  st <| stream := nm |> <| ancestors := actions st ++ ancestors st |> <| actions := [] |>
     <| depth := u32 (depth st + 1) |>.

Definition process_jump (st : StageState) (pipename : option string) : Res StageState :=
  nm ← or_err pipename;
  line ← or_err (streams_sec c nm);
  _ ← check (negb (depth st >? MAX_DEPTH));
  sub ← rec line (enter st nm);
  if actions sub is [] then Err
  else
    Good ((share st sub)
            <| headers := headers sub |>
            <| actions := actions sub ++ tail (actions st) |>
            <| must_write := must_write sub |>
            <| had_final := true |>
            <| stream_names := nm :: stream_names sub |>).

(** *** Automatic maintenance points *)

(** A failure leaves one of the two pointers null that are used to clean up. *)
Definition or_crash {A} (r : Res A) : Res A := if r is Good a then Good a else Crash.

Definition automip (st : StageState) (strm : string) (o : ObjRef) (post : bool) : Res StageState :=
  or_crash (process_leaf (new_confaction st (CA_MIP
    (mk_oamd (Some (oam_automip_name strm (o_mip o) (o_name o) post)) strm (o_mip o) (Some o) [] None true)))).

(** The point before the newest action. *)
Definition automip_before (st : StageState) (o : ObjRef) : Res StageState :=
  st ← automip st (stream st) o false; Good (swap_new st).

Definition process_elim (st : StageState) (rcvy : option ObjRef) (pipename : option string) : Res StageState :=
  o ← or_err rcvy;
  nm ← or_err pipename;
  _ ← check (seq_set st);
  let st := set_new st (CA_ELIM rcvy pipename (check_header_stack_for_oam (headers st))) in
  st ← (if o_mip o >=? 0 then st ← automip_before st o; automip st nm o true else Good st);
  process_jump (new_confaction st (CA_JUMP (Some nm))) (Some nm).

(** *** Sending *)

Definition process_send (st : StageState) (iface : option nat) : Res StageState :=
  ifc ← or_err iface;
  let st := if had_delay_offload st then st <| offloaded := ifc :: offloaded st |> else st in
  if needs_ttlcheck st is Some _ then
    st ← process_leaf (new_confaction st CA_TTLCHECK);
    Good ((swap_new st) <| needs_ttlcheck := None |>)
  else Good st.

Definition process_action (st : StageState) : Res StageState :=
  match newaction st with
  | CA_ADD a => process_add st a
  | CA_DEL h _ => process_del st h
  | CA_ELIM r p _ => process_elim st r p
  | CA_JUMP p => process_jump st p
  | CA_SEND i => process_send st i
  | _ => process_leaf st
  end.

(** ** Processing of a token *)

Definition keyword (tok : string) : option ConfAction :=
  kv ← list_find (λ kv, kv.1 = tok)
    [("after", CA_ADD (mk_add ADD_AFTER None false None PROTO_ID_PAYLOAD 0 0 []));
     ("before", CA_ADD (mk_add ADD_BEFORE None false None PROTO_ID_PAYLOAD 0 0 []));
     ("checksum", CA_CHECKSUM no_csum); ("del", CA_DEL None 0); ("delay", CA_DELAY float_zero false);
     ("drop", CA_DROP); ("edit", CA_EDIT []); ("eliminate", CA_ELIM None None None); ("jump", CA_JUMP None);
     ("mep-start", CA_MEPSTART no_oam); ("mep-stop", CA_MEPSTOP no_oam); ("mip", CA_MIP no_oam);
     ("pof", CA_POF None); ("readseq", CA_READSEQ None); ("readtstamp", CA_READTSTAMP None);
     ("replicate", CA_REPL [] None None); ("send", CA_SEND None); ("seqgen", CA_SEQGEN None);
     ("setlength", CA_SETLENGTH None None 0 0); ("ttlcheck", CA_TTLCHECK); ("ttlreduce", CA_TTLREDUCE None None);
     ("verify", CA_VERIFY no_csum); ("writeseq", CA_WRITESEQ None); ("writetstamp", CA_WRITETSTAMP None)];
  Some kv.2.2.

Definition use_replobj (st : StageState) (br : list (string * list ConfAction * bool)) (o : ObjRef)
    : Res StageState :=
  let st := set_new st (CA_REPL br (Some o) None) in
  if o_mip o >? 0 then automip_before st o else Good st.

(** The first token names an action, an object or a pipeline. *)
Definition token_undef (st : StageState) (tok : string) : Res StageState :=
  match keyword tok with
  | Some a => Good (set_new st a)
  | None =>
      match get_object c tok with
      | Some o =>
          match o_type o with
          | PIPEOBJ_SEQGEN => Good (set_new st (CA_SEQGEN (Some o)))
          | PIPEOBJ_SEQREC => Good (set_new st (CA_ELIM (Some o) None None))
          | PIPEOBJ_POF => Good (set_new st (CA_POF (Some o)))
          | PIPEOBJ_REPL => use_replobj st [] o
          end
      | None => _ ← or_err (streams_sec c tok); Good (set_new st (CA_JUMP (Some tok)))
      end
  end.

Definition token_add (st : StageState) (a : AddData) (tok : string) : Res StageState :=
  let upd a := Good (set_new st (CA_ADD a)) in
  match pos a, was_add a, newname a with
  | None, _, _ => '(_, n) ← find_header st tok; upd (a <| pos := Some (n_uid n) |>)
  | _, false, _ => _ ← check (bool_decide (tok = "add")); upd (a <| was_add := true |>)
  | _, _, None =>
      let type := header_type_from_name tok in
      _ ← check (protocol_type_valid (Some type));
      let id := protocol_id_from_type (Some type) in
      upd (a <| newname := Some tok |> <| add_id := id |> <| add_len := bytelength (protocol_from_id id) |>)
  | _, _, Some nm =>
      '(l, r) ← or_err (parse_assignment tok);
      f ← or_err (protocol_get_field_by_name (add_id a) l);
      let lhs := mk_lhs (new_headerfield 0 f) nm (pf_name f) (pf_type f) (add_id a) in
      res ← process_assignment_rhs c st lhs r;
      upd (a <| add_assignments := make_assignment lhs res :: add_assignments a |>)
  end.

(** The last IP header in front of header number [n]. *)
Fixpoint last_ip (n : nat) (i : Z) (acc : option (Z * ProtocolID)) (hs : list Node) : option (Z * ProtocolID) :=
  match n, hs with
  | S n, h :: hs =>
      last_ip n (i + 1)
        (if decide (n_id h = PROTO_ID_IPv4 ∨ n_id h = PROTO_ID_IPv6) then Some (i, n_id h) else acc) hs
  | _, _ => acc
  end.

Definition token_checksum (st : StageState) (d : CsumData) (tok : string) : Res CsumData :=
  match cs_field d with
  | Some _ => Err
  | None =>
      '(i, n) ← find_header st tok;
      f ← or_err (header_get_field_of_type n i PFTYPE_CHECKSUM);
      match n_id n with
      | PROTO_ID_IPv4 => Good (mk_csumd (Some f) PROTO_ID_IPv4 (cs_ip_idx d) (cs_ip_version d))
      | PROTO_ID_UDP | PROTO_ID_TCP | PROTO_ID_ICMPv4 | PROTO_ID_ICMPv6 =>
          '(ip, v) ← or_err (last_ip (Z.to_nat i) 0 None (headers st));
          Good (mk_csumd (Some f) (n_id n) ip v)
      | _ => Err
      end
  end.

Definition token_delay (v : Float) (offl : bool) (tok : string) : Res ConfAction :=
  if float_eq v 0 then v ← or_err (scan_float tok); Good (CA_DELAY v offl)
  else if offl then Good (CA_DELAY v offl)
  else _ ← check (bool_decide (tok = "offload")); Good (CA_DELAY v true).

Definition token_edit (st : StageState) (l : list ConfAssignment) (tok : string) : Res StageState :=
  '(a, b) ← or_err (parse_assignment tok);
  '(lhs, st) ← process_assignment_lhs st a;
  res ← process_assignment_rhs c st lhs b;
  Good (set_new st (CA_EDIT (make_assignment lhs res :: l))).

(** An object of the right type. *)
Definition object_arg (t : PipelineObjectType) (cur : option ObjRef) (tok : string) : Res ObjRef :=
  match cur with
  | Some _ => Err
  | None =>
      o ← or_err (get_object c tok);
      match t, o_type o with
      | PIPEOBJ_SEQGEN, PIPEOBJ_SEQGEN | PIPEOBJ_SEQREC, PIPEOBJ_SEQREC
      | PIPEOBJ_POF, PIPEOBJ_POF | PIPEOBJ_REPL, PIPEOBJ_REPL => Good o
      | _, _ => Err
      end
  end.

Definition token_elim (r : option ObjRef) (p : option string) (tok : string) : Res ConfAction :=
  match r, p with
  | None, _ => o ← object_arg PIPEOBJ_SEQREC None tok; Good (CA_ELIM (Some o) p None)
  | _, None => Good (CA_ELIM r (Some tok) None)
  | _, _ => Err
  end.

Definition token_oam (st : StageState) (o : OamData) (tok : string) : Res OamData :=
  match mp_name o, mp_level o =? -1, mp_obj o with
  | None, _, _ => Good (o <| mp_name := Some tok |> <| mp_stream := stream st |>)
  | _, true, _ =>
      l ← or_err (scan_i32 tok);
      _ ← check ((0 <=? l) && (l <=? 7));
      Good (o <| mp_level := l |>)
  | _, _, None => obj ← or_err (get_object c tok); Good (o <| mp_obj := Some obj |>)
  | _, _, _ => Err
  end.

(** The field of the header that holds the sequence number or time stamp. *)
Definition token_meta (st : StageState) (cur : option HeaderField) (seq : bool) (tok : string) : Res HeaderField :=
  match cur with
  | Some _ => Err
  | None =>
      '(i, n) ← find_header st tok;
      match header_get_field_of_type n i (if seq then PFTYPE_TSNSEQ else PFTYPE_TSNTSTAMP) with
      | Some f => Good f
      | None => if seq then or_err (header_get_field_of_type n i PFTYPE_SRV6SEQ) else Err
      end
  end.

(** A branch: the headers and the must-write list are copied. *)
Definition branch_state (st : StageState) (tok : string) : Res StageState :=
  hs ← match copy_nodes (next_uid st) (headers st) with Some hs => Good hs | None => Crash end;
  mws ← or_err (copy_mustwrite_list (must_write st) (headers st) hs);
  Good ((enter st tok) <| headers := hs |> <| next_uid := (next_uid st + length hs)%nat |> <| must_write := mws |>).

Definition token_branch (st : StageState) (br : list (string * list ConfAction * bool)) (o : option ObjRef)
    (line tok : string) (masked : bool) : Res StageState :=
  _ ← check (negb (depth st >? MAX_DEPTH));
  p ← branch_state st tok;
  p ← match o with
      | Some obj => if o_mip obj >? 0 then automip p (stream p) obj true else Good p
      | None => Good p
      end;
  sub ← rec line p;
  if actions sub is [] then Err
  else
    Good ((set_new (share st sub) (CA_REPL ((tok, rev (actions sub), masked) :: br) o None))
            <| stream_names := tok :: stream_names sub |>).

Definition token_repl (st : StageState) (br : list (string * list ConfAction * bool)) (o : option ObjRef)
    (tok : string) : Res StageState :=
  match streams_sec c tok, streams_sec c (tok +:+ ":masked") with
  | Some _, Some _ => Err
  | Some line, None => token_branch st br o line tok false
  | None, Some line => if o is Some _ then token_branch st br o line tok true else Err
  | None, None =>
      match o, br with
      | None, [] => obj ← object_arg PIPEOBJ_REPL None tok; use_replobj st br obj
      | _, _ => Err
      end
  end.

Definition token_ttlreduce (st : StageState) (f : option HeaderField) (tok : string) : Res ConfAction :=
  match f with
  | Some _ => Err
  | None =>
      '(i, n) ← find_header st tok;
      f ← or_err (header_get_field_of_type n i PFTYPE_TTL);
      Good (CA_TTLREDUCE (Some f) (header_get_field_of_type n i PFTYPE_CHECKSUM))
  end.

Definition process_token (tok : string) (st : StageState) : Res StageState :=
  let upd r := a ← (r : Res ConfAction); Good (set_new st a) in
  match newaction st with
  | CA_UNDEF => token_undef st tok
  | CA_ADD a => token_add st a tok
  | CA_CHECKSUM d => upd (CA_CHECKSUM <$> token_checksum st d tok)
  | CA_VERIFY d => upd (CA_VERIFY <$> token_checksum st d tok)
  | CA_DEL None i => upd ('(_, n) ← find_header st tok; Good (CA_DEL (Some (n_uid n)) i))
  | CA_DEL (Some _) _ => Err
  | CA_DELAY v offl => upd (token_delay v offl tok)
  | CA_DROP | CA_TTLCHECK => Err
  | CA_EDIT l => token_edit st l tok
  | CA_ELIM r p _ => upd (token_elim r p tok)
  | CA_FILTEROAM _ => Good st
  | CA_JUMP None => Good (set_new st (CA_JUMP (Some tok)))
  | CA_JUMP (Some _) => Err
  | CA_MEPSTART o => upd (CA_MEPSTART <$> token_oam st o tok)
  | CA_MEPSTOP o => upd (CA_MEPSTOP <$> token_oam st o tok)
  | CA_MIP o => upd (CA_MIP <$> token_oam st o tok)
  | CA_POF o => upd ((λ o, CA_POF (Some o)) <$> object_arg PIPEOBJ_POF o tok)
  | CA_READSEQ f => upd ((λ f, CA_READSEQ (Some f)) <$> token_meta st f true tok)
  | CA_WRITESEQ f => upd ((λ f, CA_WRITESEQ (Some f)) <$> token_meta st f true tok)
  | CA_READTSTAMP f => upd ((λ f, CA_READTSTAMP (Some f)) <$> token_meta st f false tok)
  | CA_WRITETSTAMP f => upd ((λ f, CA_WRITETSTAMP (Some f)) <$> token_meta st f false tok)
  | CA_REPL br o _ => token_repl st br o tok
  | CA_SEND None => upd ((λ i, CA_SEND (Some i)) <$> or_err (get_iface c tok))
  | CA_SEND (Some _) => Err
  | CA_SEQGEN o => upd ((λ o, CA_SEQGEN (Some o)) <$> object_arg PIPEOBJ_SEQGEN o tok)
  | CA_SETLENGTH None f b i => upd ('(_, n) ← find_header st tok; Good (CA_SETLENGTH (Some (n_uid n)) f b i))
  | CA_SETLENGTH (Some _) _ _ _ => Err
  | CA_TTLREDUCE f _ => upd (token_ttlreduce st f tok)
  end.

Definition process_stage (stage : string) (st : StageState) : Res StageState :=
  _ ← check (negb (had_final st));
  st ← foreach_tokens stage process_token (new_confaction st CA_UNDEF);
  if newaction st is CA_UNDEF then Err else process_action st.
End translation.

(** ** Lines *)

(** The line of a pipeline; [n] more levels of named pipelines are possible. *)
Fixpoint process_line (c : Conf) (n : nat) (line : string) (st : StageState) : Res StageState :=
  foreach_stages line
    (process_stage c (match n with O => λ _ _, Crash | S n => process_line c n end)) st.

Definition number_headers (hs : list HeaderDescriptor) : list Node := imap mk_node hs.

(** The stream's action line.  The TTL of the first header is reduced. *)
Definition start_state (strm : string) (hs : list HeaderDescriptor) : StageState :=
  let ns := number_headers hs in
  let st := mk_stst strm [] ns false false false false None [] 0 [] [strm] (length hs) ∅ [] in
  match ns with
  | n :: _ =>
      match header_get_field_of_type n 0 PFTYPE_TTL with
      | Some f => (new_confaction st (CA_TTLREDUCE (Some f) None)) <| ttl_set := true |>
                    <| needs_ttlcheck := Some (n_uid n) |>
      | None => st
      end
  | [] => st
  end.

Definition parse_actions_line (c : Conf) (strm line : string) (hs : list HeaderDescriptor)
    : Res (list ConfAction * StageState) :=
  hs ← match copy_header_list hs true with Some (h :: hs) => Good (h :: hs) | _ => Crash end;
  st ← process_line c (S (Z.to_nat MAX_DEPTH)) line (start_state strm hs);
  if actions st is [] then Err else Good (rev (actions st), st).

End ConfP.
