(* ===== verification/ConfTyping.v ===== *)
(** * Well-typed action lists

    The translation of an action line tracks the header stack of the packet.
    This file states what its result promises: every action refers to headers
    of the stack as it is when the action runs, and to fields inside these
    headers.  [acts_typed s l s'] says so of the actions [l] of a pipeline
    whose packets have the stack [s] at the start; [s'] is the stack at the end. *)

From S2P Require Import Prelude TimeUtils CString Protocol Packet HeaderField ParseTree Action ConfUtils ConfActions ConfPipeline.
Import Time CStr Proto Pkt Field Parse Act ConfU ConfA ConfP.

Module Typing.

#[local] Open Scope list_scope.
#[local] Open Scope Z_scope.

Abbreviation stack := (list ProtocolID).

Definition plen (id : ProtocolID) : Z := bytelength (protocol_from_id id).

Definition ids (st : StageState) : stack := n_id <$> headers st.

(** The field lies inside its header. *)
Definition field_ok (s : stack) (f : HeaderField) : Prop :=
  0 <= header_idx f ∧ 0 <= hf_bitoffset f ∧ 0 < hf_bitcount f ∧
  ∃ id, s !! Z.to_nat (header_idx f) = Some id ∧ hf_bitoffset f + hf_bitcount f <= 8 * plen id.

(** The field belongs to some header of the stack.  (The index on the
    right-hand side of an assignment of a new header is not adjusted to the
    insertion, so the header may be another one than the configuration names.) *)
Definition source_field_ok (s : stack) (f : HeaderField) : Prop :=
  0 <= header_idx f < Z.of_nat (length s) ∧ 0 <= hf_bitoffset f ∧ 0 < hf_bitcount f ∧
  hf_bitoffset f + hf_bitcount f <= 320.

(** The writer was selected for the target and a value of that shape. *)
Definition writes (w : value_consumer) (f : HeaderField) (off cnt : Z) : Prop :=
  ∀ ptr, header_get_field_writer f (mk_value ptr off cnt) = Some w.

Section typing.
Context (c : Conf).

Definition rhs_ok (s : stack) (a : ConfAssignment) : Prop :=
  match rhs a with
  | CVARTYPE_FIELD hf rd =>
      source_field_ok s hf ∧ rd = read_bytes hf ∧
      writes (ca_write a) (lhs_field a) (hf_bitoffset hf) (hf_bitcount hf)
  | CVARTYPE_CONST v => const_ok v ∧ writes (ca_write a) (lhs_field a) (v_bitoffset v) (v_bitcount v)
  | CVARTYPE_IFACE ifc prop rd =>
      get_property_reader c ifc prop (lhs_value_type a) (hf_bitoffset (lhs_field a)) (hf_bitcount (lhs_field a))
        = Some rd ∧
      writes (ca_write a) (lhs_field a) (hf_bitoffset (lhs_field a) mod 8) (hf_bitcount (lhs_field a))
  end.

Definition assign_ok (s : stack) (a : ConfAssignment) : Prop := field_ok s (lhs_field a) ∧ rhs_ok s a.

(** A sequence number or time stamp field: four octets of the header from the
    octet the field starts in. *)
Definition meta_ok (s : stack) (f : HeaderField) : Prop :=
  field_ok s f ∧ hf_bitcount f <= 32 ∧
  ∃ id, s !! Z.to_nat (header_idx f) = Some id ∧ hf_bitoffset f / 8 + 4 <= plen id.

Definition checksum_proto (id : ProtocolID) : Prop :=
  id ∈ [PROTO_ID_UDP; PROTO_ID_TCP; PROTO_ID_ICMPv4; PROTO_ID_ICMPv6].

Definition csum_ok (s : stack) (d : CsumData) : Prop :=
  ∃ f, cs_field d = Some f ∧ field_ok s f ∧ s !! Z.to_nat (header_idx f) = Some (cs_proto d) ∧
    (cs_proto d = PROTO_ID_IPv4 ∨
     checksum_proto (cs_proto d) ∧ 0 <= cs_ip_idx d < header_idx f ∧
     s !! Z.to_nat (cs_ip_idx d) = Some (cs_ip_version d) ∧
     cs_ip_version d ∈ [PROTO_ID_IPv4; PROTO_ID_IPv6]).

(** The stack starts with the protocols up to the terminating zero. *)
Fixpoint starts_with (p s : stack) : Prop :=
  match p with
  | [] => True
  | id :: p => id = PROTO_ID_PAYLOAD ∨ (head s = Some id ∧ starts_with p (tail s))
  end.

Definition detect_ok (s : stack) (p : stack) : Prop := p ∈ oam_possible_protostacks ∧ starts_with p s.

Definition leaf_ok (s : stack) (a : ConfAction) : Prop :=
  match a with
  | CA_CHECKSUM d | CA_VERIFY d => csum_ok s d
  | CA_DELAY v _ => float_le v 0 = false ∧ float_ge v 2000 = false
  | CA_DROP | CA_POF (Some _) | CA_SEND (Some _) | CA_SEQGEN (Some _) | CA_TTLCHECK => True
  | CA_EDIT l => l ≠ [] ∧ Forall (assign_ok s) l
  | CA_ELIM (Some _) (Some _) p => ∀ p', p = Some p' → detect_ok s p'
  | CA_FILTEROAM f | CA_READSEQ (Some f) | CA_READTSTAMP (Some f)
  | CA_WRITESEQ (Some f) | CA_WRITETSTAMP (Some f) => meta_ok s f
  | CA_MEPSTART o | CA_MEPSTOP o | CA_MIP o => detect_ok s (mp_protostack o)
  | CA_SETLENGTH _ (Some f) _ i => field_ok s f ∧ hf_bitcount f = 16 ∧ 0 <= i <= Z.of_nat (length s)
  | CA_TTLREDUCE (Some f) cs =>
      field_ok s f ∧ hf_bitcount f = 8 ∧ ∀ g, cs = Some g → field_ok s g ∧ hf_bitcount g = 16
  | _ => False
  end.

Inductive act_typed : stack → ConfAction → stack → Prop :=
  | t_leaf s a : leaf_ok s a → act_typed s a s
  | t_add s a k :
      pos_idx a = Z.of_nat k → (k <= length s)%nat → add_len a = plen (add_id a) →
      act_typed s (CA_ADD a) (take k s ++ add_id a :: drop k s)
  | t_del s h k :
      (k < length s)%nat → act_typed s (CA_DEL h (Z.of_nat k)) (take k s ++ drop (S k) s)
  | t_repl s br o p :
      (∀ p', p = Some p' → detect_ok s p') → br ≠ [] →
      (∀ nm l m, (nm, l, m) ∈ br → l ≠ [] ∧ ∃ s', acts_typed s l s') →
      act_typed s (CA_REPL br o p) s
with acts_typed : stack → list ConfAction → stack → Prop :=
  | ts_nil s : acts_typed s [] s
  | ts_cons s a s1 l s2 : act_typed s a s1 → acts_typed s1 l s2 → acts_typed s (a :: l) s2.

Lemma acts_typed_app s l s1 l' s2 : acts_typed s l s1 → acts_typed s1 l' s2 → acts_typed s (l ++ l') s2.
Proof. induction 1; [done|]. intros. econstructor; eauto. Qed.

Lemma acts_typed_snoc s l s1 a s2 : acts_typed s l s1 → act_typed s1 a s2 → acts_typed s (l ++ [a]) s2.
Proof. intros H ?. eapply acts_typed_app; [exact H|]. econstructor; [done|constructor]. Qed.

(** ** The states of the translation *)

(** The completed actions are well typed up to the current header list. *)
Definition good (s0 : stack) (st : StageState) : Prop := acts_typed s0 (rev (actions st)) (ids st).

(** What holds of the newest action while its parameters are read.  The
    assignments of a new header name its fields with index zero. *)
Definition new_assign_ok (s : stack) (id : ProtocolID) (a : ConfAssignment) : Prop :=
  field_ok [id] (lhs_field a) ∧ header_idx (lhs_field a) = 0 ∧ rhs_ok s a.

Definition partial (s : stack) (a : ConfAction) : Prop :=
  match a with
  | CA_ADD a => (newname a = None → add_assignments a = []) ∧
                (∀ nm, newname a = Some nm → add_len a = plen (add_id a)) ∧
                Forall (new_assign_ok s (add_id a)) (add_assignments a)
  | CA_CHECKSUM d | CA_VERIFY d => cs_field d = None ∨ csum_ok s d
  | CA_EDIT l => Forall (assign_ok s) l
  | CA_FILTEROAM f => meta_ok s f
  | CA_READSEQ f | CA_READTSTAMP f | CA_WRITESEQ f | CA_WRITETSTAMP f => ∀ g, f = Some g → meta_ok s g
  | CA_REPL br _ _ => ∀ nm l m, (nm, l, m) ∈ br → l ≠ [] ∧ ∃ s', acts_typed s l s'
  | CA_TTLREDUCE f cs => (∀ g, f = Some g → field_ok s g ∧ hf_bitcount g = 8) ∧
                         (∀ g, cs = Some g → field_ok s g ∧ hf_bitcount g = 16)
  | _ => True
  end.

Definition in_progress (s0 : stack) (st : StageState) : Prop :=
  actions st ≠ [] ∧ acts_typed s0 (rev (tail (actions st))) (ids st) ∧ partial (ids st) (newaction st).

(** ** Tables *)

Lemma field_type_ok id t f :
  protocol_get_field_by_type id t = Some f →
  pf_type f = t ∧ 0 <= pf_bitoffset f ∧ 0 < pf_bitcount f ∧ pf_bitoffset f + pf_bitcount f <= 8 * plen id.
Proof.
  intros H. split.
  - unfold protocol_get_field_by_type in H.
    destruct (find_from _ _ _) as [[j g]|] eqn:E; simplify_eq/=.
    apply find_from_spec in E as (_ & _ & HP & _). by apply bool_decide_eq_true in HP.
  - destruct id, t; vm_compute in H; simplify_eq; vm_compute; intuition congruence.
Qed.

Lemma field_name_ok id nm f :
  protocol_get_field_by_name id nm = Some f →
  0 <= pf_bitoffset f ∧ 0 < pf_bitcount f ∧ pf_bitoffset f + pf_bitcount f <= 8 * plen id.
Proof. intros (_ & H)%field_by_name_in_header. exact H. Qed.

Lemma plen_bound id : 0 <= plen id <= 40.
Proof. by destruct id. Qed.

Lemma meta_type_ok id t f :
  protocol_get_field_by_type id t = Some f → t ∈ [PFTYPE_TSNSEQ; PFTYPE_SRV6SEQ; PFTYPE_TSNTSTAMP] →
  pf_bitcount f <= 32 ∧ pf_bitoffset f / 8 + 4 <= plen id.
Proof.
  intros H Ht. repeat (apply elem_of_cons in Ht as [->|Ht]); [..|by apply elem_of_nil in Ht];
    destruct id; vm_compute in H; simplify_eq; vm_compute; intuition congruence.
Qed.

Lemma ttl_type_ok id f : protocol_get_field_by_type id PFTYPE_TTL = Some f → pf_bitcount f = 8.
Proof. intros H. destruct id; vm_compute in H; by simplify_eq. Qed.
Lemma csum_type_ok id f : protocol_get_field_by_type id PFTYPE_CHECKSUM = Some f → pf_bitcount f = 16.
Proof. intros H. destruct id; vm_compute in H; by simplify_eq. Qed.
Lemma length_field_ok id nm base f :
  length_field id = Some (nm, base) → protocol_get_field_by_name id nm = Some f → pf_bitcount f = 16.
Proof. intros H1 H2. destruct id; vm_compute in H1; simplify_eq; vm_compute in H2; by simplify_eq. Qed.

(** ** Header list *)

Lemma locate_spec nm i l j n r :
  locate nm i l = Some (j, n, r) → i <= j ∧ l !! Z.to_nat (j - i) = Some n ∧ n_name n = nm.
Proof.
  revert i. induction l as [|m l IH]; intros i H; cbn [locate] in H; [done|].
  destruct (decide _) as [E|]; [simplify_eq; rewrite Z.sub_diag; auto with lia|].
  apply IH in H as (Hij & Hl & Hn). split_and!; [lia| |done].
  replace (Z.to_nat (j - i)) with (S (Z.to_nat (j - (i + 1)))) by lia. done.
Qed.

Lemma index_of_spec u i l j n :
  index_of u i l = Some (j, n) → i <= j ∧ l !! Z.to_nat (j - i) = Some n.
Proof.
  revert i. induction l as [|m l IH]; intros i H; cbn [index_of] in H; [done|].
  destruct (decide _) as [E|]; [simplify_eq; rewrite Z.sub_diag; auto with lia|].
  apply IH in H as (Hij & Hl). split; [lia|].
  replace (Z.to_nat (j - i)) with (S (Z.to_nat (j - (i + 1)))) by lia. done.
Qed.

Lemma find_header_spec st nm i n :
  find_header st nm = Good (i, n) → 0 <= i ∧ headers st !! Z.to_nat i = Some n.
Proof.
  unfold find_header. destruct (locate nm 0 (headers st)) as [[[j m] r]|] eqn:E; [|done].
  destruct (locate nm 0 r); [done|]. intros [= -> ->].
  apply locate_spec in E as (? & H & _). by rewrite Z.sub_0_r in H.
Qed.

Lemma header_index_spec st u i n :
  header_index st u = Good (i, n) → 0 <= i ∧ headers st !! Z.to_nat i = Some n.
Proof.
  unfold header_index. destruct (index_of u 0 (headers st)) as [[j m]|] eqn:E; [|done].
  intros [= -> ->]. apply index_of_spec in E as [? H]. by rewrite Z.sub_0_r in H.
Qed.

Lemma ids_lookup st k n : headers st !! k = Some n → ids st !! k = Some (n_id n).
Proof. unfold ids. rewrite list_lookup_fmap. by intros ->. Qed.

(** A field of a header that is in the list. *)
Lemma new_field_ok s i id f :
  0 <= i → s !! Z.to_nat i = Some id →
  0 <= pf_bitoffset f → 0 < pf_bitcount f → pf_bitoffset f + pf_bitcount f <= 8 * plen id →
  field_ok s (new_headerfield i f).
Proof. intros. split_and!; cbn; eauto. Qed.

Lemma type_field_ok s i id t f :
  0 <= i → s !! Z.to_nat i = Some id → protocol_get_field_by_type id t = Some f →
  field_ok s (new_headerfield i f).
Proof. intros ? ? (_ & ? & ? & ?)%field_type_ok. by eapply new_field_ok. Qed.

Lemma type_meta_ok s i id t f :
  0 <= i → s !! Z.to_nat i = Some id → protocol_get_field_by_type id t = Some f →
  t ∈ [PFTYPE_TSNSEQ; PFTYPE_SRV6SEQ; PFTYPE_TSNTSTAMP] → meta_ok s (new_headerfield i f).
Proof.
  intros Hi Hs Hf Ht. destruct (meta_type_ok _ _ _ Hf Ht). split; [by eapply type_field_ok|].
  split; [done|]. eauto.
Qed.

Lemma source_field_of_ok s f : field_ok s f → source_field_ok s f.
Proof.
  intros (? & ? & ? & id & Hs & ?). apply lookup_lt_Some in Hs. pose proof (plen_bound id).
  split_and!; lia.
Qed.

Lemma locate_field_ok st key i n r f :
  locate key 0 (headers st) = Some (i, n, r) →
  0 <= pf_bitoffset f → 0 < pf_bitcount f → pf_bitoffset f + pf_bitcount f <= 8 * plen (n_id n) →
  field_ok (ids st) (new_headerfield i f).
Proof.
  intros (? & H & _)%locate_spec ? ? ?. rewrite Z.sub_0_r in H.
  eapply new_field_ok; eauto using ids_lookup.
Qed.

(** ** Assignments *)

(** The bounds of a field of the protocol tables. *)
Definition sized (f : HeaderField) : Prop :=
  0 <= hf_bitoffset f ∧ 0 < hf_bitcount f ∧ hf_bitoffset f + hf_bitcount f <= 320.

Lemma sized_field i id f :
  0 <= pf_bitoffset f → 0 < pf_bitcount f → pf_bitoffset f + pf_bitcount f <= 8 * plen id →
  sized (new_headerfield i f).
Proof. intros. pose proof (plen_bound id). split_and!; cbn; lia. Qed.

(** The choice of a writer does not depend on the pointer. *)
Lemma writes_intro f v w :
  header_get_field_writer f v = Some w → writes w f (v_bitoffset v) (v_bitcount v).
Proof. intros H ptr. exact H. Qed.

Lemma writes_shape f g w off cnt :
  hf_bitoffset f = hf_bitoffset g → hf_bitcount f = hf_bitcount g → writes w f off cnt → writes w g off cnt.
Proof.
  intros E1 E2 H ptr. rewrite <- (H ptr). unfold header_get_field_writer, same_shape, octet_aligned.
  cbn. by rewrite E1, E2.
Qed.

Lemma writes_octets w f off cnt : writes w f off cnt → cnt = hf_bitcount f ∧ off mod 8 = hf_bitoffset f mod 8.
Proof.
  intros H. specialize (H (PtrPacket 0)). unfold header_get_field_writer in H.
  destruct (same_shape _ _) eqn:E; [|done]. apply same_shape_true in E as [? ?]. cbn in *. auto.
Qed.

Lemma rhs_constant_ok l s s' r :
  sized (l_field l) → rhs_constant c l s = Good r → rhs_ok s' (make_assignment l r).
Proof.
  intros (L1 & L2 & L3) H. unfold rhs_constant in H. res_inv H. apply or_err_Good in E1. injection H as <-.
  destruct (read_constant_ok (errno_stale c) (hf_bitoffset (l_field l)) (hf_bitcount (l_field l))
              (l_proto l) (l_type l) s) as [_ Hok]; [lia..|].
  destruct (Hok _ E) as [Hc _]. split; [done|]. by apply writes_intro.
Qed.

Lemma process_rhs_ok st l s r :
  sized (l_field l) → process_assignment_rhs c st l s = Good r → rhs_ok (ids st) (make_assignment l r).
Proof.
  intros Hl H. unfold process_assignment_rhs in H.
  destruct (parse_fieldname s) as [[key val]|]; [|by eapply rhs_constant_ok].
  destruct (locate key 0 (headers st)) as [[[i n] rest]|] eqn:El.
  - res_inv H. apply or_err_Good in E0, E2, E3. injection H as <-.
    destruct (field_name_ok _ _ _ E0) as (? & ? & ?).
    unfold rhs_ok. cbn [rhs make_assignment fst snd]. split_and!.
    + apply source_field_of_ok. by eapply locate_field_ok.
    + unfold header_get_field_reader in E2. destruct (negb _); by simplify_eq.
    + exact (writes_intro _ _ _ E3).
  - destruct (get_iface c key) as [ifc|]; [|by eapply rhs_constant_ok].
    res_inv H. apply or_err_Good in E, E0. injection H as <-.
    split; [done|]. exact (writes_intro _ _ _ E0).
Qed.

Lemma process_lhs_ok st s l st' :
  process_assignment_lhs st s = Good (l, st') →
  field_ok (ids st) (l_field l) ∧ sized (l_field l) ∧ headers st' = headers st ∧ actions st' = actions st.
Proof.
  unfold process_assignment_lhs. intros H. res_inv H. destruct r as [hdr field]. res_inv H.
  destruct r as [i n]. res_inv H. apply or_err_Good in E1. injection H as <- <-.
  destruct (find_header_spec _ _ _ _ E0) as [? Hn]. destruct (field_name_ok _ _ _ E1) as (? & ? & ?).
  split_and!; cbn; try done.
  - eapply new_field_ok; eauto using ids_lookup.
  - by eapply sized_field.
Qed.

Lemma rhs_ok_mono s s' a : (length s <= length s')%nat → rhs_ok s a → rhs_ok s' a.
Proof.
  intros Hl. unfold rhs_ok, source_field_ok. destruct (rhs a); [|done..].
  intros ((? & ? & ? & ?) & ? & ?). split_and!; try done; lia.
Qed.

Lemma set_index_ok s s' id k a :
  new_assign_ok s id a → s' !! k = Some id → (length s <= length s')%nat →
  assign_ok s' (set_index (Z.of_nat k) a).
Proof.
  intros ((_ & ? & ? & id' & Hid & ?) & E0 & Hr) Hk Hl. rewrite E0 in Hid. change (Some id = Some id') in Hid. injection Hid as <-.
  split.
  - split_and!; cbn [header_idx hf_bitoffset hf_bitcount set_index lhs_field]; try done; [lia|].
    exists id. rewrite Nat2Z.id. done.
  - apply (rhs_ok_mono _ _ _ Hl) in Hr. unfold rhs_ok in *. cbn [rhs set_index lhs_value_type lhs_field ca_write].
    destruct (rhs a); [destruct Hr as (? & ? & Hw); split_and!; try done
                      |destruct Hr as (? & Hw); split; try done..]; by eapply writes_shape; [..|exact Hw].
Qed.

(** *** Next-header assignments *)

Lemma nexthdr_from_type_ok s dst dpos th a :
  0 <= dpos → s !! Z.to_nat dpos = Some (n_id dst) →
  assign_nexthdrid_from_header_type dst dpos th = Good a → assign_ok s a.
Proof.
  intros Hp Hs H. unfold assign_nexthdrid_from_header_type in H.
  destruct (get_nexthdr _) as [f|] eqn:Eg; [|done].
  destruct (protocol_get_field_by_type (n_id dst) PFTYPE_NEXTHEADER) as [dstf|] eqn:Ef; [|done].
  destruct (f (n_id th)) as [num|] eqn:En; [|done]. cbn [mbind res_bind or_err] in H.
  pose proof (field_type_ok _ _ _ Ef) as (_ & ? & ? & ?). pose proof (plen_bound (n_id dst)).
  destruct (prepare_constant_ok (pf_bitoffset dstf) (pf_bitcount dstf) num ltac:(lia) ltac:(lia)
              (nexthdr_range _ _ _ _ Eg En)) as (r & Er & Hv). rewrite Er in H.
  destruct r as [v|]; [|done]. res_inv H. apply or_err_Good in E. injection H as <-.
  split; [by eapply type_field_ok|]. cbn. split; [by apply Hv|]. by apply writes_intro.
Qed.

Lemma nexthdr_copy_ok s dst dpos src spos a :
  0 <= dpos → s !! Z.to_nat dpos = Some (n_id dst) → 0 <= spos → s !! Z.to_nat spos = Some (n_id src) →
  assign_nexthdrid_copy_from_srcheader dst dpos src spos = Good a → assign_ok s a.
Proof.
  intros Hp Hs Hp' Hs' H. unfold assign_nexthdrid_copy_from_srcheader in H. res_inv H.
  destruct (protocol_get_field_by_type (n_id dst) PFTYPE_NEXTHEADER) as [dstf|] eqn:Ed; [|done].
  destruct (protocol_get_field_by_type (n_id src) PFTYPE_NEXTHEADER) as [srcf|] eqn:Es; [|done].
  res_inv H. apply or_err_Good in E0, E1. injection H as <-.
  split; [by eapply type_field_ok|]. cbn. split_and!.
  - apply source_field_of_ok. by eapply type_field_ok.
  - unfold header_get_field_reader in E0. destruct (negb _); by simplify_eq.
  - exact (writes_intro _ _ _ E1).
Qed.

Lemma add_defaults_ok s k nm id :
  s !! k = Some id → Forall (assign_ok s) (add_defaults (Z.of_nat k) nm id).
Proof.
  intros Hk. unfold add_defaults. set (d := default_value _).
  assert (Z.of_nat (length d) <= plen id) as Hd.
  { pose proof (protocol_from_id_ok id) as H. unfold table_ok in H.
    apply andb_true_iff in H as [_ H]. by apply Z.leb_le in H. }
  destruct d as [|x d'] eqn:Ed; [constructor|]. rewrite <- Ed in *.
  destruct (header_get_field_writer _ _) as [w|] eqn:Ew; [|constructor].
  constructor; [|constructor]. split.
  - assert (0 < Z.of_nat (length d)) by (rewrite Ed; cbn; lia).
    split_and!; cbn; try lia. exists id. rewrite Nat2Z.id. split; [done|lia].
  - cbn. split; [|exact (writes_intro _ _ _ Ew)].
    eexists. cbn. split_and!; try done; try lia.
    unfold d. destruct id; (repeat constructor; unfold is_u8; lia).
Qed.

End typing.
End Typing.
