(* ===== verification/ConfSound.v ===== *)
(** * The translation of action lines produces well-typed pipelines

    Every operation of the translation keeps the completed actions well typed
    ([Typing.good]) and the action in progress consistent with the header list
    ([Typing.in_progress]). *)

From S2P Require Import Prelude TimeUtils CString Protocol Packet HeaderField ParseTree Action ConfUtils ConfActions ConfPipeline ConfTyping.
Import Time CStr Proto Pkt Field Parse Act ConfU ConfA ConfP Typing.

Module Sound.

#[local] Open Scope list_scope.
#[local] Open Scope Z_scope.

Section sound.
Context (c : Conf).
Context (rec : string → StageState → Res StageState).

Lemma stack_matches_starts p hs : stack_matches p hs = true → starts_with p (n_id <$> hs).
Proof.
  revert hs. induction p as [|id p IH]; intros hs H; cbn in *; [done|].
  destruct (decide (id = PROTO_ID_PAYLOAD)); [by left|]. right.
  destruct hs as [|h hs]; [done|]. destruct (decide (n_id h = id)) as [<-|]; [|done]. cbn. auto.
Qed.

Lemma check_stack_ok st p : check_header_stack_for_oam (headers st) = Some p → detect_ok (ids st) p.
Proof.
  unfold check_header_stack_for_oam. destruct (list_find _ _) as [[i q]|] eqn:E; [|done].
  intros [= <-]. apply list_find_Some in E as (Hl & Hm & _). split.
  - by eapply list_elem_of_lookup_2.
  - by apply stack_matches_starts.
Qed.

(** ** Complete actions *)

(** The newest action has been completed to [a], which keeps the stack. *)
Definition completes (st st' : StageState) : Prop :=
  ∃ a, actions st' = a :: tail (actions st) ∧ act_typed c (ids st) a (ids st) ∧ headers st' = headers st.

Lemma process_oam_ok st o b o' st' :
  process_oam st o b = Good (o', st') →
  detect_ok (ids st) (mp_protostack o') ∧ headers st' = headers st ∧ actions st' = actions st.
Proof.
  unfold process_oam. intros H. res_inv H. apply or_err_Good, check_stack_ok in E1.
  destruct b; [|by injection H as <- <-].
  unfold find_addressing_for_mp in H. res_inv H. destruct r2 as [addrs mws]. by injection H as <- <-.
Qed.

Lemma payload_position_bound i hs :
  i <= payload_position i hs <= i + Z.of_nat (length hs).
Proof.
  revert i. induction hs as [|h hs IH]; intros i; cbn; [lia|]. destruct (decide _); [lia|].
  specialize (IH (i + 1)). lia.
Qed.

Lemma process_setlength_ok st h st' : process_setlength st h = Good st' → completes st st'.
Proof.
  unfold process_setlength. intros H. res_inv H. destruct r0 as [i n]. res_inv H. destruct r0 as [fname base].
  apply or_err_Good in E1. destruct (header_index_spec _ _ _ _ E0) as [Hi Hn].
  destruct (protocol_get_field_by_name _ _) as [f|] eqn:Ef; [|done]. injection H as <-.
  eexists. split_and!; [done| |done]. constructor. cbn [leaf_ok].
  destruct (field_name_ok _ _ _ Ef) as (? & ? & ?). split_and!.
  - eapply new_field_ok; eauto using ids_lookup.
  - exact (length_field_ok _ _ _ _ E1 Ef).
  - apply payload_position_bound.
  - unfold ids. rewrite length_fmap. pose proof (payload_position_bound 0 (headers st)). lia.
Qed.

Lemma completes_same st a :
  actions st ≠ [] → newaction st = a → act_typed c (ids st) a (ids st) →
  ∀ st', actions st' = actions st → headers st' = headers st → completes st st'.
Proof.
  intros Hne <- Ht st' Ha Hh. exists (newaction st). split_and!; [|done..].
  rewrite Ha. unfold newaction. by destruct (actions st).
Qed.

Lemma process_leaf_ok st st' :
  actions st ≠ [] → partial c (ids st) (newaction st) → process_leaf st = Good st' → completes st st'.
Proof.
  intros Hne Hp H. unfold process_leaf in H. destruct (newaction st) as [] eqn:Ea; cbn [partial] in Hp; try done.
  - res_inv H. injection H as <-. apply or_err_Good in E.
    eapply completes_same; eauto. constructor. cbn. destruct Hp; [congruence|done].
  - unfold process_delay in H. res_inv H. apply check_Good, negb_true_iff in E, E0.
    destruct offl; [|res_inv H]; injection H as <-; (eapply completes_same; eauto); by constructor.
  - injection H as <-. eapply completes_same; eauto. by constructor.
  - destruct l as [|x l]; [done|]. good_subst H.
    eexists. split_and!; [done| |done]. constructor. cbn [leaf_ok]. split.
    + intros E. apply (f_equal (@rev _)) in E. by rewrite rev_involutive in E.
    + by apply Forall_rev.
  - injection H as <-. eapply completes_same; eauto. by constructor.
  - res_inv H. destruct r as [o' st1]. apply process_oam_ok in E as (? & ? & E). injection H as <-.
    eexists. split_and!; [cbn; by rewrite E| |done]. by constructor.
  - res_inv H. destruct r as [o' st1]. apply process_oam_ok in E as (? & ? & E). injection H as <-.
    eexists. split_and!; [cbn; by rewrite E| |done]. by constructor.
  - res_inv H. destruct r as [o' st1]. apply process_oam_ok in E as (? & ? & E). injection H as <-.
    eexists. split_and!; [cbn; by rewrite E| |done]. by constructor.
  - res_inv H. injection H as <-. apply or_err_Good in E as ->. eapply completes_same; eauto. by constructor.
  - res_inv H. injection H as <-. apply or_err_Good in E as ->. eapply completes_same; eauto. constructor. cbn. auto.
  - res_inv H. injection H as <-. apply or_err_Good in E as ->. eapply completes_same; eauto. constructor. cbn. auto.
  - destruct branches as [|b br]; [done|]. good_subst H.
    eexists. split_and!; [done| |done]. apply t_repl.
    + intros p. apply check_stack_ok.
    + intros E. apply (f_equal (@rev _)) in E. by rewrite rev_involutive in E.
    + intros nm l m Hin. apply (Hp nm l m). by apply list_elem_of_In, in_rev, list_elem_of_In.
  - res_inv H. injection H as <-. apply or_err_Good in E as ->. eapply completes_same; eauto. by constructor.
  - by eapply process_setlength_ok.
  - res_inv H. injection H as <-. eapply completes_same; eauto. by constructor.
  - res_inv H. injection H as <-. apply or_err_Good in E as ->. eapply completes_same; eauto. constructor. cbn.
    destruct Hp as [Hf Hc]. destruct (Hf _ eq_refl). auto.
  - res_inv H. injection H as <-. apply or_err_Good in E.
    eapply completes_same; eauto. constructor. cbn. destruct Hp; [congruence|done].
  - res_inv H. injection H as <-. apply or_err_Good in E as ->. eapply completes_same; eauto. constructor. cbn. auto.
  - res_inv H. injection H as <-. apply or_err_Good in E as ->. eapply completes_same; eauto. constructor. cbn. auto.
Qed.

(** A generated action on top of the others. *)
Lemma push_leaf_ok st a st' :
  partial c (ids st) a → process_leaf (new_confaction st a) = Good st' →
  ∃ a', actions st' = a' :: actions st ∧ act_typed c (ids st) a' (ids st) ∧ headers st' = headers st.
Proof. intros Hp H. apply process_leaf_ok in H; [exact H | done | exact Hp]. Qed.

Lemma good_push s0 st a st' :
  good c s0 st → act_typed c (ids st) a (ids st') → actions st' = a :: actions st → good c s0 st'.
Proof. intros Hg Ht Ha. unfold good. rewrite Ha. cbn [rev]. by eapply acts_typed_snoc. Qed.

Lemma push_leaf_good s0 st a st' :
  good c s0 st → partial c (ids st) a → process_leaf (new_confaction st a) = Good st' →
  good c s0 st' ∧ headers st' = headers st.
Proof.
  intros Hg Hp H. destruct (push_leaf_ok _ _ _ Hp H) as (a' & Ea & Ht & Eh). split; [|done].
  eapply good_push; eauto. unfold ids. by rewrite Eh.
Qed.

(** An edit action is only reversed. *)
Lemma push_edit st l st' :
  process_leaf (new_confaction st (CA_EDIT l)) = Good st' →
  l ≠ [] ∧ st' = new_confaction st (CA_EDIT (rev l)).
Proof.
  change (process_leaf (new_confaction st (CA_EDIT l)))
    with (match l with [] => Err | _ => Good (new_confaction st (CA_EDIT (rev l))) end).
  destruct l as [|a l]; [done|]. cbv iota. intros H. by good_subst H.
Qed.

(** *** Adding a header *)

Lemma add_metadata_ok s0 st id k st' :
  good c s0 st → ids st !! k = Some id → add_metadata st id (Z.of_nat k) = Good st' →
  good c s0 st' ∧ headers st' = headers st.
Proof.
  intros Hg Hk H. unfold add_metadata in H. res_inv H.
  assert (∀ t f, protocol_get_field_by_type id t = Some f →
    t ∈ [PFTYPE_TSNSEQ; PFTYPE_SRV6SEQ; PFTYPE_TSNTSTAMP] → meta_ok (ids st) (new_headerfield (Z.of_nat k) f)) as Hm.
  { intros t f Hf Ht. eapply type_meta_ok; eauto; [lia|]. by rewrite Nat2Z.id. }
  assert (good c s0 r ∧ headers r = headers st) as [Hg1 Eh1].
  { destruct (protocol_get_field_by_type id PFTYPE_TSNSEQ) as [f|] eqn:Ef; [|by injection E as <-].
    res_inv E. apply (push_leaf_good _ _ _ _ Hg) in E; [done|].
    intros g [= <-]. eapply Hm; [exact Ef|]. set_solver. }
  destruct (protocol_get_field_by_type id PFTYPE_TSNTSTAMP) as [f|] eqn:Ef; [|by injection H as <-].
  assert (ids r = ids st) as Ei by (unfold ids; by rewrite Eh1).
  apply (push_leaf_good _ _ _ _ Hg1) in H; [by rewrite <- Eh1|].
  rewrite Ei. intros g [= <-]. eapply Hm; [exact Ef|]. set_solver.
Qed.

Lemma add_edit_ok s s' new k nm prev next user l :
  s' !! k = Some (n_id new) →
  (∀ p, prev = Some p → (0 < k)%nat ∧ s' !! (k - 1)%nat = Some (n_id p)) →
  Forall (new_assign_ok c s (n_id new)) user → (length s <= length s')%nat →
  add_edit new (Z.of_nat k) nm prev next user = Good l → Forall (assign_ok c s') l.
Proof.
  intros Hk Hprev Hu Hlen H. unfold add_edit in H. res_inv H. good_subst H.
  assert (∀ th a, assign_nexthdrid_from_header_type new (Z.of_nat k) th = Good a → assign_ok c s' a) as Hnew.
  { intros th a. apply nexthdr_from_type_ok; [lia|]. by rewrite Nat2Z.id. }
  apply Forall_app. split; [|apply Forall_app; split; [|apply Forall_app; split]].
  - apply Forall_forall. intros a Ha. apply list_elem_of_In, in_map_iff in Ha as (b & <- & Hb%list_elem_of_In).
    rewrite Forall_forall in Hu. eapply set_index_ok; eauto.
  - unfold add_prev_nexthdr in E0. destruct prev as [p|]; [|by injection E0 as <-].
    destruct (has_nexthdr p); [|by injection E0 as <-]. res_inv E0. injection E0 as <-.
    destruct (Hprev p eq_refl) as [? Hp]. constructor; [|constructor].
    eapply nexthdr_from_type_ok; [| |exact E1]; [lia|]. by replace (Z.to_nat _) with (k - 1)%nat by lia.
  - unfold add_nexthdr in E. destruct (negb _); [by injection E as <-|].
    destruct (existsb _ _); [by injection E as <-|].
    destruct next as [n|]; [res_inv E; injection E as <-; eauto|].
    destruct prev as [p|]; [|done]. res_inv E. injection E as <-. destruct (Hprev p eq_refl) as [? Hp].
    constructor; [|constructor]. eapply nexthdr_copy_ok; [| | | |exact E1]; try lia.
    + by rewrite Nat2Z.id.
    + by replace (Z.to_nat _) with (k - 1)%nat by lia.
  - by apply add_defaults_ok.
Qed.

Lemma process_add_ok s0 st a st' :
  in_progress c s0 st → newaction st = CA_ADD a → process_add st a = Good st' → good c s0 st'.
Proof.
  intros (Hne & Ht & Hp) Ea H. rewrite Ea in Hp. destruct Hp as (_ & Hlen & Hassign).
  unfold process_add in H. res_inv H. destruct r1 as [p n]. res_inv H.
  apply or_err_Good in E, E0. destruct (header_index_spec _ _ _ _ E1) as [Hp0 Hpn].
  assert (0 <= r1 <= Z.of_nat (length (headers st))) as Hi.
  { apply lookup_lt_Some in Hpn. destruct (beforeafter a); simplify_eq; lia. }
  set (k := Z.to_nat r1) in *. set (new := mk_node (next_uid st) (mk_desc r (add_id a) [])) in *.
  assert (r1 = Z.of_nat k) as Er by lia.
  match type of E3 with add_metadata ?s _ _ = _ => set (st1 := s) in * end.
  assert (ids st1 = take k (ids st) ++ add_id a :: drop k (ids st)) as Eids.
  { unfold ids, st1. cbn. by rewrite fmap_app, fmap_cons, fmap_take, fmap_drop. }
  assert (length (ids st) = length (headers st)) as El by apply length_fmap.
  assert (ids st1 !! k = Some (n_id new)) as Hk.
  { rewrite Eids, lookup_app_r; rewrite length_take, Nat.min_l by lia; [|lia]. by rewrite Nat.sub_diag. }
  assert (good c s0 st1) as Hg1.
  { unfold good. rewrite Eids. unfold st1. cbn [actions rev]. eapply acts_typed_snoc; [exact Ht|].
    exact (t_add c (ids st) (a <| pos_idx := r1 |> <| add_assignments := [] |>) k Er ltac:(lia) (Hlen _ E)). }
  rewrite Er in E3, E4.
  destruct (add_metadata_ok _ _ _ _ _ Hg1 Hk E3) as [Hg2 Eh2].
  assert (ids r2 = ids st1) as E2i by (unfold ids; by rewrite Eh2).
  assert (Forall (assign_ok c (ids st1)) r3) as Hedits.
  { eapply (add_edit_ok (ids st) (ids st1) new k); [done| |exact Hassign| |exact E4].
    - intros q Hq. destruct (Z.eqb_spec (Z.of_nat k) 0); [done|]. split; [lia|].
      rewrite Eids, lookup_app_l by (rewrite length_take; lia). rewrite lookup_take_lt by lia.
      by apply ids_lookup.
    - rewrite Eids, length_app. cbn. rewrite length_take, length_drop. lia. }
  destruct r3 as [|e r3]; [by injection H as <-|].
  apply (push_leaf_good _ _ _ _ Hg2) in H; [by destruct H|]. cbn [partial]. by rewrite E2i.
Qed.

(** *** Deleting a header *)

(** Actions that keep the stack, in front of the newest one. *)
Lemma del_filter_ok st n k st' :
  ids st !! k = Some (n_id n) → del_filter st n (Z.of_nat k) = Good st' → actions st ≠ [] →
  headers st' = headers st ∧
  ∃ l, actions st' = newaction st :: l ++ tail (actions st) ∧ acts_typed c (ids st) (rev l) (ids st).
Proof.
  intros Hk H Hne. unfold del_filter in H. destruct (actions st) as [|a0 rest] eqn:Ea; [done|].
  unfold newaction. rewrite Ea. cbn [head default tail].
  destruct (protocol_get_field_by_type (n_id n) PFTYPE_TSNSEQ) as [f|] eqn:Ef.
  - res_inv H. apply push_leaf_ok in E as (a' & Ea' & Ht & Eh).
    2: { eapply type_meta_ok; [| |exact Ef|set_solver]; [lia|]. by rewrite Nat2Z.id. }
    good_subst H. split; [done|]. exists [a']. unfold swap_new. cbn. rewrite Ea', Ea. split; [done|].
    econstructor; [exact Ht|constructor].
  - injection H as <-. split; [done|]. exists []. split; [done|constructor].
Qed.

Lemma del_nexthdr_ok s prev k n next l :
  s !! k = Some (n_id n) → (∀ p, prev = Some p → (0 < k)%nat ∧ s !! (k - 1)%nat = Some (n_id p)) →
  del_nexthdr prev (Z.of_nat k) n next = Good l → Forall (assign_ok c s) l.
Proof.
  intros Hk Hprev H. unfold del_nexthdr in H. destruct prev as [p|]; [|by injection H as <-].
  destruct (has_nexthdr p); [|by injection H as <-]. destruct (Hprev p eq_refl) as [? Hp].
  destruct next as [nx|]; res_inv H; injection H as <-; (constructor; [|constructor]).
  - eapply nexthdr_from_type_ok; [| |exact E]; [lia|]. by replace (Z.to_nat _) with (k - 1)%nat by lia.
  - eapply nexthdr_copy_ok; [| | | |exact E]; try lia.
    + by replace (Z.to_nat _) with (k - 1)%nat by lia.
    + by rewrite Nat2Z.id.
Qed.

Lemma process_del_ok s0 st h st' :
  in_progress c s0 st → process_del st h = Good st' → good c s0 st'.
Proof.
  intros (Hne & Ht & _) H. unfold process_del in H. res_inv H. destruct r0 as [i n]. res_inv H.
  destruct (header_index_spec _ _ _ _ E0) as [Hi Hn].
  set (k := Z.to_nat i) in *. assert (i = Z.of_nat k) as Ei by lia.
  pose proof (lookup_lt_Some _ _ _ Hn) as Hlt.
  assert (ids st !! k = Some (n_id n)) as Hk by by apply ids_lookup.
  assert (length (ids st) = length (headers st)) as El by apply length_fmap.
  rewrite Ei in E1, E2.
  destruct (del_filter_ok (set_new st (CA_DEL h (Z.of_nat k))) n k r0 Hk E1 ltac:(done)) as (Eh & l & Ea & Hl).
  cbn in Ea. change (ids (set_new st _)) with (ids st) in Hl.
  assert (Forall (assign_ok c (ids st)) r1) as Hedits.
  { eapply del_nexthdr_ok; [exact Hk| |exact E2]. intros p Hp.
    destruct (Z.eqb_spec (Z.of_nat k) 0); [done|]. split; [lia|]. by apply ids_lookup. }
  assert (∀ m st2, actions st2 = CA_DEL h (Z.of_nat k) :: m ++ tail (actions st) →
    headers st2 = take k (headers st) ++ drop (S k) (headers st) →
    acts_typed c (ids st) (rev m) (ids st) → good c s0 st2) as Hfinal.
  { intros m st2 Ea2 Eh2 Hm. unfold good. rewrite Ea2. cbn [rev]. rewrite rev_app_distr.
    eapply acts_typed_snoc; [by eapply acts_typed_app|].
    assert (ids st2 = take k (ids st) ++ drop (S k) (ids st)) as ->
      by (unfold ids; rewrite Eh2, fmap_app, fmap_take, fmap_drop; done).
    apply t_del. lia. }
  destruct r1 as [|e r1]; [good_subst H; by eapply (Hfinal l)|].
  res_inv H. apply push_edit in E3 as [_ ->]. good_subst H.
  apply (Hfinal (CA_EDIT (rev (e :: r1)) :: l)); [unfold swap_new, new_confaction; cbn; by rewrite Ea | done |].
  change (rev (CA_EDIT (rev (e :: r1)) :: l)) with (rev l ++ [CA_EDIT (rev (e :: r1))]).
  eapply acts_typed_snoc; [exact Hl|]. constructor. cbn [leaf_ok]. split; [|by apply Forall_rev].
  intros Er. apply (f_equal (@rev _)) in Er. by rewrite rev_involutive in Er.
Qed.

(** *** Jumps, maintenance points, elimination, sending *)

Hypothesis rec_ok : ∀ line s0 st st', good c s0 st → rec line st = Good st' → good c s0 st'.

Lemma process_jump_ok s0 st p st' :
  acts_typed c s0 (rev (tail (actions st))) (ids st) → process_jump c rec st p = Good st' → good c s0 st'.
Proof.
  intros Ht H. unfold process_jump in H. res_inv H.
  apply (rec_ok _ (ids st)) in E2; [|constructor].
  assert (∀ st2, actions st2 = actions r2 ++ tail (actions st) → ids st2 = ids r2 → good c s0 st2) as K.
  { intros st2 Ea Ei. unfold good. rewrite Ea, Ei, rev_app_distr. by eapply acts_typed_app. }
  destruct (actions r2) as [|a l]; [done|]. good_subst H. by apply K.
Qed.

Lemma or_crash_Good {A} (r : Res A) a : or_crash r = Good a → r = Good a.
Proof. by destruct r. Qed.

Lemma automip_ok st strm o post st' :
  automip st strm o post = Good st' →
  ∃ a', actions st' = a' :: actions st ∧ act_typed c (ids st) a' (ids st) ∧ headers st' = headers st.
Proof. unfold automip. intros H%or_crash_Good. by apply push_leaf_ok in H. Qed.

(** The newest action stays the newest. *)
Lemma automip_before_ok s0 st o st' :
  in_progress c s0 st → automip_before st o = Good st' →
  in_progress c s0 st' ∧ headers st' = headers st ∧ newaction st' = newaction st.
Proof.
  intros (Hne & Ht & Hp) H. unfold automip_before in H. res_inv H. good_subst H.
  apply automip_ok in E as (a' & Ea & Ha & Eh). unfold in_progress, swap_new, newaction in *. cbn. rewrite Ea.
  destruct (actions st) as [|a l]; [done|]. cbn in *. unfold ids in *. cbn. rewrite Eh.
  split_and!; try done. by eapply acts_typed_snoc.
Qed.

Lemma process_elim_ok s0 st r p st' :
  in_progress c s0 st → process_elim c rec st r p = Good st' → good c s0 st'.
Proof.
  intros (Hne & Ht & _) H. unfold process_elim in H. res_inv H. apply or_err_Good in E as ->, E0 as ->.
  set (st1 := set_new st _) in *.
  assert (act_typed c (ids st) (newaction st1) (ids st)) as Helim.
  { constructor. cbn. intros p'. apply check_stack_ok. }
  assert (in_progress c s0 st1) as Hst1 by done.
  assert (good c s0 st1) as Hg1 by by eapply acts_typed_snoc.
  eapply process_jump_ok; [|exact H]. cbn [actions tail new_confaction].
  destruct (o_mip r0 >=? 0); [|by injection E2 as <-]. res_inv E2.
  destruct (automip_before_ok _ _ _ _ Hst1 E) as ((Hne2 & Ht2 & _) & Eh2 & En2).
  apply automip_ok in E2 as (a' & Ea & Ha & Eh).
  assert (ids r3 = ids st) as Ei3 by (unfold ids; by rewrite Eh, Eh2).
  assert (ids r = ids st) as Ei4 by (unfold ids; by rewrite Eh2).
  change (acts_typed c s0 (rev (actions r3)) (ids r3)).
  rewrite Ea, Ei3. rewrite Ei4 in Ha, Ht2. cbn [rev]. eapply acts_typed_snoc; [|exact Ha].
  unfold newaction in En2. destruct (actions r) as [|b l]; [done|]. cbn in En2, Ht2 |- *.
  eapply acts_typed_snoc; [exact Ht2|]. rewrite En2. done.
Qed.

Lemma process_send_ok s0 st i st' :
  in_progress c s0 st → newaction st = CA_SEND i → process_send st i = Good st' → good c s0 st'.
Proof.
  intros (Hne & Ht & _) Ea H. unfold process_send in H. res_inv H. apply or_err_Good in E as ->.
  destruct (actions st) as [|a l] eqn:Eact; [done|]. unfold newaction in Ea. rewrite Eact in Ea. cbn in Ea, Ht. subst a.
  assert (good c s0 st) as Hg. { unfold good. rewrite Eact. cbn. eapply acts_typed_snoc; [exact Ht|]. by constructor. }
  set (st1 := if had_delay_offload st then _ else _) in *.
  assert (actions st1 = actions st ∧ headers st1 = headers st) as [Ea1 Eh1]
    by (unfold st1; by destruct (had_delay_offload st)).
  destruct (needs_ttlcheck st1).
  - res_inv H. apply push_leaf_ok in E as (a' & Ea' & Ha' & Eh'); [|done]. good_subst H.
    assert (ids r0 = ids st) as Ei by (unfold ids; by rewrite Eh', Eh1).
    assert (ids st1 = ids st) as Ei1 by (unfold ids; by rewrite Eh1).
    unfold good, swap_new. cbn [actions]. rewrite Ea', Ea1, Eact. cbn [confaction_swap_with_next].
    change (ids _) with (ids r0). rewrite Ei. rewrite Ei1 in Ha'.
    change (rev (CA_SEND (Some r) :: a' :: l)) with ((rev l ++ [a']) ++ [CA_SEND (Some r)]).
    eapply acts_typed_snoc; [by eapply acts_typed_snoc|]. by constructor.
  - injection H as <-. unfold good, ids. rewrite Ea1, Eh1. exact Hg.
Qed.

Lemma process_action_ok s0 st st' :
  in_progress c s0 st → process_action c rec st = Good st' → good c s0 st'.
Proof.
  intros Hip H. unfold process_action in H. pose proof Hip as (Hne & Ht & Hp).
  destruct (newaction st) eqn:Ea;
    try (by eapply process_add_ok); try (by eapply process_del_ok); try (by eapply process_elim_ok);
    try (by eapply process_jump_ok); try (by eapply process_send_ok).
  all: apply process_leaf_ok in H as (a' & Ea' & Ha & Eh); [|done | by rewrite Ea].
  all: unfold good, ids; rewrite Ea', Eh; cbn [rev]; by eapply acts_typed_snoc.
Qed.

(** ** Tokens *)

Lemma set_new_ok s0 st a :
  in_progress c s0 st → partial c (ids st) a → in_progress c s0 (set_new st a).
Proof. by intros (Hne & Ht & _) Hp. Qed.

Lemma use_replobj_ok s0 st br o st' :
  in_progress c s0 st → partial c (ids st) (CA_REPL br (Some o) None) →
  use_replobj st br o = Good st' → in_progress c s0 st'.
Proof.
  intros Hip Hp H. unfold use_replobj in H.
  assert (in_progress c s0 (set_new st (CA_REPL br (Some o) None))) as Hip1 by by apply set_new_ok.
  destruct (o_mip o >? 0); [|by injection H as <-]. by apply (automip_before_ok _ _ _ _ Hip1) in H as (? & _ & _).
Qed.

Lemma keyword_ok s tok a : keyword tok = Some a → partial c s a.
Proof.
  unfold keyword. destruct (list_find _ _) as [[i kv]|] eqn:E; [|done]. intros [= <-].
  apply list_find_Some in E as (Hl & _ & _). apply list_elem_of_lookup_2 in Hl. revert kv Hl.
  apply Forall_forall. repeat (apply Forall_cons; split); [..|by constructor].
  all: cbn; try done; try (by left); try (by constructor); try (intros nm l m Hin; by apply elem_of_nil in Hin).
  all: repeat split; try done; by constructor.
Qed.

Lemma token_undef_ok s0 st tok st' :
  in_progress c s0 st → token_undef c st tok = Good st' → in_progress c s0 st'.
Proof.
  intros Hip H. unfold token_undef in H. destruct (keyword tok) as [a|] eqn:Ek.
  - injection H as <-. apply set_new_ok; [done|]. by eapply keyword_ok.
  - destruct (get_object c tok) as [o|].
    + destruct (o_type o); [by injection H as <-; apply set_new_ok..|].
      eapply use_replobj_ok; [done| |exact H]. intros nm l m Hin. by apply elem_of_nil in Hin.
    + res_inv H. injection H as <-. by apply set_new_ok.
Qed.

Lemma token_add_ok s0 st a tok st' :
  in_progress c s0 st → newaction st = CA_ADD a → token_add c st a tok = Good st' → in_progress c s0 st'.
Proof.
  intros Hip Ea H. pose proof Hip as (_ & _ & Hp). rewrite Ea in Hp. destruct Hp as (Hnil & Hlen & Hall).
  unfold token_add in H.
  destruct (pos a); [|res_inv H; destruct r as [i n]; good_subst H; by apply set_new_ok].
  destruct (was_add a); [|res_inv H; good_subst H; by apply set_new_ok].
  destruct (newname a) as [nm|] eqn:En; res_inv H.
  - destruct r as [l rr]. res_inv H. good_subst H. apply or_err_Good in E0.
    destruct (field_name_ok _ _ _ E0) as (? & ? & ?).
    apply set_new_ok; [done|]. cbn. rewrite En. split_and!; [done | done|].
    constructor; [|done]. split; [|split; [done|]].
    + by eapply new_field_ok.
    + eapply (process_rhs_ok c st (mk_lhs _ _ _ _ _)); [|exact E1]. by eapply sized_field.
  - good_subst H. apply set_new_ok; [done|]. cbn. rewrite (Hnil eq_refl). by split_and!.
Qed.

Lemma last_ip_ok n i acc hs ip v k :
  0 <= i → last_ip n i acc hs = Some (ip, v) → k = Z.to_nat (ip - i) →
  acc = Some (ip, v) ∨
  (i <= ip < i + Z.of_nat n ∧ (∃ h, hs !! k = Some h ∧ n_id h = v) ∧ v ∈ [PROTO_ID_IPv4; PROTO_ID_IPv6]).
Proof.
  intros Hi. revert i acc hs k Hi. induction n as [|n IH]; intros i acc hs k Hi H Ek; cbn in H; [by left|].
  destruct hs as [|h hs]; [by left|].
  destruct (IH (i + 1) _ hs (Z.to_nat (ip - (i + 1))) ltac:(lia) H eq_refl) as [Ha|(Hr & Hh & Hv)].
  - destruct (decide _) as [Hd|]; [|by left]. simplify_eq. right. split_and!; [lia | lia | |].
    + exists h. by rewrite Z.sub_diag.
    + destruct Hd as [->| ->]; set_solver.
  - right. split_and!; [lia | lia | | done]. subst k.
    by replace (Z.to_nat (ip - i)) with (S (Z.to_nat (ip - (i + 1)))) by lia.
Qed.

Lemma token_checksum_ok st d tok d' :
  token_checksum st d tok = Good d' → csum_ok (ids st) d'.
Proof.
  unfold token_checksum. intros H. destruct (cs_field d); [done|]. res_inv H. destruct r as [i n]. res_inv H.
  apply or_err_Good in E0. destruct (find_header_spec _ _ _ _ E) as [Hi Hn].
  unfold header_get_field_of_type in E0.
  destruct (protocol_get_field_by_type (n_id n) PFTYPE_CHECKSUM) as [f|] eqn:Ef; [|done]. injection E0 as <-.
  assert (ids st !! Z.to_nat i = Some (n_id n)) as Hid by by apply ids_lookup.
  assert (field_ok (ids st) (new_headerfield i f)) as Hf by by eapply type_field_ok.
  assert (∀ r, checksum_proto (n_id n) → ('(ip, v) ← or_err (last_ip (Z.to_nat i) 0 None (headers st));
      Good (mk_csumd (Some (new_headerfield i f)) (n_id n) ip v)) = Good r → csum_ok (ids st) r) as Hl4.
  { intros r Hp Hr. res_inv Hr. destruct r0 as [ip v]. good_subst Hr. apply or_err_Good in E0.
    destruct (last_ip_ok _ 0 None _ _ _ _ ltac:(lia) E0 eq_refl) as [?|(? & (h & Hh & <-) & Hv)]; [done|].
    eexists. cbn. split_and!; [done..|]. right. rewrite Z.sub_0_r in Hh.
    unfold new_headerfield; cbn [header_idx]; split_and!; [done | lia | lia | by apply ids_lookup | done]. }
  destruct (n_id n) eqn:Eid; try done.
  - good_subst H. eexists. split_and!; [done | done | done | by left].
  - by apply Hl4; [unfold checksum_proto; set_solver|].
  - by apply Hl4; [unfold checksum_proto; set_solver|].
  - by apply Hl4; [unfold checksum_proto; set_solver|].
  - by apply Hl4; [unfold checksum_proto; set_solver|].
Qed.

Lemma token_edit_ok s0 st l tok st' :
  in_progress c s0 st → newaction st = CA_EDIT l → token_edit c st l tok = Good st' → in_progress c s0 st'.
Proof.
  intros (Hne & Ht & Hp) Ea H. rewrite Ea in Hp. unfold token_edit in H. res_inv H. destruct r as [a b].
  res_inv H. destruct r as [lhs st1]. res_inv H. good_subst H.
  destruct (process_lhs_ok _ _ _ _ E0) as (Hf & Hs & Eh & Ea1).
  assert (ids st1 = ids st) as Ei by (unfold ids; by rewrite Eh).
  pose proof (process_rhs_ok c _ _ _ _ Hs E1) as Hr. rewrite Ei in Hr.
  split; [done|]. unfold set_new. cbn [actions]. change (ids _) with (ids st1). rewrite Ei, Ea1.
  split; [done|]. constructor; [|done]. by split.
Qed.

Lemma token_meta_ok st cur seq tok f :
  token_meta st cur seq tok = Good f → meta_ok (ids st) f.
Proof.
  unfold token_meta. intros H. destruct cur; [done|]. res_inv H. destruct r as [i n].
  destruct (find_header_spec _ _ _ _ E) as [Hi Hn]. apply ids_lookup in Hn.
  unfold header_get_field_of_type in H.
  set (t := if seq then PFTYPE_TSNSEQ else PFTYPE_TSNTSTAMP) in *.
  assert (t ∈ [PFTYPE_TSNSEQ; PFTYPE_SRV6SEQ; PFTYPE_TSNTSTAMP]) by (unfold t; destruct seq; apply list_elem_of_In; cbn; auto).
  destruct (protocol_get_field_by_type (n_id n) t) as [g|] eqn:Eg; cbn [fmap option_fmap option_map] in H.
  - injection H as <-. by eapply type_meta_ok.
  - destruct seq; [|done]. apply or_err_Good in H.
    destruct (protocol_get_field_by_type (n_id n) PFTYPE_SRV6SEQ) as [g|] eqn:Eg2; [|done].
    injection H as <-. eapply type_meta_ok; [done|done|exact Eg2|]. apply list_elem_of_In. cbn. auto.
Qed.

Lemma copy_nodes_ids u l l' : copy_nodes u l = Some l' → n_id <$> l' = n_id <$> l.
Proof.
  revert u l'. induction l as [|n l IH]; intros u l'; cbn; [by intros [= <-]|].
  destruct (copy_match_list _); [|done]. cbn. destruct (copy_nodes (S u) l) eqn:E; [|done].
  intros [= <-]. cbn. by rewrite (IH _ _ E).
Qed.

Lemma branch_state_ok st tok p : branch_state st tok = Good p → ids p = ids st ∧ actions p = [].
Proof.
  unfold branch_state. intros H. res_inv H. destruct (copy_nodes _ _) eqn:Ec; [|done]. injection E as ->.
  good_subst H. split; [|done]. exact (copy_nodes_ids _ _ _ Ec).
Qed.

Lemma token_branch_ok s0 st br o line tok masked st' :
  in_progress c s0 st → (∀ p o', partial c (ids st) (CA_REPL br o' p)) →
  token_branch rec st br o line tok masked = Good st' → in_progress c s0 st'.
Proof.
  intros (Hne & Ht & _) Hp H. unfold token_branch in H. res_inv H.
  destruct (branch_state_ok _ _ _ E0) as [Ei Ea].
  assert (good c (ids st) r1) as Hg1.
  { destruct o as [obj|]; [destruct (o_mip obj >? 0)|].
    - apply automip_ok in E1 as (a' & Ea' & Ha & Eh). unfold good, ids. rewrite Ea', Ea, Eh.
      change (n_id <$> headers r0) with (ids r0). rewrite Ei in *. econstructor; [exact Ha|constructor].
    - injection E1 as <-. unfold good. rewrite Ea, Ei. constructor.
    - injection E1 as <-. unfold good. rewrite Ea, Ei. constructor. }
  apply (rec_ok _ _ _ _ Hg1) in E2. unfold good in E2.
  destruct (actions r2) as [|a l] eqn:Ea2; [done|]. rewrite <- Ea2 in *.
  assert (st' = (set_new (share st r2) (CA_REPL ((tok, rev (actions r2), masked) :: br) o None))
            <| stream_names := tok :: stream_names r2 |>) as -> by (rewrite Ea2 in H; congruence).
  split; [done|]. split; [done|]. cbn [partial newaction]. intros nm l' m [Hin|Hin]%elem_of_cons.
  - simplify_eq. split; [|by eexists]. intros Er. apply (f_equal (@rev _)) in Er.
    by rewrite rev_involutive, Ea2 in Er.
  - exact (Hp None o nm l' m Hin).
Qed.

Lemma token_repl_ok s0 st br o p tok st' :
  in_progress c s0 st → newaction st = CA_REPL br o p → token_repl c rec st br o tok = Good st' →
  in_progress c s0 st'.
Proof.
  intros Hip Ea H. pose proof Hip as (_ & _ & Hp). rewrite Ea in Hp. unfold token_repl in H.
  destruct (streams_sec c tok), (streams_sec c (tok +:+ ":masked")); [done|..].
  - by eapply token_branch_ok.
  - destruct o; [|done]. by eapply token_branch_ok.
  - destruct o; [done|]. destruct br as [|b br]; [|done]. res_inv H. by eapply use_replobj_ok.
Qed.

Lemma token_ttlreduce_ok st f tok a : token_ttlreduce st f tok = Good a → partial c (ids st) a.
Proof.
  unfold token_ttlreduce. intros H. destruct f; [done|]. res_inv H. destruct r as [i n]. res_inv H. good_subst H.
  destruct (find_header_spec _ _ _ _ E) as [Hi Hn]. apply ids_lookup in Hn. apply or_err_Good in E0.
  unfold header_get_field_of_type in *. split.
  - intros g [= ->]. destruct (protocol_get_field_by_type (n_id n) PFTYPE_TTL) as [x|] eqn:Ex; [|done].
    injection E0 as <-. split; [by eapply type_field_ok | by eapply ttl_type_ok].
  - intros g Hg. destruct (protocol_get_field_by_type (n_id n) PFTYPE_CHECKSUM) as [x|] eqn:Ex; [|done].
    injection Hg as <-. split; [by eapply type_field_ok | by eapply csum_type_ok].
Qed.

Lemma fmap_Good {A B} (f : A → B) (r : Res A) b : f <$> r = Good b → ∃ a, r = Good a ∧ b = f a.
Proof. destruct r; cbn; intros [= <-]. eauto. Qed.

Lemma token_delay_ok s v offl tok a : token_delay v offl tok = Good a → partial c s a.
Proof. unfold token_delay. intros H. repeat case_match; res_inv H; by injection H as <-. Qed.

Lemma token_elim_ok s r p tok a : token_elim c r p tok = Good a → partial c s a.
Proof. unfold token_elim. intros H. repeat case_match; res_inv H; by simplify_eq. Qed.

Lemma process_token_ok s0 st tok st' :
  in_progress c s0 st → process_token c rec tok st = Good st' → in_progress c s0 st'.
Proof.
  intros Hip H. unfold process_token in H. destruct (newaction st) eqn:Ea; try done.
  - by eapply token_undef_ok.
  - by eapply token_add_ok.
  - res_inv H. good_subst H. apply fmap_Good in E as (d & E & ->). apply set_new_ok; [done|].
    right. by eapply token_checksum_ok.
  - destruct h; [done|]. res_inv H. good_subst H. res_inv E. destruct r0 as [i n]. injection E as <-. by apply set_new_ok.
  - res_inv H. good_subst H. apply set_new_ok; [done|]. by eapply token_delay_ok.
  - by eapply token_edit_ok.
  - res_inv H. good_subst H. apply set_new_ok; [done|]. by eapply token_elim_ok.
  - by injection H as <-.
  - destruct pipename; [done|]. injection H as <-. by apply set_new_ok.
  - res_inv H. good_subst H. apply fmap_Good in E as (d & E & ->). by apply set_new_ok.
  - res_inv H. good_subst H. apply fmap_Good in E as (d & E & ->). by apply set_new_ok.
  - res_inv H. good_subst H. apply fmap_Good in E as (d & E & ->). by apply set_new_ok.
  - res_inv H. good_subst H. apply fmap_Good in E as (d & E & ->). by apply set_new_ok.
  - res_inv H. good_subst H. apply fmap_Good in E as (d & E & ->). apply set_new_ok; [done|].
    intros g [= <-]. by eapply token_meta_ok.
  - res_inv H. good_subst H. apply fmap_Good in E as (d & E & ->). apply set_new_ok; [done|].
    intros g [= <-]. by eapply token_meta_ok.
  - by eapply token_repl_ok.
  - destruct iface; [done|]. res_inv H. good_subst H. apply fmap_Good in E as (d & E & ->). by apply set_new_ok.
  - res_inv H. good_subst H. apply fmap_Good in E as (d & E & ->). by apply set_new_ok.
  - destruct h; [done|]. res_inv H. good_subst H. res_inv E. destruct r0 as [i n]. injection E as <-. by apply set_new_ok.
  - res_inv H. good_subst H. apply set_new_ok; [done|]. by eapply token_ttlreduce_ok.
  - res_inv H. good_subst H. apply fmap_Good in E as (d & E & ->). apply set_new_ok; [done|].
    right. by eapply token_checksum_ok.
  - res_inv H. good_subst H. apply fmap_Good in E as (d & E & ->). apply set_new_ok; [done|].
    intros g [= <-]. by eapply token_meta_ok.
  - res_inv H. good_subst H. apply fmap_Good in E as (d & E & ->). apply set_new_ok; [done|].
    intros g [= <-]. by eapply token_meta_ok.
Qed.

(** ** Stages *)

Lemma process_stage_ok s0 stage st st' :
  good c s0 st → process_stage c rec stage st = Good st' → good c s0 st'.
Proof.
  intros Hg H. unfold process_stage in H. res_inv H.
  apply (foreach_inv (in_progress c s0)) in E0; [|intros; by eapply process_token_ok|done].
  destruct (newaction r0); [done|..]; by eapply process_action_ok.
Qed.
End sound.

(** ** Lines *)

Lemma process_line_ok c n line s0 st st' :
  good c s0 st → process_line c n line st = Good st' → good c s0 st'.
Proof.
  revert line s0 st st'. induction n as [|n IH]; intros line s0 st st' Hg H; cbn [process_line] in H;
    revert H; apply foreach_inv; [|done| |done]; intros; eapply process_stage_ok; eauto; done.
Qed.

Lemma number_headers_ids hs : n_id <$> number_headers hs = d_id <$> hs.
Proof. unfold number_headers. rewrite fmap_imap. apply (imap_const (λ h, d_id h)). Qed.

Lemma copy_header_list_ids hs b hs' : copy_header_list hs b = Some hs' → d_id <$> hs' = d_id <$> hs.
Proof.
  revert hs'. induction hs as [|h hs IH]; intros hs'; cbn; [by intros [= <-]|].
  destruct (if b then _ else _) as [ms|]; [|done]. cbn.
  destruct (copy_header_list hs b) as [l|]; [|done]. cbn. intros [= <-]. cbn. by rewrite IH.
Qed.

Lemma start_state_good c strm hs : good c (d_id <$> hs) (start_state strm hs).
Proof.
  unfold start_state. pose proof (number_headers_ids hs) as E.
  destruct (number_headers hs) as [|n ns] eqn:En; [rewrite <- E; constructor|].
  unfold header_get_field_of_type.
  destruct (protocol_get_field_by_type (n_id n) PFTYPE_TTL) as [f|] eqn:Ef; cbn [fmap option_fmap option_map];
    rewrite <- E; [|constructor].
  unfold good. econstructor; [|constructor]. constructor. cbn [leaf_ok]. split_and!; [|by eapply ttl_type_ok|done].
  by eapply type_field_ok; [| |exact Ef].
Qed.

(** The actions of a pipeline for packets with the header stack [hs]: there is
    one, and every action refers to headers and fields the packets have. *)
Definition pipeline_typed (c : Conf) (hs : list HeaderDescriptor) (acts : list ConfAction) : Prop :=
  acts ≠ [] ∧ ∃ s', acts_typed c (d_id <$> hs) acts s'.

Lemma parse_actions_typed c strm line hs acts st :
  parse_actions_line c strm line hs = Good (acts, st) → pipeline_typed c hs acts.
Proof.
  unfold parse_actions_line. intros H. res_inv H.
  destruct (copy_header_list hs true) as [[|h hs']|] eqn:Ec; [done| |done]. injection E as <-.
  apply (process_line_ok c _ line (d_id <$> hs)) in E0.
  2: { rewrite <- (copy_header_list_ids _ _ _ Ec). apply start_state_good. }
  destruct (actions r0) as [|a l] eqn:Ea; [done|]. rewrite <- Ea in *.
  assert (acts = rev (actions r0)) as -> by (rewrite Ea in H; congruence). split; [|by eexists].
  intros Er. apply (f_equal (@rev _)) in Er. by rewrite rev_involutive, Ea in Er.
Qed.


#[local] Open Scope string_scope.

(** A configuration with a generator, an interface and two branches. *)
Definition sample_conf : Conf :=
  mk_conf
    (λ s, if decide (s = "gen") then Some (mk_objref 1 PIPEOBJ_SEQGEN "gen" (-1)) else None)
    (λ s, if decide (s = "out") then Some 7%nat else None)
    (λ _ _ _ _ _, None)
    (λ s, if decide (s = "b1") then Some "after cvlan add rtag, send out"
          else if decide (s = "b2") then Some "edit eth.dmac=1:2:3:4:5:6, del cvlan, send out" else None)
    false.

Definition sample_headers : list HeaderDescriptor :=
  [mk_desc "eth" PROTO_ID_ETH []; mk_desc "cvlan" PROTO_ID_CVLAN []; mk_desc "ipv4" PROTO_ID_IPv4 []].

Definition sample_line : string := "seqgen gen, replicate b1 b2".


End Sound.
