(* ===== verification/ConfPacket.v ===== *)
(** * Configuration of streams: packet and match lines (conf_packet.c)

    The packet line of a stream lists its headers, the match line gives values
    for header fields.  The result is the list of header descriptors that
    stream identification (ParseTree.v) and the translation of the action line
    (ConfPipeline.v) work on. *)

From S2P Require Import Prelude CString Protocol Packet HeaderField ParseTree ConfUtils.
Import CStr Proto Pkt Field Parse ConfU.
From Stdlib Require Import Ascii.

Module ConfPkt.

#[local] Open Scope string_scope.
#[local] Open Scope list_scope.
#[local] Open Scope Z_scope.

(** ** The packet line *)

(** The completed headers, the newest first, and the header of the current
    stage once its name has been read.  A name whose type is unknown gets the
    type [protocol_id_from_type] returns: the check [id < 0] that follows it
    never holds for the unsigned enumeration. *)
Definition PacketState : Type := list HeaderDescriptor * option HeaderDescriptor.

Definition process_packet_token (tok : string) (st : PacketState) : Res PacketState :=
  match st with
  | (hs, Some _) => Err
  | (hs, None) => Good (hs, Some (mk_desc tok (protocol_id_from_type (Some (header_type_from_name tok))) []))
  end.

Definition process_packet_stage (stage : string) (hs : list HeaderDescriptor) : Res (list HeaderDescriptor) :=
  '(hs, new) ← foreach_tokens stage process_packet_token (hs, None);
  h ← or_err new;
  Good (h :: hs).

Definition parse_packet_line (line : string) : Res (list HeaderDescriptor) :=
  hs ← foreach_stages line process_packet_stage [];
  if hs is [] then Err else Good (rev hs).

(** ** The match line *)

(** [current_header] and [current_idx] are the same position of the list. *)
Record MatchState := mk_mst { m_headers : list HeaderDescriptor; current : option nat }.

(** [val > token+2 && val[-2] == '!']: the last character of a key of at least
    two characters. *)
Definition negation (key : string) : bool * string :=
  let n := String.length key in
  if bool_decide (2 <= n)%nat && bool_decide (String.get (n - 1) key = Some "!"%char)
  then (true, String.substring 0 (n - 1) key)
  else (false, key).

Definition add_match (m : HeaderMatch) (h : HeaderDescriptor) : HeaderDescriptor :=
  mk_desc (d_name h) (d_id h) (m :: d_matches h).

Section matches.
Context (stale : bool).   (* [errno] is [ERANGE] *)

(** A constant with a prefix length shortens the field. *)
Definition parse_match (k : nat) (h : HeaderDescriptor) (tok : string) : Res HeaderMatch :=
  '(key, val) ← or_err (parse_assignment tok);
  let '(neg, key) := negation key in
  f ← or_err (protocol_get_field_by_name (d_id h) key);
  v ← read_constant stale (pf_bitoffset f) (pf_bitcount f) (d_id h) (pf_type f) val;
  let hf := mk_hf (Z.of_nat k) (pf_bitoffset f) (v_bitcount v) in
  cmp ← or_err (header_get_field_comprator hf v);
  Good (mk_match hf v cmp neg).

Definition process_match_token (tok : string) (st : MatchState) : Res MatchState :=
  match current st with
  | Some k =>
      match m_headers st !! k with
      | Some h =>
          m ← parse_match k h tok;
          Good (mk_mst (<[k := add_match m h]> (m_headers st)) (Some k))
      | None => Crash
      end
  | None =>
      '(k, _) ← or_err (list_find (λ h, d_name h = tok) (m_headers st));
      Good (mk_mst (m_headers st) (Some k))
  end.

(** A stage without a token leaves [current_header] null. *)
Definition process_match_stage (stage : string) (hs : list HeaderDescriptor) : Res (list HeaderDescriptor) :=
  st ← foreach_tokens stage process_match_token (mk_mst hs None);
  match current st with
  | Some k =>
      match m_headers st !! k with
      | Some h =>
          if d_matches h is [] then Err
          else Good (<[k := mk_desc (d_name h) (d_id h) (rev (d_matches h))]> (m_headers st))
      | None => Crash
      end
  | None => Crash
  end.

Definition parse_match_line (hs : list HeaderDescriptor) (line : string) : Res (list HeaderDescriptor) :=
  foreach_stages line process_match_stage hs.

(** ** Accepted lines *)

(** Every match of every header refers to its header. *)
Definition matches_wf (hs : list HeaderDescriptor) : Prop :=
  ∀ k h, hs !! k = Some h → Forall (match_wf k h) (d_matches h).

Definition same_headers (hs hs' : list HeaderDescriptor) : Prop :=
  (λ h, (d_name h, d_id h)) <$> hs' = (λ h, (d_name h, d_id h)) <$> hs.

Lemma match_wf_id k h h' m : d_id h = d_id h' → match_wf k h m → match_wf k h' m.
Proof. intros E [? ? ? ? Hf ?]. split; try done. unfold blen in *. by rewrite <- E. Qed.

Lemma parse_match_wf k h tok m : parse_match k h tok = Good m → match_wf k h m.
Proof.
  unfold parse_match. intros H. res_inv H. destruct r as [key val]. destruct (negation key) as [neg key'].
  res_inv H. good_subst H. apply or_err_Good in E0, E2.
  destruct (field_by_name_in_header _ _ _ E0) as (_ & Ho & Hc & Hf).
  pose proof (blen_bound h) as Hb. unfold blen in Hb.
  destruct (read_constant_ok stale (pf_bitoffset r) (pf_bitcount r) (d_id h) (pf_type r) val Ho ltac:(lia)) as [_ Hv].
  destruct (Hv _ E1) as ((b & Eb & Hbytes & Hoff & Hlen) & Eo & Hcnt & Hz). split; cbn.
  - done.
  - done.
  - done.
  - destruct (decide (v_bitcount r0 = 0)); [right; auto | left; lia].
  - unfold blen. lia.
  - intros b' i Hi. unfold field_octets in Hi. cbn in Hi. unfold src_octet. rewrite Eb.
    destruct (load_in_range b (v_bitoffset r0 / 8 + i)) as [x Hx]; [unfold in_range; lia|].
    exists x. split; [done|]. unfold load in Hx. repeat case_match; try done.
    exact (proj1 (Forall_lookup _ _) Hbytes _ _ Hx).
Qed.

Lemma same_headers_insert hs hs0 k h h' :
  same_headers hs0 hs → hs !! k = Some h → d_name h' = d_name h → d_id h' = d_id h →
  same_headers hs0 (<[k := h']> hs).
Proof.
  unfold same_headers. intros <- Hk En Ei. rewrite list_fmap_insert, En, Ei. apply list_insert_id.
  by rewrite list_lookup_fmap, Hk.
Qed.

Lemma matches_wf_insert hs k h h' :
  matches_wf hs → hs !! k = Some h → d_id h' = d_id h → Forall (match_wf k h) (d_matches h') →
  matches_wf (<[k := h']> hs).
Proof.
  intros Hwf Hk Ei Hf j x. destruct (decide (j = k)) as [->|Hne].
  - rewrite list_lookup_insert_eq by (by eapply lookup_lt_Some). intros [= <-].
    eapply Forall_impl; [exact Hf|]. intros m. by apply match_wf_id.
  - rewrite list_lookup_insert_ne by done. apply Hwf.
Qed.

(** Both lines' loops keep the headers, and every match fits its header. *)
Definition line_ok (hs0 hs : list HeaderDescriptor) : Prop := matches_wf hs ∧ same_headers hs0 hs.

Lemma match_token_ok hs0 tok st st' :
  line_ok hs0 (m_headers st) → process_match_token tok st = Good st' → line_ok hs0 (m_headers st').
Proof.
  intros [Hwf Hs] H. unfold process_match_token in H. destruct (current st) as [k|].
  - destruct (m_headers st !! k) as [h|] eqn:Hk; [|done]. res_inv H. good_subst H. split; cbn.
    + eapply matches_wf_insert; [done | done | done |]. constructor; [by eapply parse_match_wf|]. by apply Hwf.
    + by eapply same_headers_insert.
  - res_inv H. destruct r. by good_subst H.
Qed.

Lemma match_stage_ok hs0 stage hs hs' :
  line_ok hs0 hs → process_match_stage stage hs = Good hs' → line_ok hs0 hs'.
Proof.
  intros Hok H. unfold process_match_stage in H. res_inv H.
  assert (line_ok hs0 (m_headers r)) as [Hwf Hs].
  { refine (foreach_inv (λ st, line_ok hs0 (m_headers st)) _ _ _ _ _ _ E); [|done].
    intros. by eapply match_token_ok. }
  destruct (current r) as [k|]; [|done]. destruct (m_headers r !! k) as [h|] eqn:Hk; [|done].
  destruct (d_matches h) as [|m ms] eqn:Em; [done|]. rewrite <- Em in H. good_subst H. split.
  - eapply matches_wf_insert; [done | done | done |]. cbn. apply Forall_rev. by apply Hwf.
  - by eapply same_headers_insert.
Qed.

Lemma match_line_ok hs line hs' : matches_wf hs → parse_match_line hs line = Good hs' → line_ok hs hs'.
Proof.
  intros Hwf H. refine (foreach_inv (line_ok hs) _ _ _ _ _ _ H); [|done].
  intros. by eapply match_stage_ok.
Qed.

Lemma headers_wf_intro k hs :
  (∀ j h, hs !! j = Some h → 0 < blen h ∧ Forall (match_wf (k + j) h) (d_matches h)) → headers_wf k hs.
Proof.
  revert k. induction hs as [|h hs IH]; intros k H; cbn [headers_wf]; [done|].
  destruct (H 0%nat h eq_refl) as [Hb Hm]. rewrite Nat.add_0_r in Hm. split_and!; [done | done |].
  apply IH. intros j h' Hj. rewrite Nat.add_succ_l, <- Nat.add_succ_r. by apply (H (S j)).
Qed.

End matches.

(** The header a name of the packet line stands for. *)
Definition named_header (nm : string) : HeaderDescriptor :=
  mk_desc nm (protocol_id_from_type (Some (header_type_from_name nm))) [].

Lemma packet_stage_spec stage hs :
  process_packet_stage stage hs = if tokens stage is [t] then Good (named_header t :: hs) else Err.
Proof.
  unfold process_packet_stage, foreach_tokens. destruct (tokens stage) as [|t [|t' l]]; done.
Qed.

Lemma packet_stages_spec l hs hs' :
  foreach process_packet_stage l hs = Good hs' →
  ∃ names, tokens <$> l = (λ t, [t]) <$> names ∧ hs' = rev (named_header <$> names) ++ hs.
Proof.
  revert hs. induction l as [|stage l IH]; intros hs H; cbn [foreach] in H.
  { good_subst H. by exists []. }
  rewrite packet_stage_spec in H. destruct (tokens stage) as [|t [|t' r]] eqn:Et; try done.
  cbn [mbind res_bind] in H. destruct (IH _ H) as (names & En & ->). exists (t :: names).
  rewrite fmap_cons, Et, En. split; [done|]. cbn. by rewrite <- app_assoc.
Qed.

(** Accepted packet and match lines give well-formed header lists: the headers
    are the ones the packet line names, one per stage and in its order, the
    match line changes neither names nor types, and when every type is known
    (an unknown one becomes the payload) every match of a header compares a
    field that lies inside that header, with the comparator for its shape and a
    constant that has all the octets the comparison reads. *)
Lemma accepted_lines_wf stale pline mline hs hs' :
  parse_packet_line pline = Good hs → parse_match_line stale hs mline = Good hs' →
  (∃ names, names ≠ [] ∧ tokens <$> stages pline = (λ t, [t]) <$> names ∧ hs = named_header <$> names) ∧
  same_headers hs hs' ∧
  (Forall (λ h, d_id h ≠ PROTO_ID_PAYLOAD) hs → headers_wf 0 hs').
Proof.
  intros Hp Hm. unfold parse_packet_line in Hp. res_inv Hp.
  destruct (packet_stages_spec _ _ _ E) as (names & En & Er). rewrite app_nil_r in Er.
  assert (names ≠ [] ∧ hs = named_header <$> names) as [Hne ->].
  { destruct r as [|h r]; [done|]. rewrite Er in Hp. good_subst Hp. split; [|by rewrite rev_involutive].
    intros ->. done. }
  assert (matches_wf (named_header <$> names)) as Hwf.
  { intros k h Hk. apply list_lookup_fmap_Some in Hk as (nm & -> & _). constructor. }
  destruct (match_line_ok stale _ _ _ Hwf Hm) as [Hwf' Hs]. split_and!; [by exists names | done |].
  intros Hall. apply headers_wf_intro. intros j h Hj. split; [|by apply Hwf'].
  assert (d_id h ∈ d_id <$> (named_header <$> names)) as Hin.
  { replace (d_id <$> (named_header <$> names)) with (d_id <$> hs').
    - apply list_elem_of_fmap. exists h. split; [done|]. by eapply list_elem_of_lookup_2.
    - unfold same_headers in Hs. apply (f_equal (fmap snd)) in Hs. rewrite <- !list_fmap_compose in Hs. rewrite <- list_fmap_compose. exact Hs. }
  apply list_elem_of_fmap in Hin as (h0 & Ei & Hin). rewrite Forall_forall in Hall. specialize (Hall h0 Hin).
  unfold blen. rewrite Ei. by destruct (d_id h0).
Qed.

(** C24: accepted packet and match lines give well-formed streams.  The headers
    are the ones the packet line names, one per stage and in its order; the match
    line changes neither names nor types; and when every type is known (an
    unknown one becomes the payload) every match of a header compares a field
    that lies inside that header, with the comparator for its shape and a
    constant that has all the octets the comparison reads, which is what stream
    identification requires. *)
Theorem accepted_stream_wf stale pline mline hs hs' :
  parse_packet_line pline = Good hs → parse_match_line stale hs mline = Good hs' →
  (∃ names, names ≠ [] ∧ tokens <$> stages pline = (λ t, [t]) <$> names ∧ hs = named_header <$> names) ∧
  same_headers hs hs' ∧
  (Forall (λ h, d_id h ≠ PROTO_ID_PAYLOAD) hs → headers_wf 0 hs').
Proof. apply accepted_lines_wf. Qed.

Definition sample_packet_line : string := "eth, cvlan, ipv4".
Definition sample_match_line : string := "eth dmac=1:2:3:4:5:6, cvlan vid!=5, ipv4 src=10.0.0.0/8".

Lemma accepted_stream_wf_witness :
  ∃ hs hs', parse_packet_line sample_packet_line = Good hs ∧ parse_match_line false hs sample_match_line = Good hs' ∧
    headers_wf 0 hs'.
Proof.
  destruct (is_good_ex (parse_packet_line sample_packet_line)) as [hs E]; [vm_compute; reflexivity|].
  assert (hs = named_header <$> ["eth"; "cvlan"; "ipv4"]) as Ehs by (vm_compute in E; injection E as <-; reflexivity).
  destruct (is_good_ex (parse_match_line false hs sample_match_line)) as [hs' E'];
    [rewrite Ehs; vm_compute; reflexivity|].
  exists hs, hs'. split; [exact E|]. split; [exact E'|].
  apply (proj2 (proj2 (accepted_stream_wf false _ _ _ _ E E'))). rewrite Ehs. repeat constructor; discriminate.
Defined.

(** A misspelt type is taken for the payload, a header of no octets. *)
Example unknown_type_is_payload : d_id (named_header "ehternet") = PROTO_ID_PAYLOAD.
Proof. reflexivity. Qed.

End ConfPkt.
