(* ===== verification/Assemble.v ===== *)
(** * Assembling pipelines (assemble_fieldassigns and assemble_actions of
    conf_actions.c, create_action_* of action.c)

    The intermediate actions of a stream become a pipeline and, for every
    branch of a replication, a pipeline of its own.  Pipelines get the numbers
    that [Pipeline.v] uses for pointers, in the order of their allocation.

    Maintenance points belong to another component: creating one may fail, and
    what it returns is only handed on. *)

From S2P Require Import Prelude TimeUtils CString Protocol Packet HeaderField Checksum ParseTree Action Object Pipeline ConfUtils ConfActions.
Import Time CStr Proto Pkt Field Csum Parse Act Obj Pipe ConfU ConfA.

Module Asm.

#[local] Open Scope list_scope.
#[local] Open Scope Z_scope.

(** ** Maintenance points *)

Inductive OAM_MP_Type := OAM_Start | OAM_Stop | OAM_Intermediate.

(** The arguments of [oam_new_maintenance_point]; the pipeline comes with its
    mask, the only part of it that is read. *)
Record MpRequest := mk_rq {
  rq_stream : string;
  rq_name : string;
  rq_type : OAM_MP_Type;
  rq_level : Z;
  rq_protostack : list ProtocolID;
  rq_obj : option ObjRef;
  rq_pipe : option (nat * bool);
  rq_idx : nat;
  rq_addr : list OAM_MP_Address
}.

(** The component that keeps the maintenance points. *)
Class MaintenancePoints (R : Type) := {
  oam_new_maintenance_point : MpRequest → R → option (nat * R)
}.

(** ** Assignments *)

(** [calloc] leaves the constant empty when there is a reader. *)
Definition no_value : Value := mk_value (PtrOwn []) 0 0.

Definition assemble_assign (a : ConfAssignment) : Res EditAssign :=
  match rhs a with
  | CVARTYPE_FIELD _ rd | CVARTYPE_IFACE _ _ rd => Good (mk_assign (ca_write a) (lhs_field a) (Some rd) no_value)
  | CVARTYPE_CONST v =>
      match copy_value v with
      | Some v => Good (mk_assign (ca_write a) (lhs_field a) None v)
      | None => Crash
      end
  end.

Fixpoint assemble_assigns (l : list ConfAssignment) : Res (list EditAssign) :=
  match l with
  | [] => Good []
  | a :: l => a ← assemble_assign a; l ← assemble_assigns l; Good (a :: l)
  end.

(** An empty list is the null pointer, like an error. *)
Definition assemble_fieldassigns (l : list ConfAssignment) : Res (list EditAssign) :=
  if l is [] then Err else assemble_assigns l.

(** ** Actions *)

Section assemble.
Context {R : Type} `{!MaintenancePoints R}.
Context (addrs : gmap nat (list OAM_MP_Address)).

(** The heap that is built: pipelines, objects and maintenance points. *)
Record Build := mk_build {
  b_pipes : gmap nat Pipeline;
  b_next : nat;
  b_objs : gmap nat Object;
  b_mps : R
}.

Definition ref_object (o : ObjRef) (b : Build) : Res Build :=
  match b_objs b !! o_id o with
  | Some ob => Good (mk_build (b_pipes b) (b_next b) (<[o_id o := pipeline_object_ref ob]> (b_objs b)) (b_mps b))
  | None => Crash
  end.

Definition store_pipes (o : ObjRef) (l : list nat) (b : Build) : Res Build :=
  match b_objs b !! o_id o with
  | Some (mk_object (Obj.PIPEOBJ_REPL r) n) =>
      Good (mk_build (b_pipes b) (b_next b)
              (<[o_id o := mk_object (Obj.PIPEOBJ_REPL (store_replication_pipelines r l)) n]> (b_objs b)) (b_mps b))
  | _ => Crash
  end.

Definition deref_ca {A} (o : option A) : Res A := if o is Some a then Good a else Crash.
Definition unless_null {A} (o : option A) : Res A := if o is Some a then Good a else Err.

(** [oam_new_maintenance_point(...)]; [NULL] is an error. *)
Definition new_mp (o : OamData) (t : OAM_MP_Type) (pipe : option (nat * bool)) (i : nat)
    (addr : list OAM_MP_Address) (b : Build) : Res (nat * Build) :=
  nm ← deref_ca (mp_name o);
  '(mp, r) ← unless_null (oam_new_maintenance_point
     (mk_rq (mp_stream o) nm t (u32 (mp_level o)) (mp_protostack o) (mp_obj o) pipe i addr) (b_mps b));
  Good (mp, mk_build (b_pipes b) (b_next b) (b_objs b) r).

Definition oam_receive (o : OamData) (intermediate : bool) (b : Build) : Res (Action * Build) :=
  '(mp, b) ← new_mp o (if intermediate then OAM_Intermediate else OAM_Stop) None 0 [] b;
  a ← deref_ca (create_action_oam_receive mp (mp_protostack o));
  Good (a, b).

Definition create_action_oam_inject (o : OamData) (intermediate : bool) (pl : nat) (masked : bool) (i : nat) (b : Build)
    : Res (Action * Build) :=
  let addr := default [] (k ← mp_addr o; addrs !! k) in
  '(mp, b) ← new_mp o (if intermediate then OAM_Intermediate else OAM_Start) (Some (pl, masked)) i addr b;
  Good (ACTION_OAMINJECT mp, b).

Definition checksum_params (d : CsumData) : Res ChecksumParameters :=
  f ← deref_ca (cs_field d);
  Good (mk_cp (header_idx f) (cs_proto d) (cs_ip_idx d) (cs_ip_version d)).

(** The actions that need neither a branch nor a maintenance point. *)
Definition assemble_leaf (ca : ConfAction) (b : Build) : Res (Action * Build) :=
  let only (r : Res Action) := a ← r; Good (a, b) in
  match ca with
  | CA_ADD a => Good (ACTION_ADD (pos_idx a) (add_id a) (add_len a), b)
  | CA_CHECKSUM d => only (ACTION_CHECKSUM <$> checksum_params d)
  | CA_DEL _ i => Good (ACTION_DEL i, b)
  | CA_DELAY v offl => only (ms ← deref_ca (float_to_u32 v); Good (ACTION_DELAY (timespec_from_msec ms) offl))
  | CA_DROP => Good (ACTION_DROP, b)
  | CA_EDIT l => only (ACTION_EDIT <$> assemble_fieldassigns l)
  | CA_ELIM r _ stack =>
      o ← deref_ca r; a ← deref_ca (create_action_elim (o_id o) stack); b ← ref_object o b; Good (a, b)
  | CA_FILTEROAM f => Good (ACTION_FILTEROAM f, b)
  | CA_POF p => o ← deref_ca p; b ← ref_object o b; Good (ACTION_POF (o_id o), b)
  | CA_READSEQ f => only (ACTION_READSEQ <$> deref_ca f)
  | CA_READTSTAMP f => only (ACTION_READTSTAMP <$> deref_ca f)
  | CA_SEND i => only (ACTION_SEND <$> deref_ca i)
  | CA_SEQGEN g => o ← deref_ca g; b ← ref_object o b; Good (ACTION_SEQGEN (o_id o), b)
  | CA_SETLENGTH _ f n i => only ((λ f, ACTION_SETLENGTH f n i) <$> deref_ca f)
  | CA_TTLCHECK => Good (ACTION_TTLCHECK, b)
  | CA_TTLREDUCE f cs => only ((λ f, create_action_ttlreduce f cs) <$> deref_ca f)
  | CA_VERIFY d => only (ACTION_VERIFY <$> checksum_params d)
  | CA_WRITESEQ f => only (ACTION_WRITESEQ <$> deref_ca f)
  | CA_WRITETSTAMP f => only (ACTION_WRITETSTAMP <$> deref_ca f)
  | CA_UNDEF | CA_JUMP _ => Err
  | CA_MEPSTART _ | CA_MEPSTOP _ | CA_MIP _ | CA_REPL _ _ _ => Crash
  end.

Definition add_pipe (id : nat) (pl : Pipeline) (b : Build) : Build :=
  mk_build (<[id := pl]> (b_pipes b)) (b_next b) (b_objs b) (b_mps b).

Definition alloc_pipe (b : Build) : nat * Build :=
  (b_next b, mk_build (b_pipes b) (S (b_next b)) (b_objs b) (b_mps b)).

(** [asm ca pl masked i b] assembles one action at position [i] of the pipeline. *)
Definition assembler : Type := ConfAction → nat → bool → nat → Build → Res (list Action * Build).

Section lists.
Context (asm : assembler).

Fixpoint assemble_list (l : list ConfAction) (pl : nat) (masked : bool) (i : nat) (b : Build)
    : Res (list Action * Build) :=
  match l with
  | [] => Good ([], b)
  | ca :: l =>
      '(a, b) ← asm ca pl masked i b;
      '(r, b) ← assemble_list l pl masked (i + length a) b;
      Good (a ++ r, b)
  end.

(** The caller of [assemble_actions] owns the reference of the new pipeline. *)
Definition assemble_pipeline (nm : string) (l : list ConfAction) (masked : bool) (b : Build) : Res (nat * Build) :=
  match l with
  | [] => Err
  | _ =>
      let '(id, b) := alloc_pipe b in
      '(acts, b) ← assemble_list l id masked 0 b;
      Good (id, add_pipe id (mk_pipeline acts 1 masked nm) b)
  end.

Fixpoint assemble_branches (br : list (string * list ConfAction * bool)) (b : Build) : Res (list nat * Build) :=
  match br with
  | [] => Good ([], b)
  | (nm, l, m) :: br =>
      '(id, b) ← assemble_pipeline nm l m b;
      '(ids, b) ← assemble_branches br b;
      Good (id :: ids, b)
  end.
End lists.

Fixpoint assemble_action (ca : ConfAction) (pl : nat) (masked : bool) (i : nat) (b : Build)
    : Res (list Action * Build) :=
  match ca with
  | CA_MEPSTART o => '(a, b) ← create_action_oam_inject o false pl masked i b; Good ([a], b)
  | CA_MEPSTOP o => '(a, b) ← oam_receive o false b; Good ([a], b)
  | CA_MIP o =>
      '(a, b) ← oam_receive o true b;
      '(a', b) ← create_action_oam_inject o true pl masked (S i) b;
      Good ([a; a'], b)
  | CA_REPL br o stack =>
      '(ids, b) ← assemble_branches assemble_action br b;
      a ← deref_ca (create_action_repl ids (o_id <$> o) stack);
      b ← match o with
          | Some o => b ← ref_object o b; store_pipes o ids b
          | None => Good b
          end;
      Good ([a], b)
  | _ => '(a, b) ← assemble_leaf ca b; Good ([a], b)
  end.

Definition assemble_actions (stream_name : string) (l : list ConfAction) (masked : bool) (b : Build)
    : Res (nat * Build) := assemble_pipeline assemble_action stream_name l masked b.
End assemble.
End Asm.
