(* ===== verification/ActionSafe.v ===== *)
(** * Packet actions stay inside the packet

    [fits n s p] says that packet [p] has the headers of the stack [s] followed
    by its payload, with no more than [n] octets of scratch space in use.  Every
    action that the configuration accepts for the stack [s] runs on such a
    packet without an access outside the buffer or the header array, and leaves
    a packet that fits the stack after the action. *)

From S2P Require Import Prelude TimeUtils CString Protocol Packet HeaderField Checksum ParseTree Pof Action Object Pipeline ConfUtils ConfActions ConfPipeline ConfTyping.
Import Time CStr Proto Pkt Field Csum Parse POF(ActionResult(..)) Act Pipe(packet_execute, Env, World) ConfU ConfA(rhs, lhs_field, ca_write, cs_field, cs_proto, cs_ip_idx, cs_ip_version, CsumData) Typing.

Module ActSafe.

#[local] Open Scope list_scope.
#[local] Open Scope Z_scope.

(** Headers start in the first part of the buffer: an access near the start of
    a header is inside the buffer, whatever the length of the header. *)
Definition HEADER_LIMIT : Z := 4096.

(** The receiving functions of Ethernet interfaces may put two VLAN tags in
    front of the received data. *)
Definition SCRATCH_ROOM : Z := PACKET_START_OFFSET - 8.

Record fits (n : Z) (s : stack) (p : Packet) : Prop := {
  fit_wf : packet_wf p;
  fit_start : SCRATCH_ROOM <= start p;
  fit_scratch : scratch_len p <= n;
  fit_low : Forall (λ h, h_start h <= HEADER_LIMIT) (active p);
  fit_stack : ∃ payload,
    (λ h, (h_type h, h_len h)) <$> active p = ((λ id, (id, plen id)) <$> s) ++ [payload]
}.

(** ** Access to headers and fields *)

Lemma fits_length n s p : fits n s p → length (active p) = S (length s).
Proof.
  intros [_ _ _ _ [pl E]]. apply (f_equal length) in E. rewrite length_fmap, length_app, length_fmap in E. cbn in E. lia.
Qed.

Lemma fits_buf n s p : fits n s p → Z.of_nat (length (buf p)) = PACKET_BUF_LEN.
Proof. intros [[E _ _ _ _ _] _ _ _ _]. rewrite E. unfold_limits. lia. Qed.

Lemma fits_hdr n s p i :
  fits n s p → 0 <= i <= Z.of_nat (length s) →
  ∃ h, headers p !! Z.to_nat i = Some h ∧ active p !! Z.to_nat i = Some h ∧ 0 <= h_start h <= HEADER_LIMIT.
Proof.
  intros Hf Hi. pose proof (fits_length _ _ _ Hf) as L.
  destruct (lookup_lt_is_Some_2 (active p) (Z.to_nat i)) as [h Hh]; [lia|]. exists h. split_and!; [|done|..].
  - unfold active in Hh. by apply lookup_take_Some in Hh as [? _].
  - pose proof (proj1 (Forall_lookup _ _) (wf_hdrs _ (fit_wf _ _ _ Hf)) _ _ Hh) as (? & _). done.
  - exact (proj1 (Forall_lookup _ _) (fit_low _ _ _ Hf) _ _ Hh).
Qed.

Lemma fits_type n s p k id h :
  fits n s p → s !! k = Some id → active p !! k = Some h → h_type h = id ∧ h_len h = plen id.
Proof.
  intros [_ _ _ _ [pl E]] Hk Hh. apply (f_equal (.!! k)) in E.
  rewrite list_lookup_fmap, Hh in E. rewrite lookup_app_l in E by (rewrite length_fmap; by eapply lookup_lt_Some).
  rewrite list_lookup_fmap, Hk in E. cbn in E. by injection E.
Qed.

(** A packet with the same header list. *)
Lemma fits_same n s p p' :
  fits n s p → length (buf p') = length (buf p) → start p' = start p → len p' = len p →
  scratch_len p' = scratch_len p → headers p' = headers p → header_count p' = header_count p → fits n s p'.
Proof.
  intros [[W1 W2 W3 W4 W5 W6] H1 H2 H3 H4] E1 E2 E3 E4 E5 E6.
  assert (active p' = active p) as Ea by (unfold active; by rewrite E5, E6).
  split; [split| | | |]; rewrite ?Ea, ?E1, ?E2, ?E3, ?E4, ?E5, ?E6; try done.
  eapply Forall_impl; [exact W6|]. intros h. unfold hdr_ok. by rewrite E2, E3, E4.
Qed.

Lemma fits_set_buf n s p b : fits n s p → length b = length (buf p) → fits n s (p <| buf := b |>).
Proof. intros Hf Hb. by apply (fits_same n s p). Qed.

Lemma fits_addr n s p f :
  fits n s p → 0 <= header_idx f < Z.of_nat (length s) → 0 <= hf_bitoffset f →
  ∃ h, dst_addr f p = Some (h_start h + hf_bitoffset f / 8) ∧ hdr p (header_idx f) = Some h ∧
    active p !! Z.to_nat (header_idx f) = Some h ∧ 0 <= h_start h <= HEADER_LIMIT.
Proof.
  intros Hf Hi Ho. destruct (fits_hdr n s p (header_idx f) Hf ltac:(lia)) as (h & Hh & Ha & Hs).
  exists h. unfold dst_addr, hdr. rewrite Hh. cbn [mbind option_bind].
  destruct (Z.leb_spec 0 (header_idx f)); [done|lia].
Qed.

Lemma field_ok_idx s f : field_ok s f → 0 <= header_idx f < Z.of_nat (length s) ∧ 0 <= hf_bitoffset f ∧
  0 < hf_bitcount f ∧ hf_bitoffset f + hf_bitcount f <= 320.
Proof.
  intros (? & ? & ? & id & Hid & ?). pose proof (plen_bound id). apply lookup_lt_Some in Hid. lia.
Qed.

(** An octet near the start of a header. *)
Lemma fits_octet n s p i k :
  fits n s p → 0 <= i <= Z.of_nat (length s) → 0 <= k <= 1024 → ∃ x, hdr_octet p i k = Some x.
Proof.
  intros Hf Hi Hk. destruct (fits_hdr n s p i Hf Hi) as (h & Hh & _ & Hs). unfold hdr_octet, hdr.
  destruct (Z.leb_spec 0 i); [|lia]. rewrite Hh. cbn [mbind option_bind].
  apply load_in_range. unfold in_range. rewrite (fits_buf _ _ _ Hf). unfold HEADER_LIMIT in *. unfold_limits. lia.
Qed.

(** ** Writing fields *)

(** A value whose octets can be read whatever the packet buffer holds. *)
Definition source_total (v : Value) (n : nat) (k : Z) : Prop :=
  ∀ b i, length b = n → 0 <= i < k → ∃ x, src_octet v b i = Some x.

Section writers.
Context (v : Value) (n : nat) (d k : Z).
Context (Hv : source_total v n k) (Hd : 0 <= d) (Hk : d + k <= Z.of_nat n).

Lemma write_masked_total b i mask :
  length b = n → 0 <= i < k → ∃ b', write_masked v b d i mask = Some b' ∧ length b' = n.
Proof.
  intros Hb Hi. unfold write_masked.
  destruct (load_in_range b (d + i)) as [old ->]; [unfold in_range; lia|]. cbn [mbind option_bind].
  rewrite store_in_range by (unfold in_range; lia). cbn [mbind option_bind]. set (b1 := <[_ := _]> b).
  assert (length b1 = n) as Hb1 by (unfold b1; by rewrite length_insert).
  destruct (load_in_range b1 (d + i)) as [cur ->]; [unfold in_range; lia|]. cbn [mbind option_bind].
  destruct (Hv b1 i Hb1 Hi) as [x ->]. cbn [mbind option_bind].
  rewrite store_in_range by (unfold in_range; lia). eexists. split; [done|]. by rewrite length_insert.
Qed.

Lemma copy_octets_total m b first :
  length b = n → 0 <= first → first + Z.of_nat m <= k → ∃ b', copy_octets m v b d first = Some b' ∧ length b' = n.
Proof.
  revert b first. induction m as [|m IH]; intros b first Hb Hf Hm; cbn [copy_octets]; [eauto|].
  destruct (Hv b first Hb ltac:(lia)) as [x ->]. cbn [mbind option_bind].
  rewrite store_in_range by (unfold in_range; lia). cbn [mbind option_bind].
  apply IH; [by rewrite length_insert | lia..].
Qed.
End writers.

Lemma writer_total f v w p d :
  header_get_field_writer f v = Some w → dst_addr f p = Some d → 0 <= d → 0 <= hf_bitoffset f → 0 < hf_bitcount f →
  d + field_octets f <= Z.of_nat (length (buf p)) → source_total v (length (buf p)) (field_octets f) →
  ∃ b, w f v p = Some (p <| buf := b |>) ∧ length b = length (buf p).
Proof.
  intros Hw Ha Hd Ho Hc Hk Hv. unfold header_get_field_writer in Hw.
  destruct (same_shape f v) eqn:Hs; [|done]. apply same_shape_true in Hs as [Ec Eo]. cbn [negb] in Hw.
  unfold field_octets in *. set (o := hf_bitoffset f mod 8) in *. set (c := hf_bitcount f) in *.
  assert (0 <= o < 8) by (unfold o; lia).
  pose proof (write_masked_total v _ d _ Hv Hd Hk) as WM. pose proof (copy_octets_total v _ d _ Hv Hd Hk) as CO.
  destruct (octet_aligned f v) eqn:Hal; [|destruct (Z.leb_spec (o + c) 8)]; injection Hw as <-.
  - unfold octet_aligned in Hal. fold o c in Hal. rewrite !andb_true_iff, !Z.eqb_eq in Hal.
    unfold write_bytes. rewrite Ha. cbn [mbind option_bind].
    destruct (CO (Z.to_nat (v_bitcount v / 8)) (buf p) 0) as (b & -> & Hb); [done | lia..|]. eexists. split; [done|]. done.
  - unfold write_bits. rewrite Ha. cbn [mbind option_bind].
    destruct (WM (buf p) 0 (octet_mask (hf_bitcount f) (u32 (8 - hf_bitoffset f mod 8 - hf_bitcount f))))
      as (b & -> & Hb); [done | lia|]. eexists. split; [done|]. done.
  - unfold write_generic. rewrite Ha. cbn [mbind option_bind]. fold o c. rewrite Z.min_r by lia.
    destruct (WM (buf p) 0 (octet_mask (8 - o) (u32 (8 - o - (8 - o))))) as (b1 & -> & Hb1); [done | lia|].
    cbn [mbind option_bind]. set (rb := c - (8 - o)). assert (0 < rb) by (unfold rb; lia).
    assert (c = rb + (8 - o)) as Ecr by (unfold rb; lia). clearbody rb.
    destruct (CO (Z.to_nat (rb / 8)) b1 1) as (b2 & -> & Hb2); [done | lia..|]. cbn [mbind option_bind].
    destruct (Z.eqb_spec (rb - rb / 8 * 8) 0); cbn [negb]; [eauto|].
    destruct (WM b2 (1 + rb / 8) (octet_mask (rb - rb / 8 * 8) (8 - (rb - rb / 8 * 8)))) as (b3 & -> & Hb3); [done | lia|].
    eexists. split; [done|]. done.
Qed.

(** Constants, and fields of the packet itself. *)
Lemma const_total v n f : const_ok v → same_shape f v = true → source_total v n (field_octets f).
Proof.
  intros (m & E & _ & Ho & Hl) [Ec Eo]%same_shape_true b i _ Hi. unfold src_octet. rewrite E.
  apply load_in_range. unfold in_range, field_octets in *. lia.
Qed.

Lemma packet_total a off cnt n f :
  0 <= a → same_shape f (mk_value (PtrPacket a) off cnt) = true → 0 <= off < 8 →
  a + (off + cnt + 7) / 8 <= Z.of_nat n → source_total (mk_value (PtrPacket a) off cnt) n (field_octets f).
Proof.
  intros Ha [Ec Eo]%same_shape_true Ho Hl b i <- Hi. unfold src_octet. cbn in *.
  apply load_in_range. unfold in_range, field_octets in *. lia.
Qed.

Lemma writer_shape f v w : header_get_field_writer f v = Some w → same_shape f v = true.
Proof. unfold header_get_field_writer. by destruct (same_shape f v). Qed.

(** The writer of an accepted assignment with any value of the agreed shape. *)
Lemma assign_writes n s p f w v :
  fits n s p → field_ok s f → writes w f (v_bitoffset v) (v_bitcount v) →
  (same_shape f v = true → source_total v (length (buf p)) (field_octets f)) →
  ∃ b, w f v p = Some (p <| buf := b |>) ∧ length b = length (buf p).
Proof.
  intros Hf Hk Hw Hv. destruct (field_ok_idx s f Hk) as (Hi & Ho & Hc & Ht).
  destruct (fits_addr n s p f Hf Hi Ho) as (h & Ha & _ & _ & Hs).
  specialize (Hw (value v)). assert (mk_value (value v) (v_bitoffset v) (v_bitcount v) = v) as E by (by destruct v).
  rewrite E in Hw. eapply writer_total; [done | done | unfold HEADER_LIMIT in *; lia | done | done | |].
  - rewrite (fits_buf _ _ _ Hf). unfold field_octets, HEADER_LIMIT in *. unfold_limits. lia.
  - apply Hv. by eapply writer_shape.
Qed.

(** ** Assignments *)

(** What the translation relies on of the property readers of interfaces: they
    hand a constant of the shape of the target to the consumer. *)
Definition reader_ok (rd : ConfA.producer) (off cnt : Z) : Prop :=
  ∃ v, const_ok v ∧ v_bitoffset v = off mod 8 ∧ v_bitcount v = cnt ∧ ∀ w f p, rd w f p = w f v p.

Class PropertyReaders (c : ConfA.Conf) := property_readers ifc prop t off cnt rd :
  ConfA.get_property_reader c ifc prop t off cnt = Some rd → reader_ok rd off cnt.

(** An action on the packet alone is safe from a stack to another one. *)
Definition edits (n : Z) (s : stack) (f : Packet → option Packet) : Prop :=
  ∀ p, fits n s p → ∃ p', f p = Some p' ∧ fits n s p'.

Lemma read_field_total n s p f hf w :
  fits n s p → field_ok s f → source_field_ok s hf → writes w f (hf_bitoffset hf) (hf_bitcount hf) →
  ∃ b, read_bytes hf w f p = Some (p <| buf := b |>) ∧ length b = length (buf p).
Proof.
  intros Hf Hk (Hi & Ho & Hc & Ht) Hw. destruct (fits_addr n s p hf Hf Hi Ho) as (h & Ha & _ & _ & Hs).
  unfold read_bytes, field_value. rewrite Ha. cbn [mbind option_bind]. eapply (assign_writes n s); [done | done | |].
  - intros ptr. specialize (Hw ptr). unfold header_get_field_writer, octet_aligned, same_shape in *. cbn in *.
    by rewrite Zmod_mod.
  - intros Hsh. apply packet_total; [lia | done | lia |].
    rewrite (fits_buf _ _ _ Hf). unfold HEADER_LIMIT in *. unfold_limits. lia.
Qed.

Lemma const_writes n s p f w v :
  fits n s p → field_ok s f → const_ok v → writes w f (v_bitoffset v) (v_bitcount v) →
  ∃ b, w f v p = Some (p <| buf := b |>) ∧ length b = length (buf p).
Proof. intros Hf Hk Hv Hw. eapply (assign_writes n s); [done | done | done|]. by apply const_total. Qed.

(** Duplicating a constant keeps its octets. *)
Lemma copy_const_ok v : 0 <= v_bitcount v → const_ok v →
  ∃ v', copy_value v = Some v' ∧ const_ok v' ∧ v_bitoffset v' = v_bitoffset v ∧ v_bitcount v' = v_bitcount v.
Proof.
  intros Hc (m & E & Hb & Ho & Hl). unfold copy_value. rewrite E. zcases. eexists. split; [done|]. split; [|done].
  eexists. cbn. split_and!; [done | by apply Forall_take | lia | lia |]. rewrite length_take. lia.
Qed.

(** ** Metadata actions *)

Lemma load_octets_total k m a :
  0 <= a → a + Z.of_nat k <= Z.of_nat (length m) → ∃ l, load_octets k m a = Some l ∧ length l = k.
Proof.
  revert a. induction k as [|k IH]; intros a Ha Hk; cbn [load_octets]; [by exists []|].
  destruct (load_in_range m a) as [x ->]; [unfold in_range; lia|]. cbn [mbind option_bind].
  destruct (IH (a + 1)) as (l & -> & Hl); [lia..|]. cbn [mbind option_bind]. eexists. split; [done|]. cbn. lia.
Qed.

Lemma word_from_total w m a k :
  0 <= a → a + 4 <= Z.of_nat (length m) → k <= 4 → ∃ x, word_from w m a k = Some x.
Proof.
  intros Ha Hm Hk. unfold word_from. zcases.
  destruct (load_octets_total (Z.to_nat k) m a) as (l & -> & _); [lia..|]. cbn [mbind option_bind]. eauto.
Qed.

Lemma word_to_total w m a k :
  0 <= a → a + 4 <= Z.of_nat (length m) → k <= 4 → ∃ m', word_to w m a k = Some m' ∧ length m' = length m.
Proof.
  intros Ha Hm Hk. unfold word_to. zcases.
  edestruct (store_octets_total m a) as [m' E]; [done| |rewrite E].
  - rewrite length_take. unfold word_octets. cbn [length]. lia.
  - exists m'. split; [done|]. by eapply store_octets_length.
Qed.

(** The action runs on every packet that fits [s] with [n] octets of scratch
    space and leaves one that fits [s'] and [n']. *)
Definition exec_safe (n : Z) (s : stack) (a : Action) (n' : Z) (s' : stack) : Prop :=
  ∀ (env : Env) (w : World) p, fits n s p →
    ∃ r p' ev, packet_execute env w a p = Some (r, p', ev) ∧ fits n' s' p'.

Lemma meta_addr n s p f :
  fits n s p → meta_ok s f →
  ∃ a v6, dst_addr f p = Some a ∧ is_ipv6 p f = Some v6 ∧ 0 <= a ∧ a + 4 <= Z.of_nat (length (buf p)) ∧
    hf_bitcount f / 8 <= 4.
Proof.
  intros Hf (Hk & H32 & id & Hid & Hm). destruct (field_ok_idx s f Hk) as (Hi & Ho & Hc & Ht).
  destruct (fits_addr n s p f Hf Hi Ho) as (h & Ha & Hh & _ & Hs).
  exists (h_start h + hf_bitoffset f / 8). eexists. unfold is_ipv6. rewrite Hh. cbn [mbind option_bind].
  rewrite (fits_buf _ _ _ Hf). unfold HEADER_LIMIT in *. unfold_limits. split_and!; [done | done | lia..].
Qed.

Lemma filteroam_safe n s f : meta_ok s f → exec_safe n s (ACTION_FILTEROAM f) n s.
Proof.
  intros Hm env w p Hf. destruct (meta_addr n s p f Hf Hm) as (a & v6 & Ha & _ & H0 & H4 & Hb).
  cbn [packet_execute]. unfold action_FILTEROAM_execute. rewrite Ha. cbn [mbind option_bind].
  destruct (word_from_total (Pipe.junk_word env (Pipe.reads w)) (buf p) a (hf_bitcount f / 8)) as [x ->]; [done..|].
  cbn [mbind option_bind]. do 3 eexists. split; [done|]. done.
Qed.

Lemma readseq_safe n s f : meta_ok s f → exec_safe n s (ACTION_READSEQ f) n s.
Proof.
  intros Hm env w p Hf. destruct (meta_addr n s p f Hf Hm) as (a & v6 & Ha & H6 & H0 & H4 & Hb).
  cbn [packet_execute]. unfold action_READSEQ_execute. rewrite Ha. cbn [mbind option_bind]. rewrite H6. cbn [mbind option_bind].
  destruct v6.
  - destruct (load_octets_total 4 (buf p) a) as (l & -> & _); [lia..|]. cbn [mbind option_bind].
    do 3 eexists. split; [done|]. by apply (fits_same n s p).
  - destruct (word_from_total (sequence p) (buf p) a (hf_bitcount f / 8)) as [x ->]; [done..|]. cbn [mbind option_bind].
    do 3 eexists. split; [done|]. by apply (fits_same n s p).
Qed.

Lemma readtstamp_safe n s f : meta_ok s f → exec_safe n s (ACTION_READTSTAMP f) n s.
Proof.
  intros Hm env w p Hf. destruct (meta_addr n s p f Hf Hm) as (a & v6 & Ha & _ & H0 & H4 & Hb).
  cbn [packet_execute]. unfold action_READTSTAMP_execute. rewrite Ha. cbn [mbind option_bind].
  destruct (word_from_total (timestamp p) (buf p) a (hf_bitcount f / 8)) as [x ->]; [done..|]. cbn [mbind option_bind].
  do 3 eexists. split; [done|]. by apply (fits_same n s p).
Qed.

Lemma writeseq_safe n s f : meta_ok s f → exec_safe n s (ACTION_WRITESEQ f) n s.
Proof.
  intros Hm env w p Hf. destruct (meta_addr n s p f Hf Hm) as (a & v6 & Ha & H6 & H0 & H4 & Hb).
  cbn [packet_execute]. unfold action_WRITESEQ_execute. rewrite Ha, H6. cbn [mbind option_bind]. destruct v6.
  - destruct (load_in_range (buf p) a) as [d0 ->]; [unfold in_range; lia|]. cbn [mbind option_bind].
    edestruct (store_octets_total (buf p) a) as [b E]; [done | | rewrite E]; [cbn; lia|]. cbn [mbind option_bind].
    do 3 eexists. split; [done|]. apply fits_set_buf; [done|]. by eapply store_octets_length.
  - destruct (word_to_total (sequence p) (buf p) a 4) as (b & -> & L); [done..|]. cbn [mbind option_bind].
    do 3 eexists. split; [done|]. by apply fits_set_buf.
Qed.

Lemma writetstamp_safe n s f : meta_ok s f → exec_safe n s (ACTION_WRITETSTAMP f) n s.
Proof.
  intros Hm env w p Hf. destruct (meta_addr n s p f Hf Hm) as (a & v6 & Ha & _ & H0 & H4 & Hb).
  cbn [packet_execute]. unfold action_WRITETSTAMP_execute. rewrite Ha. cbn [mbind option_bind].
  destruct (word_to_total (timestamp p) (buf p) a (hf_bitcount f / 8)) as (b & -> & L); [done..|]. cbn [mbind option_bind].
  do 3 eexists. split; [done|]. by apply fits_set_buf.
Qed.

(** The octets of a field of whole octets. *)
Lemma field_addr n s p f :
  fits n s p → field_ok s f → ∃ a, dst_addr f p = Some a ∧ 0 <= a ∧ a + 1 < Z.of_nat (length (buf p)).
Proof.
  intros Hf Hk. destruct (field_ok_idx s f Hk) as (Hi & Ho & Hc & Ht).
  destruct (fits_addr n s p f Hf Hi Ho) as (h & Ha & _ & _ & Hs). eexists. split; [done|].
  rewrite (fits_buf _ _ _ Hf). unfold HEADER_LIMIT in *. unfold_limits. lia.
Qed.

Lemma setlength_safe n s f b i :
  field_ok s f → 0 <= i <= Z.of_nat (length s) → exec_safe n s (ACTION_SETLENGTH f b i) n s.
Proof.
  intros Hk Hi env w p Hf. destruct (field_addr n s p f Hf Hk) as (a & Ha & H0 & H1).
  destruct (fits_hdr n s p i Hf Hi) as (h & Hh & _ & _).
  cbn [packet_execute]. unfold action_SETLENGTH_execute, hdr. rewrite Ha. cbn [mbind option_bind].
  destruct (Z.leb_spec 0 i); [|lia]. rewrite Hh. cbn [mbind option_bind].
  edestruct (store2_total (buf p) a) as (b1 & b2 & _ & _ & E & L); [done | done | rewrite E].
  cbn [mbind option_bind]. do 3 eexists. split; [done|]. by apply fits_set_buf.
Qed.

Lemma ttlreduce_safe n s f c d :
  field_ok s f → (header_idx c = header_idx f → field_ok s c) → exec_safe n s (ACTION_TTLREDUCE f c d) n s.
Proof.
  intros Hk Hc env w p Hf. destruct (field_addr n s p f Hf Hk) as (a & Ha & H0 & H1).
  cbn [packet_execute]. unfold action_TTLREDUCE_execute. rewrite Ha. cbn [mbind option_bind].
  destruct (load_in_range (buf p) a) as [t ->]; [unfold in_range; lia|]. cbn [mbind option_bind].
  rewrite store_in_range by (unfold in_range; lia). cbn [mbind option_bind]. set (t' := if t >? 0 then _ else _).
  set (p1 := p <| buf := _ |> <| ttl := t' |>).
  assert (fits n s p1) as Hf1 by (apply (fits_same n s p); try done; cbn; by rewrite length_insert).
  destruct (Z.eqb_spec (header_idx c) (header_idx f)) as [E|]; cbn [mbind option_bind]; [|do 3 eexists; split; [done|done]].
  destruct (field_addr n s p1 c Hf1 (Hc E)) as (a' & -> & H0' & H1'). cbn [mbind option_bind].
  destruct (load_in_range (buf p1) a') as [hi ->]; [unfold in_range; lia|].
  destruct (load_in_range (buf p1) (a' + 1)) as [lo ->]; [unfold in_range; lia|]. cbn [mbind option_bind].
  edestruct (store2_total (buf p1) a') as (b1 & b2 & _ & _ & E2 & L); [done | done | rewrite E2].
  cbn [mbind option_bind]. do 3 eexists. split; [done|]. by apply fits_set_buf.
Qed.

(** ** Adding and deleting headers *)

Lemma fits_count n s p : fits n s p → header_count p = Z.of_nat (length s) + 1.
Proof.
  intros Hf. pose proof (fits_length _ _ _ Hf) as L. pose proof (length_active _ (fit_wf _ _ _ Hf)) as L'.
  pose proof (wf_count _ (fit_wf _ _ _ Hf)). lia.
Qed.

Lemma add_succeeds n s p k id hlen :
  fits n s p → (k <= length s)%nat → (S (length s) < 20)%nat → 0 <= hlen <= 64 → n + hlen < SCRATCH_ROOM →
  ∃ p', packet_add_header p (Z.of_nat k) id hlen = (true, p') ∧ start p' = start p ∧
    scratch_len p' = scratch_len p + hlen.
Proof.
  intros Hf Hk Hs Hl Hn. pose proof (fits_count _ _ _ Hf) as Hc. destruct Hf as [[] Hst Hsc _ _].
  unfold packet_add_header, scratch_alloc. rewrite Hc. unfold SCRATCH_ROOM in *. unfold_limits. zcases. all: rewrite ?u32_small in * by (unfold is_u32; lia).
  all: cbn; eauto; lia.
Qed.

Lemma add_safe n s k id :
  (k <= length s)%nat → (S (length s) < 20)%nat → n + plen id < SCRATCH_ROOM →
  exec_safe n s (ACTION_ADD (Z.of_nat k) id (plen id)) (n + plen id) (take k s ++ id :: drop k s).
Proof.
  intros Hk Hs Hn env w p Hf. pose proof (plen_bound id) as Hp.
  destruct (add_succeeds n s p k id (plen id) Hf Hk Hs ltac:(lia) Hn) as (p' & E & Est & Esc).
  cbn [packet_execute]. unfold action_ADD_execute. rewrite E. do 3 eexists. split; [done|]. cbn [snd].
  pose proof (active_add _ _ _ _ _ (fit_wf _ _ _ Hf) (Nat2Z.is_nonneg k) E) as (Ha & _ & _). rewrite Nat2Z.id in Ha.
  destruct Hf as [Hwf Hst Hsc Hlow [pl Epl]]. split.
  - pose proof (add_wf p (Z.of_nat k) id (plen id) Hwf ltac:(lia) ltac:(lia)) as W. by rewrite E in W.
  - by rewrite Est.
  - lia.
  - rewrite Ha. apply Forall_app. split; [by apply Forall_take|]. constructor; [|by apply Forall_drop].
    cbn. unfold HEADER_LIMIT. unfold SCRATCH_ROOM in *. unfold_limits. lia.
  - exists pl. rewrite Ha, fmap_app, fmap_cons, fmap_take, fmap_drop, Epl. cbn [h_type h_len].
    rewrite take_app_le, drop_app_le by (rewrite length_fmap; lia).
    by rewrite fmap_app, fmap_cons, fmap_take, fmap_drop, <- app_assoc.
Qed.

Lemma del_safe n s k :
  (k < length s)%nat → exec_safe n s (ACTION_DEL (Z.of_nat k)) n (take k s ++ drop (S k) s).
Proof.
  intros Hk env w p Hf. pose proof (fits_count _ _ _ Hf) as Hc. destruct Hf as [Hwf Hst Hsc Hlow [pl Epl]].
  cbn [packet_execute]. unfold action_DEL_execute. do 3 eexists. split; [done|].
  pose proof (active_del p (Z.of_nat k) Hwf ltac:(lia)) as Ha. rewrite Nat2Z.id, Nat.add_1_r in Ha.
  assert (start (packet_del_header p (Z.of_nat k)) = start p ∧ scratch_len (packet_del_header p (Z.of_nat k)) = scratch_len p)
    as [E1 E2] by (unfold packet_del_header; by case_match).
  split.
  - apply del_wf; [done|lia].
  - by rewrite E1.
  - by rewrite E2.
  - rewrite Ha. apply Forall_app. split; [by apply Forall_take | by apply Forall_drop].
  - exists pl. rewrite Ha, fmap_app, fmap_take, fmap_drop, Epl.
    rewrite take_app_le, drop_app_le by (rewrite length_fmap; lia).
    by rewrite fmap_app, fmap_take, fmap_drop, <- app_assoc.
Qed.

(** ** Edits *)

Lemma edit_safe n s l :
  Forall (λ a, edits n s (edit_assign a)) l → exec_safe n s (ACTION_EDIT l) n s.
Proof.
  intros Hl env w p Hf. cbn [packet_execute]. unfold action_EDIT_execute.
  assert (∃ p', edit_assigns l p = Some p' ∧ fits n s p') as (p' & -> & Hp').
  { revert p Hf. induction Hl as [|a l Ha Hl IH]; intros p Hf; cbn [edit_assigns]; [eauto|].
    destruct (Ha p Hf) as (p1 & -> & Hf1). cbn [mbind option_bind]. by apply IH. }
  cbn [mbind option_bind]. eauto 10.
Qed.

(** ** Checksums *)

Lemma land_15 x : 0 <= Z.land x 15 <= 15.
Proof. assert (Z.land x 15 = x mod 16) as -> by (apply (land_ones_mod x 4); lia). lia. Qed.

(** The parameters of an accepted checksum or verify action. *)
Definition cp_ok (s : stack) (cp : ChecksumParameters) : Prop :=
  0 <= hdr_idx cp < Z.of_nat (length s) ∧
  (hdr_proto cp = PROTO_ID_IPv4 ∨ checksum_proto (hdr_proto cp) ∧ 0 <= ip_idx cp < Z.of_nat (length s)).

Lemma fits_hdr_at n s p i :
  fits n s p → 0 <= i <= Z.of_nat (length s) → ∃ h, hdr_at p i = Some h ∧ 0 <= h_start h <= HEADER_LIMIT.
Proof.
  intros Hf Hi. destruct (fits_hdr n s p i Hf Hi) as (h & Hh & _ & Hs). exists h. unfold hdr_at.
  destruct (Z.leb_spec 0 i); [done|lia].
Qed.

Lemma header_load n s p h k :
  fits n s p → 0 <= h_start h <= HEADER_LIMIT → 0 <= k <= 1024 → ∃ x, load (buf p) (h_start h + k) = Some x.
Proof.
  intros Hf Hs Hk. apply load_in_range. unfold in_range. rewrite (fits_buf _ _ _ Hf).
  unfold HEADER_LIMIT in *. unfold_limits. lia.
Qed.

Lemma header_sum n s p h k m sum :
  fits n s p → 0 <= h_start h <= HEADER_LIMIT → 0 <= k <= 1024 → 0 <= m <= 1024 →
  ∃ s', csum_partial_with wrap16 0 (buf p) (h_start h + k) m sum = Some s'.
Proof.
  intros Hf Hs Hk Hm. apply csum_partial_total; [lia | lia|]. rewrite (fits_buf _ _ _ Hf).
  unfold HEADER_LIMIT in *. unfold_limits. lia.
Qed.

Lemma payload_length_total n s p cp :
  fits n s p → 0 <= ip_idx cp < Z.of_nat (length s) → 0 <= hdr_idx cp < Z.of_nat (length s) →
  ∃ l, payload_length p cp = Some l ∧ 0 <= l.
Proof.
  intros Hf Hi Hh. unfold payload_length.
  destruct (fits_hdr_at n s p (ip_idx cp) Hf ltac:(lia)) as (ih & -> & Hs). cbn [mbind option_bind].
  assert (∀ k, 0 <= k <= 1024 → ∃ x, load (buf p) (h_start ih + k) = Some x) as Hl by (intros; by eapply header_load).
  assert (∃ l, (if decide (ip_version cp = PROTO_ID_IPv4) then
      l2 ← load (buf p) (h_start ih + 2); l3 ← load (buf p) (h_start ih + 3); i0 ← load (buf p) (h_start ih + 0);
      Some (u16 (u16 (Z.shiftl l2 8 + l3) - Z.land i0 15 * 4))
    else l4 ← load (buf p) (h_start ih + 4); l5 ← load (buf p) (h_start ih + 5); Some (u16 (Z.shiftl l4 8 + l5)))
    = Some l ∧ 0 <= l) as (l & -> & H0).
  { case_decide.
    - destruct (Hl 2) as [x2 ->]; [lia|]. destruct (Hl 3) as [x3 ->]; [lia|]. destruct (Hl 0) as [x0 ->]; [lia|].
      cbn [mbind option_bind]. eexists. split; [done|]. unfold u16. lia.
    - destruct (Hl 4) as [x4 ->]; [lia|]. destruct (Hl 5) as [x5 ->]; [lia|].
      cbn [mbind option_bind]. eexists. split; [done|]. unfold u16. lia. }
  cbn [mbind option_bind]. zcase; [eauto|].
  destruct (fits_hdr_at n s p (hdr_idx cp) Hf ltac:(lia)) as (h & -> & _). cbn [mbind option_bind].
  eexists. split; [done|]. unfold u16. lia.
Qed.

Lemma sum_headers_total b hs l sum :
  Forall (readable (Z.of_nat (length b))) hs → 0 <= l → ∃ s', sum_headers wrap16 b hs l sum = Some s'.
Proof.
  intros Hhs. revert l sum. induction Hhs as [|h hs (H1 & H2 & H3) Hhs IH]; intros l sum Hl; cbn [sum_headers]; [eauto|].
  destruct (csum_partial_total 0 b (h_start h) (Z.min l (h_len h)) sum) as [s' ->]; [lia..|]. cbn [mbind option_bind].
  apply IH. unfold u16. lia.
Qed.

Lemma fits_readable n s p k : fits n s p → Forall (readable (Z.of_nat (length (buf p)))) (drop k (active p)).
Proof. intros Hf. apply Forall_drop. rewrite (fits_buf _ _ _ Hf). apply wf_readable, Hf. Qed.

Lemma header_csum_total stk n s p cp : fits n s p → cp_ok s cp → ∃ x, header_csum wrap16 stk p cp = Some x.
Proof.
  intros Hf [Hh Hp].
  assert (hdr_proto cp = PROTO_ID_IPv4 ∨ 0 <= ip_idx cp < Z.of_nat (length s)) as Hp' by tauto.
  assert (hdr_proto cp ≠ PROTO_ID_IPv4 → ∃ x, icmpv4_csum wrap16 p cp = Some x) as Hicmp.
  { intros Hne. destruct Hp' as [?|Hi]; [congruence|]. unfold icmpv4_csum.
    destruct (payload_length_total n s p cp Hf Hi Hh) as (l & -> & Hl). cbn [mbind option_bind].
    destruct (sum_headers_total (buf p) (drop (Z.to_nat (hdr_idx cp)) (active p)) l 0) as [x ->];
      [by eapply fits_readable | done |]. cbn [mbind option_bind]. eauto. }
  assert (hdr_proto cp ≠ PROTO_ID_IPv4 → ∃ x, layer4_csum wrap16 stk p cp = Some x) as Hl4.
  { intros Hne. destruct Hp' as [?|Hi]; [congruence|]. unfold layer4_csum. destruct (protoid_of _) as [pid|]; [|eauto].
    destruct (payload_length_total n s p cp Hf Hi Hh) as (l & -> & Hl). cbn [mbind option_bind].
    destruct (fits_hdr_at n s p (ip_idx cp) Hf ltac:(lia)) as (ih & -> & Hs). cbn [mbind option_bind].
    assert (∃ x, (if decide (ip_version cp = PROTO_ID_IPv4)
      then csum_partial_with wrap16 0 (buf p) (h_start ih + 12) 8 0
      else csum_partial_with wrap16 0 (buf p) (h_start ih + 8) 32 0) = Some x) as [x ->].
    { case_decide; eapply (header_sum n s); (done || lia). }
    cbn [mbind option_bind]. edestruct (csum_partial_total stk (pseudo_header (ip_version cp) pid l)) as [y ->]; [lia..|].
    cbn [mbind option_bind].
    destruct (sum_headers_total (buf p) (drop (Z.to_nat (hdr_idx cp)) (active p)) l y) as [z ->];
      [by eapply fits_readable | done |]. cbn [mbind option_bind]. eauto. }
  unfold header_csum. destruct (hdr_proto cp) eqn:E; try (by apply Hl4); try (by apply Hicmp).
  destruct (fits_hdr_at n s p (hdr_idx cp) Hf ltac:(lia)) as (h & -> & Hs). cbn [mbind option_bind].
  unfold ipv4_header_csum. destruct (header_load n s p h 0 Hf Hs ltac:(lia)) as [i0 Hi0]. rewrite Z.add_0_r in Hi0.
  rewrite Hi0. cbn [mbind option_bind]. pose proof (land_15 i0).
  destruct (header_sum n s p h 0 (Z.land i0 15 * 4) 0 Hf Hs ltac:(lia) ltac:(lia)) as [x Hx]. rewrite Z.add_0_r in Hx.
  rewrite Hx. cbn [mbind option_bind]. eauto.
Qed.

Lemma checksum_safe n s cp : cp_ok s cp → exec_safe n s (ACTION_CHECKSUM cp) n s.
Proof.
  intros Hcp env w p Hf. cbn [packet_execute]. unfold action_CHECKSUM_execute, checksum_compute, checksum_compute_with.
  destruct (fits_hdr_at n s p (hdr_idx cp) Hf) as (h & -> & Hs); [destruct Hcp; lia|]. cbn [mbind option_bind].
  destruct (csum_pos (hdr_proto cp)) as [ps|] eqn:Ep; cbn [mbind option_bind]; [|do 3 eexists; done].
  assert (0 <= ps <= 16) by (destruct (hdr_proto cp); cbn in Ep; simplify_eq; lia).
  assert (∀ q, fits n s q → 0 <= h_start h + ps ∧ h_start h + ps + 1 < Z.of_nat (length (buf q))) as Hr.
  { intros q Hq. rewrite (fits_buf _ _ _ Hq). unfold HEADER_LIMIT in *. unfold_limits. lia. }
  destruct (Hr p Hf) as [H0 H1]. destruct (store2_total (buf p) (h_start h + ps) 0 0 H0 H1) as (_ & b2 & _ & _ & -> & L).
  cbn [mbind option_bind]. assert (fits n s (p <| buf := b2 |>)) as Hf2 by (by apply fits_set_buf).
  destruct (header_csum_total (Pipe.stack_base env) n s _ cp Hf2 Hcp) as [x ->]. cbn [mbind option_bind].
  destruct (Hr _ Hf2) as [H0' H1'].
  edestruct (store2_total (buf (p <| buf := b2 |>)) (h_start h + ps)) as (_ & b3 & _ & _ & E & L'); [done | done | rewrite E].
  cbn [mbind option_bind]. do 3 eexists. split; [done|]. by apply fits_set_buf.
Qed.

Lemma verify_safe n s cp : cp_ok s cp → exec_safe n s (ACTION_VERIFY cp) n s.
Proof.
  intros Hcp env w p Hf. cbn [packet_execute]. unfold action_VERIFY_execute, checksum_verify, checksum_verify_with.
  destruct (header_csum_total (Pipe.stack_base env) n s p cp Hf Hcp) as [x ->]. cbn [mbind option_bind].
  destruct (x =? 0); cbn [mbind option_bind]; do 3 eexists; done.
Qed.

(** ** Detection of OAM packets *)

Definition detects (n : Z) (s : stack) (d : OamDetect) : Prop :=
  ∀ p, fits n s p → (∃ b, packet_is_oam p d = Some b) ∧ (∃ c, elim_classify d p = Some c).

Lemma linear_total fuel hs last i :
  last < Z.of_nat (length hs) → last - Z.of_nat i <= Z.of_nat fuel → ∃ b, linear_from fuel hs last i = Some b.
Proof.
  revert i. induction fuel as [|fuel IH]; intros i Hl Hf; cbn [linear_from]; zcases; eauto.
  destruct (lookup_lt_is_Some_2 hs (i + 1)%nat) as [h1 ->]; [lia|].
  destruct (lookup_lt_is_Some_2 hs i) as [h0 ->]; [lia|]. cbn [mbind option_bind].
  destruct (_ =? _); [|eauto]. apply IH; lia.
Qed.

Lemma when_linear_total n s p c : fits n s p → (∃ x, c = Some x) → ∃ x, when_linear p c = Some x.
Proof.
  intros Hf Hc. unfold when_linear, packet_is_linear. pose proof (fits_count _ _ _ Hf) as Hn.
  destruct (fit_wf _ _ _ Hf) as [_ Ha Hcnt _ _ _]. unfold_limits.
  rewrite u32_small by (unfold is_u32; lia).
  destruct (linear_total (Z.to_nat 20) (headers p) (header_count p - 1) 1) as [b ->]; [lia..|].
  cbn [mbind option_bind]. destruct b; eauto.
Qed.

Lemma header_octets n s p i k m :
  fits n s p → 0 <= i <= Z.of_nat (length s) → 0 <= k <= 1024 → (m <= 1024)%nat →
  ∃ h l, hdr p i = Some h ∧ load_octets m (buf p) (h_start h + k) = Some l ∧ length l = m.
Proof.
  intros Hf Hi Hk Hm. destruct (fits_hdr n s p i Hf Hi) as (h & Hh & _ & Hs).
  destruct (load_octets_total m (buf p) (h_start h + k)) as (l & El & Hl); [lia| |].
  { rewrite (fits_buf _ _ _ Hf). unfold HEADER_LIMIT in *. unfold_limits. lia. }
  exists h, l. split_and!; [|done..]. unfold hdr. destruct (Z.leb_spec 0 i); [done|lia].
Qed.

Lemma elim_tsn_total n s p d :
  fits n s p → 0 <= rtag_index d < Z.of_nat (length s) → ∃ c, elim_tsn d p = Some c.
Proof.
  intros Hf Hr. unfold elim_tsn.
  destruct (header_octets n s p 0 6 6 Hf) as (h & l & -> & El & _); [lia..|]. cbn [mbind option_bind].
  rewrite El. cbn [mbind option_bind].
  destruct (fits_octet n s p (rtag_index d) 1 Hf) as [x ->]; [lia..|].
  destruct (fits_octet n s p (rtag_index d) 3 Hf) as [y ->]; [lia..|].
  destruct (fits_octet n s p (rtag_index d + 1) 0 Hf) as [z ->]; [lia..|]. cbn [mbind option_bind]. eauto.
Qed.

Lemma elim_dach_total n s p : fits n s p → 1 <= Z.of_nat (length s) → ∃ c, elim_dach p = Some c.
Proof.
  intros Hf Hr. unfold elim_dach.
  destruct (header_octets n s p 1 0 8 Hf) as (h & l & -> & El & Hl); [lia..|]. cbn [mbind option_bind].
  rewrite Z.add_0_r in El. rewrite El. cbn [mbind option_bind].
  do 8 (destruct l as [|? l]; [done|]). destruct l; [eauto|done].
Qed.

Lemma elim_srv6_total n s p : fits n s p → 1 <= Z.of_nat (length s) → ∃ c, elim_srv6 p = Some c.
Proof.
  intros Hf Hr. unfold elim_srv6. change (bytelength (protocol_from_id PROTO_ID_IPv6)) with 40.
  destruct (fits_octet n s p 1 23 Hf) as [x ->]; [lia..|]. destruct (fits_octet n s p 1 22 Hf) as [y ->]; [lia..|].
  destruct (fits_octet n s p 1 (40 + 5) Hf) as [z ->]; [lia..|]. destruct (fits_octet n s p 1 (40 + 7) Hf) as [u ->]; [lia..|].
  cbn [mbind option_bind]. eauto.
Qed.

(** The detection of a stack that starts with Ethernet, MPLS or IPv6. *)
Lemma detects_intro n s first rest r l o :
  (1 <= length s)%nat → 0 <= r < Z.of_nat (length s) → 0 <= l <= Z.of_nat (length s) → 0 <= o <= 1000 →
  detects n s (mk_detect (Some (first :: rest)) r l o).
Proof.
  intros Hs Hr Hl Ho p Hf. unfold packet_is_oam, elim_classify. cbn [protostack rtag_index last_index ethertype_offset head mbind option_bind].
  destruct (fits_octet n s p r 0 Hf) as [x Hx]; [lia..|].
  split.
  - destruct first; eauto.
    + zcase; cbn [negb].
      * destruct (fits_octet n s p l o Hf) as [y ->]; [lia..|]. destruct (fits_octet n s p l (o + 1) Hf) as [z ->]; [lia..|].
        cbn [mbind option_bind]. eauto.
      * rewrite Hx. cbn [mbind option_bind]. eauto.
    + destruct (fits_octet n s p 1 0 Hf) as [y ->]; [lia..|]. cbn [mbind option_bind]. eauto.
    + destruct (fits_octet n s p 0 36 Hf) as [y ->]; [lia..|]. cbn [mbind option_bind]. eauto.
  - destruct first; eauto.
    + zcase; cbn [negb]; [eauto|]. rewrite Hx. cbn [mbind option_bind]. destruct (_ =? _); [|eauto].
      apply (when_linear_total n s); [done|]. apply (elim_tsn_total n s); [done|]. cbn. lia.
    + destruct (POF.SEQ_IS_OAM _); [|eauto]. apply (when_linear_total n s); [done|]. apply (elim_dach_total n s); [done|lia].
    + destruct (negb _); [|eauto]. apply (when_linear_total n s); [done|]. apply (elim_srv6_total n s); [done|lia].
Qed.

Lemma no_detect n s r l o : detects n s (mk_detect None r l o).
Proof. intros p _. cbn. eauto. Qed.

Lemma starts_with_length q s : PROTO_ID_PAYLOAD ∉ q → starts_with (q ++ [PROTO_ID_PAYLOAD]) s → (length q <= length s)%nat.
Proof.
  revert s. induction q as [|id q IH]; intros s Hn H; [cbn; lia|]. apply not_elem_of_cons in Hn as [Hne Hn].
  destruct H as [->|[Hh H]]; [done|]. destruct s as [|x s]; [done|]. cbn in *. specialize (IH s Hn H). lia.
Qed.

(** What [ANALYZE_PROTOSTACK] finds for an accepted stack. *)
Lemma analyze_detects n s p :
  detect_ok s p → ∃ d, analyze_protostack p = Some d ∧ detects n s d.
Proof.
  intros [Hin Hst].
  assert (∀ q r, p = q ++ [PROTO_ID_PAYLOAD] → bool_decide (PROTO_ID_PAYLOAD ∉ q) = true → q ≠ [] →
    analyze_protostack p = Some (mk_detect (Some p) r 0 0) → 0 <= r < Z.of_nat (length q) →
    ∃ d, analyze_protostack p = Some d ∧ detects n s d) as Hd.
  { intros q r -> Hq%bool_decide_eq_true Hne E Hr. eexists. split; [exact E|].
    pose proof (starts_with_length q s Hq Hst) as Hl. destruct q as [|x q]; [done|]. cbn [length] in *.
    apply detects_intro; lia. }
  unfold ConfA.oam_possible_protostacks in Hin.
  apply elem_of_cons in Hin as [->|Hin]; [apply (Hd [PROTO_ID_IPv6] 0); done|].
  apply elem_of_cons in Hin as [->|Hin]; [apply (Hd [PROTO_ID_MPLS; PROTO_ID_DCW] 0); done|].
  apply elem_of_cons in Hin as [->|Hin]; [apply (Hd [PROTO_ID_ETH; PROTO_ID_CVLAN; PROTO_ID_RTAG] 2); done|].
  apply elem_of_cons in Hin as [->|Hin]; [apply (Hd [PROTO_ID_ETH; PROTO_ID_SVLAN; PROTO_ID_RTAG] 2); done|].
  apply elem_of_cons in Hin as [->|Hin]; [apply (Hd [PROTO_ID_ETH; PROTO_ID_CVLAN] 0); done|].
  apply elem_of_cons in Hin as [->|Hin]; [apply (Hd [PROTO_ID_ETH; PROTO_ID_SVLAN] 0); done|].
  by apply elem_of_nil in Hin.
Qed.

End ActSafe.
