(* ===== verification/RunSafe.v ===== *)
(** * Running typed pipelines: no access outside a buffer

    [runs P n s l] says that the actions [l] are safe on every packet that fits
    the stack [s] with [n] octets of scratch space ([P] gives the actions of the
    branch pipelines).  A run of a world in which every iterator is at such a
    position never faults, and leaves such a world: whatever it does (hold the
    packet, replicate it, delete pipelines), every later run is safe too. *)

From S2P Require Import Prelude TimeUtils Protocol Packet HeaderField Checksum SeqGen SeqRecov SeqRecovSpec Pof Action Object Pipeline PipelineRun ConfTyping ActionSafe.
Import Time Pkt POF(ActionResult(..)) Act Obj Pipe Typing ActSafe.

Module RunSafe.

#[local] Open Scope list_scope.
#[local] Open Scope Z_scope.

(** Actions that use the packet as a whole. *)
Definition object_action (a : Action) : Prop :=
  match a with ACTION_DELAY _ _ | ACTION_POF _ | ACTION_SEQGEN _ => True | _ => False end.

Inductive runs (P : gmap nat (list Action)) : Z → stack → list Action → Prop :=
  | runs_nil n s : runs P n s []
  | runs_packet n s a n' s' l : exec_safe n s a n' s' → runs P n' s' l → runs P n s (a :: l)
  | runs_object n s a l : object_action a → runs P n s l → runs P n s (a :: l)
  | runs_elim n s o d l : detects n s d → runs P n s l → runs P n s (ACTION_ELIM o d :: l)
  | runs_oam n s mp d l : detects n s d → runs P n s l → runs P n s (ACTION_OAMRECEIVE mp d :: l)
  | runs_repl n s br o d l :
      detects n s d → (∀ b acts, b ∈ br → P !! b = Some acts → runs P n s acts) →
      runs P n s (ACTION_REPL br o d :: l).

Definition prog (w : World) : gmap nat (list Action) := actions <$> pipes w.

(** Pipelines may disappear, but do not change. *)
Definition shrinks (P P' : gmap nat (list Action)) : Prop := ∀ b acts, P' !! b = Some acts → P !! b = Some acts.

Lemma shrinks_refl P : shrinks P P.
Proof. by intros b acts. Qed.

Lemma shrinks_trans P Q R : shrinks P Q → shrinks Q R → shrinks P R.
Proof. intros H1 H2 b acts H. by apply H1, H2. Qed.

Lemma runs_shrink P P' n s l : shrinks P P' → runs P n s l → runs P' n s l.
Proof.
  intros Hs. induction 1 as [n s|n s a n' s' l He Hr IH|n s a l Ha Hr IH|n s o d l Hd Hr IH|n s mp d l Hd Hr IH|n s br o d l Hd Hb IH].
  - constructor.
  - by econstructor.
  - by constructor.
  - by constructor.
  - by constructor.
  - constructor; [done|]. intros b acts Hin Hl. apply (IH b acts Hin). by apply Hs.
Qed.

(** ** Safe worlds *)

(** The history buffers of a recovery object are allocated. *)
Definition obj_safe (o : PipelineObject) : Prop :=
  match o with PIPEOBJ_SEQREC r => RcvyWindow.rec_wf (Rcvy.main_rec r) | _ => True end.

Definition objs_safe (w : World) : Prop := ∀ o ob, objects w !! o = Some ob → obj_safe (obj ob).

Definition iter_safe (w : World) (pi : PipelineIterator) : Prop :=
  ∀ p pl, packet pi = Some p → pipes w !! pipe pi = Some pl →
    ∃ n s, fits n s p ∧ runs (prog w) n s (drop (pos_ pi) (actions pl)).

Definition safe_but (X : nat → Prop) (w : World) : Prop :=
  (∀ h pi, ¬ X h → iters w !! h = Some pi → iter_safe w pi) ∧ objs_safe w.

Definition safe : World → Prop := safe_but (λ _, False).

(** A run ends in a safe world, whose pipelines are those of [w]. *)
Definition no_fault (w : World) (o : Outcome World) : Prop :=
  match o with Ok w' => safe w' ∧ shrinks (prog w) (prog w') | Fault => False | Dangling | NoFuel => True end.

Lemma iter_safe_shrink w w' pi :
  shrinks (prog w) (prog w') → iter_safe w pi → iter_safe w' pi.
Proof.
  intros Hs Hi p pl Hp Hpl.
  assert (prog w !! pipe pi = Some (actions pl)) as H0 by (apply Hs; unfold prog; by rewrite lookup_fmap, Hpl).
  unfold prog in H0. rewrite lookup_fmap in H0. apply fmap_Some in H0 as (pl0 & Hpl0 & E).
  destruct (Hi p pl0 Hp Hpl0) as (n & s & Hf & Hr). exists n, s. split; [done|]. rewrite E. by eapply runs_shrink.
Qed.

(** ** References and iterators *)

(** Dropping references: iterators stay, pipelines and objects may go. *)
Definition releases (w : World) (o : Outcome World) : Prop :=
  match o with
  | Ok w' => iters w' = iters w ∧ shrinks (prog w) (prog w') ∧ (objs_safe w → objs_safe w')
  | Fault => False
  | Dangling | NoFuel => True
  end.

Lemma releases_refl w : releases w (Ok w).
Proof. split_and!; [done | apply shrinks_refl | done]. Qed.

Lemma releases_bind w (o : Outcome World) f :
  releases w o → (∀ w', o = Ok w' → releases w' (f w')) → releases w (o ≫= f).
Proof.
  intros Ho Hf. destruct o as [w1| | |]; try done. cbn [mbind outcome_bind]. specialize (Hf w1 eq_refl).
  destruct Ho as (E & S & O). destruct (f w1) as [w2| | |]; try done. destruct Hf as (E' & S' & O').
  split_and!; [congruence | by eapply shrinks_trans | auto].
Qed.

(** A world that differs in its events only. *)
Lemma releases_same w w' : iters w' = iters w → pipes w' = pipes w → objects w' = objects w → releases w (Ok w').
Proof. intros E1 E2 E3. split_and!; [done | unfold prog; rewrite E2; apply shrinks_refl|]. unfold objs_safe. by rewrite E3. Qed.

Lemma releases_from w w1 o :
  iters w1 = iters w → shrinks (prog w) (prog w1) → (objs_safe w → objs_safe w1) → releases w1 o → releases w o.
Proof.
  intros E S O H. destruct o as [w2| | |]; try done. destruct H as (E' & S' & O').
  split_and!; [congruence | by eapply shrinks_trans | auto].
Qed.

Lemma object_unref_releases w o : releases w (object_unref w o).
Proof.
  unfold object_unref. destruct (objects w !! o) as [ob|] eqn:Ho; [|done]. cbn [deref mbind outcome_bind].
  split_and!; [by case_match | unfold prog; case_match; apply shrinks_refl|]. intros Hs k ob'.
  unfold pipeline_object_unref. case_match eqn:E; cbn; [|intros [_ ?]%lookup_delete_Some; by eapply Hs].
  intros [[<- <-]|[_ ?]]%lookup_insert_Some; [|by eapply Hs]. specialize (Hs _ _ Ho).
  revert E. case_match; intros; by simplify_eq.
Qed.

Lemma unref_list_releases unref w l : (∀ w id, releases w (unref w id)) → releases w (unref_list unref w l).
Proof.
  intros Hu. revert w. induction l as [|id l IH]; intros w; cbn [unref_list]; [apply releases_refl|].
  apply releases_bind; [done|]. intros w' _. apply IH.
Qed.

Lemma delete_action_releases unref w a : (∀ w id, releases w (unref w id)) → releases w (delete_action unref w a).
Proof.
  intros Hu. destruct a; cbn [delete_action]; try apply object_unref_releases; try (by apply releases_same).
  apply releases_bind; [by apply unref_list_releases|]. intros w' _. destruct replobj; [apply object_unref_releases | apply releases_refl].
Qed.

Lemma delete_actions_releases unref w l : (∀ w id, releases w (unref w id)) → releases w (delete_actions unref w l).
Proof.
  intros Hu. revert w. induction l as [|a l IH]; intros w; cbn [delete_actions]; [apply releases_refl|].
  apply releases_bind; [by apply delete_action_releases|]. intros w' _. apply IH.
Qed.

Lemma shrinks_refcount w id pl z w' :
  pipes w !! id = Some pl → pipes w' = <[id := pl <| reference_count := z |>]> (pipes w) → prog w' = prog w.
Proof.
  intros Hpl E. unfold prog. rewrite E, fmap_insert. cbn. apply insert_id. by rewrite lookup_fmap, Hpl.
Qed.

Lemma unref_n_releases k w id : releases w (unref_n k w id).
Proof.
  revert w id. induction k as [|k IH]; intros w id; cbn [unref_n]; [done|].
  destruct (pipes w !! id) as [pl|] eqn:Hpl; [|done]. cbn [deref mbind outcome_bind].
  set (w1 := w <| pipes := _ |>). assert (prog w1 = prog w) as Ep by (by eapply shrinks_refcount).
  assert (∀ o, releases w1 o → releases w o) as Hw.
  { intros o. apply releases_from; [done | rewrite Ep; apply shrinks_refl | done]. }
  case_match; [|apply Hw, releases_refl]. apply Hw. eapply releases_bind.
  - eapply releases_from; [..|apply delete_actions_releases, IH]; [done | apply shrinks_refl | done].
  - intros w' _. split_and!; [done | | done]. unfold prog. cbn. rewrite fmap_delete.
    intros b acts [_ ?]%lookup_delete_Some. done.
Qed.

Lemma safe_but_releases X w o w' : releases w o → o = Ok w' → safe_but X w → safe_but X w'.
Proof.
  intros H -> [Hi Ho]. destruct H as (E & S & O). split; [|auto]. intros h pi Hx. rewrite E. intros Hh.
  eapply iter_safe_shrink; [done|]. by eapply Hi.
Qed.

Lemma delete_iterator_safe w h : safe_but (λ k, k = h) w → no_fault w (delete_iterator w h).
Proof.
  intros Hs. unfold delete_iterator. destruct (iters w !! h) as [pi|]; [|done]. cbn [deref mbind outcome_bind].
  pose proof (unref_n_releases (S (size (pipes w))) w (pipe pi)) as Hu. fold (pipeline_unref w (pipe pi)) in Hu.
  destruct (pipeline_unref w (pipe pi)) as [w1| | |] eqn:E; try done. cbn [mbind outcome_bind].
  pose proof (safe_but_releases _ _ _ _ Hu eq_refl Hs) as [Hi Ho]. destruct Hu as (_ & S & _).
  set (w2 := match packet pi with Some _ => _ | None => _ end).
  assert (iters w2 = iters w1 ∧ pipes w2 = pipes w1 ∧ objects w2 = objects w1) as (E1 & E2 & E3)
    by (unfold w2; by case_match).
  assert (prog w2 = prog w1) as Ep by (unfold prog; by rewrite E2).
  split; [split|].
  - intros k qi _. cbn. rewrite E1. intros [Hne Hk]%lookup_delete_Some.
    eapply (iter_safe_shrink w1); [|by eapply Hi]. change (shrinks (prog w1) (prog w2)). rewrite Ep. apply shrinks_refl.
  - intros k ob. cbn. rewrite E3. apply Ho.
  - change (shrinks (prog w) (prog w2)). by rewrite Ep.
Qed.

(** ** Actions other than replication *)

Lemma process_total now recv ob h p :
  obj_safe ob → ∃ r ob' w, process_packet now recv ob h p = Some (r, ob', p <| sequence := w |>) ∧ obj_safe ob'.
Proof.
  intros Hs.
  assert (∃ r ob' p', process_packet now recv ob h p = Some (r, ob', p') ∧ obj_safe ob') as (r & ob' & p' & E & Ho).
  { cbn [process_packet obj_class]. unfold obj_process. destruct ob as [g|r|q|r]; cbn.
    - destruct (Gen.seq_generator g p) as [q g']. cbn. eauto 10.
    - cbn in Hs. destruct (RcvyWindow.seq_recovery_wf (Rcvy.main_rec r) p Hs) as (b & r' & E & W & _). rewrite E.
      cbn [mbind option_bind]. eauto 10.
    - destruct (POF.pof_insert q h p now recv) as [r q']. cbn. eauto 10.
    - destruct (replicate_packet_passed r p) as [res r']. cbn. eauto 10. }
  destruct (process_frame _ _ _ _ _ _ _ _ E) as [x ->]. eauto 10.
Qed.

(** The iterator keeps its place; its packet is [p']. *)
Record stays (w w' : World) (h : nat) (pi : PipelineIterator) (p' : Packet) : Prop := {
  st_iters : iters w' = <[h := pi <| packet := Some p' |>]> (iters w);
  st_pipes : pipes w' = pipes w;
  st_objs : objs_safe w'
}.

#[global] Instance ActionResult_eq_dec : EqDecision ActionResult.
Proof. solve_decision. Defined.

Definition after (P : gmap nat (list Action)) (w : World) (h : nat) (pi : PipelineIterator) (n : Z) (s : stack)
    (l : list Action) (o : Outcome (ActionResult * World)) : Prop :=
  match o with
  | Ok (r, w') => ∃ p', stays w w' h pi p' ∧
      if decide (r = ACR_HOLD) then fits n s p' else ∃ n' s', fits n' s' p' ∧ runs P n' s' l
  | Fault => False
  | Dangling | NoFuel => True
  end.

Lemma after_same P w w' h pi n s l r p' :
  stays w w' h pi p' → fits n s p' → runs P n s l → after P w h pi n s l (Ok (r, w')).
Proof. intros Hs Hf Hr. exists p'. split; [done|]. case_decide; eauto. Qed.

Section execute.
Context (env : Env) (run : World → nat → Outcome World).

Lemma object_process_stays w o h pi p n s :
  objs_safe w → iters w !! h = Some pi → packet pi = Some p → fits n s p →
  match object_process env w o h with
  | Ok (_, w') => ∃ p', stays w w' h pi p' ∧ fits n s p'
  | Fault => False
  | Dangling | NoFuel => True
  end.
Proof.
  intros Hs Hh Hp Hf. unfold object_process, iter_packet, set_packet.
  destruct (objects w !! o) as [ob|] eqn:Ho; [|done]. cbn [deref mbind outcome_bind]. rewrite Hh. cbn [deref mbind outcome_bind].
  rewrite Hp. cbn [deref mbind outcome_bind].
  destruct (process_total (clock env (reads w)) (clock env (S (reads w))) (obj ob) h p (Hs _ _ Ho)) as (r & ob' & x & -> & Hob).
  cbn [access mbind outcome_bind]. cbn [iters]. cbn. rewrite Hh. cbn [deref mbind outcome_bind].
  exists (p <| sequence := x |>). split; [|by apply (fits_same n s p)]. split; [done | done|].
  intros k b. cbn. intros [[<- <-]|[_ ?]]%lookup_insert_Some; [done | by eapply Hs].
Qed.

Lemma object_process_after P w o h pi p n s l :
  objs_safe w → iters w !! h = Some pi → packet pi = Some p → fits n s p → runs P n s l →
  after P w h pi n s l (object_process env w o h).
Proof.
  intros Hs Hh Hp Hf Hr. pose proof (object_process_stays w o h pi p n s Hs Hh Hp Hf) as H.
  destruct (object_process env w o h) as [[r w']| | |]; try done. destruct H as (p' & ? & ?). by apply (after_same _ _ _ _ _ _ _ _ _ p').
Qed.

Lemma stays_same w h pi p w' :
  objs_safe w → iters w !! h = Some pi → packet pi = Some p →
  iters w' = iters w → pipes w' = pipes w → objects w' = objects w → stays w w' h pi p.
Proof.
  intros Hs Hh Hp E1 E2 E3. split; [rewrite E1; by apply PipeRun.iters_same | done|]. unfold objs_safe. by rewrite E3.
Qed.

Lemma elim_after P w o d h pi p n s l :
  objs_safe w → iters w !! h = Some pi → packet pi = Some p → fits n s p → detects n s d → runs P n s l →
  after P w h pi n s l (action_ELIM_execute env w o d h).
Proof.
  intros Hs Hh Hp Hf Hd Hr. unfold action_ELIM_execute, iter_packet. rewrite Hh. cbn [deref mbind outcome_bind].
  rewrite Hp. cbn [deref mbind outcome_bind]. destruct (Hd p Hf) as [_ [c ->]]. cbn [access mbind outcome_bind].
  destruct c as [| |session sq].
  - by apply (object_process_after P w o h pi p).
  - eapply after_same; [by apply stays_same | done | done].
  - destruct (objects w !! o) as [ob|] eqn:Ho; [|done]. cbn [deref mbind outcome_bind].
    destruct (obj ob) as [|r| |] eqn:Eo; try done.
    destruct (Rcvy.oam_recovery _ r session sq) as [accept r'] eqn:Er.
    assert (Rcvy.main_rec r' = Rcvy.main_rec r) as Em.
    { unfold Rcvy.oam_recovery, Rcvy.get_oam_rcvy in Er. repeat first [progress simplify_eq/= | case_match]; done. }
    eapply (after_same P _ _ _ _ _ _ _ _ p); [|done | done]. split; [by apply (PipeRun.iters_same w) | done|].
    intros k b. cbn. intros [[<- <-]|[_ ?]]%lookup_insert_Some; [|by eapply Hs]. cbn. rewrite Em.
    specialize (Hs _ _ Ho). by rewrite Eo in Hs.
Qed.

Lemma packet_after P w a h pi p n s n' s' l :
  objs_safe w → iters w !! h = Some pi → packet pi = Some p → fits n s p → exec_safe n s a n' s' → runs P n' s' l →
  after P w h pi n s l (p ← iter_packet w h; '(r, p, ev) ← access (packet_execute env w a p);
                        w ← set_packet w h (Some p); Ok (r, tick (emit w ev))).
Proof.
  intros Hs Hh Hp Hf He Hr. unfold iter_packet, set_packet. rewrite Hh. cbn [deref mbind outcome_bind].
  rewrite Hp. cbn [deref mbind outcome_bind]. destruct (He env w p Hf) as (r & p' & ev & E & Hf'). rewrite E.
  cbn [access mbind outcome_bind]. exists p'. split; [by split|].
  rewrite decide_False by exact (PipeRun.packet_execute_result env w a p r p' ev E). eauto.
Qed.

Lemma execute_after P w a h pi p n s l :
  (∀ br o d, a ≠ ACTION_REPL br o d) → objs_safe w → iters w !! h = Some pi → packet pi = Some p →
  fits n s p → runs P n s (a :: l) → after P w h pi n s l (execute env run w a h).
Proof.
  intros Hnr Hs Hh Hp Hf Hr. inversion Hr as [|? ? ? n' s' ? He Hl|? ? ? ? Ha Hl|? ? o d ? Hd Hl|? ? mp d ? Hd Hl|]; subst.
  - destruct a; try (by edestruct Hnr); try (by eapply packet_after);
      destruct (He env w p Hf) as (? & ? & ? & E & _); done.
  - destruct a; try done; cbn [execute]; try (by apply (object_process_after P w _ h pi p)).
    unfold action_DELAY_run, iter_packet, set_packet, action_DELAY_execute. rewrite Hh. cbn [deref mbind outcome_bind].
    rewrite Hp. cbn [deref mbind outcome_bind]. destruct offl; cbn;
      (eapply after_same; [split; [reflexivity | done | done] | by apply (fits_same n s p) | done]).
  - by apply (elim_after P w o d h pi p).
  - cbn [execute]. unfold action_OAMRECEIVE_execute, iter_packet. rewrite Hh. cbn [deref mbind outcome_bind].
    rewrite Hp. cbn [deref mbind outcome_bind]. destruct (Hd p Hf) as [[b ->] _]. cbn [access mbind outcome_bind].
    destruct b; (eapply after_same; [by apply stays_same | done | done]).
  - by edestruct Hnr.
Qed.
End execute.

(** ** Branches *)

Definition run_safe (run : World → nat → Outcome World) : Prop := ∀ w h, safe w → no_fault w (run w h).

Lemma no_fault_from w w1 o : shrinks (prog w) (prog w1) → no_fault w1 o → no_fault w o.
Proof. intros S H. destruct o; try done. destruct H. split; [done | by eapply shrinks_trans]. Qed.

(** The pipelines the packet may be given to. *)
Definition entry (w : World) (n : Z) (s : stack) (b : nat) : Prop :=
  ∀ acts, prog w !! b = Some acts → runs (prog w) n s acts.

Lemma entry_shrinks w w' n s b : shrinks (prog w) (prog w') → entry w n s b → entry w' n s b.
Proof. intros S H acts Ha. eapply runs_shrink; [done|]. by apply H, S. Qed.

Lemma new_iterator_safe w b p n s h w1 :
  safe w → entry w n s b → fits n s p → new_pipe_iterator w b p = Ok (h, w1) →
  safe w1 ∧ prog w1 = prog w ∧ iters w1 !! h = Some (mk_iter (Some p) b 0).
Proof.
  intros [Hi Ho] He Hf. unfold new_pipe_iterator, pipeline_ref. destruct (pipes w !! b) as [pl|] eqn:Hpl; [|done].
  cbn [deref mbind outcome_bind]. intros [= <- <-]. match goal with |- safe ?x ∧ _ => set (w1 := x) end.
  assert (prog w1 = prog w) as Ep by (by eapply shrinks_refcount).
  split_and!; [|done | apply lookup_insert_eq]. split; [|exact Ho]. intros k pi _. cbn.
  intros [[<- <-]|[_ Hk]]%lookup_insert_Some; [|eapply (iter_safe_shrink w); [rewrite Ep; apply shrinks_refl | eapply (Hi k); [tauto | done]]].
  intros q pl' [= <-] Hpl'. exists n, s. split; [done|]. rewrite Ep. cbn [pos_]. apply He.
  cbn in Hpl'. rewrite lookup_insert_eq in Hpl'. injection Hpl' as <-. unfold prog. by rewrite lookup_fmap, Hpl.
Qed.

Lemma pipeline_process_safe run w b p n s :
  run_safe run → safe w → entry w n s b → fits n s p →
  match pipeline_process run w b 0 p with
  | Ok (_, w') => safe w' ∧ shrinks (prog w) (prog w')
  | Fault => False
  | Dangling | NoFuel => True
  end.
Proof.
  intros Hrun Hs He Hf. unfold pipeline_process. destruct (pipes w !! b) as [pl|]; [|done]. cbn [deref mbind outcome_bind].
  case_bool_decide; [split; [done | apply shrinks_refl]|].
  destruct (new_pipe_iterator w b p) as [[h w1]| | |] eqn:En; try done; [|by revert En; unfold new_pipe_iterator, pipeline_ref; destruct (pipes w !! b)].
  cbn [mbind outcome_bind]. destruct (new_iterator_safe w b p n s h w1 Hs He Hf En) as (Hs1 & Ep & Hh). rewrite Hh.
  cbn [deref mbind outcome_bind]. match goal with |- context [run ?x h] => assert (x = w1) as -> end.
  { cbn. rewrite insert_id by done. by destruct w1. }
  pose proof (Hrun w1 h Hs1) as H1. unfold no_fault in H1. destruct (run w1 h) as [w2| | |]; try done. cbn. by rewrite Ep in H1.
Qed.

Section replicate.
Context (env : Env).
Hypothesis Hjunk : ∀ k, length (junk_buf env k) = Z.to_nat PACKET_BUF_LEN.

Lemma copy_packet_fits k p q pool pool' n s :
  fits n s p → copy_packet (junk_buf env k) p pool = Some (q, pool') → fits n s q.
Proof.
  intros Hf. unfold copy_packet. destruct (memcpy _ _ _ _ _) as [b|] eqn:E; [|done]. cbn [mbind option_bind].
  intros [= <- _]. apply (fits_same n s p); try done. cbn. unfold memcpy in E. case_match eqn:Hc; [|done].
  injection E as <-. rewrite !andb_true_iff, !Z.leb_le in Hc.
  rewrite !length_app, !length_take, !length_drop. specialize (Hjunk k). pose proof (fits_buf _ _ _ Hf). unfold_limits. lia.
Qed.

Lemma copy_packet_total k p pool n s : fits n s p → ∃ r, copy_packet (junk_buf env k) p pool = Some r.
Proof.
  intros Hf. unfold copy_packet, memcpy. pose proof (fits_buf _ _ _ Hf) as Hb. destruct Hf as [[_ _ _ ? ? _] ? _ _ _].
  specialize (Hjunk k). unfold_limits. rewrite (u32_small (start p + len p)) by (unfold is_u32; lia). zcases. cbn. eauto.
Qed.

Lemma replicate_safe run d p n s l :
  run_safe run → detects n s d → fits n s p →
  ∀ w is_oam, safe w → (∀ b, b ∈ l → entry w n s b) → no_fault w (replicate_to env run d l p is_oam w).
Proof.
  intros Hrun Hd Hf. induction l as [|b l IH]; intros w is_oam Hs He; cbn [replicate_to].
  { split; [done | apply shrinks_refl]. }
  destruct (pipes w !! b) as [pl|] eqn:Hpl; [|done]. cbn [deref mbind outcome_bind].
  assert (∃ x, branch_skipped d p pl is_oam = Some x) as [[skip is_oam'] ->].
  { unfold branch_skipped. destruct (mask pl); [|eauto]. destruct is_oam as [o|]; cbn [mbind option_bind]; [eauto|].
    destruct (Hd p Hf) as [[o ->] _]. cbn [mbind option_bind]. eauto. }
  cbn [access mbind outcome_bind].
  assert (∀ b, b ∈ l → entry w n s b) as Hl by (intros; apply He; by constructor).
  destruct skip.
  { destruct l as [|b' l]; [split; [done | apply shrinks_refl] | by apply IH]. }
  destruct l as [|b' l].
  - pose proof (pipeline_process_safe run w b p n s Hrun Hs (He b ltac:(constructor)) Hf) as H.
    destruct (pipeline_process run w b 0 p) as [[ok w1]| | |]; done.
  - destruct (copy_packet_total (reads w) p (pool w) n s Hf) as [[q pool'] Ec]. rewrite Ec. cbn [access mbind outcome_bind].
    set (w1 := tick (w <| pool := pool' |>)).
    pose proof (pipeline_process_safe run w1 b q n s Hrun Hs (He b ltac:(constructor)) (copy_packet_fits _ _ _ _ _ _ _ Hf Ec)) as H.
    destruct (pipeline_process run w1 b 0 q) as [[ok w2]| | |]; try done. cbn [mbind outcome_bind]. destruct H as [Hs2 S2].
    eapply no_fault_from; [exact S2|]. apply IH; [done|]. intros x Hx. eapply entry_shrinks; [exact S2|]. by apply Hl.
Qed.

(** ** Runs *)

Lemma stays_prog w w' h pi p' : stays w w' h pi p' → prog w' = prog w.
Proof. intros [_ E _]. unfold prog. by rewrite E. Qed.

Lemma stays_safe_but w w' h pi p' : safe w → stays w w' h pi p' → safe_but (λ k, k = h) w'.
Proof.
  intros [Hi _] St. split; [|apply St]. intros k qi Hne. rewrite (st_iters _ _ _ _ _ St).
  rewrite lookup_insert_ne by done. intros Hk. eapply (iter_safe_shrink w); [|eapply (Hi k); [tauto | done]].
  rewrite (stays_prog _ _ _ _ _ St). apply shrinks_refl.
Qed.

Lemma safe_update w h pi : safe_but (λ k, k = h) w → iter_safe w pi → safe (w <| iters := <[h := pi]> (iters w) |>).
Proof.
  intros [Hi Ho] Hpi. split; [|done]. intros k qi _. cbn. intros [[<- <-]|[Hne Hk]]%lookup_insert_Some; [done|].
  by eapply (Hi k qi).
Qed.

Lemma safe_lookup w h : safe_but (λ k, k = h) w → (∀ pi, iters w !! h = Some pi → iter_safe w pi) → safe w.
Proof. intros [Hi Ho] Hh. split; [|done]. intros k pi _ Hk. destruct (decide (k = h)) as [->|Hne]; eauto. Qed.

Lemma repl_safe run w br o d h pi p n s :
  run_safe run → safe w → iters w !! h = Some pi → packet pi = Some p → fits n s p →
  detects n s d → (∀ b acts, b ∈ br → prog w !! b = Some acts → runs (prog w) n s acts) →
  match action_REPL_execute env run w br o d h with
  | Ok (r, w') => r = ACR_DONE ∧ safe w' ∧ shrinks (prog w) (prog w')
  | Fault => False
  | Dangling | NoFuel => True
  end.
Proof.
  intros Hrun Hs Hh Hp Hf Hd Hb. unfold action_REPL_execute.
  assert (match (match o with Some o => '(_, w) ← object_process env w o h; Ok w | None => Ok w end) with
    | Ok w1 => ∃ p1, stays w w1 h pi p1 ∧ fits n s p1 | Fault => False | _ => True end) as Ho.
  { destruct o as [o|].
    - pose proof (object_process_stays env w o h pi p n s (proj2 Hs) Hh Hp Hf) as Ha.
      by destruct (object_process env w o h) as [[r w1]| | |].
    - exists p. split; [|done]. apply stays_same; try done. apply Hs. }
  destruct (match o with Some o => _ | None => _ end) as [w1| | |]; try done. cbn [mbind outcome_bind].
  destruct Ho as (p1 & St & Hf1). unfold iter_packet, set_packet. rewrite (st_iters _ _ _ _ _ St), lookup_insert_eq.
  cbn [deref mbind outcome_bind]. change (packet (pi <| packet := Some p1 |>)) with (Some p1). cbn [deref mbind outcome_bind].
  rewrite insert_insert_eq. set (w2 := w1 <| iters := _ |>).
  assert (prog w2 = prog w) as Ep by exact (stays_prog _ _ _ _ _ St).
  assert (safe w2) as Hs2.
  { pose proof (stays_safe_but _ _ _ _ _ Hs St) as Hb1.
    assert (w2 = w1 <| iters := <[h := pi <| packet := None |>]> (iters w1) |>) as ->.
    { unfold w2. rewrite (st_iters _ _ _ _ _ St), insert_insert_eq. done. }
    apply safe_update; [done|]. by intros ? ?. }
  assert (no_fault w (replicate_to env run d br p1 None w2)) as H.
  { eapply no_fault_from; [rewrite Ep; apply shrinks_refl|]. apply (replicate_safe run d p1 n s); try done.
    intros b Hin acts. rewrite Ep. by apply Hb. }
  unfold no_fault in H. destruct (replicate_to env run d br p1 None w2); done.
Qed.

Lemma execute_no_packet run w a h pi :
  iters w !! h = Some pi → packet pi = None → execute env run w a h = Dangling.
Proof.
  intros Hh Hp. assert (iter_packet w h = Dangling) as E by (unfold iter_packet; rewrite Hh; cbn; by rewrite Hp).
  assert (∀ o, object_process env w o h = Dangling) as Eo.
  { intros o. unfold object_process. rewrite E. by destruct (objects w !! o). }
  destruct a; cbn [execute]; unfold action_DELAY_run, action_ELIM_execute, action_OAMRECEIVE_execute, action_REPL_execute;
    rewrite ?Eo, ?E; try done.
  destruct replobj; [by rewrite Eo|]. cbn [mbind outcome_bind]. by rewrite E.
Qed.

Lemma safe_weaken h w : safe w → safe_but (λ k, k = h) w.
Proof. intros [Hi Ho]. split; [|done]. intros k pi _ Hk. apply (Hi k); [tauto | done]. Qed.

(** After an action other than replication: the run goes on with a safe world. *)
Lemma after_no_fault run w h pi pl n s a l r w' :
  run_safe run → safe w → pipes w !! pipe pi = Some pl → drop (pos_ pi) (actions pl) = a :: l →
  runs (prog w) n s (a :: l) → after (prog w) w h pi n s l (Ok (r, w')) →
  no_fault w (match r with
              | ACR_CONTINUE => w ← advance w' h; run w h
              | ACR_DONE => delete_iterator w' h
              | ACR_HOLD => Ok w'
              end).
Proof.
  intros Hrun Hs Hpl Hd Hr (p' & St & Hres). pose proof (stays_prog _ _ _ _ _ St) as Ep.
  pose proof (stays_safe_but _ _ _ _ _ Hs St) as Hb.
  assert (∀ k P, drop k (actions pl) = P → ∀ n' s' pi', fits n' s' p' → runs (prog w) n' s' P →
    pi' = pi <| packet := Some p' |> <| pos_ := k |> → iter_safe w' pi') as Hit.
  { intros k P EP n' s' pi' Hf' Hr' -> q pl' [= <-] Hpl'. cbn in Hpl'. rewrite (st_pipes _ _ _ _ _ St), Hpl in Hpl'.
    injection Hpl' as <-. exists n', s'. split; [done|]. rewrite Ep. cbn. by rewrite EP. }
  eapply no_fault_from; [rewrite <- Ep; apply shrinks_refl|].
  destruct r; [rewrite decide_False in Hres by done | rewrite decide_False in Hres by done | rewrite decide_True in Hres by done].
  - destruct Hres as (n' & s' & Hf' & Hr'). unfold advance. rewrite (st_iters _ _ _ _ _ St) at 1. rewrite lookup_insert_eq.
    cbn [deref mbind outcome_bind]. set (w2 := w' <| iters := _ |>).
    assert (safe w2) as Hs2.
    { apply safe_update; [done|]. eapply (Hit (S (pos_ pi)) l); [|done | done | done].
      rewrite <- Nat.add_1_r, <- drop_drop, Hd. done. }
    eapply no_fault_from; [|by apply Hrun]. apply shrinks_refl.
  - by apply delete_iterator_safe.
  - split; [|apply shrinks_refl]. eapply safe_lookup; [done|]. intros pi'. rewrite (st_iters _ _ _ _ _ St), lookup_insert_eq.
    intros [= <-]. eapply (Hit (pos_ pi) (a :: l)); [done | done | done | by destruct pi].
Qed.

Lemma run_never_faults fuel : run_safe (pipe_iterator_run env fuel).
Proof.
  induction fuel as [|fuel IH]; intros w h Hs; cbn [pipe_iterator_run]; [done|].
  destruct (iters w !! h) as [pi|] eqn:Hh; [|done]. cbn [deref mbind outcome_bind].
  destruct (pipes w !! pipe pi) as [pl|] eqn:Hpl; [|done]. cbn [deref mbind outcome_bind].
  destruct (actions pl !! pos_ pi) as [a|] eqn:Ha; [|by apply delete_iterator_safe, safe_weaken].
  destruct (packet pi) as [p|] eqn:Hp; [|by rewrite (execute_no_packet _ w a h pi Hh Hp)].
  destruct (proj1 Hs h pi ltac:(tauto) Hh p pl Hp Hpl) as (n & s & Hf & Hr).
  pose proof (drop_S _ _ _ Ha) as Hd. rewrite Hd in Hr.
  destruct (PipeRun.repl_or_not a) as [(br & o & d & ->)|Hnr].
  - cbn [execute]. inversion Hr as [|? ? ? n' s' ? He Hl|? ? ? ? Hx|? ? ? ? ? ? ?|? ? ? ? ? ? ?|? ? ? ? ? ? Hdet Hbr]; subst; try done.
    { destruct (He env w p Hf) as (? & ? & ? & E & _). done. }
    pose proof (repl_safe (pipe_iterator_run env fuel) w br o d h pi p n s IH Hs Hh Hp Hf Hdet Hbr) as H.
    destruct (action_REPL_execute env _ w br o d h) as [[r w']| | |]; try done. destruct H as (-> & Hs' & S').
    cbn [mbind outcome_bind]. eapply no_fault_from; [exact S'|]. by apply delete_iterator_safe, safe_weaken.
  - pose proof (execute_after env (pipe_iterator_run env fuel) (prog w) w a h pi p n s _ Hnr (proj2 Hs) Hh Hp Hf Hr) as H.
    destruct (execute env _ w a h) as [[r w']| | |]; try done. cbn [mbind outcome_bind].
    eapply after_no_fault; [done | done | exact Hpl | exact Hd | exact Hr | exact H].
Qed.

End replicate.
End RunSafe.
