(* ===== verification/Interface.v ===== *)
(** * Interfaces (interface.h, interface.c; if_utils.c: receiving, sending and
    processing of packets; property readers of if_eth.c and if_ip.c)

    Sockets, time stamps of the kernel and threads are outside the model: a
    received message is an argument of [iface_common_recv], and what is handed to
    [sendmsg] is the result of [iface_common_send]. *)

From S2P Require Import Prelude TimeUtils Protocol Packet HeaderField ParseTree Pof Action Octets Object Pipeline ConfUtils ConfActions ConfTyping ActionSafe.
Import Time Proto Pkt Field Parse Act Octets Pipe ConfU ConfA ActSafe.

Module Ifc.

#[local] Open Scope string_scope.
#[local] Open Scope list_scope.
#[local] Open Scope Z_scope.

Inductive IfaceType := IF_ETH | IF_INTERNAL | IF_IP | IF_OAM | IF_OAM_ETH | IF_OAM_CMD | IF_UDP_IN | IF_UDP_OUT.
Inductive IfaceState := IFSTATE_INIT | IFSTATE_OPEN | IFSTATE_SHUTDOWN.

#[global] Instance IfaceState_eq_dec : EqDecision IfaceState.
Proof. solve_decision. Defined.

Definition iface_type_str (t : IfaceType) : string :=
  match t with
  | IF_ETH => "Ethernet"
  | IF_INTERNAL => "Internal"
  | IF_IP => "IP"
  | IF_OAM => "OAM Return"
  | IF_OAM_ETH => "OAM ETH Return"
  | IF_OAM_CMD => "OAM Command"
  | IF_UDP_IN => "UDP In"
  | IF_UDP_OUT => "UDP Out"
  end.

(** ** Property readers *)

(** The private data of the interface types that have properties. *)
Inductive IfaceData := EthIfData (mac : list Z) | IpIfData (ipv4 ipv6 : list Z) | NoProperties.

Definition eth_mac_producer (mac : list Z) : producer :=
  λ consumer f p, consumer f (mk_value (PtrOwn mac) 0 (6 * 8)) p.

Definition eth_get_property_reader (mac : list Z) (property : string) (t : ProtocolFieldType)
    (bitoffset bitcount : Z) : option producer :=
  if negb (bool_decide (property = "mac")) then None
  else if negb (bool_decide (t = PFTYPE_MACADDRESS)) then None
  else if negb (bitoffset mod 8 =? 0) || negb (bitcount =? 6 * 8) then None
  else Some (eth_mac_producer mac).

Definition ip_ipv4_producer (ipv4 : list Z) : producer :=
  λ consumer f p, consumer f (mk_value (PtrOwn ipv4) 0 32) p.
Definition ip_ipv6_producer (ipv6 : list Z) : producer :=
  λ consumer f p, consumer f (mk_value (PtrOwn ipv6) 0 128) p.

Definition ip_get_property_reader (ipv4 ipv6 : list Z) (property : string) (t : ProtocolFieldType)
    (bitoffset bitcount : Z) : option producer :=
  if bool_decide (property = "srcip") then
    if bool_decide (t = PFTYPE_IPV4ADDRESS) then
      if negb (bitoffset mod 8 =? 0) || negb (bitcount =? 4 * 8) then None else Some (ip_ipv4_producer ipv4)
    else if bool_decide (t = PFTYPE_IPV6ADDRESS) then
      if negb (bitoffset mod 8 =? 0) || negb (bitcount =? 16 * 8) then None else Some (ip_ipv6_producer ipv6)
    else None
  else None.

Definition get_property_reader (d : IfaceData) : string → ProtocolFieldType → Z → Z → option producer :=
  match d with
  | EthIfData mac => eth_get_property_reader mac
  | IpIfData ipv4 ipv6 => ip_get_property_reader ipv4 ipv6
  | NoProperties => λ _ _ _ _, None
  end.

Definition data_ok (d : IfaceData) : Prop :=
  match d with
  | EthIfData mac => length mac = 6%nat ∧ bytes_ok mac
  | IpIfData ipv4 ipv6 => length ipv4 = 4%nat ∧ bytes_ok ipv4 ∧ length ipv6 = 16%nat ∧ bytes_ok ipv6
  | NoProperties => True
  end.

Lemma address_reader_ok m off cnt :
  bytes_ok m → Z.of_nat (length m) = cnt / 8 → 0 <= cnt → cnt mod 8 = 0 → off mod 8 = 0 →
  reader_ok (λ consumer f p, consumer f (mk_value (PtrOwn m) 0 cnt) p) off cnt.
Proof.
  intros Hb Hl H0 Hc Ho. exists (mk_value (PtrOwn m) 0 cnt). split_and!; [|by rewrite Ho | done | done].
  exists m. cbn. split_and!; [done | done | lia..].
Qed.

(** The test of the target shared by the readers. *)
Lemma target_check off cnt n (x rd : producer) :
  (if negb (off mod 8 =? 0) || negb (cnt =? n) then None else Some x) = Some rd →
  off mod 8 = 0 ∧ cnt = n ∧ rd = x.
Proof. destruct (Z.eqb_spec (off mod 8) 0), (Z.eqb_spec cnt n); intros [=]; done. Qed.

(** The readers satisfy what the translation of actions relies on. *)
Lemma get_property_reader_ok d prop t off cnt rd :
  data_ok d → get_property_reader d prop t off cnt = Some rd → reader_ok rd off cnt.
Proof.
  intros Hd H. destruct d as [mac|v4 v6|]; cbn in Hd; unfold get_property_reader in H; [| |done].
  - unfold eth_get_property_reader in H. repeat case_bool_decide; simpl negb in H; try done.
    apply target_check in H as (? & -> & ->). apply address_reader_ok; (tauto || lia).
  - unfold ip_get_property_reader in H. destruct Hd as (L4 & B4 & L6 & B6).
    repeat case_bool_decide; simpl negb in H; try done; apply target_check in H as (? & -> & ->);
      apply address_reader_ok; (done || lia).
Qed.

(** ** The interface structure *)

Record Interface := mk_iface {
  if_type : IfaceType;
  if_references : Z;
  if_senders : Z;
  if_state : IfaceState;
  if_name : string;
  recv_packets : Z;
  recv_octets : Z;
  send_packets : Z;
  send_octets : Z;
  delay_offload : bool;
  if_parsetree : option ParseTree;
  recv_th_ : bool
}.
#[global] Instance eta_iface : Eta Interface := λ i,
  mk_iface (if_type i) (if_references i) (if_senders i) (if_state i) (if_name i)
    (recv_packets i) (recv_octets i) (send_packets i) (send_octets i) (delay_offload i) (if_parsetree i) (recv_th_ i).

(** The macro [_NEW_IFACE]. *)
Definition new_iface (t : IfaceType) (name : string) : Interface :=
  mk_iface t 1 0 IFSTATE_INIT name 0 0 0 0 false None false.

(** ** Sending *)

(** One entry of the [iovec] array: position in the buffer and length. *)
Abbreviation iovec := (Z * Z)%type.

(** The loop over the headers: a header that continues the previous one is
    merged into the last entry. *)
Fixpoint merge_headers (prev : PacketHeader) (iov : list iovec) (hs : list PacketHeader) : list iovec :=
  match hs with
  | [] => iov
  | h :: hs =>
      let iov' :=
        if h_start h =? u32 (h_start prev + h_len prev) then
          match last iov with
          | Some (a, n) => take (length iov - 1) iov ++ [(a, n + h_len h)]
          | None => iov
          end
        else iov ++ [(h_start h, h_len h)] in
      merge_headers h iov' hs
  end.

(** The time to send a packet whose delay the device takes over, in nanoseconds
    of [CLOCK_TAI], which is [tai] seconds ahead. *)
Definition tx_time (now : timespec) (tai : Z) (p : Packet) : Z :=
  let t := timespecadd (timespec_from_tsntstamp (timestamp p) now) (delay p) in
  u64 ((tv_sec t + tai) * NSEC_PER_SEC + tv_nsec t).

(** What is handed to [sendmsg]: the entries and the time of the control message. *)
Record SendMsg := mk_send { s_iov : list iovec; s_txtime : option Z }.

Section send.
Context (now : timespec) (tai : Z).

(** The result [None] is the error for a packet without headers. *)
Definition iface_common_send (iface : Interface) (p : Packet) : option SendMsg * Interface :=
  match active p with
  | [] => (None, iface)
  | h :: hs =>
      let iov := merge_headers h [(h_start h, h_len h)] hs in
      let txtime := if offload p && delay_offload iface then Some (tx_time now tai p) else None in
      (Some (mk_send iov txtime),
       iface <| send_packets := u64_add (send_packets iface) 1 |>
             <| send_octets := u64_add (send_octets iface) (packet_length p) |>)
  end.
End send.

(** The octets [sendmsg] takes from the entries. *)
Definition gathered (b : mem) (iov : list iovec) : mem := concat ((λ e, slice b e.1 e.2) <$> iov).
Lemma gathered_snoc b iov a n : gathered b (iov ++ [(a, n)]) = gathered b iov ++ slice b a n.
Proof. unfold gathered. rewrite fmap_app, concat_app. cbn. by rewrite app_nil_r. Qed.

(** What the loop keeps: the last entry ends where the previous header ends. *)
Lemma merge_headers_spec b hs : ∀ prev iov a n,
  Forall (readable PACKET_BUF_LEN) (prev :: hs) → 0 <= a → 0 <= n → a + n = h_start prev + h_len prev →
  gathered b (merge_headers prev (iov ++ [(a, n)]) hs) =
    gathered b (iov ++ [(a, n)]) ++ concat ((λ h, slice b (h_start h) (h_len h)) <$> hs) ∧
  (length (merge_headers prev (iov ++ [(a, n)]) hs) <= length iov + 1 + length hs)%nat.
Proof.
  induction hs as [|h hs IH]; intros prev iov a n Hr Ha Hn E; cbn [merge_headers fmap list_fmap concat].
  { rewrite app_nil_r, length_app. cbn. split; [done | lia]. }
  inversion_clear Hr as [|? ? (Hp & Hpl & Hpb) Hr']. pose proof Hr' as Hr2. inversion_clear Hr2 as [|? ? (Hh & Hhl & Hhb) _].
  unfold_limits. rewrite u32_small by (unfold is_u32; lia).
  destruct (Z.eqb_spec (h_start h) (h_start prev + h_len prev)) as [Ec|Ec].
  - rewrite last_snoc, length_app, Nat.add_sub, take_app_length. cbv zeta.
    destruct (IH h iov a (n + h_len h)) as [-> L]; [done | lia..|]. split; [|cbn [length]; lia].
    rewrite !gathered_snoc, slice_app by lia. rewrite E, <- Ec, <- !app_assoc. done.
  - destruct (IH h (iov ++ [(a, n)]) (h_start h) (h_len h)) as [-> L]; [done | lia..|].
    split; [|rewrite length_app in L; cbn [length] in *; lia]. by rewrite gathered_snoc, <- !app_assoc.
Qed.

(** ** Reception *)

(** One message of the socket: the octets, the software time stamps and the
    auxiliary data among the control messages. *)
Record Auxdata := mk_aux { vlan_valid : bool; tp_vlan_tpid : Z; tp_vlan_tci : Z }.
Record Msg := mk_msg { msg_octets : mem; msg_stamps : list timespec; msg_aux : list Auxdata }.

(** The last time stamp is used. *)
Definition get_rx_tstamp (m : Msg) (p : Packet) : Packet :=
  foldl (λ p t, p <| recv_time := t |>) p (msg_stamps m).

(** [junk] is the content of the allocated packet, [m] what [recvmsg] delivers
    ([None] for an error); a message that does not fit is truncated.  The state of
    the interface is the one after the blocking call. *)
Definition iface_common_recv (junk : mem) (iface : Interface) (msg_cb : Msg → Packet → option Packet)
    (m : option Msg) (s : PacketPool) : option (option Packet * Interface * PacketPool) :=
  let '(p, s) := new_packet_fast junk (Some (if_name iface)) s in
  let discard := Some (None, iface, delete_packet p s) in
  match m with
  | None => discard
  | Some m =>
      let room := Z.to_nat (PACKET_BUF_LEN - start p) in
      let octets := take room (msg_octets m) in
      let p := p <| buf := put (buf p) (start p) octets |> in
      if bool_decide (if_state iface = IFSTATE_SHUTDOWN) then discard
      else if bool_decide (room < length (msg_octets m))%nat then discard
      else if dummy p then discard
      else if negb (bool_decide (if_state iface = IFSTATE_OPEN)) then discard
      else if bool_decide (length octets = 0%nat) then discard
      else
        let p := p <| len := Z.of_nat (length octets) |> in
        let p := p <| buf := put (buf p) 0 (replicate (Z.to_nat PACKET_START_OFFSET) 0) |> in
        let iface := iface <| recv_packets := u64_add (recv_packets iface) 1 |>
                           <| recv_octets := u64_add (recv_octets iface) (len p) |> in
        let p := get_rx_tstamp m p in
        let p := p <| timestamp := timespec_to_tsntstamp (recv_time p) |> in
        p ← msg_cb m p;
        Some (Some p, iface, s)
  end.

(** *** Ethernet *)

Definition ETH_P_8021Q : Z := 33024.
Definition ETH_P_8021AD : Z := 34984.
Definition ETH_P_IP : Z := 2048.
Definition ETH_P_IPV6 : Z := 34525.

(** The two octets of a word in network order. *)
Definition be16 (w : Z) : mem := [byte_of w 1; byte_of w 0].
Definition read_be16 (b : mem) (a : Z) : option Z :=
  l ← load_octets 2 b a; Some (match l with [x; y] => x * 256 + y | _ => 0 end).

(** The loop that moves [n] octets at [a] back by four. *)
Fixpoint move_back (b : mem) (a : Z) (n : nat) : option mem :=
  match n with
  | O => Some b
  | S n => x ← load b a; b ← store b (a - 4) x; move_back b (a + 1) n
  end.

(** The two words behind the addresses. *)
Definition write_tag (tpid tci : Z) (p : Packet) : option Packet :=
  b ← store_octets (buf p) (start p + 2 * 6) (be16 tpid);
  b ← store_octets b (start p + 2 * 6 + 2) (be16 tci);
  Some (p <| buf := b |>).

Definition restore_one (p : Packet) (aux : Auxdata) : option Packet :=
  if vlan_valid aux then
    b ← move_back (buf p) (start p) 12;
    write_tag (tp_vlan_tpid aux) (tp_vlan_tci aux)
      (p <| buf := b |> <| start := u32 (start p - 4) |> <| len := u32 (len p + 4) |>)
  else Some p.

Fixpoint restore_all (p : Packet) (l : list Auxdata) : option Packet :=
  match l with [] => Some p | aux :: l => p ← restore_one p aux; restore_all p l end.

Definition restore_vlan (m : Msg) (p : Packet) : option Packet := restore_all p (msg_aux m).

Definition add_cvlan (p : Packet) : option Packet :=
  b ← memcpy (buf p) (start p - 4) (buf p) (start p) (2 * 6);
  write_tag ETH_P_8021Q 0 (p <| buf := b |> <| start := u32 (start p - 4) |> <| len := u32 (len p + 4) |>).

(** [eth_recv] up to the call of [iface_common_process]. *)
Definition eth_input (junk : mem) (iface : Interface) (m : option Msg) (s : PacketPool)
    : option (option Packet * Interface * PacketPool) :=
  '(r, iface, s) ← iface_common_recv junk iface restore_vlan m s;
  match r with
  | None => Some (None, iface, s)
  | Some p =>
      ethertype ← read_be16 (buf p) (start p + 2 * 6);
      p ← if negb (ethertype =? ETH_P_8021Q) && negb (ethertype =? ETH_P_8021AD) then add_cvlan p else Some p;
      Some (Some p, iface, s)
  end.

(** *** IP *)

Definition ip_input (junk : mem) (iface : Interface) (m : option Msg) (s : PacketPool)
    : option (option Packet * Interface * PacketPool) :=
  '(r, iface, s) ← iface_common_recv junk iface (λ _, Some) m s;
  match r with
  | None => Some (None, iface, s)
  | Some p =>
      ethertype ← read_be16 (buf p) (start p + 12);
      if negb (ethertype =? ETH_P_IPV6) && negb (ethertype =? ETH_P_IP) then Some (None, iface, delete_packet p s)
      else Some (Some (p <| start := u32 (start p + 14) |> <| len := u32 (len p - 14) |>), iface, s)
  end.

(** *** UDP *)

Definition udpin_input (junk : mem) (iface : Interface) (m : option Msg) (s : PacketPool)
    : option (option Packet * Interface * PacketPool) := iface_common_recv junk iface (λ _, Some) m s.

(** ** Processing *)

Section process.
Context (env : Env) (fuel : nat).

(** The iterator that [parsetree_identify] creates takes the reference. *)
Definition iface_common_process (iface : Interface) (p : Packet) (w : World) : Outcome (bool * Interface * World) :=
  match if_parsetree iface with
  | None => Ok (false, iface, w <| pool := delete_packet p (pool w) |>)
  | Some pt =>
      '(r, p, pt, _) ← access (parsetree_identify pt p);
      let iface := iface <| if_parsetree := Some pt |> in
      match r with
      | None => Ok (false, iface, w <| pool := delete_packet p (pool w) |>)
      | Some pipe =>
          '(h, w) ← new_pipe_iterator w (pipe_id pipe) p;
          w ← pipe_iterator_run env fuel w h;
          Ok (true, iface, w)
      end
  end.

Definition recv_with (input : mem → Interface → option Msg → PacketPool → option (option Packet * Interface * PacketPool))
    (iface : Interface) (m : option Msg) (w : World) : Outcome (bool * Interface * World) :=
  '(r, iface, pool') ← access (input (junk_buf env (reads w)) iface m (pool w));
  let w := tick (w <| pool := pool' |>) in
  match r with
  | None => Ok (false, iface, w)
  | Some p => iface_common_process iface p w
  end.

Definition eth_recv : Interface → option Msg → World → Outcome (bool * Interface * World) := recv_with eth_input.
Definition ip_recv : Interface → option Msg → World → Outcome (bool * Interface * World) := recv_with ip_input.

Definition udpin_recv : Interface → option Msg → World → Outcome (bool * Interface * World) := recv_with udpin_input.

(** The loop of a receiving thread over the messages of the socket. *)
Fixpoint recv_loop (recv : Interface → option Msg → World → Outcome (bool * Interface * World))
    (iface : Interface) (ms : list (option Msg)) (w : World) : Outcome (Interface * World) :=
  match ms with
  | [] => Ok (iface, w)
  | m :: ms =>
      if bool_decide (if_state iface = IFSTATE_SHUTDOWN) then Ok (iface, w)
      else '(_, iface, w) ← recv iface m w; recv_loop recv iface ms w
  end.

Definition eth_recv_loop : Interface → list (option Msg) → World → Outcome (Interface * World) := recv_loop eth_recv.
Definition ip_recv_loop : Interface → list (option Msg) → World → Outcome (Interface * World) := recv_loop ip_recv.
Definition udpin_recv_loop : Interface → list (option Msg) → World → Outcome (Interface * World) := recv_loop udpin_recv.

(** The receiving thread of the interfaces that get the packets of streams from a
    socket. *)
Definition socket_loop (t : IfaceType) : option (Interface → list (option Msg) → World → Outcome (Interface * World)) :=
  match t with
  | IF_ETH => Some eth_recv_loop
  | IF_IP => Some ip_recv_loop
  | IF_UDP_IN => Some udpin_recv_loop
  | _ => None
  end.
End process.

(** ** Send functions *)

Inductive Socket := SockEth (pcp : Z) | Sock4 | Sock6.

(** What is handed to the socket and its destination address. *)
Inductive SendResult := Rejected | Transmit (sock : Socket) (dst : mem) (msg : SendMsg).

Section send_functions.
Context (now : timespec) (tai : Z).

Definition transmit (sock : Socket) (dst : mem) (iface : Interface) (p : Packet) : SendResult * Interface :=
  match iface_common_send now tai iface p with
  | (Some m, iface) => (Transmit sock dst m, iface)
  | (None, iface) => (Rejected, iface)
  end.

Definition eth_send (iface : Interface) (p : Packet) : option (SendResult * Interface) :=
  if bool_decide (if_state iface = IFSTATE_INIT) then Some (Rejected, iface)
  else
    match active p with
    | [] => Some (Rejected, iface)
    | h0 :: hs =>
        if negb (bool_decide (h_type h0 = PROTO_ID_ETH)) then Some (Rejected, iface)
        else
          pcp ← match hs with
                | h1 :: _ =>
                    if bool_decide (h_type h1 = PROTO_ID_CVLAN) || bool_decide (h_type h1 = PROTO_ID_SVLAN)
                    then vlan ← load (buf p) (h_start h1); Some (Z.shiftr vlan 5) else Some 0
                | [] => Some 0
                end;
          dst_mac ← load_octets 6 (buf p) (h_start h0);
          Some (transmit (SockEth pcp) dst_mac iface p)
    end.

(** The packet changes: the length field of an IPv6 header and an unset source
    address are filled in. *)
Definition ip_send (ipv6 : mem) (iface : Interface) (p : Packet) : option (SendResult * Interface * Packet) :=
  if bool_decide (if_state iface = IFSTATE_INIT) then Some (Rejected, iface, p)
  else
    match active p with
    | [] => Some (Rejected, iface, p)
    | h0 :: _ =>
        if bool_decide (h_type h0 = PROTO_ID_IPv4) then
          dst ← load_octets 4 (buf p) (h_start h0 + 16);
          Some (transmit Sock4 dst iface p, p)
        else if bool_decide (h_type h0 = PROTO_ID_IPv6) then
          dst ← load_octets 16 (buf p) (h_start h0 + 24);
          b ← store_octets (buf p) (h_start h0 + 4) (be16 (u16 (packet_length p - 40)));
          srcip ← load_octets 16 b (h_start h0 + 8);
          b ← if forallb (Z.eqb 0) srcip then store_octets b (h_start h0 + 8) ipv6 else Some b;
          Some (transmit Sock6 dst iface (p <| buf := b |>), p <| buf := b |>)
        else Some (Rejected, iface, p)
    end.
End send_functions.

(** ** References *)

Inductive IfEvent := EvClose | EvJoin | EvPipe (e : RefEvent) | EvFree.

Definition drop_parsetree (i : Interface) : list IfEvent :=
  match if_parsetree i with Some pt => EvPipe <$> delete_parsetree pt | None => [] end.
Definition join (i : Interface) : list IfEvent := if recv_th_ i then [EvJoin] else [].

Definition delete_interface (i : Interface) : list IfEvent := [EvClose] ++ join i ++ drop_parsetree i ++ [EvFree].

Definition iface_ref (i : Interface) : Interface := i <| if_references := i32 (if_references i + 1) |>.

(** The counters are changed atomically; what follows depends on the result.
    [None] is a freed interface. *)
Definition unref_dec (i : Interface) : Interface := i <| if_references := i32 (if_references i - 1) |>.
Definition unref_rest (refcount : Z) (i : Interface) : option Interface * list IfEvent :=
  if refcount =? 0 then
    let i := i <| if_state := IFSTATE_SHUTDOWN |> in
    if if_senders i >? 0 then
      (Some (i <| recv_th_ := false |> <| if_parsetree := None |>), join i ++ drop_parsetree i)
    else (None, delete_interface i)
  else (Some i, []).
Definition iface_unref (i : Interface) : option Interface * list IfEvent :=
  let i := unref_dec i in unref_rest (if_references i) i.

Definition iface_add_sender (i : Interface) : Interface := i <| if_senders := i32 (if_senders i + 1) |>.

Definition del_sender_dec (i : Interface) : Interface := i <| if_senders := i32 (if_senders i - 1) |>.
Definition del_sender_rest (sendercount : Z) (i : Interface) : option Interface * list IfEvent :=
  if sendercount =? 0 then
    if if_references i >? 0 then (Some i, []) else (None, delete_interface i)
  else (Some i, []).
Definition iface_del_sender (i : Interface) : option Interface * list IfEvent :=
  let i := del_sender_dec i in del_sender_rest (if_senders i) i.

(** [pipeline_ref_send_interfaces]: the interfaces that get a sender, through the
    branches of replications.  Branches are deeper in the tree: the number of
    pipelines bounds the depth. *)
Fixpoint ref_send_n (n : nat) (ps : gmap nat Pipeline) (id : nat) : option (list nat) :=
  match n with
  | O => None
  | S n =>
      pl ← ps !! id;
      l ← mapM (λ a, match a with
                     | ACTION_SEND i => Some [i]
                     | ACTION_REPL br _ _ => @concat nat <$> mapM (ref_send_n n ps) br
                     | _ => Some []
                     end) (Pipe.actions pl);
      Some (concat l)
  end.
Definition pipeline_ref_send_interfaces (ps : gmap nat Pipeline) (id : nat) : option (list nat) :=
  ref_send_n (S (size ps)) ps id.

(** A new stream of the interface; the last component are the senders added. *)
Definition iface_add_stream (ps : gmap nat Pipeline) (i : Interface) (hs : list HeaderDescriptor) (pipe : Pipe)
    : option (bool * Interface * list RefEvent * list nat) :=
  let pt := default new_parsetree (if_parsetree i) in
  '(ok, pt, ev) ← parsetree_add_stream pt hs pipe;
  let i := i <| if_parsetree := Some pt |> in
  if (ok : bool) then
    l ← pipeline_ref_send_interfaces ps (pipe_id pipe);
    Some (true, i, ev, l)
  else Some (false, i, ev, []).

(** ** The received frame *)

Definition data (p : Packet) : mem := slice (buf p) (start p) (len p).

(** A VLAN tag goes behind the two MAC addresses. *)
Definition insert_tag (f : mem) (tpid tci : Z) : mem := take 12 f ++ be16 tpid ++ be16 tci ++ drop 12 f.

Lemma byte_of_u8 w i : 0 <= i → is_u8 (byte_of w i).
Proof. intros. unfold byte_of, is_u8. apply Z.mod_pos_bound. lia. Qed.

Lemma be16_bytes w : bytes_ok (be16 w).
Proof. repeat constructor; apply byte_of_u8; lia. Qed.

(** The loop is [memmove]: octets are read before they are overwritten. *)
Lemma move_back_put n : ∀ b a, 4 <= a → a + Z.of_nat n <= Z.of_nat (length b) →
  move_back b a n = Some (put b (a - 4) (slice b a (Z.of_nat n))).
Proof.
  induction n as [|n IH]; intros b a Ha Hn; cbn [move_back].
  { f_equal. symmetry. apply put_nil. }
  destruct (load_in_range b a) as [x Hx]; [unfold in_range; lia|]. rewrite Hx. cbn [mbind option_bind].
  rewrite store_put by (unfold in_range; lia). cbn [mbind option_bind].
  rewrite IH by (rewrite ?put_length; cbn [length]; lia). f_equal.
  assert (slice (put b (a - 4) [x]) (a + 1) (Z.of_nat n) = slice b (a + 1) (Z.of_nat n)) as ->
    by (apply slice_put_behind; cbn [length]; lia).
  replace (a + 1 - 4) with (a - 4 + Z.of_nat (length [x])) by (cbn; lia).
  assert (slice b a (Z.of_nat (S n)) = [x] ++ slice b (a + 1) (Z.of_nat n)) as ->.
  { replace (Z.of_nat (S n)) with (1 + Z.of_nat n) by lia. rewrite slice_app by lia. f_equal.
    unfold load in Hx. rewrite (proj2 (Z.leb_le 0 a)) in Hx by lia. unfold slice. by rewrite (drop_S b x). }
  apply put_app; [lia|]. rewrite length_slice; cbn [length]; lia.
Qed.

(** Both ways of inserting a tag in front of the data of a packet. *)
Record tagged (p p' : Packet) (tpid tci : Z) : Prop := {
  tg_data : data p' = insert_tag (data p) tpid tci;
  tg_start : start p' = start p - 4;
  tg_len : len p' = len p + 4;
  tg_recv : received p'
}.

Lemma moved_tagged p tpid tci :
  received p → 12 <= len p → 4 < start p →
  ∃ p', write_tag tpid tci (p <| buf := put (buf p) (start p - 4) (slice (buf p) (start p) 12) |>
          <| start := u32 (start p - 4) |> <| len := u32 (len p + 4) |>) = Some p' ∧ tagged p p' tpid tci.
Proof.
  intros [[Hb Ha Hc Hs [Hl1 Hl2] Hh] Hby Hrc Hrs] Hl Hst. unfold_limits.
  assert (length (slice (buf p) (start p) 12) = 12%nat) as L12 by (rewrite length_slice; lia).
  rewrite !u32_small by (unfold is_u32; lia). unfold write_tag. cbn [buf start]. cbn -[put be16 store_octets slice].
  set (sl := slice (buf p) (start p) 12) in *. set (b1 := put (buf p) (start p - 4) sl).
  assert (length b1 = Z.to_nat 10000) as Lb by (unfold b1; rewrite put_length; lia).
  rewrite store_octets_put by (cbn [length be16]; lia). cbn [mbind option_bind].
  rewrite store_octets_put by (rewrite ?put_length; cbn [length be16]; lia). cbn [mbind option_bind].
  rewrite (put_app b1 _ (be16 tpid) (be16 tci)) by (cbn [length be16]; lia).
  replace (start p - 4 + 2 * 6) with (start p - 4 + Z.of_nat (length sl)) by lia.
  unfold b1. rewrite put_app by (cbn [length be16 app]; lia).
  eexists. split; [done|]. set (l := sl ++ be16 tpid ++ be16 tci).
  assert (length l = 16%nat) as Ll by (unfold l; rewrite !length_app, L12; done).
  split; cbn -[put l slice]; try done.
  - unfold data. cbn -[put l slice]. replace (len p + 4) with (Z.of_nat (length l) + (len p - 12)) by lia.
    rewrite slice_put by lia. rewrite Ll. replace (start p - 4 + Z.of_nat 16) with (start p + 12) by lia.
    unfold insert_tag. replace (len p) with (12 + (len p - 12)) at 2 3 by lia. rewrite slice_app by lia.
    rewrite take_app_length', drop_app_length' by done. unfold l. by rewrite <- !app_assoc.
  - split; cbn -[put l slice]; [|apply put_bytes; [done|] | done | done].
    + split; cbn -[put l slice]; unfold_limits; [rewrite put_length; lia | done | done | lia | lia |].
      unfold active. cbn. rewrite Hrc. constructor.
    + unfold l. repeat apply Forall_app_2; [by apply slice_bytes | apply be16_bytes..].
Qed.

Lemma restore_one_tagged p aux :
  received p → 12 <= len p → 4 < start p → vlan_valid aux = true →
  ∃ p', restore_one p aux = Some p' ∧ tagged p p' (tp_vlan_tpid aux) (tp_vlan_tci aux).
Proof.
  intros Hr Hl Hs Hv. unfold restore_one. rewrite Hv. pose proof (rc_wf p Hr) as [Hb _ _ _ ? _]. unfold_limits.
  rewrite move_back_put by lia. cbn [mbind option_bind]. by apply moved_tagged.
Qed.

Lemma add_cvlan_tagged p :
  received p → 12 <= len p → 4 < start p → ∃ p', add_cvlan p = Some p' ∧ tagged p p' ETH_P_8021Q 0.
Proof.
  intros Hr Hl Hs. unfold add_cvlan. pose proof (rc_wf p Hr) as [Hb _ _ _ ? _]. unfold_limits.
  rewrite memcpy_put by lia. cbn [mbind option_bind]. by apply moved_tagged.
Qed.

(** The frame after all tags of the auxiliary data, and their number. *)
Definition restored (f : mem) (l : list Auxdata) : mem :=
  foldl (λ f a, if vlan_valid a then insert_tag f (tp_vlan_tpid a) (tp_vlan_tci a) else f) f l.
Definition tags (l : list Auxdata) : Z := Z.of_nat (length (filter (λ a, vlan_valid a = true) l)).

Lemma restore_all_spec l : ∀ p,
  received p → 12 <= len p → 4 * tags l < start p →
  ∃ p', restore_all p l = Some p' ∧ received p' ∧ start p' = start p - 4 * tags l ∧
    len p' = len p + 4 * tags l ∧ data p' = restored (data p) l.
Proof.
  induction l as [|aux l IH]; intros p Hr Hl Hs; cbn [restore_all restored foldl].
  { exists p. change (tags []) with 0. split_and!; [done | done | lia.. | done]. }
  unfold tags in Hs |- *. rewrite filter_cons in Hs |- *. fold (tags l) in Hs |- *. case_decide as Hv.
  - cbn [length] in Hs |- *. rewrite Nat2Z.inj_succ in Hs |- *. fold (tags l) in Hs |- *.
    assert (0 <= tags l) by (unfold tags; lia).
    destruct (restore_one_tagged p aux Hr Hl ltac:(lia) Hv) as (p1 & -> & [D S L R]). cbn [mbind option_bind].
    destruct (IH p1 R ltac:(lia) ltac:(lia)) as (p' & -> & R' & S' & L' & D'). exists p'. rewrite Hv, <- D.
    split_and!; [done | done | lia.. | done].
  - destruct (vlan_valid aux) eqn:Hv'; [done|]. unfold restore_one at 1. rewrite Hv'. cbn [mbind option_bind]. by apply IH.
Qed.

Lemma load_slice b a n i : 0 <= a → 0 <= i < n → load (slice b a n) i = load b (a + i).
Proof.
  intros Ha Hi. unfold load, slice. rewrite !(proj2 (Z.leb_le _ _)) by lia. rewrite lookup_take_lt by lia.
  rewrite lookup_drop. f_equal. lia.
Qed.

Lemma read_ethertype p : 14 <= len p → 0 <= start p → read_be16 (buf p) (start p + 12) = read_be16 (data p) 12.
Proof.
  intros Hl Hs. unfold read_be16. cbn [load_octets]. unfold data. rewrite !load_slice by lia.
  by replace (start p + 12 + 1) with (start p + (12 + 1)) by lia.
Qed.

Lemma read_be16_total b a : 0 <= a → a + 2 <= Z.of_nat (length b) → is_Some (read_be16 b a).
Proof.
  intros Ha Hl. unfold read_be16. destruct (load_octets_total 2 b a Ha ltac:(lia)) as (l & -> & L). cbn. eauto.
Qed.

(** *** Acceptance of a message *)

Record accepts (iface : Interface) (m : Msg) (s : PacketPool) : Prop := {
  ac_open : if_state iface = IFSTATE_OPEN;
  ac_size : (0 < length (msg_octets m) <= Z.to_nat (PACKET_BUF_LEN - PACKET_START_OFFSET))%nat;
  ac_pool : packet_count s < PACKET_COUNT_LIMIT
}.

#[global] Instance accepts_dec iface m s : Decision (accepts iface m s).
Proof.
  destruct (decide (if_state iface = IFSTATE_OPEN)); [|right; by intros []].
  destruct (decide (0 < length (msg_octets m) <= Z.to_nat (PACKET_BUF_LEN - PACKET_START_OFFSET))%nat); [|right; by intros []].
  destruct (decide (packet_count s < PACKET_COUNT_LIMIT)); [by left | right; by intros []].
Defined.

Definition allocated (s : PacketPool) : PacketPool :=
  mk_pool (u32 (packet_count s + 1)) (u32 (next_packet_id s + 1)).
Definition counted_recv (iface : Interface) (m : Msg) : Interface :=
  iface <| recv_packets := u64_add (recv_packets iface) 1 |>
        <| recv_octets := u64_add (recv_octets iface) (Z.of_nat (length (msg_octets m))) |>.

(** The packet given to the callback. *)
Record delivered (iface : Interface) (m : Msg) (s : PacketPool) (p : Packet) : Prop := {
  dl_recv : received p;
  dl_start : start p = PACKET_START_OFFSET;
  dl_len : len p = Z.of_nat (length (msg_octets m));
  dl_data : data p = msg_octets m;
  dl_from : from p = Some (if_name iface);
  dl_id : id p = next_packet_id s;
  dl_time : ∀ t, last (msg_stamps m) = Some t → recv_time p = t;
  dl_stamp : timestamp p = timespec_to_tsntstamp (recv_time p)
}.

Lemma get_rx_tstamp_last m p :
  get_rx_tstamp m p = match last (msg_stamps m) with Some t => p <| recv_time := t |> | None => p end.
Proof.
  unfold get_rx_tstamp. induction (msg_stamps m) as [|t l IH] using rev_ind; [done|].
  rewrite foldl_app, last_snoc, IH. by destruct (last l).
Qed.

Lemma common_recv_accept junk iface cb m s :
  length junk = Z.to_nat PACKET_BUF_LEN → bytes_ok junk → bytes_ok (msg_octets m) → accepts iface m s →
  ∃ p, delivered iface m s p ∧
    iface_common_recv junk iface cb (Some m) s = (q ← cb m p; Some (Some q, counted_recv iface m, allocated s)).
Proof.
  intros Hj Hjb Hmb [Ho [Hm0 Hm1] Hp]. unfold iface_common_recv, new_packet_fast, alloc_packet.
  destruct (Z.geb_spec (packet_count s) PACKET_COUNT_LIMIT); [lia|]. cbn [start].
  cbn -[put PACKET_BUF_LEN PACKET_START_OFFSET get_rx_tstamp replicate].
  rewrite bool_decide_eq_false_2 by congruence. rewrite bool_decide_eq_false_2 by lia.
  rewrite bool_decide_eq_true_2 by done. cbn [negb]. rewrite take_ge by lia.
  rewrite bool_decide_eq_false_2 by lia. 
  match goal with |- context [get_rx_tstamp m ?x] => set (p := x) end.
  rewrite get_rx_tstamp_last. set (p' := match last (msg_stamps m) with Some _ => _ | None => _ end).
  assert (∃ t, p' = p <| recv_time := t |> ∧ ∀ t', last (msg_stamps m) = Some t' → t = t') as (t & -> & Ht).
  { subst p'. destruct (last (msg_stamps m)) as [t|]; [exists t; split; [done | by intros ? [= ->]]|].
    exists no_time. by split. }
  eexists. split; [|done].
  assert (length (put junk PACKET_START_OFFSET (msg_octets m)) = length junk) as Lp by (rewrite put_length; unfold_limits; lia).
  assert (length (replicate (Z.to_nat PACKET_START_OFFSET) 0) = 1024%nat) as Lr by apply length_replicate.
  split; cbn -[put PACKET_BUF_LEN PACKET_START_OFFSET replicate]; try done.
  - split; cbn -[put PACKET_BUF_LEN PACKET_START_OFFSET replicate]; [| |done | done].
    + split; cbn -[put PACKET_BUF_LEN PACKET_START_OFFSET replicate]; try done; unfold_limits; try lia.
      rewrite put_length; lia.
    + repeat apply put_bytes; try done. apply Forall_replicate. unfold is_u8. lia.
  - unfold data. cbn -[put PACKET_BUF_LEN PACKET_START_OFFSET replicate slice].
    rewrite slice_put_behind by (rewrite ?Lr; unfold_limits; lia). apply slice_put_eq; unfold_limits; lia.
Qed.

Lemma alloc_start fresh ifc s p s1 :
  alloc_packet fresh ifc s = (p, s1) →
  start p = PACKET_START_OFFSET ∧ (dummy p = true ∨ packet_count s < PACKET_COUNT_LIMIT).
Proof.
  unfold alloc_packet. destruct (Z.geb_spec (packet_count s) PACKET_COUNT_LIMIT); intros [= <- <-]; cbn;
    (split; [done | (by left) || right; lia]).
Qed.

Lemma alloc_give_back fresh ifc s p s1 :
  0 <= packet_count s < 2 ^ 32 - 1 → alloc_packet fresh ifc s = (p, s1) →
  packet_count (delete_packet p s1) = packet_count s.
Proof.
  intros Hc. unfold alloc_packet, delete_packet. destruct (Z.geb_spec (packet_count s) PACKET_COUNT_LIMIT);
    intros [= <- <-]; cbn; [done|]. rewrite !u32_small; unfold is_u32; rewrite ?u32_small by (unfold is_u32; lia); lia.
Qed.

(** A packet that is not accepted is given back. *)
Lemma common_recv_discard junk iface cb m s :
  (∀ m', m = Some m' → ¬ accepts iface m' s) →
  ∃ s', iface_common_recv junk iface cb m s = Some (None, iface, s') ∧
    (0 <= packet_count s < 2 ^ 32 - 1 → packet_count s' = packet_count s).
Proof.
  intros Hm. unfold iface_common_recv, new_packet_fast. destruct (alloc_packet _ _ _) as [p s1] eqn:E.
  pose proof (alloc_start _ _ _ _ _ E) as [Hst Hd].
  assert (0 <= packet_count s < 2 ^ 32 - 1 → packet_count (delete_packet p s1) = packet_count s) as Hdel
    by (intros; by eapply alloc_give_back).
  destruct m as [m|]; [|eauto]. specialize (Hm m eq_refl).
  repeat (case_match; [eauto|]). exfalso. apply Hm.
  repeat match goal with H : bool_decide _ = false |- _ => apply bool_decide_eq_false in H end.
  rewrite length_take, Hst in *. split; [|lia|].
  - match goal with H : negb _ = false |- _ => by apply negb_false_iff, bool_decide_eq_true in H end.
  - destruct Hd as [Hd|]; [|done]. cbn in *. congruence.
Qed.

(** The frame given to the stream identification of an Ethernet interface: the
    tag that the kernel took out is put back, and an untagged frame gets the
    default tag. *)
Definition vlan_frame (f : mem) : mem :=
  match read_be16 f 12 with
  | Some e => if negb (e =? ETH_P_8021Q) && negb (e =? ETH_P_8021AD) then insert_tag f ETH_P_8021Q 0 else f
  | None => f
  end.

Lemma eth_input_frame junk iface m s :
  length junk = Z.to_nat PACKET_BUF_LEN → bytes_ok junk → bytes_ok (msg_octets m) → accepts iface m s →
  (14 <= length (msg_octets m))%nat → tags (msg_aux m) <= 1 →
  ∃ p, eth_input junk iface (Some m) s = Some (Some p, counted_recv iface m, allocated s) ∧ received p ∧
    data p = vlan_frame (restored (msg_octets m) (msg_aux m)) ∧ SCRATCH_ROOM <= start p <= PACKET_START_OFFSET.
Proof.
  intros Hj Hjb Hmb Hac Hlen Ht. unfold eth_input.
  destruct (common_recv_accept junk iface restore_vlan m s Hj Hjb Hmb Hac) as (p0 & [Hr Hst Hl Hd _ _ _ _] & ->).
  assert (0 <= tags (msg_aux m)) by (unfold tags; lia). unfold SCRATCH_ROOM. unfold_limits.
  destruct (restore_all_spec (msg_aux m) p0 Hr ltac:(lia) ltac:(lia)) as (p & E & R & S & L & D).
  unfold restore_vlan. rewrite E. cbn [mbind option_bind]. change (2 * 6) with 12.
  rewrite read_ethertype by lia. rewrite Hd in D. unfold vlan_frame. rewrite <- D.
  pose proof (rc_wf p R) as [Hb _ _ _ ? _]. unfold_limits.
  destruct (read_be16_total (data p) 12) as [e ->]; [lia | unfold data; rewrite length_slice; lia|]. cbn [mbind option_bind].
  case_match.
  - destruct (add_cvlan_tagged p R ltac:(lia) ltac:(lia)) as (p' & -> & [D' S' L' R']). exists p'. split_and!; done || lia.
  - exists p. split_and!; done || lia.
Qed.

(** C25: reception on an Ethernet interface.  Every frame of at least the length
    of an Ethernet header that fits the buffer is accepted (on an open interface,
    while packets are left), and the packet is well-formed, holds exactly the
    frame with its VLAN tag restored, or with the default tag when it has none,
    and starts late enough to leave the scratch space the actions rely on. *)
Theorem eth_input_spec junk iface m s :
  length junk = Z.to_nat PACKET_BUF_LEN → bytes_ok junk → bytes_ok (msg_octets m) → accepts iface m s →
  (14 <= length (msg_octets m))%nat → tags (msg_aux m) <= 1 →
  ∃ p, eth_input junk iface (Some m) s = Some (Some p, counted_recv iface m, allocated s) ∧ received p ∧
    data p = vlan_frame (restored (msg_octets m) (msg_aux m)) ∧ SCRATCH_ROOM <= start p <= PACKET_START_OFFSET.
Proof. apply eth_input_frame. Qed.

(** A frame whose tag (VLAN 5) was taken out by the kernel. *)
Definition sample_msg : Msg := mk_msg (replicate 60 7) [mk_timespec 3 4] [mk_aux true ETH_P_8021Q 5].
Definition open_iface : Interface := (new_iface IF_ETH "eth0") <| if_state := IFSTATE_OPEN |> <| recv_th_ := true |>.

Lemma eth_input_spec_witness :
  ∃ p, eth_input zero_buf open_iface (Some sample_msg) (mk_pool 0 0)
         = Some (Some p, counted_recv open_iface sample_msg, allocated (mk_pool 0 0)) ∧ received p ∧
    data p = replicate 12 7 ++ [129; 0; 0; 5] ++ replicate 48 7 ∧ SCRATCH_ROOM <= start p <= PACKET_START_OFFSET.
Proof.
  change (replicate 12 7 ++ [129; 0; 0; 5] ++ replicate 48 7)
    with (vlan_frame (restored (msg_octets sample_msg) (msg_aux sample_msg))).
  apply (eth_input_spec zero_buf open_iface sample_msg (mk_pool 0 0)).
  - apply length_replicate.
  - apply Forall_replicate. unfold is_u8. lia.
  - apply Forall_replicate. unfold is_u8. lia.
  - split; [done | vm_compute; lia | done].
  - cbn. lia.
  - vm_compute. discriminate.
Defined.

Lemma ip_input_spec junk iface m s e :
  length junk = Z.to_nat PACKET_BUF_LEN → bytes_ok junk → bytes_ok (msg_octets m) → accepts iface m s →
  (14 <= length (msg_octets m))%nat → read_be16 (msg_octets m) 12 = Some e → e = ETH_P_IP ∨ e = ETH_P_IPV6 →
  ∃ p, ip_input junk iface (Some m) s = Some (Some p, counted_recv iface m, allocated s) ∧ received p ∧
    data p = drop 14 (msg_octets m) ∧ start p = PACKET_START_OFFSET + 14.
Proof.
  intros Hj Hjb Hmb Hac Hlen He Hip. unfold ip_input.
  destruct (common_recv_accept junk iface (λ _, Some) m s Hj Hjb Hmb Hac) as (p & [[Hwf Hpb Hc Hsc] Hst Hl Hd _ _ _ _] & ->).
  cbn [mbind option_bind]. unfold_limits. rewrite read_ethertype by lia. rewrite Hd, He. cbn [mbind option_bind].
  assert (negb (e =? ETH_P_IPV6) && negb (e =? ETH_P_IP) = false) as -> by (destruct Hip as [-> | ->]; done).
  pose proof (wf_recv p Hwf). unfold_limits. rewrite !u32_small by (unfold is_u32; lia). eexists. split; [done|].
  split_and!; [| |cbn; lia].
  - split; [|done | done | done]. destruct Hwf. split; cbn; unfold_limits; try done; try lia. unfold active. cbn. rewrite Hc. constructor.
  - rewrite <- Hd. unfold data. cbn. unfold slice. rewrite skipn_firstn_comm, drop_drop. f_equal; [lia|]. f_equal. lia.
Qed.

(** C26: sending.  The entries handed to the socket describe the octets of the
    header list in order, whatever headers were merged because they are
    adjacent in the buffer, there are at most as many as headers, and the
    interface counts the packet with the number of octets it hands over. *)
Theorem iface_common_send_spec now tai iface p :
  packet_wf p →
  match iface_common_send now tai iface p with
  | (None, iface') => header_count p = 0 ∧ iface' = iface
  | (Some m, iface') =>
      gathered (buf p) (s_iov m) = wire_bytes p ∧ Z.of_nat (length (s_iov m)) <= header_count p <= PACKET_MAX_HEADER_NUM ∧
      send_octets iface' = u64_add (send_octets iface) (Z.of_nat (length (gathered (buf p) (s_iov m))))
  end.
Proof.
  intros Hwf. pose proof (length_active p Hwf) as L. pose proof (wf_count p Hwf). pose proof (wf_readable p Hwf) as Hr.
  pose proof (wire_bytes_length p Hwf) as Lw. rewrite <- packet_length_total in Lw by done.
  unfold iface_common_send. destruct (active p) as [|h hs] eqn:Ea; cbn [length] in L; [split; [lia | done]|].
  pose proof Hr as Hr2. inversion_clear Hr2 as [|? ? (? & ? & ?) _].
  destruct (merge_headers_spec (buf p) hs h [] (h_start h) (h_len h)) as [E Ln]; [done | lia..|].
  cbn [app] in E, Ln. cbn [s_iov send_octets]. assert (gathered (buf p) (merge_headers h [(h_start h, h_len h)] hs) = wire_bytes p) as Ew
    by (rewrite E; unfold wire_bytes, gathered; rewrite Ea; cbn; by rewrite app_nil_r).
  cbn [length] in Ln. rewrite Ew. split_and!; [done | lia | lia |]. cbn. by rewrite Lw.
Qed.

Lemma iface_common_send_spec_witness :
  let p := (packet_add_header (new_packet None (mk_pool 0 0)).1 0 PROTO_ID_RTAG 6).2 in
  match iface_common_send no_time 37 open_iface p with
  | (None, iface') => header_count p = 0 ∧ iface' = open_iface
  | (Some m, iface') =>
      gathered (buf p) (s_iov m) = wire_bytes p ∧ Z.of_nat (length (s_iov m)) <= header_count p <= PACKET_MAX_HEADER_NUM ∧
      send_octets iface' = u64_add 0 (Z.of_nat (length (gathered (buf p) (s_iov m))))
  end.
Proof.
  apply (iface_common_send_spec no_time 37 open_iface (packet_add_header (new_packet None (mk_pool 0 0)).1 0 PROTO_ID_RTAG 6).2).
  apply add_wf; [apply alloc_wf; apply length_replicate | lia..].
Defined.

(** The buffer after [ip_send], which does not depend on the clock: what the pipelines assume of the send functions. *)
Definition ip_sent (ipv6 : mem) (iface : Interface) (p : Packet) : mem :=
  match ip_send no_time 0 ipv6 iface p with Some (_, p') => buf p' | None => buf p end.

Lemma ip_sent_length ipv6 iface p : length (ip_sent ipv6 iface p) = length (buf p).
Proof.
  unfold ip_sent, ip_send. case_match eqn:E; [|done]. destruct p0 as [r p']. revert E.
  case_match; [by intros [= <- <-]|]. destruct (active p) as [|h0 hs]; [by intros [= <- <-]|].
  case_match; [destruct (load_octets _ _ _); [|done]; by intros [= <- <-]|].
  case_match; [|by intros [= <- <-]]. destruct (load_octets 16 (buf p) _); [|done]. cbn [mbind option_bind].
  destruct (store_octets (buf p) _ _) as [b|] eqn:Eb; [|done]. cbn [mbind option_bind]. apply store_octets_length in Eb.
  destruct (load_octets 16 b _) as [src|]; [|done]. cbn [mbind option_bind]. case_match.
  - destruct (store_octets b _ _) as [b2|] eqn:Eb2; [|done]. apply store_octets_length in Eb2. intros [= <- <-]. cbn. congruence.
  - intros [= <- <-]. done.
Qed.

(** ** Life cycle *)

Inductive LifeOp := OpRef | OpUnref | OpAddSender | OpDelSender.

(** A call on a freed interface is [None]. *)
Definition life_step (o : LifeOp) (i : option Interface) : option (option Interface * list IfEvent) :=
  i ← i;
  Some (match o with
        | OpRef => (Some (iface_ref i), [])
        | OpUnref => iface_unref i
        | OpAddSender => (Some (iface_add_sender i), [])
        | OpDelSender => iface_del_sender i
        end).

Fixpoint life_run (i : option Interface) (os : list LifeOp) : option (option Interface * list IfEvent) :=
  match os with
  | [] => Some (i, [])
  | o :: os => '(i, ev) ← life_step o i; '(i, ev') ← life_run i os; Some (i, ev ++ ev')
  end.

(** The owners and senders of an interface: a holder may take further
    references, and each releases what it took. *)
Fixpoint balance (r s : nat) (os : list LifeOp) : option (nat * nat) :=
  match os with
  | [] => Some (r, s)
  | OpRef :: os => if bool_decide (0 < r)%nat then balance (S r) s os else None
  | OpUnref :: os => match r with O => None | S r => balance r s os end
  | OpAddSender :: os => if bool_decide (0 < r + s)%nat then balance r (S s) os else None
  | OpDelSender :: os => match s with O => None | S s => balance r s os end
  end.

(** The interface with [r] owners and [s] senders; the pipelines of its streams
    are referenced as long as it receives. *)
Definition life_inv (r s : nat) (i : option Interface) : Prop :=
  match i with
  | None => r = 0%nat ∧ s = 0%nat
  | Some i => if_references i = Z.of_nat r ∧ if_senders i = Z.of_nat s ∧ (0 < r + s)%nat ∧
      (r = 0%nat → if_state i = IFSTATE_SHUTDOWN ∧ if_parsetree i = None ∧ recv_th_ i = false)
  end.

Definition frees (ev : list IfEvent) : nat := length (omap (λ e, if e is EvFree then Some tt else None) ev).
Definition released (ev : list IfEvent) : list RefEvent := omap (λ e, if e is EvPipe x then Some x else None) ev.
Definition stream_refs (i : option Interface) : list RefEvent :=
  match i ≫= if_parsetree with Some pt => delete_parsetree pt | None => [] end.

Lemma released_app l1 l2 : released (l1 ++ l2) = released l1 ++ released l2.
Proof. apply omap_app. Qed.
Lemma frees_app l1 l2 : frees (l1 ++ l2) = (frees l1 + frees l2)%nat.
Proof. unfold frees. by rewrite omap_app, length_app. Qed.
Lemma released_drop i : released (drop_parsetree i) = stream_refs (Some i).
Proof.
  unfold drop_parsetree, stream_refs, released. cbn. destruct (if_parsetree i) as [pt|]; [|done].
  induction (delete_parsetree pt) as [|e l IH]; [done|]. cbn. by rewrite IH.
Qed.
Lemma frees_drop i : frees (drop_parsetree i) = 0%nat.
Proof.
  unfold drop_parsetree, frees. destruct (if_parsetree i) as [pt|]; [|done].
  induction (delete_parsetree pt) as [|e l IH]; [done|]. cbn. done.
Qed.
Lemma join_silent i : released (join i) = [] ∧ frees (join i) = 0%nat.
Proof. unfold join. by destruct (recv_th_ i). Qed.

Create Rewrite HintDb life.
#[local] Hint Rewrite released_app frees_app released_drop frees_drop : life.

Lemma delete_interface_events i :
  released (delete_interface i) = stream_refs (Some i) ∧ frees (delete_interface i) = 1%nat.
Proof.
  unfold delete_interface. destruct (join_silent i) as [J1 J2]. autorewrite with life. rewrite J1, J2. cbn.
  by rewrite app_nil_r.
Qed.

#[local] Arguments delete_interface : simpl never.
#[local] Arguments join : simpl never.
#[local] Arguments drop_parsetree : simpl never.

Ltac life_done := split_and!; try done; try lia; case_bool_decide; solve [auto | symmetry; auto | lia].

(** One call: the interface is freed with the last reference, and the stream list
    is released with the last owner. *)
Lemma life_step_spec o i r s os res :
  life_inv r s (Some i) → balance r s (o :: os) = Some res → Z.of_nat (r + s) < 2 ^ 31 - 1 →
  ∃ i' ev r' s', life_step o (Some i) = Some (i', ev) ∧ life_inv r' s' i' ∧ balance r' s' os = Some res ∧
    (r' + s' <= S (r + s))%nat ∧
    released ev = (if bool_decide (r' = 0%nat) then stream_refs (Some i) else []) ∧
    stream_refs i' = (if bool_decide (r' = 0%nat) then [] else stream_refs (Some i)) ∧
    frees ev = if bool_decide (i' = None) then 1%nat else 0%nat.
Proof.
  intros (Er & Es & Hrs & Hz) Hb Hm. unfold life_step. cbn [mbind option_bind].
  assert (r = 0%nat → stream_refs (Some i) = []) as Hsr by (intros H0; destruct (Hz H0) as (_ & E & _); unfold stream_refs; cbn; by rewrite E).
  destruct (delete_interface_events i) as [Hd1 Hd2].
  destruct o; cbn [balance] in Hb.
  - case_bool_decide; [|done]. exists (Some (iface_ref i)), [], (S r), s. unfold iface_ref. cbn.
    rewrite Er, i32_small by (unfold is_i32; lia). life_done.
  - destruct r as [|r]; [done|]. unfold iface_unref, unref_rest, unref_dec. cbn.
    rewrite Er, i32_small by (unfold is_i32; lia). destruct (Z.eqb_spec (Z.of_nat (S r) - 1) 0); cbn.
    + destruct (Z.gtb_spec (if_senders i) 0).
      * eexists _, _, r, s. split; [done|]. cbn. rewrite (bool_decide_eq_true_2 (r = 0%nat)) by lia.
        match goal with |- context [join ?j] => destruct (join_silent j) as [J1 J2] end.
        autorewrite with life. rewrite J1, J2. life_done.
      * eexists _, _, r, s. split; [done|]. cbn. rewrite (bool_decide_eq_true_2 (r = 0%nat)) by lia.
        match goal with |- context [delete_interface ?j] => destruct (delete_interface_events j) as [-> ->] end.
        life_done.
    + eexists _, _, r, s. split; [done|]. cbn. rewrite (bool_decide_eq_false_2 (r = 0%nat)) by lia.
      life_done.
  - case_bool_decide; [|done]. exists (Some (iface_add_sender i)), [], r, (S s). unfold iface_add_sender. cbn.
    rewrite Es, i32_small by (unfold is_i32; lia). life_done.
  - destruct s as [|s]; [done|]. unfold iface_del_sender, del_sender_rest, del_sender_dec. cbn.
    rewrite Es, i32_small by (unfold is_i32; lia). destruct (Z.eqb_spec (Z.of_nat (S s) - 1) 0); cbn.
    + destruct (Z.gtb_spec (if_references i) 0).
      * eexists _, _, r, s. split; [done|]. cbn. rewrite (bool_decide_eq_false_2 (r = 0%nat)) by lia.
        life_done.
      * eexists _, _, r, s. split; [done|]. cbn. rewrite (bool_decide_eq_true_2 (r = 0%nat)) by lia.
        match goal with |- context [delete_interface ?j] => destruct (delete_interface_events j) as [-> ->] end.
        life_done.
    + eexists _, _, r, s. split; [done|]. cbn. life_done.
Qed.

Lemma balance_empty os r s : balance 0 0 os = Some (r, s) → os = [] ∧ r = 0%nat ∧ s = 0%nat.
Proof. destruct os as [|[] os]; cbn; try done. by intros [= <- <-]. Qed.

Lemma balance_ownerless os : ∀ s r' s', balance 0 s os = Some (r', s') → r' = 0%nat.
Proof.
  induction os as [|[] os IH]; intros s r' s' H; cbn in H; try done; [by simplify_eq|..].
  - case_bool_decide; [|done]. by eapply IH.
  - destruct s; [done|]. by eapply IH.
Qed.

Lemma life_run_spec os : ∀ i r s r' s',
  life_inv r s (Some i) → balance r s os = Some (r', s') → Z.of_nat (r + s + length os) < 2 ^ 31 - 1 →
  ∃ i' ev, life_run (Some i) os = Some (i', ev) ∧ life_inv r' s' i' ∧
    released ev = (if bool_decide (r' = 0%nat) then stream_refs (Some i) else []) ∧
    frees ev = if bool_decide (i' = None) then 1%nat else 0%nat.
Proof.
  induction os as [|o os IH]; intros i r s r' s' Hi Hb Hm; cbn [life_run].
  { cbn in Hb. simplify_eq. exists (Some i), []. split_and!; try done.
    case_bool_decide as Hz; [|done]. destruct Hi as (_ & _ & _ & H). destruct (H Hz) as (_ & E & _). unfold stream_refs. cbn. by rewrite E. }
  destruct (life_step_spec o i r s os (r', s') Hi Hb ltac:(lia)) as (i1 & ev1 & r1 & s1 & -> & H1 & Hb1 & Hle & R1 & S1 & F1).
  cbn [mbind option_bind]. cbn [length] in Hm. destruct i1 as [i1|].
  - destruct (IH i1 r1 s1 r' s' H1 Hb1 ltac:(lia)) as (i2 & ev2 & -> & H2 & R2 & F2). cbn [mbind option_bind].
    exists i2, (ev1 ++ ev2). split_and!; [done | done | |by rewrite frees_app, F1, F2].
    rewrite released_app, R1, R2, S1. destruct r1 as [|r1]; [|by case_bool_decide].
    apply balance_ownerless in Hb1 as ->. by rewrite app_nil_r.
  - destruct H1 as [-> ->]. apply balance_empty in Hb1 as (-> & -> & ->). cbn [life_run mbind option_bind].
    exists None, (ev1 ++ []). rewrite app_nil_r. done.
Qed.



(** The two counters are tested one after the other: when the last owner and the
    last sender leave at the same time, both can see the other's counter at zero
    and free the interface. *)
Lemma concurrent_release i :
  if_references i = 1 → if_senders i = 1 →
  let i' := del_sender_dec (unref_dec i) in
  (∃ ev, unref_rest (if_references (unref_dec i)) i' = (None, ev) ∧ frees ev = 1%nat) ∧
  (∃ ev, del_sender_rest (if_senders i') i' = (None, ev) ∧ frees ev = 1%nat).
Proof.
  intros Er Es. unfold unref_rest, del_sender_rest, del_sender_dec, unref_dec. cbn. rewrite Er, Es. cbn.
  split; (eexists; split; [done|]; apply delete_interface_events).
Qed.

End Ifc.
