(* ===== verification/ConfSafe.v ===== *)
(** * From the configuration to safe runs

    Assembling well-typed intermediate actions gives pipelines that are safe on
    the packets of the stream; together with the translation (ConfSound.v), the
    identification of streams (ParseTree.v) and the runs (RunSafe.v), an
    accepted configuration never makes a packet action leave the packet. *)

From S2P Require Import Prelude TimeUtils CString Protocol Packet HeaderField Checksum ParseTree SeqGen Pof Action Object Pipeline PipelineRun ConfUtils ConfActions ConfPipeline ConfTyping ConfSound ConfPacket Assemble ActionSafe RunSafe Interface.
Import Time CStr Proto Pkt Field Csum Parse POF(ActionResult(..)) Act Obj Pipe ConfU ConfA ConfP Typing Sound ConfPkt Asm ActSafe RunSafe Ifc.

Module ConfSafe.

#[local] Open Scope list_scope.
#[local] Open Scope Z_scope.

(** Packets that need less scratch space. *)
Lemma fits_mono n n' s p : n <= n' → fits n s p → fits n' s p.
Proof. intros Hn [? ? ? ? ?]. split; try done. lia. Qed.

Lemma exec_safe_mono n s a n' n'' s' : n' <= n'' → exec_safe n s a n' s' → exec_safe n s a n'' s'.
Proof.
  intros Hn He env w p Hf. destruct (He env w p Hf) as (r & p' & ev & E & Hf'). do 3 eexists. split; [exact E|]. by eapply fits_mono.
Qed.

(** ** Assignments *)

Section readers.
Context (c : Conf) `{!PropertyReaders c}.

Lemma assign_edits n s a a' : assign_ok c s a → assemble_assign a = Good a' → edits n s (edit_assign a').
Proof.
  intros [Hk Hr] H p Hf. unfold assemble_assign in H. unfold rhs_ok in Hr. destruct (rhs a) as [hf rd|v|ifc prop rd].
  - good_subst H. destruct Hr as (Hs & -> & Hw). unfold edit_assign. cbn [read write write_state].
    destruct (read_field_total n s p _ hf _ Hf Hk Hs Hw) as (b & -> & L). eexists. split; [done|]. by apply fits_set_buf.
  - destruct Hr as [Hv Hw]. pose proof (writer_shape _ _ _ (Hw (PtrOwn []))) as [Ec _]%same_shape_true. cbn in Ec.
    destruct (field_ok_idx _ _ Hk) as (_ & _ & Hc & _).
    destruct (copy_const_ok v ltac:(lia) Hv) as (v' & Ev & Hv' & Eo' & Ec'). rewrite Ev in H. good_subst H.
    unfold edit_assign. cbn [read write write_state constant]. rewrite <- Eo', <- Ec' in Hw.
    destruct (const_writes n s p _ _ v' Hf Hk Hv' Hw) as (b & -> & L). eexists. split; [done|]. by apply fits_set_buf.
  - good_subst H. destruct Hr as [Hg Hw]. destruct (property_readers _ _ _ _ _ _ Hg) as (v & Hv & Eo & Ec & Hrd).
    unfold edit_assign. cbn [read write write_state]. rewrite Hrd. rewrite <- Eo, <- Ec in Hw.
    destruct (const_writes n s p _ _ v Hf Hk Hv Hw) as (b & -> & L). eexists. split; [done|]. by apply fits_set_buf.
Qed.

Lemma assigns_edits n s l l' :
  Forall (assign_ok c s) l → assemble_assigns l = Good l' → Forall (λ a, edits n s (edit_assign a)) l'.
Proof.
  intros Hl. revert l'. induction Hl as [|a l Ha Hl IH]; intros l' H; cbn [assemble_assigns] in H; [good_subst H; constructor|].
  res_inv H. good_subst H. constructor; [by eapply assign_edits | by apply IH].
Qed.

(** ** Single actions *)

Context {R : Type} `{!MaintenancePoints R}.

Definition same_pipes (b b' : Build (R := R)) : Prop := b_pipes b' = b_pipes b ∧ b_next b' = b_next b.

Lemma ref_object_same o b b' : ref_object o b = Good b' → same_pipes b b'.
Proof. unfold ref_object. destruct (_ !! _); [|done]. intros H. by good_subst H. Qed.

Lemma store_pipes_same o l b b' : store_pipes o l b = Good b' → same_pipes b b'.
Proof. unfold store_pipes. destruct (_ !! _) as [[[] ?]|]; try done. intros H. by good_subst H. Qed.

Lemma deref_ca_Good {A} (o : option A) a : deref_ca o = Good a ↔ o = Some a.
Proof. destruct o; cbn; split; congruence. Qed.

Lemma csum_cp s d cp : csum_ok s d → checksum_params d = Good cp → cp_ok s cp.
Proof.
  intros (f & Ef & Hk & Hs & Hp) H. unfold checksum_params in H. res_inv H. apply deref_ca_Good in E. good_subst H. simplify_eq.
  destruct (field_ok_idx _ _ Hk) as (Hi & _). split; cbn; [done|]. destruct Hp as [?|(? & ? & _)]; [by left|right]. split; [done|lia].
Qed.

Lemma trivial_exec n s a : (∀ env w p, ∃ r ev, packet_execute env w a p = Some (r, p, ev)) → exec_safe n s a n s.
Proof. intros H env w p Hf. destruct (H env w p) as (r & ev & E). eauto 10. Qed.

Lemma send_safe n s i : exec_safe n s (ACTION_SEND i) n s.
Proof. intros env w p Hf. do 3 eexists. split; [done|]. apply fits_set_buf; [done|]. apply sent_length. Qed.

Lemma detect_elim n s o stack a :
  (∀ p, stack = Some p → detect_ok s p) → create_action_elim o stack = Some a → ∃ d, a = ACTION_ELIM o d ∧ detects n s d.
Proof.
  intros Hd H. unfold create_action_elim in H. destruct stack as [p|].
  - destruct (analyze_detects n s p (Hd p eq_refl)) as (d & E & D). rewrite E in H. cbn in H. simplify_eq. eauto.
  - simplify_eq. eexists. split; [done|]. apply no_detect.
Qed.

Lemma leaf_runs s ca b a b' :
  leaf_ok c s ca → (length s < 20)%nat → assemble_leaf ca b = Good (a, b') →
  same_pipes b b' ∧ ∀ P n l, runs P n s l → runs P n s (a :: l).
Proof.
  intros Hk Hs H.
  assert (∀ r : Res Action, (a ← r; Good (a, b)) = Good (a, b') → r = Good a ∧ same_pipes b b') as Honly.
  { intros r Hr. res_inv Hr. injection Hr as <- <-. done. }
  assert (∀ a0, (∀ n, exec_safe n s a0 n s) → ∀ P n l, runs P n s l → runs P n s (a0 :: l)) as Hexec
    by (intros a0 He P n l Hl; by eapply runs_packet).
  destruct ca as [|x|d|h i|v offl| |el|r pn stk|f|pn|o|o|o|p|f|f|br o stk|i|g|h f bl pi| |f cs|d|f|f];
    cbn [leaf_ok] in Hk; try done; cbn [assemble_leaf] in H; cbv beta zeta in H; try done.
  - apply Honly in H as [H Hsp]. apply fmap_Good in H as (cp & E & ->). split; [done|]. apply Hexec.
    intros n. by eapply checksum_safe, csum_cp.
  - apply Honly in H as [H Hsp]. res_inv H. good_subst H. split; [done|]. intros P n l. by apply runs_object.
  - injection H as <- <-. split; [done|]. apply Hexec. intros n. apply trivial_exec. eauto.
  - apply Honly in H as [H Hsp]. apply fmap_Good in H as (l' & E & ->). split; [done|]. apply Hexec. destruct Hk as [Hne Hk].
    intros n. apply edit_safe. unfold assemble_fieldassigns in E. destruct el; [done|]. by eapply assigns_edits.
  - destruct r as [r|], pn as [pn|]; try done. res_inv H. apply deref_ca_Good in E, E0. injection E as <-.
    injection H as <- <-. split; [by eapply ref_object_same|]. intros P n l Hl.
    destruct (detect_elim n s _ _ _ Hk E0) as (d & -> & D). by apply runs_elim.
  - injection H as <- <-. split; [done|]. apply Hexec. intros n. by apply filteroam_safe.
  - destruct p; [|done]. res_inv H. injection H as <- <-. split; [by eapply ref_object_same|]. intros P n l. by apply runs_object.
  - destruct f as [f|]; [|done]. apply Honly in H as [H Hsp]. injection H as <-. split; [done|]. apply Hexec. intros n. by apply readseq_safe.
  - destruct f as [f|]; [|done]. apply Honly in H as [H Hsp]. injection H as <-. split; [done|]. apply Hexec. intros n. by apply readtstamp_safe.
  - destruct i as [i|]; [|done]. apply Honly in H as [H Hsp]. injection H as <-. split; [done|]. apply Hexec. intros n. apply send_safe.
  - destruct g; [|done]. res_inv H. injection H as <- <-. split; [by eapply ref_object_same|]. intros P n l. by apply runs_object.
  - destruct f as [f|]; [|done]. apply Honly in H as [H Hsp]. injection H as <-. split; [done|]. apply Hexec.
    intros n. destruct Hk as (? & _ & ?). by apply setlength_safe.
  - injection H as <- <-. split; [done|]. apply Hexec. intros n. apply trivial_exec. cbn. eauto.
  - destruct f as [f|]; [|done]. apply Honly in H as [H Hsp]. injection H as <-. split; [done|]. apply Hexec.
    intros n. destruct Hk as (Hf & _ & Hc). unfold create_action_ttlreduce. destruct cs as [g|]; apply ttlreduce_safe; try done.
    + intros _. by apply Hc.
    + cbn. destruct (field_ok_idx _ _ Hf) as (Hi & _). lia.
  - apply Honly in H as [H Hsp]. apply fmap_Good in H as (cp & E & ->). split; [done|]. apply Hexec.
    intros n. by eapply verify_safe, csum_cp.
  - destruct f as [f|]; [|done]. apply Honly in H as [H Hsp]. injection H as <-. split; [done|]. apply Hexec. intros n. by apply writeseq_safe.
  - destruct f as [f|]; [|done]. apply Honly in H as [H Hsp]. injection H as <-. split; [done|]. apply Hexec. intros n. by apply writetstamp_safe.
Qed.

(** ** Lists and branches *)

(** The headers that actions add, over all branches. *)
Fixpoint adds (a : ConfAction) : nat :=
  match a with
  | CA_ADD _ => 1
  | CA_REPL br _ _ => foldr (λ x acc, foldr (λ a acc, adds a + acc)%nat 0%nat x.1.2 + acc)%nat 0%nat br
  | _ => 0
  end.

Definition adds_list (l : list ConfAction) : nat := foldr (λ a acc, adds a + acc)%nat 0%nat l.

Lemma adds_branch nm l m br o stk : (nm, l, m) ∈ br → (adds_list l <= adds (CA_REPL br o stk))%nat.
Proof.
  cbn [adds]. fold adds_list. induction br as [|x br IH]; intros Hin; [by apply elem_of_nil in Hin|].
  cbn [foldr]. fold (adds_list x.1.2). apply elem_of_cons in Hin as [<-|Hin]; [cbn [fst snd]; lia|]. specialize (IH Hin). lia.
Qed.

Definition fresh (b : Build (R := R)) : Prop := ∀ id, is_Some (b_pipes b !! id) → (id < b_next b)%nat.

Record grows (b b' : Build (R := R)) : Prop := {
  gr_fresh : fresh b';
  gr_next : (b_next b <= b_next b')%nat;
  gr_pipes : b_pipes b ⊆ b_pipes b';
  gr_new : ∀ id, (id < b_next b)%nat → b_pipes b !! id = None → b_pipes b' !! id = None
}.

Lemma grows_same b b' : fresh b → same_pipes b b' → grows b b'.
Proof. intros Hf [E1 E2]. split; [unfold fresh; by rewrite E1, E2 | lia | by rewrite E1 | by rewrite E1]. Qed.

Lemma grows_trans b1 b2 b3 : grows b1 b2 → grows b2 b3 → grows b1 b3.
Proof. intros [? ? ? ?] [? ? ? N]. split; [done | lia | by etrans |]. intros id Hid Hn. apply N; [lia | auto]. Qed.

(** The program contains the pipelines built so far. *)
Definition extends (P : gmap nat (list Action)) (b : Build (R := R)) : Prop :=
  ∀ id pl, b_pipes b !! id = Some pl → P !! id = Some (Pipe.actions pl).

Lemma extends_grows P b b' : grows b b' → extends P b' → extends P b.
Proof. intros G H id pl Hl. apply H. eapply lookup_weaken; [done | apply G]. Qed.

Context (addrs : gmap nat (list OAM_MP_Address)).

Abbreviation asm_action := (assemble_action addrs).

(** What assembling [a] at the stack [s] promises: the room is what [adds] and
    the stack need. *)
Definition act_safe (s : stack) (a : ConfAction) (s1 : stack) : Prop :=
  ∀ pl m i b acts b' n, asm_action a pl m i b = Good (acts, b') → fresh b →
    (length s + adds a <= 19)%nat → n + 40 * Z.of_nat (adds a) < SCRATCH_ROOM →
    grows b b' ∧ (length s1 <= length s + adds a)%nat ∧
    ∀ P l, extends P b' → runs P (n + 40 * Z.of_nat (adds a)) s1 l → runs P n s (acts ++ l).

Definition acts_safe (s : stack) (l : list ConfAction) : Prop :=
  ∀ pl m i b acts b' n, assemble_list asm_action l pl m i b = Good (acts, b') → fresh b →
    (length s + adds_list l <= 19)%nat → n + 40 * Z.of_nat (adds_list l) < SCRATCH_ROOM →
    grows b b' ∧ ∀ P, extends P b' → runs P n s acts.

Lemma nil_safe s : acts_safe s [].
Proof. intros pl m i b acts b' n H Hf _ _. cbn in H. injection H as <- <-. split; [by apply grows_same|]. intros. constructor. Qed.

Lemma cons_safe s a s1 l : act_safe s a s1 → acts_safe s1 l → acts_safe s (a :: l).
Proof.
  intros Ha Hl pl m i b acts b' n H Hf Hs Hn. cbn [assemble_list] in H. cbn [adds_list foldr] in *. fold (adds_list l) in *.
  res_inv H. destruct r as [a1 b1]. res_inv H. destruct r as [a2 b2]. injection H as <- <-.
  destruct (Ha _ _ _ _ _ _ n E Hf ltac:(lia) ltac:(lia)) as (G1 & L1 & R1).
  destruct (Hl _ _ _ _ _ _ (n + 40 * Z.of_nat (adds a)) E0 (gr_fresh _ _ G1) ltac:(lia) ltac:(lia)) as (G2 & R2).
  split; [by eapply grows_trans|]. intros P Hx. apply R1; [by eapply extends_grows | by apply R2].
Qed.

Lemma pipeline_safe s l nm m b id b' n :
  acts_safe s l → assemble_pipeline asm_action nm l m b = Good (id, b') → fresh b →
  (length s + adds_list l <= 19)%nat → n + 40 * Z.of_nat (adds_list l) < SCRATCH_ROOM →
  grows b b' ∧ ∃ pl, b_pipes b' !! id = Some pl ∧ ∀ P, extends P b' → runs P n s (Pipe.actions pl).
Proof.
  intros Hl H Hf Hs Hn. unfold assemble_pipeline in H. destruct l as [|x l]; [done|]. cbn [alloc_pipe] in H.
  res_inv H. destruct r as [acts b1]. injection H as <- <-.
  set (b0 := mk_build _ (S (b_next b)) _ _) in E.
  assert (b_pipes b !! b_next b = None) as Hnew.
  { destruct (b_pipes b !! b_next b) eqn:Ex; [|done]. assert (b_next b < b_next b)%nat; [|lia]. apply Hf. by rewrite Ex. }
  assert (grows b b0) as G0 by (split; [intros k Hk; specialize (Hf k Hk); cbn; lia | cbn; lia | done | done]).
  destruct (Hl _ _ _ _ _ _ n E (gr_fresh _ _ G0) Hs Hn) as (G1 & R1).
  pose proof (gr_new _ _ G1 (b_next b) ltac:(cbn; lia) Hnew) as Hnew1.
  set (pl := mk_pipeline acts 1 m nm).
  assert (b_pipes b1 ⊆ b_pipes (add_pipe (b_next b) pl b1)) as Hsub by (by apply insert_subseteq).
  assert (grows b (add_pipe (b_next b) pl b1)) as G2.
  { pose proof (gr_next _ _ G1) as Hb1. cbn in Hb1. split; [|cbn; lia | |].
    - intros k. cbn. rewrite lookup_insert_is_Some'. intros [<-|Hk]; [lia | by apply (gr_fresh _ _ G1)].
    - etrans; [|exact Hsub]. exact (gr_pipes _ _ G1).
    - intros k Hk Hn'. cbn. rewrite lookup_insert_ne by lia. apply (gr_new _ _ G1); [cbn; lia | done]. }
  split; [done|]. exists pl. split; [apply lookup_insert_eq|]. intros P Hx. apply R1.
  intros k q Hq. apply Hx. by eapply lookup_weaken.
Qed.

Lemma branches_safe s br b ids b' n :
  (∀ nm l m, (nm, l, m) ∈ br → acts_safe s l ∧ (length s + adds_list l <= 19)%nat ∧ n + 40 * Z.of_nat (adds_list l) < SCRATCH_ROOM) →
  assemble_branches asm_action br b = Good (ids, b') → fresh b →
  grows b b' ∧ ∀ id, id ∈ ids → ∃ pl, b_pipes b' !! id = Some pl ∧ ∀ P, extends P b' → runs P n s (Pipe.actions pl).
Proof.
  revert b ids. induction br as [|[[nm l] m] br IH]; intros b ids Hbr H Hf; cbn [assemble_branches] in H.
  { injection H as <- <-. split; [by apply grows_same|]. intros id []%elem_of_nil. }
  res_inv H. destruct r as [id0 b1]. res_inv H. destruct r as [ids1 b2]. injection H as <- <-.
  destruct (Hbr nm l m ltac:(constructor)) as (Hl & Hs & Hn).
  destruct (pipeline_safe s l nm m b id0 b1 n Hl E Hf Hs Hn) as (G1 & pl & Hpl & Hr).
  destruct (IH b1 ids1) as (G2 & Hids); [intros; apply (Hbr nm0 l0 m0); by constructor | done | apply G1 |].
  split; [by eapply grows_trans|]. intros id [->|Hin]%elem_of_cons; [|by apply Hids].
  exists pl. split; [eapply lookup_weaken; [done | apply G2]|]. intros P Hx. apply Hr. by eapply extends_grows.
Qed.

Lemma new_mp_same o t pipe i addr b mp b' : new_mp o t pipe i addr b = Good (mp, b') → same_pipes b b'.
Proof. unfold new_mp. intros H. res_inv H. destruct r0. by injection H as <- <-. Qed.

Lemma oam_receive_safe s o im b a b' :
  detect_ok s (mp_protostack o) → oam_receive o im b = Good (a, b') →
  same_pipes b b' ∧ ∀ P n l, runs P n s l → runs P n s (a :: l).
Proof.
  intros Hd H. unfold oam_receive in H. res_inv H. destruct r as [mp b1]. res_inv H. injection H as <- <-.
  split; [by eapply new_mp_same|]. intros P n l Hl. apply deref_ca_Good in E0.
  unfold create_action_oam_receive in E0. destruct (analyze_detects n s _ Hd) as (d & Ed & D). rewrite Ed in E0. cbn in E0.
  simplify_eq. by apply runs_oam.
Qed.

Lemma oam_inject_safe o im pl m i b a b' :
  create_action_oam_inject addrs o im pl m i b = Good (a, b') →
  same_pipes b b' ∧ ∀ P n s l, runs P n s l → runs P n s (a :: l).
Proof.
  intros H. unfold create_action_oam_inject in H. res_inv H. destruct r as [mp b1]. injection H as <- <-.
  split; [by eapply new_mp_same|]. intros P n s l Hl. eapply runs_packet; [|exact Hl]. apply trivial_exec. cbn. eauto.
Qed.

(** ** Well-typed actions *)

Lemma leaf_act_safe s a : leaf_ok c s a → act_safe s a s.
Proof.
  intros Hk pl m i b acts b' n H Hf Hs Hn.
  assert (adds a = 0%nat) as Ea by (by destruct a). rewrite Ea in *. clear Ea. rewrite Nat.add_0_r, Z.mul_0_r, Z.add_0_r in *.
  assert (same_pipes b b' ∧ ∀ P n l, runs P n s l → runs P n s (acts ++ l)) as [Hsp Hr].
  { destruct a; try (cbn [assemble_action] in H; res_inv H; destruct r as [a' b1]; injection H as <- <-;
      by destruct (leaf_runs s _ _ _ _ Hk ltac:(lia) E)); try done; cbn [assemble_action] in H.
    - res_inv H. destruct r as [a' b1]. injection H as <- <-. apply oam_inject_safe in E as [? Hr]. split; [done|]. intros; by apply Hr.
    - res_inv H. destruct r as [a' b1]. injection H as <- <-. apply (oam_receive_safe s) in E as [? Hr]; [|done]. done.
    - res_inv H. destruct r as [a' b1]. res_inv H. destruct r as [a2 b2]. injection H as <- <-.
      apply (oam_receive_safe s) in E as [[? ?] Hr]; [|done]. apply oam_inject_safe in E0 as [[? ?] Hr2].
      split; [split; congruence|]. intros P n0 l Hl. apply Hr, Hr2, Hl. }
  split_and!; [by apply grows_same | lia |]. intros P l _. apply Hr.
Qed.

Lemma add_act_safe s a k :
  pos_idx a = Z.of_nat k → (k <= length s)%nat → add_len a = plen (add_id a) →
  act_safe s (CA_ADD a) (take k s ++ add_id a :: drop k s).
Proof.
  intros Ek Hk El pl m i b acts b' n H Hf Hs Hn. cbn [adds] in *. cbn in H. injection H as <- <-.
  pose proof (plen_bound (add_id a)).
  split_and!; [by apply grows_same | rewrite length_app, length_take; cbn; rewrite length_drop; lia |].
  intros P l _ Hr. rewrite Ek, El. eapply runs_packet; [|exact Hr].
  eapply exec_safe_mono; [|apply add_safe; lia]. lia.
Qed.

Lemma del_act_safe s h k : (k < length s)%nat → act_safe s (CA_DEL h (Z.of_nat k)) (take k s ++ drop (S k) s).
Proof.
  intros Hk pl m i b acts b' n H Hf Hs Hn. cbn [adds] in *. cbn in H. injection H as <- <-.
  split_and!; [by apply grows_same | rewrite length_app, length_take, length_drop; lia |].
  intros P l _ Hr. rewrite Z.mul_0_r, Z.add_0_r in Hr. eapply runs_packet; [|exact Hr]. by apply del_safe.
Qed.

Lemma repl_act_safe s br o p :
  (∀ p', p = Some p' → detect_ok s p') → (∀ nm l m, (nm, l, m) ∈ br → acts_safe s l) → act_safe s (CA_REPL br o p) s.
Proof.
  intros Hd Hbr pl m i b acts b' n H Hf Hs Hn. cbn [assemble_action] in H. res_inv H. destruct r as [ids b1]. res_inv H.
  injection H as <- <-. apply deref_ca_Good in E0.
  destruct (branches_safe s br b ids b1 n) as (G1 & Hids); [|exact E | done|].
  { intros nm l m' Hin. pose proof (adds_branch nm l m' br o p Hin). split; [by eapply Hbr | lia]. }
  assert (same_pipes b1 r0) as Hsp.
  { destruct o as [o|]; [|by injection E1 as <-]. res_inv E1. apply ref_object_same in E2 as [? ?].
    apply store_pipes_same in E1 as [? ?]. split; congruence. }
  split_and!; [eapply grows_trans; [exact G1 | apply grows_same; [apply G1 | done]] | lia |].
  intros P l Hx _. assert (extends P b1) as Hx1 by (intros k q Hq; apply Hx; by rewrite (proj1 Hsp)).
  assert (∃ d, r = ACTION_REPL ids (o_id <$> o) d ∧ detects n s d) as (d & -> & D).
  { unfold create_action_repl in E0. destruct p as [p|]; [|simplify_eq; eexists; split; [done | apply no_detect]].
    destruct (analyze_detects n s p (Hd p eq_refl)) as (d & Ed & D). rewrite Ed in E0. cbn in E0. simplify_eq. eauto. }
  apply runs_repl; [done|]. intros id acts Hin HP. destruct (Hids id Hin) as (q & Hq & Hr).
  rewrite (Hx1 _ _ Hq) in HP. injection HP as <-. by apply Hr.
Qed.

(** Induction on the derivation; a branch of a replication is a premise of it. *)
Fixpoint act_typed_safe s a s1 (H : act_typed c s a s1) {struct H} : act_safe s a s1
with acts_typed_safe s l s2 (H : acts_typed c s l s2) {struct H} : acts_safe s l.
Proof.
  - destruct H as [s a Hk|s a k Ek Hk El|s h k Hk|s br o p Hd Hne Hbr].
    + by apply leaf_act_safe.
    + by apply add_act_safe.
    + by apply del_act_safe.
    + apply repl_act_safe; [done|]. intros nm l m Hin. destruct (Hbr nm l m Hin) as (_ & s' & Hl).
      exact (acts_typed_safe s l s' Hl).
  - destruct H as [s|s a s1 l s2 Ha Hl]; [apply nil_safe|].
    eapply cons_safe; [exact (act_typed_safe s a s1 Ha) | exact (acts_typed_safe s1 l s2 Hl)].
Qed.

End readers.
(** ** Streams *)

(** The deep copy of the header list keeps the matches well-formed. *)
Lemma copy_match_wf k h h' m v :
  match_wf k h m → blen h' = blen h → copy_value (m_value m) = Some v → match_wf k h' (mk_match (m_field m) v (m_comparator m) (m_neg m)).
Proof.
  intros [Hc Hi Ho Hn Hf Hv] Eh Hcp. unfold copy_value in Hcp.
  destruct (value (m_value m)) as [o|a] eqn:Ev; [|injection Hcp as <-; split; cbn; rewrite ?Eh; done].
  destruct (Z.leb_spec ((v_bitoffset (m_value m) + v_bitcount (m_value m) + 7) / 8) (Z.of_nat (length o))); [|done].
  injection Hcp as <-.
  assert (same_shape (m_field m) (m_value m) = true) as [Ec Eo]%same_shape_true
    by (unfold header_get_field_comprator in Hc; by destruct (same_shape _ _)).
  split; cbn; rewrite ?Eh; try done. intros b i Hir. destruct (Hv b i Hir) as (x & Ex & Hx). exists x. split; [|done].
  unfold src_octet in Ex |- *. rewrite Ev in Ex. cbn. unfold load in Ex |- *. case_match; [|done].
  rewrite lookup_take_lt; [done|]. unfold field_octets in Hir. lia.
Qed.

Lemma copy_headers_wf hs : ∀ k hs', headers_wf k hs → copy_header_list hs true = Some hs' → headers_wf k hs'.
Proof.
  induction hs as [|h hs IH]; intros k hs' Hwf Hc; cbn in Hc; [by injection Hc as <-|].
  destruct (copy_match_list (d_matches h)) as [ms|] eqn:Em; [|done]. cbn in Hc.
  destruct (copy_header_list hs true) as [l|] eqn:El; [|done]. injection Hc as <-. destruct Hwf as (Hb & Hm & Hr).
  split_and!; [done | | by apply (IH (S k))]. cbn [d_matches]. set (h' := mk_desc _ _ _).
  assert (blen h' = blen h) as Eh by done. clearbody h'. clear El Hr Hb IH. revert ms Em.
  induction Hm as [|m l' Hm Hl IH]; intros ms Em; cbn in Em; [by injection Em as <-|].
  destruct (copy_value (m_value m)) as [v|] eqn:Ev; [|done]. cbn in Em.
  destruct (copy_match_list l') as [ms'|]; [|done]. injection Em as <-. constructor; [|by apply IH].
  by eapply copy_match_wf.
Qed.

(** A stream whose packets its pipeline can take. *)
Record stream_safe (P : gmap nat (list Action)) (s : Stream) : Prop := {
  ss_headers : headers_wf 0 (s_headers s);
  ss_room : (length (s_headers s) <= 19)%nat;
  ss_pipe : ∀ acts, P !! pipe_id (s_pipe s) = Some acts → runs P 0 (d_id <$> s_headers s) acts
}.

Lemma stream_safe_shrinks P P' s : shrinks P P' → stream_safe P s → stream_safe P' s.
Proof. intros S [? ? H]. split; try done. intros acts Ha. eapply runs_shrink; [done|]. by apply H, S. Qed.

(** An identified packet fits the stack of its stream. *)
Lemma layout_types st hs : (λ h, (h_type h, h_len h)) <$> layout st hs = (λ id, (id, plen id)) <$> (d_id <$> hs).
Proof. revert st. induction hs as [|h hs IH]; intros st; cbn; [done|]. by rewrite IH. Qed.

Lemma layout_low st hs : Forall (λ h, h_start h <= st + 40 * Z.of_nat (length hs)) (layout st hs).
Proof.
  revert st. induction hs as [|h hs IH]; intros st; cbn; constructor; cbn; [lia|].
  eapply Forall_impl; [apply IH|]. intros x Hx. cbn in Hx. pose proof (blen_bound h). lia.
Qed.

Lemma total_blen_bound hs : total_blen hs <= 40 * Z.of_nat (length hs).
Proof. induction hs as [|h hs IH]; cbn; [lia|]. fold (total_blen hs). pose proof (blen_bound h). lia. Qed.

Lemma identified_fits p p' hs :
  packet_wf p' → same_data p p' → scratch_len p' = 0 → active p' = identified p hs → (length hs <= 19)%nat →
  SCRATCH_ROOM <= start p <= 2048 → fits 0 (d_id <$> hs) p'.
Proof.
  intros W (Eb & Es & El) Hs Ha Hl Hst. unfold identified in Ha. rewrite (proj2 (Nat.ltb_lt _ _)) in Ha by lia.
  pose proof (total_blen_bound hs). pose proof (total_blen_nonneg hs). split; [done | lia | lia | |].
  - rewrite Ha. apply Forall_app. unfold HEADER_LIMIT. split; [|repeat constructor; cbn; lia].
    eapply Forall_impl; [apply layout_low|]. intros x Hx. cbn in Hx. lia.
  - rewrite Ha, fmap_app, layout_types. by eexists.
Qed.

(** ** Reception *)

Definition iface_safe (w : World) (i : Interface) : Prop :=
  match if_parsetree i with Some pt => Forall (stream_safe (prog w)) (streams pt) | None => True end.

(** The result of a receiving function: not a fault, and a state from which
    reception can go on. *)
Definition input_safe (w : World) (o : Outcome (bool * Interface * World)) : Prop :=
  match o with
  | Ok (_, i', w') => safe w' ∧ iface_safe w' i' ∧ shrinks (prog w) (prog w')
  | Fault => False
  | Dangling | NoFuel => True
  end.

Section reception.
Context (env : Env) (fuel : nat).
Hypothesis Hjunk : ∀ k, length (junk_buf env k) = Z.to_nat PACKET_BUF_LEN ∧ bytes_ok (junk_buf env k).

Lemma iface_safe_shrinks w w' i : shrinks (prog w) (prog w') → iface_safe w i → iface_safe w' i.
Proof.
  unfold iface_safe. destruct (if_parsetree i) as [pt|]; [|done]. intros S H.
  eapply Forall_impl; [exact H|]. intros s. by apply stream_safe_shrinks.
Qed.

Lemma iface_safe_counted w i pt k s n :
  if_parsetree i = Some pt → iface_safe w i → streams pt !! k = Some s → ∀ x y,
  iface_safe w (i <| if_parsetree := Some (mk_pt (<[k := counted s n]> (streams pt)) x y) |>).
Proof.
  intros Ei Hi Hk x y. unfold iface_safe in *. rewrite Ei in Hi. cbn. apply Forall_insert; [done|].
  destruct (Forall_lookup_1 _ _ _ _ Hi Hk). by split.
Qed.

Lemma input_safe_same w w1 o : prog w1 = prog w → input_safe w1 o → input_safe w o.
Proof. intros E H. destruct o as [[[r i'] w']| | |]; try done. unfold input_safe in *. by rewrite <- E. Qed.

Lemma process_safe i p w :
  received p → SCRATCH_ROOM <= start p <= 2048 → iface_safe w i → safe w →
  input_safe w (iface_common_process env fuel i p w).
Proof.
  intros Hr Hst Hi Hs. unfold iface_common_process. destruct (if_parsetree i) as [pt|] eqn:Ei.
  2: { split_and!; [done | done | apply shrinks_refl]. }
  pose proof Hi as Hss. unfold iface_safe in Hss. rewrite Ei in Hss.
  destruct (identify_stream_spec (streams pt) p Hr) as (r & p' & ss' & E & D & W & Hsc & Hres).
  { eapply Forall_impl; [exact Hss|]. by intros s []. }
  unfold parsetree_identify. rewrite E. cbn [mbind option_bind]. destruct r as [pipe|].
  - destruct Hres as (k & s & Hk & -> & _ & _ & Ha & ->). cbn [access mbind outcome_bind].
    destruct (Forall_lookup_1 _ _ _ _ Hss Hk) as [Hwf Hroom Hp].
    pose proof (identified_fits p p' (s_headers s) W D Hsc Ha Hroom Hst) as Hf.
    destruct (new_pipe_iterator w (pipe_id (s_pipe s)) p') as [[h w1]| | |] eqn:En; try done;
      [|by revert En; unfold new_pipe_iterator, pipeline_ref; destruct (pipes w !! _)].
    destruct (new_iterator_safe w _ p' _ _ h w1 Hs Hp Hf En) as (Hs1 & Ep & _). cbn [mbind outcome_bind].
    pose proof (run_never_faults env (λ k, proj1 (Hjunk k)) fuel w1 h Hs1) as Hrun.
    destruct (pipe_iterator_run env fuel w1 h) as [w2| | |]; try done. destruct Hrun as [Hs2 S2]. rewrite Ep in S2.
    cbn [mbind outcome_bind]. split_and!; [done | | done]. eapply iface_safe_shrinks; [exact S2|]. by eapply iface_safe_counted.
  - destruct Hres as (_ & _ & ->). cbn [access mbind outcome_bind]. split_and!; [done | | apply shrinks_refl].
    exact Hss.
Qed.

(** What a device delivers: whole frames, with at most one tag in the auxiliary
    data.  A UDP socket delivers datagrams of any length. *)
Definition msg_ok (m : Msg) : Prop :=
  bytes_ok (msg_octets m) ∧ (14 <= length (msg_octets m))%nat ∧ tags (msg_aux m) <= 1.
Definition msg_for (t : IfaceType) (m : Msg) : Prop :=
  match t with IF_UDP_IN => bytes_ok (msg_octets m) | _ => msg_ok m end.

(** What an input function gives to the identification of streams. *)
Definition input_ok (i : Interface) (x : option (option Packet * Interface * PacketPool)) : Prop :=
  ∃ r i' s', x = Some (r, i', s') ∧ if_parsetree i' = if_parsetree i ∧
    if r is Some p then received p ∧ SCRATCH_ROOM <= start p <= 2048 else True.

Lemma accepts_cases i (m : option Msg) s :
  (∃ m', m = Some m' ∧ accepts i m' s) ∨ ∀ m', m = Some m' → ¬ accepts i m' s.
Proof. destruct m as [m'|]; [|by right]. destruct (decide (accepts i m' s)); [left; eauto|]. right. by intros ? [= ->]. Qed.

Section inputs.
Context (junk : mem) (Hj : length junk = Z.to_nat PACKET_BUF_LEN) (Hjb : bytes_ok junk).

Lemma eth_input_ok i m s : (∀ m', m = Some m' → msg_ok m') → input_ok i (eth_input junk i m s).
Proof using Hj Hjb.
  intros Hm. destruct (accepts_cases i m s) as [(m' & -> & Ha)|Hno].
  - destruct (Hm m' eq_refl) as (Hb & Hl & Ht).
    destruct (eth_input_frame _ i m' s Hj Hjb Hb Ha Hl Ht) as (p & -> & Hr & _ & Hst).
    do 3 eexists. split; [done|]. split; [done|]. split; [done|]. unfold_limits. lia.
  - unfold eth_input. destruct (common_recv_discard junk i restore_vlan m s Hno) as (s' & -> & _). by do 3 eexists.
Qed.

Lemma ip_input_ok i m s : (∀ m', m = Some m' → msg_ok m') → input_ok i (ip_input junk i m s).
Proof using Hj Hjb.
  intros Hm. destruct (accepts_cases i m s) as [(m' & -> & Ha)|Hno].
  - destruct (Hm m' eq_refl) as (Hb & Hl & Ht). destruct (read_be16_total (msg_octets m') 12) as [e He]; [lia..|].
    destruct (decide (e = ETH_P_IP ∨ e = ETH_P_IPV6)) as [Hip|Hip].
    + destruct (ip_input_spec _ i m' s e Hj Hjb Hb Ha Hl He Hip) as (p & -> & Hr & _ & Hst).
      do 3 eexists. split; [done|]. split; [done|]. split; [done|]. unfold SCRATCH_ROOM. unfold_limits. lia.
    + unfold ip_input. destruct (common_recv_accept junk i (λ _, Some) m' s Hj Hjb Hb Ha) as (p & [Hr Hst Hlen Hd _ _ _ _] & ->).
      cbn [mbind option_bind]. unfold_limits. rewrite read_ethertype by lia. rewrite Hd, He. cbn [mbind option_bind].
      destruct (Z.eqb_spec e ETH_P_IPV6), (Z.eqb_spec e ETH_P_IP); try tauto. by do 3 eexists.
  - unfold ip_input. destruct (common_recv_discard junk i (λ _, Some) m s Hno) as (s' & -> & _). by do 3 eexists.
Qed.

Lemma udpin_input_ok i m s : (∀ m', m = Some m' → bytes_ok (msg_octets m')) → input_ok i (udpin_input junk i m s).
Proof using Hj Hjb.
  intros Hm. unfold udpin_input. destruct (accepts_cases i m s) as [(m' & -> & Ha)|Hno].
  - destruct (common_recv_accept junk i (λ _, Some) m' s Hj Hjb (Hm m' eq_refl) Ha) as (p & [Hr Hst _ _ _ _ _ _] & ->).
    do 3 eexists. split; [done|]. split; [done|]. split; [done|]. unfold SCRATCH_ROOM. unfold_limits. lia.
  - destruct (common_recv_discard junk i (λ _, Some) m s Hno) as (s' & -> & _). by do 3 eexists.
Qed.
End inputs.

Lemma recv_with_safe input i m w :
  input_ok i (input (junk_buf env (reads w)) i m (pool w)) → iface_safe w i → safe w → input_safe w (recv_with env fuel input i m w).
Proof.
  intros (r & i' & s' & E & Ep & Hr) Hi Hs. unfold recv_with. rewrite E. cbn [access mbind outcome_bind].
  assert (iface_safe w i') as Hi' by (unfold iface_safe in *; by rewrite Ep). destruct r as [p|].
  - destruct Hr as [Hr Hst]. apply (input_safe_same _ (tick (w <| pool := s' |>))); [done|]. by apply process_safe.
  - split_and!; [done | done | apply shrinks_refl].
Qed.

Lemma recv_loop_safe recv (P : Msg → Prop) ms :
  (∀ i m w, (∀ m', m = Some m' → P m') → iface_safe w i → safe w → input_safe w (recv i m w)) →
  ∀ i w, (∀ m, Some m ∈ ms → P m) → iface_safe w i → safe w →
  match recv_loop recv i ms w with Ok (i', w') => iface_safe w' i' ∧ safe w' | Fault => False | _ => True end.
Proof.
  intros Hrecv. induction ms as [|m ms IH]; intros i w Hms Hi Hs; cbn [recv_loop]; [done|]. case_bool_decide; [done|].
  assert (input_safe w (recv i m w)) as H1 by (apply Hrecv; [|done | done]; intros m' ->; apply Hms; constructor).
  destruct (recv i m w) as [[[r i'] w']| | |]; try done. destruct H1 as (Hs' & Hi' & _). cbn [mbind outcome_bind].
  apply IH; [|done | done]. intros m' Hin. apply Hms. by constructor.
Qed.

Lemma socket_loop_safe t loop ms i w :
  socket_loop env fuel t = Some loop → (∀ m, Some m ∈ ms → msg_for t m) → iface_safe w i → safe w →
  match loop i ms w with Ok (i', w') => iface_safe w' i' ∧ safe w' | Fault => False | _ => True end.
Proof.
  intros Ht. destruct t; try done; injection Ht as <-; (eapply recv_loop_safe; intros i' m w' Hm Hi Hs;
    apply recv_with_safe; [|done | done]; destruct (Hjunk (reads w')) as [Hj Hjb]); [apply eth_input_ok | apply ip_input_ok | apply udpin_input_ok]; done.
Qed.

End reception.

(** ** Configured streams *)

Section configured.
Context (c : Conf) `{!PropertyReaders c} {R : Type} `{!MaintenancePoints R} (addrs : gmap nat (list OAM_MP_Address)).

(** The lines of a stream and the state its pipeline is built in. *)
Record StreamConf := mk_sconf {
  sc_name : string;
  sc_stale : bool;
  sc_packet : string;
  sc_match : string;
  sc_actions : string;
  sc_build : Build (R := R)
}.

(** [s] is the stream of accepted lines, its pipeline is in the program [P]; the
    types of its headers are known, and the headers its pipeline may add fit the
    packet. *)
Definition configured (P : gmap nat (list Action)) (l : StreamConf) (s : Stream) : Prop :=
  ∃ hs hs' acts st b',
    parse_packet_line (sc_packet l) = Good hs ∧
    parse_match_line (sc_stale l) hs (sc_match l) = Good hs' ∧
    parse_actions_line c (sc_name l) (sc_actions l) hs' = Good (acts, st) ∧
    assemble_actions addrs (sc_name l) acts false (sc_build l) = Good (pipe_id (s_pipe s), b') ∧
    copy_header_list hs' true = Some (s_headers s) ∧
    fresh (sc_build l) ∧ extends P b' ∧
    Forall (λ h, d_id h ≠ PROTO_ID_PAYLOAD) hs ∧ (length hs + adds_list acts <= 19)%nat.

Lemma configured_safe P l s : configured P l s → stream_safe P s.
Proof.
  intros (hs & hs' & acts & st & b' & Hp & Hm & Ha & Hasm & Hcp & Hf & Hx & Hk & Hroom).
  destruct (accepted_lines_wf _ _ _ _ _ Hp Hm) as (_ & Hsame & Hwf). specialize (Hwf Hk).
  assert (length hs' = length hs) as Lh by (unfold same_headers in Hsame; apply (f_equal length) in Hsame; by rewrite !length_fmap in Hsame).
  pose proof (copy_header_list_ids _ _ _ Hcp) as Eid.
  assert (length (s_headers s) = length hs') as Ls by (apply (f_equal length) in Eid; by rewrite !length_fmap in Eid).
  destruct (parse_actions_typed _ _ _ _ _ _ Ha) as (_ & s' & Ht).
  destruct (pipeline_safe addrs (d_id <$> hs') acts (sc_name l) false (sc_build l) (pipe_id (s_pipe s)) b' 0) as (_ & pl & Hpl & Hr);
    [by eapply acts_typed_safe | done | done | rewrite length_fmap; lia | unfold SCRATCH_ROOM; unfold_limits; lia |].
  split; [by eapply copy_headers_wf | lia |]. intros acts0 HP. rewrite (Hx _ _ Hpl) in HP. injection HP as <-.
  rewrite Eid. by apply Hr.
Qed.

(** The stream and the state after its pipeline has been built; the boolean says
    whether the header types are known and the headers fit the packet. *)
Definition build_stream (l : StreamConf) : Res (Stream * bool * Build (R := R)) :=
  hs ← parse_packet_line (sc_packet l);
  hs' ← parse_match_line (sc_stale l) hs (sc_match l);
  '(acts, _) ← parse_actions_line c (sc_name l) (sc_actions l) hs';
  '(id, b) ← assemble_actions addrs (sc_name l) acts false (sc_build l);
  hs' ← deref_ca (copy_header_list hs' true);
  Good (mk_stream hs' (mk_pipe id (sc_name l)) 0 0,
        bool_decide (Forall (λ h, d_id h ≠ PROTO_ID_PAYLOAD) hs ∧ (length hs + adds_list acts <= 19)%nat), b).

Lemma build_stream_configured l s b P :
  build_stream l = Good (s, true, b) → fresh (sc_build l) → extends P b → configured P l s.
Proof.
  intros H Hf Hx. unfold build_stream in H. res_inv H. res_inv H. res_inv H. destruct r1 as [acts st]. res_inv H.
  destruct r1 as [id b1]. res_inv H. apply deref_ca_Good in E3. injection H as <- Hb <-.
  apply bool_decide_eq_true in Hb as [Hk Hn]. exists r, r0, acts, st, b1. by split_and!.
Qed.

(** An accepted configuration is memory safe.  When the streams of an
    Ethernet interface come from accepted packet, match and action lines (with
    known header types and at most twenty headers at any time), the receiving
    thread never accesses memory outside the buffer of a packet, whatever frames
    arrive and whatever the actions, replications and objects of the pipelines
    do with them. *)
Theorem configured_reception_safe env fuel i ms w pt confs :
  (∀ k, length (junk_buf env k) = Z.to_nat PACKET_BUF_LEN ∧ bytes_ok (junk_buf env k)) →
  (∀ m, Some m ∈ ms → msg_ok m) →
  if_parsetree i = Some pt → Forall2 (configured (prog w)) confs (streams pt) → safe w →
  eth_recv_loop env fuel i ms w ≠ Fault.
Proof.
  intros Hj Hms Hi Hc Hs E. pose proof (socket_loop_safe env fuel Hj IF_ETH _ ms i w eq_refl Hms) as H.
  rewrite E in H. apply H; [|done]. unfold iface_safe. rewrite Hi. eapply Forall2_Forall_r; [exact Hc|].
  apply Forall_true. intros l s. apply configured_safe.
Qed.

End configured.

(** A stream with a sequence generator and two branches. *)
#[local] Instance no_mps : MaintenancePoints unit := {| oam_new_maintenance_point := λ _ _, None |}.

#[local] Instance sample_readers : PropertyReaders sample_conf.
Proof. intros ifc prop t off cnt rd H. done. Qed.

Definition sample_objects : gmap nat Object :=
  {[1%nat := mk_object (Obj.PIPEOBJ_SEQGEN (SeqGen.Gen.new_seq_gen "gen" false false 0)) 1]}.

Definition sample_sconf : StreamConf :=
  mk_sconf "s" false sample_packet_line sample_match_line sample_line (mk_build ∅ 0 sample_objects tt).

Abbreviation sample_stream := (build_stream sample_conf ∅ sample_sconf).

Definition sample_world (b : Build (R := unit)) : World := mk_world (mk_pool 0 0) ∅ 0 (b_pipes b) (b_objs b) [] [] [] 0.

Definition quiet_objects (b : Build (R := unit)) : bool :=
  forallb (λ x, match obj x.2 with Obj.PIPEOBJ_SEQREC _ => false | _ => true end) (map_to_list (b_objs b)).

Lemma sample_world_safe b : quiet_objects b = true → safe (sample_world b) ∧ extends (prog (sample_world b)) b.
Proof.
  intros Hq. split; [split|].
  - intros h pi _. cbn. by rewrite lookup_empty.
  - intros o ob Ho. cbn in Ho. apply elem_of_map_to_list in Ho. unfold quiet_objects in Hq. rewrite forallb_forall in Hq.
    specialize (Hq (o, ob) (proj1 (list_elem_of_In _ _) Ho)). cbn in Hq. unfold obj_safe. by destruct (obj ob).
  - intros k pl Hl. unfold prog. cbn. by rewrite lookup_fmap, Hl.
Qed.

Definition sample_msgs : list (option Msg) := [Some sample_msg; None; Some sample_msg].

Lemma sample_msgs_ok m : Some m ∈ sample_msgs → msg_ok m.
Proof.
  intros Hm. assert (m = sample_msg) as ->
    by (repeat (apply elem_of_cons in Hm as [Hm|Hm]; [by simplify_eq|]); by apply elem_of_nil in Hm).
  split_and!; [apply Forall_replicate; unfold is_u8; lia | cbn; lia | vm_compute; discriminate].
Qed.

Lemma talker_junk k :
  length (junk_buf PipeRun.talker_env k) = Z.to_nat PACKET_BUF_LEN ∧ bytes_ok (junk_buf PipeRun.talker_env k).
Proof. split; [apply length_replicate | apply Forall_replicate; unfold is_u8; lia]. Qed.

Lemma sample_build_fresh : fresh (sc_build sample_sconf).
Proof. intros k. cbn. rewrite lookup_empty. by intros []. Qed.

Lemma configured_reception_safe_witness :
  ∃ s b, sample_stream = Good (s, true, b) ∧
    eth_recv_loop PipeRun.talker_env 100 (open_iface <| if_parsetree := Some (mk_pt [s] 0 0) |>)
      sample_msgs (sample_world b) ≠ Fault.
Proof.
  destruct (is_good_ex sample_stream) as [[[s ok] b] E]; [vm_compute; reflexivity|].
  assert ((match sample_stream with Good (_, ok, b) => ok && quiet_objects b | _ => false end) = true) as Hok by (vm_compute; reflexivity).
  rewrite E in Hok. apply andb_true_iff in Hok as [-> Hq]. exists s, b. split; [exact E|].
  destruct (sample_world_safe b Hq) as [Hs Hx].
  pose proof (build_stream_configured sample_conf ∅ sample_sconf s b _ E sample_build_fresh Hx) as Hc. clear E.
  exact (configured_reception_safe sample_conf ∅ PipeRun.talker_env 100
    (open_iface <| if_parsetree := Some (mk_pt [s] 0 0) |>) sample_msgs (sample_world b) (mk_pt [s] 0 0) [sample_sconf]
    talker_junk sample_msgs_ok eq_refl (List.Forall2_cons _ _ Hc (List.Forall2_nil _)) Hs).
Defined.

End ConfSafe.
