(* ===== verification/OamMp.v ===== *)
(** * Maintenance points (oam_maintenance.h, oam_maintenance.c)

    The table of the maintenance points with their references, injection
    points and addresses.  A maintenance point is known by a handle that stands
    for its address; the table leads from names to handles and holds no
    reference.  Calls into other components are recorded in the order they are
    made.  [None] is an access to a freed or missing object. *)

From stdpp Require Import gmultiset pretty.
From S2P Require Import Prelude Protocol HeaderField Action CString HashMap ConfActions Assemble.
From Stdlib Require Import Ascii.

Module Mp.
Import Proto Field Act CStr HMap ConfA Asm.

#[local] Open Scope string_scope.
#[local] Open Scope list_scope.
#[local] Open Scope Z_scope.

(** ** Data *)

Inductive OAM_MP_Encap := OAM_PW | OAM_TSN | OAM_SRv6.

#[global] Instance encap_eq_dec : EqDecision OAM_MP_Encap.
Proof. solve_decision. Defined.
#[global] Instance source_eq_dec : EqDecision OAM_MP_Addr_Source.
Proof. solve_decision. Defined.
#[global] Instance mp_type_eq_dec : EqDecision OAM_MP_Type.
Proof. solve_decision. Defined.

Record MP_SRv6_Address := mk_sid { loc : mem; loc_source : OAM_MP_Addr_Source }.
Record MP_MPLS_Address := mk_pw { label : mem; label_source : OAM_MP_Addr_Source }.
Record MP_TSN_Address := mk_tsn {
  dmac : mem; vlan : mem; dmac_source : OAM_MP_Addr_Source; vlan_source : OAM_MP_Addr_Source
}.

Record InjectionPoint := mk_injection { ij_pipe : nat; ij_idx : nat }.

(** The address is a union of which the encapsulation selects one member; the
    others keep the zeros of [calloc].  A thread or a queue is present or not. *)
Record OAM_MaintenancePoint := mk_mp {
  m_name : string;
  m_stream : string;
  m_type : OAM_MP_Type;
  encap : OAM_MP_Encap;
  m_level : Z;
  reference_count : Z;
  injections : list InjectionPoint;
  m_protostack : list ProtocolID;
  sid_address : MP_SRv6_Address;
  pw_address : MP_MPLS_Address;
  tsn_address : MP_TSN_Address;
  address_ok : bool;
  m_object : option ObjRef;
  oam_send : Z;
  oam_recv : Z;
  data_packets : Z;
  data_octets : Z;
  mask_queue : bool;
  mask_send : bool;
  mask_recv : bool
}.

#[global] Instance eta_mp : Eta OAM_MaintenancePoint := λ m,
  mk_mp (m_name m) (m_stream m) (m_type m) (encap m) (m_level m) (reference_count m) (injections m) (m_protostack m)
    (sid_address m) (pw_address m) (tsn_address m) (address_ok m) (m_object m) (oam_send m) (oam_recv m)
    (data_packets m) (data_octets m) (mask_queue m) (mask_send m) (mask_recv m).

(** Calls into objects and notifications. *)
Inductive MpCall :=
  | pipeline_object_ref (obj : nat)
  | pipeline_object_unref (obj : nat)
  | seq_rec_register_preAutoMIP (obj : nat) (name : string)
  | seq_rec_register_postAutoMIP (obj : nat) (name : string)
  | notification_register_source (name : string) (on : bool).

#[global] Instance call_eq_dec : EqDecision MpCall.
Proof. solve_decision. Defined.

(** [mp_hash] is NULL while there is no table; [calls] is in order. *)
Record Registry := mk_registry {
  mps : gmap nat OAM_MaintenancePoint;
  mp_hash : option (HashMap (V := nat));
  next_mp : nat;
  calls : list MpCall
}.

#[global] Instance eta_registry : Eta Registry := λ r, mk_registry (mps r) (mp_hash r) (next_mp r) (calls r).

(** What the table finds outside: the octets in memory behind a value, whether
    threads can be launched, and the masks of the pipelines. *)
Record World := mk_world { behind : nat → Z; launches : bool; pipe_mask : nat → bool }.

Section maintenance.
Context (w : World).

(** ** Addresses *)

Definition from_const (s : OAM_MP_Addr_Source) : bool :=
  match s with OAM_FROM_Edit | OAM_FROM_Match => true | _ => false end.

(** [memcpy] of [n] octets of a value to the front of [dst]; the octets behind
    a shorter value are those that follow it in memory. *)
Definition copy_value_octets (dst : mem) (ad : OAM_MP_Address) (n : nat) : option mem :=
  v ← ad_val ad;
  match value v with
  | PtrOwn m => Some (take n (m ++ map (behind w) (seq 0 n)) ++ drop n dst)
  | PtrPacket _ => None
  end.

Definition copy_if_const (dst : mem) (ad : OAM_MP_Address) (n : nat) : option mem :=
  if from_const (ad_source ad) then copy_value_octets dst ad n else Some dst.

Definition set_sid (a : MP_SRv6_Address) (ad : OAM_MP_Address) : option MP_SRv6_Address :=
  if bool_decide (loc_source a = OAM_FROM_Unknown ∧ ad_field ad = "loc") then
    l ← copy_if_const (loc a) ad 8; Some (mk_sid l (ad_source ad))
  else Some a.

Definition set_pw (a : MP_MPLS_Address) (ad : OAM_MP_Address) : option MP_MPLS_Address :=
  if bool_decide (label_source a = OAM_FROM_Unknown ∧ ad_field ad = "label") then
    l ← copy_if_const (label a) ad 4; Some (mk_pw l (ad_source ad))
  else Some a.

(** A prefix of the address is copied when it was a prefix match; without an
    address it is the group address for continuity check messages. *)
Definition set_tsn (level : Z) (a : MP_TSN_Address) (ad : OAM_MP_Address) : option MP_TSN_Address :=
  let '(mk_tsn d v ds vs) := a in
  if bool_decide (ad_field ad = "dmac") then
    match ad_source ad with
    | OAM_FROM_Edit | OAM_FROM_Match =>
        val ← ad_val ad;
        d ← copy_value_octets d ad (Z.to_nat ((v_bitcount val + 7) / 8)); Some (mk_tsn d v (ad_source ad) vs)
    | OAM_FROM_Later => Some (mk_tsn d v OAM_FROM_Later vs)
    | OAM_FROM_Unknown =>
        if bool_decide (ds = OAM_FROM_Unknown) then Some (mk_tsn [1; 128; 194; 0; 0; Z.land level 255] v OAM_FROM_Default vs)
        else Some a
    | OAM_FROM_Default => Some a
    end
  else if bool_decide (vs = OAM_FROM_Unknown ∧ (ad_field ad = "vlan" ∨ ad_field ad = "vid")) then
    v ← copy_if_const v ad 2; Some (mk_tsn d v ds (ad_source ad))
  else Some a.

Definition set_address (m : OAM_MaintenancePoint) (ad : OAM_MP_Address) : option OAM_MaintenancePoint :=
  match encap m with
  | OAM_SRv6 => a ← set_sid (sid_address m) ad; Some (m <| sid_address := a |>)
  | OAM_PW => a ← set_pw (pw_address m) ad; Some (m <| pw_address := a |>)
  | OAM_TSN => a ← set_tsn (m_level m) (tsn_address m) ad; Some (m <| tsn_address := a |>)
  end.

Definition address_known (m : OAM_MaintenancePoint) : bool :=
  match encap m with
  | OAM_SRv6 => bool_decide (loc_source (sid_address m) ≠ OAM_FROM_Unknown)
  | OAM_PW => bool_decide (label_source (pw_address m) ≠ OAM_FROM_Unknown)
  | OAM_TSN => bool_decide (dmac_source (tsn_address m) ≠ OAM_FROM_Unknown ∧ vlan_source (tsn_address m) ≠ OAM_FROM_Unknown)
  end.

Fixpoint set_addresses (m : OAM_MaintenancePoint) (addr : list OAM_MP_Address) : option OAM_MaintenancePoint :=
  match addr with
  | [] => Some m
  | ad :: addr => m ← set_address m ad; set_addresses m addr
  end.

Definition set_mp_address (m : OAM_MaintenancePoint) (addr : list OAM_MP_Address) : option OAM_MaintenancePoint :=
  m ← set_addresses m addr; Some (m <| address_ok := address_known m |>).

(** ** Names *)

Fixpoint prefix_of (p s : string) : bool :=
  match p, s with
  | EmptyString, _ => true
  | String a p, String b s => Ascii.eqb a b && prefix_of p s
  | _, _ => false
  end.

(** [strstr(s, p) != NULL] *)
Fixpoint strstr (s p : string) : bool :=
  prefix_of p s || match s with EmptyString => false | String _ s => strstr s p end.

Definition oam_is_automip_name (name : string) (position : Z) : bool :=
  if prefix_of "o_" name then
    if position >? 0 then strstr name "_post-" else if position <? 0 then strstr name "_pre-" else false
  else false.

(** ** Mask signals *)

Definition mp_can_send (m : OAM_MaintenancePoint) : bool :=
  negb (bool_decide (m_type m = OAM_Stop)) && negb (bool_decide (injections m = [])) && address_ok m.

(** The thread that sends the mask signal is launched once. *)
Definition mp_initiate_mask_signalling (m : OAM_MaintenancePoint) : bool * OAM_MaintenancePoint :=
  if negb (mp_can_send m) then (false, m)
  else (true, m <| mask_queue := true |> <| mask_send := mask_send m || launches w |>).

(** ** Creation *)

Definition no_address : MP_TSN_Address := mk_tsn (replicate 6 0) (replicate 2 0) OAM_FROM_Unknown OAM_FROM_Unknown.

Definition encap_of (stack : list ProtocolID) : option OAM_MP_Encap :=
  match head stack with
  | Some PROTO_ID_ETH => Some OAM_TSN
  | Some PROTO_ID_MPLS => Some OAM_PW
  | Some PROTO_ID_IPv6 => Some OAM_SRv6
  | _ => None
  end.

(** A pipeline is entered once, at the front. *)
Definition add_injection (m : OAM_MaintenancePoint) (pipe : option (nat * bool)) (idx : nat) : OAM_MaintenancePoint :=
  match pipe with
  | Some (pl, _) =>
      if bool_decide (pl ∈ ij_pipe <$> injections m) then m else m <| injections := mk_injection pl idx :: injections m |>
  | None => m
  end.

Definition mask_of (rq : MpRequest) (pl : nat) : bool :=
  match rq_pipe rq with Some (pl', b) => if bool_decide (pl' = pl) then b else pipe_mask w pl | None => pipe_mask w pl end.

Definition is_type (o : option ObjRef) (t : PipelineObjectType) : bool :=
  match o with
  | Some o => match o_type o, t with
              | PIPEOBJ_SEQGEN, PIPEOBJ_SEQGEN | PIPEOBJ_SEQREC, PIPEOBJ_SEQREC
              | PIPEOBJ_POF, PIPEOBJ_POF | PIPEOBJ_REPL, PIPEOBJ_REPL => true
              | _, _ => false
              end
  | None => false
  end.

(** A maintenance point that is defined again must be bound to the same object
    and belong to the same stream; NULL is returned otherwise. *)
Definition redefine (rq : MpRequest) (m : OAM_MaintenancePoint) : option (option OAM_MaintenancePoint) :=
  if bool_decide (o_id <$> m_object m ≠ o_id <$> rq_obj rq) then Some None
  else if bool_decide (rq_stream rq ≠ m_stream m) then Some None
  else
    let m := add_injection m (rq_pipe rq) (rq_idx rq) in
    m ← set_mp_address m (rq_addr rq);
    let m := if is_type (m_object m) PIPEOBJ_REPL && oam_is_automip_name (rq_name rq) 1 &&
                match injections m with i :: _ => mask_of rq (ij_pipe i) | [] => false end
             then (mp_initiate_mask_signalling m).2 else m in
    Some (Some (m <| reference_count := i32 (reference_count m + 1) |>)).

(** A new maintenance point and the calls for its object. *)
Definition create (rq : MpRequest) : option (option (OAM_MaintenancePoint * list MpCall)) :=
  match encap_of (rq_protostack rq) with
  | None => Some None
  | Some e =>
      let m := mk_mp (rq_name rq) (rq_stream rq) (rq_type rq) e (rq_level rq) 1 [] (rq_protostack rq)
                 (mk_sid (replicate 8 0) OAM_FROM_Unknown) (mk_pw (replicate 4 0) OAM_FROM_Unknown) no_address
                 false None 0 0 0 0 false false false in
      let m := add_injection m (rq_pipe rq) (rq_idx rq) in
      m ← set_mp_address m (rq_addr rq);
      let m := m <| m_object := rq_obj rq |> in
      let m := if is_type (rq_obj rq) PIPEOBJ_REPL && oam_is_automip_name (rq_name rq) 1 &&
                  match rq_pipe rq with Some (_, b) => b | None => false end
               then (mp_initiate_mask_signalling m).2 else m in
      let cs := match rq_obj rq with
                | Some o =>
                    pipeline_object_ref (o_id o) ::
                    if is_type (rq_obj rq) PIPEOBJ_SEQREC then
                      if oam_is_automip_name (rq_name rq) 1 then [seq_rec_register_postAutoMIP (o_id o) (rq_name rq)]
                      else if oam_is_automip_name (rq_name rq) (-1) then [seq_rec_register_preAutoMIP (o_id o) (rq_name rq)]
                      else []
                    else []
                | None => []
                end in
      Some (Some (m, cs ++ [notification_register_source (rq_name rq) true]))
  end.

(** The handle, or NULL. *)
Definition new_maintenance_point (rq : MpRequest) (r : Registry) : option (option nat * Registry) :=
  h ← match mp_hash r with Some h => Some h | None => new_hashmap 13 end;
  let r := r <| mp_hash := Some h |> in
  match hashmap_find h (rq_name rq) with
  | Some k =>
      m ← mps r !! k;
      m' ← redefine rq m;
      Some (match m' with Some m => (Some k, r <| mps := <[k := m]> (mps r) |>) | None => (None, r) end)
  | None =>
      c ← create rq;
      Some (match c with
            | Some (m, cs) =>
                let k := next_mp r in
                (Some k, mk_registry (<[k := m]> (mps r)) (Some (hashmap_insert h (rq_name rq) k).1.2) (S k) (calls r ++ cs))
            | None => (None, r)
            end)
  end.

(** ** References *)

(** [mp_delete_cb] *)
Definition mp_delete_cb (k : nat) (r : Registry) : option Registry :=
  m ← mps r !! k;
  Some (r <| mps := delete k (mps r) |>
          <| calls := calls r ++ notification_register_source (m_name m) false ::
                      (if m_object m is Some o then [pipeline_object_unref (o_id o)] else []) |>).

(** The part of [oam_unref_maintenance_point] behind the lock. *)
Definition unref_locked (name : string) (refcount : Z) (r : Registry) : option Registry :=
  h ← mp_hash r;
  r ← (if refcount =? 0 then
         let '(_, h, old) := hashmap_remove h name in
         let r := r <| mp_hash := Some h |> in
         match old with Some (_, k) => mp_delete_cb k r | None => Some r end
       else Some r);
  h ← mp_hash r;
  Some (if hashmap_count h =? 0 then r <| mp_hash := None |> else r).

(** The decrement; the threads end with the last reference. *)
Definition unref_count (k : nat) (r : Registry) : option (string * Z * Registry) :=
  m ← mps r !! k;
  let n := i32 (reference_count m - 1) in
  let m := m <| reference_count := n |> in
  let m := if (n =? 0) && mask_queue m then m <| mask_queue := false |> <| mask_send := false |> <| mask_recv := false |> else m in
  Some (m_name m, n, r <| mps := <[k := m]> (mps r) |>).

Definition oam_unref_maintenance_point (k : nat) (r : Registry) : option Registry :=
  '(name, n, r) ← unref_count k r; unref_locked name n r.

Definition find_maintenance_point (name : string) (r : Registry) : option (option nat * Registry) :=
  match mp_hash r with
  | None => Some (None, r)
  | Some h =>
      match hashmap_find h name with
      | Some k =>
          m ← mps r !! k;
          Some (Some k, r <| mps := <[k := m <| reference_count := i32 (reference_count m + 1) |>]> (mps r) |>)
      | None => Some (None, r)
      end
  end.

Definition drop_injections (pl : nat) (m : OAM_MaintenancePoint) : OAM_MaintenancePoint :=
  m <| injections := filter (λ i, ij_pipe i ≠ pl) (injections m) |>.

(** The points of the table forget the pipeline. *)
Definition oam_pipeline_deleted (pl : nat) (r : Registry) : Registry :=
  match mp_hash r with
  | None => r
  | Some h => r <| mps := foldl (λ ms x, alter (drop_injections pl) x.2 ms) (mps r) (items h) |>
  end.

(** ** Counters and injection *)

Definition oam_mp_count_data_packet (k : nat) (len : Z) (r : Registry) : option Registry :=
  m ← mps r !! k;
  Some (r <| mps := <[k := m <| data_packets := u64 (data_packets m + 1) |> <| data_octets := u64 (data_octets m + len) |>]> (mps r) |>).

Definition mp_count_received_message (k : nat) (r : Registry) : option Registry :=
  m ← mps r !! k;
  Some (r <| mps := <[k := m <| oam_recv := u32 (oam_recv m + 1) |>]> (mps r) |>).

(** The pipeline and the position at which the packet is processed. *)
Definition mp_inject_packet (k : nat) (r : Registry) : option (option (nat * nat) * Registry) :=
  m ← mps r !! k;
  match injections m with
  | [] => Some (None, r)
  | i :: _ => Some (Some (ij_pipe i, ij_idx i), r <| mps := <[k := m <| oam_send := u32 (oam_send m + 1) |>]> (mps r) |>)
  end.

(** [oam_automip_start_mask_session]; a table is there when an automatic MIP is. *)
Definition oam_automip_start_mask_session (name : string) (r : Registry) : option Registry :=
  h ← mp_hash r;
  match hashmap_find h name with
  | Some k => m ← mps r !! k; Some (r <| mps := <[k := (mp_initiate_mask_signalling m).2]> (mps r) |>)
  | None => Some r
  end.

End maintenance.

(** ** Life cycle *)

(** The clients of the table: the actions and requests that hold references, the
    pipelines that have been deleted, and the calls of
    [oam_unref_maintenance_point] that have decremented a count and not got the
    lock yet, with the name of the point and the count they saw. *)
Record State := mk_state { reg : Registry; refs : gmultiset nat; gone : gset nat; pending : list (string * Z) }.

Definition no_points : State := mk_state (mk_registry ∅ None 0 []) ∅ ∅ [].

Inductive MpOp :=
  | MpNew (rq : MpRequest)
  | MpFind (name : string)
  | MpDecrement (k : nat)   (* [oam_unref_maintenance_point] up to the lock *)
  | MpLocked (i : nat)      (* the part under the lock of a pending call *)
  | MpPipelineDeleted (pl : nat)
  | MpData (k : nat) (len : Z)
  | MpReceived (k : nat)
  | MpInject (k : nat)
  | MpStartMask (k : nat).

Definition take_ref (s : State) (x : option nat * Registry) : State :=
  mk_state x.2 (if x.1 is Some k then {[+ k +]} ⊎ refs s else refs s) (gone s) (pending s).

Definition with_reg (s : State) (r : Registry) : State := mk_state r (refs s) (gone s) (pending s).

Definition exec (w : World) (o : MpOp) (s : State) : option State :=
  match o with
  | MpNew rq => take_ref s <$> new_maintenance_point w rq (reg s)
  | MpFind name => take_ref s <$> find_maintenance_point name (reg s)
  | MpDecrement k => '(name, n, r) ← unref_count k (reg s); Some (mk_state r (refs s ∖ {[+ k +]}) (gone s) (pending s ++ [(name, n)]))
  | MpLocked i => '(name, n) ← pending s !! i; r ← unref_locked name n (reg s); Some (mk_state r (refs s) (gone s) (delete i (pending s)))
  | MpPipelineDeleted pl => Some (mk_state (oam_pipeline_deleted pl (reg s)) (refs s) ({[pl]} ∪ gone s) (pending s))
  | MpData k len => with_reg s <$> oam_mp_count_data_packet k len (reg s)
  | MpReceived k => with_reg s <$> mp_count_received_message k (reg s)
  | MpInject k => (λ x, with_reg s x.2) <$> mp_inject_packet k (reg s)
  | MpStartMask k =>
      m ← mps (reg s) !! k;
      Some (with_reg s ((reg s) <| mps := <[k := (mp_initiate_mask_signalling w m).2]> (mps (reg s)) |>))
  end.

(** Constant addresses have their octets. *)
Definition addr_given (ad : OAM_MP_Address) : Prop :=
  from_const (ad_source ad) = true → ∃ v m, ad_val ad = Some v ∧ value v = PtrOwn m.

(** A reference to the point of this name may be taken: its last one is not
    being given back, and the count is an [int]. *)
Definition may_take (name : string) (s : State) : Prop :=
  ((name, 0) ∉ pending s) ∧
  map_Forall (λ _ m, m_name m = name → reference_count m < 2 ^ 31 - 1) (mps (reg s)).

(** Clients use the points they hold a reference to, and give pipelines that
    have not been deleted; the table is not full.  The two races of
    [oam_unref_maintenance_point] do not occur: no reference is taken to a point
    whose last reference is being given back, and the last point of the table is
    not removed while another call waits for the lock. *)
Definition op_allowed (o : MpOp) (s : State) : Prop :=
  match o with
  | MpNew rq =>
      Forall addr_given (rq_addr rq) ∧ (∀ pl b, rq_pipe rq = Some (pl, b) → pl ∉ gone s) ∧
      match mp_hash (reg s) with Some h => hashmap_count h < 2 ^ 32 - 2 | None => True end ∧ may_take (rq_name rq) s
  | MpFind name => may_take name s
  | MpLocked i =>
      ∃ name n, pending s !! i = Some (name, n) ∧ (n = 0 → size (mps (reg s)) = 1%nat → length (pending s) = 1%nat)
  | MpDecrement k | MpData k _ | MpReceived k | MpInject k | MpStartMask k => k ∈ refs s
  | MpPipelineDeleted _ => True
  end.

Fixpoint run (w : World) (os : list MpOp) (s : State) : option State :=
  match os with [] => Some s | o :: os => s ← exec w o s; run w os s end.

Fixpoint run_allowed (w : World) (os : list MpOp) (s : State) : Prop :=
  match os with [] => True | o :: os => op_allowed o s ∧ ∀ s', exec w o s = Some s' → run_allowed w os s' end.

(** The points bound to an object, and the references taken for them. *)
Definition users (o : nat) (ms : gmap nat OAM_MaintenancePoint) : Z :=
  Z.of_nat (size (filter (λ x, o_id <$> m_object x.2 = Some o) ms)).
Definition balance (o : nat) (cs : list MpCall) : Z :=
  Z.of_nat (length (filter (λ c, c = pipeline_object_ref o) cs)) - Z.of_nat (length (filter (λ c, c = pipeline_object_unref o) cs)).

Record point_ok (s : State) (k : nat) (m : OAM_MaintenancePoint) : Prop := {
  po_count : reference_count m = Z.of_nat (multiplicity k (refs s));
  po_int : reference_count m < 2 ^ 31;
  po_held : k ∈ refs s ∨ (m_name m, 0) ∈ pending s;
  po_next : (k < next_mp (reg s))%nat;
  po_pipes : NoDup (ij_pipe <$> injections m);
  po_live : ∀ pl, pl ∈ ij_pipe <$> injections m → pl ∉ gone s
}.

(** The calls that give back a last reference. *)
Definition last_calls (p : list (string * Z)) : list (string * Z) := filter (λ x, x.2 = 0) p.

Record mp_inv (s : State) : Prop := {
  mi_table : ∃ t : gmap string nat,
    (match mp_hash (reg s) with Some h => represents h t ∧ Z.of_nat (size t) < 2 ^ 32 - 1 | None => t = ∅ end) ∧
    ∀ name k, t !! name = Some k ↔ ∃ m, mps (reg s) !! k = Some m ∧ m_name m = name;
  mi_points : ∀ k m, mps (reg s) !! k = Some m → point_ok s k m;
  mi_refs : ∀ k, k ∈ refs s → is_Some (mps (reg s) !! k);
  mi_objects : ∀ o, balance o (calls (reg s)) = users o (mps (reg s));
  mi_last : ∀ name, (name, 0) ∈ pending s → ∃ k m, mps (reg s) !! k = Some m ∧ m_name m = name ∧ k ∉ refs s;
  mi_once : NoDup (last_calls (pending s));
  mi_some : pending s ≠ [] → mps (reg s) ≠ ∅
}.

(** *** Addresses *)

(** What setting addresses leaves alone. *)
Record same_point (m m' : OAM_MaintenancePoint) : Prop := {
  sp_name : m_name m' = m_name m;
  sp_count : reference_count m' = reference_count m;
  sp_inj : injections m' = injections m;
  sp_obj : m_object m' = m_object m
}.

Lemma same_refl m : same_point m m.
Proof. by split. Qed.
#[local] Hint Resolve same_refl : core.

Lemma same_trans m1 m2 m3 : same_point m1 m2 → same_point m2 m3 → same_point m1 m3.
Proof. intros [A1 B1 C1 D1] [A2 B2 C2 D2]. split; congruence. Qed.

Section world.
Context (w : World).

Lemma copy_value_given dst ad n : addr_given ad → from_const (ad_source ad) = true → is_Some (copy_value_octets w dst ad n).
Proof. intros H Hc. destruct (H Hc) as (v & m & Hv & Hm). unfold copy_value_octets. rewrite Hv. cbn. rewrite Hm. eauto. Qed.

Lemma copy_if_given dst ad n : addr_given ad → is_Some (copy_if_const w dst ad n).
Proof. intros H. unfold copy_if_const. destruct (from_const (ad_source ad)) eqn:E; [by apply copy_value_given | eauto]. Qed.

Lemma set_address_same m ad : addr_given ad → ∃ m', set_address w m ad = Some m' ∧ same_point m m'.
Proof.
  intros H. unfold set_address. destruct (encap m).
  - unfold set_pw. destruct (bool_decide _); [|eexists; split; [reflexivity | by split]].
    destruct (copy_if_given (label (pw_address m)) ad 4 H) as [l ->]. eexists; split; [reflexivity | by split].
  - unfold set_tsn. destruct (tsn_address m) as [d v ds vs]. destruct (bool_decide (ad_field ad = _)).
    + destruct (ad_source ad) eqn:E; try (eexists; split; [reflexivity | by split]).
      * destruct (bool_decide _); eexists; (split; [reflexivity | by split]).
      * destruct (H ltac:(by rewrite E)) as (x & mm & Hx & _). rewrite Hx. cbn.
        destruct (copy_value_given d ad (Z.to_nat ((v_bitcount x + 7) / 8)) H ltac:(by rewrite E)) as [l ->].
        eexists; split; [reflexivity | by split].
      * destruct (H ltac:(by rewrite E)) as (x & mm & Hx & _). rewrite Hx. cbn.
        destruct (copy_value_given d ad (Z.to_nat ((v_bitcount x + 7) / 8)) H ltac:(by rewrite E)) as [l ->].
        eexists; split; [reflexivity | by split].
    + destruct (bool_decide _); [|eexists; split; [reflexivity | by split]].
      destruct (copy_if_given v ad 2 H) as [l ->]. eexists; split; [reflexivity | by split].
  - unfold set_sid. destruct (bool_decide _); [|eexists; split; [reflexivity | by split]].
    destruct (copy_if_given (loc (sid_address m)) ad 8 H) as [l ->]. eexists; split; [reflexivity | by split].
Qed.

Lemma set_mp_address_same m addr : Forall addr_given addr → ∃ m', set_mp_address w m addr = Some m' ∧ same_point m m'.
Proof.
  intros H. unfold set_mp_address. cut (∃ m', set_addresses w m addr = Some m' ∧ same_point m m').
  { intros (m' & -> & Hs). eexists. split; [reflexivity|]. eapply same_trans; [exact Hs | by split]. }
  revert m. induction H as [|ad addr Had _ IH]; intros m; cbn [set_addresses]; [eauto|].
  destruct (set_address_same m ad Had) as (m1 & -> & H1). destruct (IH m1) as (m2 & E & H2). cbn. rewrite E.
  eexists. split; [reflexivity|]. by eapply same_trans.
Qed.

Lemma mask_same m : same_point m (mp_initiate_mask_signalling w m).2.
Proof. unfold mp_initiate_mask_signalling. destruct (negb _); by split. Qed.

End world.

(** *** Preservation *)

#[local] Arguments gmultiset_disj_union : simpl never.
#[local] Arguments gmultiset_difference : simpl never.
#[local] Arguments gmultiset_singleton : simpl never.

Lemma users_update o k m m' ms : ms !! k = Some m → m_object m' = m_object m → users o (<[k := m']> ms) = users o ms.
Proof.
  intros Hk Ho. unfold users. rewrite map_filter_insert. cbn. rewrite Ho. destruct (decide _) as [Hd|Hd].
  - by rewrite map_size_insert_Some by (exists m; by apply map_lookup_filter_Some).
  - rewrite map_filter_delete, delete_id; [done|]. apply map_lookup_filter_None. right. intros x Hx. by simplify_eq.
Qed.

Lemma users_add o k m ms : ms !! k = None → users o (<[k := m]> ms) = users o ms + if bool_decide (o_id <$> m_object m = Some o) then 1 else 0.
Proof.
  intros Hk. unfold users. rewrite map_filter_insert. cbn. case_bool_decide as Hd.
  - rewrite decide_True by done. rewrite map_size_insert_None by (apply map_lookup_filter_None; by left). lia.
  - rewrite decide_False by done. rewrite delete_id by done. lia.
Qed.

Lemma users_delete o k m ms : ms !! k = Some m → users o (delete k ms) = users o ms - if bool_decide (o_id <$> m_object m = Some o) then 1 else 0.
Proof.
  intros Hk. rewrite <- (insert_delete_id ms k m Hk) at 2. rewrite users_add by apply lookup_delete_eq. lia.
Qed.

Lemma balance_app o cs cs' : balance o (cs ++ cs') = balance o cs + balance o cs'.
Proof. unfold balance. rewrite !filter_app, !length_app. lia. Qed.

Lemma balance_ref o o' : balance o [pipeline_object_ref o'] = if bool_decide (o' = o) then 1 else 0.
Proof. unfold balance, filter. cbn. case_bool_decide; repeat case_decide; try done; congruence. Qed.
Lemma balance_unref o o' : balance o [pipeline_object_unref o'] = if bool_decide (o' = o) then -1 else 0.
Proof. unfold balance, filter. cbn. case_bool_decide; repeat case_decide; try done; congruence. Qed.

Lemma last_calls_elem name p : (name, 0) ∈ last_calls p ↔ (name, 0) ∈ p.
Proof. unfold last_calls. rewrite list_elem_of_filter. cbn. tauto. Qed.

(** Names are unique. *)
Lemma name_inj s k k' m m' : mp_inv s → mps (reg s) !! k = Some m → mps (reg s) !! k' = Some m' → m_name m = m_name m' → k = k'.
Proof.
  intros Hi Hk Hk' E. destruct (mi_table s Hi) as (t & _ & Hn). assert (t !! m_name m = Some k) by (apply Hn; eauto).
  assert (t !! m_name m = Some k') by (apply Hn; rewrite E; eauto). congruence.
Qed.

(** A point whose last reference is being given back has none. *)
Lemma last_unheld s k m : mp_inv s → mps (reg s) !! k = Some m → (m_name m, 0) ∈ pending s → k ∉ refs s.
Proof. intros Hi Hk (k' & m' & Hk' & E & Hr)%(mi_last s Hi). by rewrite (name_inj s k k' m m'). Qed.

(** One point changes, with the references to it and the pending calls for it. *)
Lemma inv_update s k m m' refs' pend' :
  mp_inv s → mps (reg s) !! k = Some m → m_name m' = m_name m → m_object m' = m_object m →
  (∀ k', k' ≠ k → multiplicity k' refs' = multiplicity k' (refs s)) →
  (∀ x, x ∈ pending s → x ∈ pend') → (∀ name, (name, 0) ∈ pend' → name ≠ m_name m → (name, 0) ∈ pending s) →
  ((m_name m, 0) ∈ pend' → k ∉ refs') → NoDup (last_calls pend') →
  let s' := mk_state ((reg s) <| mps := <[k := m']> (mps (reg s)) |>) refs' (gone s) pend' in
  point_ok s' k m' → mp_inv s'.
Proof.
  intros Hi Hk Hname Hobj Hm Hp1 Hp2 Hp3 Hp4 s' Hok. pose proof Hi as [(t & Ht & Hn) Hp Hr Ho Hl H1 He].
  assert (∀ k', k' ≠ k → k' ∈ refs' ↔ k' ∈ refs s) as Hin by (intros k' Hne; by rewrite !elem_of_multiplicity, Hm).
  split; cbn.
  - exists t. split; [exact Ht|]. intros name k'. rewrite Hn. destruct (decide (k' = k)) as [->|Hne].
    + rewrite lookup_insert_eq, Hk. split; intros (x & [= <-] & <-); eauto.
    + by rewrite lookup_insert_ne.
  - intros k' x. destruct (decide (k' = k)) as [->|Hne]; [rewrite lookup_insert_eq; by intros [= <-]|].
    rewrite lookup_insert_ne by done. intros Hx. destruct (Hp k' x Hx) as [A A' B C D F].
    split; cbn; [by rewrite Hm | done | | done | done | done]. rewrite Hin by done. destruct B; [by left | right; auto].
  - intros k' Hk'. destruct (decide (k' = k)) as [->|Hne]; [rewrite lookup_insert_eq; eauto|]. rewrite lookup_insert_ne by done.
    by apply Hr, Hin.
  - intros o. by rewrite (users_update o k m).
  - intros name Hz. destruct (decide (name = m_name m)) as [->|Hne].
    + exists k, m'. rewrite lookup_insert_eq. auto.
    + destruct (Hl name (Hp2 name Hz Hne)) as (k' & x & Hk' & Hx & Hx'). assert (k' ≠ k) as Hkk by congruence.
      exists k', x. rewrite lookup_insert_ne by done. rewrite Hin by done. done.
  - done.
  - intros _. apply insert_non_empty.
Qed.

(** A counter or a thread of a point changes. *)
Lemma inv_same s k m m' :
  mp_inv s → mps (reg s) !! k = Some m → same_point m m' →
  mp_inv (with_reg s ((reg s) <| mps := <[k := m']> (mps (reg s)) |>)).
Proof.
  intros Hi Hk [A B C D]. apply (inv_update s k m m' (refs s) (pending s) Hi Hk); try done; [by apply last_unheld | apply (mi_once s Hi)|].
  destruct (mi_points s Hi k m Hk) as [P1 P1' P2 P3 P4 P5]. split; cbn; rewrite ?A, ?B, ?C; done.
Qed.

(** A reference is added. *)
Lemma inv_ref s k m m' :
  mp_inv s → mps (reg s) !! k = Some m → m_name m' = m_name m → m_object m' = m_object m → may_take (m_name m) s →
  reference_count m' = i32 (reference_count m + 1) → NoDup (ij_pipe <$> injections m') →
  (∀ pl, pl ∈ ij_pipe <$> injections m' → pl ∉ gone s) →
  mp_inv (take_ref s (Some k, (reg s) <| mps := <[k := m']> (mps (reg s)) |>)).
Proof.
  intros Hi Hk A B [Ht Hb] C D F. specialize (Hb k m Hk eq_refl). apply (inv_update s k m m' _ (pending s) Hi Hk A B); try done.
  - intros k' Hne. cbn. rewrite multiplicity_disj_union, multiplicity_singleton_ne by done. done.
  - apply (mi_once s Hi).
  - destruct (mi_points s Hi k m Hk) as [P1 P1' P2 P3 P4 P5]. rewrite i32_small in C by (unfold is_i32; lia).
    split; cbn; [|lia | left; multiset_solver | done | done | done].
    rewrite C, P1, multiplicity_disj_union, multiplicity_singleton_eq. lia.
Qed.

Lemma inv_table s h :
  mp_inv s → match mp_hash (reg s) with Some h => Some h | None => new_hashmap 13 end = Some h →
  mp_inv (with_reg s ((reg s) <| mp_hash := Some h |>)).
Proof.
  intros [(t & Ht & Hn) Hp Hr Ho Hl H1 He] Hh. split; [|intros k m Hk; by destruct (Hp k m Hk) | done..].
  exists t. split; [|done]. cbn. destruct (mp_hash (reg s)); [by injection Hh as ->|].
  subst t. split; [by apply (new_represents 13)|]. rewrite map_size_empty. lia.
Qed.

Lemma find_point s h name :
  mp_inv s → mp_hash (reg s) = Some h →
  match hashmap_find h name with
  | Some k => ∃ m, mps (reg s) !! k = Some m ∧ m_name m = name
  | None => ∀ k m, mps (reg s) !! k = Some m → m_name m ≠ name
  end.
Proof.
  intros [(t & Ht & Hn) _ _ _ _ _ _] Hh. rewrite Hh in Ht. destruct Ht as [[_ Hf _] _]. rewrite Hf.
  destruct (t !! name) as [k|] eqn:E; [by apply Hn|]. intros k m Hk <-.
  assert (t !! m_name m = Some k) by (apply Hn; eauto). congruence.
Qed.

Lemma add_injection_facts m pipe idx :
  let m' := add_injection m pipe idx in
  m_name m' = m_name m ∧ m_object m' = m_object m ∧ reference_count m' = reference_count m ∧
  (NoDup (ij_pipe <$> injections m) → NoDup (ij_pipe <$> injections m')) ∧
  (∀ pl, pl ∈ ij_pipe <$> injections m' → pl ∈ ij_pipe <$> injections m ∨ ∃ b, pipe = Some (pl, b)).
Proof.
  unfold add_injection. destruct pipe as [[pl b]|]; [|naive_solver]. case_bool_decide as H; [naive_solver|].
  cbn. split_and!; try done; [by constructor|]. intros pl' [->|]%elem_of_cons; eauto.
Qed.

Lemma redefine_spec w rq m (G : gset nat) :
  Forall addr_given (rq_addr rq) → (∀ pl b, rq_pipe rq = Some (pl, b) → pl ∉ G) →
  NoDup (ij_pipe <$> injections m) → (∀ pl, pl ∈ ij_pipe <$> injections m → pl ∉ G) →
  ∃ x, redefine w rq m = Some x ∧
  if x is Some m' then m_name m' = m_name m ∧ m_object m' = m_object m ∧ reference_count m' = i32 (reference_count m + 1) ∧
    NoDup (ij_pipe <$> injections m') ∧ ∀ pl, pl ∈ ij_pipe <$> injections m' → pl ∉ G
  else True.
Proof.
  intros Ha Hp Hnd Hg. unfold redefine. destruct (bool_decide _); [by eexists|]. destruct (bool_decide _); [by eexists|].
  destruct (add_injection_facts m (rq_pipe rq) (rq_idx rq)) as (F1 & F2 & F3 & F4 & F5).
  destruct (set_mp_address_same w (add_injection m (rq_pipe rq) (rq_idx rq)) _ Ha) as (m1 & -> & [A B C D]). cbn [mbind option_bind].
  eexists. split; [reflexivity|]. cbn. set (c := _ && _).
  assert (∃ m2, same_point m1 m2 ∧ (if c then (mp_initiate_mask_signalling w m1).2 else m1) = m2) as (m2 & [A2 B2 C2 D2] & ->).
  { destruct c; eexists; (split; [|reflexivity]); [apply mask_same | apply same_refl]. }
  cbn. rewrite C2, C. split_and!; [congruence | congruence | congruence | by apply F4|].
  intros pl [?|[b Hb]]%F5; eauto.
Qed.

Lemma create_spec w rq (G : gset nat) :
  Forall addr_given (rq_addr rq) → (∀ pl b, rq_pipe rq = Some (pl, b) → pl ∉ G) →
  ∃ x, create w rq = Some x ∧
  if x is Some (m, cs) then m_name m = rq_name rq ∧ m_object m = rq_obj rq ∧ reference_count m = 1 ∧
    NoDup (ij_pipe <$> injections m) ∧ (∀ pl, pl ∈ ij_pipe <$> injections m → pl ∉ G) ∧
    ∀ o, balance o cs = if bool_decide (o_id <$> rq_obj rq = Some o) then 1 else 0
  else True.
Proof.
  intros Ha Hp. unfold create. destruct (encap_of _) as [e|]; [|by eexists]. set (m0 := mk_mp _ _ _ _ _ _ _ _ _ _ _ _ _ _ _ _ _ _ _ _).
  destruct (add_injection_facts m0 (rq_pipe rq) (rq_idx rq)) as (F1 & F2 & F3 & F4 & F5).
  destruct (set_mp_address_same w (add_injection m0 (rq_pipe rq) (rq_idx rq)) _ Ha) as (m1 & -> & [A B C D]). cbn [mbind option_bind].
  eexists. split; [reflexivity|]. cbn. set (c := is_type _ _ && _ && _). set (m2 := mk_mp _ _ _ _ _ _ _ _ _ _ _ _ _ _ _ _ _ _ _ _).
  assert (∃ m3, same_point m2 m3 ∧ (if c then (mp_initiate_mask_signalling w m2).2 else m2) = m3) as (m3 & [A2 B2 C2 D2] & ->).
  { destruct c; eexists; (split; [|reflexivity]); [apply mask_same | apply same_refl]. }
  rewrite A2, B2, C2, D2. unfold m2. cbn. rewrite A, B, C, F1, F3. split_and!; try done.
  - apply F4. constructor.
  - intros pl [[]%elem_of_nil|[b Hb]]%F5. eauto.
  - intros o. rewrite balance_app. destruct (rq_obj rq) as [ob|]; [|by rewrite bool_decide_eq_false_2].
    change (?c :: ?l) with ([c] ++ l). rewrite balance_app.
    assert (∀ b1 b2 b3 : bool, balance o (if b1 then if b2 then [seq_rec_register_postAutoMIP (o_id ob) (rq_name rq)] else if b3 then [seq_rec_register_preAutoMIP (o_id ob) (rq_name rq)] else [] else []) = 0) as ->
      by (intros [] [] []; reflexivity).
    rewrite balance_ref. change (balance o [_]) with 0. cbn. repeat case_bool_decide; simplify_eq; done.
Qed.

(** A new point is entered in the table. *)
Lemma inv_add s h m cs rq :
  mp_inv s → mp_hash (reg s) = Some h → hashmap_count h < 2 ^ 32 - 2 → hashmap_find h (rq_name rq) = None →
  m_name m = rq_name rq → reference_count m = 1 → NoDup (ij_pipe <$> injections m) →
  (∀ pl, pl ∈ ij_pipe <$> injections m → pl ∉ gone s) →
  (∀ o, balance o cs = if bool_decide (o_id <$> m_object m = Some o) then 1 else 0) →
  let k := next_mp (reg s) in
  mp_inv (take_ref s (Some k, mk_registry (<[k := m]> (mps (reg s))) (Some (hashmap_insert h (rq_name rq) k).1.2) (S k) (calls (reg s) ++ cs))).
Proof.
  intros Hi Hh Hc Hf Hname Hrc Hnd Hg Hb k. pose proof (find_point s h (rq_name rq) Hi Hh) as Hnew. rewrite Hf in Hnew.
  destruct Hi as [(t & Ht & Hn) Hp Hr Ho Hl H1 He]. rewrite Hh in Ht. destruct Ht as [Ht Hsz].
  assert (mps (reg s) !! k = None) as Hk.
  { destruct (mps (reg s) !! k) as [x|] eqn:E; [|done]. destruct (Hp k x E). unfold k in *. lia. }
  assert (k ∉ refs s) as Hkr by (intros [x Hx]%Hr; congruence).
  assert (multiplicity k (refs s) = 0%nat) as Hk0 by (apply not_elem_of_multiplicity; done).
  pose proof (rp_count _ _ Ht) as Hcount. pose proof (insert_refines h t (rq_name rq) k Ht Hsz) as Hins.
  destruct (hashmap_insert h (rq_name rq) k) as [[new h'] old]. destruct Hins as (Ht' & _ & _).
  split; cbn.
  - exists (<[rq_name rq := k]> t). split.
    + split; [done|]. pose proof (map_size_insert (rq_name rq) k t) as Hs.
      destruct (t !! rq_name rq); unfold hashmap_count in Hc; rewrite Hs; cbn; lia.
    + intros name k'. destruct (decide (k' = k)) as [->|Hne].
      * rewrite lookup_insert_eq. destruct (decide (name = rq_name rq)) as [->|Hnm].
        { rewrite lookup_insert_eq. split; [intros _; eauto | done]. }
        rewrite lookup_insert_ne, Hn by done. split; [intros (x & Hx & _); congruence | intros (x & [= <-] & <-); congruence].
      * rewrite (lookup_insert_ne (mps (reg s))) by done. destruct (decide (name = rq_name rq)) as [->|Hnm].
        { rewrite lookup_insert_eq. split; [intros [= ?]; congruence|]. intros (x & Hx & Hxn). by destruct (Hnew k' x Hx). }
        by rewrite lookup_insert_ne, Hn by done.
  - intros k' x. destruct (decide (k' = k)) as [->|Hne].
    + rewrite lookup_insert_eq. intros [= <-]. split; cbn; [| lia | left; apply gmultiset_elem_of_disj_union; left; by apply gmultiset_elem_of_singleton | lia | done | done].
      rewrite Hrc, multiplicity_disj_union, multiplicity_singleton_eq, Hk0. done.
    + rewrite lookup_insert_ne by done. intros Hx. destruct (Hp k' x Hx) as [A A' B C D F].
      split; cbn; [| done | destruct B; [left; apply gmultiset_elem_of_disj_union; by right | by right] | fold k in C; lia | done | done].
      by rewrite A, multiplicity_disj_union, multiplicity_singleton_ne by done.
  - intros k' Hk'. destruct (decide (k' = k)) as [->|Hne]; [rewrite lookup_insert_eq; eauto|]. rewrite lookup_insert_ne by done.
    apply gmultiset_elem_of_disj_union in Hk' as [->%gmultiset_elem_of_singleton|Hk']; [done | by apply Hr].
  - intros o. rewrite balance_app, Ho, Hb, users_add by done. done.
  - intros name Hz. destruct (Hl name Hz) as (k' & x & Hk' & Hx & Hx'). assert (k' ≠ k) as Hne by congruence. exists k', x.
    rewrite lookup_insert_ne by done. split_and!; [done | done |]. rewrite gmultiset_elem_of_disj_union, gmultiset_elem_of_singleton. by intros [?|?].
  - done.
  - intros _. apply insert_non_empty.
Qed.

Lemma new_preserves w s rq :
  mp_inv s → op_allowed (MpNew rq) s → ∃ s', exec w (MpNew rq) s = Some s' ∧ mp_inv s'.
Proof.
  intros Hi (Ha & Hp & Hc & Hmt). cbn [exec]. unfold new_maintenance_point.
  assert (∃ h, match mp_hash (reg s) with Some h => Some h | None => new_hashmap 13 end = Some h ∧ hashmap_count h < 2 ^ 32 - 2) as (h & Eh & Hc').
  { destruct (mp_hash (reg s)) as [h|]; [eauto|]. by eexists. }
  rewrite Eh. cbn [mbind option_bind]. pose proof (inv_table s h Hi Eh) as Hi'.
  set (s1 := with_reg s _) in Hi'. change (mk_registry _ (Some h) _ _) with (reg s1).
  change (_ <| mp_hash := Some h |>) with (reg s1). 
  assert (∀ x, take_ref s x = take_ref s1 x) as Ht by done.
  pose proof (find_point s1 h (rq_name rq) Hi' eq_refl) as Hf. destruct (hashmap_find h (rq_name rq)) as [k|] eqn:E.
  - destruct Hf as (m & Hm & Hname). rewrite Hm. cbn [mbind option_bind]. destruct (mi_points s1 Hi' k m Hm) as [P1 P1' P2 P3 P4 P5].
    destruct (redefine_spec w rq m (gone s1) Ha Hp P4 P5) as (x & -> & Hx). cbn [mbind option_bind fmap option_fmap option_map].
    eexists. split; [reflexivity|]. rewrite Ht. destruct x as [m'|]; [|exact Hi']. destruct Hx as (A & B & C & D & F).
    apply (inv_ref s1 k m m'); try done. by rewrite Hname.
  - destruct (create_spec w rq (gone s1) Ha Hp) as (x & -> & Hx). cbn [mbind option_bind fmap option_fmap option_map].
    eexists. split; [reflexivity|]. rewrite Ht. destruct x as [[m cs]|]; [|exact Hi']. destruct Hx as (A & B & C & D & F & G).
    rewrite <- B in G. by apply (inv_add s1 h m cs rq).
Qed.

Lemma find_preserves w s name : mp_inv s → may_take name s → ∃ s', exec w (MpFind name) s = Some s' ∧ mp_inv s'.
Proof.
  intros Hi Hmt. cbn [exec]. unfold find_maintenance_point. destruct (mp_hash (reg s)) as [h|] eqn:Eh; [|eexists; split; [reflexivity | by destruct s]].
  pose proof (find_point s h name Hi Eh) as Hf. destruct (hashmap_find h name) as [k|]; [|eexists; split; [reflexivity | by destruct s]].
  destruct Hf as (m & Hm & <-). rewrite Hm. eexists. split; [reflexivity|]. destruct (mi_points s Hi k m Hm). by apply (inv_ref s k m).
Qed.

(** A reference is given back, up to the lock. *)
Lemma decrement_preserves w s k : mp_inv s → k ∈ refs s → ∃ s', exec w (MpDecrement k) s = Some s' ∧ mp_inv s'.
Proof.
  intros Hi Hin. destruct (mi_refs s Hi k Hin) as [m Hm]. destruct (mi_points s Hi k m Hm) as [P1 P1' P2 P3 P4 P5].
  assert (0 < multiplicity k (refs s))%nat as Hpos by exact Hin.
  cbn [exec]. unfold unref_count. rewrite Hm. cbn [mbind option_bind]. rewrite i32_small by (unfold is_i32; lia).
  set (n := reference_count m - 1) in *. match goal with |- context [<[k := ?x]>] => set (m1 := x) end.
  assert (m_name m1 = m_name m ∧ m_object m1 = m_object m ∧ reference_count m1 = n ∧ injections m1 = injections m) as (Hn1 & Ho1 & Hc1 & Hi1).
  { unfold m1. destruct (n =? 0); cbn; destruct (mask_queue m); done. }
  rewrite Hn1. eexists. split; [reflexivity|].
  assert ((m_name m, 0) ∉ pending s) as Hnp by (intros H; by apply (last_unheld s k m)).
  apply (inv_update s k m); try done.
  - intros k' Hne'. rewrite multiplicity_difference, multiplicity_singleton_ne by done. lia.
  - intros x Hx. apply elem_of_app. by left.
  - intros name [?|[= -> _]%list_elem_of_singleton]%elem_of_app; done.
  - intros [?|[= Hz]%list_elem_of_singleton]%elem_of_app; [done|]. apply not_elem_of_multiplicity.
    rewrite multiplicity_difference, multiplicity_singleton_eq. lia.
  - unfold last_calls. rewrite filter_app. apply NoDup_app. split_and!; [apply (mi_once s Hi) | | rewrite filter_cons; cbn; case_decide; repeat constructor; apply not_elem_of_nil].
    intros x Hx Hx'. apply list_elem_of_filter in Hx as [Hx0 Hx], Hx' as [_ ->%list_elem_of_singleton]. cbn in Hx0. rewrite Hx0 in Hx. done.
  - split; cbn; [| lia | |done | by rewrite Hi1 | by rewrite Hi1].
    + rewrite Hc1. unfold n. rewrite P1, multiplicity_difference, multiplicity_singleton_eq. lia.
    + destruct (decide (n = 0)) as [E|E]; [right | left].
      * rewrite Hn1, E. apply elem_of_app. right. by apply list_elem_of_singleton.
      * apply elem_of_multiplicity. rewrite multiplicity_difference, multiplicity_singleton_eq. lia.
Qed.

(** The pending calls but one. *)
Lemma pending_delete (p : list (string * Z)) i name n :
  p !! i = Some (name, n) →
  (∀ x, x ∈ delete i p → x ∈ p) ∧ (∀ x, x ∈ p → x = (name, n) ∨ x ∈ delete i p) ∧
  (NoDup (last_calls p) → NoDup (last_calls (delete i p)) ∧ (n = 0 → (name, 0) ∉ delete i p)).
Proof.
  intros H%delete_Permutation. set (d := delete i p) in *. clearbody d. split_and!.
  - intros x Hx. rewrite H. by constructor.
  - intros x. rewrite H. by rewrite elem_of_cons.
  - unfold last_calls. intros Hnd. rewrite H, filter_cons in Hnd. cbn in Hnd. destruct (decide (n = 0)) as [->|Hn]; [|by split].
    apply NoDup_cons in Hnd as [H1 H2]. split; [done|]. intros _ Hin. apply H1, list_elem_of_filter. done.
Qed.

(** The point of a last reference leaves the table. *)
Lemma inv_remove s i k m h h' cs :
  mp_inv s → mps (reg s) !! k = Some m → pending s !! i = Some (m_name m, 0) → mp_hash (reg s) = Some h →
  (size (mps (reg s)) = 1%nat → length (pending s) = 1%nat) →
  (∀ t, represents h t → represents h' (delete (m_name m) t)) →
  (∀ o, balance o cs = - if bool_decide (o_id <$> m_object m = Some o) then 1 else 0) →
  mp_inv (mk_state (mk_registry (delete k (mps (reg s))) (if hashmap_count h' =? 0 then None else Some h') (next_mp (reg s)) (calls (reg s) ++ cs))
            (refs s) (gone s) (delete i (pending s))).
Proof.
  intros Hi Hk Hpi Hh Hone Hrep Hb. pose proof Hi as [(t & Ht & Hn) Hp Hr Ho Hl H1 He]. rewrite Hh in Ht. destruct Ht as [Ht Hsz].
  destruct (pending_delete _ _ _ _ Hpi) as (D1 & D2 & D3). destruct (D3 H1) as [D4 D5]. specialize (D5 eq_refl).
  assert (k ∉ refs s) as Hkr by (apply (last_unheld s k m Hi Hk); by eapply list_elem_of_lookup_2).
  specialize (Hrep t Ht). split; cbn.
  - exists (delete (m_name m) t). split.
    + destruct (Z.eqb_spec (hashmap_count h') 0) as [E|E].
      * apply map_size_empty_inv. pose proof (rp_count _ _ Hrep) as H. unfold hashmap_count in E. lia.
      * split; [done|]. pose proof (map_size_delete (m_name m) t) as Hs. destruct (t !! m_name m); rewrite Hs; cbn; lia.
    + intros name k'. destruct (decide (name = m_name m)) as [->|Hne].
      * rewrite lookup_delete_eq. split; [done|]. intros (x & [Hk' Hx]%lookup_delete_Some & Hxn). by destruct Hk'; apply (name_inj s k k' m x).
      * rewrite lookup_delete_ne, Hn by done. split.
        { intros (x & Hx & Hxn). exists x. split; [|done]. rewrite lookup_delete_ne; [done|]. intros ->. congruence. }
        { intros (x & [_ Hx]%lookup_delete_Some & Hxn). eauto. }
  - intros k' x [Hne Hx]%lookup_delete_Some. destruct (Hp k' x Hx) as [A A' B C D F]. split; cbn; try done.
    destruct B as [B|B]; [by left|]. right. destruct (D2 _ B) as [[= E]|?]; [|done]. by destruct Hne; apply (name_inj s k k' m x).
  - intros k' Hk'. rewrite lookup_delete_ne by (by intros ->). by apply Hr.
  - intros o. rewrite balance_app, Ho, Hb, (users_delete o k m) by done. lia.
  - intros name Hz. destruct (Hl name (D1 _ Hz)) as (k' & x & Hk' & Hx & Hx'). exists k', x. rewrite lookup_delete_ne; [done|].
    intros ->. simplify_eq. done.
  - done.
  - intros Hne E%(f_equal size). rewrite map_size_delete, Hk, map_size_empty in E.
    assert (size (mps (reg s)) ≠ 0%nat) by (intros H%map_size_empty_inv; rewrite H in Hk; done).
    apply Hne, length_zero_iff_nil. rewrite length_delete, Hone by (rewrite ?Hpi; eauto || lia). done.
Qed.

(** A call gets the lock. *)
Lemma locked_preserves w s i : mp_inv s → op_allowed (MpLocked i) s → ∃ s', exec w (MpLocked i) s = Some s' ∧ mp_inv s'.
Proof.
  intros Hi (name & n & Hpi & Hone). pose proof Hi as [(t & Ht & Hn) Hp Hr Ho Hl H1 He]. cbn [exec]. rewrite Hpi. cbn [mbind option_bind].
  assert (mps (reg s) ≠ ∅) as Hsome by (apply He; intros E; by rewrite E in Hpi).
  destruct (map_choose _ Hsome) as (k0 & m0 & Hk0). assert (t !! m_name m0 = Some k0) as Ht0 by (apply Hn; eauto).
  unfold unref_locked. destruct (mp_hash (reg s)) as [h|] eqn:Eh; [|by subst t]. destruct Ht as [Ht Hsz]. cbn [mbind option_bind].
  destruct (Z.eqb_spec n 0) as [->|Hne].
  - destruct (Hl name) as (k & m & Hm & <- & _); [by eapply list_elem_of_lookup_2|]. assert (t !! m_name m = Some k) as Htk by (apply Hn; eauto).
    pose proof (remove_refines h t (m_name m) Ht Hsz) as Hrm. destruct (hashmap_remove h (m_name m)) as [[ok h'] old].
    destruct Hrm as (Ht' & _ & ->). rewrite Htk. cbn. unfold mp_delete_cb. cbn. rewrite Hm. cbn. eexists. split; [reflexivity|].
    assert (∀ t0, represents h t0 → represents h' (delete (m_name m) t0)) as Hrep.
    { intros t0 Ht1. assert (t0 = t) as -> by (apply map_eq; intros j; by rewrite <- (rp_find _ _ Ht), <- (rp_find _ _ Ht1)). done. }
    pose proof (inv_remove s i k m h h' (notification_register_source (m_name m) false :: if m_object m is Some o then [pipeline_object_unref (o_id o)] else [])
                  Hi Hm Hpi Eh (Hone eq_refl) Hrep) as H.
    destruct (hashmap_count h' =? 0); apply H; (intros o; change (?c :: ?l) with ([c] ++ l); rewrite balance_app; change (balance o [_]) with 0;
      destruct (m_object m) as [ob|]; [rewrite balance_unref | done]; cbn; repeat case_bool_decide; simplify_eq; done).
  - cbn [mbind option_bind]. rewrite Eh. cbn [mbind option_bind].
    assert (hashmap_count h ≠ 0).
    { unfold hashmap_count. rewrite (rp_count _ _ Ht). intros H0. assert (size t = 0%nat) as Hz%map_size_empty_inv by lia. by subst t. }
    rewrite (proj2 (Z.eqb_neq _ _)) by done. eexists. split; [reflexivity|].
    destruct (pending_delete _ _ _ _ Hpi) as (D1 & D2 & D3). destruct (D3 H1) as [D4 _]. split; cbn; try done.
    + exists t. rewrite Eh. done.
    + intros k m Hm. destruct (Hp k m Hm) as [A A' B C D F]. split; cbn; try done.
      destruct B as [B|B]; [by left|]. right. destruct (D2 _ B) as [[= _ E]|?]; [by destruct Hne | done].
    + intros nm Hz. by apply Hl, D1.
Qed.

Lemma filter_fmap_NoDup {A B} (f : A → B) (P : A → Prop) `{!∀ x, Decision (P x)} l : NoDup (f <$> l) → NoDup (f <$> filter P l).
Proof.
  induction l as [|x l IH]; [done|]. rewrite fmap_cons. intros [Hx Hl]%NoDup_cons. rewrite filter_cons. case_decide; [|by apply IH].
  rewrite fmap_cons. constructor; [|by apply IH]. intros (y & Hy & [_ Hin]%list_elem_of_filter)%list_elem_of_fmap. apply Hx. rewrite Hy. by apply list_elem_of_fmap_2.
Qed.

Lemma fold_drop_lookup pl l (ms : gmap nat OAM_MaintenancePoint) k :
  foldl (λ ms (x : string * nat), alter (drop_injections pl) x.2 ms) ms l !! k =
  (if bool_decide (k ∈ l.*2) then drop_injections pl <$> ms !! k else ms !! k).
Proof.
  revert ms. induction l as [|[n k'] l IH]; intros ms; cbn [foldl fmap list_fmap snd].
  { rewrite bool_decide_eq_false_2; [done | apply not_elem_of_nil]. }
  rewrite IH. assert (∀ o : option OAM_MaintenancePoint, drop_injections pl <$> (drop_injections pl <$> o) = drop_injections pl <$> o) as Hidem.
  { intros [m|]; [|done]. cbn. unfold drop_injections. cbn. by rewrite list_filter_filter_l. }
  destruct (decide (k = k')) as [->|Hne].
  - rewrite lookup_alter_eq, Hidem. rewrite (bool_decide_eq_true_2 (k' ∈ k' :: _)) by constructor. by case_bool_decide.
  - rewrite lookup_alter_ne by done. rewrite (bool_decide_ext (k ∈ k' :: l.*2) (k ∈ l.*2)); [done|]. rewrite elem_of_cons. split; [by intros [?|?] | by right].
Qed.

Lemma pipeline_deleted_map s pl : mp_inv s → mps (oam_pipeline_deleted pl (reg s)) = drop_injections pl <$> mps (reg s).
Proof.
  intros [(t & Ht & Hn) _ _ _ _ _ _]. unfold oam_pipeline_deleted. destruct (mp_hash (reg s)) as [h|] eqn:Eh.
  - destruct Ht as [[Hwf Hf _] _]. cbn. apply map_eq. intros k. rewrite fold_drop_lookup, lookup_fmap. case_bool_decide as H; [done|].
    destruct (mps (reg s) !! k) as [m|] eqn:E; [|done]. destruct H. apply list_elem_of_fmap. exists (m_name m, k). split; [done|].
    apply items_elem; [done|]. rewrite Hf. apply Hn. eauto.
  - subst t. assert (mps (reg s) = ∅) as ->; [|by rewrite fmap_empty]. apply map_eq. intros k. rewrite lookup_empty.
    destruct (mps (reg s) !! k) as [m|] eqn:E; [|done]. assert ((∅ : gmap string nat) !! m_name m = Some k) by (apply Hn; eauto). done.
Qed.

Lemma deleted_preserves w s pl : mp_inv s → ∃ s', exec w (MpPipelineDeleted pl) s = Some s' ∧ mp_inv s'.
Proof.
  intros Hi. eexists. split; [reflexivity|]. pose proof (pipeline_deleted_map s pl Hi) as Hm.
  assert (∃ r', oam_pipeline_deleted pl (reg s) = r' ∧ mp_hash r' = mp_hash (reg s) ∧ next_mp r' = next_mp (reg s) ∧ calls r' = calls (reg s)) as (r' & Er & E1 & E2 & E3).
  { eexists. split; [reflexivity|]. unfold oam_pipeline_deleted. by destruct (mp_hash (reg s)) eqn:E. }
  rewrite Er in Hm |- *. destruct Hi as [(t & Ht & Hn) Hp Hr Ho Hl Hnd He]. split; cbn; rewrite ?E1, ?E3, ?Hm.
  - exists t. split; [done|]. intros name k. rewrite Hn, lookup_fmap. split.
    + intros (m & -> & Hnm). by exists (drop_injections pl m).
    + intros (m & (x & -> & ->)%fmap_Some & <-). eauto.
  - intros k m. rewrite lookup_fmap. intros (x & Hx & ->)%fmap_Some. destruct (Hp k x Hx) as [A A' B C D F].
    assert (∀ pl', pl' ∈ ij_pipe <$> injections (drop_injections pl x) → pl' ∈ ij_pipe <$> injections x ∧ pl' ≠ pl) as Hd.
    { intros pl' (i & -> & [Hi Hin]%list_elem_of_filter)%list_elem_of_fmap. split; [|done]. by apply list_elem_of_fmap_2. }
    split; cbn; rewrite ?E2; [done | done | done | done | |].
    + by apply filter_fmap_NoDup.
    + intros pl' [H1 H2]%Hd. apply not_elem_of_union. split; [by apply not_elem_of_singleton | by apply F].
  - intros k Hk. rewrite lookup_fmap. destruct (Hr k Hk) as [m ->]. eauto.
  - intros o. rewrite Ho. unfold users. rewrite map_filter_fmap, map_size_fmap. done.
  - intros name Hz. destruct (Hl name Hz) as (k & m & Hk & Hn' & Hr'). exists k, (drop_injections pl m). rewrite lookup_fmap, Hk. done.
  - done.
  - intros Hne E. apply fmap_empty_inv in E. by apply He.
Qed.

(** C34: the life of maintenance points.  References are given back in two steps,
    the decrement and the part under the lock, between which other operations
    run.  Suppose the two races do not occur: no reference is taken to a point
    whose last reference is being given back ([unref_find_race]), and the last
    point is not removed while another such call waits for the lock
    ([unref_table_race]); and no count reaches 2^31.  Then, whatever the actions,
    requests and pipelines do with the points they hold, no freed point and no
    missing table is accessed, and a point exists exactly while it is referenced or
    its last reference is being given back: its count is the number of references,
    the table finds it under its name, and it is bound to no deleted pipeline and
    to no pipeline twice.  Every object is referenced as often as points are bound
    to it. *)
Theorem mp_lifecycle w os :
  run_allowed w os no_points →
  ∃ s, run w os no_points = Some s ∧
  (∀ k, k ∈ refs s → is_Some (mps (reg s) !! k)) ∧
  (∀ name, (name, 0) ∈ pending s → ∃ k m, mps (reg s) !! k = Some m ∧ m_name m = name) ∧
  (∀ k m, mps (reg s) !! k = Some m →
     (k ∈ refs s ∨ (m_name m, 0) ∈ pending s) ∧
     reference_count m = Z.of_nat (multiplicity k (refs s)) ∧ (mp_hash (reg s) ≫= λ h, hashmap_find h (m_name m)) = Some k ∧
     NoDup (ij_pipe <$> injections m) ∧ ∀ i, i ∈ injections m → ij_pipe i ∉ gone s) ∧
  ∀ o, balance o (calls (reg s)) = users o (mps (reg s)).
Proof.
  intros Ha. assert (mp_inv no_points) as Hi.
  { split; cbn; [exists ∅; split; [done | intros name k; split; [done | by intros (m & ? & _)]] | done | by intros k ?%gmultiset_elem_of_empty | done
      | by intros name ?%elem_of_nil | constructor | done]. }
  revert Ha Hi. generalize no_points. induction os as [|o os IH]; intros s Ha Hi; cbn [run].
  - exists s. split; [done|]. split_and!; [apply (mi_refs s Hi) | intros name (k & m & ? & ? & _)%(mi_last s Hi); eauto | intros k m Hk | apply (mi_objects s Hi)].
    destruct (mi_points s Hi k m Hk) as [A A' B C D F]. split_and!; [done | done | | done | intros i Hin; apply F, list_elem_of_fmap_2, Hin].
    destruct (mi_table s Hi) as (t & Ht & Hn). assert (t !! m_name m = Some k) as E by (apply Hn; eauto).
    destruct (mp_hash (reg s)) as [h|]; [|by subst t]. destruct Ht as [Ht _]. cbn. by rewrite (rp_find _ _ Ht).
  - destruct Ha as [Ho Ha]. assert (∃ s', exec w o s = Some s' ∧ mp_inv s') as (s' & E & Hi').
    { destruct o as [rq|name|k|i|pl|k len|k|k|k];
        [by apply new_preserves | by apply find_preserves | by apply decrement_preserves | by apply locked_preserves | by apply deleted_preserves|..];
        (destruct (mi_refs s Hi k Ho) as [m Hm]; cbn [exec]; unfold oam_mp_count_data_packet, mp_count_received_message, mp_inject_packet; rewrite Hm; cbn [mbind option_bind]).
      all: try (eexists; split; [reflexivity|]; apply (inv_same s k m _ Hi Hm); (apply mask_same || by split)).
      destruct (injections m); eexists; (split; [reflexivity|]); [by destruct s | apply (inv_same s k m _ Hi Hm); by split]. }
    rewrite E. by apply IH; [apply Ha|].
Qed.

(** The table implements what the assembly of pipelines needs of it. *)
#[export] Instance registry_points (w : World) : MaintenancePoints Registry := {|
  oam_new_maintenance_point := λ rq r, x ← new_maintenance_point w rq r; k ← x.1; Some (k, x.2)
|}.

(** ** Names of automatic MIPs *)

Lemma prefix_of_app p s : prefix_of p (p +:+ s) = true.
Proof. induction p as [|a p IH]; [by destruct s|]. change (String a p +:+ s) with (String a (p +:+ s)). cbn [prefix_of]. by rewrite Ascii.eqb_refl. Qed.

Lemma strstr_app a p b : strstr (a +:+ p +:+ b) p = true.
Proof.
  induction a as [|c a IH].
  - change ("" +:+ p +:+ b) with (p +:+ b). pose proof (prefix_of_app p b) as H. destruct (p +:+ b); cbn [strstr]; by rewrite H.
  - change (String c a +:+ p +:+ b) with (String c (a +:+ p +:+ b)). cbn [strstr]. by rewrite IH, orb_true_r.
Qed.

Lemma app_assoc_str (a b c : string) : (a +:+ b) +:+ c = a +:+ b +:+ c.
Proof. induction a as [|x a IH]; [done|]. exact (f_equal (String x) IH). Qed.

(** An automatic MIP is recognised in its position. *)
Lemma automip_name_recognised strm level obj post :
  oam_is_automip_name (oam_automip_name strm level obj post) (if post then 1 else -1) = true.
Proof.
  unfold oam_is_automip_name, oam_automip_name. rewrite prefix_of_app.
  pose proof (λ q, strstr_app ("o_" +:+ strm +:+ "_L" +:+ pretty (u32 level)) q obj) as H.
  destruct post; cbn [Z.gtb Z.compare Z.ltb]; [specialize (H "_post-") | specialize (H "_pre-")]; rewrite !app_assoc_str in H; exact H.
Qed.

(** The position is not unique: a stream or object name can hold the mark of the other one. *)
Lemma automip_name_ambiguous :
  oam_is_automip_name (oam_automip_name "a_post-b" 3 "rec" false) 1 = true ∧
  ∀ name, oam_is_automip_name name 0 = false.
Proof. split; [vm_compute; reflexivity|]. intros name. unfold oam_is_automip_name. by destruct (prefix_of _ _). Qed.

(** ** Giving back a reference while another thread looks for the point *)

(** The count is decremented before the lock is taken.  A thread that finds the
    point in between gets a reference to a point that is then freed. *)
Lemma unref_find_race k m r h :
  mps r !! k = Some m → reference_count m = 1 → mp_hash r = Some h → hashmap_find h (m_name m) = Some k →
  ∃ r1 r2, unref_count k r = Some (m_name m, 0, r1) ∧ find_maintenance_point (m_name m) r1 = Some (Some k, r2) ∧
    ∃ r3, unref_locked (m_name m) 0 r2 = Some r3 ∧ mps r3 !! k = None.
Proof.
  intros Hk Hc Hh Hf. unfold unref_count. rewrite Hk. cbn [mbind option_bind]. rewrite Hc.
  match goal with |- context [<[k := ?x]>] => set (m2 := x) end.
  assert (m_name m2 = m_name m) as Hm2 by (unfold m2; cbn; by destruct (mask_queue m)). rewrite Hm2. exists (r <| mps := <[k := m2]> (mps r) |>).
  eexists. split; [reflexivity|]. unfold find_maintenance_point. cbn. rewrite Hh, Hf, lookup_insert_eq. cbn. split; [reflexivity|].
  unfold unref_locked. cbn. rewrite ?Hh. cbn. unfold hashmap_remove. unfold hashmap_find in Hf. pose proof (chain_remove_spec (m_name m) (chain h (m_name m))) as Hr.
  destruct (chain_remove (m_name m) (chain h (m_name m))) as [[old l]|].
  - destruct Hr as (v & l1 & l2 & -> & El & -> & Hn1). rewrite El, chain_find_app, (proj2 (chain_find_None _ _) Hn1) in Hf. cbn in Hf.
    rewrite bool_decide_eq_true_2 in Hf by done. injection Hf as ->. cbn. unfold mp_delete_cb. cbn. rewrite lookup_insert_eq. cbn.
    eexists. split; [reflexivity|]. destruct (u32 (elemcount h - 1) =? 0); cbn; apply lookup_delete_eq.
  - apply chain_find_None in Hr. congruence.
Qed.

(** ** Witness *)

Definition quiet : World := mk_world (λ _, 0) true (λ _, false).

(** A MIP bound to a recovery function: the receiver, then the injector. *)
Definition mip_request (pipe : option (nat * bool)) : MpRequest :=
  mk_rq "stream" "o_stream_L3_pre-rec" OAM_Intermediate 3 oam_protostack_mplspw
    (Some (mk_objref 7 PIPEOBJ_SEQREC "rec" 3)) pipe 2 [].

Definition mip_life : list MpOp :=
  [MpNew (mip_request None); MpNew (mip_request (Some (4%nat, false))); MpReceived 0; MpFind "o_stream_L3_pre-rec";
   MpDecrement 0; MpDecrement 0; MpLocked 1; MpPipelineDeleted 4; MpLocked 0].

(** Two references to the only point are given back at the same time.  The call
    that sees the count 1 waits for the lock while the other one removes the point
    and with it the table: it then counts the items of a table that is gone. *)
Theorem unref_table_race :
  ∃ s, run quiet [MpNew (mip_request None); MpNew (mip_request (Some (4%nat, false))); MpDecrement 0; MpDecrement 0; MpLocked 1] no_points = Some s ∧
    pending s = [("o_stream_L3_pre-rec", 1)] ∧ mp_hash (reg s) = None ∧ exec quiet (MpLocked 0) s = None.
Proof. eexists. split; [vm_compute; reflexivity|]. split_and!; reflexivity. Qed.

Lemma mp_lifecycle_witness :
  run_allowed quiet mip_life no_points ∧
  ∃ s m, run quiet mip_life no_points = Some s ∧ mps (reg s) !! 0%nat = Some m ∧
    reference_count m = Z.of_nat (multiplicity 0%nat (refs s)) ∧ balance 7 (calls (reg s)) = users 7 (mps (reg s)).
Proof.
  assert (run_allowed quiet mip_life no_points) as H.
  { cbn [mip_life run_allowed]. repeat (split; [try exact I|intros s' Hs'; vm_compute in Hs'; injection Hs' as <-]).
    all: cbn [op_allowed]; first
      [ exact I
      | unfold may_take; apply (bool_decide_unpack _); vm_compute; exact I
      | do 2 eexists; split; [reflexivity | intros Hn; discriminate Hn]
      | split; [exact (Forall_nil_2 _)|]; split;
        [intros pl b Hpl; first [discriminate | injection Hpl as <- <-; apply (bool_decide_unpack _); vm_compute; exact I]
        | split; [first [exact I | apply Z.ltb_lt; vm_compute; reflexivity] | unfold may_take; apply (bool_decide_unpack _); vm_compute; exact I]] ]. }
  split; [exact H|]. destruct (mp_lifecycle quiet mip_life H) as (s & E & _ & _ & Hp & Hb). exists s.
  assert (∃ m, mps (reg s) !! 0%nat = Some m) as [m Hm] by (vm_compute in E; injection E as <-; eexists; vm_compute; reflexivity).
  exists m. split; [exact E|]. split; [exact Hm|]. split; [apply (Hp 0%nat m Hm) | apply Hb].
Defined.

End Mp.
