(* ===== verification/OamCodec.v ===== *)
(** * OAM messages in packets (oam_maintenance.c, oam.h, oam_request.c)

    A message is a JSON object.  In a packet its addressing goes into the
    headers of the encapsulation, MPLS pseudo-wire, TSN or SRv6, and the rest
    into the payload.  [None] is an access outside of a buffer; NULL and [false]
    are results. *)

From S2P Require Import Prelude TimeUtils Protocol Packet HeaderField Checksum Action Octets CString HashMap Double Json ConfActions OamMp.
From Stdlib Require Import Ascii QArith.

Module Codec.
Import Time Proto CStr HMap Dbl Json Mp Csum Act Pkt Octets.

#[local] Open Scope string_scope.
#[local] Open Scope list_scope.
#[local] Open Scope Z_scope.

(** ** Requests *)

(** [mp_start] is the handle of the maintenance point; the thread of a periodic
    request is present or not. *)
Record OamRequest := mk_request {
  rq_kind : string;
  return_addr : HashMap (V := JsonValue);
  r_ttl : Z;
  r_session_id : Z;
  r_seq : Z;
  r_level : Z;
  r_node_id : Z;
  mp_start : option nat;
  mep_stop : string;
  record_route : bool;
  object_state : bool;
  measure_delay : bool;
  r_count : Z;
  r_background : bool;
  r_interval_ms : Z;
  multireq_thread : bool;
  remote_command : option string;
  originator_stream : option string;
  originator_session_id : Z;
  r_error : option string
}.

#[global] Instance eta_request : Eta OamRequest := λ r,
  mk_request (rq_kind r) (return_addr r) (r_ttl r) (r_session_id r) (r_seq r) (r_level r) (r_node_id r) (mp_start r) (mep_stop r)
    (record_route r) (object_state r) (measure_delay r) (r_count r) (r_background r) (r_interval_ms r) (multireq_thread r)
    (remote_command r) (originator_stream r) (originator_session_id r) (r_error r).

(** What [request_get_identification_data] reports. *)
Record Identification := mk_id { i_nodeid : Z; i_level : Z; i_session : Z; i_seq : Z; i_ttl : Z }.

Definition request_get_identification_data (r : OamRequest) : Identification :=
  mk_id (r_node_id r) (r_level r)
    (Z.land (if originator_stream r is Some _ then originator_session_id r else r_session_id r) 255) (r_seq r) (r_ttl r).

(** ** Octets and texts *)

Fixpoint text_octets (s : string) : mem :=
  match s with EmptyString => [] | String c s => code c :: text_octets s end.
Fixpoint octets_text (l : mem) : string :=
  match l with [] => EmptyString | x :: l => String (chr x) (octets_text l) end.

Definition proto_len (id : ProtocolID) : Z := bytelength (protocol_from_id id).

(** An integer as a number of a message. *)
Definition int_number (z : Z) : JsonValue := json_number (round_double (z <? 0) (inject_Z (Z.abs z))).


Definition insert_numbers (l : list (string * Z)) (js : JsonTable) : JsonTable :=
  foldl (λ js x, json_object_insert js x.1 (int_number x.2)) js l.

(** A payload that is an object. *)
Definition parse_object (l : mem) : option (option JsonTable) :=
  match json_parse (octets_text l) with
  | POk (JObject js) => Some (Some js)
  | POk _ | PErr => Some None
  | PStuck => None
  end.

(** The object with which the three encapsulations start a request. *)
Definition request_object (req : OamRequest) (now : timespec) : JsonTable :=
  let js := json_object_insert empty_object "type" (json_string (Some (rq_kind req))) in
  let js := json_object_insert js "code" (json_string (Some "request")) in
  insert_numbers [("send_s", tv_sec now); ("send_ns", tv_nsec now)] js.

Definition ach_keys : list string := ["version"; "seq"; "channel"; "nodeid"; "level"; "flags"; "session"].

(** The message without the items that go into the headers. *)
Definition without_ach (msg : JsonTable) : JsonTable :=
  match json_duplicate (JObject msg) with
  | JObject out => foldl (λ js k, (json_object_remove js k).2) out ach_keys
  | _ => msg
  end.

(** The lengths of the last header and of the area that holds the packet are
    changed to the new length of the packet. *)
Definition update_length (p : Packet) (new_len : Z) : option Packet :=
  h0 ← hdr p 0;
  let i := Z.to_nat (header_count p - 1) in
  h ← headers p !! i;
  let on_scratch := h_start h0 <? start p in
  let h := mk_header (h_type h) (h_start h) (u32 (h_len h + (new_len - (if on_scratch then scratch_len p else len p)))) in
  let p := p <| headers := <[i := h]> (headers p) |> in
  Some (if on_scratch then p <| scratch_len := new_len |> else p <| len := new_len |>).

Definition write_hdr (p : Packet) (i : Z) (l : mem) : option Packet :=
  h ← hdr p i; b ← store_octets (buf p) (h_start h) l; Some (p <| buf := b |>).

(** What the three encapsulations note in the packet. *)
Definition stamp (p : Packet) (ttl : Z) (now : timespec) : Packet :=
  p <| Pkt.ttl := ttl |> <| recv_time := now |> <| timestamp := timespec_to_tsntstamp now |>.

(** ** Pseudo-wire *)

Definition OAM_CHANNEL : Z := 32767.

Record Dach := mk_dach { d_version : Z; d_seq : Z; d_channel : Z; d_nodeid : Z; d_level : Z; d_flags : Z; d_session : Z }.

Definition INTERPRET_DACH (l : mem) : option Dach :=
  match l with
  | [x0; x1; x2; x3; x4; x5; x6; x7] =>
      Some (mk_dach (Z.land x0 15) x1 (Z.shiftl x2 8 + x3) (Z.shiftl x4 12 + Z.shiftl x5 4 + Z.shiftr x6 4)
              (Z.land (Z.shiftr x6 1) 7) (Z.shiftl (Z.land x6 1) 4 + Z.shiftr x7 4) (Z.land x7 15))
  | _ => None
  end.

Definition dach_fields (d : Dach) : list (string * Z) :=
  [("version", d_version d); ("seq", d_seq d); ("channel", d_channel d); ("nodeid", d_nodeid d);
   ("level", d_level d); ("flags", d_flags d); ("session", d_session d)].

Definition pw_header_len : Z := proto_len PROTO_ID_MPLS + proto_len PROTO_ID_OAM.

Definition unpack_pw_message (p : Packet) : option (option JsonTable) :=
  if header_count p <? 2 then Some None
  else
    linear ← packet_is_linear p;
    if negb linear then Some None
    else
      let plen := packet_length p in
      if plen <? pw_header_len then Some None
      else
        h0 ← hdr p 0;
        let dach_start := h_start h0 + proto_len PROTO_ID_MPLS in
        dach ← load_octets 8 (buf p) dach_start ≫= INTERPRET_DACH;
        json_str ← load_octets (Z.to_nat (plen - pw_header_len)) (buf p) (dach_start + proto_len PROTO_ID_OAM);
        js ← parse_object json_str;
        Some (option_map (insert_numbers (dach_fields dach)) js).

Definition pw_oam_octets (i : Identification) : mem :=
  [16; i_seq i; Z.land (Z.shiftr OAM_CHANNEL 8) 255; Z.land OAM_CHANNEL 255;
   Z.land (Z.shiftr (i_nodeid i) 12) 255; Z.land (Z.shiftr (i_nodeid i) 4) 255;
   Z.shiftl (Z.land (i_nodeid i) 15) 4 + Z.shiftl (Z.land (i_level i) 7) 1; Z.land (i_session i) 15].

(** The label with the bottom-of-stack bit, and the TTL in its last octet. *)
Definition pw_label_octets (a : MP_MPLS_Address) (ttl : Z) : option mem :=
  match label a with [l0; l1; l2; _] => Some [l0; l1; Z.lor l2 1; ttl] | _ => None end.

Definition pack_pw_message_header (m : OAM_MaintenancePoint) (p : Packet) (req : OamRequest) (now : timespec)
    : option (JsonTable * Packet) :=
  let i := request_get_identification_data req in
  let p := packet_enlarge_scratch (packet_clear_headers p) in
  let p := (packet_add_header p 0 PROTO_ID_MPLS (proto_len PROTO_ID_MPLS)).2 in
  let p := (packet_add_header p 1 PROTO_ID_OAM (proto_len PROTO_ID_OAM)).2 in
  let p := (packet_add_header p 2 PROTO_ID_PAYLOAD 0).2 in
  mpls ← pw_label_octets (pw_address m) (i_ttl i);
  p ← write_hdr p 0 mpls;
  p ← write_hdr p 1 (pw_oam_octets i);
  let p := p <| sequence := octets_word (take 4 (pw_oam_octets i)) |> in
  Some (request_object req now, stamp p (i_ttl i) now).

(** The text of the message behind the headers. *)
Definition pack_pw_payload (p : Packet) (msg : JsonTable) : option (bool * Packet) :=
  linear ← packet_is_linear p;
  if negb linear then Some (false, p)
  else
    match json_serialize (JObject (without_ach msg)) with
    | None => Some (false, p)
    | Some js_string =>
        h0 ← hdr p 0;
        b ← store_octets (buf p) (h_start h0 + pw_header_len) (text_octets js_string);
        p ← update_length (p <| buf := b |>) (pw_header_len + Z.of_nat (String.length js_string));
        Some (true, p)
    end.

(** The level of the message relative to the point, [-1] on errors. *)
Definition compare_pw_level (m : OAM_MaintenancePoint) (p : Packet) : option Z :=
  if header_count p <? 2 then Some (-1)
  else
    linear ← packet_is_linear p;
    if negb linear then Some (-1)
    else if packet_length p <? pw_header_len then Some (-1)
    else
      h0 ← hdr p 0;
      dach ← load_octets 8 (buf p) (h_start h0 + proto_len PROTO_ID_MPLS) ≫= INTERPRET_DACH;
      Some (d_level dach - i32 (m_level m)).

Definition get_pw_ttl (p : Packet) : option Z :=
  if header_count p <? 2 then Some 255 else hdr_octet p 0 3.

(** ** TSN *)

Definition OAM_CFM_REQUEST_OPCODE : Z := 128.
Definition OAM_CFM_RESPONSE_OPCODE : Z := 129.

Definition tsn_header_len : Z := proto_len PROTO_ID_ETH + proto_len PROTO_ID_CVLAN.

(** The R-TAG is recognised by the ethertype behind the VLAN tag. *)
Definition has_rtag (p : Packet) (vlan : Z) : option bool :=
  x ← load (buf p) (vlan + 2); y ← load (buf p) (vlan + 3);
  Some (bool_decide (x = 241 ∧ y = 193)).

Definition tsn_nodeid (l : mem) : Z := foldl (λ acc x, Z.shiftl acc 8 + x) 0 l.

Definition unpack_tsn_message (p : Packet) : option (option JsonTable) :=
  if header_count p <? 2 then Some None
  else
    linear ← packet_is_linear p;
    if negb linear then Some None
    else
      let plen := packet_length p in
      h0 ← hdr p 0;
      let eth := h_start h0 in
      let vlan := eth + proto_len PROTO_ID_ETH in
      let header_len := tsn_header_len + proto_len PROTO_ID_CFM + 3 in
      if plen <? header_len then Some None
      else
        tagged ← has_rtag p vlan;
        let rtag := vlan + proto_len PROTO_ID_CVLAN in
        let cfm := if (tagged : bool) then rtag + proto_len PROTO_ID_RTAG else rtag in
        let header_len := if (tagged : bool) then header_len + proto_len PROTO_ID_RTAG else header_len in
        if plen <? header_len + 1 then Some None
        else
          json_str ← load_octets (Z.to_nat (plen - header_len - 1)) (buf p) (cfm + proto_len PROTO_ID_CFM + 3);
          js ← parse_object json_str;
          match js with
          | None => Some None
          | Some js =>
              x ← load (buf p) cfm;
              node ← load_octets 4 (buf p) (eth + 6 + 2);
              let js := insert_numbers [("level", Z.shiftr x 5); ("nodeid", tsn_nodeid node)] js in
              if tagged then
                seq ← load (buf p) (rtag + 1);
                session ← load (buf p) (rtag + 3);
                Some (Some (insert_numbers [("seq", seq); ("session", Z.land session 15)] js))
              else Some (Some js)
          end.

Definition tsn_eth_octets (a : MP_TSN_Address) (nodeid : Z) (svlan : bool) : mem :=
  dmac a ++ [0; 0; Z.land (Z.shiftr nodeid 24) 255; Z.land (Z.shiftr nodeid 16) 255; Z.land (Z.shiftr nodeid 8) 255; Z.land nodeid 255]
  ++ (if svlan then [136; 168] else [129; 0]).

(** Behind a VLAN tag, R-TAG and CFM or CFM alone, with an empty TLV. *)
Definition tsn_rtag_octets (i : Identification) : mem := [16; i_seq i; 0; Z.land (i_session i) 15; 137; 2].
Definition tsn_cfm_octets (i : Identification) : mem := [Z.land (Z.shiftl (i_level i) 5) 255; OAM_CFM_REQUEST_OPCODE; 0; 0; 3; 0; 0; 0].

Definition pack_tsn_message_header (m : OAM_MaintenancePoint) (p : Packet) (req : OamRequest) (now : timespec)
    : option (JsonTable * Packet) :=
  let i := request_get_identification_data req in
  tag ← m_protostack m !! 1%nat;
  next ← m_protostack m !! 2%nat;
  let p := packet_enlarge_scratch (packet_clear_headers p) in
  let p := (packet_add_header p 0 PROTO_ID_ETH (proto_len PROTO_ID_ETH)).2 in
  let p := (packet_add_header p 1 tag (proto_len tag)).2 in
  p ← write_hdr p 0 (tsn_eth_octets (tsn_address m) (i_nodeid i) (negb (bool_decide (tag = PROTO_ID_CVLAN))));
  p ← (if bool_decide (next = PROTO_ID_RTAG) then
         let p := (packet_add_header p 2 PROTO_ID_RTAG (proto_len PROTO_ID_RTAG)).2 in
         let p := (packet_add_header p 3 PROTO_ID_PAYLOAD 8).2 in
         p ← write_hdr p 1 (vlan (tsn_address m) ++ [241; 193]);
         p ← write_hdr p 2 (tsn_rtag_octets i);
         let p := p <| sequence := octets_word (take 4 (tsn_rtag_octets i)) |> in
         write_hdr p 3 (tsn_cfm_octets i)
       else
         let p := (packet_add_header p 2 PROTO_ID_PAYLOAD 4).2 in
         p ← write_hdr p 1 (vlan (tsn_address m) ++ [137; 2]);
         write_hdr p 2 (tsn_cfm_octets i));
  Some (request_object req now, stamp p (i_ttl i) now).

(** The lengths of the headers in front of the payload. *)
Fixpoint stack_len (stack : list ProtocolID) : option Z :=
  match stack with
  | [] => None
  | PROTO_ID_PAYLOAD :: _ => Some 0
  | id :: stack => n ← stack_len stack; Some (proto_len id + n)
  end.

(** The TLV gets its length and the text with the closing zero. *)
Definition pack_tsn_payload (m : OAM_MaintenancePoint) (p : Packet) (msg : JsonTable) : option (bool * Packet) :=
  linear ← packet_is_linear p;
  if negb linear then Some (false, p)
  else
    match json_serialize (JObject (without_ach msg)) with
    | None => Some (false, p)
    | Some js_string =>
        let n := Z.of_nat (String.length js_string) in
        header_len ← stack_len (m_protostack m);
        h0 ← hdr p 0;
        let tlv := h_start h0 + header_len + 4 in
        b ← store_octets (buf p) (tlv + 1)
              ([Z.land (Z.shiftr n 8) 255; Z.land n 255] ++ text_octets js_string ++ [0]);
        p ← update_length (p <| buf := b |>) (header_len + 4 + 3 + n + 1);
        Some (true, p)
    end.

Definition compare_tsn_level (m : OAM_MaintenancePoint) (p : Packet) : option Z :=
  if header_count p <? 2 then Some (-1)
  else
    linear ← packet_is_linear p;
    if negb linear then Some (-1)
    else
      let plen := packet_length p in
      if plen <? tsn_header_len then Some (-1)
      else
        h0 ← hdr p 0;
        let vlan := h_start h0 + proto_len PROTO_ID_ETH in
        tagged ← has_rtag p vlan;
        let cfm := vlan + proto_len PROTO_ID_CVLAN + (if (tagged : bool) then proto_len PROTO_ID_RTAG else 0) in
        let header_len := tsn_header_len + proto_len PROTO_ID_CFM + (if (tagged : bool) then proto_len PROTO_ID_RTAG else 0) in
        if plen <? header_len then Some (-1)
        else x ← load (buf p) cfm; Some (Z.shiftr x 5 - i32 (m_level m)).

(** ** SRv6 *)

Definition IPPROTO_IPV6 : Z := 41.
Definition IPPROTO_ICMPV6 : Z := 58.
Definition ICMP6_ECHO_REQUEST : Z := 128.

Definition unpack_srv6_message (p : Packet) : option (option JsonTable) :=
  if header_count p <? 3 then Some None
  else
    linear ← packet_is_linear p;
    if negb linear then Some None
    else
      next0 ← hdr_octet p 0 6;
      if negb (next0 =? IPPROTO_IPV6) then Some None
      else
        next1 ← hdr_octet p 1 6;
        if negb (next1 =? IPPROTO_ICMPV6) then Some None
        else
          let plen := packet_length p in
          let header_len := proto_len PROTO_ID_IPv6 + proto_len PROTO_ID_IPv6 + proto_len PROTO_ID_ICMPv6 in
          if plen <? header_len then Some None
          else
            h1 ← hdr p 1;
            let icmp6 := h_start h1 + proto_len PROTO_ID_IPv6 in
            json_str ← load_octets (Z.to_nat (plen - header_len)) (buf p) (icmp6 + proto_len PROTO_ID_ICMPv6);
            js ← parse_object json_str;
            match js with
            | None => Some None
            | Some js =>
                x5 ← load (buf p) (icmp6 + 5);
                x7 ← load (buf p) (icmp6 + 7);
                n23 ← load (buf p) (h_start h1 + 23);
                n22 ← load (buf p) (h_start h1 + 22);
                Some (Some (insert_numbers
                  [("session", Z.land x5 15); ("seq", x7); ("level", Z.land (Z.shiftr x5 4) 7); ("nodeid", Z.lor (Z.shiftl n23 8) n22)] js))
            end.

Definition source_code (s : ConfA.OAM_MP_Addr_Source) : Z :=
  match s with
  | ConfA.OAM_FROM_Unknown => 0 | ConfA.OAM_FROM_Edit => 1 | ConfA.OAM_FROM_Match => 2
  | ConfA.OAM_FROM_Later => 3 | ConfA.OAM_FROM_Default => 4
  end.

(** Sixteen octets from the start of the address union: the locator, its source
    as an integer, and the rest of the union, which is zero. *)
Definition sid_octets (a : MP_SRv6_Address) : mem := loc a ++ [source_code (loc_source a); 0; 0; 0; 0; 0; 0; 0].

(** The outer header; its length is left alone.  The OAM bit is in octet 36 and
    the number in octet 39. *)
Definition srv6_outer (a : MP_SRv6_Address) (i : Identification) : option (mem * mem) :=
  match drop 12 (sid_octets a) with
  | [s12; s13; s14; _] =>
      Some ([96; 0; 0; 0], [IPPROTO_IPV6; i_ttl i] ++ replicate 16 0 ++ take 12 (sid_octets a) ++ [Z.lor s12 1; s13; s14; i_seq i])
  | _ => None
  end.

(** The source address is that of the default OAM interface, and unspecified
    when that has no IPv6 address.  Without an interface it is what the stack
    variable [stack] held. *)
Definition srv6_source (oamif : option string) (stack : mem) : mem :=
  match oamif with
  | Some ip => default (replicate 16 0) (inet_pton6 ip)
  | None => stack
  end.

Definition srv6_inner (i : Identification) (src : mem) : mem * mem :=
  ([96; 0; 0; 0], [IPPROTO_ICMPV6; i_ttl i] ++ src ++ replicate 15 0 ++ [1]).

Definition srv6_identifier (i : Identification) : Z := Z.lor (Z.shiftl (Z.land (i_level i) 7) 4) (Z.land (i_session i) 15).

(** [write_hdr] behind the first [k] octets of the header. *)
Definition write_hdr_at (p : Packet) (i k : Z) (l : mem) : option Packet :=
  h ← hdr p i; b ← store_octets (buf p) (h_start h + k) l; Some (p <| buf := b |>).

Definition pack_srv6_message_header (oamif : option string) (stack : mem) (m : OAM_MaintenancePoint) (p : Packet)
    (req : OamRequest) (now : timespec) : option (JsonTable * Packet) :=
  let i := request_get_identification_data req in
  let p := packet_enlarge_scratch (packet_clear_headers p) in
  let p := (packet_add_header p 0 PROTO_ID_IPv6 (proto_len PROTO_ID_IPv6)).2 in
  let p := (packet_add_header p 1 PROTO_ID_IPv6 (proto_len PROTO_ID_IPv6)).2 in
  let p := (packet_add_header p 2 PROTO_ID_ICMPv6 (proto_len PROTO_ID_ICMPv6)).2 in
  let p := (packet_add_header p 3 PROTO_ID_PAYLOAD 0).2 in
  '(a0, a6) ← srv6_outer (sid_address m) i;
  p ← write_hdr_at p 0 0 a0;
  p ← write_hdr_at p 0 6 a6;
  let '(b0, b6) := srv6_inner i (srv6_source oamif stack) in
  p ← write_hdr_at p 1 0 b0;
  p ← write_hdr_at p 1 6 b6;
  p ← write_hdr_at p 2 0 [ICMP6_ECHO_REQUEST; 0];
  p ← write_hdr_at p 2 4 [0; srv6_identifier i; 0; i_seq i];
  let p := p <| sequence := htonl (i_seq i) |> in
  Some (request_object req now, stamp p (i_ttl i) now).

(** [base] is the address of the buffer, on which the checksum loop depends. *)
Definition pack_srv6_payload (base : Z) (p : Packet) (msg : JsonTable) : option (bool * Packet) :=
  linear ← packet_is_linear p;
  if negb linear then Some (false, p)
  else
    match json_serialize (JObject msg) with
    | None => Some (false, p)
    | Some js_string =>
        let header_len := proto_len PROTO_ID_ICMPv6 in
        h2 ← hdr p 2;
        b ← store_octets (buf p) (h_start h2 + header_len) (text_octets js_string);
        let p := p <| buf := b |> in
        let new_len := header_len + Z.of_nat (String.length js_string) in
        p ← write_hdr_at p 1 4 [Z.land (Z.shiftr new_len 8) 255; Z.land new_len 255];
        h0 ← hdr p 0;
        h1 ← hdr p 1;
        p ← update_length p (u32 (new_len + h_len h0 + h_len h1));
        p ← checksum_compute base p (mk_cp 2 PROTO_ID_ICMPv6 1 PROTO_ID_IPv6);
        Some (true, p)
    end.

Definition compare_srv6_level (m : OAM_MaintenancePoint) (p : Packet) : option Z :=
  if header_count p <? 2 then Some (-1)
  else
    linear ← packet_is_linear p;
    if negb linear then Some (-1)
    else x ← hdr_octet p 1 (proto_len PROTO_ID_IPv6 + 5); Some (Z.land (Z.shiftr x 4) 7 - i32 (m_level m)).

Definition get_srv6_ttl (p : Packet) : option Z :=
  if header_count p <? 2 then Some 255 else hdr_octet p 0 7.

(** ** The encapsulation of a maintenance point *)

(** What packing depends on besides the point and the packet. *)
Record Sender := mk_sender { s_oamif : option string; s_stack : mem; s_base : Z; s_now : timespec }.

Definition mp_unpack_message (m : OAM_MaintenancePoint) (p : Packet) : option (option JsonTable) :=
  match encap m with
  | OAM_SRv6 => unpack_srv6_message p
  | OAM_PW => unpack_pw_message p
  | OAM_TSN => unpack_tsn_message p
  end.

Definition mp_pack_message_header (e : Sender) (m : OAM_MaintenancePoint) (p : Packet) (req : OamRequest) : option (JsonTable * Packet) :=
  match encap m with
  | OAM_SRv6 => pack_srv6_message_header (s_oamif e) (s_stack e) m p req (s_now e)
  | OAM_PW => pack_pw_message_header m p req (s_now e)
  | OAM_TSN => pack_tsn_message_header m p req (s_now e)
  end.

Definition mp_pack_message_payload (e : Sender) (m : OAM_MaintenancePoint) (p : Packet) (msg : JsonTable) : option (bool * Packet) :=
  match encap m with
  | OAM_SRv6 => pack_srv6_payload (s_base e) p msg
  | OAM_PW => pack_pw_payload p msg
  | OAM_TSN => pack_tsn_payload m p msg
  end.

Definition mp_compare_level (m : OAM_MaintenancePoint) (p : Packet) : option Z :=
  match encap m with
  | OAM_SRv6 => compare_srv6_level m p
  | OAM_PW => compare_pw_level m p
  | OAM_TSN => compare_tsn_level m p
  end.

Definition mp_get_ttl (m : OAM_MaintenancePoint) (p : Packet) : option Z :=
  match encap m with
  | OAM_SRv6 => get_srv6_ttl p
  | OAM_PW => get_pw_ttl p
  | OAM_TSN => Some 255
  end.

End Codec.
