(* ===== verification/OamWire.v ===== *)
(** * OAM messages are delivered

    What the packing functions write is what the unpacking functions read, for
    each encapsulation: [carries] says which octets a packet holds, however its
    headers are identified and wherever they lie in the buffer. *)

From S2P Require Import Prelude TimeUtils Protocol Packet HeaderField Checksum Action Octets CString HashMap Double Json JsonText JsonRound JsonObject ActionSafe OamMp OamCodec.
From Stdlib Require Import Ascii QArith.

Module Wire.
Import Time Proto CStr HMap Dbl Json JText JRound JObj Mp Csum Act Pkt Octets Codec.

#[local] Open Scope string_scope.
#[local] Open Scope list_scope.
#[local] Open Scope Z_scope.

(** ** Octets *)

Lemma load_octets_slice n b a : 0 <= a → a + Z.of_nat n <= Z.of_nat (length b) → load_octets n b a = Some (slice b a (Z.of_nat n)).
Proof.
  revert a. induction n as [|n IH]; intros a Ha Hl; cbn [load_octets].
  { unfold slice. by rewrite take_0. }
  destruct (load_in_range b a) as [x Hx]; [unfold in_range; lia|]. rewrite Hx. cbn [mbind option_bind]. rewrite IH by lia. cbn [mbind option_bind].
  unfold load in Hx. destruct (Z.leb_spec 0 a); [|lia]. unfold slice. rewrite (drop_S b x (Z.to_nat a) Hx).
  replace (Z.to_nat (Z.of_nat (S n))) with (S n) by lia. cbn [take]. do 3 f_equal; [lia|]. f_equal. lia.
Qed.

Lemma slice_slice b a k n l : 0 <= a → 0 <= k → 0 <= n → k + n <= l → slice (slice b a l) k n = slice b (a + k) n.
Proof.
  intros. unfold slice. rewrite skipn_firstn_comm, take_take, drop_drop. f_equal; [lia|]. f_equal. lia.
Qed.

Lemma slice_length_le b a n : 0 <= a → 0 <= n → length (slice b a n) = Z.to_nat n → a + n <= Z.of_nat (length b) ∨ n = 0.
Proof. intros Ha Hn. unfold slice. rewrite length_take, length_drop. lia. Qed.

Lemma slice_here (l r : mem) n : n = Z.of_nat (length l) → slice (l ++ r) 0 n = l.
Proof. intros ->. unfold slice. rewrite Nat2Z.id, drop_0. apply take_app_length. Qed.

Lemma slice_skip (l r : mem) k n : 0 <= k → Z.of_nat (length l) <= k → slice (l ++ r) k n = slice r (k - Z.of_nat (length l)) n.
Proof. intros. unfold slice. rewrite drop_app_ge by lia. do 2 f_equal. lia. Qed.

Lemma chr_code c : chr (code c) = c.
Proof. unfold chr, code. by rewrite N2Z.id, ascii_N_embedding. Qed.

Lemma octets_text_octets s : octets_text (text_octets s) = s.
Proof. induction s as [|c s IH]; [done|]. cbn. by rewrite chr_code, IH. Qed.

Lemma length_text_octets s : length (text_octets s) = String.length s.
Proof. induction s as [|c s IH]; [done|]. cbn. by rewrite IH. Qed.

(** ** What a packet carries *)

(** [w] are the octets of the packet, from its first header on. *)
Record carries (q : Packet) (w : mem) : Prop := {
  ca_count : 2 <= header_count q;
  ca_linear : packet_is_linear q = Some true;
  ca_len : packet_length q = Z.of_nat (length w);
  ca_data : ∃ h0, hdr q 0 = Some h0 ∧ 0 <= h_start h0 ∧ slice (buf q) (h_start h0) (Z.of_nat (length w)) = w
}.

Lemma carries_load q w h0 k n :
  carries q w → hdr q 0 = Some h0 → 0 <= k → k + Z.of_nat n <= Z.of_nat (length w) →
  load_octets n (buf q) (h_start h0 + k) = Some (slice w k (Z.of_nat n)).
Proof.
  intros [_ _ _ (h & Hh & Hs & Hd)] H0 Hk Hn. rewrite Hh in H0. injection H0 as ->.
  destruct n as [|n]; [unfold slice; cbn; by rewrite take_0|].
  assert (length (slice (buf q) (h_start h0) (Z.of_nat (length w))) = Z.to_nat (Z.of_nat (length w))) as Hl by (rewrite Hd; lia).
  apply slice_length_le in Hl as [Hl|]; [|lia..]. rewrite load_octets_slice by lia. rewrite <- (slice_slice (buf q) (h_start h0) k (Z.of_nat (S n)) (Z.of_nat (length w))) by lia. by rewrite Hd.
Qed.

Lemma carries_octet q w h0 k :
  carries q w → hdr q 0 = Some h0 → 0 <= k < Z.of_nat (length w) → load (buf q) (h_start h0 + k) = w !! Z.to_nat k.
Proof.
  intros Hc H0 Hk. pose proof (carries_load q w h0 k 1 Hc H0 ltac:(lia) ltac:(lia)) as H. cbn [load_octets] in H.
  destruct (load (buf q) (h_start h0 + k)) as [x|]; [|done]. cbn in H. unfold slice in H. cbn in H.
  destruct (lookup_lt_is_Some_2 w (Z.to_nat k)) as [y Hy]; [lia|]. rewrite (drop_S w y _ Hy) in H. cbn in H. by injection H as ->.
Qed.

(** A packet in which a payload can be written. *)
Record ready (p : Packet) (h0 : PacketHeader) : Prop := {
  re_count : 2 <= header_count p <= 20;
  re_array : length (headers p) = 20%nat;
  re_linear : packet_is_linear p = Some true;
  re_first : hdr p 0 = Some h0;
  re_start : 0 <= h_start h0;
  re_area : packet_length p = if h_start h0 <? start p then scratch_len p else len p
}.

(** *** Lengths *)

Lemma len_sum_u32 acc hs : foldl (λ acc h, u32 (acc + h_len h)) (u32 acc) hs = u32 (acc + total_len hs).
Proof.
  revert acc. induction hs as [|h hs IH]; intros acc; cbn [foldl total_len foldr]; [by rewrite Z.add_0_r|].
  replace (u32 (u32 acc + h_len h)) with (u32 (acc + h_len h)) by (unfold u32; by rewrite Zplus_mod_idemp_l).
  rewrite IH. f_equal. unfold total_len. lia.
Qed.

Lemma packet_length_u32 p : packet_length p = u32 (total_len (active p)).
Proof. unfold packet_length. exact (len_sum_u32 0 (active p)). Qed.

Lemma total_len_app l r : total_len (l ++ r) = total_len l + total_len r.
Proof. unfold total_len. rewrite foldr_app. induction l as [|h l IH]; cbn [foldr]; [done|]. lia. Qed.

(** The test for linearity does not look at the length of the last header. *)
Lemma linear_last fuel hs (i last : nat) h h' :
  hs !! last = Some h → h_start h' = h_start h →
  linear_from fuel (<[last := h']> hs) (Z.of_nat last) i = linear_from fuel hs (Z.of_nat last) i.
Proof.
  intros Hl Hs. revert i. induction fuel as [|fuel IH]; intros i; cbn [linear_from]; [done|].
  destruct (Z.ltb_spec (Z.of_nat i) (Z.of_nat last)); [|done]. rewrite (list_lookup_insert_ne hs last i) by lia.
  destruct (decide (last = i + 1)%nat) as [->|].
  - rewrite list_lookup_insert_eq by (by eapply lookup_lt_Some). rewrite Hl. cbn [mbind option_bind]. rewrite Hs.
    destruct (hs !! i) as [h0|]; [|done]. cbn [mbind option_bind]. destruct (_ =? _); [apply IH | done].
  - rewrite list_lookup_insert_ne by lia. destruct (hs !! (i + 1)%nat) as [h1|]; [|done]. destruct (hs !! i) as [h0|]; [|done].
    cbn [mbind option_bind]. destruct (_ =? _); [apply IH | done].
Qed.

Lemma update_length_spec p h0 new_len :
  ready p h0 → 0 <= new_len < 2 ^ 32 →
  ∃ p', update_length p new_len = Some p' ∧ buf p' = buf p ∧ header_count p' = header_count p ∧ packet_is_linear p' = Some true ∧
    packet_length p' = new_len ∧ (∃ h0', hdr p' 0 = Some h0' ∧ h_start h0' = h_start h0) ∧ start p' = start p ∧
    length (headers p') = 20%nat ∧ (if h_start h0 <? start p then scratch_len p' else len p') = new_len ∧
    (∀ i, i < header_count p - 1 → hdr p' i = hdr p i) ∧
    ∀ h, headers p !! Z.to_nat (header_count p - 1) = Some h →
      headers p' = <[Z.to_nat (header_count p - 1) :=
        mk_header (h_type h) (h_start h) (u32 (h_len h + (new_len - (if h_start h0 <? start p then scratch_len p else len p))))]> (headers p).
Proof.
  intros [Hc Ha Hl Hf Hs Har] Hn. unfold update_length. rewrite Hf. cbn [mbind option_bind].
  set (i := Z.to_nat (header_count p - 1)). destruct (lookup_lt_is_Some_2 (headers p) i) as [h Hi]; [lia|]. rewrite Hi. cbn [mbind option_bind].
  set (A := if h_start h0 <? start p then scratch_len p else len p). set (h' := mk_header _ _ _).
  assert (∀ q, headers q = <[i := h']> (headers p) → header_count q = header_count p →
    packet_is_linear q = Some true ∧ packet_length q = new_len ∧ (∃ h0', hdr q 0 = Some h0' ∧ h_start h0' = h_start h0) ∧
    length (headers q) = 20%nat ∧ ∀ j, j < header_count p - 1 → hdr q j = hdr p j) as Hq.
  { intros q Eh Ec. split_and!.
    - unfold packet_is_linear in *. rewrite Eh, Ec. rewrite u32_small in Hl |- * by (unfold is_u32; lia).
      replace (header_count p - 1) with (Z.of_nat i) in Hl |- * by lia. by rewrite (linear_last _ _ _ _ h).
    - rewrite packet_length_u32. unfold active. rewrite Ec, Eh. replace (Z.to_nat (header_count p)) with (S i) by lia.
      rewrite take_insert_snoc by lia. rewrite total_len_app. cbn [total_len foldr].
      rewrite packet_length_u32 in Har. unfold active in Har. replace (Z.to_nat (header_count p)) with (S i) in Har by lia.
      rewrite (take_S_r _ _ h) in Har by done. rewrite total_len_app in Har. cbn [total_len foldr] in Har.
      unfold h'. cbn [h_len]. fold A in Har. rewrite !Z.add_0_r in *. set (T := total_len (take i (headers p))) in *. rewrite <- Har.
      unfold u32. rewrite Zplus_mod_idemp_r. replace (T + (h_len h + (new_len - (T + h_len h) mod 4294967296))) with (T + h_len h + new_len - (T + h_len h) mod 4294967296) by lia.
      rewrite Zminus_mod_idemp_r. replace (T + h_len h + new_len - (T + h_len h)) with new_len by lia. apply Z.mod_small. lia.
    - unfold hdr in *. cbn in *. rewrite Eh. destruct (decide (i = 0)%nat) as [E0|]; [lia|]. rewrite list_lookup_insert_ne by done. eauto.
    - rewrite Eh. by rewrite length_insert.
    - intros j Hj. unfold hdr. rewrite Eh. destruct (Z.leb_spec 0 j); [|done]. by rewrite list_lookup_insert_ne by lia. }
  destruct (h_start h0 <? start p) eqn:E; eexists; (split; [reflexivity|]); cbn;
    (match goal with |- context [packet_is_linear ?q] => destruct (Hq q eq_refl eq_refl) as (Q1 & Q2 & Q3 & Q4 & Q5) end); split_and!; try done.
  all: by intros hx [= <-].
Qed.

Lemma slice_put_before b a n c l : 0 <= a → 0 <= n → a + n <= c → c <= Z.of_nat (length b) → slice (put b c l) a n = slice b a n.
Proof.
  intros. unfold slice, put. rewrite !take_drop_commute. f_equal. rewrite take_app_le by (rewrite length_take; lia).
  rewrite take_take. f_equal. lia.
Qed.

Lemma slice_write b a k l :
  0 <= a → 0 <= k → a + k + Z.of_nat (length l) <= Z.of_nat (length b) →
  slice (put b (a + k) l) a (k + Z.of_nat (length l)) = slice b a k ++ l.
Proof. intros. rewrite slice_app by lia. rewrite slice_put_before by lia. by rewrite slice_put_eq by lia. Qed.

(** A payload written behind the first [k] octets. *)
Lemma payload_written p h0 k l :
  ready p h0 → 0 <= k → h_start h0 + k + Z.of_nat (length l) <= Z.of_nat (length (buf p)) → k + Z.of_nat (length l) < 2 ^ 32 →
  ∃ b p', store_octets (buf p) (h_start h0 + k) l = Some b ∧ update_length (p <| buf := b |>) (k + Z.of_nat (length l)) = Some p' ∧
    carries p' (slice (buf p) (h_start h0) k ++ l) ∧ length (buf p') = length (buf p) ∧ header_count p' = header_count p.
Proof.
  intros Hr Hk Hl Hb. pose proof (re_start _ _ Hr) as Hs. rewrite store_octets_put by lia. eexists.
  destruct (update_length_spec (p <| buf := put (buf p) (h_start h0 + k) l |>) h0 (k + Z.of_nat (length l)))
    as (p' & E & Eb & Ec & El & En & (h0' & Eh & Es) & _); [by destruct Hr | lia|].
  exists p'. split; [reflexivity|]. split; [exact E|]. rewrite Eb. split_and!; [| apply put_length; lia | exact Ec].
  assert (length (slice (buf p) (h_start h0) k) = Z.to_nat k) as Hsl by (apply length_slice; lia).
  split; [rewrite Ec; apply Hr | exact El | rewrite En, length_app, Hsl; lia|].
  exists h0'. split; [exact Eh|]. rewrite Es, Eb. split; [done|]. rewrite length_app, Hsl.
  replace (Z.of_nat (Z.to_nat k + length l)) with (k + Z.of_nat (length l)) by lia. by apply slice_write.
Qed.

Lemma pw_payload_spec p h0 msg t :
  ready p h0 → json_serialize (JObject (without_ach msg)) = Some t →
  h_start h0 + 12 + Z.of_nat (String.length t) <= Z.of_nat (length (buf p)) → 12 + Z.of_nat (String.length t) < 2 ^ 32 →
  ∃ p', pack_pw_payload p msg = Some (true, p') ∧ carries p' (slice (buf p) (h_start h0) 12 ++ text_octets t) ∧ header_count p' = header_count p.
Proof.
  intros Hr Ht Hb Hn. rewrite <- length_text_octets in Hb, Hn. destruct (payload_written p h0 12 (text_octets t) Hr ltac:(lia) Hb Hn) as (b & p' & E1 & E2 & Hc & _ & Hh).
  exists p'. split; [|done]. unfold pack_pw_payload. rewrite (re_linear _ _ Hr), Ht, (re_first _ _ Hr). cbn [mbind option_bind negb].
  change pw_header_len with 12. rewrite E1. cbn [mbind option_bind]. rewrite <- length_text_octets, E2. done.
Qed.

Definition tlv_octets (t : string) : mem :=
  let n := Z.of_nat (String.length t) in [Z.land (Z.shiftr n 8) 255; Z.land n 255] ++ text_octets t ++ [0].

Lemma length_tlv t : length (tlv_octets t) = (String.length t + 3)%nat.
Proof. unfold tlv_octets. cbn [app length]. rewrite length_app, length_text_octets. cbn [length]. lia. Qed.

Lemma tsn_payload_spec m p h0 msg t hl :
  ready p h0 → json_serialize (JObject (without_ach msg)) = Some t → stack_len (m_protostack m) = Some hl → 0 <= hl →
  h_start h0 + hl + 8 + Z.of_nat (String.length t) <= Z.of_nat (length (buf p)) → hl + 8 + Z.of_nat (String.length t) < 2 ^ 32 →
  ∃ p', pack_tsn_payload m p msg = Some (true, p') ∧ carries p' (slice (buf p) (h_start h0) (hl + 5) ++ tlv_octets t) ∧ header_count p' = header_count p.
Proof.
  intros Hr Ht Hst Hl Hb Hn. destruct (payload_written p h0 (hl + 5) (tlv_octets t) Hr) as (b & p' & E1 & E2 & Hc & _ & Hh); [lia | rewrite length_tlv; lia | rewrite length_tlv; lia|].
  exists p'. split; [|done]. unfold pack_tsn_payload. rewrite (re_linear _ _ Hr), Ht, Hst, (re_first _ _ Hr). cbn [mbind option_bind negb].
  change (_ ++ text_octets t ++ [0]) with (tlv_octets t). replace (h_start h0 + hl + 4 + 1) with (h_start h0 + (hl + 5)) by lia.
  rewrite E1. cbn [mbind option_bind]. rewrite length_tlv in E2.
  replace (hl + 4 + 3 + Z.of_nat (String.length t) + 1) with (hl + 5 + Z.of_nat (String.length t + 3)) by lia. rewrite E2. done.
Qed.

(** ** Reading *)

Lemma parse_object_text t js : json_parse t = POk (JObject js) → parse_object (text_octets t) = Some (Some js).
Proof. intros E. unfold parse_object. by rewrite octets_text_octets, E. Qed.

Lemma pw_unpack_spec q H t d js :
  carries q (H ++ text_octets t) → length H = 12%nat → INTERPRET_DACH (drop 4 H) = Some d → json_parse t = POk (JObject js) →
  unpack_pw_message q = Some (Some (insert_numbers (dach_fields d) js)).
Proof.
  intros Hc HH Hd Hp. pose proof Hc as [Hn Hl Hlen (h0 & H0 & _ & _)]. unfold unpack_pw_message.
  assert (Z.of_nat (length (H ++ text_octets t)) = 12 + Z.of_nat (String.length t)) as HL by (rewrite length_app, length_text_octets; lia).
  destruct (Z.ltb_spec (header_count q) 2); [lia|]. rewrite Hl, Hlen, HL. cbn [mbind option_bind negb]. change pw_header_len with 12.
  destruct (Z.ltb_spec (12 + Z.of_nat (String.length t)) 12); [lia|]. rewrite H0. cbn [mbind option_bind].
  change (proto_len PROTO_ID_MPLS) with 4. change (proto_len PROTO_ID_OAM) with 8.
  rewrite (carries_load q _ h0 4 8 Hc H0) by lia. replace (slice (H ++ text_octets t) 4 (Z.of_nat 8)) with (drop 4 H).
  2: { unfold slice. change (Z.to_nat 4) with 4%nat. change (Z.to_nat (Z.of_nat 8)) with 8%nat. rewrite drop_app_le by lia.
       rewrite take_app_le by (rewrite length_drop; lia). by rewrite take_ge by (rewrite length_drop; lia). }
  cbn [mbind option_bind]. rewrite Hd. cbn [mbind option_bind]. replace (h_start h0 + 4 + 8) with (h_start h0 + 12) by lia.
  rewrite (carries_load q _ h0 12 _ Hc H0) by lia. cbn [mbind option_bind]. rewrite slice_skip by lia.
  replace (12 - Z.of_nat (length H)) with 0 by lia. replace (slice (text_octets t) 0 _) with (text_octets t).
  2: { unfold slice. rewrite drop_0, take_ge; [done|]. rewrite length_text_octets. lia. }
  rewrite (parse_object_text t js Hp). done.
Qed.

(** The octets of a TSN message: addresses and VLAN tag, the R-TAG if there is
    one, CFM with the type of the TLV, and the TLV. *)
Lemma tsn_unpack_spec q (E R C : mem) t js (tagged : bool) x seq session :
  carries q (E ++ R ++ C ++ tlv_octets t) → length E = 18%nat → tagged = bool_decide (E !! 16%nat = Some 241 ∧ E !! 17%nat = Some 193) →
  (if tagged then length R = 6%nat ∧ R !! 1%nat = Some seq ∧ R !! 3%nat = Some session else R = []) →
  length C = 5%nat → C !! 0%nat = Some x → json_parse t = POk (JObject js) →
  unpack_tsn_message q =
  Some (Some (let js := insert_numbers [("level", Z.shiftr x 5); ("nodeid", tsn_nodeid (slice E 8 4))] js in
              if tagged then insert_numbers [("seq", seq); ("session", Z.land session 15)] js else js)).
Proof.
  intros Hc HE Htag HR HC Hx Hp. pose proof Hc as [Hn Hl Hlen (h0 & H0 & _ & _)]. set (w := E ++ R ++ C ++ tlv_octets t) in *.
  set (rl := if tagged then 6 else 0).
  assert (Z.of_nat (length R) = rl) as HRl by (unfold rl; destruct tagged; [lia | by subst R]).
  assert (Z.of_nat (length w) = 26 + rl + Z.of_nat (String.length t)) as HL.
  { unfold w. rewrite !length_app, length_tlv. lia. }
  assert (∀ k, 0 <= k < 18 → w !! Z.to_nat k = E !! Z.to_nat k) as HwE by (intros k Hk; unfold w; by rewrite lookup_app_l by lia).
  assert (∀ k, 0 <= k < rl → w !! Z.to_nat (18 + k) = R !! Z.to_nat k) as HwR.
  { intros k Hk. unfold w. rewrite lookup_app_r by lia. rewrite lookup_app_l by lia. f_equal. lia. }
  assert (w !! Z.to_nat (18 + rl) = Some x) as Hwx.
  { unfold w. rewrite !lookup_app_r by lia. rewrite lookup_app_l by lia. rewrite <- Hx. f_equal. lia. }
  assert (0 <= rl <= 6) as Hrl by (unfold rl; by destruct tagged).
  unfold unpack_tsn_message. destruct (Z.ltb_spec (header_count q) 2); [lia|]. rewrite Hl, Hlen, HL. cbn [mbind option_bind negb]. rewrite H0. cbn [mbind option_bind].
  change tsn_header_len with 18. change (proto_len PROTO_ID_CFM) with 4. change (proto_len PROTO_ID_ETH) with 14. change (proto_len PROTO_ID_CVLAN) with 4. change (proto_len PROTO_ID_RTAG) with 6.
  destruct (Z.ltb_spec (26 + rl + Z.of_nat (String.length t)) (18 + 4 + 3)); [lia|].
  assert (has_rtag q (h_start h0 + 14) = Some tagged) as ->.
  { unfold has_rtag. replace (h_start h0 + 14 + 2) with (h_start h0 + 16) by lia. replace (h_start h0 + 14 + 3) with (h_start h0 + 17) by lia.
    rewrite !(carries_octet q w h0) by (done || lia). rewrite !HwE by lia. change (Z.to_nat 16) with 16%nat. change (Z.to_nat 17) with 17%nat.
    destruct (lookup_lt_is_Some_2 E 16) as [a Ha]; [lia|]. destruct (lookup_lt_is_Some_2 E 17) as [b Hb]; [lia|]. rewrite Ha, Hb in Htag |- *. cbn.
    rewrite Htag. f_equal. apply bool_decide_ext. split; [intros [-> ->]; done | intros [[= ->] [= ->]]; done]. }
  cbn [mbind option_bind]. replace (if tagged then h_start h0 + 14 + 4 + 6 else h_start h0 + 14 + 4) with (h_start h0 + (18 + rl)) by (unfold rl; destruct tagged; lia).
  replace (if tagged then 18 + 4 + 3 + 6 else 18 + 4 + 3) with (25 + rl) by (unfold rl; destruct tagged; lia).
  destruct (Z.ltb_spec (26 + rl + Z.of_nat (String.length t)) (25 + rl + 1)); [lia|].
  replace (h_start h0 + (18 + rl) + 4 + 3) with (h_start h0 + (25 + rl)) by lia. rewrite (carries_load q w h0 (25 + rl) _ Hc H0) by lia. cbn [mbind option_bind].
  replace (slice w (25 + rl) _) with (text_octets t).
  2: { unfold w. rewrite !slice_skip by lia. rewrite HE, HRl, HC. unfold tlv_octets. rewrite slice_skip by (cbn; lia). symmetry.
       replace (25 + rl - Z.of_nat 18 - rl - Z.of_nat 5 - _) with 0 by (cbn [length]; lia). apply slice_here. rewrite length_text_octets. lia. }
  rewrite (parse_object_text t js Hp). cbn [mbind option_bind]. rewrite (carries_octet q w h0 (18 + rl)) by (done || lia). rewrite Hwx. cbn [mbind option_bind].
  replace (h_start h0 + 6 + 2) with (h_start h0 + 8) by lia. rewrite (carries_load q w h0 8 4 Hc H0) by lia. cbn [mbind option_bind].
  replace (slice w 8 (Z.of_nat 4)) with (slice E 8 4).
  2: { unfold w, slice. change (Z.to_nat 8) with 8%nat. change (Z.to_nat (Z.of_nat 4)) with 4%nat. rewrite drop_app_le by lia. by rewrite take_app_le by (rewrite length_drop; lia). }
  destruct tagged; [|done]. destruct HR as (_ & HR1 & HR3). replace (h_start h0 + 14 + 4 + 1) with (h_start h0 + (18 + 1)) by lia. replace (h_start h0 + 14 + 4 + 3) with (h_start h0 + (18 + 3)) by lia.
  rewrite !(carries_octet q w h0) by (done || lia). rewrite !HwR by (unfold rl; lia). change (Z.to_nat 1) with 1%nat. change (Z.to_nat 3) with 3%nat. rewrite HR1, HR3. done.
Qed.

(** ** Writing the headers *)

Fixpoint layout (off : Z) (hs : list (ProtocolID * Z)) : list PacketHeader :=
  match hs with [] => [] | (ty, n) :: hs => mk_header ty off n :: layout (off + n) hs end.
Definition stack_size (hs : list (ProtocolID * Z)) : Z := foldr (λ x acc, x.2 + acc) 0 hs.

(** The headers of the packet lie one behind the other from the beginning of
    the buffer, all of which is scratch space. *)
Record laid (p : Packet) (hs : list (ProtocolID * Z)) : Prop := {
  la_active : active p = layout 0 hs;
  la_count : header_count p = Z.of_nat (length hs);
  la_scratch : scratch_len p = stack_size hs;
  la_start : start p = 10000;
  la_array : length (headers p) = 20%nat;
  la_buf : Z.of_nat (length (buf p)) = 10000;
  la_small : (length hs <= 20)%nat ∧ Forall (λ x, 0 <= x.2) hs ∧ stack_size hs < 10000
}.

Lemma layout_app off hs hs' : layout off (hs ++ hs') = layout off hs ++ layout (off + stack_size hs) hs'.
Proof.
  revert off. induction hs as [|[ty n] hs IH]; intros off; cbn; [by rewrite Z.add_0_r|]. rewrite IH, <- Z.add_assoc. done.
Qed.

Lemma stack_size_app hs hs' : stack_size (hs ++ hs') = stack_size hs + stack_size hs'.
Proof. unfold stack_size. rewrite foldr_app. induction hs as [|x hs IH]; cbn [foldr]; [lia|]. rewrite IH. lia. Qed.

Lemma length_layout off hs : length (layout off hs) = length hs.
Proof. revert off. induction hs as [|[ty n] hs IH]; intros off; cbn; [done|]. by rewrite IH. Qed.

Lemma stack_size_nonneg hs : Forall (λ x : ProtocolID * Z, 0 <= x.2) hs → 0 <= stack_size hs.
Proof. induction 1 as [|x hs Hx _ IH]; cbn; [lia|]. unfold stack_size in IH. lia. Qed.

Lemma layout_lookup off hs i x :
  hs !! i = Some x → layout off hs !! i = Some (mk_header x.1 (off + stack_size (take i hs)) x.2).
Proof.
  revert off i. induction hs as [|[ty n] hs IH]; intros off [|i]; [done | done | |].
  - intros [= <-]. cbn. by rewrite Z.add_0_r.
  - intros H. change (hs !! i = Some x) in H. change (layout (off + n) hs !! i = Some (mk_header x.1 (off + (n + stack_size (take i hs))) x.2)).
    rewrite (IH (off + n) i H). do 2 f_equal. lia.
Qed.

Lemma laid_start p : packet_wf p → len p = 0 → laid (packet_enlarge_scratch (packet_clear_headers p)) [].
Proof.
  intros [Hb Ha _ _ _ _] Hl. unfold packet_enlarge_scratch, packet_clear_headers. cbn. rewrite Hl. cbn. unfold_limits.
  split; cbn; try done; try lia. split_and!; [lia | constructor | lia].
Qed.

Lemma laid_add p hs ty n :
  laid p hs → (length hs < 20)%nat → 0 <= n → stack_size hs + n < 10000 →
  let p' := (packet_add_header p (Z.of_nat (length hs)) ty n).2 in laid p' (hs ++ [(ty, n)]) ∧ buf p' = buf p.
Proof.
  intros [Ac Co Sc St Ar Bu (Sm & Nn & Sz)] Hl Hn Hs. pose proof (stack_size_nonneg hs Nn) as H0. unfold packet_add_header. rewrite Co.
  unfold_limits. destruct (Z.eqb_spec (Z.of_nat (length hs)) 20); [lia|]. destruct (Z.gtb_spec (Z.of_nat (length hs)) (Z.of_nat (length hs))); [lia|].
  unfold scratch_alloc. rewrite Sc, St. rewrite u32_small by (unfold is_u32; lia).
  destruct (Z.geb_spec (stack_size hs + n) 10000); [lia|]. destruct (Z.ltb_spec (stack_size hs) 0); [lia|].
  cbn. rewrite Co. rewrite Z.ltb_irrefl. split; [|done]. split; cbn; rewrite ?stack_size_app, ?length_insert; cbn; try lia; try done.
  - unfold active in *. cbn. rewrite Co in *. replace (Z.to_nat (Z.of_nat (length hs) + 1)) with (S (length hs)) by lia.
    rewrite Nat2Z.id in *. rewrite take_insert_snoc by lia. by rewrite Ac, layout_app.
  - rewrite length_app. cbn. lia.
  - rewrite length_app. cbn. split_and!; [lia | apply Forall_app; split; [done | by repeat constructor] | lia].
Qed.

Lemma laid_hdr p hs i x :
  laid p hs → hs !! i = Some x → hdr p (Z.of_nat i) = Some (mk_header x.1 (stack_size (take i hs)) x.2).
Proof.
  intros [Ac Co _ _ _ _ _] Hi. apply (layout_lookup 0) in Hi as H. rewrite <- Ac in H. unfold active in H. unfold hdr.
  destruct (Z.leb_spec 0 (Z.of_nat i)); [|lia]. rewrite Nat2Z.id. apply lookup_take_Some in H as [H _]. exact H.
Qed.

Lemma laid_buf p hs b : laid p hs → Z.of_nat (length b) = 10000 → laid (p <| buf := b |>) hs.
Proof. intros [Ac Co Sc St Ar Bu Sm] Hb. by split. Qed.

Lemma laid_write p hs i x l :
  laid p hs → hs !! i = Some x → stack_size (take i hs) + Z.of_nat (length l) <= 10000 →
  write_hdr p (Z.of_nat i) l = Some (p <| buf := put (buf p) (stack_size (take i hs)) l |>) ∧
  laid (p <| buf := put (buf p) (stack_size (take i hs)) l |>) hs.
Proof.
  intros Hp Hi Hl. pose proof Hp as [Ac Co Sc St Ar Bu (Sm & Nn & Sz)].
  assert (0 <= stack_size (take i hs)) by (apply stack_size_nonneg; by apply Forall_take).
  unfold write_hdr. rewrite (laid_hdr p hs i x Hp Hi). cbn [mbind option_bind h_start]. rewrite store_octets_put by (rewrite ?Bu; lia). cbn [mbind option_bind].
  split; [done|]. apply laid_buf; [done|]. rewrite put_length by (rewrite ?Bu; lia). done.
Qed.

Lemma linear_true fuel hs (i last : nat) :
  (last - i <= fuel)%nat →
  (∀ j, (i <= j < last)%nat → ∃ h h', hs !! j = Some h ∧ hs !! (j + 1)%nat = Some h' ∧ h_start h' = u32 (h_start h + h_len h)) →
  linear_from fuel hs (Z.of_nat last) i = Some true.
Proof.
  revert i. induction fuel as [|fuel IH]; intros i Hf Hj; cbn [linear_from].
  - destruct (Z.ltb_spec (Z.of_nat i) (Z.of_nat last)); [lia | done].
  - destruct (Z.ltb_spec (Z.of_nat i) (Z.of_nat last)); [|done]. destruct (Hj i ltac:(lia)) as (h & h' & -> & -> & Hs). cbn [mbind option_bind].
    rewrite Hs, Z.eqb_refl. apply IH; [lia|]. intros j H'. apply Hj. lia.
Qed.

Lemma stack_size_take_S hs i x : hs !! i = Some x → stack_size (take (S i) hs) = stack_size (take i hs) + x.2.
Proof. intros Hi. rewrite (take_S_r _ _ x Hi), stack_size_app. cbn. lia. Qed.

Lemma stack_size_take_le hs i : Forall (λ x : ProtocolID * Z, 0 <= x.2) hs → 0 <= stack_size (take i hs) <= stack_size hs.
Proof.
  intros H. split; [by apply stack_size_nonneg, Forall_take|]. rewrite <- (take_drop i hs) at 2. rewrite stack_size_app.
  pose proof (stack_size_nonneg (drop i hs) (Forall_drop _ _ _ H)). lia.
Qed.

Lemma laid_length p hs : laid p hs → packet_length p = stack_size hs.
Proof.
  intros [Ac _ _ _ _ _ (_ & Nn & Sz)]. rewrite packet_length_u32, Ac. pose proof (stack_size_nonneg hs Nn).
  assert (∀ off, total_len (layout off hs) = stack_size hs) as ->; [|apply u32_small; unfold is_u32; lia].
  clear. induction hs as [|[ty n] hs IH]; intros off; cbn; [done|]. unfold total_len, stack_size in IH. by rewrite IH.
Qed.

Lemma laid_ready p hs : laid p hs → (2 <= length hs)%nat → ∃ h0, ready p h0 ∧ h_start h0 = 0.
Proof.
  intros Hp Hl. pose proof Hp as [Ac Co Sc St Ar Bu (Sm & Nn & Sz)]. destruct hs as [|[ty n] hs'] eqn:Ehs; [cbn in Hl; lia|]. rewrite <- Ehs in *.
  exists (mk_header ty 0 n). assert (hdr p 0 = Some (mk_header ty 0 n)) as H0 by (apply (laid_hdr p hs 0 (ty, n) Hp); by rewrite Ehs).
  split; [|done]. split; cbn; [lia | done | | done | lia | rewrite St, Sc; by apply laid_length].
  unfold packet_is_linear. rewrite Co, u32_small by (unfold is_u32; lia). replace (Z.of_nat (length hs) - 1) with (Z.of_nat (length hs - 1)) by lia.
  apply linear_true; [unfold_limits; lia|]. intros j Hj.
  destruct (lookup_lt_is_Some_2 hs j) as [x Hx]; [lia|]. destruct (lookup_lt_is_Some_2 hs (S j)) as [y Hy]; [lia|].
  pose proof (laid_hdr p hs j x Hp Hx) as H1. pose proof (laid_hdr p hs (S j) y Hp Hy) as H2. unfold hdr in H1, H2.
  destruct (Z.leb_spec 0 (Z.of_nat j)); [|lia]. destruct (Z.leb_spec 0 (Z.of_nat (S j))); [|lia]. rewrite Nat2Z.id in H1, H2.
  rewrite Nat.add_1_r. do 2 eexists. split; [exact H1|]. split; [exact H2|]. cbn [h_start h_len].
  rewrite (stack_size_take_S hs j x Hx). pose proof (stack_size_take_le hs (S j) Nn) as Hle. rewrite (stack_size_take_S hs j x Hx) in Hle.
  symmetry. apply u32_small. unfold is_u32. lia.
Qed.

Lemma laid_stamp p hs ttl now : laid p hs → laid (stamp p ttl now) hs.
Proof. intros [Ac Co Sc St Ar Bu Sm]. by split. Qed.

Lemma laid_sequence p hs w : laid p hs → laid (p <| sequence := w |>) hs.
Proof. intros [Ac Co Sc St Ar Bu Sm]. by split. Qed.

(** One more header behind the others. *)
Ltac lay H :=
  match type of H with
  | laid ?p ?hs =>
      match goal with
      | |- context [(packet_add_header p ?k ?ty ?n).2] =>
          let H' := fresh "Hl" in let E := fresh "Eb" in
          destruct (laid_add p hs ty n H ltac:(cbn; lia) ltac:(cbn; lia) ltac:(cbn; lia)) as [H' E];
          change (Z.of_nat (length hs)) with k in H', E; cbn [app] in H';
          let q := fresh "p" in set (q := (packet_add_header p k ty n).2) in *; clearbody q; clear H
      end
  end.

(** The octets of the next header are written. *)
Ltac put_hdr H i :=
  match type of H with
  | laid ?p ?hs =>
      match goal with
      | |- context [write_hdr p ?k ?l] =>
          let H' := fresh "Hl" in let E := fresh "Ew" in
          let L := fresh "Lb" in pose proof (la_buf p hs H) as L;
          destruct (laid_write p hs i _ l H eq_refl ltac:(unfold stack_size; cbn [take foldr snd length app tsn_rtag_octets tsn_cfm_octets pw_oam_octets]; lia)) as [E H'];
          change (Z.of_nat i) with k in E; rewrite E; cbn [mbind option_bind]; clear E;
          let q := fresh "p" in
          match type of H' with laid ?y _ => let Eq := fresh "Eb" in assert (buf y = put (buf p) (stack_size (take i hs)) l) as Eq by done; set (q := y) in *; clearbody q end;
          clear H
      end
  end.

Lemma slice_put_front b l k : 0 <= k <= Z.of_nat (length l) → Z.of_nat (length l) <= Z.of_nat (length b) → slice (put b 0 l) 0 k = take (Z.to_nat k) l.
Proof.
  intros Hk Hl. unfold slice, put. rewrite drop_0, take_0, app_nil_l. by rewrite take_app_le by lia.
Qed.

Lemma put_front b l1 c l2 :
  c = Z.of_nat (length l1) → c + Z.of_nat (length l2) <= Z.of_nat (length b) → put (put b 0 l1) c l2 = put b 0 (l1 ++ l2).
Proof. intros -> H. exact (put_app b 0 l1 l2 ltac:(lia) H). Qed.

(** The buffer after a sequence of writes. *)
Ltac bufs :=
  repeat match goal with E : buf ?x = buf ?y |- _ => rewrite E in *; clear E end;
  repeat match goal with E : buf ?x = _ |- context [buf ?x] => rewrite E end;
  repeat match goal with
  | |- context [stack_size (take ?k ?hs)] => let v := eval cbv in (stack_size (take k hs)) in change (stack_size (take k hs)) with v
  end.

Lemma pw_header_spec m p req now l0 l1 l2 l3 :
  packet_wf p → len p = 0 → label (pw_address m) = [l0; l1; l2; l3] →
  let i := request_get_identification_data req in
  ∃ p1, pack_pw_message_header m p req now = Some (request_object req now, p1) ∧
    laid p1 [(PROTO_ID_MPLS, 4); (PROTO_ID_OAM, 8); (PROTO_ID_PAYLOAD, 0)] ∧
    slice (buf p1) 0 12 = [l0; l1; Z.lor l2 1; i_ttl i] ++ pw_oam_octets i.
Proof.
  intros Hwf Hlen Hlab i. unfold pack_pw_message_header. fold i. cbv zeta. pose proof (laid_start p Hwf Hlen) as H. revert H.
  set (p0 := packet_enlarge_scratch (packet_clear_headers p)). clearbody p0. change (proto_len PROTO_ID_MPLS) with 4. change (proto_len PROTO_ID_OAM) with 8.
  intros H. lay H. lay Hl. lay Hl0. unfold pw_label_octets. rewrite Hlab. cbn [mbind option_bind].
  put_hdr Hl 0%nat. put_hdr Hl0 1%nat. eexists. split; [reflexivity|]. split; [by apply laid_stamp, laid_sequence|].
  change (buf (stamp ?q _ _)) with (buf q). change (buf (_ <| sequence := _ |>)) with (buf p5). bufs.
  rewrite (put_front (buf p0)) by (unfold pw_oam_octets; cbn [length]; lia). rewrite slice_put_front by (unfold pw_oam_octets; cbn [length app]; lia). done.
Qed.

Lemma tsn_header_spec m p req now tag d0 d1 d2 d3 d4 d5 v0 v1 :
  packet_wf p → len p = 0 → dmac (tsn_address m) = [d0; d1; d2; d3; d4; d5] → vlan (tsn_address m) = [v0; v1] →
  tag = PROTO_ID_CVLAN ∨ tag = PROTO_ID_SVLAN →
  let i := request_get_identification_data req in
  let eth := tsn_eth_octets (tsn_address m) (i_nodeid i) (negb (bool_decide (tag = PROTO_ID_CVLAN))) in
  (m_protostack m = [PROTO_ID_ETH; tag; PROTO_ID_RTAG; PROTO_ID_PAYLOAD] →
   ∃ p1, pack_tsn_message_header m p req now = Some (request_object req now, p1) ∧
     laid p1 [(PROTO_ID_ETH, 14); (tag, 4); (PROTO_ID_RTAG, 6); (PROTO_ID_PAYLOAD, 8)] ∧
     slice (buf p1) 0 29 = (eth ++ [v0; v1; 241; 193]) ++ tsn_rtag_octets i ++ take 5 (tsn_cfm_octets i)) ∧
  (m_protostack m = [PROTO_ID_ETH; tag; PROTO_ID_PAYLOAD] →
   ∃ p1, pack_tsn_message_header m p req now = Some (request_object req now, p1) ∧
     laid p1 [(PROTO_ID_ETH, 14); (tag, 4); (PROTO_ID_PAYLOAD, 4)] ∧
     slice (buf p1) 0 23 = (eth ++ [v0; v1; 137; 2]) ++ take 5 (tsn_cfm_octets i)).
Proof.
  intros Hwf Hlen Hd Hv Htag i eth. pose proof (laid_start p Hwf Hlen) as H. unfold pack_tsn_message_header. fold i. cbv zeta.
  assert (proto_len tag = 4) as Htl by (destruct Htag as [-> | ->]; done). rewrite Hv.
  assert (length eth = 14%nat) as Hel by (unfold eth, tsn_eth_octets; rewrite Hd; by destruct (negb _)).
  revert H. set (p0 := packet_enlarge_scratch (packet_clear_headers p)). clearbody p0. intros H.
  split; intros Hst; rewrite Hst; change ([PROTO_ID_ETH; tag; _] !! 1%nat) with (Some tag); change ([PROTO_ID_ETH; tag; PROTO_ID_RTAG; PROTO_ID_PAYLOAD] !! 1%nat) with (Some tag);
    change ([PROTO_ID_ETH; tag; PROTO_ID_PAYLOAD] !! 2%nat) with (Some PROTO_ID_PAYLOAD); change ([PROTO_ID_ETH; tag; PROTO_ID_RTAG; PROTO_ID_PAYLOAD] !! 2%nat) with (Some PROTO_ID_RTAG);
    cbn [mbind option_bind]; fold eth; clearbody eth; rewrite Htl; change (proto_len PROTO_ID_ETH) with 14; change (proto_len PROTO_ID_RTAG) with 6; lay H; lay Hl.
  - put_hdr Hl0 0%nat. rewrite bool_decide_eq_true_2 by done. lay Hl. lay Hl0. cbv zeta. put_hdr Hl 1%nat. put_hdr Hl0 2%nat.
    match type of Hl with laid ?q ?hs =>
      pose proof (laid_sequence q hs (octets_word (take 4 (tsn_rtag_octets i))) Hl) as Hs;
      set (pz := q <| sequence := octets_word (take 4 (tsn_rtag_octets i)) |>) in *; assert (buf pz = buf q) as E7 by done; clearbody pz
    end. put_hdr Hs 3%nat.
    eexists. split; [reflexivity|]. split; [by apply laid_stamp|]. change (buf (stamp ?q _ _)) with (buf q).
    bufs. rewrite !(put_front (buf p0)) by (unfold tsn_rtag_octets, tsn_cfm_octets; rewrite ?length_app, ?Hel; cbn [length app]; lia).
    rewrite slice_put_front by (unfold tsn_rtag_octets, tsn_cfm_octets; rewrite !length_app, ?Hel; cbn [length app]; lia). rewrite <- !app_assoc. rewrite (take_app_ge eth) by (rewrite Hel; lia). rewrite Hel. done.
  - put_hdr Hl0 0%nat. rewrite bool_decide_eq_false_2 by done. lay Hl. cbv zeta. put_hdr Hl0 1%nat. put_hdr Hl 2%nat.
    eexists. split; [reflexivity|]. split; [by apply laid_stamp|]. change (buf (stamp ?q _ _)) with (buf q).
    bufs. rewrite !(put_front (buf p0)) by (unfold tsn_rtag_octets, tsn_cfm_octets; rewrite ?length_app, ?Hel; cbn [length app]; lia).
    rewrite slice_put_front by (unfold tsn_rtag_octets, tsn_cfm_octets; rewrite !length_app, ?Hel; cbn [length app]; lia). rewrite <- !app_assoc. rewrite (take_app_ge eth) by (rewrite Hel; lia). rewrite Hel. done.
Qed.

(** ** SRv6 *)

Lemma lookup_put_out b a l k :
  0 <= a → a + Z.of_nat (length l) <= Z.of_nat (length b) → 0 <= k → k < a ∨ a + Z.of_nat (length l) <= k →
  put b a l !! Z.to_nat k = b !! Z.to_nat k.
Proof.
  intros Ha Hl Hk Ho. unfold put. assert (length (take (Z.to_nat a) b) = Z.to_nat a) as L by (rewrite length_take; lia). destruct Ho.
  - rewrite lookup_app_l by lia. apply lookup_take_lt. lia.
  - rewrite lookup_app_r, lookup_app_r, lookup_drop by lia. f_equal. lia.
Qed.

Lemma lookup_put_in b a l k :
  0 <= a → a + Z.of_nat (length l) <= Z.of_nat (length b) → a <= k < a + Z.of_nat (length l) → put b a l !! Z.to_nat k = l !! Z.to_nat (k - a).
Proof.
  intros Ha Hl Hk. unfold put. assert (length (take (Z.to_nat a) b) = Z.to_nat a) as L by (rewrite length_take; lia).
  rewrite lookup_app_r, lookup_app_l by lia. f_equal. lia.
Qed.

Lemma laid_write_at p hs i x k l :
  laid p hs → hs !! i = Some x → 0 <= k → stack_size (take i hs) + k + Z.of_nat (length l) <= 10000 →
  write_hdr_at p (Z.of_nat i) k l = Some (p <| buf := put (buf p) (stack_size (take i hs) + k) l |>) ∧
  laid (p <| buf := put (buf p) (stack_size (take i hs) + k) l |>) hs.
Proof.
  intros Hp Hi Hk Hl. pose proof Hp as [Ac Co Sc St Ar Bu (Sm & Nn & Sz)].
  assert (0 <= stack_size (take i hs)) by (apply stack_size_nonneg; by apply Forall_take).
  unfold write_hdr_at. rewrite (laid_hdr p hs i x Hp Hi). cbn [mbind option_bind h_start]. rewrite store_octets_put by (rewrite ?Bu; lia). cbn [mbind option_bind].
  split; [done|]. apply laid_buf; [done|]. rewrite put_length by (rewrite ?Bu; lia). done.
Qed.

Definition srv6_stack : list (ProtocolID * Z) := [(PROTO_ID_IPv6, 40); (PROTO_ID_IPv6, 40); (PROTO_ID_ICMPv6, 8); (PROTO_ID_PAYLOAD, 0)].

Ltac put_at H i :=
  match type of H with
  | laid ?p ?hs =>
      match goal with
      | |- context [write_hdr_at p ?j ?k ?l] =>
          let H' := fresh "Hl" in let E := fresh "Ew" in
          let L := fresh "Lb" in pose proof (la_buf p hs H) as L;
          destruct (laid_write_at p hs i _ k l H eq_refl ltac:(lia) ltac:(unfold stack_size, srv6_stack; cbn [take foldr snd length app]; rewrite ?length_app; cbn [length]; lia)) as [E H'];
          change (Z.of_nat i) with j in E; rewrite E; cbn [mbind option_bind]; clear E;
          let q := fresh "p" in
          match type of H' with laid ?y _ =>
            let Eq := fresh "Eb" in assert (buf y = put (buf p) (stack_size (take i hs) + k) l) as Eq by done;
            set (q := y) in *; clearbody q;
            match type of Eq with _ = put _ ?o _ => let o' := eval cbv in o in change o with o' in Eq end
          end;
          clear H
      end
  end.

(** The octet at [k] after a sequence of writes. *)
Ltac octet_side := first [lia | cbn [length]; lia].
Ltac look k :=
  change (Z.to_nat 0) with 0%nat;
  let n := eval cbv in (Z.to_nat k) in
  repeat match goal with |- context [buf ?x !! n] => change (buf x !! n) with (buf x !! Z.to_nat k) end;
  repeat match goal with
  | E : buf ?x = put _ _ _ |- context [buf ?x !! Z.to_nat k] =>
      rewrite E; first [rewrite lookup_put_out by octet_side | rewrite lookup_put_in by octet_side]
  end.

Lemma srv6_header_spec oamif stk m p req now src :
  packet_wf p → len p = 0 → length (loc (sid_address m)) = 8%nat → src = srv6_source oamif stk → length src = 16%nat →
  let i := request_get_identification_data req in
  ∃ p1, pack_srv6_message_header oamif stk m p req now = Some (request_object req now, p1) ∧ laid p1 srv6_stack ∧
    buf p1 !! 6%nat = Some IPPROTO_IPV6 ∧ buf p1 !! 46%nat = Some IPPROTO_ICMPV6 ∧
    buf p1 !! 62%nat = src !! 14%nat ∧ buf p1 !! 63%nat = src !! 15%nat ∧
    buf p1 !! 85%nat = Some (srv6_identifier i) ∧ buf p1 !! 87%nat = Some (i_seq i).
Proof.
  intros Hwf Hlen Hloc Hsrc Hs i. unfold pack_srv6_message_header. fold i. cbv zeta. pose proof (laid_start p Hwf Hlen) as H. revert H.
  set (p0 := packet_enlarge_scratch (packet_clear_headers p)). clearbody p0. change (proto_len PROTO_ID_IPv6) with 40. change (proto_len PROTO_ID_ICMPv6) with 8.
  intros H. lay H. lay Hl. lay Hl0. lay Hl. rewrite <- Hsrc. unfold srv6_outer, srv6_inner.
  destruct (loc (sid_address m)) as [|s0 [|s1 [|s2 [|s3 [|s4 [|s5 [|s6 [|s7 [|? ?]]]]]]]]] eqn:El; try discriminate Hloc.
  assert (sid_octets (sid_address m) = [s0; s1; s2; s3; s4; s5; s6; s7; source_code (loc_source (sid_address m)); 0; 0; 0; 0; 0; 0; 0]) as -> by (unfold sid_octets; by rewrite El).
  cbn [drop take app replicate mbind option_bind].
  put_at Hl0 0%nat. put_at Hl 0%nat. put_at Hl0 1%nat.
  assert (Z.of_nat (length (IPPROTO_ICMPV6 :: i_ttl i :: src ++ [0; 0; 0; 0; 0; 0; 0; 0; 0; 0; 0; 0; 0; 0; 0; 1])) = 34) as Hlen6 by (cbn [length]; rewrite length_app, Hs; reflexivity).
  put_at Hl 1%nat. put_at Hl0 2%nat. put_at Hl 2%nat.
  eexists. split; [reflexivity|]. split; [by apply laid_stamp, laid_sequence|]. change (buf (stamp ?q _ _)) with (buf q).
  match type of Hl0 with laid ?q _ => change (buf (q <| sequence := _ |>)) with (buf q) end.
  split_and!; [look 6 | look 46 | look 62 | look 63 | look 85 | look 87]; try done.
  - change ((src ++ [0; 0; 0; 0; 0; 0; 0; 0; 0; 0; 0; 0; 0; 0; 0; 1]) !! 14%nat = src !! 14%nat). by rewrite lookup_app_l by (rewrite Hs; lia).
  - change ((src ++ [0; 0; 0; 0; 0; 0; 0; 0; 0; 0; 0; 0; 0; 0; 0; 1]) !! 15%nat = src !! 15%nat). by rewrite lookup_app_l by (rewrite Hs; lia).
Qed.

Lemma store2_put b a x y : 0 <= a → a + 2 <= Z.of_nat (length b) → store2 b a x y = Some (put b a [x; y]).
Proof.
  intros Ha Hb. transitivity (store_octets b a [x; y]); [|by apply store_octets_put].
  unfold store2. cbn [store_octets]. destruct (store b a x) as [b'|]; [|done]. cbn [mbind option_bind]. by destruct (store b' (a + 1) y).
Qed.

Lemma put_same b a l l' : 0 <= a → length l = length l' → a + Z.of_nat (length l) <= Z.of_nat (length b) → put (put b a l) a l' = put b a l'.
Proof.
  intros Ha Hl Hb. unfold put. assert (length (take (Z.to_nat a) b) = Z.to_nat a) as L by (rewrite length_take; lia).
  rewrite (take_app_length' (take (Z.to_nat a) b)) by done. do 2 f_equal. rewrite app_assoc, drop_app_length' by (rewrite length_app, L; lia). by rewrite Hl.
Qed.

(** The checksum of an ICMPv6 header can be computed, and only its octets change. *)
Lemma icmp6_checksum base p h1 h2 :
  hdr p 1 = Some h1 → hdr p 2 = Some h2 → 0 <= h_start h1 → 0 <= h_start h2 →
  h_start h1 + 40 <= Z.of_nat (length (buf p)) → h_start h2 + 4 <= Z.of_nat (length (buf p)) →
  Forall (readable (Z.of_nat (length (buf p)))) (drop 2 (active p)) →
  ∃ x y, checksum_compute base p (mk_cp 2 PROTO_ID_ICMPv6 1 PROTO_ID_IPv6) = Some (p <| buf := put (buf p) (h_start h2 + 2) [x; y] |>).
Proof.
  intros H1 H2 S1 S2 L1 L2 Hr. unfold checksum_compute, checksum_compute_with. cbn [hdr_idx hdr_proto csum_pos]. unfold hdr_at. change (0 <=? 2) with true. cbv iota.
  change (headers p !! Z.to_nat 2) with (hdr p 2). rewrite H2. cbn [mbind option_bind]. rewrite store2_put by lia. cbn [mbind option_bind].
  set (b := put (buf p) (h_start h2 + 2) [0; 0]). assert (length b = length (buf p)) as Lb by (apply put_length; cbn [length]; lia).
  assert (∃ c, header_csum wrap16 base (p <| buf := b |>) (mk_cp 2 PROTO_ID_ICMPv6 1 PROTO_ID_IPv6) = Some c) as [c ->].
  { unfold header_csum. cbn [hdr_proto]. unfold layer4_csum. cbn [hdr_proto protoid_of].
    assert (∃ l, payload_length (p <| buf := b |>) (mk_cp 2 PROTO_ID_ICMPv6 1 PROTO_ID_IPv6) = Some l ∧ 0 <= l) as (l & -> & Hl).
    { unfold payload_length. cbn [ip_idx hdr_idx ip_version]. unfold hdr_at. change (0 <=? 1) with true. cbv iota. change (headers (p <| buf := b |>) !! Z.to_nat 1) with (hdr p 1). rewrite H1. cbn [mbind option_bind].
      rewrite decide_False by done. change (buf (p <| buf := b |>)) with b.
      destruct (load_in_range b (h_start h1 + 4)) as [x4 ->]; [unfold in_range; rewrite Lb; lia|]. cbn [mbind option_bind].
      destruct (load_in_range b (h_start h1 + 5)) as [x5 ->]; [unfold in_range; rewrite Lb; lia|]. cbn [mbind option_bind].
      change (2 - (1 + 1) <=? 0) with true. eexists. split; [reflexivity|]. unfold u16. lia. }
    cbn [mbind option_bind ip_idx hdr_idx ip_version]. unfold hdr_at. change (0 <=? 1) with true. cbv iota. change (headers (p <| buf := b |>) !! Z.to_nat 1) with (hdr p 1). rewrite H1. cbn [mbind option_bind].
    rewrite decide_False by done. change (buf (p <| buf := b |>)) with b. change (active (p <| buf := b |>)) with (active p).
    destruct (csum_partial_total 0 b (h_start h1 + 8) 32 0) as [c1 ->]; [lia | lia | rewrite Lb; lia|]. cbn [mbind option_bind].
    set (ps := pseudo_header _ _ l). destruct (csum_partial_total base ps 0 (Z.of_nat (length ps)) c1) as [c2 ->]; [lia | lia | lia|]. cbn [mbind option_bind].
    destruct (ActSafe.sum_headers_total b (drop 2 (active p)) l c2) as [c3 E]; [by rewrite Lb | done|]. change (Z.to_nat 2) with 2%nat. rewrite E. cbn [mbind option_bind]. eauto. }
  cbn [mbind option_bind]. change (buf (p <| buf := b |>)) with b. rewrite store2_put by (rewrite ?Lb; lia). cbn [mbind option_bind].
  eexists (Z.land (Z.shiftr c 8) 255), (Z.land c 255). unfold b. rewrite put_same by (done || (cbn [length]; lia)). reflexivity.
Qed.

Lemma srv6_payload_spec base p msg t :
  laid p srv6_stack → json_serialize (JObject msg) = Some t → 88 + Z.of_nat (String.length t) <= 10000 →
  ∃ p' w, pack_srv6_payload base p msg = Some (true, p') ∧ carries p' w ∧ header_count p' = 4 ∧
    (∃ h0 h1, hdr p' 0 = Some h0 ∧ hdr p' 1 = Some h1 ∧ h_start h1 = h_start h0 + 40) ∧
    Z.of_nat (length w) = 88 + Z.of_nat (String.length t) ∧ slice w 88 (Z.of_nat (String.length t)) = text_octets t ∧
    ∀ k, 0 <= k < 88 → k ≠ 44 → k ≠ 45 → k ≠ 82 → k ≠ 83 → w !! Z.to_nat k = buf p !! Z.to_nat k.
Proof.
  intros Hp Ht Hn. set (n := Z.of_nat (String.length t)) in *. assert (Z.of_nat (length (text_octets t)) = n) as Htl by (rewrite length_text_octets; done).
  pose proof (laid_ready p _ Hp ltac:(cbn; lia)) as (h0 & Hr & H0). pose proof (la_buf _ _ Hp) as Lb.
  unfold pack_srv6_payload. rewrite (re_linear _ _ Hr), Ht. cbn [mbind option_bind negb]. change (proto_len PROTO_ID_ICMPv6) with 8. fold n.
  assert (∀ q, laid q srv6_stack → hdr q 0 = Some (mk_header PROTO_ID_IPv6 0 40) ∧ hdr q 1 = Some (mk_header PROTO_ID_IPv6 40 40) ∧
    hdr q 2 = Some (mk_header PROTO_ID_ICMPv6 80 8) ∧ headers q !! 3%nat = Some (mk_header PROTO_ID_PAYLOAD 88 0)) as Hh.
  { intros q Hq. split_and!; [exact (laid_hdr q srv6_stack 0 _ Hq eq_refl) | exact (laid_hdr q srv6_stack 1 _ Hq eq_refl) | exact (laid_hdr q srv6_stack 2 _ Hq eq_refl) | exact (laid_hdr q srv6_stack 3 _ Hq eq_refl)]. }
  destruct (Hh p Hp) as (_ & _ & -> & _). cbn [mbind option_bind h_start].
  rewrite store_octets_put by lia. cbn [mbind option_bind]. set (b1 := put (buf p) (80 + 8) (text_octets t)).
  assert (Z.of_nat (length b1) = 10000) as Lb1 by (unfold b1; rewrite put_length; lia).
  pose proof (laid_buf p _ b1 Hp Lb1) as Hq1. set (q1 := p <| buf := b1 |>) in *. assert (buf q1 = b1) as Eb1 by done. clearbody q1.
  put_at Hq1 1%nat. pose proof (la_buf _ _ Hl) as Lb2. destruct (Hh p0 Hl) as (E0 & E1 & E2 & E3). rewrite E0, E1. cbn [mbind option_bind h_len].
  destruct (laid_ready p0 _ Hl ltac:(cbn; lia)) as (h0' & Hr' & H0'). assert (h0' = mk_header PROTO_ID_IPv6 0 40) as -> by (pose proof (re_first _ _ Hr'); congruence).
  replace (u32 (8 + n + 40 + 40)) with (88 + n) by (rewrite u32_small; [lia | unfold is_u32; lia]).
  destruct (update_length_spec p0 _ (88 + n) Hr' ltac:(lia)) as (p2 & -> & Eb2 & Ec & El & En & (h0'' & F0 & Fs) & _ & _ & _ & Fi & Flast). cbn [mbind option_bind].
  pose proof (la_count _ _ Hl) as Hc4. change (Z.of_nat (length srv6_stack)) with 4 in Hc4.
  rewrite Hc4 in Flast. specialize (Flast _ E3). change (Z.to_nat (4 - 1)) with 3%nat in Flast. cbn [h_type h_start h_len] in Flast.
  rewrite (la_start _ _ Hl), (la_scratch _ _ Hl) in Flast. change (0 <? 10000) with true in Flast. cbv iota in Flast. change (stack_size srv6_stack) with 88 in Flast.
  replace (u32 (0 + (88 + n - 88))) with n in Flast by (rewrite u32_small; [lia | unfold is_u32; lia]).
  assert (hdr p2 1 = Some (mk_header PROTO_ID_IPv6 40 40)) as G1 by (rewrite Fi by lia; exact E1).
  assert (hdr p2 2 = Some (mk_header PROTO_ID_ICMPv6 80 8)) as G2 by (rewrite Fi by lia; exact E2).
  assert (length (headers p0) = 20%nat) as Harr by apply Hl.
  assert (drop 2 (active p2) = [mk_header PROTO_ID_ICMPv6 80 8; mk_header PROTO_ID_PAYLOAD 88 n]) as Hact.
  { unfold active. rewrite Ec, Hc4, Flast. change (Z.to_nat 4) with 4%nat. rewrite take_insert_snoc by lia.
    assert (take 3 (headers p0) = take 2 (headers p0) ++ [mk_header PROTO_ID_ICMPv6 80 8]) as -> by (apply take_S_r; exact E2).
    rewrite <- app_assoc. rewrite drop_app_length' by (rewrite length_take; lia). done. }
  destruct (icmp6_checksum base p2 _ _ G1 G2) as (x & y & Ecs); [cbn; lia | cbn; lia | rewrite Eb2; cbn; lia | rewrite Eb2; cbn; lia| |].
  { rewrite Hact, Eb2. repeat constructor; cbn; lia. }
  rewrite Ecs. cbn [mbind option_bind h_start]. set (b3 := put (buf p2) (80 + 2) [x; y]).
  assert (Z.of_nat (length b3) = 10000) as Lb3 by (unfold b3; rewrite put_length; rewrite ?Eb2; cbn [length]; lia).
  exists (p2 <| buf := b3 |>), (slice b3 0 (88 + n)).
  assert (length (slice b3 0 (88 + n)) = Z.to_nat (88 + n)) as Hwl by (apply length_slice; lia).
  assert (n = Z.of_nat (length (text_octets t))) as Hn' by lia.
  split; [reflexivity|]. split_and!.
  - split; [change (header_count (p2 <| buf := b3 |>)) with (header_count p2); lia | exact El | change (packet_length (p2 <| buf := b3 |>)) with (packet_length p2); lia|].
    exists h0''. split; [exact F0|]. rewrite Fs. cbn [h_start]. split; [lia|]. change (buf (p2 <| buf := b3 |>)) with b3. by rewrite Hwl, Z2Nat.id by lia.
  - change (header_count (p2 <| buf := b3 |>)) with (header_count p2). lia.
  - exists h0'', (mk_header PROTO_ID_IPv6 40 40). split; [exact F0|]. split; [exact G1|]. rewrite Fs. done.
  - lia.
  - rewrite slice_slice by lia. unfold b3. rewrite slice_put_behind by (cbn [length]; rewrite ?Eb2; lia). rewrite Eb2, Eb, Eb1. 
    rewrite slice_put_behind by (cbn [length]; lia). unfold b1. rewrite Hn'. apply slice_put_eq; lia.
  - intros k Hk N1 N2 N3 N4. unfold slice at 1. rewrite lookup_take_lt by lia. rewrite drop_0. unfold b3.
    rewrite lookup_put_out by (cbn [length]; rewrite ?Eb2; lia). rewrite Eb2, Eb, lookup_put_out by (cbn [length]; rewrite ?Eb1; lia).
    rewrite Eb1. unfold b1. by rewrite lookup_put_out by lia.
Qed.

Lemma srv6_unpack_spec q w t js n22 n23 x5 x7 :
  carries q w → 3 <= header_count q → (∃ h0 h1, hdr q 0 = Some h0 ∧ hdr q 1 = Some h1 ∧ h_start h1 = h_start h0 + 40) →
  Z.of_nat (length w) = 88 + Z.of_nat (String.length t) → slice w 88 (Z.of_nat (String.length t)) = text_octets t →
  w !! Z.to_nat 6 = Some IPPROTO_IPV6 → w !! Z.to_nat 46 = Some IPPROTO_ICMPV6 → w !! Z.to_nat 62 = Some n22 → w !! Z.to_nat 63 = Some n23 →
  w !! Z.to_nat 85 = Some x5 → w !! Z.to_nat 87 = Some x7 → json_parse t = POk (JObject js) →
  unpack_srv6_message q = Some (Some (insert_numbers
    [("session", Z.land x5 15); ("seq", x7); ("level", Z.land (Z.shiftr x5 4) 7); ("nodeid", Z.lor (Z.shiftl n23 8) n22)] js)).
Proof.
  intros Hc H3 (h0 & h1 & H0 & H1 & Hs) HL Ht W6 W46 W62 W63 W85 W87 Hp. unfold unpack_srv6_message, hdr_octet.
  destruct (Z.ltb_spec (header_count q) 3); [lia|]. rewrite (ca_linear _ _ Hc), H0, H1. cbn [mbind option_bind negb]. rewrite Hs.
  rewrite (carries_octet q w h0 6 Hc H0) by lia. rewrite W6. cbn [mbind option_bind]. rewrite Z.eqb_refl. cbn [negb].
  replace (h_start h0 + 40 + 6) with (h_start h0 + 46) by lia. rewrite (carries_octet q w h0 46 Hc H0) by lia. rewrite W46. cbn [mbind option_bind]. rewrite Z.eqb_refl. cbn [negb].
  rewrite (ca_len _ _ Hc), HL. change (proto_len PROTO_ID_IPv6) with 40. change (proto_len PROTO_ID_ICMPv6) with 8. change (40 + 40 + 8) with 88.
  destruct (Z.ltb_spec (88 + Z.of_nat (String.length t)) 88); [lia|]. replace (h_start h0 + 40 + 40 + 8) with (h_start h0 + 88) by lia.
  replace (Z.to_nat (88 + Z.of_nat (String.length t) - 88)) with (String.length t) by lia. rewrite (carries_load q w h0 88 _ Hc H0) by lia. rewrite Ht. cbn [mbind option_bind].
  rewrite (parse_object_text t js Hp). cbn [mbind option_bind].
  replace (h_start h0 + 40 + 40 + 5) with (h_start h0 + 85) by lia. replace (h_start h0 + 40 + 40 + 7) with (h_start h0 + 87) by lia.
  replace (h_start h0 + 40 + 23) with (h_start h0 + 63) by lia. replace (h_start h0 + 40 + 22) with (h_start h0 + 62) by lia.
  rewrite !(carries_octet q w h0) by (done || lia). rewrite W85, W87, W63, W62. done.
Qed.

(** ** Delivery *)

(** The items that travel in the headers.  Over TSN without R-TAG there are
    no session and no number. *)
Definition header_items (e : Sender) (m : OAM_MaintenancePoint) (i : Identification) : list (string * Z) :=
  match encap m with
  | OAM_PW =>
      [("version", 0); ("seq", i_seq i); ("channel", OAM_CHANNEL); ("nodeid", i_nodeid i mod 2 ^ 20); ("level", i_level i); ("flags", 0); ("session", i_session i)]
  | OAM_TSN =>
      [("level", i_level i); ("nodeid", i_nodeid i)] ++
      (if bool_decide (m_protostack m !! 2%nat = Some PROTO_ID_RTAG) then [("seq", i_seq i); ("session", i_session i)] else [])
  | OAM_SRv6 =>
      let src := srv6_source (s_oamif e) (s_stack e) in
      [("session", i_session i); ("seq", i_seq i); ("level", i_level i);
       ("nodeid", Z.lor (Z.shiftl (default 0 (src !! 15%nat)) 8) (default 0 (src !! 14%nat)))]
  end.

(** What the receiver finds under a key. *)
Definition delivered (e : Sender) (m : OAM_MaintenancePoint) (i : Identification) (msg : JsonTable) (k : string) : option JsonValue :=
  match chain_find k (header_items e m i) with
  | Some z => Some (int_number z)
  | None => if bool_decide (encap m ≠ OAM_SRv6 ∧ k ∈ ach_keys) then None else hashmap_find msg k
  end.

(** The receiver has identified the headers it needs. *)
Definition framed (m : OAM_MaintenancePoint) (q : Packet) : Prop :=
  match encap m with
  | OAM_SRv6 => 3 <= header_count q ∧ ∃ h0 h1, hdr q 0 = Some h0 ∧ hdr q 1 = Some h1 ∧ h_start h1 = h_start h0 + 40
  | _ => True
  end.

(** The address of a point has the size of its header field, and the stack is
    one the configuration finds. *)
Definition point_wf (m : OAM_MaintenancePoint) : Prop :=
  match encap m with
  | OAM_PW => length (label (pw_address m)) = 4%nat
  | OAM_TSN =>
      length (dmac (tsn_address m)) = 6%nat ∧ length (vlan (tsn_address m)) = 2%nat ∧
      ∃ tag, (tag = PROTO_ID_CVLAN ∨ tag = PROTO_ID_SVLAN) ∧
        (m_protostack m = [PROTO_ID_ETH; tag; PROTO_ID_RTAG; PROTO_ID_PAYLOAD] ∨ m_protostack m = [PROTO_ID_ETH; tag; PROTO_ID_PAYLOAD])
  | OAM_SRv6 => length (loc (sid_address m)) = 8%nat
  end.

Definition sender_wf (e : Sender) : Prop :=
  length (srv6_source (s_oamif e) (s_stack e)) = 16%nat ∧ Forall is_u8 (srv6_source (s_oamif e) (s_stack e)).

Record id_wf (i : Identification) : Prop := {
  iw_node : 0 <= i_nodeid i < 2 ^ 32;
  iw_level : 0 <= i_level i < 8;
  iw_session : 0 <= i_session i < 16;
  iw_seq : 0 <= i_seq i < 256
}.

(** Numbers of messages can be printed. *)
Definition moderate (z : Z) : Prop := Z.abs z < 2 ^ 64.

Lemma int_number_ok z : moderate z → json_ok (int_number z).
Proof.
  intros Hz. destruct (round_double_finite (z <? 0) (inject_Z (Z.abs z))) as (m & e & E & Hc).
  - rewrite <- (inject_pow 2 1000) by lia. rewrite <- Zlt_Qlt. unfold moderate in Hz. eapply Z.lt_trans; [exact Hz|]. by apply Z.pow_lt_mono_r.
  - unfold int_number, json_number. rewrite E. exact Hc.
Qed.

Lemma insert_numbers_ok l (js : JsonTable) n :
  json_ok (JObject js) → parsed (JObject js) → has_room js (n + Z.of_nat (length l)) → 0 <= n →
  Forall (λ x, no_nul x.1 = true ∧ moderate x.2) l →
  json_ok (JObject (insert_numbers l js)) ∧ parsed (JObject (insert_numbers l js)) ∧ has_room (insert_numbers l js) n.
Proof.
  revert js. induction l as [|[k z] l IH]; intros js Hok Hp Hr Hn Hl; cbn [insert_numbers foldl]; [rewrite Z.add_0_r in Hr; done|].
  apply Forall_cons in Hl as [[Hk Hz] Hl]. cbn in Hk, Hz. cbn [length] in Hr.
  destruct (insert_ok js k (int_number z) (n + Z.of_nat (length l)) Hok) as [Hok' Hr'].
  - unfold has_room in *. lia.
  - lia.
  - split; [done | by apply int_number_ok].
  - apply IH; [done | apply insert_parsed; [done | done | constructor] | done | done | done].
Qed.

Lemma insert_numbers_wf l (js : JsonTable) : hash_wf js → hash_wf (insert_numbers l js).
Proof. revert js. induction l as [|[k z] l IH]; intros js Hw; cbn; [done|]. apply IH. by apply insert_find. Qed.

Lemma insert_numbers_find l (js : JsonTable) k :
  hash_wf js → NoDup l.*1 →
  hashmap_find (insert_numbers l js) k = match chain_find k l with Some z => Some (int_number z) | None => hashmap_find js k end.
Proof.
  revert js. induction l as [|[k1 z1] l IH]; intros js Hw Hnd; [done|].
  change (insert_numbers ((k1, z1) :: l) js) with (insert_numbers l (json_object_insert js k1 (int_number z1))).
  apply NoDup_cons in Hnd as [Hni Hnd]. destruct (insert_find js k1 (int_number z1) Hw) as [Hw' Hf]. cbn [chain_find fst snd].
  rewrite IH by done. unfold json_object_insert. rewrite Hf. destruct (bool_decide_reflect (k1 = k)) as [->|Hne].
  - rewrite (proj2 (chain_find_None k l) Hni). by rewrite bool_decide_eq_true_2.
  - by rewrite (bool_decide_eq_false_2 (k = k1)) by done.
Qed.

(** *** The octets of the headers *)

Lemma land_low x n : 0 <= n → Z.land x (2 ^ n - 1) = x mod 2 ^ n.
Proof. intros Hn. rewrite <- Z.land_ones by done. f_equal. rewrite Z.ones_equiv. lia. Qed.

Lemma pw_dach i : id_wf i → INTERPRET_DACH (pw_oam_octets i) =
  Some (mk_dach 0 (i_seq i) OAM_CHANNEL (i_nodeid i mod 2 ^ 20) (i_level i) 0 (i_session i)).
Proof.
  intros [Hn Hl Hs _]. unfold pw_oam_octets. cbn [INTERPRET_DACH].
  change 255 with (2 ^ 8 - 1). change 15 with (2 ^ 4 - 1). change 7 with (2 ^ 3 - 1).
  rewrite !Z.shiftl_mul_pow2, !Z.shiftr_div_pow2 by lia. rewrite !land_low by lia.
  assert (Z.land (i_nodeid i mod 2 ^ 4 * 2 ^ 4 + i_level i mod 2 ^ 3 * 2 ^ 1) 1 = 0) as ->.
  { change 1 with (2 ^ 1 - 1). rewrite land_low by lia. change (2 ^ 4) with 16. change (2 ^ 3) with 8. change (2 ^ 1) with 2. lia. }
  change (2 ^ 20) with 1048576. change (2 ^ 12) with 4096. change (2 ^ 8) with 256. change (2 ^ 4) with 16. change (2 ^ 3) with 8. change (2 ^ 1) with 2.
  unfold OAM_CHANNEL. f_equal. f_equal; try lia; try reflexivity.
Qed.

Lemma tsn_nodeid_octets n : 0 <= n < 2 ^ 32 →
  tsn_nodeid [Z.land (Z.shiftr n 24) 255; Z.land (Z.shiftr n 16) 255; Z.land (Z.shiftr n 8) 255; Z.land n 255] = n.
Proof.
  intros Hn. unfold tsn_nodeid. cbn [foldl]. change 255 with (2 ^ 8 - 1). rewrite !Z.shiftl_mul_pow2, !Z.shiftr_div_pow2, !land_low by lia.
  change (2 ^ 24) with 16777216. change (2 ^ 16) with 65536. change (2 ^ 8) with 256. change (2 ^ 32) with 4294967296 in Hn. lia.
Qed.

Lemma cfm_level l : 0 <= l < 8 → Z.shiftr (Z.land (Z.shiftl l 5) 255) 5 = l.
Proof.
  intros Hl. change 255 with (2 ^ 8 - 1). rewrite Z.shiftl_mul_pow2, Z.shiftr_div_pow2, land_low by lia. change (2 ^ 8) with 256. change (2 ^ 5) with 32. lia.
Qed.

Lemma low_bits x : 0 <= x < 16 → Z.land x 15 = x.
Proof. intros H. change 15 with (2 ^ 4 - 1). rewrite land_low by lia. change (2 ^ 4) with 16. lia. Qed.

Lemma srv6_identifier_fields i : id_wf i → Z.land (srv6_identifier i) 15 = i_session i ∧ Z.land (Z.shiftr (srv6_identifier i) 4) 7 = i_level i.
Proof.
  intros [_ Hl Hs _]. unfold srv6_identifier. rewrite (low_bits (i_session i)) by done.
  assert (Z.land (i_level i) 7 = i_level i) as -> by (change 7 with (2 ^ 3 - 1); rewrite land_low by lia; change (2 ^ 3) with 8; lia).
  assert (Z.lor (Z.shiftl (i_level i) 4) (i_session i) = i_level i * 16 + i_session i) as ->.
  { rewrite <- Z.add_lor_land. rewrite Z.shiftl_mul_pow2 by lia. change (2 ^ 4) with 16.
    assert (Z.land (i_level i * 16) (i_session i) = 0) as ->; [|lia]. apply Z.bits_inj'. intros b Hb. rewrite Z.land_spec, Z.bits_0.
    destruct (Z.ltb_spec b 4).
    - change 16 with (2 ^ 4). rewrite Z.mul_pow2_bits_low by lia. done.
    - rewrite (Z.bits_above_log2 (i_session i) b); [apply andb_false_r | lia|]. destruct (decide (i_session i = 0)) as [->|]; [cbn; lia|].
      apply Z.log2_lt_pow2; [lia|]. apply Z.lt_le_trans with (2 ^ 4); [lia|]. by apply Z.pow_le_mono_r. }
  change 15 with (2 ^ 4 - 1). change 7 with (2 ^ 3 - 1). rewrite Z.shiftr_div_pow2, !land_low by lia. change (2 ^ 4) with 16. change (2 ^ 3) with 8. lia.
Qed.

(** *** Levels *)

Lemma pw_level_spec m q H t d :
  carries q (H ++ text_octets t) → length H = 12%nat → INTERPRET_DACH (drop 4 H) = Some d →
  compare_pw_level m q = Some (d_level d - i32 (m_level m)).
Proof.
  intros Hc HH Hd. pose proof Hc as [Hn Hl Hlen (h0 & H0 & _ & _)]. unfold compare_pw_level.
  assert (Z.of_nat (length (H ++ text_octets t)) = 12 + Z.of_nat (String.length t)) as HL by (rewrite length_app, length_text_octets; lia).
  destruct (Z.ltb_spec (header_count q) 2); [lia|]. rewrite Hl, Hlen, HL. cbn [mbind option_bind negb]. change pw_header_len with 12.
  destruct (Z.ltb_spec (12 + Z.of_nat (String.length t)) 12); [lia|]. rewrite H0. cbn [mbind option_bind]. change (proto_len PROTO_ID_MPLS) with 4.
  rewrite (carries_load q _ h0 4 8 Hc H0) by lia. replace (slice (H ++ text_octets t) 4 (Z.of_nat 8)) with (drop 4 H).
  2: { unfold slice. change (Z.to_nat 4) with 4%nat. change (Z.to_nat (Z.of_nat 8)) with 8%nat. rewrite drop_app_le by lia.
       rewrite take_app_le by (rewrite length_drop; lia). by rewrite take_ge by (rewrite length_drop; lia). }
  cbn [mbind option_bind]. rewrite Hd. done.
Qed.

Lemma tsn_level_spec m q w (tagged : bool) x :
  carries q w → tagged = bool_decide (w !! 16%nat = Some 241 ∧ w !! 17%nat = Some 193) →
  (if tagged then 28 else 22) <= Z.of_nat (length w) → w !! Z.to_nat (if tagged then 24 else 18) = Some x →
  compare_tsn_level m q = Some (Z.shiftr x 5 - i32 (m_level m)).
Proof.
  intros Hc Htag HL Hx. pose proof Hc as [Hn Hl Hlen (h0 & H0 & _ & _)]. unfold compare_tsn_level.
  assert (22 <= Z.of_nat (length w)) as HL' by (destruct tagged; lia).
  destruct (Z.ltb_spec (header_count q) 2); [lia|]. rewrite Hl, Hlen. cbn [mbind option_bind negb]. change tsn_header_len with 18.
  destruct (Z.ltb_spec (Z.of_nat (length w)) 18); [lia|]. rewrite H0. cbn [mbind option_bind].
  change (proto_len PROTO_ID_CFM) with 4. change (proto_len PROTO_ID_ETH) with 14. change (proto_len PROTO_ID_CVLAN) with 4. change (proto_len PROTO_ID_RTAG) with 6.
  assert (has_rtag q (h_start h0 + 14) = Some tagged) as ->.
  { unfold has_rtag. replace (h_start h0 + 14 + 2) with (h_start h0 + 16) by lia. replace (h_start h0 + 14 + 3) with (h_start h0 + 17) by lia.
    rewrite !(carries_octet q w h0) by (done || lia). change (Z.to_nat 16) with 16%nat. change (Z.to_nat 17) with 17%nat.
    destruct (lookup_lt_is_Some_2 w 16) as [a Ha]; [lia|]. destruct (lookup_lt_is_Some_2 w 17) as [b Hb]; [lia|]. rewrite Ha, Hb in Htag |- *. cbn.
    rewrite Htag. f_equal. apply bool_decide_ext. split; [intros [-> ->]; done | intros [[= ->] [= ->]]; done]. }
  cbn [mbind option_bind]. destruct (Z.ltb_spec (Z.of_nat (length w)) (18 + 4 + (if tagged then 6 else 0))); [destruct tagged; lia|].
  replace (h_start h0 + 14 + 4 + (if tagged then 6 else 0)) with (h_start h0 + (if tagged then 24 else 18)) by (destruct tagged; lia).
  rewrite (carries_octet q w h0) by (done || (destruct tagged; lia)). rewrite Hx. done.
Qed.

Lemma srv6_level_spec m q w x :
  carries q w → (∃ h0 h1, hdr q 0 = Some h0 ∧ hdr q 1 = Some h1 ∧ h_start h1 = h_start h0 + 40) →
  w !! Z.to_nat 85 = Some x → compare_srv6_level m q = Some (Z.land (Z.shiftr x 4) 7 - i32 (m_level m)).
Proof.
  intros Hc (h0 & h1 & H0 & H1 & Hs) Hx. unfold compare_srv6_level, hdr_octet. pose proof (ca_count _ _ Hc).
  destruct (Z.ltb_spec (header_count q) 2); [lia|]. rewrite (ca_linear _ _ Hc), H1. cbn [mbind option_bind negb]. change (proto_len PROTO_ID_IPv6) with 40. rewrite Hs.
  replace (h_start h0 + 40 + (40 + 5)) with (h_start h0 + 85) by lia. apply lookup_lt_Some in Hx as Hlt. rewrite (carries_octet q w h0) by (done || lia). rewrite Hx. done.
Qed.

(** ** Delivery in each encapsulation *)

Definition message_text (m : OAM_MaintenancePoint) (msg : JsonTable) : option string :=
  json_serialize (JObject (if bool_decide (encap m = OAM_SRv6) then msg else without_ach msg)).

(** The octets [w] say to every point of the encapsulation what was sent. *)
Definition conveys (e : Sender) (m : OAM_MaintenancePoint) (i : Identification) (msg : JsonTable) (w : mem) : Prop :=
  ∀ q, carries q w → framed m q →
    (∃ js, mp_unpack_message m q = Some (Some js) ∧ parsed (JObject js) ∧ json_ok (JObject js) ∧ has_room js 10 ∧
      ∀ k, hashmap_find js k ≡ delivered e m i msg k) ∧
    ∀ m', encap m' = encap m → mp_compare_level m' q = Some (i_level i - i32 (m_level m')).

Section delivery.
Context (e : Sender) (m : OAM_MaintenancePoint) (req : OamRequest) (p : Packet) (msg : JsonTable) (mm : gmap string JsonValue).
Context (Hwf : packet_wf p) (Hlen : len p = 0) (Hpt : point_wf m) (Hid : id_wf (request_get_identification_data req)).
Context (Hmsg : holds msg mm) (Hdepth : map_Forall (λ _ v, height v <= JSON_MAX_RECURSION_DEPTH)%nat mm).
Context (Hroom : ∀ t, message_text m msg = Some t → 88 + Z.of_nat (String.length t) <= 10000).
Let i := request_get_identification_data req.

(** A short text has few items. *)
Lemma parsed_room t (js : JsonTable) :
  88 + Z.of_nat (String.length t) <= 10000 → json_parse t = POk (JObject js) → (short t → parsed (JObject js) ∧ json_ok (JObject js)) →
  parsed (JObject js) ∧ json_ok (JObject js) ∧ has_room js 20.
Proof.
  intros Hl Hp Hs. assert (short t) as Hst by (unfold short; lia). destruct (Hs Hst) as [H1 H2]. split_and!; [done | done|].
  destruct (json_parse_size t js Hp Hst) as (m' & Hr & Hsz). unfold has_room, hashmap_count. rewrite (rp_count _ _ Hr). lia.
Qed.

(** The headers are packed, then the payload. *)
Definition packs : Prop :=
  ∃ js p1 p2 w, mp_pack_message_header e m p req = Some (js, p1) ∧ mp_pack_message_payload e m p1 msg = Some (true, p2) ∧
    carries p2 w ∧ framed m p2 ∧ conveys e m i msg w.

Lemma header_items_ok : sender_wf e ∨ encap m ≠ OAM_SRv6 → Forall (λ x, no_nul x.1 = true ∧ moderate x.2) (header_items e m i).
Proof.
  intros Hs. destruct Hid as [Hn Hl Hss Hsq]. fold i in Hn, Hl, Hss, Hsq. unfold header_items.
  assert (∀ z, 0 <= z < 2 ^ 32 → moderate z) as Hm by (intros z Hz; unfold moderate; lia).
  destruct (encap m).
  - repeat constructor; cbn [fst snd]; try done; apply Hm; (lia || (vm_compute; split; discriminate || done) || (change (2 ^ 20) with 1048576; lia)).
  - apply Forall_app. split; [repeat constructor; cbn [fst snd]; try done; apply Hm; lia|]. case_bool_decide; repeat constructor; cbn [fst snd]; try done; apply Hm; lia.
  - destruct Hs as [[_ Hb]|]; [|done]. rewrite Forall_lookup in Hb. set (src := srv6_source _ _) in *. repeat constructor; cbn [fst snd]; try done; apply Hm; try lia.
    assert (∀ j, 0 <= default 0 (src !! j) < 256) as Hd by (intros j; destruct (src !! j) as [x|] eqn:E; cbn; [apply (Hb _ _ E) | lia]).
    pose proof (Hd 15%nat). pose proof (Hd 14%nat). rewrite Z.shiftl_mul_pow2 by lia. change (2 ^ 8) with 256. split; [apply Z.lor_nonneg; lia|].
    apply Z.log2_lt_cancel. rewrite Z.log2_lor by lia. change (Z.log2 (2 ^ 32)) with 32. apply Z.max_lub_lt.
    + eapply Z.le_lt_trans; [apply Z.log2_le_mono; instantiate (1 := 65535); lia | reflexivity].
    + eapply Z.le_lt_trans; [apply Z.log2_le_mono; instantiate (1 := 255); lia | reflexivity].
Qed.

(** The items that are read are those of the headers and the rest of the message. *)
Lemma items_delivered (js : JsonTable) l :
  hash_wf js → l = header_items e m i → sender_wf e ∨ encap m ≠ OAM_SRv6 →
  parsed (JObject js) ∧ json_ok (JObject js) ∧ has_room js 20 →
  (∀ k, hashmap_find js k ≡ if bool_decide (encap m ≠ OAM_SRv6 ∧ k ∈ ach_keys) then None else mm !! k) →
  NoDup l.*1 → parsed (JObject (insert_numbers l js)) ∧ json_ok (JObject (insert_numbers l js)) ∧ has_room (insert_numbers l js) 10 ∧
    ∀ k, hashmap_find (insert_numbers l js) k ≡ delivered e m i msg k.
Proof.
  intros Hw -> Hs (Hpd & Hok & Hrm) Hjs Hnd.
  assert (length (header_items e m i) <= 7)%nat as Hlen7 by (unfold header_items; destruct (encap m); [cbn; lia | rewrite length_app; case_bool_decide; cbn; lia | cbn; lia]).
  destruct (insert_numbers_ok (header_items e m i) js (20 - Z.of_nat (length (header_items e m i))) Hok Hpd) as (Hok' & Hpd' & Hrm').
  { unfold has_room in *. lia. }
  { lia. }
  { by apply header_items_ok. }
  split_and!; [done | done | unfold has_room in *; lia|]. intros k. rewrite insert_numbers_find by done. unfold delivered. destruct (chain_find k (header_items e m i)) as [z|]; [done|].
  rewrite Hjs. by rewrite (rp_find _ _ (ho_repr _ _ Hmsg)).
Qed.

Lemma ach_text : encap m ≠ OAM_SRv6 →
  ∃ t js, json_serialize (JObject (without_ach msg)) = Some t ∧ 88 + Z.of_nat (String.length t) <= 10000 ∧ json_parse t = POk (JObject js) ∧ hash_wf js ∧
    (∀ k, hashmap_find js k ≡ if bool_decide (encap m ≠ OAM_SRv6 ∧ k ∈ ach_keys) then None else mm !! k) ∧
    parsed (JObject js) ∧ json_ok (JObject js) ∧ has_room js 20.
Proof.
  intros He. destruct (copy_without_text msg mm ach_keys Hmsg Hdepth) as (d & Ed & t & js & Ht & Hp & Hw & Hf & Hpd).
  assert (json_serialize (JObject (without_ach msg)) = Some t) as Et by (unfold without_ach; rewrite Ed; exact Ht).
  assert (88 + Z.of_nat (String.length t) <= 10000) as Hlt by (apply Hroom; unfold message_text; by rewrite bool_decide_eq_false_2).
  exists t, js. split; [done|]. split; [done|]. split; [done|]. split; [done|]. split; [|by eapply parsed_room].
  intros k. rewrite Hf. by rewrite (bool_decide_ext (encap m ≠ OAM_SRv6 ∧ k ∈ ach_keys) (k ∈ ach_keys)) by tauto.
Qed.

Lemma pw_packs : encap m = OAM_PW → packs.
Proof.
  intros He. pose proof Hpt as Hpt'. unfold point_wf in Hpt'. rewrite He in Hpt'.
  destruct (label (pw_address m)) as [|l0 [|l1 [|l2 [|l3 [|? ?]]]]] eqn:El; try discriminate Hpt'.
  destruct (ach_text ltac:(rewrite He; done)) as (t & js & Ht & Hr & Hp & Hw & Hf & Hjs).
  destruct (pw_header_spec m p req (s_now e) l0 l1 l2 l3 Hwf Hlen El) as (p1 & E1 & Hl1 & Hs1). fold i in Hs1.
  destruct (laid_ready p1 _ Hl1 ltac:(cbn; lia)) as (h0 & Hrdy & H0).
  destruct (pw_payload_spec p1 h0 msg t Hrdy Ht) as (p2 & E2 & Hc2 & _); [rewrite (la_buf _ _ Hl1); lia | lia|]. rewrite H0, Hs1 in Hc2.
  unfold packs, mp_pack_message_header, mp_pack_message_payload. rewrite He. do 4 eexists. split; [exact E1|]. split; [exact E2|]. split; [exact Hc2|].
  split; [by unfold framed; rewrite He|]. intros q Hq _. split.
  - unfold mp_unpack_message. rewrite He. eexists. split; [eapply (pw_unpack_spec q _ t _ js Hq); [done | exact (pw_dach i Hid) | done]|].
    apply items_delivered; [done | | right; by rewrite He | done | done | by apply (bool_decide_unpack _); vm_compute]. unfold header_items. by rewrite He.
  - intros m' He'. unfold mp_compare_level. rewrite He', He. by rewrite (pw_level_spec m' q _ t _ Hq eq_refl (pw_dach i Hid)).
Qed.

Lemma tsn_packs : encap m = OAM_TSN → packs.
Proof.
  intros He. pose proof Hpt as Hpt'. unfold point_wf in Hpt'. rewrite He in Hpt'. destruct Hpt' as (Hd & Hv & tag & Htag & Hst).
  destruct (dmac (tsn_address m)) as [|d0 [|d1 [|d2 [|d3 [|d4 [|d5 [|? ?]]]]]]] eqn:Ed; try discriminate Hd.
  destruct (vlan (tsn_address m)) as [|v0 [|v1 [|? ?]]] eqn:Ev; try discriminate Hv.
  destruct (ach_text ltac:(rewrite He; done)) as (t & js & Ht & Hr & Hp & Hw & Hf & Hjs).
  destruct (tsn_header_spec m p req (s_now e) tag d0 d1 d2 d3 d4 d5 v0 v1 Hwf Hlen Ed Ev Htag) as [Htagged Hplain].
  fold i in Htagged, Hplain. set (eth := tsn_eth_octets _ _ _) in *.
  assert (length eth = 14%nat ∧ slice eth 8 4 = [Z.land (Z.shiftr (i_nodeid i) 24) 255; Z.land (Z.shiftr (i_nodeid i) 16) 255; Z.land (Z.shiftr (i_nodeid i) 8) 255; Z.land (i_nodeid i) 255]) as [He14 He8].
  { unfold eth, tsn_eth_octets. rewrite Ed. by destruct (negb _). }
  assert (∀ r, slice (eth ++ r) 8 4 = slice eth 8 4) as He8'.
  { intros r. unfold slice. change (Z.to_nat 8) with 8%nat. change (Z.to_nat 4) with 4%nat. rewrite drop_app_le by lia. by rewrite take_app_le by (rewrite length_drop; lia). }
  assert (∀ r, length r = 4%nat → (eth ++ r) !! 16%nat = r !! 2%nat ∧ (eth ++ r) !! 17%nat = r !! 3%nat) as Hty.
  { intros r _. rewrite !lookup_app_r by lia. by rewrite He14. }
  unfold packs, mp_pack_message_header, mp_pack_message_payload. rewrite He.
  destruct Hst as [Hst|Hst].
  - destruct (Htagged Hst) as (p1 & E1 & Hl1 & Hs1). destruct (laid_ready p1 _ Hl1 ltac:(cbn; lia)) as (h0 & Hrdy & H0).
    assert (stack_len (m_protostack m) = Some 24) as Hsl by (rewrite Hst; destruct Htag as [-> | ->]; reflexivity).
    destruct (tsn_payload_spec m p1 h0 msg t 24 Hrdy Ht Hsl) as (p2 & E2 & Hc2 & _); [lia | rewrite (la_buf _ _ Hl1); lia | lia|].
    rewrite H0 in Hc2. change (24 + 5) with 29 in Hc2. rewrite Hs1, <- !app_assoc in Hc2. rewrite (app_assoc eth) in Hc2.
    destruct (Hty [v0; v1; 241; 193] eq_refl) as [Hty2 Hty3].
    do 4 eexists. split; [exact E1|]. split; [exact E2|]. split; [exact Hc2|]. split; [by unfold framed; rewrite He|]. intros q Hq _. split.
    + unfold mp_unpack_message. rewrite He. eexists. split.
      { eapply (tsn_unpack_spec q (eth ++ [v0; v1; 241; 193]) (tsn_rtag_octets i) (take 5 (tsn_cfm_octets i)) t js true); try done.
        - rewrite length_app, He14. done.
        - rewrite Hty2, Hty3. by rewrite bool_decide_eq_true_2. }
      rewrite He8', He8, (tsn_nodeid_octets (i_nodeid i) (iw_node _ Hid)), (cfm_level (i_level i) (iw_level _ Hid)). cbv zeta iota.
      rewrite !(low_bits (i_session i) (iw_session _ Hid)).
      unfold insert_numbers. rewrite <- foldl_app. apply items_delivered; [done | | right; by rewrite He | done | done | by apply (bool_decide_unpack _); vm_compute].
      unfold header_items. rewrite He, Hst. by rewrite bool_decide_eq_true_2.
    + intros m' He'. unfold mp_compare_level. rewrite He', He. rewrite (tsn_level_spec m' q _ true (Z.land (Z.shiftl (i_level i) 5) 255) Hq).
      * by rewrite (cfm_level (i_level i) (iw_level _ Hid)).
      * rewrite !(lookup_app_l (eth ++ _)) by (rewrite length_app, He14; cbn; lia). rewrite Hty2, Hty3. by rewrite bool_decide_eq_true_2.
      * rewrite !length_app, He14, length_tlv. cbn. lia.
      * change (Z.to_nat 24) with 24%nat. rewrite lookup_app_r by (rewrite length_app, He14; cbn; lia). rewrite length_app, He14. done.
  - destruct (Hplain Hst) as (p1 & E1 & Hl1 & Hs1). destruct (laid_ready p1 _ Hl1 ltac:(cbn; lia)) as (h0 & Hrdy & H0).
    assert (stack_len (m_protostack m) = Some 18) as Hsl by (rewrite Hst; destruct Htag as [-> | ->]; reflexivity).
    destruct (tsn_payload_spec m p1 h0 msg t 18 Hrdy Ht Hsl) as (p2 & E2 & Hc2 & _); [lia | rewrite (la_buf _ _ Hl1); lia | lia|].
    rewrite H0 in Hc2. change (18 + 5) with 23 in Hc2. rewrite Hs1, <- !app_assoc in Hc2. rewrite (app_assoc eth) in Hc2.
    destruct (Hty [v0; v1; 137; 2] eq_refl) as [Hty2 Hty3].
    do 4 eexists. split; [exact E1|]. split; [exact E2|]. split; [exact Hc2|]. split; [by unfold framed; rewrite He|]. intros q Hq _. split.
    + unfold mp_unpack_message. rewrite He. eexists. split.
      { eapply (tsn_unpack_spec q (eth ++ [v0; v1; 137; 2]) [] (take 5 (tsn_cfm_octets i)) t js false _ 0 0); try done.
        - rewrite length_app, He14. done.
        - rewrite Hty2, Hty3. by rewrite bool_decide_eq_false_2 by (intros [[=] _]). }
      rewrite He8', He8, (tsn_nodeid_octets (i_nodeid i) (iw_node _ Hid)), (cfm_level (i_level i) (iw_level _ Hid)). cbv zeta iota.
      apply items_delivered; [done | | right; by rewrite He | done | done | by apply (bool_decide_unpack _); vm_compute].
      unfold header_items. rewrite He, Hst. by rewrite bool_decide_eq_false_2 by (intros [=]).
    + intros m' He'. unfold mp_compare_level. rewrite He', He. rewrite (tsn_level_spec m' q _ false (Z.land (Z.shiftl (i_level i) 5) 255) Hq).
      * by rewrite (cfm_level (i_level i) (iw_level _ Hid)).
      * rewrite !(lookup_app_l (eth ++ _)) by (rewrite length_app, He14; cbn; lia). rewrite Hty2, Hty3. by rewrite bool_decide_eq_false_2 by (intros [[=] _]).
      * rewrite !length_app, He14, length_tlv. cbn. lia.
      * change (Z.to_nat 18) with 18%nat. rewrite lookup_app_r by (rewrite length_app, He14; cbn; lia). rewrite length_app, He14. done.
Qed.

Lemma srv6_packs : sender_wf e → encap m = OAM_SRv6 → packs.
Proof.
  intros Hsw He. pose proof Hpt as Hpt'. unfold point_wf in Hpt'. rewrite He in Hpt'.
  destruct (object_text msg mm Hmsg Hdepth) as (t & js & Ht & Hp & Hw & Hf & Hpd).
  assert (88 + Z.of_nat (String.length t) <= 10000) as Hr by (apply Hroom; unfold message_text; by rewrite bool_decide_eq_true_2).
  pose proof (parsed_room t js Hr Hp Hpd) as Hjs.
  destruct (srv6_header_spec (s_oamif e) (s_stack e) m p req (s_now e) _ Hwf Hlen Hpt' eq_refl (proj1 Hsw)) as (p1 & E1 & Hl1 & B6 & B46 & B62 & B63 & B85 & B87).
  fold i in B85, B87. set (src := srv6_source _ _) in *.
  destruct (srv6_payload_spec (s_base e) p1 msg t Hl1 Ht Hr) as (p2 & w & E2 & Hc2 & Hcount & Hfr & Hwl & Hwt & Hwk).
  destruct (lookup_lt_is_Some_2 src 14) as [n22 H22]; [destruct Hsw as [Hsw _]; fold src in Hsw; lia|].
  destruct (lookup_lt_is_Some_2 src 15) as [n23 H23]; [destruct Hsw as [Hsw _]; fold src in Hsw; lia|].
  unfold packs, mp_pack_message_header, mp_pack_message_payload. rewrite He. do 4 eexists. split; [exact E1|]. split; [exact E2|]. split; [exact Hc2|].
  split; [unfold framed; rewrite He; split; [lia | exact Hfr]|]. intros q Hq Hfq. unfold framed in Hfq. rewrite He in Hfq. destruct Hfq as [Hq3 Hqh].
  destruct (srv6_identifier_fields i Hid) as [Hi1 Hi2]. assert (w !! Z.to_nat 85 = Some (srv6_identifier i)) as W85 by (rewrite Hwk by lia; exact B85). split.
  - unfold mp_unpack_message. rewrite He. eexists. split.
    { eapply (srv6_unpack_spec q w t js n22 n23 (srv6_identifier i) (i_seq i) Hq Hq3 Hqh Hwl Hwt); try done; rewrite Hwk by lia; try done; [by rewrite <- H22 | by rewrite <- H23]. }
    rewrite Hi1, Hi2. apply items_delivered; [done | | by left | done | | by apply (bool_decide_unpack _); vm_compute].
    + unfold header_items. rewrite He. fold src. by rewrite H22, H23.
    + intros k. rewrite Hf. by rewrite bool_decide_eq_false_2 by (intros [? _]; done).
  - intros m' He'. unfold mp_compare_level. rewrite He', He. rewrite (srv6_level_spec m' q w _ Hq Hqh W85). by rewrite Hi2.
Qed.

End delivery.

(** The three cases together. *)
Lemma all_packs e m req p msg :
  packet_wf p → len p = 0 → point_wf m → sender_wf e → id_wf (request_get_identification_data req) →
  json_ok (JObject msg) → (height (JObject msg) <= S JSON_MAX_RECURSION_DEPTH)%nat →
  (∀ t, message_text m msg = Some t → 88 + Z.of_nat (String.length t) <= PACKET_BUF_LEN) →
  packs e m req p msg.
Proof.
  intros Hwf Hlen Hpt Hsw Hid Hok Hh Hroom. apply json_ok_object in Hok as (mm & Hmsg). apply (height_map msg mm) in Hh; [|apply Hmsg].
  destruct (encap m) eqn:He; [eapply pw_packs | eapply tsn_packs | eapply srv6_packs]; done.
Qed.

(** C33: OAM messages are delivered.  A request packed for a maintenance point
    of any encapsulation, with a message that fits into a packet, is a packet
    whose octets say the same to every receiver of the encapsulation that holds
    them, however its headers are identified: the receiver sees the level of the
    request and reads the message from the payload, and from the headers it
    reads what the encapsulation carries of the identification.  That is the
    session and the number, except over TSN without an R-TAG, which has neither;
    and the node: the whole node over TSN, its low 20 bits over pseudo-wires,
    the node that the source address names over SRv6. *)
Theorem message_delivered e m req p msg :
  packet_wf p → len p = 0 → point_wf m → sender_wf e → id_wf (request_get_identification_data req) →
  json_ok (JObject msg) → (height (JObject msg) <= S JSON_MAX_RECURSION_DEPTH)%nat →
  (∀ t, message_text m msg = Some t → 88 + Z.of_nat (String.length t) <= PACKET_BUF_LEN) →
  ∃ js p1 p2 w, mp_pack_message_header e m p req = Some (js, p1) ∧ mp_pack_message_payload e m p1 msg = Some (true, p2) ∧
    carries p2 w ∧ framed m p2 ∧ conveys e m (request_get_identification_data req) msg w.
Proof. apply all_packs. Qed.

(** ** A header that was deleted in front of the message *)

(** A message received behind another header, which the pipeline has deleted:
    14 octets in front of the label. *)
Definition behind_ethernet : Packet :=
  let p := (new_packet None (mk_pool 0 0)).1 in
  p <| len := 28 |> <| buf := put (buf p) 1024 (replicate 14 0 ++ [0; 0; 1; 64] ++ [16; 0; 127; 255; 0; 0; 0; 0] ++ text_octets "{}") |>
    <| headers := [mk_header PROTO_ID_MPLS 1038 4; mk_header PROTO_ID_OAM 1042 8; mk_header PROTO_ID_PAYLOAD 1050 2] ++ replicate 17 no_header |>
    <| header_count := 3 |>.

(** The message is read, but when it is packed again the packet loses as many
    octets as the deleted header had. *)
Lemma repack_truncates :
  (if unpack_pw_message behind_ethernet is Some (Some _) then true else false) = true ∧
  ∃ p, pack_pw_payload behind_ethernet empty_object = Some (true, p) ∧ packet_length behind_ethernet = 14 ∧ packet_length p = 0.
Proof. split; [vm_compute; reflexivity|]. eexists. split; [vm_compute; reflexivity|]. split; vm_compute; reflexivity. Qed.

(** ** Witness *)

Definition sample_point : OAM_MaintenancePoint :=
  mk_mp "mep" "stream" Assemble.Asm.OAM_Start OAM_PW 3 1 [] [PROTO_ID_MPLS; PROTO_ID_DCW; PROTO_ID_PAYLOAD]
    (mk_sid (replicate 8 0) ConfActions.ConfA.OAM_FROM_Unknown) (mk_pw [1; 2; 48; 0] ConfActions.ConfA.OAM_FROM_Edit) no_address true None 0 0 0 0 false false false.

Definition sample_request : OamRequest :=
  mk_request "ping" empty_object 64 5 7 3 99999 (Some 0%nat) "peer" false false false 1 false 1000 false None None 0 None.

Definition sample_sender : Sender := mk_sender (Some "::1") [] 0 (mk_timespec 1700000000 5).

Definition sample_message : JsonTable := json_object_insert (json_object_insert empty_object "type" (JString (Some "ping"))) "level" JTrue.

Lemma sample_message_ok : holds sample_message (<["level" := JTrue]> (<["type" := JString (Some "ping")]> ∅)).
Proof.
  apply insert_holds; [apply insert_holds; [apply empty_holds | | by split] | | by split].
  - rewrite map_size_empty. lia.
  - rewrite map_size_insert, map_size_empty, lookup_empty. cbn. lia.
Qed.

Lemma message_delivered_witness :
  ∃ js p1 p2 w, mp_pack_message_header sample_sender sample_point (new_packet None (mk_pool 0 0)).1 sample_request = Some (js, p1) ∧
    mp_pack_message_payload sample_sender sample_point p1 sample_message = Some (true, p2) ∧ carries p2 w ∧ framed sample_point p2 ∧
    conveys sample_sender sample_point (request_get_identification_data sample_request) sample_message w.
Proof.
  apply (message_delivered sample_sender sample_point sample_request).
  - apply alloc_wf. unfold zero_buf. by rewrite length_replicate.
  - reflexivity.
  - reflexivity.
  - split; [vm_compute; reflexivity|]. vm_compute. repeat constructor; discriminate || done.
  - split; (split; [apply Z.leb_le | apply Z.ltb_lt]; vm_compute; reflexivity).
  - apply json_ok_object. eexists. exact sample_message_ok.
  - apply Nat.leb_le. vm_compute. reflexivity.
  - intros t Ht. vm_compute in Ht. injection Ht as <-. apply Z.leb_le. vm_compute. reflexivity.
Defined.

End Wire.
