(* ===== verification/ObjState.v ===== *)
(** * The states that objects report (seq_gen.c, seq_recov.c, pof.c, replicate.c, pipeline.c)

    The [get_state] callbacks of the four object types: JSON objects with the
    name, the type and the counters of an object. *)

From S2P Require Import Prelude TimeUtils Packet SeqGen SeqRecov Pof Object Pipeline CString HashMap Double Json OamCodec.
From Stdlib Require Import Ascii QArith.

Module OState.
Import CStr HMap Dbl Json Codec.

#[local] Open Scope string_scope.
#[local] Open Scope list_scope.
#[local] Open Scope Z_scope.


Definition object_of (l : list (string * JsonValue)) : JsonTable := foldl (λ js x, json_object_insert js x.1 x.2) empty_object l.

Definition text (s : string) : JsonValue := json_string (Some s).

(** [(x / NSEC_PER_SEC) * 1000] in double precision. *)
Definition dround (q : Q) : Q := match round_double false q with Dnum _ m e => dval m e | _ => q end.
Definition msec_number (t : Time.timespec) : JsonValue :=
  let ns := dround (inject_Z (Time.tv_sec t * 1000000000 + Time.tv_nsec t)) in
  json_number (round_double false (Qmult (dround (Qdiv ns (inject_Z 1000000000))) (inject_Z 1000))).

Section states.
Import Gen.

Definition sgen_get_state_json (g : SequenceGenerator) : JsonTable :=
  object_of ([("type", text "seqgen"); ("name", text (name g)); ("use_init_flag", json_bool (use_init_flag g));
              ("use_reset_flag", json_bool (use_reset_flag g)); ("seq", int_number (gen_seq_num g))]
             ++ (if use_reset_flag g then [("resets", int_number (resets g))] else [])).

End states.

Section rec.
Import Rcvy.

Definition algorithm_name (a : SequenceRecoveryAlgorithm) : string :=
  match a with RCVY_Match => "match" | RCVY_Vector => "vector" | RCVY_SeamlessVector => "seamless_vector" end.

(** The text ends at the first element that is neither 0 nor 1. *)
Fixpoint history_text (l : mem) : string :=
  match l with
  | [] => EmptyString
  | x :: l => if x =? 1 then String "1"%char (history_text l) else if x =? 0 then String "0"%char (history_text l) else EmptyString
  end.

(** [debug]: debug logging of the module is enabled. *)
Definition srec_get_state_json (debug : bool) (r : SequenceRecovery) : JsonTable :=
  object_of ([("type", text "seqrec"); ("name", text (name r)); ("recovery_algorithm", text (algorithm_name (algorithm (conf r))));
              ("reset_msec", int_number (reset_msec (conf r))); ("recovery_seq_num", int_number (recv_seq (win r)));
              ("passed_packets", int_number (passed_packets (cnt r))); ("discarded_packets", int_number (discarded_packets (cnt r)));
              ("out_of_order_packets", int_number (out_of_order_packets (cnt r))); ("rogue_packets", int_number (rogue_packets (cnt r)));
              ("seq_recovery_resets", int_number (seq_recovery_resets r))]
             ++ (if algorithm (conf r) is RCVY_Match then [] else
                   [("use_init_flag", json_bool (use_init_flag (conf r))); ("use_reset_flag", json_bool (use_reset_flag (conf r)));
                    ("recovery_init_seq_num", int_number (recv_seq (init_win r))); ("history_length", int_number (history_length (conf r)));
                    ("latent_error_paths", int_number (latent_error_paths (lat r))); ("latent_error_resets", int_number (latent_error_resets (lat r)));
                    ("latent_errors", int_number (latent_errors (lat r)))]
                   ++ (if debug then [("history", text (history_text (take (Z.to_nat (history_length (conf r))) (history (win r)))))] else []))).

End rec.

(** The name is in the part of the object that all types share. *)
Definition pof_get_state_json (name : string) (q : POF.Pof) : JsonTable :=
  object_of [("type", text "pof"); ("name", text name); ("max_buffer_length", int_number (POF.queue_max_len q));
             ("max_delay", msec_number (POF.pof_max_delay q)); ("last_sent", int_number (POF.pof_last_sent q));
             ("current_buffer_length", int_number (POF.queue_len q)); ("take_any_time", msec_number (POF.pof_take_any_time q))].

Definition pipe_get_state (p : Pipe.Pipeline) : JsonValue :=
  JObject (object_of [("name", text (Pipe.pl_name p)); ("mask_state", text (if Pipe.mask p then "masked" else "unmasked"));
                      ("action_count", int_number (Z.of_nat (length (Pipe.actions p))))]).

(** [pipes] are the pipelines by their handles; a deleted one is no pipeline. *)
Definition repl_get_state_json (pipes : nat → option Pipe.Pipeline) (name : string) (r : Obj.Replicate) : option JsonTable :=
  ps ← mapM pipes (Obj.r_pipes r);
  Some (object_of [("type", text "replicate"); ("name", text name); ("packets_passed", int_number (Obj.packets_passed r));
                   ("octets_passed", int_number (Obj.octets_passed r));
                   ("pipelines", JArray (foldl (λ l p, json_array_push l (pipe_get_state p)) [] ps))]).

(** The call through the method table. *)
Definition get_state (debug : bool) (pipes : nat → option Pipe.Pipeline) (name : string) (o : Obj.PipelineObject) : option JsonTable :=
  match o with
  | Obj.PIPEOBJ_SEQGEN g => Some (sgen_get_state_json g)
  | Obj.PIPEOBJ_SEQREC r => Some (srec_get_state_json debug (Rcvy.main_rec r))
  | Obj.PIPEOBJ_POF q => Some (pof_get_state_json name q)
  | Obj.PIPEOBJ_REPL r => repl_get_state_json pipes name r
  end.

End OState.
