(* ===== verification/Notification.v ===== *)
(** * Notifications (notification.c, the message queue of thread_utils.c)

    Components push events into a queue and register as sources that are asked
    periodically; a thread makes messages of them and sends them through a
    pipeline, in fragments when they are long.  The numbers of the messages, the
    fragments and the times at which sources are asked are right. *)

From stdpp Require Import pretty.
From S2P Require Import Prelude TimeUtils Protocol Packet Object Pipeline CString HashMap Double Json JsonText JsonRound JsonObject ConfActions Assemble OamMp OamCodec ObjState.
From Stdlib Require Import Ascii QArith.

Module Notif.
Import Time CStr HMap Dbl Json JText JRound Codec OState.

#[local] Open Scope string_scope.
#[local] Open Scope list_scope.
#[local] Open Scope Z_scope.

(** ** Levels *)

Inductive NotificationLevel := NOTIF_NONE | NOTIF_ERROR | NOTIF_WARNING | NOTIF_INFO | NOTIF_PULL | NOTIF_ALL.

#[global] Instance level_eq_dec : EqDecision NotificationLevel.
Proof. solve_decision. Defined.

Definition level_code (l : NotificationLevel) : Z :=
  match l with NOTIF_NONE => 0 | NOTIF_ERROR => 1 | NOTIF_WARNING => 2 | NOTIF_INFO => 3 | NOTIF_PULL => 4 | NOTIF_ALL => 5 end.

Definition levels : list NotificationLevel := [NOTIF_NONE; NOTIF_ERROR; NOTIF_WARNING; NOTIF_INFO; NOTIF_PULL; NOTIF_ALL].

Definition notification_string_from_level (l : NotificationLevel) : string :=
  match l with
  | NOTIF_NONE => "NONE" | NOTIF_ERROR => "ERROR" | NOTIF_WARNING => "WARNING"
  | NOTIF_INFO => "INFO" | NOTIF_PULL => "PULL" | NOTIF_ALL => "ALL"
  end.

Definition notification_level_valid (level : string) : bool :=
  existsb (λ l, bool_decide (level = notification_string_from_level l)) levels.

Definition notification_level_from_string (level : option string) : NotificationLevel :=
  match level with
  | None => NOTIF_NONE
  | Some s => match list_find (λ l, s = notification_string_from_level l) levels with Some (_, l) => l | None => NOTIF_NONE end
  end.

Lemma level_roundtrip l : notification_level_from_string (Some (notification_string_from_level l)) = l ∧ notification_level_valid (notification_string_from_level l) = true.
Proof. by destruct l. Qed.

(** ** State *)

Record NotificationMessage := mk_nmsg { nm_source : string; nm_level : NotificationLevel; nm_message : option JsonValue }.

(** A source has its period; what it answers is an argument of the round.  [None]
    for the table and the queue is NULL. *)
Record Notification := mk_notif {
  sources : option (HashMap (V := Z));
  notif_q : option (list NotificationMessage);
  log_level : NotificationLevel;
  submit_level : NotificationLevel;
  notif_seq : Z;
  notif_sessionid : Z;
  pull_enabled : bool;
  myhostname : option string;
  notification_pipe : bool
}.

#[global] Instance eta_notif : Eta Notification := λ n,
  mk_notif (sources n) (notif_q n) (log_level n) (submit_level n) (notif_seq n) (notif_sessionid n) (pull_enabled n) (myhostname n) (notification_pipe n).

(** ** Messages *)

Definition MAX_NOTIFICATION_LEN : Z := 1200.

Definition tstamp_number (now : timespec) : JsonValue :=
  json_number (round_double false (Qplus (inject_Z (tv_sec now)) (dround (Qdiv (inject_Z (tv_nsec now)) (inject_Z 1000000000))))).

(** The items of every packet of a message. *)
Definition message_head (n : Notification) (hostname : string) (now : timespec) : JsonTable :=
  object_of [("notif_session", int_number (notif_sessionid n)); ("notif_seq", int_number (notif_seq n)); ("notif_tstamp", tstamp_number now);
             ("notif_hostname", text (default hostname (myhostname n)))].

(** A quote takes two characters. *)
Definition char_weight (c : ascii) : Z := if code c =? 34 then 2 else 1.

Fixpoint text_weight (s : string) : Z := match s with EmptyString => 0 | String c s => char_weight c + text_weight s end.

(** The characters of a fragment and the rest; [w] is [l + q]. *)
Fixpoint cut_fragment (w : Z) (s : string) : string * string :=
  match s with
  | EmptyString => ("", "")
  | String c t =>
      if w <? MAX_NOTIFICATION_LEN then let '(a, b) := cut_fragment (w + char_weight c) t in (String c a, b)
      else ("", s)
  end.

Definition fragment_label (i n : Z) : string := pretty i +:+ "/" +:+ pretty n.

(** The loop over the fragments changes two items of the packet. *)
Fixpoint send_fragments (k : nat) (i n : Z) (pkt : JsonTable) (msg : string) : list JsonTable :=
  match k with
  | O => []
  | S k =>
      let '(frag, rest) := cut_fragment 0 msg in
      let pkt := json_object_insert (json_object_insert pkt "notif_fragment" (text (fragment_label (i + 1) n))) "notif_msg" (text frag) in
      pkt :: send_fragments k (i + 1) n pkt rest
  end.

(** The objects whose texts are sent for a message; the weight of the text is
    [len + quotes]. *)
Definition send_notification_message (n : Notification) (hostname : string) (now : timespec) (msg : string) : list JsonTable * Notification :=
  let pkt := message_head n hostname now in
  let n := n <| notif_seq := u32 (notif_seq n + 1) |> in
  let total := u32 (text_weight msg) in
  if total <=? MAX_NOTIFICATION_LEN then ([json_object_insert pkt "notif_msg" (text msg)], n)
  else
    let fragments := total / MAX_NOTIFICATION_LEN in
    let fragments := fragments + (if total >? fragments * MAX_NOTIFICATION_LEN then 1 else 0) in
    (send_fragments (Z.to_nat fragments) 0 fragments pkt msg, n).

(** ** The thread *)

Definition DEFAULT_TIMEOUT : Z := 2000000.

Definition period_of (n : Notification) : Z :=
  match sources n with Some t => if negb (hashmap_count t =? 0) then DEFAULT_TIMEOUT else 0 | None => 0 end.

(** The local variables of the thread. *)
Record Cycle := mk_cycle { period_us : Z; next_wake : timespec; timeout_us : Z }.

Definition next_even_second (now : timespec) : timespec :=
  let s := tv_sec now + 1 in mk_timespec (s + Z.rem s 2) 0.

Definition thread_start (n : Notification) (now : timespec) : Cycle :=
  let p := period_of n in
  if p >? 0 then let nw := next_even_second now in mk_cycle p nw (time_diff_us nw now) else mk_cycle p (mk_timespec 0 0) (-1).

(** The message that was popped changes the period, ends the thread ([None]) or
    is sent; the answer is also what is sent. *)
Definition push_message (n : Notification) (m : NotificationMessage) : option string :=
  if (level_code (nm_level m) <=? level_code (submit_level n)) && notification_pipe n then
    json_serialize (JObject (json_object_insert (json_object_insert empty_object (nm_source m) (default JNull (nm_message m))) "push_level"
      (text (notification_string_from_level (nm_level m)))))
  else None.

Definition after_message (c : Cycle) (now : timespec) : Cycle :=
  mk_cycle (period_us c) (next_wake c) (if period_us c >? 0 then Z.max 0 (time_diff_us (next_wake c) now) else -1).

Definition after_timeout (c : Cycle) (now : timespec) : Cycle :=
  let nw := time_add_us (next_wake c) (period_us c) in
  let t := time_diff_us nw now in
  if t <? 0 then let nw := next_even_second now in mk_cycle (period_us c) nw (time_diff_us nw now)
  else mk_cycle (period_us c) nw t.

Definition register_cycle (n : Notification) (c : Cycle) (now : timespec) : Cycle :=
  let p := period_of n in
  let nw := if (p >? 0) && (period_us c =? 0) then mk_timespec (tv_sec now + Z.rem (tv_sec now) 2) 0 else next_wake c in
  mk_cycle p nw (timeout_us c).

(** What the sources answer, by their names. *)
Definition pull_message (n : Notification) (pull : string → option JsonValue) : option string :=
  if pull_enabled n && notification_pipe n then
    let l := omap (λ x, (λ js, (x.1, js)) <$> pull x.1) (default [] (items <$> sources n)) in
    if bool_decide (l = []) then None else json_serialize (JObject (object_of l))
  else None.

(** A round of the thread: what it popped, and the clock at the start, when a
    message is sent and at the end. *)
Definition notification_round (n : Notification) (c : Cycle) (popped : option NotificationMessage) (pull : string → option JsonValue)
    (hostname : string) (t1 t2 t3 : timespec) : list JsonTable * Notification * option Cycle :=
  match popped with
  | Some m =>
      if bool_decide (nm_source m = "notification_register_source") then ([], n, Some (after_message (register_cycle n c t1) t3))
      else if bool_decide (nm_source m = "notification_shutdown") then ([], n, None)
      else
        let '(out, n) := match push_message n m with Some msg => send_notification_message n hostname t2 msg | None => ([], n) end in
        (out, n, Some (after_message c t3))
  | None =>
      let '(out, n) := match pull_message n pull with Some msg => send_notification_message n hostname t2 msg | None => ([], n) end in
      (out, n, Some (after_timeout c t3))
  end.

(** ** The interface of the component *)

Definition new_sources : HashMap (V := Z) := mk_hash (replicate 13 []) 0.

Definition push_q (m : NotificationMessage) (n : Notification) : Notification := n <| notif_q := (λ q, q ++ [m]) <$> notif_q n |>.

(** [period] is [None] for a NULL callback, which removes the source. *)
Definition notification_register_source (name : string) (period : option Z) (n : Notification) : bool * Notification :=
  match sources n, period with
  | None, None => (true, n)
  | _, _ =>
      let t := default new_sources (sources n) in
      let n := n <| sources := Some t |> in
      match hashmap_find t name, period with
      | Some _, Some _ | None, None => (false, n)
      | None, Some p => (true, push_q (mk_nmsg "notification_register_source" NOTIF_NONE None) (n <| sources := Some (hashmap_insert t name p).1.2 |>))
      | Some _, None => (true, push_q (mk_nmsg "notification_register_source" NOTIF_NONE None) (n <| sources := Some (hashmap_remove t name).1.2 |>))
      end
  end.

Definition notification_push_event (source : string) (level : NotificationLevel) (message : JsonValue) (n : Notification) : bool * Notification :=
  match notif_q n with None => (false, n) | Some _ => (true, push_q (mk_nmsg source level (Some message)) n) end.

Definition messagequeue_pop (n : Notification) : option NotificationMessage * Notification :=
  match notif_q n with Some (m :: q) => (Some m, n <| notif_q := Some q |>) | _ => (None, n) end.

(** [pipe] is whether the configuration has the stream; [None] when its actions
    cannot be assembled.  The thread starts with [thread_start]. *)
Definition init_notification (session : Z) (pipe : option bool) (n : Notification) : bool * Notification :=
  let n := n <| notif_sessionid := session |> in
  match pipe with
  | None => (false, n <| notification_pipe := false |>)
  | Some p => (true, n <| notification_pipe := p || notification_pipe n |> <| sources := Some (default new_sources (sources n)) |> <| notif_q := Some [] |>)
  end.

(** The message that ends the thread, and what follows when it has ended. *)
Definition notification_shutdown (n : Notification) : Notification := push_q (mk_nmsg "notification_shutdown" NOTIF_NONE None) n.

Definition finish_notification (n : Notification) : Notification :=
  n <| notif_q := None |> <| sources := None |> <| myhostname := None |>.

Definition notification_set_log_level (l : NotificationLevel) (n : Notification) : Notification := n <| log_level := l |>.
Definition notification_set_submit_level (l : NotificationLevel) (n : Notification) : Notification := n <| submit_level := l |>.
Definition notification_enable_pull (enable : Z) (n : Notification) : bool * Notification :=
  if enable <? 0 then (pull_enabled n, n) else let b := negb (enable =? 0) in (b, n <| pull_enabled := b |>).
Definition notification_override_hostname (name : string) (n : Notification) : Notification := n <| myhostname := Some name |>.

(** ** Fragments *)

Definition joined (ts : list string) : string := foldr String.append "" ts.

Lemma text_weight_bounds s : Z.of_nat (String.length s) <= text_weight s.
Proof. induction s as [|c s IH]; [done|]. cbn [text_weight String.length]. unfold char_weight. case_match; lia. Qed.

Lemma cut_fragment_spec s : ∀ w,
  let '(a, b) := cut_fragment w s in
  a +:+ b = s ∧ text_weight s = text_weight a + text_weight b ∧ (b = "" ∨ MAX_NOTIFICATION_LEN <= w + text_weight a) ∧
  Z.of_nat (String.length a) <= Z.max 0 (MAX_NOTIFICATION_LEN - w).
Proof.
  induction s as [|c s IH]; intros w; cbn [cut_fragment]; [split_and!; [done | done | by left | cbn; lia]|].
  destruct (Z.ltb_spec w MAX_NOTIFICATION_LEN) as [Hw|Hw].
  - specialize (IH (w + char_weight c)). destruct (cut_fragment (w + char_weight c) s) as [a b]. destruct IH as (<- & H1 & H2 & H3). cbn [text_weight String.length].
    assert (1 <= char_weight c) by (unfold char_weight; case_match; lia). split_and!; [done | lia | destruct H2; [by left | right; lia] | lia].
  - split_and!; [done | done | right; cbn; lia | cbn; lia].
Qed.

Lemma send_fragments_spec k : ∀ i n pkt msg, hash_wf pkt → text_weight msg <= MAX_NOTIFICATION_LEN * Z.of_nat k →
  length (send_fragments k i n pkt msg) = k ∧
  ∃ ts, length ts = k ∧ joined ts = msg ∧
    ∀ j p t, send_fragments k i n pkt msg !! j = Some p → ts !! j = Some t →
      hashmap_find p "notif_msg" = Some (text t) ∧ hashmap_find p "notif_fragment" = Some (text (fragment_label (i + 1 + Z.of_nat j) n)) ∧
      Z.of_nat (String.length t) <= MAX_NOTIFICATION_LEN ∧
      ∀ key, key ≠ "notif_msg" → key ≠ "notif_fragment" → hashmap_find p key = hashmap_find pkt key.
Proof.
  induction k as [|k IH]; intros i n pkt msg Hwf Hw.
  { split; [done|]. exists []. split; [done|]. split; [|done]. destruct msg as [|c msg]; [done|]. pose proof (text_weight_bounds (String c msg)). cbn [String.length] in *. lia. }
  cbn [send_fragments]. pose proof (cut_fragment_spec msg 0) as Hc. destruct (cut_fragment 0 msg) as [frag rest]. destruct Hc as (<- & H1 & H2 & H3).
  destruct (insert_find pkt "notif_fragment" (text (fragment_label (i + 1) n)) Hwf) as [Hw1 F1].
  destruct (insert_find _ "notif_msg" (text frag) Hw1) as [Hw2 F2]. fold (json_object_insert pkt "notif_fragment" (text (fragment_label (i + 1) n))) in *.
  set (pkt1 := json_object_insert pkt "notif_fragment" _) in *. fold (json_object_insert pkt1 "notif_msg" (text frag)) in *. set (pkt2 := json_object_insert pkt1 "notif_msg" _) in *.
  destruct (IH (i + 1) n pkt2 rest Hw2) as (Hl & ts & Hts & Hj & Hall).
  { destruct H2 as [->|H2]; [cbn; unfold MAX_NOTIFICATION_LEN; lia | lia]. }
  split; [cbn; by rewrite Hl|]. exists (frag :: ts). split; [cbn; by rewrite Hts|]. split; [change (frag +:+ joined ts = frag +:+ rest); by rewrite Hj|]. intros [|j] p t; cbn [lookup list_lookup].
  - intros [= <-] [= <-]. rewrite Z.add_0_r. split_and!; [by rewrite F2, bool_decide_eq_true_2 | by rewrite F2, bool_decide_eq_false_2, F1, bool_decide_eq_true_2 | unfold MAX_NOTIFICATION_LEN in *; lia|].
    intros key K1 K2. rewrite F2, bool_decide_eq_false_2, F1, bool_decide_eq_false_2 by done. done.
  - intros Hp Ht. destruct (Hall j p t Hp Ht) as (A1 & A2 & A3 & A4). replace (i + 1 + Z.of_nat (S j)) with (i + 1 + 1 + Z.of_nat j) by lia. split_and!; [done | done | done|].
    intros key K1 K2. rewrite A4, F2, bool_decide_eq_false_2, F1, bool_decide_eq_false_2 by done. done.
Qed.

(** The items that every packet of a message has. *)
Lemma message_head_spec n hostname now :
  hash_wf (message_head n hostname now) ∧
  hashmap_find (message_head n hostname now) "notif_session" = Some (int_number (notif_sessionid n)) ∧
  hashmap_find (message_head n hostname now) "notif_seq" = Some (int_number (notif_seq n)) ∧
  hashmap_find (message_head n hostname now) "notif_fragment" = None.
Proof.
  unfold message_head, object_of. cbn [foldl fst snd]. assert (hash_wf (V := JsonValue) empty_object) as W0 by apply empty_object_wf.
  unfold json_object_insert. pose proof (λ h k v W, insert_find (V := JsonValue) h k v W) as Hi.
  destruct (Hi _ "notif_session" (int_number (notif_sessionid n)) W0) as [W1 F1]. destruct (Hi _ "notif_seq" (int_number (notif_seq n)) W1) as [W2 F2].
  destruct (Hi _ "notif_tstamp" (tstamp_number now) W2) as [W3 F3]. destruct (Hi _ "notif_hostname" (text (default hostname (myhostname n))) W3) as [W4 F4].
  split; [exact W4|]. rewrite !F4, !F3, !F2, !F1. done.
Qed.

(** C38: notifications arrive completely.  Whatever the message, the packets that
    are sent for it carry its text in order, each at most 1200 characters and
    all of them the same number, which is one more for the next message; a
    message that fits one packet is sent in one, and the packets of a longer one
    are labelled with their position and their count. *)
Theorem notification_fragments n hostname now msg :
  text_weight msg < 2 ^ 32 →
  let '(out, n') := send_notification_message n hostname now msg in
  notif_seq n' = u32 (notif_seq n + 1) ∧
  ∃ ts, length ts = length out ∧ joined ts = msg ∧
    ∀ k p t, out !! k = Some p → ts !! k = Some t →
      hashmap_find p "notif_session" = Some (int_number (notif_sessionid n)) ∧
      hashmap_find p "notif_seq" = Some (int_number (notif_seq n)) ∧
      hashmap_find p "notif_msg" = Some (text t) ∧ Z.of_nat (String.length t) <= MAX_NOTIFICATION_LEN ∧
      hashmap_find p "notif_fragment" =
        if bool_decide (length out = 1%nat) then None else Some (text (fragment_label (Z.of_nat k + 1) (Z.of_nat (length out)))).
Proof.
  intros Hw. destruct (message_head_spec n hostname now) as (Hwf & H1 & H2 & H3). unfold send_notification_message. set (head := message_head n hostname now) in *. clearbody head. pose proof (text_weight_bounds msg) as Hb.
  assert (u32 (text_weight msg) = text_weight msg) as -> by (unfold u32; apply Z.mod_small; lia). destruct (Z.leb_spec (text_weight msg) MAX_NOTIFICATION_LEN) as [Hs|Hs]; (split; [done|]).
  - exists [msg]. split; [done|]. split; [apply app_nil_r_s|]. destruct (insert_find _ "notif_msg" (text msg) Hwf) as [_ F]. fold (json_object_insert head "notif_msg" (text msg)) in F.
    set (pkt := json_object_insert _ _ _) in *. clearbody pkt. intros [|k] p t; cbn [lookup list_lookup]; [|done]. intros [= <-] [= <-]. 
    rewrite (F "notif_session"), (F "notif_seq"), (F "notif_msg"), (F "notif_fragment"). split_and!; [exact H1 | exact H2 | reflexivity | lia | exact H3].
  - set (f := text_weight msg / MAX_NOTIFICATION_LEN + _). assert (2 <= f ∧ text_weight msg <= MAX_NOTIFICATION_LEN * f) as [Hf1 Hf2] by (unfold f, MAX_NOTIFICATION_LEN in *; destruct (Z.gtb_spec (text_weight msg) (text_weight msg / 1200 * 1200)); lia).
    destruct (send_fragments_spec (Z.to_nat f) 0 f _ msg Hwf) as (Hl & ts & Ht & Hj & Hall); [lia|]. exists ts. rewrite Hl. split; [done|]. split; [done|]. intros k p t Hp Hk.
    destruct (Hall k p t Hp Hk) as (A1 & A2 & A3 & A4). rewrite !A4 by done. split_and!; [done | done | done | done|]. rewrite A2, bool_decide_eq_false_2 by lia. by replace (0 + 1 + Z.of_nat k) with (Z.of_nat k + 1) by lia; rewrite Z2Nat.id by lia.
Qed.

(** ** The times at which sources are asked *)

(** Sources are asked at even seconds, and the thread never waits forever while
    there is a source. *)
Definition cycle_ok (c : Cycle) : Prop :=
  (period_us c = 0 ∨ period_us c = DEFAULT_TIMEOUT ∧ tv_nsec (next_wake c) = 0 ∧ Z.even (tv_sec (next_wake c)) = true) ∧ (period_us c > 0 → 0 <= timeout_us c).

Definition clock_ok (t : timespec) : Prop := normalised t ∧ 0 <= tv_sec t.

Lemma period_cases n : period_of n = 0 ∨ period_of n = DEFAULT_TIMEOUT.
Proof. unfold period_of. destruct (sources n); [case_match|]; auto. Qed.

Lemma even_up s : 0 <= s → Z.even (s + Z.rem s 2) = true.
Proof. intros Hs. rewrite Z.rem_mod_nonneg by lia. rewrite Zeven_mod. apply Z.eqb_eq. lia. Qed.

Lemma next_even_ok now : clock_ok now → tv_nsec (next_even_second now) = 0 ∧ Z.even (tv_sec (next_even_second now)) = true ∧ 0 <= time_diff_us (next_even_second now) now.
Proof.
  intros [Hn Hs]. split; [done|]. split; [apply even_up; cbn; lia|]. unfold time_diff_us, next_even_second. cbn. unfold normalised, NSEC_PER_SEC in Hn. rewrite Z.rem_mod_nonneg by lia.
  assert (-1000000 <= Z.quot (0 - tv_nsec now) 1000) by (rewrite Z.sub_0_l, Z.quot_opp_l, Z.quot_div_nonneg by lia; lia). lia.
Qed.

Lemma thread_start_ok n now : clock_ok now → cycle_ok (thread_start n now).
Proof.
  intros Hn. unfold thread_start. destruct (next_even_ok now Hn) as (E1 & E2 & E3). destruct (period_cases n) as [-> | ->]; split; cbn [period_us next_wake timeout_us Z.gtb Z.compare DEFAULT_TIMEOUT]; auto; cbn; lia.
Qed.

Theorem rounds_at_even_seconds n c popped pull hostname t1 t2 t3 out n' c' :
  clock_ok t1 → clock_ok t3 → cycle_ok c → (popped = None → period_us c > 0) →
  notification_round n c popped pull hostname t1 t2 t3 = (out, n', Some c') → cycle_ok c'.
Proof.
  intros H1 H3 [Hc Ht] Hpop H. assert (∀ c, (period_us c = 0 ∨ period_us c = DEFAULT_TIMEOUT ∧ tv_nsec (next_wake c) = 0 ∧ Z.even (tv_sec (next_wake c)) = true) → cycle_ok (after_message c t3)) as Hm.
  { intros x Hx. split; [exact Hx|]. cbn. intros Hp. destruct (Z.gtb_spec (period_us x) 0); lia. }
  destruct popped as [m|]; cbn [notification_round] in H.
  - case_bool_decide; [injection H as _ _ <-; apply Hm|].
    + unfold register_cycle. cbn [period_us next_wake]. destruct (period_cases n) as [-> | ->]; [by left|]. right. split; [done|].
      destruct Hc as [-> |(-> & Hc)]; cbn; [split; [done | apply even_up, H1] | exact Hc].
    + case_bool_decide; [done|]. destruct (push_message n m) as [msg|]; [destruct (send_notification_message n hostname t2 msg)|]; injection H as _ _ <-; by apply Hm.
  - specialize (Hpop eq_refl). destruct Hc as [?|(Hp & Hn & He)]; [lia|].
    assert (c' = after_timeout c t3) as -> by (destruct (pull_message n pull) as [msg|]; [destruct (send_notification_message n hostname t2 msg)|]; by injection H as _ _ <-).
    destruct (next_even_ok t3 H3) as (E1 & E2 & E3). unfold after_timeout. rewrite Hp. destruct (Z.ltb_spec (time_diff_us (time_add_us (next_wake c) DEFAULT_TIMEOUT) t3) 0); (split; [right; split; [done|] | done]); [done|].
    unfold time_add_us. cbn. rewrite Hn. split; [done|]. cbn. rewrite Z.add_0_r, Z.even_add, He. done.
Qed.

(** ** Witness *)

Definition sample_notif : Notification := mk_notif None None NOTIF_WARNING NOTIF_ALL 7 42 false (Some "host") true.
Definition sample_text : string := joined (replicate 500 "abc").

Lemma notification_fragments_witness :
  text_weight sample_text = 1500 ∧
  let '(out, n') := send_notification_message sample_notif "x" (mk_timespec 10 0) sample_text in
  notif_seq n' = 8 ∧ length out = 2%nat ∧
  ∃ ts, length ts = length out ∧ joined ts = sample_text ∧
    ∀ k p t, out !! k = Some p → ts !! k = Some t →
      hashmap_find p "notif_session" = Some (int_number 42) ∧
      hashmap_find p "notif_seq" = Some (int_number 7) ∧
      hashmap_find p "notif_msg" = Some (text t) ∧ Z.of_nat (String.length t) <= MAX_NOTIFICATION_LEN ∧
      hashmap_find p "notif_fragment" =
        if bool_decide (length out = 1%nat) then None else Some (text (fragment_label (Z.of_nat k + 1) (Z.of_nat (length out)))).
Proof.
  split; [by vm_compute|]. assert (length (send_notification_message sample_notif "x" (mk_timespec 10 0) sample_text).1 = 2%nat) as Hl by by vm_compute.
  pose proof (notification_fragments sample_notif "x" (mk_timespec 10 0) sample_text ltac:(by vm_compute)) as H.
  destruct (send_notification_message sample_notif "x" (mk_timespec 10 0) sample_text) as [out n']. destruct H as [H1 H2]. split; [exact H1|]. split; [exact Hl | exact H2].
Defined.

End Notif.
