(* ===== verification/UdpOut.v ===== *)
(** * UDP output interfaces (if_udp_out.c)

    The private data of an interface of the type udp-out and its operations.
    The destination may be given later or change while the interface is open.
    What the system calls answer is an argument.  A pointer that is freed twice
    or read after it was freed does not occur: the addresses are values. *)

From S2P Require Import Prelude TimeUtils Protocol Packet HeaderField Action Octets Object Pipeline CString HashMap Double Json ConfUtils ConfActions ConfTyping Interface OamCodec ObjState.
From Stdlib Require Import Ascii.

Module UdpOut.
Import Proto Pkt Field Act Octets CStr HMap Json ConfA Ifc Codec OState.

#[local] Open Scope string_scope.
#[local] Open Scope list_scope.
#[local] Open Scope Z_scope.

Inductive Family := AF_INET | AF_INET6.

#[global] Instance family_eq_dec : EqDecision Family.
Proof. solve_decision. Defined.

(** [struct sockaddr_in] and [struct sockaddr_in6]: the address and the port
    that [htons] is applied to. *)
Record sockaddr := mk_sockaddr { sa_family : Family; sa_addr : mem; sa_port : Z }.

(** [sock] is zero while there is no socket. *)
Record UdpOutIfData := mk_uid {
  sock : Z;
  dstaddr : option sockaddr;
  ifindex : Z;
  mtu : Z;
  dst_ip : string;
  sport : Z;
  dport : Z;
  family : Family;
  priority : Z;
  dstip : mem;
  errq_monitor : bool;
  opened : bool
}.

#[global] Instance eta_uid : Eta UdpOutIfData := λ u,
  mk_uid (sock u) (dstaddr u) (ifindex u) (mtu u) (dst_ip u) (sport u) (dport u) (family u) (priority u) (dstip u) (errq_monitor u) (opened u).

(** The interface, and the descriptors and the notification source it holds. *)
Record UdpOut := mk_udpout {
  iface : Interface;
  uid : UdpOutIfData;
  open_fds : list Z;
  registered : bool;
  events : list JsonTable
}.

#[global] Instance eta_udpout : Eta UdpOut := λ u, mk_udpout (iface u) (uid u) (open_fds u) (registered u) (events u).

(** The answers of the system calls of one [open]: the new descriptor, whether
    each call succeeds, and what the successful ones report. *)
Record Kernel := mk_kernel {
  k_socket : option Z;
  k_bindtodevice : bool;
  k_priority : bool;
  k_mtu : option Z;
  k_index : option Z;
  k_bind : bool;
  k_getsockname : option Z;
  k_tos : bool;
  k_mtu_discover : bool;
  k_txtime : bool
}.

Definition no_ip : string := "<none>".

(** The address and its family. *)
Definition parse_address (ip : string) : option (Family * mem) :=
  match inet_pton4 ip with
  | Some a => Some (AF_INET, a)
  | None => match inet_pton6 ip with Some a => Some (AF_INET6, a) | None => None end
  end.

Definition zero_address (f : Family) : mem := match f with AF_INET => replicate 4 0 | AF_INET6 => replicate 16 0 end.

Definition new_udp_out_interface (name : string) (src_port : Z) (ip : string) (dst_port prio : Z) : option UdpOut :=
  '(ip, f, a) ← match parse_address ip with
                | Some (f, a) => Some (ip, f, a)
                | None => if bool_decide (ip = "ipv4") then Some (no_ip, AF_INET, zero_address AF_INET)
                          else if bool_decide (ip = "ipv6") then Some (no_ip, AF_INET6, zero_address AF_INET6) else None
                end;
  Some (mk_udpout (new_iface IF_UDP_OUT name) (mk_uid 0 None 0 0 ip src_port dst_port f prio a false false) [] false []).

(** The destination as a socket address. *)
Definition destination (u : UdpOutIfData) : sockaddr := mk_sockaddr (family u) (dstip u) (u16 (dport u)).

(** The data after a failure, and the descriptor that is not closed. *)
Inductive OpenResult := OpenOk (u : UdpOutIfData) (fd : Z) | OpenFail (u : UdpOutIfData) (unclosed : list Z).

Definition open_socket (k : Kernel) (offload : bool) (u : UdpOutIfData) : OpenResult :=
  match k_socket k with
  | None => OpenFail u []
  | Some fd =>
      if negb (k_bindtodevice k) then OpenFail u []
      else if negb (k_priority k) then OpenFail u [fd]
      else
        match k_mtu k with
        | None => OpenFail u [fd]
        | Some m =>
            match k_index k with
            | None => OpenFail u [fd]
            | Some ix =>
                let u := u <| mtu := m |> <| ifindex := ix |> in
                if negb (k_bind k) then OpenFail u []
                else
                  let u := if k_getsockname k is Some p then u <| sport := p |> else u in
                  if negb (k_tos k) then OpenFail u []
                  else if negb (k_mtu_discover k) then OpenFail u []
                  else
                    let u := u <| dstaddr := Some (destination u) |> in
                    if offload && negb (k_txtime k) then OpenFail u [fd] else OpenOk (u <| sock := fd |>) fd
            end
        end
  end.

Definition udpout_open (k : Kernel) (x : UdpOut) : bool * UdpOut :=
  if negb (bool_decide (if_state (iface x) = IFSTATE_INIT)) then (false, x)
  else
    let u := (uid x) <| opened := true |> in
    if bool_decide (dst_ip u = no_ip) then (true, x <| uid := u |>)
    else
      match open_socket k (delay_offload (iface x)) u with
      | OpenFail u fds => (false, x <| uid := u |> <| open_fds := fds ++ open_fds x |>)
      | OpenOk u fd =>
          (true, mk_udpout ((iface x) <| if_state := IFSTATE_OPEN |>) (u <| errq_monitor := true |>) (fd :: open_fds x) true (events x))
      end.

Definition udpout_close (x : UdpOut) : UdpOut :=
  x <| open_fds := filter (λ fd, fd ≠ sock (uid x)) (open_fds x) |>
    <| registered := registered x && (sock (uid x) =? 0) |> <| uid := (uid x) <| errq_monitor := false |> |>.

(** The socket and the address of a packet that is sent. *)
Definition udpout_send (x : UdpOut) : option (Z * option sockaddr) :=
  if bool_decide (if_state (iface x) = IFSTATE_INIT) then None
  else if sock (uid x) =? 0 then None
  else Some (sock (uid x), dstaddr (uid x)).

(** The new destination of an interface that is not open, or that is: then the
    socket is closed when the destination has no address. *)
Definition change_destination (specified : bool) (x : UdpOut) : UdpOut :=
  if specified then x <| uid := (uid x) <| dstaddr := Some (destination (uid x)) |> |>
  else
    mk_udpout ((iface x) <| if_state := IFSTATE_INIT |>)
      ((uid x) <| errq_monitor := false |> <| sock := 0 |> <| dstaddr := None |>)
      (filter (λ fd, fd ≠ sock (uid x)) (open_fds x)) (registered x) (events x).

Definition udp_out_set_dst (k : Kernel) (x : UdpOut) (ip : string) (port : Z) : bool * UdpOut :=
  let u := uid x in
  if negb (match if_type (iface x) with IF_UDP_OUT => true | _ => false end) then (false, x)
  else if (port =? dport u) && bool_decide (ip = dst_ip u) then (true, x)
  else
    let r := match parse_address ip with
             | Some (f, a) => Some (f, a, true)
             | None => if bool_decide (ip = no_ip) then Some (family u, zero_address (family u), false) else None
             end in
    match r with
    | None => (false, x)
    | Some (f, a, specified) =>
        if negb (bool_decide (f = family u)) then (false, x)
        else
          let x := x <| uid := u <| dport := port |> <| dst_ip := ip |> <| dstip := a |> |>
                     <| events := events x ++ [object_of [("interface", text (if_name (iface x))); ("ip", text ip); ("port", int_number port)]] |> in
          if bool_decide (if_state (iface x) = IFSTATE_INIT) then
            if opened (uid x) then udpout_open k x else (true, x)
          else (true, change_destination specified x)
    end.

(** ** Property readers *)

(** The first two octets of an [unsigned] in memory. *)
Definition port_octets (port : Z) : mem := [Z.land port 255; Z.land (Z.shiftr port 8) 255].

Definition udpout_srcport_producer (u : UdpOutIfData) : producer := λ consumer f p, consumer f (mk_value (PtrOwn (port_octets (sport u))) 0 16) p.
Definition udpout_dstport_producer (u : UdpOutIfData) : producer := λ consumer f p, consumer f (mk_value (PtrOwn (port_octets (dport u))) 0 16) p.
Definition udpout_dstip_producer (u : UdpOutIfData) : producer := λ consumer f p,
  consumer f (mk_value (PtrOwn (dstip u)) 0 (match family u with AF_INET6 => 128 | AF_INET => 32 end)) p.

Definition udpout_get_property_reader (u : UdpOutIfData) (property : string) (t : ProtocolFieldType) (bitoffset bitcount : Z) : option producer :=
  if bool_decide (property = "srcport") then
    if negb (bool_decide (t = PFTYPE_NUMBER)) then None
    else if negb (bitoffset mod 8 =? 0) || negb (bitcount =? 2 * 8) then None else Some (udpout_srcport_producer u)
  else if bool_decide (property = "dstport") then
    if negb (bool_decide (t = PFTYPE_NUMBER)) then None
    else if negb (bitoffset mod 8 =? 0) || negb (bitcount =? 2 * 8) then None else Some (udpout_dstport_producer u)
  else if bool_decide (property = "dstip") then
    if negb (bool_decide (t = match family u with AF_INET6 => PFTYPE_IPV6ADDRESS | AF_INET => PFTYPE_IPV4ADDRESS end)) then None
    else if negb (bitoffset mod 8 =? 0) || negb (bitcount =? match family u with AF_INET6 => 128 | AF_INET => 32 end) then None
    else Some (udpout_dstip_producer u)
  else None.

(** ** The destination of packets *)

Inductive UdpOp := DoOpen (k : Kernel) | DoSetDst (k : Kernel) (ip : string) (port : Z).

Definition exec (o : UdpOp) (x : UdpOut) : UdpOut :=
  match o with
  | DoOpen k => (udpout_open k x).2
  | DoSetDst k ip port => (udp_out_set_dst k x ip port).2
  end.

Definition kernel_of (o : UdpOp) : Kernel := match o with DoOpen k | DoSetDst k _ _ => k end.

(** Descriptors are positive: zero is the standard input. *)
Definition kernel_ok (k : Kernel) : Prop := ∀ fd, k_socket k = Some fd → 0 < fd.

(** All calls succeed. *)
Definition kernel_succeeds (k : Kernel) : bool :=
  match k_socket k, k_mtu k, k_index k with
  | Some _, Some _, Some _ => k_bindtodevice k && k_priority k && k_bind k && k_tos k && k_mtu_discover k && k_txtime k
  | _, _, _ => false
  end.

(** The destinations that an interface of the family can have. *)
Definition acceptable (f : Family) (ip : string) : bool :=
  match parse_address ip with
  | Some (f', _) => bool_decide (f' = f)
  | None => bool_decide (ip = no_ip)
  end.

(** What the interface promises: the destination is the last acceptable one,
    and it is open when it has been opened and has an address. *)
Record Spec := mk_spec { sp_ip : string; sp_port : Z; sp_opened : bool }.

Definition spec_exec (f : Family) (o : UdpOp) (s : Spec) : Spec :=
  match o with
  | DoOpen _ => mk_spec (sp_ip s) (sp_port s) true
  | DoSetDst _ ip port => if acceptable f ip then mk_spec ip port (sp_opened s) else s
  end.

Lemma no_ip_address : parse_address no_ip = None.
Proof. vm_compute. reflexivity. Qed.

Record refines (x : UdpOut) (s : Spec) : Prop := {
  rf_type : if_type (iface x) = IF_UDP_OUT;
  rf_ip : dst_ip (uid x) = sp_ip s;
  rf_port : dport (uid x) = sp_port s;
  rf_addr : sp_ip s = no_ip ∨ parse_address (sp_ip s) = Some (family (uid x), dstip (uid x));
  rf_init : if_state (iface x) = IFSTATE_INIT → sock (uid x) = 0;
  rf_open : if_state (iface x) ≠ IFSTATE_INIT →
    if_state (iface x) = IFSTATE_OPEN ∧ 0 < sock (uid x) ∧ sock (uid x) ∈ open_fds x ∧
    sp_ip s ≠ no_ip ∧ opened (uid x) = true ∧ dstaddr (uid x) = Some (destination (uid x));
  rf_opened : opened (uid x) = sp_opened s
}.

(** The interface is open as soon as it can be. *)
Definition prompt (x : UdpOut) (s : Spec) : Prop := sp_opened s = true → sp_ip s ≠ no_ip → if_state (iface x) = IFSTATE_OPEN.

(** Opening a socket changes no more than the source port, the device and the
    socket address. *)
Lemma open_socket_spec k off u r :
  kernel_ok k → open_socket k off u = r →
  match r with
  | OpenFail u' _ => sock u' = sock u ∧ dst_ip u' = dst_ip u ∧ dport u' = dport u ∧ family u' = family u ∧ dstip u' = dstip u ∧ opened u' = opened u ∧
                     kernel_succeeds k = false
  | OpenOk u' fd => 0 < fd ∧ sock u' = fd ∧ dst_ip u' = dst_ip u ∧ dport u' = dport u ∧ family u' = family u ∧ dstip u' = dstip u ∧
                    opened u' = opened u ∧ dstaddr u' = Some (destination u')
  end.
Proof.
  intros Hk <-. unfold open_socket, kernel_succeeds. destruct (k_socket k) as [fd|] eqn:Es; [|by cbn; split_and!].
  specialize (Hk fd Es). destruct (k_bindtodevice k); cbn; [|by destruct (k_mtu k), (k_index k)].
  destruct (k_priority k); cbn; [|by destruct (k_mtu k), (k_index k)]. destruct (k_mtu k); [|by cbn]. destruct (k_index k); [|by cbn].
  destruct (k_bind k); cbn; [|done]. destruct (k_tos k); cbn; [|by destruct (k_getsockname k)]. destruct (k_mtu_discover k); cbn; [|by destruct (k_getsockname k)].
  destruct off, (k_txtime k); cbn; by destruct (k_getsockname k).
Qed.

Lemma open_refines k x s :
  kernel_ok k → refines x s →
  refines (udpout_open k x).2 (mk_spec (sp_ip s) (sp_port s) true) ∧
  (kernel_succeeds k = true → prompt (udpout_open k x).2 (mk_spec (sp_ip s) (sp_port s) true)) ∧ family (uid (udpout_open k x).2) = family (uid x).
Proof.
  intros Hk [Ht Hi Hp Ha H0 H1 Ho]. unfold udpout_open. destruct (decide (if_state (iface x) = IFSTATE_INIT)) as [E|E].
  2: { rewrite (bool_decide_eq_false_2 _ E). cbn. destruct (H1 E) as (? & ? & ? & ? & ? & ?). split_and!; [by split; cbn; try congruence | by intros _ _ _ | done]. }
  rewrite (bool_decide_eq_true_2 _ E). cbn [negb]. cbn [dst_ip]. destruct (decide (dst_ip (uid x) = no_ip)) as [Hn|Hn].
  { rewrite bool_decide_eq_true_2 by done. cbn. split_and!; [by split; cbn; auto | intros _ _ Hc; cbn in Hc; congruence | done]. }
  rewrite bool_decide_eq_false_2 by done. destruct (open_socket k (delay_offload (iface x)) _) as [u fd|u fds] eqn:Eo; apply (open_socket_spec k _ _ _ Hk) in Eo; cbn in Eo.
  - destruct Eo as (Hf & Hs & Hip & Hdp & Hfa & Hds & Hop & Hda). cbn. split_and!; [|by intros _ _ _ | done]. split; cbn; try congruence; try (by rewrite Hfa, Hds).
    intros _. split_and!; [done | congruence | rewrite Hs; apply list_elem_of_here | congruence | done|]. rewrite Hda. done.
  - destruct Eo as (Hs & Hip & Hdp & Hfa & Hds & Hop & Hfail). cbn. split_and!; [| congruence | done]. split; cbn; try congruence; try (by rewrite Hfa, Hds). intros _. rewrite Hs. by apply H0.
Qed.

Lemma set_dst_refines k x s ip port :
  kernel_ok k → refines x s →
  refines (udp_out_set_dst k x ip port).2 (spec_exec (family (uid x)) (DoSetDst k ip port) s) ∧
  (kernel_succeeds k = true → prompt x s → prompt (udp_out_set_dst k x ip port).2 (spec_exec (family (uid x)) (DoSetDst k ip port) s)) ∧
  family (uid (udp_out_set_dst k x ip port).2) = family (uid x).
Proof.
  intros Hk Hr. pose proof Hr as [Ht Hi Hp Ha H0 H1 Ho]. unfold udp_out_set_dst. rewrite Ht. cbn [negb].
  destruct (decide (port = dport (uid x) ∧ ip = dst_ip (uid x))) as [[-> ->]|Hne].
  { rewrite Z.eqb_refl, bool_decide_eq_true_2 by done. cbn [andb snd]. assert (spec_exec (family (uid x)) (DoSetDst k (dst_ip (uid x)) (dport (uid x))) s = s) as ->.
    { destruct s. cbn in *. subst. by destruct (acceptable _ _). } done. }
  assert ((port =? dport (uid x)) && bool_decide (ip = dst_ip (uid x)) = false) as ->.
  { destruct (Z.eqb_spec port (dport (uid x))), (bool_decide_reflect (ip = dst_ip (uid x))); try done. tauto. }
  cbn [spec_exec]. unfold acceptable.
  destruct (match parse_address ip with Some (f, a) => Some (f, a, true)
            | None => if bool_decide (ip = no_ip) then Some (family (uid x), zero_address (family (uid x)), false) else None end) as [[[f a] sp]|] eqn:Er.
  2: { destruct (parse_address ip) as [[]|]; [done|]. case_bool_decide; [done|]. cbn. split_and!; [exact Hr | by intros _ ? | done]. }
  assert (Hcase : (parse_address ip = Some (f, a) ∧ sp = true) ∨ (parse_address ip = None ∧ ip = no_ip ∧ f = family (uid x) ∧ a = zero_address f ∧ sp = false)).
  { destruct (parse_address ip) as [[]|]; [left; by simplify_eq|]. right. case_bool_decide; [|done]. by simplify_eq. }
  destruct (decide (f = family (uid x))) as [->|Hf].
  2: { rewrite !(bool_decide_eq_false_2 (f = family (uid x))) by done. destruct Hcase as [[-> _]|(_ & _ & ? & _)]; [|done]. rewrite ?(bool_decide_eq_false_2 (f = family (uid x))) by done. cbn. split_and!; [done | by intros _ ? | done]. }
  rewrite (bool_decide_eq_true_2 (family (uid x) = family (uid x))) by done. cbn [negb].
  assert ((match parse_address ip with Some (f', _) => bool_decide (f' = family (uid x)) | None => bool_decide (ip = no_ip) end) = true) as ->.
  { destruct Hcase as [[-> _]|(-> & -> & _)]; by rewrite bool_decide_eq_true_2. }
  set (x1 := x <| uid := _ |> <| events := _ |>).
  assert (Ha1 : ip = no_ip ∨ parse_address ip = Some (family (uid x1), dstip (uid x1))).
  { destruct Hcase as [[-> _]|(_ & -> & _)]; [by right | by left]. }
  change (if_state (iface x1)) with (if_state (iface x)). change (opened (uid x1)) with (opened (uid x)).
  destruct (decide (if_state (iface x) = IFSTATE_INIT)) as [E|E].
  - rewrite bool_decide_eq_true_2 by done. assert (refines x1 (mk_spec ip port (sp_opened s))) as Hx1 by (split; cbn; try done; by apply H0).
    destruct (opened (uid x)) eqn:Eop.
    + rewrite <- Ho in *. pose proof (open_refines k x1 _ Hk Hx1) as (R & L & F). cbn [sp_ip sp_port] in R, L. split_and!; [exact R | intros Hks _; by apply L | exact F].
    + cbn. split_and!; [exact Hx1 | intros _ _ Hc; cbn in Hc; congruence | done].
  - rewrite bool_decide_eq_false_2 by done. destruct (H1 E) as (S1 & S2 & S3 & S4 & S5 & S6). cbn [snd]. unfold change_destination.
    destruct Hcase as [[Hpa ->]|(Hpa & -> & _ & Haz & ->)].
    + cbn. split_and!; [|by intros _ _ _ | done]. split; cbn; try done. intros _. split_and!; try done. intros ->. by rewrite no_ip_address in Hpa.
    + cbn. split_and!; [|intros _ _ _ Hc; cbn in Hc; congruence | done]. split; cbn; try done; by left.
Qed.

Lemma exec_refines o x s :
  kernel_ok (kernel_of o) → refines x s →
  refines (exec o x) (spec_exec (family (uid x)) o s) ∧
  (kernel_succeeds (kernel_of o) = true → prompt x s → prompt (exec o x) (spec_exec (family (uid x)) o s)) ∧ family (uid (exec o x)) = family (uid x).
Proof.
  intros Hk Hr. destruct o as [k|k ip port]; cbn [exec kernel_of] in *; [|by apply set_dst_refines].
  destruct (open_refines k x s Hk Hr) as (R & L & F). split_and!; [exact R | intros Hs _; by apply L | done].
Qed.

Lemma udp_run_refines ops x s :
  Forall (λ o, kernel_ok (kernel_of o)) ops → refines x s →
  refines (foldl (λ x o, exec o x) x ops) (foldl (λ s o, spec_exec (family (uid x)) o s) s ops) ∧
  (Forall (λ o, kernel_succeeds (kernel_of o) = true) ops → prompt x s →
   prompt (foldl (λ x o, exec o x) x ops) (foldl (λ s o, spec_exec (family (uid x)) o s) s ops)) ∧
  family (uid (foldl (λ x o, exec o x) x ops)) = family (uid x).
Proof.
  revert x s. induction ops as [|o ops IH]; intros x s Hk Hr; cbn [foldl]; [done|]. apply Forall_cons in Hk as [Hk Hks].
  destruct (exec_refines o x s Hk Hr) as (R & L & F). destruct (IH _ _ Hks R) as (R' & L' & F'). rewrite F in *. split_and!; [done | | done].
  intros [Hs Hss]%Forall_cons Hp. by apply L', L.
Qed.

Lemma new_refines name sp ip port prio x :
  new_udp_out_interface name sp ip port prio = Some x →
  refines x (mk_spec (dst_ip (uid x)) port false) ∧ acceptable (family (uid x)) (dst_ip (uid x)) = true.
Proof.
  unfold new_udp_out_interface, acceptable. destruct (parse_address ip) as [[f a]|] eqn:E; cbn.
  - intros [= <-]. cbn. rewrite E, bool_decide_eq_true_2 by done. split; [|done]. split; cbn; try done. by right.
  - case_bool_decide; [|case_bool_decide; [|done]]; cbn; intros [= <-]; cbn; (split; [split; cbn; try done; by left | done]).
Qed.

(** C36: packets of an interface of the type udp-out go to the destination it
    was last given.  After any sequence of openings and changes of the
    destination, whatever the system calls answer, the destination is the last
    one of the family of the interface; a packet is only sent while that
    destination has an address, on an open socket, to that address and port.
    When the system calls succeed, packets are sent as soon as the interface has
    been opened and the destination has an address. *)
Theorem udpout_destination name sp ip port prio x ops :
  new_udp_out_interface name sp ip port prio = Some x → Forall (λ o, kernel_ok (kernel_of o)) ops →
  let y := foldl (λ x o, exec o x) x ops in
  let s := foldl (λ s o, spec_exec (family (uid x)) o s) (mk_spec (dst_ip (uid x)) port false) ops in
  acceptable (family (uid x)) (sp_ip s) = true ∧
  (∀ fd a, udpout_send y = Some (fd, a) →
    fd ∈ open_fds y ∧ sp_opened s = true ∧
    ∃ addr, parse_address (sp_ip s) = Some (family (uid x), addr) ∧ a = Some (mk_sockaddr (family (uid x)) addr (u16 (sp_port s)))) ∧
  (Forall (λ o, kernel_succeeds (kernel_of o) = true) ops → sp_opened s = true → sp_ip s ≠ no_ip → is_Some (udpout_send y)).
Proof.
  intros Hn Hk y s. destruct (new_refines _ _ _ _ _ _ Hn) as [R0 A0]. destruct (udp_run_refines ops x _ Hk R0) as (R & L & F). fold y s in R, L, F.
  destruct R as [Ht Hi Hp Ha H0 H1 Ho]. split_and!.
  - subst s. generalize (mk_spec (dst_ip (uid x)) port false) as s0, (A0 : acceptable (family (uid x)) (sp_ip (mk_spec (dst_ip (uid x)) port false)) = true).
    clear. induction ops as [|o ops IH]; intros s0 A0; cbn [foldl]; [done|]. apply IH. destruct o as [|k ip' port']; cbn; [done|]. by destruct (acceptable _ ip') eqn:E.
  - intros fd a Hs. unfold udpout_send in Hs. case_bool_decide as E; [done|]. destruct (H1 E) as (_ & Hfd & Hin & Hne & Hop & Hda).
    destruct (Z.eqb_spec (sock (uid y)) 0); [done|]. injection Hs as <- <-. split_and!; [done | congruence|]. destruct Ha as [Ha|Ha]; [done|].
    rewrite F in Ha. exists (dstip (uid y)). split; [done|]. rewrite Hda. unfold destination. by rewrite F, Hp.
  - intros Hs Hop Hne. assert (if_state (iface y) = IFSTATE_OPEN) as E by (apply L; [done | by intros [=] | done | done]).
    destruct H1 as (_ & Hfd & _); [by rewrite E|]. unfold udpout_send. rewrite bool_decide_eq_false_2 by (by rewrite E). destruct (Z.eqb_spec (sock (uid y)) 0); [lia | by eexists].
Qed.

(** The address gets known after the interface was opened, is lost and changes. *)
Definition good_kernel : Kernel := mk_kernel (Some 7) true true (Some 1500) (Some 2) true (Some 40000) true true true.
Definition sample_ops : list UdpOp :=
  [DoOpen good_kernel; DoSetDst good_kernel "10.0.0.1" 4754; DoSetDst good_kernel "::1" 1; DoSetDst good_kernel "<none>" 0; DoSetDst good_kernel "10.0.0.2" 4755].
Definition sample_udp : UdpOut := mk_udpout (new_iface IF_UDP_OUT "out") (mk_uid 0 None 0 0 no_ip 0 0 AF_INET 0 [0; 0; 0; 0] false false) [] false [].

Lemma udpout_destination_witness :
  let y := foldl (λ x o, exec o x) sample_udp sample_ops in
  let s := foldl (λ s o, spec_exec AF_INET o s) (mk_spec no_ip 0 false) sample_ops in
  s = mk_spec "10.0.0.2" 4755 true ∧ is_Some (udpout_send y) ∧
  ∀ fd a, udpout_send y = Some (fd, a) →
    fd ∈ open_fds y ∧ sp_opened s = true ∧
    ∃ addr, parse_address (sp_ip s) = Some (AF_INET, addr) ∧ a = Some (mk_sockaddr AF_INET addr (u16 (sp_port s))).
Proof.
  intros y s. assert (new_udp_out_interface "out" 0 "ipv4" 0 0 = Some sample_udp) as Hn by (vm_compute; reflexivity).
  assert (Forall (λ o, kernel_ok (kernel_of o)) sample_ops) as Hk by (repeat constructor; intros fd [= <-]; reflexivity).
  destruct (udpout_destination "out" 0 "ipv4" 0 0 sample_udp sample_ops Hn Hk) as (_ & H1 & H2).
  split; [vm_compute; reflexivity|]. split; [|exact H1]. apply H2; [repeat constructor | vm_compute; reflexivity | vm_compute; discriminate].
Defined.

(** ** Shortcomings *)

(** A port is read from memory: its octets are in the order of the machine. *)
Lemma port_octets_swapped : port_octets 4754 = [146; 18] ∧ 18 * 256 + 146 = 4754.
Proof. split; reflexivity. Qed.

(** An interface that has lost its address stays a source of notifications
    after it is closed. *)
Lemma closed_but_registered : registered (udpout_close (foldl (λ x o, exec o x) sample_udp (take 4 sample_ops))) = true.
Proof. vm_compute. reflexivity. Qed.

End UdpOut.
