(* ===== verification/OamRequest.v ===== *)
(** * OAM requests (oam_request.c, oam_core.c, parse_ip_port and parse_mac_vlan of inet_utils.c)

    The commands that start a request are texts: their parsing, the allocation
    of a session, and the messages that are sent once or periodically.  The
    outer [option] is absent for undefined behaviour: a text that is longer than
    the array it is scanned into, a conversion of a number that is out of range,
    a table that was never created. *)

From stdpp Require Import pretty.
From S2P Require Import Prelude TimeUtils Protocol Packet Object Pipeline CString HashMap Double Json ConfUtils ConfActions Assemble OamSession OamMp OamCodec ObjState.
From Stdlib Require Import Ascii QArith.

Module Req.
Import Time Pkt CStr HMap Dbl Json ConfU(ether_pton) ConfA Asm Session Mp Codec OState.

#[local] Open Scope string_scope.
#[local] Open Scope list_scope.
#[local] Open Scope Z_scope.

(** ** [sscanf] *)

Inductive Directive := White | Literal (c : ascii) | ConvS | ConvHHD | ConvD | ConvC | ConvF | ConvN.

(** What the conversions store; [%n] stores a position, given here by the text
    that follows it. *)
Inductive Conv := CvS (s : string) | CvHHD (z : Z) | CvD (z : Z) | CvC (c : ascii) | CvF (f : Float) | CvN (rest : string).

(** The text up to the next white space, and what follows. *)
Fixpoint nonspace (s : string) : string * string :=
  match s with
  | EmptyString => (EmptyString, EmptyString)
  | String c t => if isspace c then (EmptyString, s) else let '(a, b) := nonspace t in (String c a, b)
  end.

(** The values stored before the first directive that fails.  What follows a
    failure is not stored, so that the values are as many as the directives
    with a conversion exactly when all of them succeed. *)
Fixpoint sscanf (fmt : list Directive) (s : string) : list Conv :=
  match fmt with
  | [] => []
  | White :: fmt => sscanf fmt (skip_space s)
  | Literal c :: fmt => if s is String d t then if Ascii.eqb c d then sscanf fmt t else [] else []
  | ConvS :: fmt =>
      let '(w, rest) := nonspace (skip_space s) in
      if bool_decide (w = "") then [] else CvS w :: sscanf fmt rest
  | ConvHHD :: fmt => if scan_int_at s is Some (z, rest) then CvHHD (u8 z) :: sscanf fmt rest else []
  | ConvD :: fmt => if scan_int_at s is Some (z, rest) then CvD (i32 z) :: sscanf fmt rest else []
  | ConvC :: fmt => if s is String c rest then CvC c :: sscanf fmt rest else []
  | ConvF :: fmt => if scan_float_at s is Some (f, rest) then CvF f :: sscanf fmt rest else []
  | ConvN :: fmt => CvN s :: sscanf fmt s
  end.

(** ** Addresses for replies *)

(** [[ip6]], [[ip6]:port], [ip6], [ip4] or [ip4:port]; without a port it stays. *)
Definition parse_ip_port (str : string) (port : Z) : option (string * Z) :=
  match str with
  | String "["%char str =>
      '(ip6, rest) ← strchr "]"%char str;
      _ ← inet_pton6 ip6;
      if bool_decide (rest = "") then Some (ip6, port)
      else
        p ← skip_char ":"%char ":"%char rest ≫= scan_u32;
        if p >? 65535 then None else Some (ip6, p)
  | _ =>
      match inet_pton6 str with
      | Some _ => Some (str, port)
      | None =>
          match strchr ":"%char str with
          | Some (ip4, after) =>
              match strchr ":"%char after with
              | Some _ => None
              | None => _ ← inet_pton4 ip4; p ← scan_u32 after; if p >? 65535 then None else Some (ip4, p)
              end
          | None => _ ← inet_pton4 str; Some (str, port)
          end
      end
  end.

(** The VLAN of [mac+vlan] is read by [strtoul] and may be followed by anything. *)
Definition parse_mac_vlan (str : string) : option (string * Z) :=
  match strchr "+"%char str with
  | Some (mac, v) =>
      _ ← ether_pton mac; '(n, _, _) ← strtoull v; Some (mac, u32 n)
  | None => _ ← ether_pton str; Some (str, 0)
  end.

(** ** Return interfaces (oam_core.c) *)

Inductive OamIface :=
  | IF_OAM (name ip : string) (port : Z)
  | IF_OAM_ETH (name mac : string) (vid : Z)
  | IF_other (name : string) (type : Z).

Definition if_name (i : OamIface) : string := match i with IF_OAM n _ _ | IF_OAM_ETH n _ _ | IF_other n _ => n end.

Record OamCore := mk_core {
  oam_ifaces : option (HashMap (V := OamIface));
  oam_default_ip_iface : option OamIface;
  oam_default_eth_iface : option OamIface;
  oam_cmd_iface : option string;
  nodeid : Z
}.

#[global] Instance eta_core : Eta OamCore := λ c,
  mk_core (oam_ifaces c) (oam_default_ip_iface c) (oam_default_eth_iface c) (oam_cmd_iface c) (nodeid c).

Definition nodeid_hash (hostname : string) : Z := djb2_from 5381 hostname.

Definition set_oam_cmd_if (c : OamCore) (name : string) : bool * OamCore :=
  match oam_cmd_iface c with
  | None => (true, c <| oam_cmd_iface := Some name |>)
  | Some _ => (false, c)
  end.

(** The interface with the least name is the default of its type. *)
Definition least_name (old : option OamIface) (i : OamIface) : option OamIface :=
  match old with
  | None => Some i
  | Some o => if str_le (if_name o) (if_name i) then Some o else Some i
  end.

Definition add_oam_if (c : OamCore) (i : OamIface) : option OamCore :=
  h ← match oam_ifaces c with Some h => Some h | None => new_hashmap 9 end;
  let c := c <| oam_ifaces := Some (hashmap_insert h (if_name i) i).1.2 |> in
  Some (match i with
        | IF_OAM _ _ _ => c <| oam_default_ip_iface := least_name (oam_default_ip_iface c) i |>
        | IF_OAM_ETH _ _ _ => c <| oam_default_eth_iface := least_name (oam_default_eth_iface c) i |>
        | IF_other _ _ => c
        end).

(** The table must have been created. *)
Definition get_oam_interface (c : OamCore) (ifname : string) : option (option OamIface) :=
  h ← oam_ifaces c; Some (hashmap_find h ifname).

(** ** Parsing of commands *)

Definition OAM_PING_TTL : Z := 64.
Definition OAM_PORT : Z := 6634.

Definition new_oam_request (c : OamCore) (type : string) : OamRequest :=
  mk_request type empty_object OAM_PING_TTL 0 0 0 (nodeid c) None "" false false false 1 false 1000 false None None 0 None.

Definition set_error (r : OamRequest) (e : string) : OamRequest := r <| r_error := Some e |>.

Definition return_insert (r : OamRequest) (k : string) (v : JsonValue) : OamRequest :=
  r <| return_addr := json_object_insert (return_addr r) k v |>.

Definition parse_return_text (c : OamCore) (r : OamRequest) (ifname : string) : bool * OamRequest :=
  match parse_ip_port ifname OAM_PORT with
  | Some (ip, port) => (true, return_insert (return_insert r "ip" (text ip)) "port" (int_number port))
  | None =>
      match parse_mac_vlan ifname with
      | Some (mac, vl) =>
          let r := return_insert r "dmac" (text mac) in
          (true, if vl =? 0 then r else return_insert r "vlan" (int_number vl))
      | None =>
          (false, set_error r (match oam_default_ip_iface c, oam_default_eth_iface c with
                               | None, None => "config has no return interface, need to specify a return DMAC/IP to send requests"
                               | _, _ => "invalid return interface name: " +:+ ifname
                               end))
      end
  end.

Definition return_iface (r : OamRequest) (i : OamIface) : bool * OamRequest :=
  match i with
  | IF_OAM _ ip port => (true, return_insert (return_insert r "ip" (text ip)) "port" (int_number port))
  | IF_OAM_ETH _ mac _ => (true, return_insert r "dmac" (text mac))
  | IF_other _ t => (false, set_error r ("unknown return interface type " +:+ pretty t))
  end.

(** Without a return interface the error is set and the result is the request
    itself, which counts as true. *)
Definition parse_returnif (c : OamCore) (r : OamRequest) (ifname : string) : option (bool * OamRequest) :=
  if bool_decide (ifname = "") then
    match oam_default_ip_iface c, oam_default_eth_iface c with
    | Some i, _ | None, Some i => Some (return_iface r i)
    | None, None => Some (true, set_error r "ping didn't specify return address and config has no return interface")
    end
  else
    i ← get_oam_interface c ifname;
    Some (match i with Some i => return_iface r i | None => parse_return_text c r ifname end).

(** [fval * 1000] in single precision after the least value has been enforced. *)
Definition interval_of (f : Float) : option Z :=
  let least := fl (1 # 500) in
  let f := match f with
           | Fnum q => if Qle_bool least q then f else to_float false least
           | Finf true => to_float false least
           | _ => f
           end in
  match f with Fnum q => float_to_u32 (to_float false (Qmult q (inject_Z 1000))) | _ => None end.

(** One option behind the letter [c]: the request and the text behind it. *)
Inductive OptResult := OptOk (r : OamRequest) (po : string) | OptErr (r : OamRequest).

(** [ping]: the options of a ping, otherwise those of a trigger. *)
Definition parse_option (ping allow_num : bool) (r : OamRequest) (c : ascii) (po : string) : option OptResult :=
  let what := if ping then "ping" else "trigger" in
  let err (e : string) := Some (OptErr (set_error r (what +:+ e))) in
  if ping && Ascii.eqb c "r"%char then Some (OptOk (r <| record_route := true |>) po)
  else if ping && Ascii.eqb c "o"%char then Some (OptOk (r <| object_state := true |>) po)
  else if ping && Ascii.eqb c "d"%char then Some (OptOk (r <| measure_delay := true |>) po)
  else if ping && Ascii.eqb c "b"%char then Some (OptOk (r <| r_background := true |>) po)
  else if Ascii.eqb c "i"%char then
    match sscanf [White; ConvF; ConvN] po with
    | [CvF f; CvN po] => ms ← interval_of f; Some (OptOk (r <| r_interval_ms := ms |>) po)
    | _ => err " interval is invalid"
    end
  else if Ascii.eqb c "n"%char then
    if negb allow_num then err " count is not allowed"
    else
      match sscanf [White; ConvD; ConvN] po with
      | [CvD val; CvN po] => if val <=? 0 then err " count must be positive" else Some (OptOk (r <| r_count := val |>) po)
      | _ =>
          match sscanf [White; Literal "i"%char; Literal "n"%char; ConvC; ConvN] po with
          | [CvC "f"%char; CvN po] => Some (OptOk (r <| r_count := 0 |>) po)
          | _ => err (if ping then " count is invalid" else " count is invalid" +:+ String (ascii_of_nat 10) "")
          end
      end
  else if Ascii.eqb c "t"%char then
    match sscanf [White; ConvD; ConvN] po with
    | [CvD val; CvN po] => Some (OptOk (r <| r_ttl := u8 val |>) po)
    | _ => err " ttl is invalid"
    end
  else err (" option '" +:+ String c "' is invalid").

(** The loop takes at least two characters in each round. *)
Fixpoint parse_options (ping allow_num : bool) (fuel : nat) (r : OamRequest) (po : string) : option OptResult :=
  match fuel with
  | O => None
  | S fuel =>
      match sscanf [White; Literal "-"%char; ConvC; ConvN] po with
      | [CvC c; CvN rest] =>
          if (if po is String x _ then isspace x else false) then
            o ← parse_option ping allow_num r c rest;
            match o with OptOk r po => parse_options ping allow_num fuel r po | OptErr r => Some (OptErr r) end
          else Some (OptErr (set_error r ("Error: " +:+ (if ping then "ping" else "trigger") +:+ " options must be separated by space")))
      | _ => Some (OptOk r po)
      end
  end.

(** What is left is white space. *)
Definition end_of_options (ping : bool) (o : OptResult) : bool * OamRequest :=
  match o with
  | OptErr r => (false, r)
  | OptOk r po =>
      let po := skip_space po in
      if bool_decide (po = "") then (true, r)
      else (false, set_error r ((if ping then "ping" else "trigger") +:+ " options '" +:+ po +:+ "' is invalid"))
  end.

Definition parse_ping_options (r : OamRequest) (options_str : string) (allow_num : bool) : option (bool * OamRequest) :=
  end_of_options true <$> parse_options true allow_num (S (String.length options_str)) r options_str.

Definition parse_trigger_options (r : OamRequest) (options_str : string) (allow_num : bool) : option (bool * OamRequest) :=
  end_of_options false <$> parse_options false allow_num (S (String.length options_str)) r options_str.

(** The strings fit into their arrays with the closing zero. *)
Fixpoint scanned_fit (sizes : list nat) (cv : list Conv) : bool :=
  match sizes, cv with
  | n :: sizes, CvS s :: cv => (String.length s <? n)%nat && scanned_fit sizes cv
  | _, _ => true
  end.

(** [iface], [start], the request with target and level, and the text behind;
    without the last the arguments are invalid. *)
Definition scan_arguments (with_iface : bool) (r : OamRequest) (cmd : string) : option (string * string * OamRequest * option string) :=
  if with_iface then
    let cv := sscanf [Literal "@"%char; ConvS; White; ConvS; White; ConvS; White; ConvHHD; ConvN] cmd in
    if negb (scanned_fit [64; 64; 32]%nat cv) then None
    else
      match cv with
      | [CvS iface; CvS start; CvS stop; CvHHD level; CvN rest] => Some (iface, start, r <| mep_stop := stop |> <| r_level := level |>, Some rest)
      | [CvS iface; CvS start; CvS stop] => Some (iface, start, r <| mep_stop := stop |>, None)
      | _ => Some ("", "", r, None)
      end
  else
    let cv := sscanf [White; ConvS; White; ConvS; White; ConvHHD; ConvN] cmd in
    if negb (scanned_fit [64; 32]%nat cv) then None
    else
      match cv with
      | [CvS start; CvS stop; CvHHD level; CvN rest] => Some ("", start, r <| mep_stop := stop |> <| r_level := level |>, Some rest)
      | [CvS start; CvS stop] => Some ("", start, r <| mep_stop := stop |>, None)
      | _ => Some ("", "", r, None)
      end.

(** The common part of the commands: the request, the rest of the text when
    there was no error so far, and the table with the new reference. *)
Definition parse_start (c : OamCore) (what start : string) (r : OamRequest) (g : Registry) : option (bool * OamRequest * Registry) :=
  '(k, g) ← find_maintenance_point start g;
  match k with
  | None => Some (false, set_error r (what +:+ " start '" +:+ start +:+ "' invalid"), g)
  | Some k =>
      m ← mps g !! k;
      let r := r <| mp_start := Some k |> in
      if mp_can_send m then Some (true, r, g) else Some (false, set_error r (what +:+ " start '" +:+ start +:+ "' can't send"), g)
  end.

Definition parse_with_return (c : OamCore) (type : string) (with_iface : bool) (cmd : string) (g : Registry)
    : option (OamRequest * option string * Registry) :=
  '(iface, start, r, rest) ← scan_arguments with_iface (new_oam_request c type) cmd;
  match rest with
  | None => Some (set_error r (type +:+ " arguments invalid"), None, g)
  | Some rest =>
      '(ok, r, g) ← parse_start c type start r g;
      if negb ok then Some (r, None, g)
      else
        '(ok, r) ← parse_returnif c r iface;
        Some (r, if (ok : bool) then Some rest else None, g)
  end.

(** A request is always returned; it has an error when the command is wrong. *)
Definition parse_ping_command (c : OamCore) (cmd : string) (allow_returniface allow_num : bool) (g : Registry)
    : option (OamRequest * Registry) :=
  let at_sign := is_char cmd "@"%char in
  if at_sign && negb allow_returniface then Some (set_error (new_oam_request c "ping") "ping return interface is not allowed", g)
  else
    '(r, rest, g) ← parse_with_return c "ping" at_sign cmd g;
    match rest with
    | None => Some (r, g)
    | Some rest =>
        '(_, r) ← parse_ping_options r rest allow_num;
        Some (if r_background r then r <| r_count := 0 |> else r, g)
    end.

Definition parse_rping_command (c : OamCore) (cmd : string) (g : Registry) : option (OamRequest * Registry) :=
  '(r, rest, g) ← parse_with_return c "rping" (is_char cmd "@"%char) cmd g;
  Some (match rest with None => r | Some rest => r <| remote_command := Some (skip_space rest) |> end, g).

Definition parse_rlist_command (c : OamCore) (cmd : string) (g : Registry) : option (OamRequest * Registry) :=
  '(r, rest, g) ← parse_with_return c "rlist" (is_char cmd "@"%char) cmd g;
  Some (match rest with
        | None => r
        | Some rest => if bool_decide (skip_space rest = "") then r else set_error r "rlist doesn't take so many arguments"
        end, g).

Definition parse_trigger_command (c : OamCore) (cmd : string) (allow_num : bool) (g : Registry) : option (OamRequest * Registry) :=
  '(_, start, r, rest) ← scan_arguments false (new_oam_request c "trigger") cmd;
  match rest with
  | None => Some (set_error r "notif_trigger arguments invalid", g)
  | Some rest =>
      '(ok, r, g) ← parse_start c "notif_trigger" start r g;
      if negb ok then Some (r, g) else '(_, r) ← parse_trigger_options r rest allow_num; Some (r, g)
  end.

(** ** The state of the OAM module *)

(** Calls that leave the module: packets that are injected, events, and
    replies to addresses. *)
Inductive OamEvent :=
  | EvInject (at_ : option (nat * nat)) (p : Packet)
  | EvNotify (name : string) (js : JsonTable)
  | EvUdp (address : string) (port : Z) (msg : string)
  | EvEth (p : Packet).

(** Requests are known by handles, which the sessions hold. *)
Record Oam := mk_oam {
  o_reg : Registry;
  o_core : OamCore;
  o_ids : gmap string (StreamSessions nat);
  o_reqs : gmap nat OamRequest;
  o_next : nat;
  o_objs : gmap nat Obj.PipelineObject;
  o_events : list OamEvent
}.

#[global] Instance eta_oam : Eta Oam := λ o, mk_oam (o_reg o) (o_core o) (o_ids o) (o_reqs o) (o_next o) (o_objs o) (o_events o).

(** What a call finds outside: what packing needs, the clock of the sessions,
    whether threads can be launched, debug logging, and the pipelines. *)
Record Env := mk_env {
  e_sender : Sender;
  e_time : Z;
  e_launches : bool;
  e_debug : bool;
  e_pipes : nat → option Pipeline.Pipe.Pipeline
}.

Definition emit (ev : OamEvent) (o : Oam) : Oam := o <| o_events := o_events o ++ [ev] |>.
Definition set_request (k : nat) (r : OamRequest) (o : Oam) : Oam := o <| o_reqs := <[k := r]> (o_reqs o) |>.

(** A request that a parser returned gets its handle. *)
Definition hold_request (r : OamRequest) (o : Oam) : nat * Oam :=
  (o_next o, o <| o_reqs := <[o_next o := r]> (o_reqs o) |> <| o_next := S (o_next o) |>).

(** The text behind the command word. *)
Definition strip_ping (s : string) : option string :=
  match s with
  | String "p"%char (String "i"%char (String "n"%char (String "g"%char s))) => Some s
  | _ => None
  end.

Section module.
Context (e : Env).

(** *** States of maintenance points *)

Definition oam_mp_type_to_str (t : OAM_MP_Type) : string :=
  match t with OAM_Start => "MEP-Start" | OAM_Stop => "MEP-Stop" | OAM_Intermediate => "MIP" end.

Definition object_state_json (objs : gmap nat Obj.PipelineObject) (r : ObjRef) (object_info : bool) : option JsonValue :=
  if object_info then x ← objs !! o_id r; JObject <$> get_state (e_debug e) (e_pipes e) (o_name r) x
  else Some (text (o_name r)).

Definition mp_items (m : OAM_MaintenancePoint) : list (string * JsonValue) :=
  [("name", text (m_name m)); ("stream_name", text (m_stream m)); ("type", text (oam_mp_type_to_str (m_type m)));
   ("level", int_number (m_level m)); ("oam_send", int_number (oam_send m)); ("oam_recv", int_number (oam_recv m));
   ("data_packets", int_number (data_packets m)); ("data_octets", int_number (data_octets m))].

Definition mp_get_state_json (objs : gmap nat Obj.PipelineObject) (m : OAM_MaintenancePoint) (object_info : bool) : option JsonTable :=
  let ret := object_of (mp_items m) in
  ret ← match m_object m with
        | Some r => x ← object_state_json objs r object_info; Some (json_object_insert ret "object" x)
        | None => Some ret
        end;
  Some (if mask_recv m then json_object_insert ret "mask_signal_state" (text "receiving")
        else if mask_send m then json_object_insert ret "mask_signal_state" (text "sending") else ret).

(** The point itself and the others that are bound to its object. *)
Definition mp_get_state_json_by_object (o : Oam) (k : nat) : option (list JsonValue) :=
  m ← mps (o_reg o) !! k;
  own ← mp_get_state_json (o_objs o) m false;
  others ← match m_object m with
           | None => Some []
           | Some r =>
               h ← mp_hash (o_reg o);
               foldl (λ acc x, acc ← acc; m' ← mps (o_reg o) !! x.2;
                        if bool_decide (x.2 ≠ k ∧ o_id <$> m_object m' = Some (o_id r))
                        then js ← mp_get_state_json (o_objs o) m' false; Some (json_array_push acc (JObject js)) else Some acc) (Some []) (items h)
           end;
  Some (JObject own :: others).

(** *** Deletion *)

(** [delete_oam_request]; the threads end. *)
Definition delete_oam_request (k : nat) (o : Oam) : option Oam :=
  r ← o_reqs o !! k;
  let o := o <| o_reqs := delete k (o_reqs o) |> in
  match mp_start r with
  | Some m => g ← oam_unref_maintenance_point m (o_reg o); Some (o <| o_reg := g |>)
  | None => Some o
  end.

(** Mask requests borrow their maintenance point. *)
Definition create_mask_request (c : OamCore) (k : nat) (m : OAM_MaintenancePoint) (type : string) : OamRequest :=
  (new_oam_request c type) <| r_ttl := 1 |> <| r_count := 0 |> <| r_interval_ms := 1000 |> <| mp_start := Some k |>
    <| r_level := u8 (m_level m) |> <| mep_stop := "nexthop" |>.

(** *** Messages *)

Definition reply_session (r : OamRequest) : Z := if originator_stream r is Some _ then originator_session_id r else r_session_id r.

Definition trigger_mep_push_notification (o : Oam) (k : nat) (m : OAM_MaintenancePoint) (r : OamRequest) : option Oam :=
  jlist ← mp_get_state_json_by_object o k;
  Some (emit (EvNotify "triggered_source"
          (object_of [("seq", int_number (r_seq r)); ("level", int_number (r_level r)); ("node_id", int_number (r_node_id r));
                      ("session", int_number (reply_session r)); ("source", text (m_name m)); ("stream", text (m_stream m));
                      ("target", text (mep_stop r)); ("mp", JArray jlist)])) o).

(** The message of a request on top of what the encapsulation has put there. *)
Definition request_message (objs : gmap nat Obj.PipelineObject) (m : OAM_MaintenancePoint) (r : OamRequest) (js : JsonTable) : option JsonTable :=
  let js := json_object_insert js "stream" (text (default (m_stream m) (originator_stream r))) in
  let js := json_object_insert js "target" (text (mep_stop r)) in
  js ← (if bool_decide (rq_kind r = "trigger") then
          st ← mp_get_state_json objs m false;
          Some (json_object_insert (json_object_insert js "seq" (int_number (r_seq r))) "source" (JObject st))
        else Some (json_object_insert js "return" (json_duplicate (JObject (return_addr r)))));
  let js := if bool_decide (rq_kind r = "ping") then
              let js := if record_route r then json_object_insert js "rr" (JArray (json_array_unshift [] (text (m_name m)))) else js in
              let js := if object_state r then json_object_insert js "object" json_true else js in
              if measure_delay r then json_object_insert js "delay" json_true else js
            else js in
  Some (if bool_decide (rq_kind r = "rping") then json_object_insert js "command" (json_string (remote_command r)) else js).

Definition send_request (r : OamRequest) (o : Oam) : option (bool * Oam) :=
  k ← mp_start r;
  m ← mps (o_reg o) !! k;
  '(js, p) ← mp_pack_message_header (e_sender e) m (new_packet None (mk_pool 0 0)).1 r;
  js ← request_message (o_objs o) m r js;
  o ← (if bool_decide (rq_kind r = "trigger") then trigger_mep_push_notification o k m r else Some o);
  '(ok, p) ← mp_pack_message_payload (e_sender e) m p js;
  if negb ok then Some (false, o)
  else
    '(at_, g) ← mp_inject_packet k (o_reg o);
    Some (true, emit (EvInject at_ p) (o <| o_reg := g |>)).

(** One round of [send_periodic_request_thread]: whether the thread ends, and
    the number of the next round. *)
Definition periodic_round (k : nat) (seq : Z) (o : Oam) : option (bool * Z * Oam) :=
  r ← o_reqs o !! k;
  let r := r <| r_seq := Z.land seq 255 |> in
  let o := set_request k r o in
  '(_, o) ← send_request r o;
  mk ← mp_start r;
  m ← mps (o_reg o) !! mk;
  let o := o <| o_ids := session_sent (o_ids o) (m_stream m) (r_session_id r) (e_time e) |> in
  let seq := u32 (seq + 1) in
  if negb (r_count r =? 0) && (seq >=? r_count r) then Some (true, seq, set_request k (r <| multireq_thread := false |>) o)
  else Some (false, seq, o).

(** A session is allocated, for which an old request may be deleted, and the
    request is sent or its thread is launched. *)
Definition initiate_request (k : nat) (conn : option string) (o : Oam) : option (bool * Oam) :=
  r ← o_reqs o !! k;
  match mp_start r with
  | None => Some (false, set_request k (set_error r ("can't initiate " +:+ rq_kind r +:+ " request without start maintenance point")) o)
  | Some mk =>
      m ← mps (o_reg o) !! mk;
      if negb (mp_can_send m) then Some (false, set_request k (set_error r ("mep start '" +:+ m_name m +:+ "' cannot send")) o)
      else
        let '(id, ids, old) :=
          alloc_session_id (o_ids o) (m_stream m) k (if r_background r then None else conn) (r_interval_ms r) (e_time e) in
        let o := o <| o_ids := ids |> in
        o ← (if old is Some k' then delete_oam_request k' o else Some o);
        match id with
        | None => Some (false, set_request k (set_error r ("stream " +:+ m_stream m +:+ " has no free session id")) o)
        | Some id =>
            let r := r <| r_session_id := id |> <| r_seq := 0 |> in
            if r_count r =? 1 then
              let r := r <| multireq_thread := false |> in
              '(_, o) ← send_request r (set_request k r o);
              Some (true, o <| o_ids := session_sent (o_ids o) (m_stream m) id (e_time e) |>)
            else if e_launches e then Some (true, set_request k (r <| multireq_thread := true |>) o)
            else Some (false, set_request k (set_error (r <| multireq_thread := false |>) "could not create new request thread") o)
        end
  end.

(** [oam_start_background_ping]; the name is for the log only. *)
Definition oam_start_background_ping (command : string) (o : Oam) : option (bool * Oam) :=
  match strip_ping command with
  | None => Some (false, o)
  | Some cmd =>
      '(r, g) ← parse_ping_command (o_core o) cmd true false (o_reg o);
      let '(k, o) := hold_request r (o <| o_reg := g |>) in
      if r_error r is Some _ then o ← delete_oam_request k o; Some (false, o)
      else
        let o := set_request k (r <| r_background := true |> <| r_count := 0 |>) o in
        mk ← mp_start r;
        m ← mps (o_reg o) !! mk;
        let '(st, ids) := get_stream_sessions (o_ids o) (m_stream m) in
        let o := o <| o_ids := ids |> in
        if (14 <=? stream_live_session_count st (e_time e))%nat then Some (false, o <| o_reqs := delete k (o_reqs o) |>)
        else initiate_request k None o
  end.

End module.

End Req.
