(* ===== verification/ConfObject.v ===== *)
(** * Objects of a configuration (conf_object.c)

    A line of the objects section is a type and assignments of parameters.  The
    tables are traversed with [hashmap_foreach]; a traversal with a callback
    that may fail is the loop over the items. *)

From S2P Require Import Prelude TimeUtils Protocol Packet SeqGen SeqRecov SeqRecovSpec Pof Object CString HashMap ConfUtils ConfActions IniFile.
From Stdlib Require Import Ascii.

Module ConfObj.
Import CStr HMap ConfU Ini.

#[local] Open Scope string_scope.
#[local] Open Scope list_scope.
#[local] Open Scope Z_scope.

(** ** Traversals that may fail *)

Section traversal.
Context {V S : Type} (cb : string → V → S → Res S).

(** The result of a traversal that stops with the first callback that fails. *)
Definition foreach_item (h : HashMap (V := V)) (s : S) : Res S :=
  (hashmap_foreach (λ k v r,
     match s ← r; cb k v s with Good s => (true, false, Good s) | r => (false, false, r) end) h (Good s)).2.

Fixpoint foreach_in (l : list (string * V)) (s : S) : Res S :=
  match l with [] => Good s | (k, v) :: l => s ← cb k v s; foreach_in l s end.

Lemma foreach_in_app l l' s : foreach_in (l ++ l') s = (s ← foreach_in l s; foreach_in l' s).
Proof. revert s. induction l as [|[k v] l IH]; intros s; [done|]. cbn. destruct (cb k v s); [apply IH | done | done]. Qed.

Lemma foreach_chain_in l s :
  let '(go, _, r) := foreach_chain (λ k v r,
     match s ← r; cb k v s with Good s => (true, false, Good s) | r => (false, false, r) end) l (Good s) in
  r = foreach_in l s ∧ (go = true ↔ ∃ s', r = Good s').
Proof.
  revert s. induction l as [|[k v] l IH]; intros s; [cbn; split; [done | by split; eauto]|]. cbn [foreach_chain foreach_in mbind res_bind].
  destruct (cb k v s) as [s1| |]; cbn [mbind res_bind]; [|split; [done | split; [done | by intros [??]]]..].
  specialize (IH s1). by destruct (foreach_chain _ l (Good s1)) as [[go l1] r].
Qed.

Lemma foreach_buckets_in bs s :
  (foreach_buckets (λ k v r,
     match s ← r; cb k v s with Good s => (true, false, Good s) | r => (false, false, r) end) bs (Good s)).2 = foreach_in (concat bs) s.
Proof.
  revert s. induction bs as [|b bs IH]; intros s; [done|]. cbn [foreach_buckets concat].
  pose proof (foreach_chain_in b s) as H. destruct (foreach_chain _ b (Good s)) as [[go b1] r]. destruct H as [-> Hgo]. rewrite foreach_in_app.
  destruct go.
  - destruct (proj1 Hgo eq_refl) as [s1 E]. rewrite E in *. cbn [mbind res_bind]. rewrite <- IH. by destruct (foreach_buckets _ bs (Good s1)) as [[??]?].
  - cbn [snd]. destruct (foreach_in b s); [|done..]. by discriminate (proj2 Hgo (ex_intro _ _ eq_refl)).
Qed.

Lemma foreach_item_in h s : foreach_item h s = foreach_in (items h) s.
Proof.
  unfold foreach_item, hashmap_foreach. pose proof (foreach_buckets_in (buckets h) s) as H.
  by destruct (foreach_buckets _ (buckets h) (Good s)) as [[??]?].
Qed.

(** An invariant on the items that were visited. *)
Lemma foreach_in_inv (I : list (string * V) → S → Prop) l s s' :
  I [] s → (∀ d k v r s1 s2, l = d ++ (k, v) :: r → I d s1 → cb k v s1 = Good s2 → I (d ++ [(k, v)]) s2) →
  foreach_in l s = Good s' → I l s'.
Proof.
  intros H0 Hstep. assert (∀ r d s1, l = d ++ r → I d s1 → foreach_in r s1 = Good s' → I l s') as Hall; [|by apply (Hall l [])].
  induction r as [|[k v] r IH]; intros d s1 Hl Hd H; [injection H as ->; rewrite app_nil_r in Hl; by subst|].
  cbn in H. apply bind_Good in H as (s2 & E & H). apply (IH (d ++ [(k, v)]) s2); [by rewrite <- app_assoc | by eapply Hstep | done].
Qed.
End traversal.

(** ** Handles

    The values of a table have different handles below its size. *)
Record numbered {A} (id : A → nat) (m : gmap string A) : Prop := {
  nb_lt : ∀ k x, m !! k = Some x → (id x < size m)%nat;
  nb_inj : ∀ k k' x x', m !! k = Some x → m !! k' = Some x' → id x = id x' → k = k'
}.

Lemma numbered_empty {A} (id : A → nat) : numbered id ∅.
Proof. split; [by intros ?? ?%lookup_empty_Some | by intros ???? ?%lookup_empty_Some]. Qed.

Lemma numbered_insert {A} (id : A → nat) m k x : numbered id m → m !! k = None → id x = size m → numbered id (<[k := x]> m).
Proof.
  intros [Hl Hi] Hk Hx. split.
  - intros k' x' [[<- <-]|[_ H%Hl]]%lookup_insert_Some; rewrite map_size_insert_None by done; lia.
  - intros k1 k2 x1 x2 [[<- <-]|[_ H1]]%lookup_insert_Some [[<- <-]|[_ H2]]%lookup_insert_Some Heq; [done | apply Hl in H2; lia | apply Hl in H1; lia | by eapply Hi].
Qed.

Lemma key_fresh {V} (d r : list (string * V)) k v l : NoDup l.*1 → l = d ++ (k, v) :: r → (k ∉ d.*1) ∧ (length d < length l)%nat.
Proof.
  intros Hnd ->. split; [|rewrite length_app; cbn; lia]. rewrite fmap_app, fmap_cons in Hnd. apply NoDup_app in Hnd as (_ & H & _). intros Hin. apply (H k Hin). left.
Qed.

(** A property of the state that every callback keeps. *)
Lemma foreach_keeps {V S} (J : S → Prop) (cb : string → V → S → bool * bool * S) h s :
  (∀ k v s, J s → J (cb k v s).2) → J s → J (hashmap_foreach cb h s).2.
Proof.
  intros Hcb. assert (∀ l s, J s → J (foreach_chain cb l s).2) as Hl.
  { induction l as [|[k v] l IH]; intros s' Hs; [done|]. cbn [foreach_chain]. specialize (Hcb k v s' Hs). destruct (cb k v s') as [[[] gone] s1]; [|done].
    specialize (IH s1 Hcb). by destruct (foreach_chain cb l s1) as [[??]?]. }
  unfold hashmap_foreach. revert s. induction (buckets h) as [|b bs IH]; intros s Hs; [done|]. cbn [foreach_buckets].
  specialize (Hl b s Hs). destruct (foreach_chain cb b s) as [[[] b1] s1]; [|done]. specialize (IH s1 Hl). by destruct (foreach_buckets cb bs s1) as [[??]?].
Qed.

(** [%i] of [sscanf] followed by [%c] gives one conversion: the number goes
    through [strtol] with the base of its prefix and is truncated. *)
Definition scan_int (s : string) : option Z :=
  let '(sg, s) := sign (skip_space s) in
  match (match hex_body s with
         | Some h => digits 16 0 false h
         | None => digits (if is_char s "0"%char then 8 else 10) 0 false s
         end) with
  | (n, true, EmptyString) => Some (i32 (clamp_i64 (sg * n)))
  | _ => None
  end.

Definition scan_unsigned (s : string) : Res Z := z ← or_err (scan_int s); Good (u32 z).

(** ** Parameters *)

Record GenParams := mk_gpar { g_reset_flag : bool; g_init_flag : bool; g_init_seq : Z }.
Record RecParams := mk_rpar {
  r_reset_flag : bool;
  r_init_flag : bool;
  r_history_length : Z;
  r_reset_msec : Z;
  r_diag : Rcvy.RecoveryDiagnosticConf;
  r_algo : Rcvy.SequenceRecoveryAlgorithm
}.
Record PofParams := mk_ppar { p_max_delay_ms : Z; p_take_any_time_ms : Z; p_buffer_size : Z }.

#[global] Instance eta_gpar : Eta GenParams := λ g, mk_gpar (g_reset_flag g) (g_init_flag g) (g_init_seq g).
#[global] Instance eta_rpar : Eta RecParams := λ r, mk_rpar (r_reset_flag r) (r_init_flag r) (r_history_length r) (r_reset_msec r) (r_diag r) (r_algo r).
#[global] Instance eta_ppar : Eta PofParams := λ p, mk_ppar (p_max_delay_ms p) (p_take_any_time_ms p) (p_buffer_size p).
#[global] Instance eta_diag : Eta Rcvy.RecoveryDiagnosticConf := λ d,
  Rcvy.mk_diag (Rcvy.admin_latent_error_paths d) (Rcvy.latent_error_period d) (Rcvy.latent_reset_period d) (Rcvy.latent_error_difference d) (Rcvy.outage_threshold d).

(** The type with its member of the union; a type of 0 is [ParNone]. *)
Inductive ObjParams := ParNone | ParGen (g : GenParams) | ParRec (r : RecParams) | ParPof (p : PofParams) | ParRepl.

Record ObjectInfo := mk_info { auto_mip_level : Z; params : ObjParams }.

(** The defaults of a type; the members that are not set are 0. *)
Definition set_default_parameters (t : ConfA.PipelineObjectType) : ObjectInfo :=
  mk_info (-1)
    match t with
    | ConfA.PIPEOBJ_SEQGEN => ParGen (mk_gpar false false 32768)
    | ConfA.PIPEOBJ_SEQREC => ParRec (mk_rpar false false 2 2000 (Rcvy.mk_diag 2 0 0 0 0) Rcvy.RCVY_Vector)
    | ConfA.PIPEOBJ_POF => ParPof (mk_ppar 20 2000 2)
    | ConfA.PIPEOBJ_REPL => ParRepl
    end.

Definition scan_boolean (v : string) : Res bool :=
  let b := read_boolean v in if b <? 0 then Err else Good (negb (b =? 0)).

Definition gen_parameter (key v : string) (g : GenParams) : Res GenParams :=
  if bool_decide (key = "ResetFlag") then b ← scan_boolean v; Good (g <| g_reset_flag := b |>)
  else if bool_decide (key = "InitSeqFlag") then b ← scan_boolean v; Good (g <| g_init_flag := b |>)
  else if bool_decide (key = "InitSeqStart") then n ← scan_unsigned v; Good (g <| g_init_seq := n |>)
  else Err.

Definition rec_parameter (key v : string) (r : RecParams) : Res RecParams :=
  let d := r_diag r in
  if bool_decide (key = "ResetFlag") then b ← scan_boolean v; Good (r <| r_reset_flag := b |>)
  else if bool_decide (key = "InitSeqFlag") then b ← scan_boolean v; Good (r <| r_init_flag := b |>)
  else if bool_decide (key = "frerSeqRcvyHistoryLength") then n ← scan_unsigned v; Good (r <| r_history_length := n |>)
  else if bool_decide (key = "frerSeqRcvyResetMSec") then n ← scan_unsigned v; Good (r <| r_reset_msec := n |>)
  else if bool_decide (key = "frerSeqRcvyLatentErrorPaths") then n ← scan_unsigned v; Good (r <| r_diag := d <| Rcvy.admin_latent_error_paths := n |> |>)
  else if bool_decide (key = "frerSeqRcvyLatentErrorPeriod") then n ← scan_unsigned v; Good (r <| r_diag := d <| Rcvy.latent_error_period := n |> |>)
  else if bool_decide (key = "frerSeqRcvyLatentResetPeriod") then n ← scan_unsigned v; Good (r <| r_diag := d <| Rcvy.latent_reset_period := n |> |>)
  else if bool_decide (key = "frerSeqRcvyLatentErrorDifference") then n ← scan_unsigned v; Good (r <| r_diag := d <| Rcvy.latent_error_difference := n |> |>)
  else if bool_decide (key = "frerSeqRcvyOutageThreshold") then n ← scan_unsigned v; Good (r <| r_diag := d <| Rcvy.outage_threshold := n |> |>)
  else if bool_decide (key = "frerSeqRcvyAlgorithm") then
    if bool_decide (v = "Vector") then Good (r <| r_algo := Rcvy.RCVY_Vector |>)
    else if bool_decide (v = "SeamlessVector") then Good (r <| r_algo := Rcvy.RCVY_SeamlessVector |>)
    else if bool_decide (v = "Match") then Good (r <| r_algo := Rcvy.RCVY_Match |>) else Err
  else Err.

Definition pof_parameter (key v : string) (p : PofParams) : Res PofParams :=
  if bool_decide (key = "TakeAnyTime") then n ← scan_unsigned v; Good (p <| p_take_any_time_ms := n |>)
  else if bool_decide (key = "MaxDelay") then n ← scan_unsigned v; Good (p <| p_max_delay_ms := n |>)
  else if bool_decide (key = "BufferSize") then n ← scan_unsigned v; Good (p <| p_buffer_size := n |>)
  else Err.

Definition type_named (s : string) : option ConfA.PipelineObjectType :=
  if bool_decide (s = "SeqGen") then Some ConfA.PIPEOBJ_SEQGEN
  else if bool_decide (s = "SeqRcvy") then Some ConfA.PIPEOBJ_SEQREC
  else if bool_decide (s = "Pof") then Some ConfA.PIPEOBJ_POF
  else if bool_decide (s = "Replicate") then Some ConfA.PIPEOBJ_REPL else None.

Definition token_cb (str : string) (info : ObjectInfo) : Res ObjectInfo :=
  match params info with
  | ParNone => t ← or_err (type_named str); Good (set_default_parameters t)
  | par =>
      '(key, v) ← or_err (parse_assignment str);
      if bool_decide (key = "AutoMIP") then
        l ← or_err (scan_int v);
        if (l >? 7) || (l <? 0) then Err else Good (mk_info l par)
      else
        par ← match par with
              | ParGen g => g ← gen_parameter key v g; Good (ParGen g)
              | ParRec r => r ← rec_parameter key v r; Good (ParRec r)
              | ParPof p => p ← pof_parameter key v p; Good (ParPof p)
              | ParRepl | ParNone => Err
              end;
        Good (mk_info (auto_mip_level info) par)
  end.

(** ** Objects *)

(** An object of the table: its handle, its state and its reference count, and
    the level of its automatic maintenance points. *)
Record ConfObject := mk_cobj { c_id : nat; c_obj : Obj.Object; c_mip : Z }.

Definition Objects := HashMap (V := ConfObject).

Section create.
(** Whether the system gives the object of this name its thread. *)
Context (launched : string → bool).

(** The constructor of the type; a type of 0 has none. *)
Definition create_object (name : string) (par : ObjParams) : option Obj.PipelineObject :=
  match par with
  | ParNone => None
  | ParGen g => Some (Obj.PIPEOBJ_SEQGEN (Gen.new_seq_gen name (g_reset_flag g) (g_init_flag g) (g_init_seq g)))
  | ParRec r =>
      if launched name then
        Some (Obj.PIPEOBJ_SEQREC (Rcvy.mk_obj (Rcvy.new_seq_rec name (r_algo r) (r_reset_flag r) (r_init_flag r) (r_history_length r) (r_reset_msec r) (r_diag r)) None))
      else None
  | ParPof p => if launched name then Some (Obj.PIPEOBJ_POF (POF.new_pof (p_max_delay_ms p) (p_take_any_time_ms p) (p_buffer_size p))) else None
  | ParRepl => Some (Obj.PIPEOBJ_REPL Obj.new_replicate)
  end.

Definition object_cb (key desc : string) (objects : Objects) : Res Objects :=
  info ← foreach_tokens desc token_cb (mk_info 0 ParNone);
  o ← or_err (create_object key (params info));
  Good (hashmap_insert objects key (mk_cobj (Z.to_nat (hashmap_count objects)) (Obj.mk_object o 1) (auto_mip_level info))).1.2.

Definition parse_objects (objects : Objects) (section : IniSection) : Res Objects := foreach_item object_cb (contents section) objects.

(** ** Accepted objects *)

(** The object of a line: the token callback gives its parameters, and it has one
    reference. *)
Definition object_from (key desc : string) (o : ConfObject) : Prop :=
  ∃ info po, foreach_tokens desc token_cb (mk_info 0 ParNone) = Good info ∧ create_object key (params info) = Some po ∧
    c_obj o = Obj.mk_object po 1 ∧ c_mip o = auto_mip_level info.

(** The objects of the lines that were visited; they have different handles. *)
Record objects_ok (d : list (string * string)) (m : gmap string ConfObject) : Prop := {
  oo_size : size m = length d;
  oo_dom : ∀ k, is_Some (m !! k) ↔ k ∈ d.*1;
  oo_line : ∀ k o, m !! k = Some o → ∃ desc, (k, desc) ∈ d ∧ object_from k desc o;
  oo_handle : numbered c_id m
}.

Lemma objects_ok_add d m k desc o :
  objects_ok d m → k ∉ d.*1 → object_from k desc o → c_id o = length d → objects_ok (d ++ [(k, desc)]) (<[k := o]> m).
Proof.
  intros [Hs Hd Hl Hh] Hk Ho Hid. assert (m !! k = None) as Hn by (apply eq_None_not_Some; by rewrite Hd). split.
  - rewrite map_size_insert_None, length_app by done. cbn. lia.
  - intros k'. rewrite fmap_app, elem_of_app. change ([(k, desc)].*1) with [k]. rewrite list_elem_of_singleton, <- Hd, lookup_insert_is_Some'. naive_solver.
  - intros k' o' [[<- <-]|[_ H]]%lookup_insert_Some; [exists desc; split; [apply elem_of_app; right; by apply list_elem_of_singleton | done]|].
    destruct (Hl _ _ H) as (desc' & Hin & Ho'). exists desc'. split; [by apply elem_of_app; left | done].
  - by apply numbered_insert; [| |rewrite Hid].
Qed.

Lemma parse_objects_spec section m h h' mo :
  represents (contents section) m → Z.of_nat (size m) < 2 ^ 32 - 1 → represents h mo → mo = ∅ → parse_objects h section = Good h' →
  ∃ m', represents h' m' ∧ objects_ok (items (contents section)) m'.
Proof.
  intros Hr Hs Hh -> H. unfold parse_objects in H. rewrite foreach_item_in in H. pose proof (items_nodup _ (rp_wf _ _ Hr)) as Hnd.
  apply (foreach_in_inv object_cb (λ d h, ∃ m', represents h m' ∧ objects_ok d m')) in H; [done | |].
  - exists ∅. split; [done|]. split; [by rewrite map_size_empty | intros k; rewrite lookup_empty; split; [by intros [??] | by intros ?%elem_of_nil] | by intros ?? ?%lookup_empty_Some | apply numbered_empty].
  - intros d k desc r s1 s2 Hl (m1 & Hm1 & Hok) Hcb. destruct (key_fresh _ _ _ _ _ Hnd Hl) as [Hk Hlen]. rewrite (items_length _ _ Hr) in Hlen.
    unfold object_cb in Hcb. res_inv Hcb. apply or_err_Good in E0. injection Hcb as <-. pose proof (oo_size _ _ Hok) as Hsz.
    pose proof (insert_refines s1 m1 k (mk_cobj (Z.to_nat (hashmap_count s1)) (Obj.mk_object r1 1) (auto_mip_level r0)) Hm1 ltac:(lia)) as Hi.
    destruct (hashmap_insert s1 k _) as [[b h1] old]. cbn [fst snd]. destruct Hi as [Hi _]. exists (<[k := mk_cobj (Z.to_nat (hashmap_count s1)) (Obj.mk_object r1 1) (auto_mip_level r0)]> m1).
    split; [exact Hi|]. apply objects_ok_add; [done | done | by exists r0, r1 |]. cbn. unfold hashmap_count. rewrite (rp_count _ _ Hm1). lia.
Qed.

Definition params_ok (info : ObjectInfo) : Prop :=
  -1 <= auto_mip_level info <= 7 ∧
  match params info with
  | ParGen g => 0 <= g_init_seq g < 2 ^ 32
  | ParRec r => 0 <= r_history_length r < 2 ^ 32
  | _ => True
  end.

Lemma scan_unsigned_range v n : scan_unsigned v = Good n → 0 <= n < 2 ^ 32.
Proof. unfold scan_unsigned. intros H. res_inv H. injection H as <-. apply Z.mod_pos_bound. lia. Qed.

Lemma gen_parameter_ok key v g g' : gen_parameter key v g = Good g' → 0 <= g_init_seq g < 2 ^ 32 → 0 <= g_init_seq g' < 2 ^ 32.
Proof.
  unfold gen_parameter. intros H Hg. repeat (case_bool_decide; [res_inv H; injection H as <-; first [exact Hg | by eapply scan_unsigned_range]|]). done.
Qed.

Lemma rec_parameter_ok key v r r' : rec_parameter key v r = Good r' → 0 <= r_history_length r < 2 ^ 32 → 0 <= r_history_length r' < 2 ^ 32.
Proof.
  unfold rec_parameter. intros H Hr.
  repeat (case_bool_decide; [first [res_inv H; injection H as <-; first [exact Hr | by eapply scan_unsigned_range]
                                   | repeat (case_bool_decide; [injection H as <-; exact Hr|]); done]|]). done.
Qed.

Lemma token_cb_ok str info info' : token_cb str info = Good info' → (params info = ParNone ∨ params_ok info) → params_ok info'.
Proof.
  intros H Hp. unfold token_cb in H. destruct (params info) as [|g|r|q|] eqn:Ep; cycle 1.
  5: { res_inv H. injection H as <-. destruct r; repeat split; cbn; lia. }
  all: destruct Hp as [?|[Hm Hp]]; [done|]; rewrite Ep in Hp; apply bind_Good in H as ([key v] & E & H); case_bool_decide;
    [res_inv H; destruct ((r0 >? 7) || (r0 <? 0)) eqn:El || destruct ((r >? 7) || (r <? 0)) eqn:El; [done|]; injection H as <-; apply orb_false_iff in El as [E1 E2]; split; [cbn; lia | done]|].
  all: res_inv H; injection H as <-; (split; [exact Hm|]); try done.
  - res_inv E0. injection E0 as <-. by eapply gen_parameter_ok.
  - res_inv E0. injection E0 as <-. by eapply rec_parameter_ok.
  - res_inv E0. by injection E0 as <-.
Qed.

(** A recovery object with a positive history length can be run. *)
Lemma object_from_wf key desc o :
  object_from key desc o →
  -1 <= c_mip o <= 7 ∧ Obj.obj_refcount (c_obj o) = 1 ∧
  ∀ r, Obj.obj (c_obj o) = Obj.PIPEOBJ_SEQREC r → 0 < Rcvy.history_length (Rcvy.conf (Rcvy.main_rec r)) → RcvyWindow.rec_wf (Rcvy.main_rec r).
Proof.
  intros (info & po & Ht & Hc & -> & ->). assert (params_ok info) as [Hm Hp].
  { assert (params info = ParNone ∨ params_ok info) as [E|]; [|rewrite E in Hc; done | done].
    refine (foreach_inv (λ i, params i = ParNone ∨ params_ok i) _ _ _ _ _ _ Ht); [|by left]. intros str i i' Hi H. right. by eapply token_cb_ok. }
  split; [done|]. split; [done|]. cbn. intros r -> Hpos. destruct (params info) as [|g|q|q|]; cbn in Hc; try done; destruct (launched key); try done.
  injection Hc as <-. cbn in *. assert (i32 (r_history_length q) = r_history_length q) as E by (revert Hpos; unfold i32; Z.to_euclidean_division_equations; lia).
  unfold RcvyWindow.rec_wf. cbn. rewrite !length_replicate, E in *. lia.
Qed.

End create.
End ConfObj.
