(* ===== verification/ConfInterface.v ===== *)
(** * Interfaces of a configuration (conf_interface.c, constructors of if_*.c)

    A line of the interfaces section is a type, a device and parameters of the
    type; a line whose name ends in [:streams] lists the streams of an
    interface.  The senders of a udp-in interface are parsed as in
    if_udp_in.c. *)

From S2P Require Import Prelude TimeUtils Protocol Packet Object Pipeline CString HashMap Double Json ConfUtils ConfActions Assemble Interface OamSession OamMp OamCodec ObjState UdpOut OamRequest IniFile ConfObject.
From Stdlib Require Import Ascii.

Module ConfIf.
Import CStr HMap ConfU Ifc UdpOut Ini ConfObj Req(parse_ip_port, OAM_PORT).

#[local] Open Scope string_scope.
#[local] Open Scope list_scope.
#[local] Open Scope Z_scope.

(** [strstr]: the text before the first occurrence, and the text from there. *)
Fixpoint strstr_at (p s : string) : option (string * string) :=
  if String.prefix p s then Some ("", s)
  else match s with EmptyString => None | String c t => '(a, b) ← strstr_at p t; Some (String c a, b) end.

(** ** Constructors *)

Record SenderList := mk_sender { s_port : Z; s_family : Family; s_ip : string; s_addr : sockaddr; s_ifname : string }.

(** The private data of the interface types. *)
Inductive IfacePrivate :=
  | EthIfData
  | PacketFifo
  | IpIfData
  | UdpInIfData (port : Z) (f : Family) (senders : list SenderList)
  | UdpOutData (u : UdpOutIfData)
  | OamIfData (ip : string) (port : Z)
  | OamEthIfData
  | OamCmdIfData (port : Z) (f : Family) (srcip : option (list Z)).

(** An interface of the table, with its handle and its device. *)
Record ConfIface := mk_ciface { ci_id : nat; ci_iface : Interface; ci_ifname : option string; ci_data : IfacePrivate }.

Definition Ifaces := HashMap (V := ConfIface).

Definition new_eth_interface (id : nat) (name ifname : string) : ConfIface := mk_ciface id (new_iface IF_ETH name) (Some ifname) EthIfData.
Definition new_internal_interface (id : nat) (name : string) : ConfIface := mk_ciface id (new_iface IF_INTERNAL name) None PacketFifo.

(** The device is duplicated even when there is none. *)
Definition new_ip_interface (id : nat) (name : string) (ifname : option string) : Res ConfIface :=
  match ifname with
  | None => Crash
  | Some d => Good (mk_ciface id (new_iface IF_IP name) (Some d) IpIfData)
  end.

(** The senders so far, newest first, and the one that waits for the name of
    its interface. *)
Record SenderState := mk_sest { senders : list SenderList; s_current : option (string → SenderList) }.

Definition process_sender (str : string) (sest : SenderState) : Res SenderState :=
  match s_current sest with
  | Some s => Good (mk_sest (s str :: senders sest) None)
  | None =>
      '(ip, port) ← or_err (parse_ip_port str OAM_PORT);
      '(f, a) ← or_err (parse_address ip);
      Good (mk_sest (senders sest) (Some (mk_sender port f ip (mk_sockaddr f a port))))
  end.

Definition parse_senders (str : string) : Res (list SenderList) :=
  sest ← foreach_stages str process_sender (mk_sest [] None);
  match s_current sest, senders sest with
  | None, _ :: _ => Good (senders sest)
  | _, _ => Err
  end.

Definition new_udp_in_interface (id : nat) (name ifname : string) (port ipversion : Z) (str : option string) : Res ConfIface :=
  l ← match str with None => Good [] | Some str => parse_senders str end;
  Good (mk_ciface id (new_iface IF_UDP_IN name) (Some ifname) (UdpInIfData port (if ipversion =? 6 then AF_INET6 else AF_INET) l)).

Definition new_oam_interface (id : nat) (name ip : string) (port : Z) : ConfIface := mk_ciface id (new_iface IF_OAM name) None (OamIfData ip port).
Definition new_oam_eth_interface (id : nat) (name ifname : string) : ConfIface := mk_ciface id (new_iface IF_OAM_ETH name) (Some ifname) OamEthIfData.

Definition new_oam_cmd_interface (id : nat) (name : string) (ifname ip : option string) (port : Z) : Res ConfIface :=
  let dev := match ifname with Some d => if bool_decide (d = "any") then None else Some d | None => None end in
  '(f, a) ← match ip with
            | Some ip => '(f, a) ← or_err (parse_address ip); Good (f, Some a)
            | None => Good (AF_INET6, None)
            end;
  Good (mk_ciface id (new_iface IF_OAM_CMD name) dev (OamCmdIfData port f a)).

(** ** The lines *)

Record TokenState := mk_tstate { ts_type : option string; ts_iface : option string; ts_params : Table }.

#[global] Instance eta_tstate : Eta TokenState := λ t, mk_tstate (ts_type t) (ts_iface t) (ts_params t).

Definition iface_token_cb (token : string) (ts : TokenState) : Res TokenState :=
  match ts_type ts with
  | None => Good (ts <| ts_type := Some token |>)
  | Some _ =>
      '(key, v) ← or_err (parse_assignment token);
      if bool_decide (key = "iface") then
        match ts_iface ts with None => Good (ts <| ts_iface := Some v |>) | Some _ => Err end
      else
        match hashmap_find (ts_params ts) key with
        | Some _ => Err
        | None => Good (ts <| ts_params := (hashmap_insert (ts_params ts) key v).1.2 |>)
        end
  end.

Definition OAM_CMD_PORT : Z := 8000.

(** A number parameter with its default and its limit. *)
Definition number_parameter (scan : string → Res Z) (ts : TokenState) (key : string) (dflt : Z) (valid : Z → bool) : Res Z :=
  match hashmap_find (ts_params ts) key with
  | None => Good dflt
  | Some v => n ← scan v; if valid n then Good n else Err
  end.

Definition port_parameter (ts : TokenState) (key : string) (dflt : Z) : Res Z :=
  number_parameter scan_unsigned ts key dflt (λ n, n <=? 65535).

(** The interface of a type. *)
Definition create_iface (id : nat) (name type : string) (ts : TokenState) : Res ConfIface :=
  let get := hashmap_find (ts_params ts) in
  if bool_decide (type = "eth") then d ← or_err (ts_iface ts); Good (new_eth_interface id name d)
  else if bool_decide (type = "internal") then Good (new_internal_interface id name)
  else if bool_decide (type = "ip") then new_ip_interface id name (ts_iface ts)
  else if bool_decide (type = "udp-in") then
    port ← port_parameter ts "port" 6635;
    ipver ← number_parameter (λ v, or_err (scan_u32 v)) ts "ipv" 4 (λ n, (n =? 4) || (n =? 6));
    d ← or_err (ts_iface ts);
    new_udp_in_interface id name d port ipver (get "senders")
  else if bool_decide (type = "udp-out") then
    srcport ← port_parameter ts "srcport" 0;
    dstport ← port_parameter ts "dstport" 6635;
    dst_ip ← or_err (get "dstip");
    prio ← number_parameter scan_unsigned ts "prio" 0 (λ n, n <=? 7);
    d ← or_err (ts_iface ts);
    x ← or_err (new_udp_out_interface name srcport dst_ip dstport prio);
    Good (mk_ciface id (iface x) (Some d) (UdpOutData (uid x)))
  else if bool_decide (type = "oam_cmd") then
    port ← port_parameter ts "port" OAM_CMD_PORT;
    new_oam_cmd_interface id name (ts_iface ts) (get "ip") port
  else if bool_decide (type = "oam") then
    ip ← or_err (get "ip");
    port ← port_parameter ts "port" OAM_PORT;
    Good (new_oam_interface id name ip port)
  else if bool_decide (type = "oam_eth") then d ← or_err (ts_iface ts); Good (new_oam_eth_interface id name d)
  else Err.

Definition iface_cb (key desc : string) (ifaces : Ifaces) : Res Ifaces :=
  match strstr_at ":streams" key with
  | Some _ => Good ifaces
  | None =>
      ts ← foreach_tokens desc iface_token_cb (mk_tstate None None (mk_hash (replicate 7 []) 0));
      type ← or_err (ts_type ts);
      i ← create_iface (Z.to_nat (hashmap_count ifaces)) key type ts;
      Good (hashmap_insert ifaces key i).1.2
  end.

Definition parse_interfaces (ifaces : Ifaces) (section : IniSection) : Res Ifaces := foreach_item iface_cb (contents section) ifaces.

(** ** The streams of the interfaces *)

Section streams.
Context {A : Type} (streams : HashMap (V := A)) (ifaces : Ifaces).

(** The streams of an interface: a list of names with the streams. *)
Definition ConfStreamList : Type := list (string * A).

Definition iface_stream_token_cb (token : string) (l : ConfStreamList) : Res ConfStreamList :=
  s ← or_err (hashmap_find streams token); Good ((token, s) :: l).

(** Two elements have the same name. *)
Fixpoint repeated (l : list string) : bool :=
  match l with [] => false | x :: l => bool_decide (x ∈ l) || repeated l end.

Definition iface_stream_cb (key str : string) (iface_streams : HashMap (V := ConfStreamList)) : Res (HashMap (V := ConfStreamList)) :=
  match strstr_at ":streams" key with
  | None => Good iface_streams
  | Some (ifname, rest) =>
      if negb (bool_decide (String.length rest = 8%nat)) then Err
      else
        _ ← or_err (hashmap_find ifaces ifname);
        l ← foreach_tokens str iface_stream_token_cb [];
        if repeated l.*1 then Err else Good (hashmap_insert iface_streams ifname (rev l)).1.2
  end.

Definition parse_interface_streams (iface_streams : HashMap (V := ConfStreamList)) (section : IniSection) : Res (HashMap (V := ConfStreamList)) :=
  foreach_item iface_stream_cb (contents section) iface_streams.
End streams.

(** ** Accepted interfaces *)

(** The interface of a line has the name and the handle it was created with, one
    reference, and is not open. *)
Lemma create_iface_new id name type ts i :
  create_iface id name type ts = Good i → ci_id i = id ∧ ∃ t, ci_iface i = new_iface t name.
Proof.
  unfold create_iface. intros H. assert (∀ t d x, ci_id (mk_ciface id (new_iface t name) d x) = id ∧ ∃ t', ci_iface (mk_ciface id (new_iface t name) d x) = new_iface t' name) as Hn by (by intros; split; [|eexists]).
  repeat (case_bool_decide; [try (by res_inv H; injection H as <-; apply Hn)|]); [| | | |done].
  - unfold new_ip_interface in H. destruct (ts_iface ts); [injection H as <-; apply Hn | done].
  - res_inv H. unfold new_udp_in_interface in H. res_inv H. injection H as <-. apply Hn.
  - res_inv H. injection H as <-. apply or_err_Good in E4. unfold new_udp_out_interface in E4. apply bind_Some in E4 as ([[a b] c] & _ & E4). injection E4 as <-. apply Hn.
  - res_inv H. unfold new_oam_cmd_interface in H. apply bind_Good in H as ([f a] & _ & H). injection H as <-. apply Hn.
Qed.

Lemma parse_interfaces_spec section m h h' :
  represents (contents section) m → Z.of_nat (size m) < 2 ^ 32 - 1 → represents h ∅ → parse_interfaces h section = Good h' →
  ∃ m', represents h' m' ∧ numbered ci_id m' ∧ ∀ k i, m' !! k = Some i → is_Some (m !! k) ∧ ∃ t, ci_iface i = new_iface t k.
Proof.
  intros Hr Hs Hh H. unfold parse_interfaces in H. rewrite foreach_item_in in H. pose proof (items_nodup _ (rp_wf _ _ Hr)) as Hnd.
  apply (foreach_in_inv iface_cb (λ d h, ∃ m', represents h m' ∧ numbered ci_id m' ∧ (size m' <= length d)%nat ∧
    ∀ k i, m' !! k = Some i → k ∈ d.*1 ∧ ∃ t, ci_iface i = new_iface t k)) in H as (m' & Hm' & Hn & _ & Hk).
  - exists m'. split; [done|]. split; [done|]. intros k i [[[k' v] [-> Hin]]%list_elem_of_fmap Ht]%Hk. split; [|done].
    rewrite items_elem, (rp_find _ _ Hr) in Hin by apply Hr. by eexists.
  - exists ∅. split; [done|]. split; [apply numbered_empty|]. split; [by rewrite map_size_empty | by intros ?? ?%lookup_empty_Some].
  - intros d k desc r s1 s2 Hl (m1 & Hm1 & Hn & Hsz & Hk) Hcb. destruct (key_fresh _ _ _ _ _ Hnd Hl) as [Hf Hlen]. rewrite (items_length _ _ Hr) in Hlen. rewrite fmap_app. setoid_rewrite elem_of_app. rewrite length_app.
    unfold iface_cb in Hcb. destruct (strstr_at ":streams" k).
    { injection Hcb as <-. exists m1. split_and!; [done | done | cbn; lia|]. intros k' i' [? ?]%Hk. by split; [left|]. }
    res_inv Hcb. apply create_iface_new in E1 as [Hid Ht]. injection Hcb as <-. assert (m1 !! k = None) as Hk0 by (apply eq_None_not_Some; by intros [i [? _]%Hk]).
    pose proof (insert_refines s1 m1 k r2 Hm1 ltac:(lia)) as Hi. destruct (hashmap_insert s1 k r2) as [[b h1] old]. cbn [fst snd]. destruct Hi as [Hi _]. exists (<[k := r2]> m1). split_and!.
    + exact Hi.
    + apply numbered_insert; [done | done |]. rewrite Hid. unfold hashmap_count. rewrite (rp_count _ _ Hm1). lia.
    + rewrite map_size_insert_None by done. cbn. lia.
    + intros k' i' [[<- <-]|[_ [? ?]%Hk]]%lookup_insert_Some; [split; [right; by apply list_elem_of_singleton | done] | by split; [left|]].
Qed.

(** ** Accepted stream lists *)

Lemma strstr_at_split p s a b : strstr_at p s = Some (a, b) → s = a +:+ b ∧ String.prefix p b = true.
Proof.
  revert a. induction s as [|c s IH]; intros a; cbn [strstr_at]; [destruct (String.prefix p "") eqn:E; [|done] | destruct (String.prefix p (String c s)) eqn:E]; [intros H; by injection H as <- <-..|].
  destruct (strstr_at p s) as [[a' b']|]; [|done]. cbn. intros H. injection H as <- <-. destruct (IH a' eq_refl) as [-> ?]. done.
Qed.

Lemma prefix_whole p b : String.prefix p b = true → String.length b = String.length p → b = p.
Proof.
  revert b. induction p as [|c p IH]; intros [|d b]; cbn; try done. destruct (ascii_dec c d) as [->|]; [|done]. intros Hp H. f_equal. apply IH; [done | lia].
Qed.

Lemma repeated_nodup l : repeated l = false → NoDup l.
Proof. induction l as [|x l IH]; [constructor|]. cbn. intros [H1%bool_decide_eq_false H2]%orb_false_iff. constructor; auto. Qed.

Lemma rev_names {X} (l : list (string * X)) : (rev l).*1 = rev l.*1.
Proof. induction l as [|x l IH]; [done|]. cbn. by rewrite fmap_app, IH. Qed.

Section accepted.
Context {A : Type} (streams : HashMap (V := A)) (ifaces : Ifaces).

(** The list of a line: the interface is known, and the streams are the ones the
    line names, in its order and each once. *)
Definition stream_list_of (ifname line : string) (l : ConfStreamList (A := A)) : Prop :=
  is_Some (hashmap_find ifaces ifname) ∧ l.*1 = tokens line ∧ NoDup l.*1 ∧ Forall (λ x, hashmap_find streams x.1 = Some x.2) l.

Lemma foreach_stream_tokens ts : ∀ acc l,
  foreach (iface_stream_token_cb streams) ts acc = Good l → Forall (λ x, hashmap_find streams x.1 = Some x.2) acc →
  l.*1 = rev ts ++ acc.*1 ∧ Forall (λ x, hashmap_find streams x.1 = Some x.2) l.
Proof.
  induction ts as [|t ts IH]; intros acc l H Hacc; cbn in H; [by injection H as <-|]. res_inv H. unfold iface_stream_token_cb in E. res_inv E. apply or_err_Good in E0. injection E as <-.
  destruct (IH _ _ H) as [-> Hl]; [by constructor|]. cbn. by rewrite <- app_assoc.
Qed.

Lemma iface_stream_cb_spec key str h h' :
  iface_stream_cb streams ifaces key str h = Good h' →
  match strstr_at ":streams" key with
  | None => h' = h
  | Some (ifname, _) => key = ifname +:+ ":streams" ∧ ∃ l, stream_list_of ifname str l ∧ h' = (hashmap_insert h ifname l).1.2
  end.
Proof.
  unfold iface_stream_cb. destruct (strstr_at ":streams" key) as [[ifname rest]|] eqn:E; [|intros H; by injection H as <-].
  apply strstr_at_split in E as [-> Hp]. case_bool_decide as Hl; [|done]. cbn [negb]. intros H. res_inv H. apply or_err_Good in E.
  destruct (foreach_stream_tokens _ _ _ E0) as [E1 Hf]; [constructor|]. destruct (repeated r0.*1) eqn:Hrep; [done|]. injection H as <-.
  apply prefix_whole in Hp; [|done]. split; [by rewrite Hp|]. exists (rev r0). split; [|done]. split; [by eexists|]. rewrite app_nil_r in E1.
  rewrite rev_names, E1, rev_involutive. split; [done|]. apply repeated_nodup in Hrep. rewrite E1 in Hrep. split.
  - by rewrite (Permutation_rev (tokens str)).
  - by rewrite <- (Permutation_rev r0).
Qed.

Lemma parse_interface_streams_spec section m h h' :
  represents (contents section) m → Z.of_nat (size m) < 2 ^ 32 - 1 → represents h ∅ → parse_interface_streams streams ifaces h section = Good h' →
  ∃ m', represents h' m' ∧
    (∀ ifname l, m' !! ifname = Some l → ∃ line, m !! (ifname +:+ ":streams") = Some line ∧ stream_list_of ifname line l) ∧
    (∀ key line ifname rest, m !! key = Some line → strstr_at ":streams" key = Some (ifname, rest) → is_Some (m' !! ifname)).
Proof.
  intros Hr Hs Hh H. unfold parse_interface_streams in H. rewrite foreach_item_in in H. pose proof (items_nodup _ (rp_wf _ _ Hr)) as Hnd.
  assert (∀ k v, (k, v) ∈ items (contents section) ↔ m !! k = Some v) as Hin by (intros; by rewrite items_elem, (rp_find _ _ Hr) by apply Hr).
  apply (foreach_in_inv (iface_stream_cb streams ifaces) (λ d h, ∃ m', represents h m' ∧ (size m' <= length d)%nat ∧
    (∀ ifname l, m' !! ifname = Some l → ∃ line, (ifname +:+ ":streams", line) ∈ d ∧ stream_list_of ifname line l) ∧
    (∀ key line ifname rest, (key, line) ∈ d → strstr_at ":streams" key = Some (ifname, rest) → is_Some (m' !! ifname)))) in H as (m' & Hm' & _ & H1 & H2).
  - exists m'. split; [done|]. split; [intros ifname l (line & ?%Hin & ?)%H1; eauto | intros ???? ?%Hin; eauto].
  - exists ∅. split; [done|]. split; [by rewrite map_size_empty|]. split; [by intros ?? ?%lookup_empty_Some | by intros ???? ?%elem_of_nil].
  - intros d k str r s1 s2 Hl (m1 & Hm1 & Hsz & H1 & H2) Hcb. destruct (key_fresh _ _ _ _ _ Hnd Hl) as [Hf Hlen]. rewrite (items_length _ _ Hr) in Hlen. setoid_rewrite elem_of_app. setoid_rewrite list_elem_of_singleton. rewrite length_app.
    apply iface_stream_cb_spec in Hcb. destruct (strstr_at ":streams" k) as [[ifname rest]|] eqn:Ek.
    + destruct Hcb as (-> & l & Hlo & ->). pose proof (insert_refines s1 m1 ifname l Hm1 ltac:(lia)) as Hi. destruct (hashmap_insert s1 ifname l) as [[b h1] old]. cbn [fst snd]. destruct Hi as [Hi _]. exists (<[ifname := l]> m1). split_and!.
      * exact Hi.
      * rewrite map_size_insert. cbn. destruct (m1 !! ifname); cbn; lia.
      * intros if' l' [[<- <-]|[_ (line & ? & ?)%H1]]%lookup_insert_Some; eauto.
      * intros key line if' rest' [Hd|[= -> ->]] Hk; rewrite lookup_insert_is_Some'; [right; by eapply H2|]. left. congruence.
    + subst s2. exists m1. split_and!; [done | cbn; lia | intros ?? (line & ? & ?)%H1; eauto|]. intros key line if' rest' [Hd|[= -> ->]] Hk; [by eapply H2 | congruence].
Qed.
End accepted.

End ConfIf.
