(* ===== verification/ConfFile.v ===== *)
(** * Configuration files (conf_streams.c, conf_oam.c, configfile.c)

    The sections of a file become a transaction: interfaces, objects, streams,
    the streams of each interface, and background pings.  Parsing a packet line
    or a match line cuts the text of the section at the end of the first word,
    since the lines are split in place. *)

From S2P Require Import Prelude TimeUtils Protocol Packet HeaderField ParseTree SeqRecov SeqRecovSpec Object Pipeline CString HashMap ConfUtils ConfActions ConfPipeline ConfTyping ConfSound ConfPacket Interface UdpOut IniFile ConfObject ConfInterface.
From Stdlib Require Import Ascii.

Module ConfFile.
Import CStr HMap Proto Parse ConfU ConfA ConfP ConfPkt Sound Ini ConfObj ConfIf.

#[local] Open Scope string_scope.
#[local] Open Scope list_scope.
#[local] Open Scope Z_scope.

(** ** Streams *)

(** The parser leaves the lists of addresses that actions refer to, the interfaces
    that must offload delays, and the names of the pipelines. *)
Record ConfStream := mk_cstream { cs_actions : list ConfAction; cs_headers : list HeaderDescriptor; cs_parsed : StageState }.

Definition Streams := HashMap (V := ConfStream).

(** The streams, and the texts of the section as they are now. *)
Record ConfStreamState := mk_css { css_streams : Streams; css_text : string → option string }.

(** What is left of a line that was split in place: the space in front and the
    first word. *)
Fixpoint cut_word (s : string) : string :=
  match s with
  | EmptyString => EmptyString
  | String c t => if isspace c || Ascii.eqb c ","%char then EmptyString else String c (cut_word t)
  end.
Fixpoint cut_line (s : string) : string :=
  match s with
  | EmptyString => EmptyString
  | String c t => if isspace c then String c (cut_line t) else cut_word s
  end.

Definition write_text (text : string → option string) (key v : string) (k : string) : option string :=
  if bool_decide (k = key) then Some v else text k.

Definition object_type (o : Obj.PipelineObject) : PipelineObjectType :=
  match o with
  | Obj.PIPEOBJ_SEQGEN _ => PIPEOBJ_SEQGEN
  | Obj.PIPEOBJ_SEQREC _ => PIPEOBJ_SEQREC
  | Obj.PIPEOBJ_POF _ => PIPEOBJ_POF
  | Obj.PIPEOBJ_REPL _ => PIPEOBJ_REPL
  end.

Section config.
(** The property readers of the interfaces, and whether [errno] is left over from
    an earlier call when the lines of a stream are parsed. *)
Context (readers : nat → string → ProtocolFieldType → Z → Z → option producer) (stale : string → bool).

Section streams.
Context (ifaces : Ifaces) (objects : Objects).

(** What an action line refers to. *)
Definition line_conf (text : string → option string) (stream : string) : Conf :=
  mk_conf
    (λ s, o ← hashmap_find objects s; Some (mk_objref (c_id o) (object_type (Obj.obj (c_obj o))) s (c_mip o)))
    (λ s, ci_id <$> hashmap_find ifaces s)
    readers text (stale stream).

Definition payload_header : list HeaderDescriptor := [mk_desc "payload" PROTO_ID_PAYLOAD []].

Definition packetline_cb (key value : string) (st : ConfStreamState) : Res ConfStreamState :=
  match strchr ":"%char key with
  | Some (name, suffix) =>
      if bool_decide (suffix = "packet") then
        headers ← parse_packet_line value;
        let text := write_text (css_text st) key (cut_line value) in
        if text name is Some _ then Err
        else
          matchline ← or_err (text (name +:+ ":match"));
          headers ← parse_match_line (stale name) headers matchline;
          let text := write_text text (name +:+ ":match") (cut_line matchline) in
          actionline ← or_err (text (name +:+ ":actions"));
          '(actions, st') ← parse_actions_line (line_conf text name) name actionline headers;
          Good (mk_css (hashmap_insert (css_streams st) name (mk_cstream actions headers st')).1.2 text)
      else Good st
  | None =>
      if bool_decide (key = "notification_session") then
        '(actions, st') ← parse_actions_line (line_conf (css_text st) key) key value payload_header;
        Good (mk_css (hashmap_insert (css_streams st) key (mk_cstream actions payload_header st')).1.2 (css_text st))
      else Good st
  end.

Definition checkline_cb (key value : string) (st : ConfStreamState) : Res ConfStreamState :=
  match strchr ":"%char key with
  | Some (name, suffix) =>
      if bool_decide (suffix = "match") then
        match hashmap_find (css_streams st) name with Some _ => Good st | None => Err end
      else Good st
  | None => Good st
  end.

Definition parse_streams (streams : Streams) (section : IniSection) : Res Streams :=
  st ← foreach_item packetline_cb (contents section) (mk_css streams (inisection_get section));
  st ← foreach_item checkline_cb (contents section) st;
  Good (css_streams st).
End streams.

(** ** Background pings *)

Definition oam_cb (key cmdline : string) (oam : Table) : Res Table := Good (hashmap_insert oam key cmdline).1.2.
Definition parse_oam (oam : Table) (section : IniSection) : Res Table := foreach_item oam_cb (contents section) oam.

(** ** The file *)

Definition remove_comment (v : string) : string :=
  let v := match strchr ";"%char v with Some (v, _) => v | None => v end in
  match strchr "#"%char v with Some (v, _) => v | None => v end.

(** The callback changes the texts in place. *)
Definition map_texts (f : string → string) (h : Table) : Table :=
  mk_hash (map (map (λ x, (x.1, f x.2))) (buckets h)) (elemcount h).

Definition remove_comments_from_values (l : list IniSection) : list IniSection :=
  map (λ s, s <| contents := map_texts remove_comment (contents s) |>) l.

(** The flags say which sections were found; a section without a name is a NULL
    pointer. *)
Fixpoint find_duplicate_sections (ifs obj str : bool) (l : list IniSection) : Res unit :=
  match l with
  | [] => Good ()
  | s :: l =>
      match sec_name s with
      | None => Crash
      | Some n =>
          let is_ifs := bool_decide (n = "interfaces") in
          let is_obj := bool_decide (n = "objects") in
          let is_str := bool_decide (n = "streams") in
          if (is_ifs && ifs) || (is_obj && obj) || (is_str && str) then Err
          else find_duplicate_sections (ifs || is_ifs) (obj || is_obj) (str || is_str) l
      end
  end.

Fixpoint find_unknown_section (l : list IniSection) : Res unit :=
  match l with
  | [] => Good ()
  | s :: l =>
      match sec_name s with
      | None => Crash
      | Some n => if bool_decide (n ∈ ["interfaces"; "objects"; "streams"; "oam"]) then find_unknown_section l else Err
      end
  end.

Record StateTransaction := mk_tr {
  t_ifaces : Ifaces;
  t_objects : Objects;
  t_streams : Streams;
  t_iface_streams : HashMap (V := ConfStreamList (A := ConfStream));
  t_oam : Table;
  t_del_ifaces : HashMap (V := unit)
}.

Definition empty_table {V} (n : nat) : HashMap (V := V) := mk_hash (replicate n []) 0.

Definition new_transaction : StateTransaction :=
  mk_tr (empty_table 11) (empty_table 11) (empty_table 22) (empty_table 11) (empty_table 7) (empty_table 7).

Context (launched : string → bool).

Definition read_config_file (file : string) : Res StateTransaction :=
  let tr := new_transaction in
  ini ← match read_inifile file with IniOk l => Good l | IniErr _ _ => Err | IniStuck => Crash end;
  let ini := remove_comments_from_values ini in
  interfaces_sec ← or_err (inisection_find_section ini "interfaces");
  streams_sec ← or_err (inisection_find_section ini "streams");
  _ ← find_duplicate_sections false false false ini;
  _ ← find_unknown_section ini;
  ifaces ← parse_interfaces (t_ifaces tr) interfaces_sec;
  objects ← match inisection_find_section ini "objects" with
            | Some s => parse_objects launched (t_objects tr) s
            | None => Good (t_objects tr)
            end;
  streams ← parse_streams ifaces objects (t_streams tr) streams_sec;
  iface_streams ← parse_interface_streams streams ifaces (t_iface_streams tr) interfaces_sec;
  oam ← match inisection_find_section ini "oam" with Some s => parse_oam (t_oam tr) s | None => Good (t_oam tr) end;
  Good (mk_tr ifaces objects streams iface_streams oam (t_del_ifaces tr)).

End config.

(** ** Texts without comments *)

Lemma chain_find_map (f : string → string) k (l : list (string * string)) : chain_find k (map (λ x, (x.1, f x.2)) l) = f <$> chain_find k l.
Proof. induction l as [|[k' v] l IH]; [done|]. cbn. by case_bool_decide. Qed.

Lemma map_texts_represents (f : string → string) h m : represents h m → represents (map_texts f h) (f <$> m).
Proof.
  intros [[H1 H2 H3] Hf Hc].
  assert (∀ i b, buckets (map_texts f h) !! i = Some b → ∃ b0, buckets h !! i = Some b0 ∧ b = map (λ x, (x.1, f x.2)) b0) as Hb.
  { intros i b. cbn. rewrite list_lookup_fmap. intros (b0 & -> & ->)%fmap_Some. by exists b0. }
  assert (bucketcount (map_texts f h) = bucketcount h) as Hn by apply length_map. split; [split| |].
  - by rewrite Hn.
  - intros i b x (b0 & Hb0 & ->)%Hb (y & -> & Hy)%list_elem_of_fmap. rewrite Hn. by apply (H2 i b0 y).
  - intros i b (b0 & Hb0 & ->)%Hb. assert ((map (λ x, (x.1, f x.2)) b0).*1 = b0.*1) as -> by (clear; induction b0 as [|x b IH]; [done | cbn; by rewrite IH]). by apply (H3 i).
  - intros k. rewrite lookup_fmap, <- Hf. unfold hashmap_find, chain. rewrite Hn. cbn [buckets map_texts]. rewrite list_lookup_fmap.
    destruct (buckets h !! slot (bucketcount h) k); [apply chain_find_map | done].
  - cbn. by rewrite Hc, map_size_fmap.
Qed.

(** The items of a section, without comments. *)
Definition item (l : list IniSection) (sec key : string) : option string :=
  s ← inisection_find_section (remove_comments_from_values l) sec; inisection_get s key.

Lemma file_section l s : file_ok l → s ∈ l → ∃ m, section_ok s m.
Proof.
  destruct l as [|s0 l]; [done|]. intros [(m & Hm & _) Hl] [->|Hs]%elem_of_cons; [by exists m|]. rewrite Forall_forall in Hl. by destruct (Hl s Hs).
Qed.

Lemma find_section_in l name s : inisection_find_section l name = Some s → s ∈ l.
Proof. induction l as [|x l IH]; [done|]. cbn. case_bool_decide; [intros [= ->]; left | intros Hs; right; by apply IH]. Qed.

Lemma read_section file l sec s :
  Z.of_nat (String.length file) < 2 ^ 32 - 2 → read_inifile file = IniOk l → inisection_find_section (remove_comments_from_values l) sec = Some s →
  ∃ m, represents (contents s) m ∧ Z.of_nat (size m) < 2 ^ 32 - 1 ∧ ∀ k, item l sec k = m !! k.
Proof.
  intros Hlen Hl Hs. apply (read_inifile_ok file l Hlen) in Hl. pose proof (find_section_in _ _ _ Hs) as (s0 & -> & Hin)%list_elem_of_fmap.
  destruct (file_section l s0 Hl Hin) as (m & [_ Hr [Hsz _]]). exists (remove_comment <$> m). apply (map_texts_represents remove_comment) in Hr. split; [done|]. split; [by rewrite map_size_fmap|].
  intros k. unfold item. rewrite Hs. cbn [mbind option_bind]. apply Hr.
Qed.

(** ** Accepted streams *)

Lemma strchr_join c a b : some_char (Ascii.eqb c) a = false → strchr c (a +:+ String c b) = Some (a, b).
Proof.
  induction a as [|d a IH]; intros H; [change ("" +:+ String c b) with (String c b); cbn [strchr]; by rewrite Ascii.eqb_refl|].
  change (String d a +:+ String c b) with (String d (a +:+ String c b)). cbn [some_char strchr] in *. apply orb_false_iff in H as [-> H]. by rewrite IH.
Qed.

(** The name in front of the first colon with another end. *)
Lemma rename_key key name suffix suffix' : strchr ":" key = Some (name, suffix) → strchr ":" (name +:+ String ":" suffix') = Some (name, suffix').
Proof. intros [_ H]%strchr_split. by apply strchr_join. Qed.

(** The stream that an item of the section starts. *)
Definition key_stream (key : string) : option string :=
  match strchr ":"%char key with
  | Some (name, suffix) => if bool_decide (suffix = "packet") then Some name else None
  | None => if bool_decide (key = "notification_session") then Some key else None
  end.

Section accepted.
Context (readers : nat → string → ProtocolFieldType → Z → Z → option producer) (stale : string → bool).
Context (ifaces : Ifaces) (objects : Objects) (text0 : string → option string).

(** The stream of its lines: the headers are those of its packet line with the
    matches of its match line, the actions those of its action line. *)
Definition stream_of (name : string) (s : ConfStream) : Prop :=
  ∃ text line,
    parse_actions_line (line_conf readers stale ifaces objects text name) name line (cs_headers s) = Good (cs_actions s, cs_parsed s) ∧
    ((name = "notification_session" ∧ text0 name = Some line ∧ cs_headers s = payload_header) ∨
     ∃ pline mline hs,
       text0 (name +:+ ":packet") = Some pline ∧ text0 (name +:+ ":match") = Some mline ∧ text0 (name +:+ ":actions") = Some line ∧
       parse_packet_line pline = Good hs ∧ parse_match_line (stale name) hs mline = Good (cs_headers s)).

(** What holds when the items [d] were visited: a text that has changed is the
    packet or match line of a stream that was visited. *)
Record streams_ok (d : list (string * string)) (st : ConfStreamState) (m : gmap string ConfStream) : Prop := {
  sk_repr : represents (css_streams st) m;
  sk_size : (size m <= length d)%nat;
  sk_stream : ∀ name s, m !! name = Some s → stream_of name s;
  sk_dom : ∀ name, is_Some (m !! name) ↔ ∃ key line, (key, line) ∈ d ∧ key_stream key = Some name;
  sk_text : ∀ k, css_text st k = text0 k ∨
    ∃ key line name, (key, line) ∈ d ∧ strchr ":" key = Some (name, "packet") ∧ (k = key ∨ k = name +:+ ":match")
}.

Lemma streams_ok_skip d st m key line : streams_ok d st m → key_stream key = None → streams_ok (d ++ [(key, line)]) st m.
Proof.
  intros [H1 H2 H3 H4 H5] Hk. split; [done | rewrite length_app; lia | done | |].
  - intros name. rewrite H4. setoid_rewrite elem_of_app. setoid_rewrite list_elem_of_singleton. split; [naive_solver|]. intros (k & l & [?|[= -> ->]] & ?); [eauto | congruence].
  - intros k. destruct (H5 k) as [?|(k' & l & n & ? & ?)]; [by left|]. right. exists k', l, n. rewrite elem_of_app. tauto.
Qed.

(** A stream that was read is added; the texts that change are its own. *)
Lemma streams_ok_add d st m key line name s text :
  streams_ok d st m → Z.of_nat (length d) < 2 ^ 32 - 1 → key_stream key = Some name → stream_of name s →
  (∀ k, text k = css_text st k ∨ strchr ":" key = Some (name, "packet") ∧ (k = key ∨ k = name +:+ ":match")) →
  ∃ m', streams_ok (d ++ [(key, line)]) (mk_css (hashmap_insert (css_streams st) name s).1.2 text) m'.
Proof.
  intros [H1 H2 H3 H4 H5] Hlen Hk Hs Ht. exists (<[name := s]> m). pose proof (insert_refines _ _ name s H1 ltac:(lia)) as Hi.
  destruct (hashmap_insert (css_streams st) name s) as [[b h] old]. destruct Hi as [Hi _]. split; cbn [css_streams css_text fst snd].
  - exact Hi.
  - rewrite map_size_insert, length_app. cbn. destruct (m !! name); cbn; lia.
  - intros n s' [[<- <-]|[_ ?]]%lookup_insert_Some; [done | by apply H3].
  - intros n. rewrite lookup_insert_is_Some', H4. setoid_rewrite elem_of_app. setoid_rewrite list_elem_of_singleton. split.
    + intros [<-|(k & l & ? & ?)]; [exists key, line; auto | exists k, l; auto].
    + intros (k & l & [?|[= -> ->]] & ?); [right; eauto | left; congruence].
  - intros k. setoid_rewrite elem_of_app. setoid_rewrite list_elem_of_singleton. destruct (Ht k) as [->|[? ?]]; [|right; exists key, line, name; auto].
    destruct (H5 k) as [?|(k' & l & n & ? & ?)]; [by left|]. right. exists k', l, n. tauto.
Qed.

(** The lines of a stream that was not visited are as they were in the file. *)
Lemma text_unread d st m key name suffix : streams_ok d st m → strchr ":" key = Some (name, "packet") → key ∉ d.*1 → suffix ≠ "packet" →
  css_text st (name +:+ String ":" suffix) = text0 (name +:+ String ":" suffix).
Proof.
  intros Hok Hk Hn Hs. destruct (sk_text _ _ _ Hok (name +:+ String ":" suffix)) as [?|(k' & l & n & Hin & Hk' & H)]; [done|]. exfalso.
  pose proof (rename_key _ _ _ suffix Hk) as Hr. destruct H as [H|H]; rewrite H in Hr.
  - congruence.
  - rewrite (rename_key _ _ _ "match" Hk') in Hr. injection Hr as -> _. apply strchr_split in Hk as [-> _]. apply strchr_split in Hk' as [-> _]. apply Hn. apply list_elem_of_fmap. by exists (name +:+ ":packet", l).
Qed.

Lemma write_text_other text k v k' : k' ≠ k → write_text text k v k' = text k'.
Proof. intros H. unfold write_text. by rewrite bool_decide_eq_false_2. Qed.

Lemma packetline_cb_ok d st m key line st' :
  streams_ok d st m → Z.of_nat (length d) < 2 ^ 32 - 1 → key ∉ d.*1 → text0 key = Some line →
  packetline_cb readers stale ifaces objects key line st = Good st' → ∃ m', streams_ok (d ++ [(key, line)]) st' m'.
Proof.
  intros Hok Hlen Hn Hkey H. unfold packetline_cb in H. destruct (strchr ":" key) as [[name suffix]|] eqn:Ek.
  - case_bool_decide as Hs; [subst suffix | injection H as <-; exists m; apply streams_ok_skip; [done|]; unfold key_stream; by rewrite Ek, bool_decide_eq_false_2].
    apply bind_Good in H as (hs & Hp & H). destruct (write_text _ key _ name); [done|]. apply bind_Good in H as (mline & Hm%or_err_Good & H). apply bind_Good in H as (hs' & Hm' & H).
    apply bind_Good in H as (aline & Ha%or_err_Good & H). apply bind_Good in H as ([acts ss] & Hacts & H). injection H as <-.
    pose proof (rename_key _ _ _ "match" Ek) as Rm. pose proof (rename_key _ _ _ "actions" Ek) as Ra.
    assert (name +:+ ":match" ≠ key) as N1 by congruence. assert (name +:+ ":actions" ≠ key) as N2 by congruence. assert (name +:+ ":actions" ≠ name +:+ ":match") as N3 by congruence.
    rewrite write_text_other, (text_unread _ _ _ _ _ _ Hok Ek Hn) in Hm by done. rewrite !write_text_other, (text_unread _ _ _ _ _ _ Hok Ek Hn) in Ha by done.
    pose proof (proj1 (strchr_split _ _ _ _ Ek)) as Hkn. apply (streams_ok_add _ _ m); [done | done | by unfold key_stream; rewrite Ek, bool_decide_eq_true_2 | |].
    + eexists _, aline. split; [exact Hacts|]. right. exists line, mline, hs. by rewrite <- Hkn.
    + intros k. destruct (decide (k = key)) as [|E1]; [by right; auto|]. destruct (decide (k = name +:+ ":match")) as [|E2]; [by right; auto|]. left. by rewrite !write_text_other.
  - case_bool_decide as Hs; [|injection H as <-; exists m; apply streams_ok_skip; [done|]; unfold key_stream; by rewrite Ek, bool_decide_eq_false_2].
    apply bind_Good in H as ([acts ss] & Hacts & H). injection H as <-. apply (streams_ok_add _ _ m); [done | done | by unfold key_stream; rewrite Ek, bool_decide_eq_true_2 | |by left].
    eexists _, line. split; [exact Hacts|]. by left.
Qed.

Lemma checkline_ok l : ∀ st st', foreach_in checkline_cb l st = Good st' →
  st' = st ∧ ∀ key line name, (key, line) ∈ l → strchr ":" key = Some (name, "match") → is_Some (hashmap_find (css_streams st) name).
Proof.
  induction l as [|[k v] l IH]; intros st st' H; cbn in H; [injection H as <-; split; [done | by intros ??? ?%elem_of_nil]|]. res_inv H.
  unfold checkline_cb in E. assert (r = st ∧ ∀ name, strchr ":" k = Some (name, "match") → is_Some (hashmap_find (css_streams st) name)) as [-> Hk].
  { destruct (strchr ":" k) as [[n s]|]; [|by injection E as <-]. case_bool_decide as Hs; [destruct (hashmap_find (css_streams st) n) eqn:Ef; [|done]|]; injection E as <-; (split; [done|]); intros name [= <- ->]; [by eexists | done]. }
  destruct (IH _ _ H) as [-> Hl]. split; [done|]. intros key line name [[= -> ->]|Hin]%elem_of_cons; [apply Hk | by eapply Hl].
Qed.

Lemma parse_streams_spec section m h h' :
  represents (contents section) m → Z.of_nat (size m) < 2 ^ 32 - 1 → represents h ∅ → (∀ k, text0 k = m !! k) → inisection_get section = text0 →
  parse_streams readers stale ifaces objects h section = Good h' →
  ∃ m', represents h' m' ∧ (∀ name s, m' !! name = Some s → stream_of name s) ∧
    (∀ name, is_Some (m' !! name) ↔ ∃ key, is_Some (m !! key) ∧ key_stream key = Some name) ∧
    (∀ name, is_Some (m !! (name +:+ ":match")) → some_char (Ascii.eqb ":") name = false → is_Some (m' !! name)).
Proof.
  intros Hr Hs Hh Ht Hsec H. unfold parse_streams in H. apply bind_Good in H as (st & H1 & H). apply bind_Good in H as (st' & H2 & H). injection H as <-. rewrite foreach_item_in in H1, H2.
  assert (∀ k v, (k, v) ∈ items (contents section) ↔ m !! k = Some v) as Hin by (intros; by rewrite items_elem, (rp_find _ _ Hr) by apply Hr).
  pose proof (items_nodup _ (rp_wf _ _ Hr)) as Hnd. apply checkline_ok in H2 as [-> Hc].
  apply (foreach_in_inv _ (λ d st, ∃ m', streams_ok d st m')) in H1 as (m' & [K1 K2 K3 K4 K5]).
  - exists m'. split; [done|]. split; [done|]. split.
    + intros name. rewrite K4. split; [intros (key & line & ?%Hin & ?); exists key; by split; [eexists|] | intros (key & [line ?%Hin] & ?); by exists key, line].
    + intros name [line Hl%Hin] Hn. rewrite <- (rp_find _ _ K1). by apply (Hc _ _ _ Hl), strchr_join.
  - exists ∅. rewrite Hsec. split; cbn; [done | by rewrite map_size_empty | by intros ?? ?%lookup_empty_Some | | by left].
    intros name. rewrite lookup_empty. split; [by intros [??] | by intros (? & ? & ?%elem_of_nil & ?)].
  - intros d k line r s1 s2 Hl (m1 & Hok) Hcb. destruct (key_fresh _ _ _ _ _ Hnd Hl) as [Hf Hlen]. rewrite (items_length _ _ Hr) in Hlen.
    eapply packetline_cb_ok; [done | lia | done | | done]. rewrite Ht. apply Hin. rewrite Hl. apply elem_of_app. right. left.
Qed.
End accepted.

(** ** Accepted configurations *)

Section configuration.
Context (readers : nat → string → ProtocolFieldType → Z → Z → option producer) (stale launched : string → bool).

(** What an accepted file gives.  The objects and the interfaces are new and have
    different handles; the objects are those of the lines of their section; the
    streams are the ones that have a packet line, each built from its own three
    lines, and their actions are typed; an interface receives the streams its
    line names, which exist. *)
Record accepted (l : list IniSection) (tr : StateTransaction) : Prop := {
  ac_tables : hash_wf (t_objects tr) ∧ hash_wf (t_ifaces tr) ∧ hash_wf (t_streams tr) ∧ hash_wf (t_iface_streams tr);
  ac_deleted : items (t_del_ifaces tr) = [];
  ac_object : ∀ name o, hashmap_find (t_objects tr) name = Some o → ∃ desc, item l "objects" name = Some desc ∧ object_from launched name desc o;
  ac_objects : ∀ name, is_Some (hashmap_find (t_objects tr) name) ↔ is_Some (item l "objects" name);
  ac_object_id : ∀ n n' o o', hashmap_find (t_objects tr) n = Some o → hashmap_find (t_objects tr) n' = Some o' → c_id o = c_id o' → n = n';
  ac_recovery : ∀ name o r, hashmap_find (t_objects tr) name = Some o → Obj.obj (c_obj o) = Obj.PIPEOBJ_SEQREC r →
    0 < Rcvy.history_length (Rcvy.conf (Rcvy.main_rec r)) → RcvyWindow.rec_wf (Rcvy.main_rec r);
  ac_iface : ∀ name i, hashmap_find (t_ifaces tr) name = Some i → is_Some (item l "interfaces" name) ∧ ∃ t, ci_iface i = Ifc.new_iface t name;
  ac_iface_id : ∀ n n' i i', hashmap_find (t_ifaces tr) n = Some i → hashmap_find (t_ifaces tr) n' = Some i' → ci_id i = ci_id i' → n = n';
  ac_stream : ∀ name s, hashmap_find (t_streams tr) name = Some s → stream_of readers stale (t_ifaces tr) (t_objects tr) (item l "streams") name s;
  ac_typed : ∀ name s, hashmap_find (t_streams tr) name = Some s → ∃ text, pipeline_typed (line_conf readers stale (t_ifaces tr) (t_objects tr) text name) (cs_headers s) (cs_actions s);
  ac_streams : ∀ name, is_Some (hashmap_find (t_streams tr) name) ↔ ∃ key, is_Some (item l "streams" key) ∧ key_stream key = Some name;
  ac_match : ∀ name, is_Some (item l "streams" (name +:+ ":match")) → some_char (Ascii.eqb ":") name = false → is_Some (hashmap_find (t_streams tr) name);
  ac_list : ∀ ifname sl, hashmap_find (t_iface_streams tr) ifname = Some sl →
    ∃ line, item l "interfaces" (ifname +:+ ":streams") = Some line ∧ stream_list_of (t_streams tr) (t_ifaces tr) ifname line sl;
  ac_lists : ∀ key line ifname rest, item l "interfaces" key = Some line → strstr_at ":streams" key = Some (ifname, rest) → is_Some (hashmap_find (t_iface_streams tr) ifname)
}.

Lemma empty_represents {V} n : n ≠ 0%nat → represents (V := V) (empty_table n) ∅.
Proof. intros Hn. apply (new_represents n). unfold new_hashmap. by rewrite bool_decide_eq_false_2. Qed.

Lemma section_objects file l h :
  Z.of_nat (String.length file) < 2 ^ 32 - 2 → read_inifile file = IniOk l →
  match inisection_find_section (remove_comments_from_values l) "objects" with
  | Some s => parse_objects launched (t_objects new_transaction) s
  | None => Good (t_objects new_transaction)
  end = Good h →
  ∃ m, represents h m ∧ numbered c_id m ∧ (∀ name, is_Some (m !! name) ↔ is_Some (item l "objects" name)) ∧
    ∀ name o, m !! name = Some o → ∃ desc, item l "objects" name = Some desc ∧ object_from launched name desc o.
Proof.
  intros Hlen Hl H. destruct (inisection_find_section _ "objects") as [s|] eqn:Es.
  - destruct (read_section _ _ _ _ Hlen Hl Es) as (m0 & Hr & Hsz & Hit). destruct (parse_objects_spec launched _ _ _ _ _ Hr Hsz (empty_represents 11 ltac:(done)) eq_refl H) as (m & Hm & [_ Hd Hline Hnum]).
    assert (∀ k v, (k, v) ∈ items (contents s) ↔ item l "objects" k = Some v) as Hin by (intros; by rewrite items_elem, (rp_find _ _ Hr), Hit by apply Hr).
    exists m. split; [done|]. split; [done|]. split; [|intros name o (desc & ?%Hin & ?)%Hline; eauto].
    intros name. rewrite Hd. split; [intros ([? v] & -> & ?%Hin)%list_elem_of_fmap; by eexists | intros [v ?%Hin]; apply list_elem_of_fmap; by exists (name, v)].
  - injection H as <-. exists ∅. split; [by apply empty_represents|]. split; [apply numbered_empty|]. split; [|by intros ?? ?%lookup_empty_Some].
    intros name. unfold item. rewrite Es, lookup_empty. cbn. split; by intros [??].
Qed.

Lemma accepted_config file tr :
  Z.of_nat (String.length file) < 2 ^ 32 - 2 → read_config_file readers stale launched file = Good tr →
  ∃ l, read_inifile file = IniOk l ∧ accepted l tr.
Proof.
  intros Hlen H. unfold read_config_file in H. apply bind_Good in H as (l & Hl & H). destruct (read_inifile file) as [?|l'|] eqn:El; [done| |done]. injection Hl as ->. exists l. split; [done|].
  apply bind_Good in H as (isec & Hi%or_err_Good & H). apply bind_Good in H as (ssec & Hs%or_err_Good & H). do 2 apply bind_Good in H as (? & _ & H).
  apply bind_Good in H as (ifs & Hifs & H). apply bind_Good in H as (objs & Hobjs & H). apply bind_Good in H as (strs & Hstrs & H). apply bind_Good in H as (lists & Hlists & H). apply bind_Good in H as (oam & _ & H). injection H as <-.
  destruct (read_section _ _ _ _ Hlen El Hi) as (mi & Ri & Zi & Ii). destruct (read_section _ _ _ _ Hlen El Hs) as (ms & Rs & Zs & Is).
  destruct (section_objects _ _ _ Hlen El Hobjs) as (mo & Ro & No & Do & Lo). destruct (parse_interfaces_spec _ _ _ _ Ri Zi (empty_represents 11 ltac:(done)) Hifs) as (mf & Rf & Nf & Lf).
  assert (∀ k, inisection_get ssec k = item l "streams" k) as Hget by (intros k; unfold item; by rewrite Hs).
  destruct (parse_streams_spec readers stale ifs objs (inisection_get ssec) _ _ _ _ Rs Zs (empty_represents 22 ltac:(done)) (rp_find _ _ Rs) eq_refl Hstrs) as (mt & Rt & St & Dt & Mt).
  destruct (parse_interface_streams_spec strs ifs _ _ _ _ Ri Zi (empty_represents 11 ltac:(done)) Hlists) as (ml & Rl & Ll & Al).
  assert (∀ name s, mt !! name = Some s → stream_of readers stale ifs objs (item l "streams") name s) as St'.
  { intros name s (text & line & Ha & Hor)%St. exists text, line. split; [done|]. setoid_rewrite <- Hget. exact Hor. }
  split; cbn [t_objects t_ifaces t_streams t_iface_streams]; repeat (setoid_rewrite (rp_find _ _ Ro) || setoid_rewrite (rp_find _ _ Rf) || setoid_rewrite (rp_find _ _ Rt) || setoid_rewrite (rp_find _ _ Rl)); try setoid_rewrite Ii; try setoid_rewrite Is; try done.
  - split_and!; [apply Ro | apply Rf | apply Rt | apply Rl].
  - apply No.
  - intros name o r (desc & _ & (_ & _ & Hw)%object_from_wf)%Lo. apply Hw.
  - apply Nf.
  - intros name s (text & line & Ha%parse_actions_typed & _)%St'. by exists text.
Qed.

(** C40: accepted configurations are well formed.  When a configuration file is
    accepted, its objects are exactly the ones of the objects section, its
    streams exactly the ones with a packet line, each with the headers of its
    own packet and match lines and the actions of its own action line, also
    when lines were split in place by the parsing of other streams; the actions
    are well typed for the headers; an interface receives the streams that its
    line names, in that order, each once, and all of them exist; objects and
    interfaces are new and have different handles, and a recovery object with
    a positive history length can run. *)
Theorem accepted_configuration file tr :
  Z.of_nat (String.length file) < 2 ^ 32 - 2 → read_config_file readers stale launched file = Good tr →
  ∃ l, read_inifile file = IniOk l ∧ accepted l tr.
Proof. apply accepted_config. Qed.
End configuration.

(** ** Witness *)

Definition sample_config : string :=
  "[interfaces]" +:+ nl +:+ "in = eth iface=eth0" +:+ nl +:+ "in:streams = s t" +:+ nl +:+ "out = udp-out iface=eth1 dstip=10.0.0.1 dstport=0x19eb prio=3" +:+ nl +:+
  "[objects]" +:+ nl +:+ "gen = SeqGen ResetFlag=yes ; comment" +:+ nl +:+ "rcv = SeqRcvy frerSeqRcvyHistoryLength=16 frerSeqRcvyAlgorithm=Match" +:+ nl +:+
  "[streams]" +:+ nl +:+ "s:packet = eth, cvlan" +:+ nl +:+ "s:match = cvlan vid=5" +:+ nl +:+ "s:actions = drop" +:+ nl +:+
  "t:packet = eth" +:+ nl +:+ "t:match = eth dmac=1:2:3:4:5:6" +:+ nl +:+ "t:actions = del eth, drop" +:+ nl.

Definition no_readers (iface : nat) (property : string) (t : ProtocolFieldType) (a b : Z) : option producer := None.

Example sample_accepted : is_good (read_config_file no_readers (λ _, false) (λ _, true) sample_config) = true.
Proof. vm_compute. reflexivity. Qed.

Lemma accepted_configuration_witness : ∃ tr l, read_inifile sample_config = IniOk l ∧ accepted no_readers (λ _, false) (λ _, true) l tr.
Proof.
  destruct (is_good_ex _ sample_accepted) as [tr Htr]. exists tr.
  exact (accepted_configuration no_readers (λ _, false) (λ _, true) sample_config tr ltac:(apply Z.ltb_lt; vm_compute; reflexivity) Htr).
Defined.

Example sample_recovery :
  (if read_config_file no_readers (λ _, false) (λ _, true) sample_config is Good tr then
     (λ o, (c_mip o, if Obj.obj (c_obj o) is Obj.PIPEOBJ_SEQREC r then Rcvy.history_length (Rcvy.conf (Rcvy.main_rec r)) else 0)) <$> hashmap_find (t_objects tr) "rcv"
   else None) = Some (-1, 16).
Proof. vm_compute. reflexivity. Qed.

(** An interface of type ip without a device: NULL is duplicated. *)
Example ip_without_device : iface_cb "x" "ip" (empty_table 11) = Crash.
Proof. vm_compute. reflexivity. Qed.

(** Items in front of the first section: NULL is compared. *)
Example unnamed_section :
  read_config_file no_readers (λ _, false) (λ _, true) ("x = y" +:+ nl +:+ "[interfaces]" +:+ nl +:+ "[streams]") = Crash.
Proof. vm_compute. reflexivity. Qed.

(** A negative history length is accepted. *)
Example negative_history :
  (if foreach_tokens "SeqRcvy frerSeqRcvyHistoryLength=-1" token_cb (mk_info 0 ParNone) is Good (mk_info _ (ParRec r)) then r_history_length r else 0) = 4294967295.
Proof. vm_compute. reflexivity. Qed.

End ConfFile.
