(* ===== verification/Commit.v ===== *)
(** * Transactions (state.c, close_interfaces of main.c)

    The system keeps the interfaces and the objects in two tables.  Committing a
    transaction adds its interfaces and objects, builds the pipelines of the
    streams and gives them to the interfaces, opens the interfaces and drops the
    objects that nothing uses.  A file that is accepted and committed gives a
    system that receives arbitrary frames safely. *)

From S2P Require Import Prelude TimeUtils CString Protocol Packet HeaderField Checksum ParseTree SeqGen SeqRecov SeqRecovSpec Pof Action Object Pipeline PipelineRun HashMap ConfUtils ConfActions ConfPipeline ConfTyping ConfSound ConfPacket Assemble ActionSafe RunSafe Interface ConfSafe UdpOut IniFile ConfObject ConfInterface ConfFile.
From Stdlib Require Import Ascii.

Module Commit.
Import CStr HMap Proto Pkt Parse Act Obj Pipe ConfU ConfA ConfP ConfPkt Typing Sound Asm ActSafe RunSafe Ifc ConfSafe Ini ConfObj ConfIf ConfFile.

#[local] Open Scope string_scope.
#[local] Open Scope list_scope.
#[local] Open Scope Z_scope.

Section commit.
Context {R : Type} `{!MaintenancePoints R}.

(** The pipelines and objects, the interfaces by their handles, the next number
    of a pipeline, the maintenance points, and the two tables. *)
Record System := mk_system {
  world : World;
  ifs : gmap nat Interface;
  next_pipe : nat;
  mps : R;
  state_interfaces : HashMap (V := nat);
  state_objects : HashMap (V := nat)
}.

#[global] Instance eta_system : Eta System := λ s,
  mk_system (world s) (ifs s) (next_pipe s) (mps s) (state_interfaces s) (state_objects s).

Definition to_res {A} (o : Outcome A) : Res A := if o is Ok a then Good a else Crash.

(** ** References that are dropped *)

(** A pipeline that loses its last reference removes its senders; an interface
    that loses its last owner and sender releases its pipelines. *)
Inductive Job := UnrefPipe (id : nat) | DelSender (h : nat).

Definition pipe_jobs (ev : list IfEvent) : list Job :=
  omap (λ e, if e is EvPipe (Unref p) then Some (UnrefPipe p) else None) ev.

Definition sender_jobs (n : nat) (w : World) : list Job :=
  omap (λ e, if e is EvDelSender h then Some (DelSender h) else None) (drop n (trace w)).

Definition put_iface (h : nat) (i : option Interface) (s : System) : System :=
  s <| ifs := match i with Some i => <[h := i]> (ifs s) | None => delete h (ifs s) end |>.

Definition run_job (j : Job) (s : System) : Res (list Job * System) :=
  match j with
  | UnrefPipe id =>
      w ← to_res (pipeline_unref (world s) id);
      Good (sender_jobs (length (trace (world s))) w, s <| world := w |>)
  | DelSender h =>
      i ← deref_ca (ifs s !! h);
      let '(i, ev) := iface_del_sender i in Good (pipe_jobs ev, put_iface h i s)
  end.

Fixpoint settle (fuel : nat) (l : list Job) (s : System) : Res System :=
  match l with
  | [] => Good s
  | j :: l =>
      match fuel with
      | O => Crash
      | S fuel => '(l', s) ← run_job j s; settle fuel (l' ++ l) s
      end
  end.

(** Every round drops a reference; [fuel] bounds their number. *)
Context (fuel : nat).

Definition unref_iface (h : nat) (s : System) : Res System :=
  i ← deref_ca (ifs s !! h);
  let '(i, ev) := iface_unref i in settle fuel (pipe_jobs ev) (put_iface h i s).

Definition unref_object (h : nat) (s : System) : Res System :=
  w ← to_res (object_unref (world s) h); Good (s <| world := w |>).

(** ** The steps of a commit *)

Definition del_interfaces_cb (key : string) (_ : unit) (s : System) : Res System :=
  match hashmap_find (state_interfaces s) key with
  | None => Err
  | Some h => unref_iface h (s <| state_interfaces := (hashmap_remove (state_interfaces s) key).1.2 |>)
  end.

Definition add_new_objects_cb (key : string) (o : ConfObject) (s : System) : Res System :=
  ob ← deref_ca (objects (world s) !! c_id o);
  let s := s <| world := (world s) <| objects := <[c_id o := pipeline_object_ref ob]> (objects (world s)) |> |> in
  let '(_, t, old) := hashmap_insert (state_objects s) key (c_id o) in
  let s := s <| state_objects := t |> in
  if old is Some (_, h) then unref_object h s else Good s.

Definition add_new_ifaces_cb (key : string) (i : ConfIface) (s : System) : Res System :=
  x ← deref_ca (ifs s !! ci_id i);
  let s := put_iface (ci_id i) (Some (iface_ref x)) s in
  let '(_, t, old) := hashmap_insert (state_interfaces s) key (ci_id i) in
  let s := s <| state_interfaces := t |> in
  if old is Some (_, h) then unref_iface h s else Good s.

Definition build_of (s : System) : Build := mk_build (pipes (world s)) (next_pipe s) (objects (world s)) (mps s).
Definition with_build (s : System) (b : Build) : System :=
  s <| world := (world s) <| pipes := b_pipes b |> <| objects := b_objs b |> |> <| next_pipe := b_next b |> <| mps := b_mps b |>.

Fixpoint take_refs (l : list RefEvent) (s : System) : Res System :=
  match l with
  | [] => Good s
  | Ref id :: l => w ← to_res (pipeline_ref (world s) id); take_refs l (s <| world := w |>)
  | Unref id :: l => s ← settle fuel [UnrefPipe id] s; take_refs l s
  end.

Fixpoint add_senders (l : list nat) (s : System) : Res System :=
  match l with
  | [] => Good s
  | h :: l => i ← deref_ca (ifs s !! h); add_senders l (put_iface h (Some (iface_add_sender i)) s)
  end.

(** The pipeline of a stream comes from the cache or is built. *)
Definition cached_pipe (name : string) (st : ConfStream) (x : System * HashMap (V := nat)) : Res (nat * (System * HashMap (V := nat))) :=
  let '(s, cache) := x in
  match hashmap_find cache name with
  | Some id => Good (id, (s, cache))
  | None =>
      '(id, b) ← assemble_actions (addresses (cs_parsed st)) name (cs_actions st) false (build_of s);
      Good (id, (with_build s b, (hashmap_insert cache name id).1.2))
  end.

Definition add_one_stream (h : nat) (name : string) (st : ConfStream) (x : System * HashMap (V := nat)) : Res (System * HashMap (V := nat)) :=
  '(id, (s, cache)) ← cached_pipe name st x;
  i ← deref_ca (ifs s !! h);
  '(ok, i, ev, snd) ← deref_ca (iface_add_stream (pipes (world s)) i (cs_headers st) (mk_pipe id name));
  s ← take_refs ev (put_iface h (Some i) s);
  s ← add_senders snd s;
  if (ok : bool) then Good (s, cache) else Err.

Definition addstream_cb (key : string) (sl : ConfStreamList (A := ConfStream)) (x : System * HashMap (V := nat)) : Res (System * HashMap (V := nat)) :=
  h ← or_err (hashmap_find (state_interfaces x.1) key);
  foreach_in (add_one_stream h) sl x.

Definition drop_pipe (key : string) (id : nat) (s : System) : Res System := settle fuel [UnrefPipe id] s.

Definition add_streams_to_interfaces (tr : StateTransaction) (s : System) : Res System :=
  '(s, cache) ← foreach_item addstream_cb (t_iface_streams tr) (s, empty_table 29);
  foreach_item drop_pipe cache s.

(** What opening an interface does: a udp-out interface without a destination
    stays closed, the others have a receiver thread or not. *)
Inductive OpenAnswer := OpenFailed | OpenLater | Opened (receiver : bool).

Context (answer : string → OpenAnswer).

Definition open_new_ifaces_cb (key : string) (i : ConfIface) (s : System) : Res System :=
  x ← deref_ca (ifs s !! ci_id i);
  if bool_decide (if_state x = IFSTATE_INIT) then
    match answer key with
    | OpenFailed => Err
    | OpenLater => Good s
    | Opened r => Good (put_iface (ci_id i) (Some (x <| if_state := IFSTATE_OPEN |> <| recv_th_ := r |>)) s)
    end
  else Good s.

(** An object that only the table refers to, or the table and the transaction, is
    removed. *)
Definition unused (tr : StateTransaction) (key : string) (o : Object) : bool :=
  (obj_refcount o =? 1) || ((obj_refcount o =? 2) && hashmap_contains (t_objects tr) key).

Definition purge_unused_objects_cb (tr : StateTransaction) (key : string) (h : nat) (r : Res System) : bool * bool * Res System :=
  match r with
  | Good s =>
      match objects (world s) !! h with
      | Some o => if unused tr key o then let r := unref_object h s in (is_good r, true, r) else (true, false, r)
      | None => (false, false, Crash)
      end
  | _ => (false, false, r)
  end.

Definition purge_unused_objects (tr : StateTransaction) (s : System) : Res System :=
  let '(_, t, r) := hashmap_foreach (purge_unused_objects_cb tr) (state_objects s) (Good s) in
  s ← r; Good (s <| state_objects := t |>).

Context (start_ping : string → string → bool).

Definition start_oam_ping_cb (key command : string) (s : System) : Res System := if start_ping key command then Good s else Err.

Definition state_commit_transaction (tr : StateTransaction) (s : System) : Res System :=
  s ← foreach_item del_interfaces_cb (t_del_ifaces tr) s;
  s ← foreach_item add_new_objects_cb (t_objects tr) s;
  s ← foreach_item add_new_ifaces_cb (t_ifaces tr) s;
  s ← add_streams_to_interfaces tr s;
  s ← foreach_item open_new_ifaces_cb (t_ifaces tr) s;
  s ← purge_unused_objects tr s;
  foreach_item start_oam_ping_cb (t_oam tr) s.

(** The transaction gives up its references. *)
Definition delete_transaction (tr : StateTransaction) (s : System) : Res System :=
  s ← foreach_item (λ _ o, unref_object (c_id o)) (t_objects tr) s;
  foreach_item (λ _ i, unref_iface (ci_id i)) (t_ifaces tr) s.

(** ** The program *)

(** The system before the transaction of a configuration file is committed: the
    objects and interfaces of the transaction exist. *)
Definition loaded (tr : StateTransaction) (r : R) : System :=
  let offl := concat (map (λ x, offloaded (cs_parsed x.2)) (items (t_streams tr))) in
  mk_system
    (mk_world (mk_pool 0 0) ∅ 0 ∅ (list_to_map (map (λ x, (c_id x.2, c_obj x.2)) (items (t_objects tr)))) [] [] [] 0)
    (list_to_map (map (λ x, (ci_id x.2, (ci_iface x.2) <| delay_offload := bool_decide (ci_id x.2 ∈ offl) |>)) (items (t_ifaces tr))))
    0 r (empty_table 11) (empty_table 11).

Definition apply_config (tr : StateTransaction) (r : R) : Res System :=
  s ← state_commit_transaction tr (loaded tr r); delete_transaction tr s.

(** A transaction that deletes all interfaces. *)
Definition shutdown_transaction (s : System) : StateTransaction :=
  mk_tr (empty_table 11) (empty_table 11) (empty_table 22) (empty_table 11) (empty_table 7)
    (foldl (λ t x, (hashmap_insert t x.1 tt).1.2) (empty_table 7) (items (state_interfaces s))).

Definition close_interfaces (s : System) : Res System :=
  let tr := shutdown_transaction s in
  s ← state_commit_transaction tr s; delete_transaction tr s.
End commit.
(** ** Building pipelines keeps the objects *)

Definition objs_ok {R} (b : Build (R := R)) : Prop := ∀ k ob, b_objs b !! k = Some ob → obj_safe (obj ob).

Section objects.
Context (c : Conf) {R : Type} `{!MaintenancePoints R} (addrs : gmap nat (list OAM_MP_Address)).

Definition keeps_objs (b b' : Build (R := R)) : Prop := objs_ok b → objs_ok b'.

Lemma ref_object_objs o (b b' : Build (R := R)) : ref_object o b = Good b' → keeps_objs b b'.
Proof.
  unfold ref_object. destruct (b_objs b !! o_id o) as [ob|] eqn:E; [|done]. intros H Hok. injection H as <-.
  intros k x. cbn. intros [[<- <-]|[_ ?]]%lookup_insert_Some; [exact (Hok _ _ E) | by eapply Hok].
Qed.

Lemma store_pipes_objs o l (b b' : Build (R := R)) : store_pipes o l b = Good b' → keeps_objs b b'.
Proof.
  unfold store_pipes. destruct (b_objs b !! o_id o) as [[[| | |r] n]|] eqn:E; try done. intros H Hok. injection H as <-.
  intros k x. cbn. intros [[<- <-]|[_ ?]]%lookup_insert_Some; [done | by eapply Hok].
Qed.

Lemma new_mp_objs o t pipe i addr (b : Build (R := R)) mp b' : new_mp o t pipe i addr b = Good (mp, b') → keeps_objs b b'.
Proof. unfold new_mp. intros H Hok. res_inv H. destruct r0. by injection H as <- <-. Qed.

Lemma leaf_objs ca (b : Build (R := R)) a b' : assemble_leaf ca b = Good (a, b') → keeps_objs b b'.
Proof.
  intros H. destruct ca; cbn [assemble_leaf] in H; try done; res_inv H; injection H as <- <-; first [by intros ? | by eapply ref_object_objs].
Qed.

Lemma inject_objs o im pl m i (b : Build (R := R)) a b' : create_action_oam_inject addrs o im pl m i b = Good (a, b') → keeps_objs b b'.
Proof. unfold create_action_oam_inject. intros H. apply bind_Good in H as ([mp b1] & E & H). injection H as <- <-. by eapply new_mp_objs. Qed.

Lemma receive_objs o im (b : Build (R := R)) a b' : oam_receive o im b = Good (a, b') → keeps_objs b b'.
Proof. unfold oam_receive. intros H. apply bind_Good in H as ([mp b1] & E & H). res_inv H. injection H as <- <-. by eapply new_mp_objs. Qed.

(** The actions without branches. *)
Lemma simple_objs ca pl m i (b : Build (R := R)) acts b' :
  (∀ br o p, ca ≠ CA_REPL br o p) → assemble_action addrs ca pl m i b = Good (acts, b') → keeps_objs b b'.
Proof.
  intros Hn H. destruct ca; try (by destruct (Hn _ _ _ eq_refl)); cbn [assemble_action] in H;
    repeat (apply bind_Good in H as ([? ?] & ?E & H)); injection H as <- <-; try (by eapply leaf_objs).
  - by eapply inject_objs.
  - by eapply receive_objs.
  - intros Hok. eapply inject_objs; [done|]. by eapply receive_objs.
Qed.

Definition list_objs (l : list ConfAction) : Prop :=
  ∀ pl m i (b : Build (R := R)) acts b', assemble_list (assemble_action addrs) l pl m i b = Good (acts, b') → keeps_objs b b'.

Lemma pipeline_objs nm l m (b : Build (R := R)) id b' : list_objs l → assemble_pipeline (assemble_action addrs) nm l m b = Good (id, b') → keeps_objs b b'.
Proof.
  intros Hl H. unfold assemble_pipeline in H. destruct l as [|x l]; [done|]. cbn [alloc_pipe] in H. apply bind_Good in H as ([acts b1] & E & H). injection H as <- <-.
  intros Hok. by apply (Hl _ _ _ _ _ _ E).
Qed.

Lemma branches_objs br : ∀ (b : Build (R := R)) ids b', (∀ nm l m, (nm, l, m) ∈ br → list_objs l) → assemble_branches (assemble_action addrs) br b = Good (ids, b') → keeps_objs b b'.
Proof.
  induction br as [|[[nm l] m] br IH]; intros b ids b' Hbr H; cbn [assemble_branches] in H; [injection H as <- <-; by intros ?|].
  apply bind_Good in H as ([id b1] & E & H). apply bind_Good in H as ([ids1 b2] & E2 & H). injection H as <- <-. intros Hok.
  eapply IH; [|exact E2|]; [intros nm' l' m' Hin; apply (Hbr nm' l' m'); by right|]. eapply pipeline_objs; [|exact E | exact Hok]. apply (Hbr nm l m). left.
Qed.

Lemma repl_objs br o p pl m i (b : Build (R := R)) acts b' :
  (∀ nm l m, (nm, l, m) ∈ br → list_objs l) → assemble_action addrs (CA_REPL br o p) pl m i b = Good (acts, b') → keeps_objs b b'.
Proof.
  intros Hbr H Hok. cbn [assemble_action] in H. apply bind_Good in H as ([ids b1] & E & H). res_inv H. injection H as <- <-.
  pose proof (branches_objs _ _ _ _ Hbr E Hok) as H1. destruct o as [o|]; [|by injection E1 as <-]. res_inv E1. eapply store_pipes_objs; [done|]. by eapply ref_object_objs.
Qed.

(** Induction on the typing of the actions. *)
Fixpoint act_typed_objs s a s1 (H : act_typed c s a s1) {struct H} :
  ∀ pl m i (b : Build (R := R)) acts b', assemble_action addrs a pl m i b = Good (acts, b') → keeps_objs b b'
with acts_typed_objs s l s2 (H : acts_typed c s l s2) {struct H} : list_objs l.
Proof.
  - destruct H as [s a Hk|s a k Ek Hk El|s h k Hk|s br o p Hd Hne Hbr]; intros pl m i b acts b' Ha.
    + eapply simple_objs; [|exact Ha]. intros ??? ->. done.
    + eapply simple_objs; [|exact Ha]. done.
    + eapply simple_objs; [|exact Ha]. done.
    + eapply repl_objs; [|exact Ha]. intros nm l m' Hin. destruct (Hbr nm l m' Hin) as (_ & s' & Hl). exact (acts_typed_objs s l s' Hl).
  - destruct H as [s|s a s1 l s2 Ha Hl]; intros pl m i b acts b' E; cbn [assemble_list] in E; [injection E as <- <-; by intros ?|].
    apply bind_Good in E as ([a1 b1] & E1 & E). apply bind_Good in E as ([r b2] & E2 & E). injection E as <- <-.
    intros Hok. exact (acts_typed_objs s1 l s2 Hl _ _ _ _ _ _ E2 (act_typed_objs s a s1 Ha _ _ _ _ _ _ E1 Hok)).
Qed.
End objects.

(** ** Invariants of the steps *)

(** A property of the world and one of each interface that survive when
    references are dropped. *)
Record stable (W : World → Prop) (T : World → Interface → Prop) : Prop := {
  sb_release : ∀ w w', W w → releases w (Ok w') → W w' ∧ ∀ i, T w i → T w' i;
  sb_objects : ∀ w w', W w → iters w' = iters w → pipes w' = pipes w → objs_safe w' → W w' ∧ ∀ i, T w i → T w' i;
  sb_safe : ∀ w, W w → objs_safe w;
  sb_iface : ∀ w i i', T w i → if_parsetree i' = if_parsetree i ∨ if_parsetree i' = None → T w i'
}.

Section steps.
Context {R : Type} `{!MaintenancePoints R} (fuel : nat) (answer : string → OpenAnswer) (start_ping : string → string → bool).
Context (W : World → Prop) (T : World → Interface → Prop) (HS : stable W T).

Definition inv (s : System (R := R)) : Prop := W (world s) ∧ ∀ h i, ifs s !! h = Some i → T (world s) i.

Lemma put_iface_inv h i i' s :
  inv s → ifs s !! h = Some i → (∀ x, i' = Some x → if_parsetree x = if_parsetree i ∨ if_parsetree x = None) → inv (put_iface h i' s).
Proof.
  intros [Hw Hi] Hh Hx. split; [done|]. intros k x. cbn. destruct i' as [i'|].
  - intros [[<- <-]|[_ ?]]%lookup_insert_Some; [eapply (sb_iface _ _ HS); [by eapply Hi | by apply Hx] | by eapply Hi].
  - intros [_ ?]%lookup_delete_Some. by eapply Hi.
Qed.

Lemma world_inv s w : inv s → releases (world s) (Ok w) → inv (s <| world := w |>).
Proof. intros [Hw Hi] Hr. destruct (sb_release _ _ HS _ _ Hw Hr) as [Hw' Hi']. split; [done|]. intros h i Hh. by eapply Hi', Hi. Qed.

Lemma run_job_inv j s l s' : inv s → run_job j s = Good (l, s') → inv s'.
Proof.
  intros Hs H. destruct j as [id|h]; cbn [run_job] in H.
  - apply bind_Good in H as (w & E & H). injection H as _ <-. unfold pipeline_unref in E. pose proof (unref_n_releases (S (size (pipes (world s)))) (world s) id) as Hr.
    destruct (unref_n _ (world s) id) as [w'| | |]; try done. injection E as <-. by apply world_inv.
  - apply bind_Good in H as (i & E & H). destruct (ifs s !! h) eqn:Eh; [|done]. injection E as ->. destruct (iface_del_sender i) as [i' ev] eqn:Ed. injection H as _ <-.
    eapply put_iface_inv; [done | done|]. intros x ->. left. unfold iface_del_sender, del_sender_rest in Ed. repeat case_match; by simplify_eq/=.
Qed.

Lemma settle_inv n : ∀ l s s', inv s → settle n l s = Good s' → inv s'.
Proof.
  induction n as [|n IH]; intros [|j l] s s' Hs H; cbn [settle] in H; try (by injection H as <-); [done|].
  apply bind_Good in H as ([l' s1] & E & H). eapply IH; [|exact H]. by eapply run_job_inv.
Qed.

Lemma unref_iface_inv h s s' : inv s → unref_iface fuel h s = Good s' → inv s'.
Proof.
  intros Hs H. unfold unref_iface in H. apply bind_Good in H as (i & E & H). destruct (ifs s !! h) eqn:Eh; [|done]. injection E as ->. destruct (iface_unref i) as [i' ev] eqn:Ed.
  eapply settle_inv; [|exact H]. eapply put_iface_inv; [done | done|]. intros x ->. unfold iface_unref, unref_rest in Ed. repeat case_match; simplify_eq/=; auto.
Qed.

Lemma unref_object_inv h s s' : inv s → unref_object h s = Good s' → inv s'.
Proof.
  intros Hs H. unfold unref_object in H. apply bind_Good in H as (w & E & H). injection H as <-. pose proof (object_unref_releases (world s) h) as Hr.
  destruct (object_unref (world s) h) as [w'| | |]; try done. injection E as <-. by apply world_inv.
Qed.

Lemma add_new_objects_inv key o s s' : inv s → add_new_objects_cb key o s = Good s' → inv s'.
Proof.
  intros [Hw Hi] H. unfold add_new_objects_cb in H. apply bind_Good in H as (ob & E & H). destruct (objects (world s) !! c_id o) eqn:Eo; [|done]. injection E as ->. cbn [state_objects] in H.
  destruct (hashmap_insert _ key (c_id o)) as [[b t] old]. set (w1 := (world s) <| objects := _ |>) in H.
  destruct (sb_objects _ _ HS (world s) w1 Hw eq_refl eq_refl) as [Hw1 Ht1].
  { intros k x. cbn. intros [[<- <-]|[_ ?]]%lookup_insert_Some; [exact (sb_safe _ _ HS _ Hw _ _ Eo) | by eapply (sb_safe _ _ HS _ Hw)]. }
  assert (inv (s <| world := w1 |> <| state_objects := t |>)) as Hs1 by (split; [done|]; intros h i Hh; by eapply Ht1, Hi).
  destruct old as [[k h]|]; [by eapply unref_object_inv | by injection H as <-].
Qed.

Lemma add_new_ifaces_inv key i s s' : inv s → add_new_ifaces_cb fuel key i s = Good s' → inv s'.
Proof.
  intros Hs H. unfold add_new_ifaces_cb in H. apply bind_Good in H as (x & E & H). destruct (ifs s !! ci_id i) eqn:Eh; [|done]. injection E as ->.
  destruct (hashmap_insert _ key (ci_id i)) as [[b t] old]. assert (inv (put_iface (ci_id i) (Some (iface_ref x)) s)) as Hs1 by (eapply put_iface_inv; [done | done | intros ? [= <-]; by left]).
  destruct old as [[k h]|]; [eapply unref_iface_inv; [|exact H]; exact Hs1 | injection H as <-; exact Hs1].
Qed.

Lemma open_new_ifaces_inv key i s s' : inv s → open_new_ifaces_cb answer key i s = Good s' → inv s'.
Proof.
  intros Hs H. unfold open_new_ifaces_cb in H. apply bind_Good in H as (x & E & H). destruct (ifs s !! ci_id i) eqn:Eh; [|done]. injection E as ->.
  case_bool_decide; [|by injection H as <-]. destruct (answer key); [done | by injection H as <-|]. injection H as <-. eapply put_iface_inv; [done | done | intros ? [= <-]; by left].
Qed.

(** A traversal with a callback that keeps the invariant. *)
Lemma foreach_item_keeps {V} (cb : string → V → System → Res System) t s s' :
  (∀ k v s s', inv s → cb k v s = Good s' → inv s') → inv s → foreach_item cb t s = Good s' → inv s'.
Proof. intros Hcb Hs. rewrite foreach_item_in. apply (foreach_in_inv cb (λ _, inv)); [done|]. intros d k v r s1 s2 _ H1 H2. by eapply Hcb. Qed.

Lemma purge_unused_objects_inv tr s s' : inv s → purge_unused_objects tr s = Good s' → inv s'.
Proof.
  intros Hs H. unfold purge_unused_objects in H. pose proof (foreach_keeps (λ r : Res System, if r is Good s then inv s else True) (purge_unused_objects_cb tr) (state_objects s) (Good s)) as Hk.
  destruct (hashmap_foreach _ (state_objects s) (Good s)) as [[go t] r]. apply bind_Good in H as (s1 & -> & H). injection H as <-. apply Hk; [|done]. clear Hk.
  intros k h [s2| |] Hr; cbn [purge_unused_objects_cb]; try done. destruct (objects (world s2) !! h) as [o|]; [|done]. destruct (unused tr k o); [|done]. cbn [snd].
  destruct (unref_object h s2) as [s3| |] eqn:E; [|done..]. by eapply unref_object_inv.
Qed.

Lemma start_pings_inv key v s s' : inv s → start_oam_ping_cb start_ping key v s = Good s' → inv s'.
Proof. unfold start_oam_ping_cb. intros Hs H. case_match; [by injection H as <- | done]. Qed.

Lemma delete_transaction_inv tr s s' : inv s → delete_transaction fuel tr s = Good s' → inv s'.
Proof.
  intros Hs H. apply bind_Good in H as (s1 & H1 & H). apply (foreach_item_keeps (λ _ i, unref_iface fuel (ci_id i)) (t_ifaces tr) s1); [|clear H|done].
  - intros k v s2 s3. apply unref_iface_inv.
  - apply (foreach_item_keeps (λ _ o, unref_object (c_id o)) (t_objects tr) s); [|done|done]. intros k v s2 s3. apply unref_object_inv.
Qed.
End steps.

(** ** Adding the streams *)

(** A stream whose actions are typed and whose headers are known and fit. *)
Definition stream_good (st : ConfStream) : Prop :=
  ∃ c s', PropertyReaders c ∧ acts_typed c (d_id <$> cs_headers st) (cs_actions st) s' ∧ headers_wf 0 (cs_headers st) ∧
    (length (cs_headers st) + adds_list (cs_actions st) <= 19)%nat.

Section adding.
Context {R : Type} `{!MaintenancePoints R} (fuel : nat) (strs : Streams).

(** The pipeline can take the packets of the stream, in every program that has
    the pipelines of [b]. *)
Definition pipe_ok (b : Build (R := R)) (id : nat) (st : ConfStream) : Prop :=
  ∀ P, extends P b → ∀ acts, P !! id = Some acts → runs P 0 (d_id <$> cs_headers st) acts.

Record adding (x : System (R := R) * HashMap (V := nat)) : Prop := {
  ad_iters : iters (world x.1) = ∅;
  ad_objs : objs_safe (world x.1);
  ad_fresh : fresh (build_of x.1);
  ad_trees : ∀ h i pt st P, ifs x.1 !! h = Some i → if_parsetree i = Some pt → st ∈ streams pt → extends P (build_of x.1) → stream_safe P st;
  ad_wf : hash_wf x.2;
  ad_cache : ∀ name id, hashmap_find x.2 name = Some id → ∃ st, hashmap_find strs name = Some st ∧ pipe_ok (build_of x.1) id st
}.

Lemma build_with (s : System (R := R)) b : build_of (with_build s b) = b.
Proof. by destruct b. Qed.

(** A world whose pipelines have the same numbers and actions, or more. *)
Lemma adding_world s s' t : adding (s, t) → ifs s' = ifs s → iters (world s') = ∅ → objs_safe (world s') → fresh (build_of s') →
  (∀ P, extends P (build_of s') → extends P (build_of s)) → adding (s', t).
Proof.
  intros [H1 H2 H3 H4 H5 H6] Ei Hit Ho Hf Hx. split; cbn [fst snd] in *; try done.
  - intros h i pt st P. rewrite Ei. intros Hi Hp Hst HP. by eapply H4, Hx.
  - intros name id (st & ? & Hp)%H6. exists st. split; [done|]. intros P HP. by apply Hp, Hx.
Qed.

Lemma cached_pipe_ok name st x id x' :
  adding x → hashmap_find strs name = Some st → stream_good st → cached_pipe name st x = Good (id, x') →
  adding x' ∧ pipe_ok (build_of x'.1) id st ∧ ifs x'.1 = ifs x.1.
Proof.
  intros Hx Hst (c & s' & Hc & Ht & Hwf & Hroom) H. destruct x as [s t]. unfold cached_pipe in H. destruct (hashmap_find t name) as [id0|] eqn:Ef.
  { injection H as -> <-. destruct (ad_cache _ Hx _ _ Ef) as (st' & Hst' & Hp). cbn in Hst'. rewrite Hst in Hst'. injection Hst' as <-. done. }
  apply bind_Good in H as ([id1 b] & E & H). injection H as -> <-. unfold assemble_actions in E.
  destruct (pipeline_safe (addresses (cs_parsed st)) (d_id <$> cs_headers st) (cs_actions st) name false (build_of s) id b 0) as (Hg & pl & Hpl & Hr);
    [by eapply acts_typed_safe | done | apply Hx | rewrite length_fmap; lia | unfold SCRATCH_ROOM; unfold_limits; lia |].
  assert (objs_ok b) as Hob by (eapply pipeline_objs; [by eapply acts_typed_objs | exact E | apply Hx]).
  assert (pipe_ok (build_of (with_build s b)) id st) as Hp.
  { rewrite build_with. intros P HP acts Ha. rewrite (HP _ _ Hpl) in Ha. injection Ha as <-. by apply Hr. }
  split_and!; [|done | done]. assert (adding (with_build s b, t)) as [K1 K2 K3 K4 K5 K6].
  { apply (adding_world s); [done | done | apply Hx | exact Hob | rewrite build_with; apply Hg|]. intros P. rewrite build_with. by apply extends_grows. }
  destruct (insert_find t name id K5) as [Hw Hf]. split; try done. cbn [fst snd] in *. intros n k. rewrite Hf. case_bool_decide as Hn; [|apply K6].
  intros [= <-]. subst n. by exists st.
Qed.

Lemma pipeline_ref_adding s t id w : adding (s, t) → pipeline_ref (world s) id = Ok w → adding (s <| world := w |>, t).
Proof.
  intros Hx H. unfold pipeline_ref in H. destruct (pipes (world s) !! id) as [pl|] eqn:Hpl; [|done]. injection H as <-. destruct Hx as [H1 H2 H3 H4 H5 H6] eqn:Hx'. clear Hx'.
  apply (adding_world s); [by split | done | done | exact H2 | |].
  - intros k. cbn. rewrite lookup_insert_is_Some'. intros [<-|Hk]; [apply H3; cbn; by eexists | by apply H3].
  - intros P HP k q Hq. cbn in *. destruct (decide (k = id)) as [->|Hne]; [|apply HP; cbn; by rewrite lookup_insert_ne].
    rewrite Hpl in Hq. injection Hq as <-. exact (HP id _ (lookup_insert_eq _ _ _)).
Qed.

Lemma put_adding s t h i : adding (s, t) →
  (∀ pt st P, if_parsetree i = Some pt → st ∈ streams pt → extends P (build_of s) → stream_safe P st) → adding (put_iface h (Some i) s, t).
Proof.
  intros [H1 H2 H3 H4 H5 H6] Hi. split; try done. cbn [fst snd] in *. intros h' i' pt st P. cbn. intros [[<- <-]|[_ Hh]]%lookup_insert_Some; [apply Hi | by eapply H4].
Qed.

Lemma add_senders_adding l : ∀ s t s', adding (s, t) → add_senders l s = Good s' → adding (s', t).
Proof.
  induction l as [|h l IH]; intros s t s' Hx H; cbn [add_senders] in H; [by injection H as <-|]. apply bind_Good in H as (i & E & H). destruct (ifs s !! h) eqn:Eh; [|done]. injection E as ->.
  eapply IH; [|exact H]. apply put_adding; [done|]. intros pt st P. cbn. by eapply (ad_trees _ Hx).
Qed.

(** The new stream of the tree. *)
Lemma add_stream_tree ps i hs pipe ok i' ev l :
  iface_add_stream ps i hs pipe = Some (ok, i', ev, l) →
  (ev = [] ∨ ev = [Ref (pipe_id pipe)]) ∧
  ∀ pt st, if_parsetree i' = Some pt → st ∈ streams pt →
    (∃ pt0, if_parsetree i = Some pt0 ∧ st ∈ streams pt0) ∨ (∃ hs', copy_header_list hs true = Some hs' ∧ st = mk_stream hs' pipe 0 0).
Proof.
  intros H. unfold iface_add_stream in H. apply bind_Some in H as ([[ok0 pt1] ev0] & E & H). unfold parsetree_add_stream in E.
  assert (∀ st, st ∈ streams (default new_parsetree (if_parsetree i)) → ∃ pt0, if_parsetree i = Some pt0 ∧ st ∈ streams pt0) as Hold
    by (intros st; destruct (if_parsetree i) as [pt0|]; cbn; [intros ?; by exists pt0 | by intros ?%elem_of_nil]).
  destruct (existsb _ _).
  - injection E as <- <- <-. cbn in H. injection H as _ <- <- _. split; [by left|]. intros pt st [= <-] Hst. left. by apply Hold.
  - apply bind_Some in E as ([news ev1] & En & E). injection E as <- <- <-. unfold new_stream in En. apply bind_Some in En as (hs' & Ec & En). injection En as <- <-.
    apply bind_Some in H as (l0 & _ & H). injection H as _ <- <- _. split; [by right|]. intros pt st [= <-] [Hst|Hst%list_elem_of_singleton]%elem_of_app; [left; by apply Hold | right; by exists hs'].
Qed.

Lemma new_stream_safe b id name st hs' P :
  stream_good st → pipe_ok b id st → copy_header_list (cs_headers st) true = Some hs' → extends P b → stream_safe P (mk_stream hs' (mk_pipe id name) 0 0).
Proof.
  intros (c & s' & _ & _ & Hwf & Hroom) Hp Hc HP. pose proof (copy_header_list_ids _ _ _ Hc) as Eid. assert (length hs' = length (cs_headers st)) as Hl by (apply (f_equal length) in Eid; by rewrite !length_fmap in Eid).
  split; cbn; [by eapply copy_headers_wf | lia|]. intros acts Ha. rewrite Eid. by apply Hp.
Qed.

Lemma add_one_stream_adding h name st x x' :
  adding x → hashmap_find strs name = Some st → stream_good st → add_one_stream fuel h name st x = Good x' → adding x'.
Proof.
  intros Hx Hst Hg H. unfold add_one_stream in H. apply bind_Good in H as ([id [s t]] & Ec & H). destruct (cached_pipe_ok _ _ _ _ _ Hx Hst Hg Ec) as (Hx1 & Hp & _). cbn [fst] in Hp. clear Ec Hx x.
  apply bind_Good in H as (i & E & H). destruct (ifs s !! h) as [i0|] eqn:Eh; [|done]. injection E as ->. apply bind_Good in H as ([[[ok i'] ev] snd] & Ea & H).
  destruct (iface_add_stream _ i _ _) as [r|] eqn:Eadd; [|done]. injection Ea as ->. destruct (add_stream_tree _ _ _ _ _ _ _ _ Eadd) as [Hev Htree].
  assert (adding (put_iface h (Some i') s, t)) as Hx2.
  { apply put_adding; [done|]. intros pt st' P Hpt Hin HP. destruct (Htree pt st' Hpt Hin) as [(pt0 & Hpt0 & Hin0)|(hs' & Hc & ->)]; [by eapply (ad_trees _ Hx1) | by eapply new_stream_safe]. }
  apply bind_Good in H as (s1 & Er & H). assert (adding (s1, t)) as Hx3.
  { destruct Hev as [-> | ->]; cbn [take_refs] in Er; [by injection Er as <-|]. apply bind_Good in Er as (w & Ew & Er). injection Er as <-.
    destruct (pipeline_ref _ _) as [w'| | |] eqn:Ep; [|done..]. injection Ew as <-. exact (pipeline_ref_adding _ _ _ _ Hx2 Ep). }
  apply bind_Good in H as (s2 & Es & H). destruct ok; [|done]. injection H as <-. by eapply add_senders_adding.
Qed.

Lemma addstreams_adding (lists : HashMap (V := ConfStreamList (A := ConfStream))) x x' :
  hash_wf lists → (∀ ifname sl, hashmap_find lists ifname = Some sl → Forall (λ y, hashmap_find strs y.1 = Some y.2 ∧ stream_good y.2) sl) →
  adding x → foreach_item (addstream_cb fuel) lists x = Good x' → adding x'.
Proof.
  intros Hwf Hl Hx. rewrite foreach_item_in. apply (foreach_in_inv _ (λ _, adding)); [done|]. intros d key sl r x1 x2 Hi Hx1 H.
  assert (hashmap_find lists key = Some sl) as Hf by (apply items_elem; [done|]; rewrite Hi; apply elem_of_app; right; left).
  specialize (Hl key sl Hf). rewrite Forall_forall in Hl. unfold addstream_cb in H. apply bind_Good in H as (h & _ & H). revert H. apply (foreach_in_inv _ (λ _, adding)); [done|].
  intros d' name st r' y1 y2 Hsl Hy1 H. destruct (Hl (name, st)) as [? ?]; [rewrite Hsl; apply elem_of_app; right; left|]. by eapply add_one_stream_adding.
Qed.
End adding.

(** ** Committed configurations *)

(** Before the streams are added, and afterwards. *)
Definition no_pipes (w : World) : Prop := pipes w = ∅ ∧ iters w = ∅ ∧ objs_safe w.
Definition no_streams (w : World) (i : Interface) : Prop := if_parsetree i = None.

Lemma no_pipes_stable : stable no_pipes no_streams.
Proof.
  split.
  - intros w w' (Hp & Hi & Ho) (E & S & O). split; [|done]. split_and!; [|congruence | auto]. apply map_empty. intros id. apply eq_None_not_Some. intros [pl Hpl].
    assert (prog w' !! id = Some (Pipe.actions pl)) as H by (unfold prog; by rewrite lookup_fmap, Hpl). apply S in H. unfold prog in H. by rewrite Hp, fmap_empty, lookup_empty in H.
  - intros w w' (Hp & Hi & Ho) E1 E2 H. split; [|done]. split_and!; [congruence | congruence | done].
  - by intros w (_ & _ & ?).
  - intros w i i' Hi [E|E]; unfold no_streams in *; congruence.
Qed.

Lemma safe_stable : stable safe iface_safe.
Proof.
  split.
  - intros w w' Hs Hr. split; [by eapply safe_but_releases|]. intros i. apply iface_safe_shrinks. apply Hr.
  - intros w w' [Hi Ho] E1 E2 H. assert (prog w' = prog w) as Ep by (unfold prog; by rewrite E2). split; [split; [|done]|].
    + intros h pi Hx. rewrite E1. intros Hh. apply (iter_safe_shrink w); [rewrite Ep; apply shrinks_refl | exact (Hi h pi Hx Hh)].
    + intros i. unfold iface_safe. by rewrite Ep.
  - by intros w [_ ?].
  - intros w i i' Hi [E|E]; unfold iface_safe in *; rewrite E; done.
Qed.

(** The types of the headers are known, and the headers that the actions may add
    fit the packet. *)
Definition fits_packet (st : ConfStream) : Prop :=
  Forall (λ h, d_id h ≠ PROTO_ID_PAYLOAD) (cs_headers st) ∧ (length (cs_headers st) + adds_list (cs_actions st) <= 19)%nat.

Definition histories_ok (tr : StateTransaction) : Prop :=
  ∀ name o r, hashmap_find (t_objects tr) name = Some o → obj (c_obj o) = Obj.PIPEOBJ_SEQREC r → 0 < Rcvy.history_length (Rcvy.conf (Rcvy.main_rec r)).

Definition streams_fit (tr : StateTransaction) : Prop :=
  ∀ ifname sl, hashmap_find (t_iface_streams tr) ifname = Some sl → Forall (λ x, fits_packet x.2) sl.

Section committed.
Context (readers : nat → string → ProtocolFieldType → Z → Z → option producer) (stale launched : string → bool).
Context {R : Type} `{!MaintenancePoints R} (fuel : nat) (answer : string → OpenAnswer) (start_ping : string → string → bool).
Context (Hreaders : ∀ ifc prop t off cnt rd, readers ifc prop t off cnt = Some rd → ActSafe.reader_ok rd off cnt).

Lemma stream_of_good ifaces objects text0 name st :
  stream_of readers stale ifaces objects text0 name st → fits_packet st → stream_good st.
Proof.
  intros (text & line & Ha & Hor) [Hk Hroom]. destruct (parse_actions_typed _ _ _ _ _ _ Ha) as (_ & s' & Ht).
  exists (line_conf readers stale ifaces objects text name), s'. split; [exact Hreaders|]. split; [done|]. split; [|done].
  destruct Hor as [(_ & _ & E)|(pline & mline & hs & _ & _ & _ & Hp & Hm)]; [rewrite E in Hk; unfold payload_header in Hk; apply Forall_cons in Hk as [Hk _]; by destruct Hk|].
  destruct (accepted_lines_wf _ _ _ _ _ Hp Hm) as (_ & Hsame & Hwf). apply Hwf. unfold same_headers in Hsame.
  assert (d_id <$> cs_headers st = d_id <$> hs) as Ei by (apply (f_equal (fmap snd)) in Hsame; by rewrite <- !list_fmap_compose in Hsame).
  assert (Forall (λ id, id ≠ PROTO_ID_PAYLOAD) (d_id <$> hs)) as Hx by (rewrite <- Ei; by apply Forall_fmap). rewrite Forall_fmap in Hx. exact Hx.
Qed.

Lemma loaded_inv l tr (r : R) : accepted readers stale launched l tr → histories_ok tr → inv no_pipes no_streams (loaded tr r).
Proof.
  intros [(W1 & W2 & W3 & W4) _ _ _ _ Hrec Hif _ _ _ _ _ _ _] Hh. split; [split_and!; [done | done|]|].
  - intros k ob. cbn. intros Hk%elem_of_list_to_map_2. apply list_elem_of_fmap in Hk as ([name o] & [= -> ->] & Hin). apply items_elem in Hin; [|done].
    cbn. unfold obj_safe. destruct (obj (c_obj o)) as [|rc| |] eqn:E; try done. by eapply Hrec, Hh.
  - intros h i. cbn. intros Hk%elem_of_list_to_map_2. apply list_elem_of_fmap in Hk as ([name ci] & [= -> ->] & Hin). apply items_elem in Hin; [|done].
    destruct (Hif _ _ Hin) as (_ & t & E). unfold no_streams. cbn. by rewrite E.
Qed.

Lemma foreach_nothing {V S} (cb : string → V → S → Res S) t s : items t = [] → foreach_item cb t s = Good s.
Proof. intros E. by rewrite foreach_item_in, E. Qed.

Lemma apply_config_inv l tr (r : R) s :
  accepted readers stale launched l tr → histories_ok tr → streams_fit tr →
  apply_config fuel answer start_ping tr r = Good s → inv safe iface_safe s.
Proof.
  intros Hacc Hh Hfit H. pose proof (loaded_inv l tr r Hacc Hh) as H0. unfold apply_config in H. apply bind_Good in H as (s7 & H & Hdel). unfold state_commit_transaction in H.
  rewrite foreach_nothing in H by apply Hacc. cbn [mbind res_bind] in H.
  apply bind_Good in H as (s2 & E2 & H). apply bind_Good in H as (s3 & E3 & H). apply bind_Good in H as (s4 & E4 & H). apply bind_Good in H as (s5 & E5 & H). apply bind_Good in H as (s6 & E6 & H).
  apply (foreach_item_keeps no_pipes no_streams) in E2; [|intros ????; apply add_new_objects_inv, no_pipes_stable | done].
  apply (foreach_item_keeps no_pipes no_streams) in E3; [|intros ????; apply add_new_ifaces_inv, no_pipes_stable | done].
  unfold add_streams_to_interfaces in E4. apply bind_Good in E4 as ([s3' cache] & Eadd & E4).
  assert (adding (t_streams tr) (s3, empty_table 29)) as Hstart.
  { destruct E3 as [(Hp & Hi & Ho) Ht]. split; cbn [fst snd]; [done | done | | | apply (rp_wf _ ∅), empty_represents; done|].
    - intros k. cbn. rewrite Hp, lookup_empty. by intros [].
    - intros h i pt st P Hx Hpt. specialize (Ht h i Hx). unfold no_streams in Ht. congruence.
    - intros name id. rewrite (rp_find _ ∅) by (apply empty_represents; done). by rewrite lookup_empty. }
  apply (addstreams_adding fuel (t_streams tr)) in Eadd; [|apply Hacc | | done].
  2: { intros ifname sl Hsl. destruct (ac_list _ _ _ _ _ Hacc _ _ Hsl) as (line & _ & _ & _ & _ & Hall). specialize (Hfit _ _ Hsl). rewrite Forall_forall in *.
       intros y Hy. split; [by apply Hall|]. eapply stream_of_good; [|by apply Hfit]. eapply (ac_stream _ _ _ _ _ Hacc). by apply Hall. }
  assert (inv safe iface_safe s3') as H3.
  { destruct Eadd as [K1 K2 K3 K4 _ _]. cbn [fst snd] in *. split; [split; [|done]; intros h pi _; by rewrite K1, lookup_empty|].
    intros h i Hi. unfold iface_safe. destruct (if_parsetree i) as [pt|] eqn:Ept; [|done]. apply Forall_forall. intros st Hst. eapply K4; [done.. |]. intros id pl Hpl. unfold prog. cbn in Hpl. by rewrite lookup_fmap, Hpl. }
  apply (foreach_item_keeps safe iface_safe) in E4; [|intros k v x x'; apply settle_inv, safe_stable | done].
  apply (foreach_item_keeps safe iface_safe) in E5; [|intros ????; apply open_new_ifaces_inv, safe_stable | done].
  apply (purge_unused_objects_inv _ _ safe_stable) in E6; [|done].
  apply (foreach_item_keeps safe iface_safe) in H; [|intros ????; apply start_pings_inv | done].
  by apply (delete_transaction_inv fuel _ _ safe_stable tr s7).
Qed.

End committed.

(** ** Witness *)

#[local] Instance no_points : MaintenancePoints unit := {| oam_new_maintenance_point := λ _ _, None |}.

(** A stream with a generator and two branches, and streams that two interfaces
    receive. *)
Definition system_config : string :=
  "[interfaces]" +:+ nl +:+ "in = eth iface=eth0" +:+ nl +:+ "in:streams = s t" +:+ nl +:+ "in2 = eth iface=eth2" +:+ nl +:+ "in2:streams = t" +:+ nl +:+ "out = eth iface=eth1" +:+ nl +:+
  "l3 = ip iface=eth3" +:+ nl +:+ "l3:streams = u" +:+ nl +:+ "tunnel = udp-in iface=eth4" +:+ nl +:+ "tunnel:streams = u" +:+ nl +:+
  "[objects]" +:+ nl +:+ "gen = SeqGen ResetFlag=yes" +:+ nl +:+ "rcv = SeqRcvy frerSeqRcvyHistoryLength=16" +:+ nl +:+
  "[streams]" +:+ nl +:+ "s:packet = eth, cvlan" +:+ nl +:+ "s:match = cvlan vid=5" +:+ nl +:+ "s:actions = seqgen gen, del cvlan, replicate a b" +:+ nl +:+
  "a = send out" +:+ nl +:+ "b = drop" +:+ nl +:+ "t:packet = eth" +:+ nl +:+ "t:match = eth dmac=1:2:3:4:5:6" +:+ nl +:+ "t:actions = send out" +:+ nl +:+
  "u:packet = ipv4" +:+ nl +:+ "u:match = ipv4 src=10.0.0.0/8" +:+ nl +:+ "u:actions = seqgen gen, drop" +:+ nl.

Definition system_read : string → Res StateTransaction := read_config_file no_readers (λ _, false) (λ _, true).
Definition system_apply (tr : StateTransaction) : Res (System (R := unit)) := apply_config 100 (λ _, Opened true) (λ _ _, true) tr tt.
Definition system_close (s : System (R := unit)) : Res (System (R := unit)) := close_interfaces 100 (λ _, Opened true) (λ _ _, true) s.

(** The conditions of the theorem, as a check of the transaction. *)
Definition system_check (tr : StateTransaction) : bool :=
  forallb (λ x, match obj (c_obj x.2) with Obj.PIPEOBJ_SEQREC r => 0 <? Rcvy.history_length (Rcvy.conf (Rcvy.main_rec r)) | _ => true end) (items (t_objects tr)) &&
  forallb (λ x, forallb (λ y, forallb (λ h, negb (bool_decide (d_id h = PROTO_ID_PAYLOAD))) (cs_headers y.2) && (length (cs_headers y.2) + adds_list (cs_actions y.2) <=? 19)%nat) x.2) (items (t_iface_streams tr)).

Lemma system_check_ok tr : hash_wf (t_objects tr) → hash_wf (t_iface_streams tr) → system_check tr = true → histories_ok tr ∧ streams_fit tr.
Proof.
  intros W1 W2 [H1 H2]%andb_true_iff. rewrite forallb_forall in H1, H2. split.
  - intros name o r Hf Ho. apply items_elem in Hf; [|done]. specialize (H1 _ (proj1 (list_elem_of_In _ _) Hf)). cbn in H1. rewrite Ho in H1. by apply Z.ltb_lt.
  - intros ifname sl Hf. apply items_elem in Hf; [|done]. specialize (H2 _ (proj1 (list_elem_of_In _ _) Hf)). cbn in H2. rewrite forallb_forall in H2. apply Forall_forall. intros y Hy.
    specialize (H2 _ (proj1 (list_elem_of_In _ _) Hy)). apply andb_true_iff in H2 as [H2 H3]. split; [|by apply Nat.leb_le]. apply Forall_forall. intros x Hx. rewrite forallb_forall in H2.
    specialize (H2 _ (proj1 (list_elem_of_In _ _) Hx)). by apply negb_true_iff, bool_decide_eq_false in H2.
Qed.

#[local] Instance IfaceType_eq_dec : EqDecision IfaceType.
Proof. solve_decision. Defined.

Definition receivers_of (s : System (R := unit)) : list IfaceType :=
  filter (λ t, is_Some (socket_loop PipeRun.talker_env 100 t)) (map (λ x, if_type x.2) (map_to_list (ifs s))).

Example system_runs :
  (match read_config_file no_readers (λ _, false) (λ _, true) system_config with
   | Good tr => system_check tr && match system_apply tr with Good s => bool_decide (IF_ETH ∈ receivers_of s ∧ IF_IP ∈ receivers_of s ∧ IF_UDP_IN ∈ receivers_of s) | _ => false end
   | _ => false
   end) = true.
Proof. vm_compute. reflexivity. Qed.

Lemma msg_ok_for t m : msg_ok m → msg_for t m.
Proof. intros H. destruct t; try done. by destruct H. Qed.


(** What is left of the system: pipelines, objects, and interfaces with their
    references and senders. *)
Definition census (r : Res (System (R := unit))) : nat * list (Z * string) * list (string * Z * Z) :=
  match r with
  | Good s => (size (pipes (world s)), map (λ x, (obj_refcount x.2, pipelineobject_name_from_type (obj x.2))) (map_to_list (objects (world s))),
               map (λ x, (if_name x.2, if_references x.2, if_senders x.2)) (map_to_list (ifs s)))
  | _ => (0%nat, [], [])
  end.

(** The recovery object that no stream uses is gone. *)
Example system_objects : (census (tr ← system_read system_config; system_apply tr)).1.2 = [(3, "SeqGen")].
Proof. vm_compute. reflexivity. Qed.

(** An interface counts a sender for every interface that receives the stream,
    and removes one when the pipeline is deleted: the interface that a stream of
    two interfaces sends to is still there when all interfaces are closed. *)
Example sender_leak :
  census (tr ← system_read system_config; s ← system_apply tr; system_close s) = (0%nat, [], [("out", 0, 1)]).
Proof. vm_compute. reflexivity. Qed.

End Commit.
