(* ===== verification/StreamNames.v ===== *)
(** * Compound streams (state.c: [stream_names_in_pipeline], [same_compound_stream])

    The streams that occur in one pipeline belong together.  The sets of names
    are kept in a list, the newest set in front; the names of a new pipeline are
    added to the first set that shares one of them. *)

From S2P Require Import Prelude.

Module SNames.

Abbreviation Names := (gset string).

Fixpoint add_to_first (names : Names) (l : list Names) : option (list Names) :=
  match l with
  | [] => None
  | s :: l => if bool_decide (s ∩ names = ∅) then (λ l, s :: l) <$> add_to_first names l else Some (s ∪ names :: l)
  end.

Definition stream_names_in_pipeline (names : Names) (stream_names : list Names) : list Names :=
  default (names :: stream_names) (add_to_first names stream_names).

Definition same_compound_stream (stream_names : list Names) (s1 s2 : string) : bool :=
  existsb (λ s, bool_decide (s1 ∈ s) && bool_decide (s2 ∈ s)) stream_names.

(** The sets after the pipelines have been compiled in this order. *)
Definition compiled (pipelines : list Names) : list Names := foldl (λ l ns, stream_names_in_pipeline ns l) [] pipelines.

(** Two names occur in the same pipeline. *)
Definition together (pipelines : list Names) (a b : string) : Prop := ∃ p, p ∈ pipelines ∧ a ∈ p ∧ b ∈ p.

Lemma same_spec l a b : same_compound_stream l a b = true ↔ ∃ s, s ∈ l ∧ a ∈ s ∧ b ∈ s.
Proof.
  unfold same_compound_stream. rewrite existsb_exists. split.
  - intros (s & Hs%list_elem_of_In & [Ha%bool_decide_eq_true Hb%bool_decide_eq_true]%andb_true_iff). eauto.
  - intros (s & Hs & Ha & Hb). exists s. split; [by apply list_elem_of_In|]. by rewrite !bool_decide_eq_true_2.
Qed.

(** Sets only grow, and the new names are in one set. *)
Lemma add_to_first_spec names l :
  match add_to_first names l with
  | Some l' => (∃ i s, l !! i = Some s ∧ s ∩ names ≠ ∅ ∧ l' = <[i := s ∪ names]> l)
  | None => Forall (λ s, s ∩ names = ∅) l
  end.
Proof.
  induction l as [|s l IH]; cbn; [done|]. case_bool_decide as E.
  - destruct (add_to_first names l) as [l'|]; cbn.
    + destruct IH as (i & s' & Hi & Hne & ->). by exists (S i), s'.
    + by constructor.
  - by exists 0%nat, s.
Qed.

Lemma in_pipeline_spec names l :
  (∃ i s, l !! i = Some s ∧ s ∩ names ≠ ∅ ∧ stream_names_in_pipeline names l = <[i := s ∪ names]> l) ∨
  (Forall (λ s, s ∩ names = ∅) l ∧ stream_names_in_pipeline names l = names :: l).
Proof. unfold stream_names_in_pipeline. pose proof (add_to_first_spec names l) as H. destruct (add_to_first names l); [by left | by right]. Qed.

(** The sets that are left by pipelines: connected, and covering each pipeline. *)
Record names_inv (ps l : list Names) : Prop := {
  ni_sound : ∀ s a b, s ∈ l → a ∈ s → b ∈ s → rtc (together ps) a b;
  ni_cover : ∀ p, p ∈ ps → ∃ s, s ∈ l ∧ p ⊆ s
}.

Lemma together_mono ps p a b : together ps a b → together (ps ++ [p]) a b.
Proof. intros (q & Hq & H). exists q. split; [apply elem_of_app; by left | done]. Qed.

Lemma names_step ps l names : names_inv ps l → names_inv (ps ++ [names]) (stream_names_in_pipeline names l).
Proof.
  intros [Hs Hc].
  assert (∀ s a b, s ∈ l → a ∈ s → b ∈ s → rtc (together (ps ++ [names])) a b) as Hs'.
  { intros s a b Hin Ha Hb. eapply rtc_subrel; [intros x y; apply together_mono | by eapply Hs]. }
  assert (∀ a b, a ∈ names → b ∈ names → together (ps ++ [names]) a b) as Hn.
  { intros a b Ha Hb. exists names. split; [|done]. apply elem_of_app. right. by apply list_elem_of_singleton. }
  destruct (in_pipeline_spec names l) as [(i & s & Hi & Hne & ->)|[_ ->]].
  - apply set_choose_L in Hne as [x Hx]. assert (s ∈ l) as Hsl by (by eapply list_elem_of_lookup_2). split.
    + assert (∀ a, a ∈ s ∪ names → rtc (together (ps ++ [names])) a x ∧ rtc (together (ps ++ [names])) x a) as Hx'.
      { intros a [Ha|Ha]%elem_of_union.
        - split; (eapply Hs'; [done| |]); set_solver.
        - split; apply rtc_once, Hn; set_solver. }
      intros s' a b Hin Ha Hb. apply list_elem_of_lookup in Hin as [j Hj]. destruct (decide (i = j)) as [<-|Hij].
      * rewrite list_lookup_insert_eq in Hj by (by eapply lookup_lt_Some). injection Hj as <-. etrans; [apply (Hx' a Ha) | apply (Hx' b Hb)].
      * rewrite list_lookup_insert_ne in Hj by done. eapply Hs'; [by eapply list_elem_of_lookup_2 | done | done].
    + assert (s ∪ names ∈ <[i:=s ∪ names]> l) as Hin by (eapply list_elem_of_lookup_2, list_lookup_insert_eq; by eapply lookup_lt_Some).
      intros p [Hp|Hp%list_elem_of_singleton]%elem_of_app; [|subst; eexists; split; [exact Hin | set_solver]].
      destruct (Hc p Hp) as (s' & [j Hj]%list_elem_of_lookup & Hsub). destruct (decide (i = j)) as [<-|Hij].
      * exists (s ∪ names). split; [done|]. rewrite Hi in Hj. injection Hj as <-. set_solver.
      * exists s'. split; [|done]. apply (list_elem_of_lookup_2 _ j). by rewrite list_lookup_insert_ne.
  - split.
    + intros s a b [->|Hin]%elem_of_cons Ha Hb; [by apply rtc_once, Hn | by eapply Hs'].
    + intros p [Hp|Hp%list_elem_of_singleton]%elem_of_app.
      * destruct (Hc p Hp) as (s & Hin & Hsub). exists s. split; [by apply list_elem_of_further | done].
      * subst. exists names. split; [by apply list_elem_of_here | done].
Qed.

Lemma compiled_inv ps : names_inv ps (compiled ps).
Proof.
  induction ps as [|p ps IH] using rev_ind; [split; [by intros ? ? ? ?%elem_of_nil | by intros ? ?%elem_of_nil]|].
  unfold compiled. rewrite foldl_app. by apply names_step.
Qed.

(** Streams of one pipeline are the same compound stream, and streams that are
    the same compound stream are connected by pipelines that share streams. *)
Lemma compound_streams ps a b :
  (together ps a b → same_compound_stream (compiled ps) a b = true) ∧
  (same_compound_stream (compiled ps) a b = true → rtc (together ps) a b).
Proof.
  destruct (compiled_inv ps) as [Hs Hc]. rewrite same_spec. split.
  - intros (p & Hp & Ha & Hb). destruct (Hc p Hp) as (s & Hin & Hsub). exists s. set_solver.
  - intros (s & Hin & Ha & Hb). by eapply Hs.
Qed.

(** Two sets that a later pipeline connects are not merged. *)
Example connected_but_different :
  let ps := [{["a"; "b"]}; {["c"; "d"]}; {["b"; "c"]}]%string in
  same_compound_stream (compiled ps) "a" "b" = true ∧ same_compound_stream (compiled ps) "b" "c" = true ∧
  same_compound_stream (compiled ps) "a" "d" = false.
Proof. vm_compute. done. Qed.

End SNames.
