(* ===== verification/OamMask.v ===== *)
(** * Mask signals (oam_maintenance.c)

    A maintenance point that is told that nothing comes over a path tells its
    sequence recovery; when no path is left the maintenance point behind the
    recovery sends mask signals itself.  The threads that send and that wait for
    signals are present or not; each signal and each time-out is a step. *)

From S2P Require Import Prelude TimeUtils Protocol Packet SeqRecov SeqRecovTimer Object Pipeline CString HashMap Double Json ConfActions Assemble.
From S2P Require Import OamSession OamMp OamCodec ObjState OamRequest.
From Stdlib Require Import Ascii.

Module Mask.
Import Pkt CStr HMap Json ConfA Asm Mp Codec OState Req Rcvy(MaskEvent(..), RecoveryObject, main_rec, mk_obj, oam_seq_recoveries, seq_rec_path_masked, seq_rec_path_unmasked).

#[local] Open Scope string_scope.
#[local] Open Scope list_scope.
#[local] Open Scope Z_scope.

Definition set_point (k : nat) (m : OAM_MaintenancePoint) (o : Oam) : Oam :=
  o <| o_reg := (o_reg o) <| mps := <[k := m]> (mps (o_reg o)) |> |>.

Section mask.
Context (e : Env).

(** The message of a mask request, packed; the flag tells whether packing
    succeeded. *)
Definition mask_packet (o : Oam) (k : nat) (m : OAM_MaintenancePoint) (type : string) : option (bool * Packet) :=
  let req := create_mask_request (o_core o) k m type in
  '(js, p) ← mp_pack_message_header (e_sender e) m (new_packet None (mk_pool 0 0)).1 req;
  mp_pack_message_payload (e_sender e) m p (json_object_insert js "target" (text "nexthop")).

Definition inject (k : nat) (p : Packet) (o : Oam) : option Oam :=
  '(at_, g) ← mp_inject_packet k (o_reg o); Some (emit (EvInject at_ p) (o <| o_reg := g |>)).

(** One round of [send_mask_request_thread]; when packing fails it tries again. *)
Definition send_mask_round (k : nat) (o : Oam) : option Oam :=
  m ← mps (o_reg o) !! k;
  '(ok, p) ← mask_packet o k m "mask";
  if (ok : bool) then inject k p o else Some o.

(** [mp_initiate_mask_signalling] *)
Definition initiate (k : nat) (o : Oam) : option (bool * Oam) :=
  m ← mps (o_reg o) !! k;
  let '(ok, m) := mp_initiate_mask_signalling (Mp.mk_world (λ _, 0) (e_launches e) (λ _, false)) m in
  Some (ok, set_point k m o).

(** The thread ends and an unmask signal is sent.  When it cannot be packed the
    request is deleted as if it had a reference to the point. *)
Definition mp_stop_mask_signalling (k : nat) (o : Oam) : option (bool * Oam) :=
  m ← mps (o_reg o) !! k;
  if negb (mp_can_send m) then Some (false, o)
  else if negb (mask_send m) then Some (false, o)
  else
    let m := m <| mask_send := false |> in
    let o := set_point k m o in
    '(ok, p) ← mask_packet o k m "unmask";
    if (ok : bool) then o ← inject k p o; Some (true, o)
    else g ← oam_unref_maintenance_point k (o_reg o); Some (false, o <| o_reg := g |>).

(** The point with the name, in the table that must be there. *)
Definition point_named (name : string) (o : Oam) : option (option nat) := h ← mp_hash (o_reg o); Some (hashmap_find h name).

Definition oam_automip_start (name : string) (o : Oam) : option Oam :=
  k ← point_named name o;
  match k with Some k => '(_, o) ← initiate k o; Some o | None => Some o end.

Definition oam_automip_stop_mask_session (name : string) (o : Oam) : option Oam :=
  k ← point_named name o;
  match k with Some k => '(_, o) ← mp_stop_mask_signalling k o; Some o | None => Some o end.

(** The calls of the recovery; without a point behind it the name is NULL. *)
Definition mask_event (ev : MaskEvent) (o : Oam) : option Oam :=
  match ev with
  | START_MASK_SESSION post => name ← post; oam_automip_start name o
  | STOP_MASK_SESSION post => name ← post; oam_automip_stop_mask_session name o
  end.

Fixpoint mask_events (evs : list MaskEvent) (o : Oam) : option Oam :=
  match evs with [] => Some o | ev :: evs => o ← mask_event ev o; mask_events evs o end.

(** The recovery a point is bound to. *)
Definition recovery_of (m : OAM_MaintenancePoint) (o : Oam) : option (nat * RecoveryObject) :=
  match m_object m with
  | Some r => match o_objs o !! o_id r with Some (Obj.PIPEOBJ_SEQREC rc) => Some (o_id r, rc) | _ => None end
  | None => None
  end.

(** A change of a path, and what the recovery calls: whether it was accepted. *)
Definition change_path (masked : bool) (name : string) (id : nat) (rc : RecoveryObject) (o : Oam) : option (bool * Oam) :=
  let '(ok, evs, r) := (if masked then seq_rec_path_masked else seq_rec_path_unmasked) (main_rec rc) name in
  let o := o <| o_objs := <[id := Obj.PIPEOBJ_SEQREC (mk_obj r (oam_seq_recoveries rc))]> (o_objs o) |> in
  let o := if ok then emit (EvNotify (if masked then "seq_rcvy mask" else "seq_rcvy unmask")
                              (object_of [("rcvy", text (Rcvy.name (main_rec rc))); ("mip", text name)])) o else o in
  o ← mask_events evs o; Some (ok, o).

(** The first signal starts the thread that waits for the next ones. *)
Definition mp_receive_mask_signal (k : nat) (o : Oam) : option Oam :=
  m ← mps (o_reg o) !! k;
  if negb (oam_is_automip_name (m_name m) (-1)) then Some o
  else
    match recovery_of m o with
    | None => Some o
    | Some (id, rc) =>
        if mask_recv m then Some o
        else
          '(ok, o) ← change_path true (m_name m) id rc (set_point k (m <| mask_queue := true |>) o);
          if (ok : bool) then m ← mps (o_reg o) !! k; Some (set_point k (m <| mask_recv := e_launches e |>) o) else Some o
    end.

Definition mp_receive_unmask_signal (k : nat) (o : Oam) : option Oam :=
  m ← mps (o_reg o) !! k;
  if negb (oam_is_automip_name (m_name m) (-1)) then Some o
  else
    match recovery_of m o with
    | None => Some o
    | Some (id, rc) =>
        if mask_recv m then
          '(ok, o) ← change_path false (m_name m) id rc o;
          if (ok : bool) then m ← mps (o_reg o) !! k; Some (set_point k (m <| mask_recv := false |>) o) else Some o
        else Some o
    end.

(** The time-out in [recv_mask_timeout_thread], which is running. *)
Definition mask_timeout (k : nat) (o : Oam) : option Oam :=
  m ← mps (o_reg o) !! k;
  '(id, rc) ← recovery_of m o;
  '(_, o) ← change_path false (m_name m) id rc o;
  m ← mps (o_reg o) !! k;
  Some (set_point k (m <| mask_recv := false |>) o).

End mask.

End Mask.
