(* ===== verification/OamMessage.v ===== *)
(** * OAM messages (oam_message.c)

    What a maintenance point does with an in-band message, the replies that are
    sent out of band, and what the node that asked does with a reply.  Strings of
    messages are those of parsed texts, which are never NULL.  [None] is
    undefined behaviour. *)

From S2P Require Import Prelude TimeUtils Protocol Packet HeaderField Action Octets CString HashMap Double Json ConfUtils ConfActions Assemble.
From S2P Require Import OamSession OamMp OamCodec ObjState UdpOut OamRequest StreamNames OamMask.
From Stdlib Require Import Ascii QArith Qround.

Module Msg.
Import Time Proto Pkt Field Act Octets CStr HMap Dbl Json ConfU(ether_pton) ConfA Asm Session Mp Codec OState Req SNames Mask.

#[local] Open Scope string_scope.
#[local] Open Scope list_scope.
#[local] Open Scope Z_scope.

(** ** Values of messages *)

Definition get_string (js : JsonTable) (k : string) : option string :=
  match json_object_get_string js k with Some (JString (Some s)) => Some s | _ => None end.
Definition get_number (js : JsonTable) (k : string) : option Double :=
  match json_object_get_number js k with Some (JNumber d) => Some d | _ => None end.
Definition get_object (js : JsonTable) (k : string) : option JsonTable :=
  match json_object_get_object js k with Some (JObject h) => Some h | _ => None end.
Definition get_array (js : JsonTable) (k : string) : option (list JsonValue) :=
  match json_object_get_array js k with Some (JArray l) => Some l | _ => None end.

(** The conversion to [unsigned] truncates; out of range it is undefined. *)
Definition to_unsigned (d : Double) : option Z :=
  match d with
  | Dnum neg m e =>
      let z := Qfloor (dval m e) in
      if neg then if z =? 0 then Some 0 else None else if z <? 2 ^ 32 then Some z else None
  | _ => None
  end.

(** [number < 0 || number > 15] *)
Definition session_invalid (d : Double) : bool :=
  match d with
  | Dnum neg m e => if neg then negb (m =? 0) else negb (Qle_bool (dval m e) (inject_Z 15))
  | Dinf _ => true
  | Dnan => false
  end.

(** ** The node *)

(** How replies are shown on a command connection. *)
Inductive TerminalFormat := TF_NORMAL | TF_JSON.

(** The OAM module with what it uses: the interfaces by name, of which only
    those of the type udp-out matter, the compound streams, the command
    connections, and the replies reported to them. *)
Record Node := mk_node {
  n_oam : Oam;
  n_ifs : gmap string (option UdpOut.UdpOut);
  n_streams : list Names;
  n_conns : gmap string TerminalFormat;
  n_reports : list (string * JsonTable)
}.

#[global] Instance eta_node : Eta Node := λ n, mk_node (n_oam n) (n_ifs n) (n_streams n) (n_conns n) (n_reports n).

Definition report (conn : option string) (js : JsonTable) (n : Node) : Node :=
  if conn is Some c then n <| n_reports := n_reports n ++ [(c, js)] |> else n.

(** What the calls find outside: see [Env]; whether datagrams can be sent,
    whether packets are logged, and the answers to an [open]. *)
Record World := mk_world { w_env : Env; w_udp : bool; w_log : bool; w_kernel : UdpOut.Kernel }.

Section node.
Context (w : World).

(** ** Replies out of band *)

(** Success, and what is sent. *)
Definition send_udp_reply (address : string) (port : Z) (msg : string) : bool * list OamEvent :=
  match UdpOut.parse_address address with
  | None => (false, [])
  | Some _ => if w_udp w then (true, [EvUdp address (u16 port) msg]) else (false, [])
  end.

(** The VLAN of the interface, -1 without one. *)
Definition oam_eth_if_get_vlan (i : OamIface) : Z := match i with IF_OAM_ETH _ _ v => v | _ => 0 end.

(** A packet with the message in a CFM response.  An address that cannot be
    read leaves the destination of the fresh packet. *)
Definition eth_reply_packet (if_vid : Z) (address : string) (vid : Z) (msg : string) (level : Z) : option Packet :=
  let p := packet_enlarge_scratch (packet_clear_headers (new_packet None (mk_pool 0 0)).1) in
  let p := (packet_add_header p 0 PROTO_ID_ETH (proto_len PROTO_ID_ETH)).2 in
  p ← (if ether_pton address is Some mac then write_hdr p 0 mac else Some p);
  p ← write_hdr_at p 0 6 (replicate 6 0);
  '(h, p) ← (if negb (if_vid =? -1) || (vid =? 0) then p ← write_hdr_at p 0 12 [137; 2]; Some (0, p)
             else
               p ← write_hdr_at p 0 12 [129; 0];
               let p := (packet_add_header p 1 PROTO_ID_CVLAN (proto_len PROTO_ID_CVLAN)).2 in
               p ← write_hdr p 1 [Z.land vid 255; Z.land (Z.shiftr vid 8) 255; 137; 2];
               Some (1, p));
  let n := Z.of_nat (String.length msg) in
  let p := (packet_add_header p (h + 1) PROTO_ID_PAYLOAD (4 + 3 + n + 1)).2 in
  p ← write_hdr p (h + 1) ([Z.land (Z.shiftl level 5) 255; OAM_CFM_RESPONSE_OPCODE; 0; 0; 3; Z.land (Z.shiftr n 8) 255; Z.land n 255]
                           ++ text_octets msg ++ [0]);
  Some (p <| recv_time := s_now (e_sender (w_env w)) |> <| timestamp := timespec_to_tsntstamp (s_now (e_sender (w_env w))) |>).

Definition send_eth_reply (c : OamCore) (address : string) (vid : Z) (msg : string) (level : Z) : option (bool * list OamEvent) :=
  match oam_default_eth_iface c with
  | None => Some (false, [])
  | Some i => p ← eth_reply_packet (i32 (oam_eth_if_get_vlan i)) address vid msg level; Some (true, [EvEth p])
  end.

Definition send_message_outofband (m : OAM_MaintenancePoint) (msg address : JsonTable) (o : Oam) : option (bool * Oam) :=
  match json_serialize (JObject msg) with
  | None => Some (false, o)
  | Some msg_str =>
      match get_string address "ip", get_number address "port", get_string address "dmac" with
      | Some ip, Some port, _ =>
          port ← to_unsigned port;
          let '(ok, evs) := send_udp_reply ip port msg_str in
          Some (ok, o <| o_events := o_events o ++ evs |>)
      | _, _, Some dmac =>
          vid ← (if get_number address "vlan" is Some d then to_unsigned d else Some 0);
          '(ok, evs) ← send_eth_reply (o_core o) dmac vid msg_str (m_level m);
          Some (ok, o <| o_events := o_events o ++ evs |>)
      | _, _, _ => Some (false, o)
      end
  end.

(** The stream is read without a test when packets are logged. *)
Definition logpacket_reply (js : JsonTable) : option () :=
  if w_log w then _ ← get_string js "stream"; Some () else Some ().

(** The items that the replies have in common. *)
Definition reply_items (js : JsonTable) (code : string) (recv_time : timespec) : JsonTable :=
  let js := json_object_insert js "code" (text code) in
  let js := json_object_insert js "recv_s" (int_number (tv_sec recv_time)) in
  json_object_insert js "recv_ns" (int_number (tv_nsec recv_time)).

Definition is_request (js : JsonTable) : bool :=
  match get_string js "code" with Some c => bool_decide (c = "request") | None => false end.

(** A copy of an object. *)
Definition duplicate (js : JsonTable) : JsonTable := match json_duplicate (JObject js) with JObject h => h | _ => js end.

(** The reply to a ping; [object] tells whether the state of the object is
    asked for. *)
Definition ping_reply (js receiver : JsonTable) (recv_time : timespec) : JsonTable :=
  let js := (json_object_remove js "return").2 in
  let js := (json_object_remove js "object").2 in
  let js := json_object_insert js "receiver" (JObject receiver) in
  reply_items js "reply" recv_time.

Definition process_ping_request (k : nat) (js : JsonTable) (recv_time : timespec) (o : Oam) : option (bool * Oam) :=
  if negb (is_request js) then Some (false, o)
  else
    let js_dup := duplicate js in
    match get_object js_dup "return" with
    | None => Some (false, o)
    | Some ret =>
        m ← mps (o_reg o) !! k;
        let object := if json_object_get_any (json_object_remove js_dup "return").2 "object" is Some _ then true else false in
        receiver ← mp_get_state_json (w_env w) (o_objs o) m object;
        let js_dup := ping_reply js_dup receiver recv_time in
        _ ← logpacket_reply js_dup;
        send_message_outofband m js_dup (duplicate ret) o
    end.

Definition send_rping_error (k : nat) (js : JsonTable) (recv_time : timespec) (error : string) (o : Oam) : option (bool * Oam) :=
  match get_object js "return" with
  | None => Some (false, o)
  | Some ret =>
      m ← mps (o_reg o) !! k;
      let ret := duplicate ret in
      receiver ← mp_get_state_json (w_env w) (o_objs o) m false;
      let js := reply_items (json_object_remove js "return").2 "error" recv_time in
      let js := json_object_insert (json_object_insert js "receiver" (JObject receiver)) "error" (text error) in
      _ ← logpacket_reply js;
      send_message_outofband m js ret o
  end.

(** A ping that is started for somebody else reports to its return address. *)
Definition process_rping_request (streams : list Names) (k : nat) (js : JsonTable) (recv_time : timespec) (o : Oam) : option (bool * Oam) :=
  match is_request js, get_object js "return", get_string js "stream", get_number js "session", get_string js "command" with
  | true, Some ret, Some stream, Some session, Some command =>
      m ← mps (o_reg o) !! k;
      '(r, g) ← parse_ping_command (o_core o) command false true (o_reg o);
      let '(q, o) := hold_request r (o <| o_reg := g |>) in
      match r_error r with
      | Some e =>
          o ← delete_oam_request q o;
          send_rping_error k js recv_time ("could not create ping request: " +:+ e) o
      | None =>
          mk ← mp_start r;
          m' ← mps (o_reg o) !! mk;
          if negb (same_compound_stream streams (m_stream m') (m_stream m)) then
            o ← delete_oam_request q o;
            send_rping_error k js recv_time
              ("could not create ping request: streams '" +:+ m_stream m' +:+ "' and '" +:+ m_stream m +:+ "' are not related") o
          else if r_count r =? 0 then
            o ← delete_oam_request q o;
            send_rping_error k js recv_time "infinite ping count is not allowed" o
          else
            session ← to_unsigned session;
            let r := r <| return_addr := duplicate ret |> <| originator_stream := Some stream |> <| originator_session_id := u8 session |> in
            '(ok, o) ← initiate_request (w_env w) q None (set_request q r o);
            if (ok : bool) then Some (false, o)
            else
              r ← o_reqs o !! q;
              let error := "could not send ping request: " +:+ default "" (r_error r) in
              o ← delete_oam_request q o;
              send_rping_error k js recv_time error o
      end
  | _, _, _, _, _ => Some (false, o)
  end.

(** The points of the compound stream that can send, by name. *)
Definition sending_points (streams : list Names) (m : OAM_MaintenancePoint) (o : Oam) : option (list JsonValue) :=
  h ← mp_hash (o_reg o);
  hashmap_foreach_sorted h
    (λ key k acc, m' ← mps (o_reg o) !! k;
       Some (if same_compound_stream streams (m_stream m') (m_stream m) && mp_can_send m' then json_array_push acc (text key) else acc)) [].

Definition process_rlist_request (streams : list Names) (k : nat) (js : JsonTable) (recv_time : timespec) (o : Oam) : option (bool * Oam) :=
  if negb (is_request js) then Some (false, o)
  else
    match get_object js "return" with
    | None => Some (false, o)
    | Some ret =>
        m ← mps (o_reg o) !! k;
        let ret := duplicate ret in
        receiver ← mp_get_state_json (w_env w) (o_objs o) m false;
        let js := json_object_insert (reply_items (json_object_remove js "return").2 "reply" recv_time) "receiver" (JObject receiver) in
        jlist ← sending_points streams m o;
        let js := json_object_insert js "list" (JArray jlist) in
        _ ← logpacket_reply js;
        send_message_outofband m js ret o
    end.

(** A notification with the states of the points that share the object; the
    result is always false. *)
Definition process_trigger_request (k : nat) (js : JsonTable) (recv_time : timespec) (o : Oam) : option (bool * Oam) :=
  if negb (is_request js) then Some (false, o)
  else
    match get_number js "seq", get_number js "level", get_number js "nodeid", get_number js "session",
          get_object js "source", get_string js "stream", get_string js "target" with
    | Some seq, Some level, Some nodeid, Some session, Some source, Some stream, Some target =>
        jlist ← mp_get_state_json_by_object (w_env w) o k;
        Some (false, emit (EvNotify "triggered_receiver"
          (object_of [("seq", json_number seq); ("level", json_number level); ("node_id", json_number nodeid); ("session", json_number session);
                      ("recv_s", int_number (tv_sec recv_time)); ("recv_ns", int_number (tv_nsec recv_time)); ("source", json_duplicate (JObject source));
                      ("stream", text stream); ("target", text target); ("mp", JArray jlist)])) o)
    | _, _, _, _, _, _, _ => Some (false, o)
    end.

(** ** In-band messages *)

(** The answers of the requests that name a target.  [any]: what is done for
    the target "any"; the result tells whether the message is forwarded. *)
Definition route (m : OAM_MaintenancePoint) (target : string) (any own : Oam → option (bool * Oam)) (o : Oam) : option (bool * Oam) :=
  if bool_decide (target = "any") then
    '(ok, o) ← any o; Some ((ok : bool) && negb (bool_decide (m_type m = OAM_Stop)), o)
  else if bool_decide (target = m_name m) then '(_, o) ← own o; Some (false, o)
  else Some (negb (bool_decide (m_type m = OAM_Stop)), o).

(** Whether the message is forwarded, the message when it was changed, and the
    module. *)
Definition process_inband_message (streams : list Names) (k : nat) (js : JsonTable) (ttl : Z) (recv_time : timespec) (o : Oam)
    : option (bool * option JsonTable * Oam) :=
  m ← mps (o_reg o) !! k;
  match get_string js "type", get_string js "code", get_string js "target", get_number js "level" with
  | Some type, Some _, Some target, Some _ =>
      if bool_decide (type = "ping") then
        let js' := if get_array js "rr" is Some l then Some (json_object_insert js "rr" (JArray (json_array_push l (text (m_name m))))) else None in
        let ping := process_ping_request k (default js js') recv_time in
        '(fwd, o) ← (if ttl =? 0 then '(_, o) ← ping o; Some (false, o) else route m target ping ping o);
        Some (fwd, js', o)
      else if bool_decide (type = "rping") then
        '(fwd, o) ← (if ttl =? 0 then Some (false, o)
                     else route m target (λ o, Some (false, o)) (process_rping_request streams k js recv_time) o);
        Some (fwd, None, o)
      else if bool_decide (type = "rlist") then
        let rlist := process_rlist_request streams k js recv_time in
        '(fwd, o) ← (if ttl =? 0 then Some (false, o) else route m target rlist rlist o);
        Some (fwd, None, o)
      else if bool_decide (type = "trigger") then
        let trigger := process_trigger_request k js recv_time in
        '(fwd, o) ← (if ttl =? 0 then Some (false, o) else route m target trigger trigger o);
        Some (fwd, None, o)
      else if bool_decide (type = "mask") then o ← mp_receive_mask_signal (w_env w) k o; Some (false, None, o)
      else if bool_decide (type = "unmask") then o ← mp_receive_unmask_signal (w_env w) k o; Some (false, None, o)
      else Some (false, None, o)
  | _, _, _, _ => Some (false, None, o)
  end.

(** What becomes of the iterator that holds the packet. *)
Inductive Verdict := Resume (p : Packet) | Cancel.

(** One message of [inband_receiver_th]. *)
Definition inband_receive (streams : list Names) (k : nat) (p : Packet) (o : Oam) : option (Verdict * Oam) :=
  g ← mp_count_received_message k (o_reg o);
  let o := o <| o_reg := g |> in
  m ← mps g !! k;
  levelcmp ← mp_compare_level m p;
  if levelcmp <? 0 then Some (Cancel, o)
  else if levelcmp >? 0 then Some (Resume p, o)
  else
    js ← mp_unpack_message m p;
    match js with
    | None => Some (Cancel, o)
    | Some js =>
        ttl ← mp_get_ttl m p;
        '(fwd, js', o) ← process_inband_message streams k js ttl (recv_time p) o;
        if negb fwd then Some (Cancel, o)
        else
          match js' with
          | None => Some (Resume p, o)
          | Some js =>
              m ← mps (o_reg o) !! k;
              '(ok, p) ← mp_pack_message_payload (e_sender (w_env w)) m p js;
              Some (if (ok : bool) then Resume p else Cancel, o)
          end
    end.

(** ** Replies *)

(** A datagram on a return interface: at most 1999 octets, as a C string. *)
Definition recv_datagram (datagram : string) : string := c_string (String.substring 0 1999 datagram).

(** The destination of an interface has a new address. *)
Definition process_newaddress (js : JsonTable) (n : Node) : option (Z * Node) :=
  match get_string js "code", get_string js "sendiface" with
  | Some code, Some name =>
      if negb (bool_decide (code = "notify")) then Some (-1, n)
      else
        match n_ifs n !! name with
        | None => Some (-1, n)
        | Some i =>
            match a ← get_object js "address"; ip ← get_string a "ip"; port ← get_number a "port"; Some (ip, port) with
            | None => Some (-1, n)
            | Some (ip, port) =>
                port ← to_unsigned port;
                match i with
                | None => Some (-1, n)
                | Some u =>
                    let '(ok, u) := UdpOut.udp_out_set_dst (w_kernel w) u ip port in
                    Some (if (ok : bool) then 0 else -1, n <| n_ifs := <[name := Some u]> (n_ifs n) |>)
                end
            end
        end
  | _, _ => Some (-1, n)
  end.

(** The items that the printing of a ping reply asks for. *)
Definition ping_report_ok (js receiver : JsonTable) : bool :=
  (if json_object_get_bool js "delay" is Some JTrue then
     forallb (λ k, bool_decide (is_Some (get_number js k))) ["send_s"; "send_ns"; "recv_s"; "recv_ns"] else true) &&
  (if get_object receiver "object" is Some _ then
     forallb (λ k, bool_decide (is_Some (get_number receiver k))) ["data_packets"; "data_octets"; "oam_recv"; "oam_send"] else true).

(** What the type of the reply asks for: whether the reply is accepted. *)
Definition reply_accepted (js receiver : JsonTable) (type : string) (shown : option TerminalFormat) : bool :=
  let code c := match get_string js "code" with Some x => bool_decide (x = c) | None => false end in
  if bool_decide (type = "rlist") then
    code "reply" && (if shown is Some _ then bool_decide (is_Some (get_array js "list")) else true)
  else if bool_decide (type = "rping") then code "error" && bool_decide (is_Some (get_string js "error"))
  else if bool_decide (type = "ping") then
    code "reply" && (if shown is Some TF_NORMAL then ping_report_ok js receiver else true)
  else false.

Definition process_reply (msg : string) (n : Node) : option (Z * Node) :=
  match json_parse msg with
  | PStuck => None
  | POk (JObject js) =>
      match get_string js "type" with
      | None => Some (-1, n)
      | Some type =>
          if bool_decide (type = "newaddress") then process_newaddress js n
          else
            match get_string js "stream", get_number js "session" with
            | Some stream, Some session =>
                if session_invalid session then Some (-1, n)
                else
                  id ← to_unsigned session;
                  let '(conn, ids) := command_connection_for_session (o_ids (n_oam n)) stream id in
                  let n := n <| n_oam := (n_oam n) <| o_ids := ids |> |> in
                  let shown := conn ≫= λ c, n_conns n !! c in
                  match get_number js "nodeid", get_string js "target", get_number js "seq", get_number js "level", get_object js "receiver" with
                  | Some _, Some _, Some _, Some _, Some receiver =>
                      match get_string receiver "name" with
                      | None => Some (-1, n)
                      | Some _ =>
                          let n := n <| n_oam := (n_oam n) <| o_ids := session_recv (o_ids (n_oam n)) stream id (e_time (w_env w)) |> |> in
                          if reply_accepted js receiver type shown
                          then Some (0, report (if shown is Some _ then conn else None) js n) else Some (-1, n)
                      end
                  | _, _, _, _, _ => Some (-1, n)
                  end
            | _, _ => Some (-1, n)
            end
      end
  | POk _ | PErr => Some (-1, n)
  end.

End node.

End Msg.
