(* ===== verification/OamPing.v ===== *)
(** * A ping is answered

    The composition of the OAM components: a request that one node sends in
    band is answered by the maintenance point it is for, and the answer is
    counted in the session of the request. *)

From S2P Require Import Prelude TimeUtils Protocol Packet CString HashMap Double Json JsonText JsonRound JsonObject ConfActions Assemble.
From S2P Require Import OamSession OamMp OamCodec OamWire ObjState UdpOut OamRequest StreamNames OamMessage.
From Stdlib Require Import Ascii QArith Qround.

Module Ping.
Import Time Proto Pkt CStr HMap Dbl Json JText JRound JObj ConfA Asm Session Mp Codec Wire OState Req SNames Msg.

#[local] Open Scope string_scope.
#[local] Open Scope list_scope.
#[local] Open Scope Z_scope.

(** ** Objects that are built by insertions *)

Definition inserts (l : list (string * JsonValue)) (js : JsonTable) : JsonTable := foldl (λ js x, json_object_insert js x.1 x.2) js l.

Lemma inserts_spec l js n :
  json_ok (JObject js) → has_room js (n + Z.of_nat (length l)) → 0 <= n → Forall (λ x, item_ok x.1 x.2) l → NoDup l.*1 →
  json_ok (JObject (inserts l js)) ∧ has_room (inserts l js) n ∧
  ∀ k, hashmap_find (inserts l js) k = match chain_find k l with Some v => Some v | None => hashmap_find js k end.
Proof.
  revert js. induction l as [|[k v] l IH]; intros js Hok Hr Hn Hl Hnd; cbn [inserts foldl]; [rewrite Z.add_0_r in Hr; done|].
  apply Forall_cons in Hl as [Hi Hl]. apply NoDup_cons in Hnd as [Hni Hnd]. cbn [length] in Hr. cbn [fst snd] in *.
  destruct (insert_ok js k v (n + Z.of_nat (length l)) Hok) as [Hok' Hr']; [unfold has_room in *; lia | lia | done|].
  destruct (IH _ Hok' Hr' Hn Hl Hnd) as (H1 & H2 & H3). split_and!; [done | done|]. intros k'. change (foldl _ _ l) with (inserts l (json_object_insert js k v)).
  rewrite H3, (find_insert js k v k' Hok). cbn [chain_find fst]. destruct (bool_decide_reflect (k = k')) as [->|Hne].
  - rewrite (proj2 (chain_find_None k' l) Hni). by rewrite bool_decide_eq_true_2.
  - by rewrite (bool_decide_eq_false_2 (k' = k)) by done.
Qed.

Lemma height_find js n : json_ok (JObject js) → (∀ k v, hashmap_find js k = Some v → height v <= n)%nat → (height (JObject js) <= S n)%nat.
Proof. intros (m & Hh)%json_ok_object H. apply (height_map js m n (ho_repr _ _ Hh)). intros k v Hv. rewrite <- (rp_find _ _ (ho_repr _ _ Hh)) in Hv. by eapply H. Qed.

Lemma text_ok s : json_ok (text s).
Proof. apply c_string_no_nul. Qed.

Lemma find_ok js k v : json_ok (JObject js) → hashmap_find js k = Some v → json_ok v.
Proof. intros (m & Hh)%json_ok_object. rewrite (rp_find _ _ (ho_repr _ _ Hh)). apply (ho_items _ _ Hh). Qed.

Lemma find_parsed js k v : parsed (JObject js) → hashmap_find js k = Some v → parsed v.
Proof. intros Hp. inversion Hp as [| | | | |h m Hr Hm|]; subst. rewrite (rp_find _ _ Hr). apply Hm. Qed.

Lemma find_height js k v : json_ok (JObject js) → hashmap_find js k = Some v → (S (height v) <= height (JObject js))%nat.
Proof.
  intros (m & Hh)%json_ok_object Hv. pose proof (ho_repr _ _ Hh) as Hr. destruct (height (JObject js)) as [|n] eqn:E; [by rewrite height_object in E|].
  apply le_n_S. rewrite (rp_find _ _ Hr) in Hv. assert (height (JObject js) <= S n)%nat as Hle by lia. by apply (height_map js m n Hr) in Hle; eapply Hle.
Qed.

(** *** Reading *)

Lemma equiv_string v s : parsed v → v ≡ text s → v = JString (Some (c_string s)).
Proof. intros Hp He. destruct Hp; try discriminate He. unfold equiv, json_equiv in He. cbn in He. by injection He as ->. Qed.

Lemma equiv_number v d : v ≡ JNumber d → v = JNumber d.
Proof. intros He. destruct v; try discriminate He. unfold equiv, json_equiv in He. cbn in He. by injection He as ->. Qed.

Lemma find_equiv (js : JsonTable) k v : hashmap_find js k ≡ Some v → ∃ v', hashmap_find js k = Some v' ∧ v' ≡ v.
Proof. intros H. destruct (hashmap_find js k) as [v'|]; inversion H; subst. by exists v'. Qed.

Lemma read_string js k s : parsed (JObject js) → hashmap_find js k ≡ Some (text s) → get_string js k = Some (c_string s).
Proof.
  intros Hp (v & Hv & He)%find_equiv. apply equiv_string in He; [|by eapply find_parsed]. unfold get_string, json_object_get_string, get_typed. by rewrite Hv, He.
Qed.

Lemma read_number js k d : hashmap_find js k ≡ Some (JNumber d) → get_number js k = Some d.
Proof. intros (v & Hv & ->%equiv_number)%find_equiv. unfold get_number, json_object_get_number, get_typed. by rewrite Hv. Qed.

Lemma read_object js k h : hashmap_find js k ≡ Some (JObject h) → ∃ h', get_object js k = Some h' ∧ hashmap_find js k = Some (JObject h') ∧ JObject h' ≡ JObject h.
Proof.
  intros (v & Hv & He)%find_equiv. unfold get_object, json_object_get_object, get_typed. rewrite Hv. destruct v; try discriminate He. cbn. eauto.
Qed.

(** *** Copies *)

Lemma duplicate_parsed v : json_ok v → parsed v → parsed (json_duplicate v).
Proof.
  intros Hok Hp. revert Hok. induction Hp as [| | |d|s|h m Hr Hm IH|l Hl IH]; intros Hok; try constructor.
  - apply json_ok_object in Hok as (m' & [Hr' Hs' Hi']). rewrite (represents_unique h m' m Hr' Hr) in *. destruct (duplicate_represents h m Hr Hs') as (h' & -> & Hrd).
    econstructor; [exact Hrd|]. intros k v. rewrite lookup_fmap. intros (x & Hx & ->)%fmap_Some. eapply IH; [exact Hx | apply (Hi' k x Hx)].
  - intros v (x & -> & Hx)%list_elem_of_fmap. apply IH; [done|]. cbn in Hok. rewrite all_Forall, Forall_forall in Hok. by apply Hok.
Qed.

Lemma duplicate_spec js n :
  json_ok (JObject js) → parsed (JObject js) → has_room js n →
  json_ok (JObject (duplicate js)) ∧ parsed (JObject (duplicate js)) ∧ has_room (duplicate js) n ∧ (∀ k, hashmap_find (duplicate js) k ≡ hashmap_find js k) ∧
  JObject (duplicate js) ≡ JObject js.
Proof.
  intros Hok Hp Hr. pose proof (json_duplicate_ok _ Hok) as Hok'. pose proof (duplicate_parsed _ Hok Hp) as Hp'. pose proof (json_duplicate_equiv _ Hok) as He.
  pose proof Hok as (m & [Hm Hs _])%json_ok_object. destruct (duplicate_represents js m Hm Hs) as (h' & E & Hrd). unfold duplicate. rewrite E in *.
  split_and!; [done | done | | | done].
  - unfold has_room, hashmap_count in *. by rewrite (rp_count _ _ Hrd), map_size_fmap, <- (rp_count _ _ Hm).
  - intros k. apply equiv_find; [apply Hrd | apply Hm | done].
Qed.

(** *** Small integers *)

Lemma int_number_exact z : 0 <= z < 2 ^ 32 → ∃ d, int_number z = JNumber d ∧ to_unsigned d = Some z ∧ session_invalid d = (15 <? z).
Proof.
  intros Hz. destruct (round_double_int false z) as (m & e & E & Hc & Hd); [lia|]. exists (Dnum false m e). unfold int_number, json_number.
  destruct (Z.ltb_spec z 0); [lia|]. rewrite Z.abs_eq by lia. rewrite E. split; [done|]. unfold to_unsigned, session_invalid. cbv zeta.
  assert (Qfloor (dval m e) = z) as -> by (rewrite Hd; apply Qfloor_Z). split; [destruct (Z.ltb_spec z (2 ^ 32)); [done | lia]|].
  destruct (Z.ltb_spec 15 z).
  - apply negb_true_iff, not_true_iff_false. rewrite Qle_bool_iff, Hd, <- Zle_Qle. lia.
  - apply negb_false_iff. rewrite Qle_bool_iff, Hd, <- Zle_Qle. done.
Qed.

Lemma int_height z : height (int_number z) = 1%nat.
Proof. unfold int_number, json_number. generalize (round_double (z <? 0) (inject_Z (Z.abs z))). done. Qed.

Lemma int_number_form z : ∃ d, int_number z = JNumber d.
Proof. unfold int_number, json_number. by eexists. Qed.

#[local] Opaque int_number.

Lemma item_text k s : no_nul k = true → item_ok k (text s).
Proof. intros H. split; [done | apply text_ok]. Qed.
Lemma item_number k z : no_nul k = true → moderate z → item_ok k (int_number z).
Proof. intros H Hz. split; [done | by apply int_number_ok]. Qed.
#[local] Hint Resolve item_text item_number : core.

(** ** The request *)

Definition stream_of (m : OAM_MaintenancePoint) (r : OamRequest) : string := default (m_stream m) (originator_stream r).

Definition ping_items (m : OAM_MaintenancePoint) (r : OamRequest) : list (string * JsonValue) :=
  [("stream", text (stream_of m r)); ("target", text (mep_stop r)); ("return", json_duplicate (JObject (return_addr r)))]
  ++ (if record_route r then [("rr", JArray [text (m_name m)])] else [])
  ++ (if object_state r then [("object", JTrue)] else [])
  ++ (if measure_delay r then [("delay", JTrue)] else []).

Definition ping_message (now : timespec) (m : OAM_MaintenancePoint) (r : OamRequest) : JsonTable :=
  inserts (ping_items m r) (request_object r now).

Definition start_items (r : OamRequest) (now : timespec) : list (string * JsonValue) :=
  [("type", text (rq_kind r)); ("code", text "request"); ("send_s", int_number (tv_sec now)); ("send_ns", int_number (tv_nsec now))].

Lemma request_message_ping e objs m r now :
  rq_kind r = "ping" → request_message e objs m r (request_object r now) = Some (ping_message now m r).
Proof. intros Hk. unfold request_message, ping_message, ping_items, stream_of. rewrite Hk. cbn [bool_decide]. by destruct (record_route r), (object_state r), (measure_delay r). Qed.

Lemma pair_first {A B} (a a' : A) (b b' : B) : Some (a, b) = Some (a', b') → a' = a.
Proof. by intros [= -> ->]. Qed.

Lemma header_object e m p r js p1 : mp_pack_message_header e m p r = Some (js, p1) → js = request_object r (s_now e).
Proof.
  unfold mp_pack_message_header. destruct (encap m).
  - unfold pack_pw_message_header. intros H. repeat (apply bind_Some in H as (? & _ & H)). exact (pair_first _ _ _ _ H).
  - unfold pack_tsn_message_header. intros H. repeat (apply bind_Some in H as (? & _ & H)). exact (pair_first _ _ _ _ H).
  - unfold pack_srv6_message_header. intros H. apply bind_Some in H as ([a0 a6] & _ & H). repeat (apply bind_Some in H as (? & _ & H)). exact (pair_first _ _ _ _ H).
Qed.

(** A return address over IP. *)
Record returns_to (r : OamRequest) (ip : string) (port : Z) : Prop := {
  rt_ok : json_ok (JObject (return_addr r));
  rt_height : (height (JObject (return_addr r)) <= 2)%nat;
  rt_ip : hashmap_find (return_addr r) "ip" = Some (text ip);
  rt_text : no_nul ip = true;
  rt_addr : is_Some (UdpOut.parse_address ip);
  rt_port : hashmap_find (return_addr r) "port" = Some (int_number port);
  rt_range : 0 <= port < 65536
}.

Section request.
Context (now : timespec) (m : OAM_MaintenancePoint) (r : OamRequest) (ip : string) (port : Z).
Context (Hret : returns_to r ip port) (Hs : moderate (tv_sec now)) (Hns : moderate (tv_nsec now)).

Lemma start_ok : json_ok (JObject (request_object r now)) ∧ has_room (request_object r now) 100 ∧
  ∀ k, hashmap_find (request_object r now) k = chain_find k (start_items r now).
Proof.
  change (request_object r now) with (inserts (start_items r now) empty_object). destruct (empty_ok 104 ltac:(lia)) as [E1 E2].
  destruct (inserts_spec (start_items r now) empty_object 100 E1 E2) as (H1 & H2 & H3); [lia | | by apply (bool_decide_unpack _); vm_compute|].
  - unfold start_items. repeat (apply Forall_cons; split); cbn [fst snd]; auto.
  - split_and!; [done | done|]. intros k. rewrite H3, (rp_find _ _ (ho_repr _ _ empty_holds)), lookup_empty. by case_match.
Qed.

Lemma ping_items_ok : Forall (λ x, item_ok x.1 x.2) (ping_items m r) ∧ NoDup (ping_items m r).*1 ∧ (length (ping_items m r) <= 6)%nat ∧
  Forall (λ x, height x.2 <= 2)%nat (ping_items m r).
Proof.
  pose proof (json_duplicate_ok _ (rt_ok _ _ _ Hret)) as Hd. pose proof (height_equiv _ _ (json_duplicate_equiv _ (rt_ok _ _ _ Hret))) as Hh.
  pose proof (rt_height _ _ _ Hret) as Hh2. unfold ping_items. split_and!.
  - repeat (apply Forall_app; split); [|destruct (record_route r) | destruct (object_state r) | destruct (measure_delay r)]; repeat (apply Forall_cons; split); cbn [fst snd]; auto; try (by split); split; [done|]. split; [apply text_ok | done].
  - destruct (record_route r), (object_state r), (measure_delay r); by apply (bool_decide_unpack _); vm_compute.
  - destruct (record_route r), (object_state r), (measure_delay r); cbn; lia.
  - repeat (apply Forall_app; split); [|destruct (record_route r) | destruct (object_state r) | destruct (measure_delay r)]; repeat (apply Forall_cons; split); cbn [snd]; try (rewrite Hh; done); try done; cbn; lia.
Qed.

Lemma ping_message_ok :
  json_ok (JObject (ping_message now m r)) ∧
  (∀ k, hashmap_find (ping_message now m r) k = match chain_find k (ping_items m r) with Some v => Some v | None => chain_find k (start_items r now) end) ∧
  (∀ k v, hashmap_find (ping_message now m r) k = Some v → height v <= 2)%nat.
Proof.
  destruct start_ok as (S1 & S2 & S3). destruct ping_items_ok as (P1 & P2 & P3 & P4).
  destruct (inserts_spec (ping_items m r) (request_object r now) 90 S1) as (H1 & H2 & H3); [unfold has_room in *; lia | lia | done | done|].
  assert (∀ k, hashmap_find (ping_message now m r) k = match chain_find k (ping_items m r) with Some v => Some v | None => chain_find k (start_items r now) end) as Hf.
  { intros k. unfold ping_message. rewrite H3. destruct (chain_find k (ping_items m r)); [done | apply S3]. }
  split_and!; [done | done|]. intros k v. rewrite Hf. destruct (chain_find k (ping_items m r)) as [x|] eqn:E.
  - intros [= <-]. apply chain_find_elem in E; [|done]. rewrite Forall_forall in P4. by apply (P4 _ E).
  - intros Hv. apply chain_find_elem in Hv; [|by apply (bool_decide_unpack _); vm_compute].
    assert (Forall (λ x, height x.2 <= 2)%nat (start_items r now)) as HS by (unfold start_items; repeat (apply Forall_cons; split); cbn [snd]; rewrite ?int_height; cbn; lia || done).
    rewrite Forall_forall in HS. by apply (HS _ Hv).
Qed.
End request.

(** Over TSN the session is in the R-TAG. *)
Definition with_session (m : OAM_MaintenancePoint) : Prop := encap m = OAM_TSN → m_protostack m !! 2%nat = Some PROTO_ID_RTAG.

Lemma fresh_packet : packet_wf (new_packet None (mk_pool 0 0)).1 ∧ len (new_packet None (mk_pool 0 0)).1 = 0.
Proof. split; [apply alloc_wf; unfold zero_buf; by rewrite length_replicate | done]. Qed.

(** *** What the receiver finds *)

Section delivered.
Context (e : Sender) (m : OAM_MaintenancePoint) (i : Identification) (msg : JsonTable).

Lemma delivered_body k : k ∉ ach_keys → delivered e m i msg k = hashmap_find msg k.
Proof.
  intros Hk. unfold delivered. rewrite (proj2 (chain_find_None k (header_items e m i))).
  - by rewrite bool_decide_eq_false_2 by (by intros []).
  - intros Hin. apply Hk. assert ((header_items e m i).*1 ⊆ ach_keys) as Hsub; [|by apply Hsub]. unfold header_items.
    destruct (encap m); [|case_bool_decide|]; by apply (bool_decide_unpack _); vm_compute.
Qed.

Definition header_number (k : string) : Z :=
  if bool_decide (k = "session") then i_session i
  else if bool_decide (k = "seq") then i_seq i
  else if bool_decide (k = "level") then i_level i
  else default 0 (chain_find "nodeid" (header_items e m i)).

Lemma delivered_head k :
  with_session m → k ∈ ["session"; "seq"; "level"; "nodeid"] → delivered e m i msg k = Some (int_number (header_number k)).
Proof.
  intros Hs Hk. unfold delivered, header_number, header_items. unfold with_session in Hs.
  rewrite !elem_of_cons in Hk. destruct (encap m); [| rewrite (bool_decide_eq_true_2 _ (Hs eq_refl)) |];
    destruct Hk as [-> |[-> |[-> |[-> |?%elem_of_nil]]]]; done.
Qed.
End delivered.

(** *** The state of a maintenance point *)

Lemma inserts_find l js :
  hash_wf js → NoDup l.*1 →
  hash_wf (inserts l js) ∧ ∀ k, hashmap_find (inserts l js) k = match chain_find k l with Some v => Some v | None => hashmap_find js k end.
Proof.
  revert js. induction l as [|[k v] l IH]; intros js Hw Hnd; cbn [inserts foldl]; [done|]. apply NoDup_cons in Hnd as [Hni Hnd]. cbn [fst snd] in *.
  destruct (insert_find js k v Hw) as [Hw' Hf']. destruct (IH (json_object_insert js k v) Hw' Hnd) as [H1 H2]. split; [exact H1|]. intros k'.
  change (foldl _ _ l) with (inserts l (json_object_insert js k v)). rewrite H2. unfold json_object_insert. rewrite Hf'. cbn [chain_find fst].
  destruct (bool_decide_reflect (k = k')) as [->|Hne].
  - rewrite (proj2 (chain_find_None k' l) Hni). by rewrite bool_decide_eq_true_2.
  - by rewrite (bool_decide_eq_false_2 (k' = k)) by done.
Qed.

Definition counter_keys : list string := ["data_packets"; "data_octets"; "oam_recv"; "oam_send"].

Lemma mp_items_nodup m : NoDup (mp_items m).*1.
Proof. change ((mp_items m).*1) with ["name"; "stream_name"; "type"; "level"; "oam_send"; "oam_recv"; "data_packets"; "data_octets"]. by apply (bool_decide_unpack _); vm_compute. Qed.

Lemma insert_other (h : JsonTable) k v k' : hash_wf h → k' ≠ k → hash_wf (json_object_insert h k v) ∧ hashmap_find (json_object_insert h k v) k' = hashmap_find h k'.
Proof. intros Hw Hk. destruct (insert_find h k v Hw) as [Hw' Hf']. split; [exact Hw'|]. unfold json_object_insert. rewrite Hf'. by rewrite bool_decide_eq_false_2. Qed.

Lemma state_items e objs m b st k :
  mp_get_state_json e objs m b = Some st → k ≠ "object" → k ≠ "mask_signal_state" → hashmap_find st k = chain_find k (mp_items m).
Proof.
  unfold mp_get_state_json. intros H Ho Hm. destruct (inserts_find (mp_items m) empty_object empty_object_wf (mp_items_nodup m)) as [W F].
  change (object_of (mp_items m)) with (inserts (mp_items m) empty_object) in H. generalize dependent (inserts (mp_items m) empty_object). intros st0 H W F.
  apply bind_Some in H as (st1 & H1 & H).
  assert (hash_wf st1 ∧ hashmap_find st1 k = hashmap_find st0 k) as [W1 F1].
  { destruct (m_object m) as [x|]; [|by injection H1 as <-]. apply bind_Some in H1 as (v & _ & H1). injection H1 as <-. by apply insert_other. }
  assert (hashmap_find st0 k = chain_find k (mp_items m)) as F0.
  { rewrite F, (rp_find _ _ (ho_repr _ _ empty_holds)), lookup_empty. by destruct (chain_find k (mp_items m)). }
  rewrite <- F0, <- F1. destruct (mask_recv m); [|destruct (mask_send m)]; injection H as <-; try done; by apply insert_other.
Qed.

Lemma state_find e objs m b st :
  mp_get_state_json e objs m b = Some st →
  hashmap_find st "name" = Some (text (m_name m)) ∧ ∀ k, k ∈ counter_keys → ∃ z, hashmap_find st k = Some (int_number z).
Proof.
  intros H. split; [rewrite (state_items _ _ _ _ _ "name" H) by done; reflexivity|]. intros k Hk. unfold counter_keys in Hk. rewrite !elem_of_cons in Hk.
  destruct Hk as [-> |[-> |[-> |[-> |?%elem_of_nil]]]]; try done; rewrite (state_items _ _ _ _ _ _ H) by done; eexists; reflexivity.
Qed.

Lemma substring_all n s : (String.length s <= n)%nat → String.substring 0 n s = s.
Proof. revert n. induction s as [|c s IH]; intros [|n] H; cbn in *; try done; try lia. by rewrite IH by lia. Qed.

(** ** The reply *)

Section reply.
Context (js st : JsonTable) (recv : timespec).
Context (Hok : json_ok (JObject js)) (Hpd : parsed (JObject js)) (Hrm : has_room js 8).
Context (Hh : ∀ k v, hashmap_find js k = Some v → (height v <= 49)%nat).
Context (Hst : json_ok (JObject st)) (Hsth : (height (JObject st) <= 50)%nat) (Hs : moderate (tv_sec recv)) (Hns : moderate (tv_nsec recv)).

Definition reply_keys : list string := ["recv_ns"; "recv_s"; "code"; "receiver"; "object"; "return"].

Lemma ping_reply_spec :
  let R := ping_reply (duplicate js) st recv in
  json_ok (JObject R) ∧ (height (JObject R) <= 51)%nat ∧
  hashmap_find R "code" = Some (text "reply") ∧ hashmap_find R "receiver" = Some (JObject st) ∧
  hashmap_find R "recv_s" = Some (int_number (tv_sec recv)) ∧ hashmap_find R "recv_ns" = Some (int_number (tv_nsec recv)) ∧
  ∀ k, k ∉ reply_keys → hashmap_find R k = hashmap_find (duplicate js) k.
Proof.
  destruct (duplicate_spec js 8 Hok Hpd Hrm) as (D1 & D2 & D3 & D4 & _). unfold ping_reply, reply_items.
  destruct (remove_ok (duplicate js) "return" 8 D1 D3) as [A1 A2]. set (j1 := (json_object_remove (duplicate js) "return").2) in *.
  destruct (remove_ok j1 "object" 8 A1 A2) as [B1 B2]. set (j2 := (json_object_remove j1 "object").2) in *.
  destruct (insert_ok j2 "receiver" (JObject st) 7 B1 B2) as [C1 C2]; [lia | by split|]. set (j3 := json_object_insert j2 "receiver" (JObject st)) in *.
  destruct (insert_ok j3 "code" (text "reply") 6 C1 C2) as [E1 E2]; [lia | by apply item_text|]. set (j4 := json_object_insert j3 "code" (text "reply")) in *.
  destruct (insert_ok j4 "recv_s" (int_number (tv_sec recv)) 5 E1 E2) as [F1 F2]; [lia | by apply item_number|]. set (j5 := json_object_insert j4 "recv_s" _) in *.
  destruct (insert_ok j5 "recv_ns" (int_number (tv_nsec recv)) 4 F1 F2) as [G1 _]; [lia | by apply item_number|].
  assert (Hfind : ∀ k, hashmap_find (json_object_insert j5 "recv_ns" (int_number (tv_nsec recv))) k =
    if bool_decide (k = "recv_ns") then Some (int_number (tv_nsec recv)) else if bool_decide (k = "recv_s") then Some (int_number (tv_sec recv))
    else if bool_decide (k = "code") then Some (text "reply") else if bool_decide (k = "receiver") then Some (JObject st)
    else if bool_decide (k = "object") then None else if bool_decide (k = "return") then None else hashmap_find (duplicate js) k).
  { intros k. rewrite (find_insert j5 _ _ k F1). unfold j5. rewrite (find_insert j4 _ _ k E1). unfold j4. rewrite (find_insert j3 _ _ k C1).
    unfold j3. rewrite (find_insert j2 _ _ k B1). unfold j2. rewrite (find_remove j1 _ k A1). unfold j1. by rewrite (find_remove _ _ k D1). }
  split; [exact G1|]. split.
  { apply height_find; [exact G1|]. intros k v. rewrite Hfind. repeat case_bool_decide; intros Hv; try (injection Hv as <-); rewrite ?int_height; try lia; try done.
    - cbn. lia.
    - destruct (find_equiv js k v) as (v' & Hv' & He'); [rewrite <- D4, Hv; done|]. rewrite <- (height_equiv _ _ He'). pose proof (Hh k v' Hv'). lia. }
  rewrite !Hfind. split; [done|]. split; [done|]. split; [done|]. split; [done|]. intros k Hk. rewrite Hfind. unfold reply_keys in Hk. rewrite !not_elem_of_cons in Hk.
  destruct Hk as (? & ? & ? & ? & ? & ? & _). by rewrite !bool_decide_eq_false_2.
Qed.

End reply.

Lemma get_any_removed js : json_ok (JObject js) → json_object_get_any (json_object_remove js "return").2 "object" = hashmap_find js "object".
Proof. intros Hok. unfold json_object_get_any. by rewrite (find_remove js _ _ Hok). Qed.

(** The request is answered at its return address. *)
Lemma ping_answer w k js recv o m st r ip port s :
  json_ok (JObject js) → parsed (JObject js) → has_room js 8 → (∀ k v, hashmap_find js k = Some v → height v <= 49)%nat →
  hashmap_find js "code" ≡ Some (text "request") → hashmap_find js "return" ≡ Some (JObject (return_addr r)) → hashmap_find js "stream" ≡ Some (text s) →
  returns_to r ip port → mps (o_reg o) !! k = Some m → w_udp w = true →
  mp_get_state_json (w_env w) (o_objs o) m (bool_decide (is_Some (hashmap_find js "object"))) = Some st →
  json_ok (JObject st) → (height (JObject st) <= 50)%nat → moderate (tv_sec recv) → moderate (tv_nsec recv) →
  ∃ t, json_serialize (JObject (ping_reply (duplicate js) st recv)) = Some t ∧
    process_ping_request w k js recv o = Some (true, o <| o_events := o_events o ++ [EvUdp ip port t] |>).
Proof.
  intros Hok Hpd Hrm Hh Hcode Hret Hstr Hrt Hm Hudp Hstate Hst Hsth Hs Hns.
  destruct (ping_reply_spec js st recv Hok Hpd Hrm Hh Hst Hsth Hs Hns) as (R1 & R2 & R3 & R4 & R5 & R6 & R7).
  destruct (duplicate_spec js 8 Hok Hpd Hrm) as (D1 & D2 & D3 & D4 & D5).
  unfold process_ping_request, is_request. rewrite (read_string js "code" "request" Hpd Hcode). cbn [c_string].
  rewrite bool_decide_eq_true_2 by done. cbn [negb].
  assert (hashmap_find (duplicate js) "return" ≡ Some (JObject (return_addr r))) as Hret' by (by rewrite D4).
  destruct (read_object _ _ _ Hret') as (ra & -> & Hra & He). rewrite Hm. cbn [mbind option_bind].
  assert ((if json_object_get_any (json_object_remove (duplicate js) "return").2 "object" is Some _ then true else false) = bool_decide (is_Some (hashmap_find js "object"))) as ->.
  { rewrite (get_any_removed _ D1). pose proof (D4 "object") as Ho. destruct (hashmap_find js "object"); inversion Ho; by rewrite ?bool_decide_eq_true_2, ?bool_decide_eq_false_2 by (done || by intros []). }
  rewrite Hstate. cbn [mbind option_bind]. set (R := ping_reply (duplicate js) st recv) in *.
  destruct (serialize_renders _ R1) as (t & Et & _). exists t. split; [exact Et|].
  assert (logpacket_reply w R = Some ()) as ->.
  { unfold logpacket_reply. destruct (w_log w); [|done]. assert (hashmap_find (duplicate js) "stream" ≡ Some (text s)) as Hds by (by rewrite D4).
    apply (read_string _ _ _ D2) in Hds. unfold get_string, json_object_get_string, get_typed in *.
    rewrite R7 by (by apply (bool_decide_unpack _); vm_compute). by rewrite Hds. }
  cbn [mbind option_bind]. unfold send_message_outofband. unfold json_serialize in *. rewrite Et.
  assert (json_ok (JObject ra) ∧ parsed (JObject ra)) as [Ora Pra] by (split; [by eapply find_ok | by eapply find_parsed]).
  assert (has_room ra 0) as Hra0.
  { unfold has_room. apply json_ok_object in Ora as (mm & [Hr0 Hs0 _]). unfold hashmap_count. rewrite (rp_count _ _ Hr0). lia. }
  destruct (duplicate_spec ra 0 Ora Pra Hra0) as (X1 & X2 & _ & X4 & _).
  assert (∀ k, hashmap_find (duplicate ra) k ≡ hashmap_find (return_addr r) k) as Hfa.
  { intros k'. rewrite X4. apply equiv_find; [by apply ok_wf | apply ok_wf, (rt_ok _ _ _ Hrt) | done]. }
  rewrite (read_string (duplicate ra) "ip" ip X2) by (rewrite Hfa, (rt_ip _ _ _ Hrt); done).
  destruct (int_number_exact port) as (d & Hd & Hu & _); [pose proof (rt_range _ _ _ Hrt); lia|].
  rewrite (read_number (duplicate ra) "port" d) by (rewrite Hfa, (rt_port _ _ _ Hrt), Hd; done). cbn [mbind option_bind]. rewrite Hu. cbn [mbind option_bind].
  rewrite (c_string_id ip (rt_text _ _ _ Hrt)). unfold send_udp_reply. destruct (rt_addr _ _ _ Hrt) as [a ->]. rewrite Hudp.
  assert (u16 port = port) as -> by (pose proof (rt_range _ _ _ Hrt); unfold u16; lia). done.
Qed.

(** The message after the receiver has entered itself into the route. *)
Definition routed (js : JsonTable) (name : string) : option JsonTable :=
  if get_array js "rr" is Some l then Some (json_object_insert js "rr" (JArray (json_array_push l (text name)))) else None.

Lemma routed_spec js name :
  json_ok (JObject js) → parsed (JObject js) → has_room js 10 → (∀ k v, hashmap_find js k = Some v → height v <= 49)%nat →
  let js2 := default js (routed js name) in
  json_ok (JObject js2) ∧ parsed (JObject js2) ∧ has_room js2 8 ∧ (∀ k v, hashmap_find js2 k = Some v → height v <= 49)%nat ∧
  ∀ k, k ≠ "rr" → hashmap_find js2 k = hashmap_find js k.
Proof.
  intros Hok Hpd Hrm Hh. unfold routed, get_array, json_object_get_array, get_typed.
  destruct (hashmap_find js "rr") as [v|] eqn:E; [|cbn [default mbind option_bind]; split; [done|]; split; [done|]; split; [unfold has_room in *; lia | done]].
  destruct v as [| | | | | |l]; try (cbn [default mbind option_bind]; split; [done|]; split; [done|]; split; [unfold has_room in *; lia | done]). cbn [mbind option_bind default]. unfold Datatypes.id.
  pose proof (find_ok _ _ _ Hok E) as Hl. pose proof (find_parsed _ _ _ Hpd E) as Hlp. pose proof (Hh _ _ E) as Hlh. cbn in Hl. rewrite all_Forall in Hl.
  unfold json_array_push.
  assert (json_ok (JArray (l ++ [text name]))) as Hok' by (cbn; rewrite all_Forall; apply Forall_app; split; [done | repeat constructor; apply text_ok]).
  destruct (insert_ok js "rr" _ 9 Hok Hrm ltac:(lia) (conj eq_refl Hok')) as [I1 I2]. split; [done|]. split_and!.
  - apply insert_parsed; [done | done|]. constructor. intros v [Hv|Hv%list_elem_of_singleton]%elem_of_app; [|subst; constructor].
    inversion Hlp as [| | | | | |l' Hl']; subst. by apply Hl'.
  - unfold has_room in *. lia.
  - intros k v. rewrite (find_insert js _ _ _ Hok). case_bool_decide; [|apply Hh]. intros [= <-]. cbn [height] in *. rewrite map_app. cbn [map height].
    assert (max_list (map height l) <= 48)%nat as Hle by lia. apply max_list_le in Hle. apply le_n_S, max_list_le, Forall_app. split; [done | repeat constructor; lia].
  - intros k Hk. rewrite (find_insert js _ _ _ Hok). by rewrite bool_decide_eq_false_2.
Qed.

(** What the node that asked finds in the reply. *)
Record is_reply (js : JsonTable) (i : Identification) (s target name : string) : Prop := {
  ir_parsed : parsed (JObject js);
  ir_type : hashmap_find js "type" ≡ Some (text "ping");
  ir_code : hashmap_find js "code" ≡ Some (text "reply");
  ir_stream : hashmap_find js "stream" ≡ Some (text s);
  ir_target : hashmap_find js "target" ≡ Some (text target);
  ir_session : hashmap_find js "session" ≡ Some (int_number (i_session i));
  ir_seq : hashmap_find js "seq" ≡ Some (int_number (i_seq i));
  ir_numbers : ∀ k, k ∈ ["seq"; "level"; "nodeid"; "send_s"; "send_ns"; "recv_s"; "recv_ns"] → is_Some (get_number js k);
  ir_receiver : ∃ h, get_object js "receiver" = Some h ∧ get_string h "name" = Some (c_string name) ∧
    ∀ k, k ∈ counter_keys → is_Some (get_number h k)
}.

Lemma read_numbers (js : JsonTable) k z : hashmap_find js k ≡ Some (int_number z) → is_Some (get_number js k).
Proof. intros H. destruct (int_number_form z) as [d Hd]. exists d. apply read_number. by rewrite <- Hd. Qed.

Lemma read_receiver js st name :
  json_ok (JObject js) → parsed (JObject js) → json_ok (JObject st) → hashmap_find js "receiver" ≡ Some (JObject st) →
  hashmap_find st "name" = Some (text name) → (∀ k, k ∈ counter_keys → ∃ z, hashmap_find st k = Some (int_number z)) →
  ∃ h, get_object js "receiver" = Some h ∧ get_string h "name" = Some (c_string name) ∧ ∀ k, k ∈ counter_keys → is_Some (get_number h k).
Proof.
  intros Hok Hp Hst Hr Hn Hc. destruct (read_object _ _ _ Hr) as (h & Hg & Hf & He). exists h. split; [exact Hg|].
  assert (∀ k, hashmap_find h k ≡ hashmap_find st k) as Hh by (intros k; apply equiv_find; [exact (ok_wf _ (find_ok _ _ _ Hok Hf)) | by apply ok_wf | done]).
  split; [apply read_string; [by eapply find_parsed | by rewrite Hh, Hn]|]. intros k Hk. destruct (Hc k Hk) as [z Hz]. apply (read_numbers _ _ z). by rewrite Hh, Hz.
Qed.

Lemma all_numbers js l : (∀ k, k ∈ l → is_Some (get_number js k)) → forallb (λ k, bool_decide (is_Some (get_number js k))) l = true.
Proof. intros H. apply forallb_forall. intros k Hk. apply bool_decide_eq_true_2, H. by apply list_elem_of_In. Qed.

Lemma reply_is_accepted js i s target name h shown :
  is_reply js i s target name → get_object js "receiver" = Some h → reply_accepted js h "ping" shown = true.
Proof.
  intros [Hp _ Hc _ _ _ _ Hn (h' & Hh & _ & Hcnt)] Hr. rewrite Hh in Hr. injection Hr as <-. unfold reply_accepted. cbv zeta.
  rewrite (read_string js "code" "reply" Hp Hc). rewrite !(bool_decide_eq_false_2 ("ping" = _)), !(bool_decide_eq_true_2 ("ping" = _)) by done.
  change (c_string "reply") with "reply". rewrite (bool_decide_eq_true_2 ("reply" = "reply")) by done. destruct shown as [[]|]; try done. unfold ping_report_ok. cbn [andb].
  apply andb_true_iff. split.
  - destruct (json_object_get_bool js "delay") as [[]|]; try done. apply all_numbers. intros k Hk. apply Hn. by do 3 right.
  - destruct (get_object h' "object"); [|done]. apply all_numbers, Hcnt.
Qed.

(** A reply to a ping is counted in its session, and reported to the connection
    that asked. *)
Lemma reply_processed w n msg js i s target name :
  json_parse msg = POk (JObject js) → is_reply js i s target name → no_nul s = true → id_wf i →
  let c := command_connection_for_session (o_ids (n_oam n)) s (i_session i) in
  let shown := c.1 ≫= λ c, n_conns n !! c in
  process_reply w msg n =
    Some (0, report (if shown is Some _ then c.1 else None) js
               (n <| n_oam := (n_oam n) <| o_ids := session_recv c.2 s (i_session i) (e_time (w_env w)) |> |>)).
Proof.
  intros Hp Hr Hs Hid. destruct (ir_receiver _ _ _ _ _ Hr) as (h & Hh & Hn & _). unfold process_reply. rewrite Hp.
  pose proof (ir_parsed _ _ _ _ _ Hr) as P. rewrite (read_string js "type" "ping" P (ir_type _ _ _ _ _ Hr)). change (c_string "ping") with "ping".
  rewrite (bool_decide_eq_false_2 ("ping" = "newaddress")) by done.
  rewrite (read_string js "stream" s P (ir_stream _ _ _ _ _ Hr)), (c_string_id _ Hs).
  destruct (int_number_exact (i_session i)) as (d & Ed & Hu & Hinv); [pose proof (iw_session _ Hid); lia|].
  rewrite (read_number js "session" d) by (by rewrite <- Ed; apply (ir_session _ _ _ _ _ Hr)).
  assert (session_invalid d = false) as -> by (rewrite Hinv; pose proof (iw_session _ Hid); lia). rewrite Hu. cbn [mbind option_bind].
  rewrite (read_string js "target" target P (ir_target _ _ _ _ _ Hr)), Hh, Hn.
  destruct (ir_numbers _ _ _ _ _ Hr "nodeid") as [x1 ->]; [by do 2 right; left|]. destruct (ir_numbers _ _ _ _ _ Hr "seq") as [x2 ->]; [by left|].
  destruct (ir_numbers _ _ _ _ _ Hr "level") as [x3 ->]; [by right; left|].
  destruct (command_connection_for_session (o_ids (n_oam n)) s (i_session i)) as [conn ids]. by rewrite (reply_is_accepted js i s target name h _ Hr Hh).
Qed.

Section exchange.
Context (e : Sender) (mA : OAM_MaintenancePoint) (r : OamRequest) (ip : string) (port : Z).
Context (Hkind : rq_kind r = "ping") (Hret : returns_to r ip port) (Hs : moderate (tv_sec (s_now e))) (Hns : moderate (tv_nsec (s_now e))).
Context (Hses : with_session mA) (Htarget : no_nul (mep_stop r) = true) (Hstream : no_nul (stream_of mA r) = true).
Context (Hid : id_wf (request_get_identification_data r)).
Let i := request_get_identification_data r.
Let msg := ping_message (s_now e) mA r.

Section received.
Context (js : JsonTable) (Hok : json_ok (JObject js)) (Hpd : parsed (JObject js)) (Hrm : has_room js 10).
Context (Hf : ∀ k, hashmap_find js k ≡ delivered e mA i msg k).

Lemma received_body k v : k ∉ ach_keys → hashmap_find msg k = Some v → hashmap_find js k ≡ Some v.
Proof. intros Hk Hv. by rewrite Hf, (delivered_body e mA i msg k Hk), Hv. Qed.

Lemma received_height k v : hashmap_find js k = Some v → (height v <= 49)%nat.
Proof.
  intros Hv. pose proof (Hf k) as He. rewrite Hv in He. symmetry in He. destruct (delivered e mA i msg k) as [v'|] eqn:E; inversion He; subst.
  rewrite <- (height_equiv v' v) by done. unfold delivered in E. destruct (chain_find k (header_items e mA i)).
  - injection E as <-. rewrite int_height. lia.
  - case_bool_decide; [done|]. destruct (ping_message_ok (s_now e) mA r ip port Hret Hs Hns) as (_ & _ & Hh). pose proof (Hh k v' E). lia.
Qed.

Lemma msg_find k : hashmap_find msg k = match chain_find k (ping_items mA r) with Some v => Some v | None => chain_find k (start_items r (s_now e)) end.
Proof. by destruct (ping_message_ok (s_now e) mA r ip port Hret Hs Hns) as (_ & H & _). Qed.

Lemma received_items :
  hashmap_find js "type" ≡ Some (text "ping") ∧ hashmap_find js "code" ≡ Some (text "request") ∧
  hashmap_find js "stream" ≡ Some (text (stream_of mA r)) ∧ hashmap_find js "target" ≡ Some (text (mep_stop r)) ∧
  hashmap_find js "return" ≡ Some (JObject (return_addr r)) ∧
  hashmap_find js "send_s" ≡ Some (int_number (tv_sec (s_now e))) ∧ hashmap_find js "send_ns" ≡ Some (int_number (tv_nsec (s_now e))).
Proof.
  split_and!; rewrite Hf, delivered_body by (by apply (bool_decide_unpack _); vm_compute); rewrite msg_find;
    unfold ping_items, start_items; rewrite ?Hkind; destruct (record_route r), (object_state r), (measure_delay r); try reflexivity;
    constructor; apply json_duplicate_equiv, (rt_ok _ _ _ Hret).
Qed.

Lemma received_flags : bool_decide (is_Some (hashmap_find js "object")) = object_state r ∧ (record_route r = false → hashmap_find js "rr" = None).
Proof.
  pose proof (Hf "object") as Ho. pose proof (Hf "rr") as Hr. rewrite delivered_body in Ho, Hr by (by apply (bool_decide_unpack _); vm_compute).
  rewrite msg_find in Ho, Hr. unfold ping_items, start_items in Ho, Hr. split.
  - destruct (record_route r), (object_state r), (measure_delay r); destruct (hashmap_find js "object"); inversion Ho;
      by rewrite ?bool_decide_eq_true_2, ?bool_decide_eq_false_2 by (done || by intros []).
  - intros Hrr. rewrite Hrr in Hr. destruct (object_state r), (measure_delay r); destruct (hashmap_find js "rr"); inversion Hr; done.
Qed.

(** The request is for the point: by its name, or for every point. *)
Definition addressed (m : OAM_MaintenancePoint) : Prop :=
  (mep_stop r = m_name m ∧ m_name m ≠ "any") ∨ (mep_stop r = "any" ∧ record_route r = false).

Lemma request_answered w streams k q o m st ttl :
  mps (o_reg o) !! k = Some m → encap m = encap mA → mp_unpack_message mA q = Some (Some js) →
  (∀ m', encap m' = encap mA → mp_compare_level m' q = Some (i_level i - i32 (m_level m'))) → i32 (m_level m) = i_level i →
  mp_get_ttl m q = Some ttl → addressed m → w_udp w = true → moderate (tv_sec (recv_time q)) → moderate (tv_nsec (recv_time q)) →
  mp_get_state_json (w_env w) (o_objs o) (m <| oam_recv := u32 (oam_recv m + 1) |>) (object_state r) = Some st →
  json_ok (JObject st) → (height (JObject st) <= 50)%nat →
  ∃ v o' t, inband_receive w streams k q o = Some (v, o') ∧ o_events o' = o_events o ++ [EvUdp ip port t] ∧
    json_serialize (JObject (ping_reply (duplicate (default js (routed js (m_name m)))) st (recv_time q))) = Some t.
Proof.
  intros Hm Hen Hun Hlv Hlev Httl Hadr Hudp Hrs Hrns Hstate Hst Hsth. unfold inband_receive, mp_count_received_message. rewrite Hm. cbn [mbind option_bind].
  set (m1 := m <| oam_recv := u32 (oam_recv m + 1) |>) in *. set (o1 := o <| o_reg := (o_reg o) <| mps := <[k := m1]> (mps (o_reg o)) |> |>).
  change (mps ((o_reg o) <| mps := <[k := m1]> (mps (o_reg o)) |>)) with (<[k := m1]> (mps (o_reg o))). rewrite lookup_insert_eq. cbn [mbind option_bind].
  rewrite (Hlv m1 Hen). change (m_level m1) with (m_level m). rewrite Hlev, Z.sub_diag. cbn [mbind option_bind].
  change (0 <? 0) with false. change (0 >? 0) with false. cbv iota.
  assert (mp_unpack_message m1 q = Some (Some js)) as -> by (rewrite <- Hun; unfold mp_unpack_message; change (encap m1) with (encap m); by rewrite Hen).
  cbn [mbind option_bind]. change (mp_get_ttl m1 q) with (mp_get_ttl m q). rewrite Httl. cbn [mbind option_bind].
  destruct received_items as (I1 & I2 & I3 & I4 & I5 & _ & _). destruct received_flags as [F1 F2].
  pose proof (routed_spec js (m_name m) Hok Hpd Hrm received_height) as (J1 & J2 & J3 & J4 & J5). set (js2 := default js (routed js (m_name m))) in *.
  destruct (ping_answer w k js2 (recv_time q) o1 m1 st r ip port (stream_of mA r) J1 J2 J3 J4) as (t & Et & Ep); try done; try (by rewrite J5 by done).
  { unfold o1. cbn. apply lookup_insert_eq. }
  { rewrite J5 by done. by rewrite F1. }
  unfold process_inband_message. change (mps (o_reg o1)) with (<[k := m1]> (mps (o_reg o))). rewrite lookup_insert_eq. cbn [mbind option_bind].
  rewrite (read_string js "type" "ping" Hpd I1), (read_string js "code" "request" Hpd I2), (read_string js "target" _ Hpd I4), (c_string_id _ Htarget).
  destruct (int_number_exact (header_number e mA i "level")) as (d & Hd & _ & _); [change (0 <= i_level i < 2 ^ 32); pose proof (iw_level _ Hid); unfold i; lia|].
  rewrite (read_number js "level" d) by (rewrite Hf, (delivered_head e mA i msg "level" Hses) by (by apply (bool_decide_unpack _); vm_compute); by rewrite Hd).
  cbn [c_string]. rewrite bool_decide_eq_true_2 by done. cbv zeta. fold (routed js (m_name m)). change (m_name m1) with (m_name m). fold (routed js (m_name m)). fold js2.
  set (o2 := o1 <| o_events := o_events o1 ++ [EvUdp ip port t] |>) in *. destruct (ttl =? 0).
  { rewrite Ep. cbn [mbind option_bind negb]. by exists Cancel, o2, t. }
  unfold route. change (m_name m1) with (m_name m). destruct Hadr as [[Ht Hne]|[Ht Hrr]]; rewrite Ht.
  - rewrite (bool_decide_eq_false_2 (m_name m = "any")), (bool_decide_eq_true_2 (m_name m = m_name m)) by done. rewrite Ep. cbn [mbind option_bind negb]. by exists Cancel, o2, t.
  - rewrite (bool_decide_eq_true_2 ("any" = "any")) by done. rewrite Ep. cbn [mbind option_bind negb andb].
    assert (routed js (m_name m) = None) as -> by (unfold routed, get_array, json_object_get_array, get_typed; by rewrite (F2 Hrr)).
    destruct (negb (bool_decide (m_type m1 = OAM_Stop))); cbn [negb]; [by exists (Resume q), o2, t | by exists Cancel, o2, t].
Qed.

(** The reply comes back. *)
Lemma reply_returns m st t recv we objs b :
  mp_get_state_json we objs m b = Some st → json_ok (JObject st) → (height (JObject st) <= 50)%nat → moderate (tv_sec recv) → moderate (tv_nsec recv) →
  json_serialize (JObject (ping_reply (duplicate (default js (routed js (m_name m)))) st recv)) = Some t → Z.of_nat (String.length t) <= 1999 →
  ∃ js3, json_parse (recv_datagram t) = POk (JObject js3) ∧ is_reply js3 i (stream_of mA r) (mep_stop r) (m_name m).
Proof.
  intros Hstate Hst Hsth Hrs Hrns Et Hlen.
  pose proof (routed_spec js (m_name m) Hok Hpd Hrm received_height) as (J1 & J2 & J3 & J4 & J5). set (js2 := default js (routed js (m_name m))) in *.
  destruct (ping_reply_spec js2 st recv J1 J2 J3 J4 Hst Hsth Hrs Hrns) as (R1 & R2 & R3 & R4 & R5 & R6 & R7).
  destruct (duplicate_spec js2 8 J1 J2 J3) as (D1 & D2 & _ & D4 & _). set (R := ping_reply (duplicate js2) st recv) in *.
  unfold recv_datagram. rewrite substring_all by lia. rewrite (serialize_c_string _ _ R1 Et).
  pose proof R1 as (mm & Hh)%json_ok_object.
  destruct (object_text R mm Hh) as (t' & js3 & Et' & Hp & _ & Hf3 & Hshort).
  { apply (height_map R mm JSON_MAX_RECURSION_DEPTH (ho_repr _ _ Hh)). exact R2. }
  rewrite Et in Et'. injection Et' as <-. destruct Hshort as [P3 O3]; [unfold short; lia|]. exists js3. split; [exact Hp|].
  assert (∀ k, hashmap_find js3 k ≡ hashmap_find R k) as H3 by (intros k; by rewrite Hf3, (rp_find _ _ (ho_repr _ _ Hh))).
  assert (∀ k v, hashmap_find js k ≡ Some v → bool_decide (k ∈ "rr" :: reply_keys) = false → hashmap_find js3 k ≡ Some v) as Hkeep.
  { intros k v Hv [Hrr Hk]%bool_decide_eq_false_1%not_elem_of_cons. by rewrite H3, R7, D4, J5. }
  assert (∀ k, k ∈ ["session"; "seq"; "level"; "nodeid"] → hashmap_find js3 k ≡ Some (int_number (header_number e mA i k))) as Hnum.
  { intros k Hk. apply Hkeep; [rewrite Hf; by rewrite (delivered_head e mA i msg k Hses Hk)|].
    rewrite !elem_of_cons in Hk; destruct Hk as [-> |[-> |[-> |[-> |?%elem_of_nil]]]]; done. }
  destruct received_items as (I1 & I2 & I3 & I4 & I5 & I6 & I7). destruct (state_find _ _ _ _ _ Hstate) as [N1 N2].
  assert (∀ k z, hashmap_find R k = Some (int_number z) → is_Some (get_number js3 k)) as Hnew by (intros k z Hz; apply (read_numbers _ _ z); by rewrite H3, Hz).
  split; [exact P3 | by apply Hkeep | by rewrite H3, R3 | by apply Hkeep | by apply Hkeep | apply (Hnum "session"); by left | apply (Hnum "seq"); by right; left | |].
  - intros k Hk. rewrite !elem_of_cons in Hk. destruct Hk as [-> |[-> |[-> |[-> |[-> |[-> |[-> |?%elem_of_nil]]]]]]]; try done;
      try (eapply Hnew; first [exact R5 | exact R6]); eapply read_numbers; first [apply Hkeep; [first [exact I6 | exact I7] | done] | apply Hnum; by apply (bool_decide_unpack _); vm_compute].
  - apply (read_receiver js3 st); try done. by rewrite H3, R4.
Qed.
End received.
End exchange.

(** ** The exchange *)

(** A request that can be sent from the point [mA]. *)
Record sendable (e : Sender) (mA : OAM_MaintenancePoint) (r : OamRequest) (ip : string) (port : Z) : Prop := {
  sd_kind : rq_kind r = "ping";
  sd_point : point_wf mA;
  sd_sender : sender_wf e;
  sd_id : id_wf (request_get_identification_data r);
  sd_session : with_session mA;
  sd_return : returns_to r ip port;
  sd_target : no_nul (mep_stop r) = true;
  sd_stream : no_nul (stream_of mA r) = true;
  sd_sec : moderate (tv_sec (s_now e));
  sd_nsec : moderate (tv_nsec (s_now e));
  sd_room : ∀ t, message_text mA (ping_message (s_now e) mA r) = Some t → 88 + Z.of_nat (String.length t) <= PACKET_BUF_LEN
}.

(** The request goes out in a packet that says the same to all points. *)
Lemma ping_sent e kA mA r ip port o :
  sendable (e_sender e) mA r ip port → mp_start r = Some kA → mps (o_reg o) !! kA = Some mA →
  ∃ o' at_ p wm, send_request e r o = Some (true, o') ∧ o_events o' = o_events o ++ [EvInject at_ p] ∧ carries p wm ∧ framed mA p ∧
    conveys (e_sender e) mA (request_get_identification_data r) (ping_message (s_now (e_sender e)) mA r) wm.
Proof.
  intros [Hk Hpt Hsw Hid Hses Hret Htg Hstr Hs Hns Hroom] Hst Hm. destruct fresh_packet as [Hwf Hlen].
  destruct (ping_message_ok (s_now (e_sender e)) mA r ip port Hret Hs Hns) as (M1 & M2 & M3).
  assert (height (JObject (ping_message (s_now (e_sender e)) mA r)) <= S JSON_MAX_RECURSION_DEPTH)%nat as Hh.
  { apply height_find; [exact M1|]. intros k v Hv. pose proof (M3 k v Hv). unfold JSON_MAX_RECURSION_DEPTH. lia. }
  destruct (all_packs (e_sender e) mA r _ _ Hwf Hlen Hpt Hsw Hid M1 Hh Hroom) as (js & p1 & p2 & wm & P1 & P2 & P3 & P4 & P5).
  unfold send_request. rewrite Hst. cbn [mbind option_bind]. rewrite Hm. cbn [mbind option_bind]. rewrite P1. cbn [mbind option_bind].
  rewrite (header_object _ _ _ _ _ _ P1), (request_message_ping e (o_objs o) mA r _ Hk). cbn [mbind option_bind]. rewrite Hk, (bool_decide_eq_false_2 ("ping" = "trigger")) by done.
  cbn [mbind option_bind]. rewrite P2. cbn [mbind option_bind negb]. unfold mp_inject_packet. rewrite Hm. cbn [mbind option_bind].
  destruct (injections mA) as [|ij l]; cbn [mbind option_bind]; do 4 eexists; split; [reflexivity | by split_and! | reflexivity | by split_and!].
Qed.

(** A point that answers: it has the encapsulation and the level of the
    request, which is for it, and its state and that of its object can be
    printed. *)
Record answers (w : World) (objs : gmap nat Object.Obj.PipelineObject) (r : OamRequest) (mA m : OAM_MaintenancePoint) : Prop := {
  an_encap : encap m = encap mA;
  an_level : i32 (m_level m) = r_level r;
  an_for : addressed r m;
  an_udp : w_udp w = true;
  an_counters : Forall moderate [m_level m; oam_send m; data_packets m; data_octets m];
  an_object : ∀ ref, m_object m = Some ref →
    ∃ v, object_state_json (w_env w) objs ref (object_state r) = Some v ∧ json_ok v ∧ (height v <= 49)%nat
}.

Lemma mp_items_ok m : Forall moderate [m_level m; oam_send m; data_packets m; data_octets m] → moderate (oam_recv m) → Forall (λ x, item_ok x.1 x.2) (mp_items m).
Proof.
  intros Hc Hr. rewrite !Forall_cons in Hc. destruct Hc as (H1 & H2 & H3 & H4 & _). unfold mp_items. repeat (apply Forall_cons; split); cbn [fst snd]; auto.
Qed.

Lemma state_ok w objs r mA m :
  answers w objs r mA m → let m1 := m <| oam_recv := u32 (oam_recv m + 1) |> in
  ∃ st, mp_get_state_json (w_env w) objs m1 (object_state r) = Some st ∧ json_ok (JObject st) ∧ (height (JObject st) <= 50)%nat.
Proof.
  intros Han m1. destruct (empty_ok 20 ltac:(lia)) as [E1 E2].
  assert (moderate (oam_recv m1)) as Hrc by (change (oam_recv m1) with (u32 (oam_recv m + 1)); unfold moderate, u32; lia).
  destruct (inserts_spec (mp_items m1) empty_object 10 E1) as (S1 & S2 & S3); [exact E2 | lia | by apply mp_items_ok; [apply (an_counters _ _ _ _ _ Han)|] | apply mp_items_nodup|].
  assert (∀ k v, hashmap_find (inserts (mp_items m1) empty_object) k = Some v → height v <= 49)%nat as S4.
  { intros k v. rewrite S3, (rp_find _ _ (ho_repr _ _ empty_holds)), lookup_empty. destruct (chain_find k (mp_items m1)) as [x|] eqn:E; [|done]. intros Hv. injection Hv as <-.
    apply chain_find_elem in E; [|apply mp_items_nodup]. assert (Forall (λ x, height x.2 <= 49)%nat (mp_items m1)) as HF.
    { unfold mp_items. repeat (apply Forall_cons; split); cbn [snd]; rewrite ?int_height; cbn; lia || done. }
    rewrite Forall_forall in HF. by apply (HF _ E). }
  unfold mp_get_state_json. change (object_of (mp_items m1)) with (inserts (mp_items m1) empty_object).
  generalize dependent (inserts (mp_items m1) empty_object). intros st0 S1 S2 S3 S4.
  assert (∃ st1, match m_object m1 with Some x => v ← object_state_json (w_env w) objs x (object_state r); Some (json_object_insert st0 "object" v) | None => Some st0 end = Some st1 ∧
    json_ok (JObject st1) ∧ has_room st1 9 ∧ (∀ k v, hashmap_find st1 k = Some v → height v <= 49)%nat) as (st1 & -> & T1 & T2 & T3).
  { change (m_object m1) with (m_object m). destruct (m_object m) as [x|] eqn:Ex.
    - destruct (an_object _ _ _ _ _ Han x Ex) as (v & -> & Hv & Hhv). cbn [mbind option_bind]. eexists. split; [reflexivity|].
      destruct (insert_ok st0 "object" v 9 S1 S2) as [I1 I2]; [lia | by split|]. split_and!; [exact I1 | exact I2|].
      intros k' v'. rewrite (find_insert st0 _ _ _ S1). case_bool_decide; [|apply S4]. intros Hi. by injection Hi as <-.
    - exists st0. split_and!; [done | done | unfold has_room in *; lia | done]. }
  cbn [mbind option_bind].
  assert (∀ s, json_ok (JObject (json_object_insert st1 "mask_signal_state" (text s))) ∧ (height (JObject (json_object_insert st1 "mask_signal_state" (text s))) <= 50)%nat) as Hmask.
  { intros s. destruct (insert_ok st1 "mask_signal_state" (text s) 8 T1 T2) as [I1 _]; [lia | by apply item_text|]. split; [exact I1|]. apply height_find; [exact I1|].
    intros k' v'. rewrite (find_insert st1 _ _ _ T1). case_bool_decide; [|apply T3]. intros Hi. injection Hi as <-. cbn. lia. }
  destruct (mask_recv m1); [|destruct (mask_send m1)]; eexists; (split; [reflexivity|]); try apply Hmask. split; [exact T1|]. by apply height_find.
Qed.


(** ** Witness *)

Definition sample_return : JsonTable := inserts [("ip", text "10.0.0.1"); ("port", int_number 6634)] empty_object.

Definition sample_ping : OamRequest := sample_request <| return_addr := sample_return |> <| record_route := true |>.

Definition sample_peer : OAM_MaintenancePoint := sample_point <| m_name := "peer" |> <| m_type := OAM_Stop |>.

Definition sample_oam (m : OAM_MaintenancePoint) : Oam :=
  mk_oam (mk_registry {[0%nat := m]} None 1 []) (mk_core None None None None 7) ∅ ∅ 0 ∅ [].

Definition sample_env : Env := mk_env sample_sender 1000 true false (λ _, None).
Definition sample_world : World := mk_world sample_env true true (UdpOut.mk_kernel None true true None None true None true true true).
Definition sample_node : Node := mk_node (sample_oam sample_point) ∅ [] ∅ [].

(** The packet that is sent and the reply to it. *)
Definition sample_exchange : option (Packet * string) :=
  '(_, o) ← send_request sample_env sample_ping (sample_oam sample_point);
  p ← (if o_events o is [EvInject _ p] then Some p else None);
  '(_, o) ← inband_receive sample_world [] 0 p (sample_oam sample_peer);
  if o_events o is [EvUdp _ _ t] then Some (p, t) else None.

Definition sample_ok (x : Packet * string) : bool :=
  bool_decide (is_Some (mp_get_ttl sample_peer x.1)) && (Z.abs (tv_sec (recv_time x.1)) <? 2 ^ 64) && (Z.abs (tv_nsec (recv_time x.1)) <? 2 ^ 64) &&
  (Z.of_nat (String.length x.2) <=? 1999).

Example sample_exchange_ok : (if sample_exchange is Some x then sample_ok x else false) = true.
Proof. vm_compute. reflexivity. Qed.

Lemma sample_returns : returns_to sample_ping "10.0.0.1" 6634.
Proof.
  destruct (empty_ok 10 ltac:(lia)) as [E1 E2]. set (l := [("ip", text "10.0.0.1"); ("port", int_number 6634)]).
  assert (NoDup l.*1) as Hnd by (change l.*1 with ["ip"; "port"]; by apply (bool_decide_unpack _); vm_compute).
  destruct (inserts_spec l empty_object 8 E1 E2) as (S1 & S2 & S3); [lia | | exact Hnd|].
  { repeat (apply Forall_cons; split); cbn [fst snd]; [by apply item_text | by apply item_number | done]. }
  assert (return_addr sample_ping = inserts l empty_object) as Hl by reflexivity.
  split; rewrite ?Hl; [exact S1 | | exact (S3 "ip") | reflexivity | | exact (S3 "port") | lia].
  - apply height_find; [exact S1|]. intros k v. rewrite S3, (rp_find _ _ (ho_repr _ _ empty_holds)), lookup_empty.
    destruct (chain_find k l) as [x|] eqn:E; [|discriminate]. intros Hv. injection Hv as <-. apply chain_find_elem in E; [|exact Hnd].
    unfold l in E. rewrite !elem_of_cons in E. destruct E as [E|[E|E%elem_of_nil]]; [..|contradiction]; injection E as _ ->; [cbn; lia | by rewrite int_height].
  - vm_compute. by eexists.
Qed.

Lemma sample_sendable : sendable sample_sender sample_point sample_ping "10.0.0.1" 6634.
Proof.
  split; try reflexivity; [| | discriminate | apply sample_returns |].
  - split; [vm_compute; reflexivity|]. vm_compute. repeat constructor; discriminate || done.
  - split; (split; [apply Z.leb_le | apply Z.ltb_lt]; vm_compute; reflexivity).
  - intros t Ht. assert (if message_text sample_point (ping_message (s_now sample_sender) sample_point sample_ping) is Some t then 88 + Z.of_nat (String.length t) <=? PACKET_BUF_LEN else true) as Hb by (vm_compute; exact I).
    rewrite Ht in Hb. by apply Z.leb_le, Is_true_true.
Qed.


End Ping.
