(* ===== verification/OamMaskNet.v ===== *)
(** * Mask signals pass a recovery

    The composition of the mask signals with the sequence recovery and the table
    of maintenance points: whatever signals and time-outs the points in front of
    a recovery see, the point behind it signals exactly while all of them do. *)

From S2P Require Import Prelude TimeUtils Protocol Packet SeqRecov SeqRecovTimer Object Pipeline CString HashMap Double Json JsonText JsonRound JsonObject.
From S2P Require Import ConfActions Assemble OamSession OamMp OamCodec OamWire ObjState OamRequest OamMask OamPing.
From Stdlib Require Import Ascii.

Module MaskNet.
Import Time Proto Pkt Rcvy(SequenceRecovery, MaskEvent(..), RecoveryObject, main_rec, mk_obj, preAutoMIP, postAutoMIP, lat, latent_error_paths, conf, diag,
  admin_latent_error_paths, mk_diag, seq_rec_path_masked, seq_rec_path_unmasked) RcvyMask CStr HMap Json JText JRound JObj ConfA Asm Mp Codec Wire OState Req Mask Ping.

#[local] Open Scope string_scope.
#[local] Open Scope list_scope.
#[local] Open Scope Z_scope.
#[local] Opaque int_number.

(** All inputs are masked when as many are as there are. *)
Lemma all_masked (mips : gmap string bool) : masked_count mips = Z.of_nat (size mips) ↔ map_Forall (λ _ b, b = true) mips.
Proof.
  unfold masked_count. induction mips as [|n b mips Hn IH] using map_ind; [rewrite map_filter_empty, map_size_empty; split; [intros; apply map_Forall_empty | done]|].
  rewrite map_size_insert_None by done. rewrite map_Forall_insert by done. destruct b.
  - rewrite map_filter_insert_True, map_size_insert_None by (done || (apply map_lookup_filter_None; by left)). rewrite <- IH. split; [intros; split; [done | lia] | intros [_ ?]; lia].
  - rewrite map_filter_insert_False by done. rewrite delete_id by done. pose proof (map_size_filter (λ kv : string * bool, kv.2 = true) mips). split; [lia | by intros [? _]].
Qed.

(** ** Mask messages *)

Definition mask_message (now : timespec) (c : OamCore) (k : nat) (m : OAM_MaintenancePoint) (type : string) : JsonTable :=
  json_object_insert (request_object (create_mask_request c k m type) now) "target" (text "nexthop").

(** A point that can send mask signals. *)
Record signals (e : Env) (c : OamCore) (m : OAM_MaintenancePoint) : Prop := {
  si_send : mp_can_send m = true;
  si_point : point_wf m;
  si_level : 0 <= u8 (m_level m) < 8;
  si_room : ∀ k type t, type ∈ ["mask"; "unmask"] → message_text m (mask_message (s_now (e_sender e)) c k m type) = Some t → 88 + Z.of_nat (String.length t) <= PACKET_BUF_LEN
}.

Section net.
Context (e : Env) (Hsw : sender_wf (e_sender e)) (Hs : moderate (tv_sec (s_now (e_sender e)))) (Hns : moderate (tv_nsec (s_now (e_sender e)))).

Lemma mask_packed o k m type :
  signals e (o_core o) m → 0 <= nodeid (o_core o) < 2 ^ 32 → type ∈ ["mask"; "unmask"] → ∃ p, mask_packet e o k m type = Some (true, p).
Proof.
  intros [H1 H2 H3 H4] Hn Ht. set (req := create_mask_request (o_core o) k m type). set (now := s_now (e_sender e)) in *. destruct fresh_packet as [Hwf Hlen].
  destruct (start_ok now req Hs Hns) as (S1 & S2 & S3).
  destruct (insert_ok (request_object req now) "target" (text "nexthop") 99 S1 S2) as [I1 I2]; [lia | split; [reflexivity | apply text_ok]|].
  destruct (all_packs (e_sender e) m req (new_packet None (mk_pool 0 0)).1 (mask_message now (o_core o) k m type)) as (js & p1 & p2 & w & P1 & P2 & _);
    [exact Hwf | exact Hlen | exact H2 | exact Hsw | | exact I1 | | |].
  - split; [exact Hn | exact H3 | change (0 <= 0 < 16); lia | change (0 <= 0 < 256); lia].
  - apply height_find; [exact I1|]. intros k' v'. unfold mask_message. fold req. rewrite (find_insert _ _ _ _ S1), S3. case_bool_decide; [intros Hi; injection Hi as <-; cbn; unfold JSON_MAX_RECURSION_DEPTH; lia|].
    intros Hv. apply chain_find_elem in Hv; [|by apply (bool_decide_unpack _); vm_compute].
    assert (Forall (λ x, height x.2 <= JSON_MAX_RECURSION_DEPTH)%nat (start_items req now)) as HS.
    { unfold start_items. repeat (apply Forall_cons; split); cbn [snd]; rewrite ?int_height; unfold JSON_MAX_RECURSION_DEPTH; cbn; lia || done. }
    rewrite Forall_forall in HS. by apply (HS _ Hv).
  - intros t. exact (H4 k type t Ht).
  - exists p2. unfold mask_packet. fold req. rewrite P1. cbn [mbind option_bind]. rewrite (header_object _ _ _ _ _ _ P1). exact P2.
Qed.

(** ** A change of one path *)

Context (Hlaunch : e_launches e = true).

(** Only the mask state, the counters and the history of diagnostics change. *)
Lemma path_frame (b : bool) r n ok evs r' :
  (if b then seq_rec_path_masked else seq_rec_path_unmasked) r n = (ok, evs, r') → postAutoMIP r' = postAutoMIP r ∧ conf r' = conf r.
Proof.
  destruct b; unfold seq_rec_path_masked, seq_rec_path_unmasked; repeat case_match; intros Hr; injection Hr as _ _ <-; done.
Qed.

(** What a path change asks of the point behind the recovery. *)
Lemma path_change (b : bool) r n mips :
  mask_inv r → preAutoMIP r = Some mips → mips !! n = Some (negb b) →
  ∃ evs r', (if b then seq_rec_path_masked else seq_rec_path_unmasked) r n = (true, evs, r') ∧
    mask_inv r' ∧ preAutoMIP r' = Some (<[n := b]> mips) ∧ postAutoMIP r' = postAutoMIP r ∧ conf r' = conf r ∧
    (evs = [] ∧ (latent_error_paths (lat r') =? 0) = (latent_error_paths (lat r) =? 0) ∨
     evs = [if b then START_MASK_SESSION (postAutoMIP r) else STOP_MASK_SESSION (postAutoMIP r)] ∧
     (latent_error_paths (lat r') =? 0) = b ∧ (latent_error_paths (lat r) =? 0) = negb b).
Proof.
  intros Hi Hm Hn. destruct b; cbn [negb] in Hn.
  - destruct (path_masked_spec r n mips Hi Hm) as [(_ & r' & E & I & P & L & Hp)|[Hne _]]; [|done]. do 2 eexists. split; [exact E|].
    destruct (path_frame true r n _ _ _ E) as [F1 F2]. split_and!; try done. rewrite L.
    destruct (Z.eqb_spec (latent_error_paths (lat r)) 1); [right | left]; split_and?; try done; lia.
  - destruct (path_unmasked_spec r n mips Hi Hm) as [(_ & r' & E & I & P & L & Hp)|[Hne _]]; [|done]. do 2 eexists. split; [exact E|].
    destruct (path_frame false r n _ _ _ E) as [F1 F2]. split_and!; try done. rewrite L.
    destruct (Z.eqb_spec (latent_error_paths (lat r)) 0); [right | left]; split_and?; try done; lia.
Qed.

(** The rest of the module is left alone. *)
Definition same_frame (o o' : Oam) : Prop := mp_hash (o_reg o') = mp_hash (o_reg o) ∧ o_core o' = o_core o.

Lemma started o kp m post :
  point_named post o = Some (Some kp) → mps (o_reg o) !! kp = Some m → signals e (o_core o) m →
  ∃ o' m', oam_automip_start e post o = Some o' ∧ o_objs o' = o_objs o ∧ mps (o_reg o') = <[kp := m']> (mps (o_reg o)) ∧ same_frame o o' ∧
    signals e (o_core o) m' ∧ mask_send m' = true.
Proof.
  intros Hp Hm Hs'. unfold oam_automip_start, initiate, mp_initiate_mask_signalling. rewrite Hp. cbn [mbind option_bind]. rewrite Hm. cbn [mbind option_bind].
  rewrite (si_send _ _ _ Hs'). cbn [negb]. do 2 eexists. split; [reflexivity|]. split_and!; [reflexivity | reflexivity | by split | destruct Hs'; by split|].
  change (mask_send m || e_launches e = true). by rewrite Hlaunch, orb_true_r.
Qed.

Lemma stopped o kp m post :
  point_named post o = Some (Some kp) → mps (o_reg o) !! kp = Some m → signals e (o_core o) m → mask_send m = true → 0 <= nodeid (o_core o) < 2 ^ 32 →
  ∃ o' m', oam_automip_stop_mask_session e post o = Some o' ∧ o_objs o' = o_objs o ∧ mps (o_reg o') = <[kp := m']> (mps (o_reg o)) ∧ same_frame o o' ∧
    signals e (o_core o) m' ∧ mask_send m' = false.
Proof.
  intros Hp Hm Hs' Hsend Hn. unfold oam_automip_stop_mask_session, mp_stop_mask_signalling. rewrite Hp. cbn [mbind option_bind]. rewrite Hm. cbn [mbind option_bind].
  rewrite (si_send _ _ _ Hs'), Hsend. cbn [negb]. set (m1 := m <| mask_send := false |>). set (o1 := set_point kp m1 o).
  assert (signals e (o_core o) m1) as Hs1 by (destruct Hs'; by split).
  destruct (mask_packed o1 kp m1 "unmask" Hs1 Hn) as [p ->]; [by right; left|]. cbn [mbind option_bind]. unfold inject, mp_inject_packet.
  change (mps (o_reg o1)) with (<[kp := m1]> (mps (o_reg o))). rewrite lookup_insert_eq. cbn [mbind option_bind].
  destruct (injections m1) as [|ij l]; cbn [mbind option_bind]; [exists (emit (EvInject None p) o1), m1 | eexists; exists (m1 <| oam_send := u32 (oam_send m1 + 1) |>)].
  - split_and!; [reflexivity | reflexivity | reflexivity | by split | exact Hs1 | reflexivity].
  - split; [reflexivity|]. split_and!; [reflexivity | | by split | destruct Hs1; by split | reflexivity]. change (<[kp := m1 <| oam_send := u32 (oam_send m1 + 1) |>]> (<[kp := m1]> (mps (o_reg o))) = <[kp := m1 <| oam_send := u32 (oam_send m1 + 1) |>]> (mps (o_reg o))).
    by rewrite insert_insert_eq.
Qed.

(** The recovery takes the change, and the point behind it follows. *)
Lemma change_path_spec (b : bool) n id rc mips kp m post o :
  mask_inv (main_rec rc) → preAutoMIP (main_rec rc) = Some mips → postAutoMIP (main_rec rc) = Some post → mips !! n = Some (negb b) →
  point_named post o = Some (Some kp) → mps (o_reg o) !! kp = Some m → signals e (o_core o) m → 0 <= nodeid (o_core o) < 2 ^ 32 →
  mask_send m = (latent_error_paths (lat (main_rec rc)) =? 0) →
  ∃ rc' o' m', change_path e b n id rc o = Some (true, o') ∧ mask_inv (main_rec rc') ∧ preAutoMIP (main_rec rc') = Some (<[n := b]> mips) ∧
    postAutoMIP (main_rec rc') = Some post ∧ conf (main_rec rc') = conf (main_rec rc) ∧
    o_objs o' = <[id := Obj.PIPEOBJ_SEQREC rc']> (o_objs o) ∧ mps (o_reg o') = <[kp := m']> (mps (o_reg o)) ∧ same_frame o o' ∧
    signals e (o_core o) m' ∧ mask_send m' = (latent_error_paths (lat (main_rec rc')) =? 0).
Proof.
  intros Hi Hmips Hpost Hn Hp Hm Hsig Hnode Hsend. destruct (path_change b (main_rec rc) n mips Hi Hmips Hn) as (evs & r' & E & I & P & Q & Cf & Hev).
  unfold change_path. rewrite E. cbv iota beta.
  set (rc' := mk_obj r' (Rcvy.oam_seq_recoveries rc)). set (ev := EvNotify _ _). set (o1 := o <| o_objs := <[id := Obj.PIPEOBJ_SEQREC rc']> (o_objs o) |>).
  assert (mps (o_reg (emit ev o1)) !! kp = Some m) as Hm1 by exact Hm. assert (point_named post (emit ev o1) = Some (Some kp)) as Hp1 by exact Hp.
  assert (postAutoMIP (main_rec rc') = Some post) as HQ by (rewrite <- Hpost; exact Q).
  destruct Hev as [[-> Hl]|(-> & Hl & Hl')].
  - exists rc', (emit ev o1), m. cbn [mask_events mbind option_bind]. split; [reflexivity|].
    split_and!; try done; [|by rewrite Hsend, <- Hl]. change (mps (o_reg (emit ev o1))) with (mps (o_reg o)). by rewrite insert_id.
  - rewrite Hl' in Hsend. cbn [mask_events]. unfold mask_event. rewrite Hpost. destruct b; cbn [negb mbind option_bind] in *.
    + destruct (started (emit ev o1) kp m post Hp1 Hm1 Hsig) as (o2 & m' & -> & O1 & O2 & O3 & O4 & O5). cbn [mbind option_bind].
      exists rc', o2, m'. split; [reflexivity|]. split_and!; try done. by rewrite O5; symmetry.
    + destruct (stopped (emit ev o1) kp m post Hp1 Hm1 Hsig Hsend Hnode) as (o2 & m' & -> & O1 & O2 & O3 & O4 & O5). cbn [mbind option_bind].
      exists rc', o2, m'. split; [reflexivity|]. split_and!; try done. by rewrite O5; symmetry.
Qed.

(** ** The invariant *)

Record input_ok (id : nat) (mips : gmap string bool) (m : OAM_MaintenancePoint) : Prop := {
  in_name : oam_is_automip_name (m_name m) (-1) = true;
  in_object : o_id <$> m_object m = Some id;
  in_state : mips !! m_name m = Some (mask_recv m)
}.

(** The recovery [id] with the points [ks] in front of it, one for each
    path, and the point [kp] named [post] behind it. *)
Record mask_net (id kp : nat) (ks : list nat) (post : string) (rc : RecoveryObject) (mips : gmap string bool) (o : Oam) : Prop := {
  mn_rec : o_objs o !! id = Some (Obj.PIPEOBJ_SEQREC rc);
  mn_inv : mask_inv (main_rec rc);
  mn_mips : preAutoMIP (main_rec rc) = Some mips;
  mn_post : postAutoMIP (main_rec rc) = Some post;
  mn_all : admin_latent_error_paths (diag (conf (main_rec rc))) = Z.of_nat (size mips);
  mn_inputs : ∀ k, k ∈ ks → ∃ m, mps (o_reg o) !! k = Some m ∧ input_ok id mips m;
  mn_names : ∀ n, is_Some (mips !! n) → ∃ k m, k ∈ ks ∧ mps (o_reg o) !! k = Some m ∧ m_name m = n;
  mn_inj : ∀ k k' m m', k ∈ ks → k' ∈ ks → mps (o_reg o) !! k = Some m → mps (o_reg o) !! k' = Some m' → m_name m = m_name m' → k = k';
  mn_apart : kp ∉ ks;
  mn_out : ∃ m, mps (o_reg o) !! kp = Some m ∧ signals e (o_core o) m ∧ mask_send m = (latent_error_paths (lat (main_rec rc)) =? 0);
  mn_find : point_named post o = Some (Some kp);
  mn_node : 0 <= nodeid (o_core o) < 2 ^ 32
}.

Lemma recovery_found id kp ks post rc mips o m : mask_net id kp ks post rc mips o → input_ok id mips m → recovery_of m o = Some (id, rc).
Proof.
  intros Hn Hm. unfold recovery_of. pose proof (in_object _ _ _ Hm) as Ho. destruct (m_object m) as [x|]; [|done]. injection Ho as ->.
  by rewrite (mn_rec _ _ _ _ _ _ _ Hn).
Qed.

(** The points after the change of one of them. *)
Lemma inputs_change id kp ks post rc mips o k m m' mp' b :
  mask_net id kp ks post rc mips o → k ∈ ks → mps (o_reg o) !! k = Some m → m_name m' = m_name m → m_object m' = m_object m → mask_recv m' = b →
  let pts := <[k := m']> (<[kp := mp']> (mps (o_reg o))) in let mips' := <[m_name m := b]> mips in
  (∀ k, k ∈ ks → ∃ m, pts !! k = Some m ∧ input_ok id mips' m) ∧
  (∀ n, is_Some (mips' !! n) → ∃ k m, k ∈ ks ∧ pts !! k = Some m ∧ m_name m = n) ∧
  (∀ k k' m m', k ∈ ks → k' ∈ ks → pts !! k = Some m → pts !! k' = Some m' → m_name m = m_name m' → k = k').
Proof.
  intros Hn Hk Hm Hname Hobj Hb pts mips'. destruct (mn_inputs _ _ _ _ _ _ _ Hn k Hk) as (m0 & Hm0 & Hin). rewrite Hm in Hm0. injection Hm0 as <-.
  assert (∀ k', k' ∈ ks → k' ≠ k → pts !! k' = mps (o_reg o) !! k') as Hold.
  { intros k' Hk' Hne. unfold pts. rewrite !lookup_insert_ne; try done. intros <-. by apply (mn_apart _ _ _ _ _ _ _ Hn). }
  assert (∀ k' x, k' ∈ ks → pts !! k' = Some x → ∃ x0, mps (o_reg o) !! k' = Some x0 ∧ m_name x = m_name x0) as Hback.
  { intros k' x Hk' Hx. destruct (decide (k' = k)) as [->|Hne]; [|rewrite Hold in Hx by done; eauto]. unfold pts in Hx. rewrite lookup_insert_eq in Hx. injection Hx as <-. eauto. }
  split_and!.
  - intros k' Hk'. destruct (decide (k' = k)) as [->|Hne].
    + exists m'. split; [apply lookup_insert_eq|]. destruct Hin as [I1 I2 I3]. split; [by rewrite Hname | by rewrite Hobj | by rewrite Hname, Hb; apply lookup_insert_eq].
    + rewrite Hold by done. destruct (mn_inputs _ _ _ _ _ _ _ Hn k' Hk') as (x & Hx & [I1 I2 I3]). exists x. split; [done|]. split; [done | done|].
      unfold mips'. rewrite lookup_insert_ne; [done|]. intros Heq. apply Hne. by apply (mn_inj _ _ _ _ _ _ _ Hn k' k x m).
  - intros n Hx. destruct (decide (n = m_name m)) as [->|Hne]; [exists k, m'; split; [done|]; split; [apply lookup_insert_eq | done]|].
    unfold mips' in Hx. rewrite lookup_insert_ne in Hx by done. destruct (mn_names _ _ _ _ _ _ _ Hn n Hx) as (k' & x & Hk' & Hx' & <-). exists k', x. split; [done|]. split; [|done].
    rewrite Hold; [done | done|]. intros ->. rewrite Hm in Hx'. by injection Hx' as <-.
  - intros k1 k2 x1 x2 H1 H2 E1 E2 Heq. destruct (Hback _ _ H1 E1) as (y1 & Y1 & N1), (Hback _ _ H2 E2) as (y2 & Y2 & N2).
    apply (mn_inj _ _ _ _ _ _ _ Hn k1 k2 y1 y2); try done. congruence.
Qed.

(** A change of the path of the point [k], which records it. *)
Lemma net_change (b : bool) id kp ks post rc mips o k m m1 :
  mask_net id kp ks post rc mips o → k ∈ ks → mps (o_reg o) !! k = Some m → mask_recv m = negb b →
  m_name m1 = m_name m → m_object m1 = m_object m →
  ∃ rc' o', change_path e b (m_name m) id rc (set_point k m1 o) = Some (true, o') ∧ mps (o_reg o') !! k = Some m1 ∧
    mask_net id kp ks post rc' (<[m_name m := b]> mips) (set_point k (m1 <| mask_recv := b |>) o').
Proof.
  intros Hn Hk Hm Hb Hname Hobj. destruct (mn_inputs _ _ _ _ _ _ _ Hn k Hk) as (m0 & Hm0 & Hin). rewrite Hm in Hm0. injection Hm0 as <-.
  destruct (mn_out _ _ _ _ _ _ _ Hn) as (mp & Hmp & Hsig & Hsend). assert (k ≠ kp) as Hne by (intros ->; by apply (mn_apart _ _ _ _ _ _ _ Hn)).
  assert (mps (o_reg (set_point k m1 o)) !! kp = Some mp) as Hmp1 by (change (<[k := m1]> (mps (o_reg o)) !! kp = Some mp); by rewrite lookup_insert_ne).
  pose proof (in_state _ _ _ Hin) as Hst. rewrite Hb in Hst.
  destruct (change_path_spec b (m_name m) id rc mips kp mp post (set_point k m1 o) (mn_inv _ _ _ _ _ _ _ Hn) (mn_mips _ _ _ _ _ _ _ Hn) (mn_post _ _ _ _ _ _ _ Hn) Hst
    (mn_find _ _ _ _ _ _ _ Hn) Hmp1 Hsig (mn_node _ _ _ _ _ _ _ Hn) Hsend) as (rc' & o' & mp' & E & I & P & Q & Cf & O1 & O2 & [O3 O4] & S1 & S2).
  change (mps (o_reg (set_point k m1 o))) with (<[k := m1]> (mps (o_reg o))) in O2.
  exists rc', o'. split; [exact E|]. split; [by rewrite O2, lookup_insert_ne, lookup_insert_eq|].
  assert (mps (o_reg (set_point k (m1 <| mask_recv := b |>) o')) = <[k := m1 <| mask_recv := b |>]> (<[kp := mp']> (mps (o_reg o)))) as Hmps.
  { change (<[k := m1 <| mask_recv := b |>]> (mps (o_reg o')) = <[k := m1 <| mask_recv := b |>]> (<[kp := mp']> (mps (o_reg o)))). rewrite O2.
    rewrite (insert_insert_ne _ kp k) by done. by rewrite insert_insert_eq. }
  destruct (inputs_change id kp ks post rc mips o k m (m1 <| mask_recv := b |>) mp' b Hn Hk Hm) as (J1 & J2 & J3); [exact Hname | exact Hobj | reflexivity|].
  split; rewrite ?Hmps; try done.
  - change (o_objs o' !! id = Some (Obj.PIPEOBJ_SEQREC rc')). rewrite O1. apply lookup_insert_eq.
  - rewrite Cf, (mn_all _ _ _ _ _ _ _ Hn). by rewrite (size_update mips (m_name m) (negb b) b Hst).
  - apply (mn_apart _ _ _ _ _ _ _ Hn).
  - exists mp'. rewrite lookup_insert_ne by done. rewrite lookup_insert_eq. split; [done|]. split; [|done]. change (o_core (set_point k (m1 <| mask_recv := b |>) o')) with (o_core o'). by rewrite O4.
  - rewrite <- (mn_find _ _ _ _ _ _ _ Hn). unfold point_named. change (mp_hash (o_reg (set_point k (m1 <| mask_recv := b |>) o'))) with (mp_hash (o_reg o')). by rewrite O3.
  - change (o_core (set_point k (m1 <| mask_recv := b |>) o')) with (o_core o'). rewrite O4. apply (mn_node _ _ _ _ _ _ _ Hn).
Qed.

Lemma set_point_id k m o : mps (o_reg o) !! k = Some m → set_point k m o = o.
Proof. intros H. destruct o as [[ps h nx cl] c i q n os ev]. unfold set_point. cbn in *. by rewrite insert_id. Qed.

(** ** Steps *)

(** A mask or unmask signal at the point [k], the time-out of the point, and a
    round of the thread that sends. *)
Inductive MaskOp := Masked (k : nat) | Unmasked (k : nat) | Expired (k : nat) | SendRound.

(** The threads run while the points hold them. *)
Definition mask_exec (kp : nat) (op : MaskOp) (o : Oam) : option Oam :=
  match op with
  | Masked k => mp_receive_mask_signal e k o
  | Unmasked k => mp_receive_unmask_signal e k o
  | Expired k => m ← mps (o_reg o) !! k; if mask_recv m then mask_timeout e k o else Some o
  | SendRound => m ← mps (o_reg o) !! kp; if mask_send m then send_mask_round e kp o else Some o
  end.

Definition at_input (ks : list nat) (op : MaskOp) : Prop := match op with Masked k | Unmasked k | Expired k => k ∈ ks | SendRound => True end.

Section step.
Context (id kp : nat) (ks : list nat) (post : string).

Lemma net_masked rc mips o k : mask_net id kp ks post rc mips o → k ∈ ks → ∃ rc' mips' o', mp_receive_mask_signal e k o = Some o' ∧ mask_net id kp ks post rc' mips' o'.
Proof.
  intros Hn Hk. destruct (mn_inputs _ _ _ _ _ _ _ Hn k Hk) as (m & Hm & Hin). unfold mp_receive_mask_signal. rewrite Hm. cbn [mbind option_bind].
  rewrite (in_name _ _ _ Hin), (recovery_found _ _ _ _ _ _ _ _ Hn Hin). cbn [negb]. destruct (mask_recv m) eqn:Hr; [by exists rc, mips, o|].
  destruct (net_change true id kp ks post rc mips o k m (m <| mask_queue := true |>) Hn Hk Hm Hr) as (rc' & o' & -> & Hm' & Hn'); [reflexivity | reflexivity|].
  cbn [mbind option_bind]. rewrite Hm'. cbn [mbind option_bind]. rewrite Hlaunch. eauto.
Qed.

(** Unmask signals and time-outs end in the same way. *)
Lemma net_unmasked rc mips o k m :
  mask_net id kp ks post rc mips o → k ∈ ks → mps (o_reg o) !! k = Some m → mask_recv m = true →
  ∃ rc' o', change_path e false (m_name m) id rc o = Some (true, o') ∧ mps (o_reg o') !! k = Some m ∧
    mask_net id kp ks post rc' (<[m_name m := false]> mips) (set_point k (m <| mask_recv := false |>) o').
Proof.
  intros Hn Hk Hm Hr. pose proof (net_change false id kp ks post rc mips o k m m Hn Hk Hm Hr eq_refl eq_refl) as H. by rewrite (set_point_id k m o Hm) in H.
Qed.

Lemma net_round rc mips o : mask_net id kp ks post rc mips o → ∃ o', mask_exec kp SendRound o = Some o' ∧ mask_net id kp ks post rc mips o'.
Proof.
  intros Hn. destruct (mn_out _ _ _ _ _ _ _ Hn) as (m & Hm & Hsig & Hsend). unfold mask_exec, send_mask_round. rewrite Hm. cbn [mbind option_bind].
  destruct (mask_send m) eqn:Hms; [|eauto]. destruct (mask_packed o kp m "mask" Hsig (mn_node _ _ _ _ _ _ _ Hn)) as [p ->]; [by left|]. cbn [mbind option_bind].
  unfold inject, mp_inject_packet. rewrite Hm. cbn [mbind option_bind]. destruct (injections m) as [|ij l]; cbn [mbind option_bind]; eexists; (split; [reflexivity|]); [by destruct Hn; split|].
  set (m' := m <| oam_send := u32 (oam_send m + 1) |>).
  assert (∀ k, k ∈ ks → <[kp := m']> (mps (o_reg o)) !! k = mps (o_reg o) !! k) as Hold.
  { intros k Hk. apply lookup_insert_ne. intros <-. by apply (mn_apart _ _ _ _ _ _ _ Hn). }
  destruct Hn as [N1 N2 N3 N4 N5 N6 N7 N8 N9 N10 N11 N12]. split; try done; cbn.
  - intros k Hk. rewrite Hold by done. by apply N6.
  - intros n Hx. destruct (N7 n Hx) as (k & x & Hk & Hx' & Hnm). exists k, x. by rewrite Hold.
  - intros k k' x x' Hk Hk'. rewrite !Hold by done. by apply N8.
  - exists m'. rewrite lookup_insert_eq. split; [done|]. split; [destruct Hsig; by split|]. by rewrite <- Hsend, <- Hms.
Qed.

Lemma net_step rc mips o op : mask_net id kp ks post rc mips o → at_input ks op → ∃ rc' mips' o', mask_exec kp op o = Some o' ∧ mask_net id kp ks post rc' mips' o'.
Proof.
  intros Hn Hop. destruct op as [k|k|k|]; cbn [at_input] in Hop.
  - by apply (net_masked rc mips).
  - cbn [mask_exec]. unfold mp_receive_unmask_signal. destruct (mn_inputs _ _ _ _ _ _ _ Hn k Hop) as (m & Hm & Hin). rewrite Hm. cbn [mbind option_bind].
    rewrite (in_name _ _ _ Hin), (recovery_found _ _ _ _ _ _ _ _ Hn Hin). cbn [negb]. destruct (mask_recv m) eqn:Hr; [|eauto].
    destruct (net_unmasked rc mips o k m Hn Hop Hm Hr) as (rc' & o' & -> & Hm' & Hn'). cbn [mbind option_bind]. rewrite Hm'. cbn [mbind option_bind]. eauto.
  - cbn [mask_exec]. destruct (mn_inputs _ _ _ _ _ _ _ Hn k Hop) as (m & Hm & Hin). rewrite Hm. cbn [mbind option_bind]. destruct (mask_recv m) eqn:Hr; [|eauto].
    unfold mask_timeout. rewrite Hm. cbn [mbind option_bind]. rewrite (recovery_found _ _ _ _ _ _ _ _ Hn Hin). cbn [mbind option_bind].
    destruct (net_unmasked rc mips o k m Hn Hop Hm Hr) as (rc' & o' & -> & Hm' & Hn'). cbn [mbind option_bind]. rewrite Hm'. cbn [mbind option_bind]. eauto.
  - destruct (net_round rc mips o Hn) as (o' & E & Hn'). eauto.
Qed.

(** The point behind signals exactly while all points in front are told to. *)
Lemma net_signals rc mips o :
  mask_net id kp ks post rc mips o →
  mask_send <$> mps (o_reg o) !! kp = Some (bool_decide (Forall (λ k, mask_recv <$> mps (o_reg o) !! k = Some true) ks)).
Proof.
  intros Hn. destruct (mn_out _ _ _ _ _ _ _ Hn) as (m & -> & _ & Hout). cbn. rewrite Hout. f_equal. destruct (mn_inv _ _ _ _ _ _ _ Hn) as (mips' & Hm & Hl & Hb).
  rewrite (mn_mips _ _ _ _ _ _ _ Hn) in Hm. injection Hm as <-. rewrite Hl, (mn_all _ _ _ _ _ _ _ Hn).
  assert (map_Forall (λ _ b, b = true) mips ↔ Forall (λ k, mask_recv <$> mps (o_reg o) !! k = Some true) ks) as Heq.
  { rewrite Forall_forall. split.
    - intros Hall k Hk. destruct (mn_inputs _ _ _ _ _ _ _ Hn k Hk) as (x & -> & [_ _ Hst]). cbn. f_equal. by eapply Hall.
    - intros Hall n b Hb'. destruct (mn_names _ _ _ _ _ _ _ Hn n (ex_intro _ b Hb')) as (k & x & Hk & Hx & <-). destruct (mn_inputs _ _ _ _ _ _ _ Hn k Hk) as (x' & Hx' & [_ _ Hst]).
      rewrite Hx in Hx'. injection Hx' as <-. specialize (Hall k Hk). rewrite Hx in Hall. cbn in Hall. injection Hall as Hall. congruence. }
  case_bool_decide as Hc.
  - apply Heq, all_masked in Hc. lia.
  - apply Z.eqb_neq. intros H0. apply Hc, Heq, all_masked. lia.
Qed.

End step.
End net.

Fixpoint mask_steps (e : Env) (kp : nat) (ops : list MaskOp) (o : Oam) : option Oam :=
  match ops with [] => Some o | op :: ops => o ← mask_exec e kp op o; mask_steps e kp ops o end.


(** ** Witness *)

Definition pre_point (name : string) : OAM_MaintenancePoint :=
  sample_point <| m_name := name |> <| m_type := OAM_Intermediate |> <| m_object := Some (mk_objref 7 PIPEOBJ_SEQREC "r" 3) |>.
Definition post_point : OAM_MaintenancePoint := (pre_point "o_c_L3_post-r") <| injections := [mk_injection 1 0] |>.

Definition two_paths : RecoveryObject :=
  mk_obj (Rcvy.seq_rec_register_postAutoMIP
    (Rcvy.seq_rec_register_preAutoMIP
       (Rcvy.seq_rec_register_preAutoMIP (Rcvy.new_seq_rec "r" Rcvy.RCVY_Vector false false 4 100 (mk_diag 2 0 0 0 0)) "o_a_L3_pre-r") "o_b_L3_pre-r") "o_c_L3_post-r") None.

Definition mask_oam : Oam :=
  mk_oam (mk_registry {[0%nat := pre_point "o_a_L3_pre-r"; 1%nat := pre_point "o_b_L3_pre-r"; 2%nat := post_point]}
            (Some (hashmap_insert (mk_hash (replicate 9 []) 0) "o_c_L3_post-r" 2%nat).1.2) 3 [])
    (mk_core None None None None 7) ∅ ∅ 0 {[7%nat := Obj.PIPEOBJ_SEQREC two_paths]} [].

Definition two_masks : gmap string bool := {["o_a_L3_pre-r" := false; "o_b_L3_pre-r" := false]}.

Lemma post_signals : signals sample_env (o_core mask_oam) post_point.
Proof.
  split; [reflexivity | reflexivity | split; [apply Z.leb_le | apply Z.ltb_lt]; vm_compute; reflexivity|].
  intros k type t Ht. assert (if message_text post_point (mask_message (s_now (e_sender sample_env)) (o_core mask_oam) k post_point type) is Some t then 88 + Z.of_nat (String.length t) <=? PACKET_BUF_LEN else true) as Hb.
  { rewrite !elem_of_cons in Ht. destruct Ht as [-> |[-> |[]%elem_of_nil]]; vm_compute; exact I. }
  intros E. rewrite E in Hb. by apply Z.leb_le, Is_true_true.
Qed.

Lemma mask_oam_net : mask_net sample_env 7 2 [0%nat; 1%nat] "o_c_L3_post-r" two_paths two_masks mask_oam.
Proof.
  split; try reflexivity.
  - exists two_masks. split; [reflexivity|]. split; [vm_compute; reflexivity|]. split; [apply Z.leb_le | apply Z.ltb_lt]; vm_compute; reflexivity.
  - intros k Hk. rewrite !elem_of_cons in Hk. destruct Hk as [-> |[-> |[]%elem_of_nil]]; eexists; (split; [reflexivity | split; reflexivity]).
  - intros n [b Hn]. unfold two_masks in Hn. apply lookup_insert_Some in Hn as [[<- _]|[_ [<- _]%lookup_singleton_Some]].
    + exists 0%nat, (pre_point "o_a_L3_pre-r"). split; [by left | by split].
    + exists 1%nat, (pre_point "o_b_L3_pre-r"). split; [by right; left | by split].
  - intros k k' m m' Hk Hk' Hm Hm' Hnm. rewrite !elem_of_cons in Hk, Hk'.
    destruct Hk as [-> |[-> |[]%elem_of_nil]], Hk' as [-> |[-> |[]%elem_of_nil]]; try reflexivity; injection Hm as <-; injection Hm' as <-; discriminate Hnm.
  - by apply (bool_decide_unpack _); vm_compute.
  - exists post_point. split; [reflexivity|]. split; [apply post_signals | reflexivity].
  - split; [apply Z.leb_le | apply Z.ltb_lt]; vm_compute; reflexivity.
Qed.


End MaskNet.
